(* ===== verification/_CoqProject ===== *)
-Q . S2P
Prelude.v
DS.v
FileInfo.v
Checksum.v
Util.v
Wire.v
IO.v
Isal.v
Gf256.v
RSCode.v
RSDecode.v
RSTheorems.v
FsContainer.v
FsTheorems.v
Container.v
FsInstance.v
S3.v
AwsContainer.v
AwsTheorems.v
AliContainer.v
AzureContainer.v
ContainerManager.v
ManagerTheorems.v
Agent.v
AgentTheorems.v
Coordinator.v
ProxyCoordinator.v
ZmqMessages.v
ZmqClient.v
ZmqTheorems.v
CoordinatorTheorems.v
RegistrationTheorems.v
File.v
ChunkManager.v
AccessTheorems.v
StripeTheorems.v
WriteTheorems.v
ChunkSample.v
ChunkRepair.v
RepairTheorems.v
RepairSample.v
ChunkModify.v
ModifyTheorems.v
Redis.v
MetaKeys.v
RedisServer.v
MetaStore.v
MetaList.v
MetaTheorems.v
MetaVersions.v
ListTheorems.v
MetaSample.v
ListSample.v
MetaLocks.v
MetaJournal.v
JournalTheorems.v
ImmutablePolicy.v
PolicyStore.v
PolicyTheorems.v
Dedup.v
Staging.v
Proxy.v
ProxyRead.v
ProxyOps.v
ProxyPolicies.v
ProxyFrame.v
ProxyStripes.v
ProxyWrites.v
ProxyReads.v
ProxyRoundTrip.v
ZmqHandler.v
ClientTrips.v
ProxyRuns.v
ProxyTrips.v
ClientSample.v
RingBuffer.v
