(* ===== verification/Prelude.v ===== *)
(** * Nexoedge, a multi-cloud storage system with erasure coding

    Clients talk to a proxy.  The proxy cuts a file into stripes, encodes every stripe
    with a Reed-Solomon code and spreads the chunks over containers, which are managed by
    agents; it keeps the metadata of files in a key-value store.  Files can be versioned,
    protected by immutable policies, staged on a local disk and deduplicated; lost chunks
    are repaired at the proxy or at an agent.  The sources are under [src/src]; the paths
    below are relative to it.

    The development is a shallow embedding: functions of the source are functions here,
    state is passed explicitly, and what may fail is an [outcome]: [Ok] with a result,
    [Fail] for an exception or an error return, [Undef] for undefined behaviour, such as
    an access beyond a buffer.  Integers are [Z] with the wrap-around of their width
    written out ([u8], [i32], [u64], ...), buffers are lists of bytes, [None] is a null
    pointer.

    ** Which file models what

    - Prelude (this file), Wire: integers, loops, arrays, messages as lists of frames, the
      parser monad; no code of the repository.
    - DS, File, FileInfo: the data structures of [ds/].  Checksum, Util: checksums as text,
      [common/checksum_calculator.hh], and the helpers of [common/util.hh].
    - IO: the messages between proxy and agents, [common/io.cc].
    - Isal: the coding library ISA-L as a class with its documented laws; Gf256 is an
      instance.  RSCode: [common/coding/]; RSDecode, RSTheorems: its theorems.
    - FsContainer, FsTheorems: [agent/container/fs.cc]; Container: the interface
      [agent/container/container.hh] as a class; FsInstance: the former implements the
      latter.  S3: an S3 object store as a class with its documented laws, and a bucket as
      an instance; AwsContainer, AwsTheorems: [agent/container/aws_s3.cc], which implements
      the interface too.  AliContainer, AzureContainer: [agent/container/alicloud.cc] and
      [agent/container/azure_blob.cc], each over a class for its service.
      ContainerManager, ManagerTheorems: [agent/container_manager.cc], over the interface.
    - Agent, AgentTheorems: the request handler of [agent/agent.cc].
    - Coordinator: the messages of [common/coordinator.cc] and the agent's side;
      ProxyCoordinator, CoordinatorTheorems, RegistrationTheorems: [proxy/coordinator.cc].
    - ChunkManager, ChunkRepair, ChunkModify: [proxy/chunk_manager.cc]; AccessTheorems,
      StripeTheorems, WriteTheorems, RepairTheorems, ModifyTheorems: its theorems, and
      ChunkSample, RepairSample concrete runs.
    - Redis, RedisServer: the key-value server and the connection to it, as classes with
      the documented behaviour of the commands in use, and instances.  MetaKeys,
      MetaStore, MetaList, MetaJournal: [proxy/metastore/redis_metastore.cc];
      MetaTheorems, MetaVersions, MetaLocks, ListTheorems, JournalTheorems: its theorems;
      MetaSample, ListSample: concrete runs.
    - ImmutablePolicy, PolicyStore, PolicyTheorems: [ds/immutable_policy.cc] and
      [proxy/immutable/].
    - Dedup: the interface of a deduplication module and the module that finds nothing,
      [proxy/dedup/].  Staging: [proxy/staging/].
    - Proxy, ProxyRead, ProxyOps: [proxy/proxy_file_ops.cc], the composition of all of the
      above; the state [Proxy.t] has the state of every part.  ProxyPolicies, ProxyFrame,
      ProxyStripes, ProxyWrites, ProxyReads, ProxyRoundTrip: its theorems; ProxyRuns,
      ProxyTrips: concrete runs.
    - ZmqMessages: the messages of [proxy/interfaces/zmq.cc]; ZmqClient: the client library
      [client/c/zmq_interface.c]; ZmqTheorems: both ends agree.  ZmqHandler: the worker of
      [proxy/interfaces/zmq.cc]; ClientTrips, ClientSample: a client, the proxy and the
      agents together.
    - RingBuffer: [ds/ring_buffer.hh].

    Agents, the network and the key-value server are functions or states with a class of
    operations, so that they may answer in any way that their documentation allows, lose
    messages, and be slow; every theorem says what it needs of them.  A proxy's program is
    a state monad over [Proxy.t]; its [world] gives what each call finds: the clock, the
    answers of the agents, whether the connections work, whether memory can be had.

    ** What the theorems show

    - Coding: any [k] chunks of a stripe give the data and any lost chunk back, unless the
      library finds the chosen rows singular; the repair plan and rack-aware repair compute
      the same chunks.
    - Containers and agents: what was put is read back from a file system that keeps the
      bytes it accepts, and has the right checksum on any where it is verified; a revert
      undoes a put, clean-up ends and removes the expired backups only; the manager stores all chunks of a request or
      reports a failure; a repair at an agent asks the agents named in the request, rebuilds
      exactly the lost chunks, stores the first and sends the others to their agents.  The S3 container satisfies the laws of the
      interface on every store that behaves as documented; a put is undone by the revert
      of its version, and an update of the usage finds the size of all objects, however they are
      listed, unless a request fails.
    - Messages: reading a written chunk event, coordinator event, client request or reply
      returns it and consumes exactly the message; every message between client and proxy
      is well formed.
    - Coordinator: with the static and the round-robin policy, new chunks go to distinct
      live containers with room so that the loss of [f] agents is tolerated; in every state
      that is reached by registrations that list each container once the tables agree.
    - Stripes: a write records exactly the containers that acknowledged, a read returns the
      data from the first [k] good replies, repairs restore the lost chunks (the theorems
      leave the rack-aware repair of one chunk out, except for the decoding), a copy or move
      sends one request for each chunk in range, a deletion one for each chunk marked.
    - Metadata: the store refines a history of versions for every file, whatever the order
      in which the server lists keys; locks exclude each other and can be taken again;
      journals of one page are maps; a listing by a prefix names exactly the files there.
    - Policies: a policy protects its file until its end through every sequence of calls
      and lost connections, and the proxy refuses operations on protected files before
      anything changes.
    - The whole: a file that is written through the proxy is read back while any [k]
      containers of every stripe answer, older versions stay, other files are unchanged;
      and a client whose write was answered with success is a client whose later read, or
      anybody's, returns the same bytes.

    ** Bounds and fuel

    Loops over arrays are structural.  Where the source repeats until a condition holds,
    the model takes fuel that is enough: a read makes at most one round per candidate
    ([ChunkManager.access_rounds]); the largest data size of a chunk is found after one
    correction ([ChunkManager.shrink]); files are written, read and copied in steps of at
    least one byte ([write_loop], [read_loop], [copy_loop]); a clean-up of backups needs at
    most one pass more than there are files ([FsContainer.cleanUpRound]), and
    [FsTheorems.fs_cleanup_livelock] is the run that never ends; the
    year of a date is found in at most 400 steps; a scan of folders says [None] when the
    fuel it was given was not enough; a listing of a bucket has no more pages than objects
    ([AwsContainer.getTotalSize]).  Theorems on results state that the result is
    reached, not only that a result is right.  Sizes stay below 2^63, chunk counts and
    versions below 2^31, as the types of the source require; the theorems state these
    bounds.

    ** Not modelled

    - The cloud services and their client libraries are classes with documented laws; the
      set-up of the clients and the Azure listing for the usage are not modelled, and base64
      is a parameter.
      The Alibaba Cloud and Azure containers are not instances of [Container]: their
      operations overrun a buffer or throw.
    - The background work: [proxy/bg_chunk_handler.cc] and the repair, scan, journal check
      and write-back threads of [proxy/proxy.cc], which run the modelled operations of the
      chunk manager, the metadata store and the staging area from timers and queues.
    - [ds/byte_buffer.hh]: a holder of an allocated array; its one user has a list.
    - [common/config.cc]: reads ini files through boost; its values are parameters.
    - [proxy/interfaces/immutable_management_apis.cc]: a web server, JSON, LDAP and tokens
      from libraries around the policy manager.
    - [proxy/replication/]: connections to Redis sentinels.
    - The programs, tools, benchmarks and statistics: start-up, options, printing, timing.
    - Threads: an operation runs alone between the points where the source waits, except
      for the ring buffer, the registry of agents and the file locks, which are modelled as
      transition systems of several parties.
    - Time measurements, log messages and the release of memory, except where a pointer
      that was freed is used again.  *)

From stdpp Require Export base list gmap strings numbers sorting.
From Stdlib Require Export ZArith Lia.

#[global] Open Scope Z_scope.

(** * Machine integers

    A w-bit integer is a [Z]; the functions below are the conversions the
    compiler inserts.  Unsigned types wrap, [int] is represented by the value
    in [-2^31, 2^31). *)

Definition u8 (z : Z) : Z := z mod 256.
Definition u16 (z : Z) : Z := z mod 65536.
Definition u32 (z : Z) : Z := z mod 4294967296.
Definition u64 (z : Z) : Z := z mod 18446744073709551616.
Definition i16 (z : Z) : Z := (z + 32768) mod 65536 - 32768.
Definition i32 (z : Z) : Z := (z + 2147483648) mod 4294967296 - 2147483648.
Definition i64 (z : Z) : Z :=
  (z + 9223372036854775808) mod 18446744073709551616 - 9223372036854775808.

Lemma u8_small z : 0 <= z < 256 -> u8 z = z.
Proof. apply Z.mod_small. Qed.
Lemma u16_small z : 0 <= z < 65536 -> u16 z = z.
Proof. apply Z.mod_small. Qed.
Lemma u32_small z : 0 <= z < 4294967296 -> u32 z = z.
Proof. apply Z.mod_small. Qed.
Lemma u64_small z : 0 <= z < 18446744073709551616 -> u64 z = z.
Proof. apply Z.mod_small. Qed.
Lemma i16_small z : -32768 <= z < 32768 -> i16 z = z.
Proof. intros H. unfold i16. rewrite Z.mod_small; lia. Qed.
Lemma i32_small z : -2147483648 <= z < 2147483648 -> i32 z = z.
Proof. intros H. unfold i32. rewrite Z.mod_small; lia. Qed.
Lemma i64_small z :
  -9223372036854775808 <= z < 9223372036854775808 -> i64 z = z.
Proof. intros H. unfold i64. rewrite Z.mod_small; lia. Qed.

Lemma u32_range z : 0 <= u32 z < 4294967296.
Proof. apply Z.mod_pos_bound. lia. Qed.
Lemma i32_range z : -2147483648 <= i32 z < 2147483648.
Proof.
  unfold i32. pose proof (Z.mod_pos_bound (z + 2147483648) 4294967296). lia.
Qed.

Create HintDb width.
#[export] Hint Rewrite u8_small u16_small u32_small u64_small
  i16_small i32_small i64_small using lia : width.

(** * Case analysis on boolean tests *)

Ltac bdestr_atom :=
  match goal with
  | |- context [Z.ltb ?a ?b] => destruct (Z.ltb_spec a b)
  | |- context [Z.leb ?a ?b] => destruct (Z.leb_spec a b)
  | |- context [Z.eqb ?a ?b] => destruct (Z.eqb_spec a b)
  | |- context [Nat.ltb ?a ?b] => destruct (Nat.ltb_spec a b)
  | |- context [Nat.leb ?a ?b] => destruct (Nat.leb_spec a b)
  | |- context [Nat.eqb ?a ?b] => destruct (Nat.eqb_spec a b)
  | H : context [Z.ltb ?a ?b] |- _ => destruct (Z.ltb_spec a b)
  | H : context [Z.leb ?a ?b] |- _ => destruct (Z.leb_spec a b)
  | H : context [Z.eqb ?a ?b] |- _ => destruct (Z.eqb_spec a b)
  | H : context [Nat.ltb ?a ?b] |- _ => destruct (Nat.ltb_spec a b)
  | H : context [Nat.leb ?a ?b] |- _ => destruct (Nat.leb_spec a b)
  | H : context [Nat.eqb ?a ?b] |- _ => destruct (Nat.eqb_spec a b)
  end.

(** [bdestr] splits on every arithmetic test in sight and closes the cases
    that are impossible. *)
Ltac bdestr := repeat (bdestr_atom; simpl in *; try lia; try done).

(** * Counted loops

    [for_loop body i m s] runs [body i], [body (i+1)], ..., [m] iterations in
    all; it is [for (; i < i0 + m; i++)] with the loop's variables in [s]. *)

Fixpoint for_loop {S} (body : nat -> S -> S) (i m : nat) (s : S) : S :=
  match m with
  | O => s
  | Datatypes.S m' => for_loop body (Datatypes.S i) m' (body i s)
  end.

(** A body that may leave the loop early. *)
Inductive step (S : Type) : Type := Continue (s : S) | Break (s : S).
Arguments Continue {S} s.
Arguments Break {S} s.

Definition step_state {S} (c : step S) : S :=
  match c with Continue s | Break s => s end.

Fixpoint for_break {S} (body : nat -> S -> step S) (i m : nat) (s : S) : step S :=
  match m with
  | O => Continue s
  | Datatypes.S m' =>
      match body i s with
      | Continue s' => for_break body (Datatypes.S i) m' s'
      | Break s' => Break s'
      end
  end.

Section loops.
Context {S : Type}.

Lemma for_loop_inv (P : nat -> S -> Prop) body i m s :
  P i s ->
  (forall j t, (i <= j < i + m)%nat -> P j t -> P (Datatypes.S j) (body j t)) ->
  P (i + m)%nat (for_loop body i m s).
Proof.
  revert i s. induction m as [|m IH]; intros i s H0 Hstep; simpl.
  - by rewrite Nat.add_0_r.
  - rewrite Nat.add_succ_r. change (Datatypes.S (i + m)) with (Datatypes.S i + m)%nat.
    apply IH.
    + apply Hstep; [lia | done].
    + intros j t Hj. apply Hstep. lia.
Qed.

Lemma for_loop_ext (f g : nat -> S -> S) i m s :
  (forall j t, (i <= j < i + m)%nat -> f j t = g j t) ->
  for_loop f i m s = for_loop g i m s.
Proof.
  revert i s. induction m as [|m IH]; intros i s H; simpl; [done|].
  rewrite H by lia. apply IH. intros j t Hj. apply H. lia.
Qed.

Lemma for_loop_snoc (f : nat -> S -> S) i m s :
  for_loop f i (m + 1) s = f (i + m)%nat (for_loop f i m s).
Proof.
  revert i s. induction m as [|m IH]; intros i s; simpl.
  - by rewrite Nat.add_0_r.
  - rewrite IH. f_equal. lia.
Qed.

Lemma for_break_inv (P : nat -> S -> Prop) (Q : S -> Prop) body i m s :
  P i s ->
  (forall j t, (i <= j < i + m)%nat -> P j t ->
    match body j t with
    | Continue t' => P (Datatypes.S j) t'
    | Break t' => Q t'
    end) ->
  match for_break body i m s with
  | Continue t => P (i + m)%nat t
  | Break t => Q t
  end.
Proof.
  revert i s. induction m as [|m IH]; intros i s H0 Hstep; simpl.
  - by rewrite Nat.add_0_r.
  - pose proof (Hstep i s ltac:(lia) H0) as Hs.
    destruct (body i s) as [s'|s']; [|done].
    rewrite Nat.add_succ_r. change (Datatypes.S (i + m)) with (Datatypes.S i + m)%nat.
    apply IH; [done|]. intros j t Hj. apply Hstep. lia.
Qed.
End loops.

(** * Arrays

    A C array is a list.  [slice] reads a block (the source operand of a
    [memcpy]), stdpp's [list_inserts] writes one; [block_read] is the checked
    read, [None] standing for an access outside the allocation. *)

Definition slice {A} (off len : nat) (l : list A) : list A :=
  take len (drop off l).

Definition block_read {A} (l : list A) (off len : nat) : option (list A) :=
  if decide (off + len <= length l)%nat then Some (slice off len l) else None.

Section arrays.
Context {A : Type}.
Implicit Types l : list A.

Lemma length_slice off len l :
  (off + len <= length l)%nat -> length (slice off len l) = len.
Proof. intros H. unfold slice. rewrite length_take, length_drop. lia. Qed.

Lemma lookup_slice off len l i :
  (i < len)%nat -> slice off len l !! i = l !! (off + i)%nat.
Proof.
  intros H. unfold slice. rewrite lookup_take_lt by done. by rewrite lookup_drop.
Qed.

Lemma slice_all l : slice 0 (length l) l = l.
Proof. unfold slice. rewrite drop_0. by rewrite take_ge. Qed.

Lemma slice_split off m1 m2 l :
  slice off (m1 + m2) l = slice off m1 l ++ slice (off + m1) m2 l.
Proof.
  unfold slice. rewrite <- (take_take_drop (drop off l) m1 m2). by rewrite drop_drop.
Qed.

Lemma block_read_Some l off len b :
  block_read l off len = Some b ->
  b = slice off len l /\ (off + len <= length l)%nat.
Proof. unfold block_read. case_decide; intros; simplify_eq; done. Qed.

Lemma block_read_in l off len :
  (off + len <= length l)%nat -> block_read l off len = Some (slice off len l).
Proof. intros. unfold block_read. by rewrite decide_True. Qed.

Lemma lookup_total_lt `{Inhabited A} l i :
  (i < length l)%nat -> l !! i = Some (l !!! i).
Proof.
  intros [x Hx]%lookup_lt_is_Some_2. by rewrite (list_lookup_total_correct _ _ _ Hx).
Qed.
End arrays.

Lemma lookup_total_map {A B} `{!Inhabited A, !Inhabited B} (f : A -> B) (l : list A) j :
  (j < length l)%nat -> map f l !!! j = f (l !!! j).
Proof.
  intros Hj. apply list_lookup_total_correct.
  by rewrite list_lookup_fmap, (lookup_total_lt l) by done.
Qed.

Lemma filter_all {A} (P : A -> Prop) `{forall x, Decision (P x)} l :
  Forall P l -> filter P l = l.
Proof. induction 1; [done|]. by rewrite filter_cons_True, IHForall. Qed.

Lemma filter_none {A} (P : A -> Prop) `{forall x, Decision (P x)} l :
  Forall (fun x => ~ P x) l -> filter P l = [].
Proof. induction 1; [done|]. by rewrite filter_cons_False, IHForall. Qed.

Lemma forallb_ext_in {A} (f g : A -> bool) l :
  (forall x, In x l -> f x = g x) -> forallb f l = forallb g l.
Proof. induction l as [|x l IH]; intros H; simpl in *; [done|]. by rewrite H, IH by auto. Qed.

(** * Fallible C++ code

    [Fail] is a function that reports failure to its caller, [Undef] an access
    outside the memory it owns. *)

Inductive outcome (A : Type) : Type := Undef | Fail | Ok (a : A).
Arguments Undef {A}.
Arguments Fail {A}.
Arguments Ok {A} a.

Definition obind {A B} (o : outcome A) (f : A -> outcome B) : outcome B :=
  match o with Undef => Undef | Fail => Fail | Ok a => f a end.

Declare Scope outcome_scope.
Delimit Scope outcome_scope with outcome.
Notation "'let*' x ':=' c1 'in' c2" := (obind c1 (fun x => c2))
  (at level 200, x pattern, c1 at level 100, c2 at level 200) : outcome_scope.

(** A memory access: outside the block it is undefined. *)
Definition access {A} (o : option A) : outcome A :=
  match o with Some a => Ok a | None => Undef end.

(** A test whose failure ends the function with an error. *)
Definition guard_ok (b : bool) : outcome unit := if b then Ok tt else Fail.

Fixpoint for_outcome {S} (body : nat -> S -> outcome S) (i m : nat) (s : S) : outcome S :=
  match m with
  | O => Ok s
  | Datatypes.S m' => obind (body i s) (for_outcome body (Datatypes.S i) m')
  end.

Lemma for_outcome_ok {S} (P : nat -> S -> Prop) body i m s :
  P i s ->
  (forall j t, (i <= j < i + m)%nat -> P j t ->
    exists t', body j t = Ok t' /\ P (Datatypes.S j) t') ->
  exists t, for_outcome body i m s = Ok t /\ P (i + m)%nat t.
Proof.
  revert i s. induction m as [|m IH]; intros i s H0 Hstep; simpl.
  - exists s. by rewrite Nat.add_0_r.
  - destruct (Hstep i s ltac:(lia) H0) as (s' & -> & Hs'). simpl.
    rewrite Nat.add_succ_r. change (Datatypes.S (i + m)) with (Datatypes.S i + m)%nat.
    apply IH; [done|]. intros j t Hj. apply Hstep. lia.
Qed.

Create HintDb len.
#[export] Hint Rewrite @length_app @length_drop @length_take @length_fmap
  @length_replicate @length_insert @length_inserts @length_seq @length_imap
  @length_reverse : len.

(** [len] normalises lengths and calls [lia]. *)
Ltac len := autorewrite with len in *; simpl in *; try lia.
