(* ===== verification/DS.v ===== *)
(** Data structures shared by the proxy and the agents: the storage chunk
    ([src/ds/chunk.hh]), the coding parameters of a file
    ([src/ds/coding_meta.hh]) and the operation codes ([src/common/define.hh]).

    Buffers are modelled by value: [data] is [None] for a null pointer and the
    bytes otherwise; [freeData] says who owns it. *)

From Stdlib Require Import Ascii.
From Stdlib Require String.
From stdpp Require Import pretty.
From S2P Require Import Prelude.

(** * Constants of [define.hh] *)

Definition INVALID_CHUNK_ID : Z := -1.
Definition INVALID_CONTAINER_ID : Z := -1.
Definition UNUSED_CONTAINER_ID : Z := -2.
Definition INVALID_NAMESPACE_ID : Z := u8 (-1).
Definition INVALID_FILE_OFFSET : Z := u64 (-1).
Definition INVALID_FILE_LENGTH : Z := INVALID_FILE_OFFSET.
Definition MD5_DIGEST_LENGTH : nat := 16.

(** [enum CodingScheme]: the numeric values the code stores in one byte. *)
Definition RS : Z := 0.
Definition UNKNOWN_CODE : Z := 1.

Inductive Opcode :=
| PUT_CHUNK_REQ | GET_CHUNK_REQ | DEL_CHUNK_REQ | CPY_CHUNK_REQ | ENC_CHUNK_REQ
| PUT_CHUNK_REP_SUCCESS | GET_CHUNK_REP_SUCCESS | DEL_CHUNK_REP_SUCCESS
| CPY_CHUNK_REP_SUCCESS | ENC_CHUNK_REP_SUCCESS
| PUT_CHUNK_REP_FAIL | GET_CHUNK_REP_FAIL | DEL_CHUNK_REP_FAIL
| CPY_CHUNK_REP_FAIL | ENC_CHUNK_REP_FAIL
| REG_AGENT_REQ | REG_AGENT_REP_SUCCESS | REG_AGENT_REP_FAIL
| UPD_AGENT_REQ | UPD_AGENT_REP
| SYN_PING | ACK_PING
| RPR_CHUNK_REQ | RPR_CHUNK_REP_SUCCESS | RPR_CHUNK_REP_FAIL
| CHK_CHUNK_REQ | CHK_CHUNK_REP_SUCCESS | CHK_CHUNK_REP_FAIL
| MOV_CHUNK_REQ | MOV_CHUNK_REP_SUCCESS | MOV_CHUNK_REP_FAIL
| RVT_CHUNK_REQ | RVT_CHUNK_REP_SUCCESS | RVT_CHUNK_REP_FAIL
| GET_SYSINFO_REQ | GET_SYSINFO_REP
| VRF_CHUNK_REQ | VRF_CHUNK_REP_SUCCESS | VRF_CHUNK_REP_FAIL
| UNKNOWN_OP.

#[export] Instance Opcode_eq_dec : EqDecision Opcode.
Proof. solve_decision. Defined.

(** The numbers of the opcodes, in the order of the enumeration. *)
Definition opcode_num (o : Opcode) : Z :=
  match o with
  | PUT_CHUNK_REQ => 0
  | GET_CHUNK_REQ => 1
  | DEL_CHUNK_REQ => 2
  | CPY_CHUNK_REQ => 3
  | ENC_CHUNK_REQ => 4
  | PUT_CHUNK_REP_SUCCESS => 5
  | GET_CHUNK_REP_SUCCESS => 6
  | DEL_CHUNK_REP_SUCCESS => 7
  | CPY_CHUNK_REP_SUCCESS => 8
  | ENC_CHUNK_REP_SUCCESS => 9
  | PUT_CHUNK_REP_FAIL => 10
  | GET_CHUNK_REP_FAIL => 11
  | DEL_CHUNK_REP_FAIL => 12
  | CPY_CHUNK_REP_FAIL => 13
  | ENC_CHUNK_REP_FAIL => 14
  | REG_AGENT_REQ => 15
  | REG_AGENT_REP_SUCCESS => 16
  | REG_AGENT_REP_FAIL => 17
  | UPD_AGENT_REQ => 18
  | UPD_AGENT_REP => 19
  | SYN_PING => 20
  | ACK_PING => 21
  | RPR_CHUNK_REQ => 22
  | RPR_CHUNK_REP_SUCCESS => 23
  | RPR_CHUNK_REP_FAIL => 24
  | CHK_CHUNK_REQ => 25
  | CHK_CHUNK_REP_SUCCESS => 26
  | CHK_CHUNK_REP_FAIL => 27
  | MOV_CHUNK_REQ => 28
  | MOV_CHUNK_REP_SUCCESS => 29
  | MOV_CHUNK_REP_FAIL => 30
  | RVT_CHUNK_REQ => 31
  | RVT_CHUNK_REP_SUCCESS => 32
  | RVT_CHUNK_REP_FAIL => 33
  | GET_SYSINFO_REQ => 34
  | GET_SYSINFO_REP => 35
  | VRF_CHUNK_REQ => 36
  | VRF_CHUNK_REP_SUCCESS => 37
  | VRF_CHUNK_REP_FAIL => 38
  | UNKNOWN_OP => 39
  end.

Definition opcodes : list Opcode :=
  [PUT_CHUNK_REQ; GET_CHUNK_REQ; DEL_CHUNK_REQ; CPY_CHUNK_REQ; ENC_CHUNK_REQ;
   PUT_CHUNK_REP_SUCCESS; GET_CHUNK_REP_SUCCESS; DEL_CHUNK_REP_SUCCESS; CPY_CHUNK_REP_SUCCESS;
   ENC_CHUNK_REP_SUCCESS; PUT_CHUNK_REP_FAIL; GET_CHUNK_REP_FAIL; DEL_CHUNK_REP_FAIL;
   CPY_CHUNK_REP_FAIL; ENC_CHUNK_REP_FAIL; REG_AGENT_REQ; REG_AGENT_REP_SUCCESS;
   REG_AGENT_REP_FAIL; UPD_AGENT_REQ; UPD_AGENT_REP; SYN_PING; ACK_PING; RPR_CHUNK_REQ;
   RPR_CHUNK_REP_SUCCESS; RPR_CHUNK_REP_FAIL; CHK_CHUNK_REQ; CHK_CHUNK_REP_SUCCESS;
   CHK_CHUNK_REP_FAIL; MOV_CHUNK_REQ; MOV_CHUNK_REP_SUCCESS; MOV_CHUNK_REP_FAIL; RVT_CHUNK_REQ;
   RVT_CHUNK_REP_SUCCESS; RVT_CHUNK_REP_FAIL; GET_SYSINFO_REQ; GET_SYSINFO_REP; VRF_CHUNK_REQ;
   VRF_CHUNK_REP_SUCCESS; VRF_CHUNK_REP_FAIL; UNKNOWN_OP].

(** Numbers that name no opcode fall into the default branches, as
    [UNKNOWN_OP] does. *)
Definition opcode_of_num (z : Z) : Opcode := default UNKNOWN_OP (opcodes !! Z.to_nat z).

Lemma opcode_of_num_num o : opcode_of_num (opcode_num o) = o.
Proof. by destruct o. Qed.

Lemma opcode_num_range o : 0 <= opcode_num o < 65536.
Proof. destruct o; simpl; lia. Qed.

(** * Libraries the data structures call

    OpenSSL's MD5 and Boost's UUID printer are parameters.  The printer's
    documented format is hexadecimal digits and dashes, and distinct
    identifiers print differently. *)

Class Md5 := MD5 : list Z -> list Z.

Class UuidPrinter := uuid_to_string : Z -> string.

(** The characters of [s]. *)
Notation chars := String.list_ascii_of_string.

Definition free_of (a : Ascii.ascii) (s : string) : Prop := Forall (fun b => b <> a) (chars s).

(** Decimal and hexadecimal digits and the dash. *)
Definition plain_char (a : Ascii.ascii) : bool :=
  let n := Ascii.nat_of_ascii a in
  ((48 <=? n) && (n <=? 57) || (97 <=? n) && (n <=? 102) || (n =? 45))%nat.

Definition plain (s : string) : Prop := Forall (fun a => plain_char a = true) (chars s).

Class UuidPrinterLaws `{UuidPrinter} : Prop := {
  uuid_to_string_inj : Inj (=) (=) uuid_to_string;
  uuid_to_string_plain u : plain (uuid_to_string u)
}.

(** * Chunk *)

Module Chunk.

Record t := mk {
  namespaceId : Z;          (* unsigned char *)
  fuuid : Z;                (* boost::uuids::uuid, 128 bits *)
  chunkId : Z;              (* int *)
  data : option (list Z);   (* unsigned char *, None for null *)
  size : Z;                 (* int *)
  freeData : bool;
  fileVersion : Z;          (* int *)
  chunkVersion : string;    (* char[CHUNK_VERSION_MAX_LEN] *)
  md5 : list Z              (* unsigned char[MD5_DIGEST_LENGTH] *)
}.

#[export] Instance t_eq_dec : EqDecision t.
Proof. solve_decision. Defined.

(** The bytes a chunk describes: the first [size] bytes of its buffer. *)
Definition bytes (c : t) : list Z := take (Z.to_nat (size c)) (default [] (data c)).

(** The buffer is as long as [size] says. *)
Definition wf (c : t) : Prop :=
  0 <= size c /\ forall b, data c = Some b -> length b = Z.to_nat (size c).

Definition zeroMD5 : list Z := replicate MD5_DIGEST_LENGTH 0.

Definition reset : t :=
  mk INVALID_NAMESPACE_ID 0 INVALID_CHUNK_ID None 0 true 0 "" zeroMD5.

(** [release] frees an owned buffer and resets every field. *)
Definition release (c : t) : t := reset.

Definition setId (c : t) (ns uuid cid : Z) : t :=
  mk ns uuid cid (data c) (size c) (freeData c) (fileVersion c) (chunkVersion c) (md5 c).

Definition setChunkId (c : t) (cid : Z) : t :=
  mk (namespaceId c) (fuuid c) cid (data c) (size c) (freeData c) (fileVersion c)
     (chunkVersion c) (md5 c).

Definition copyMD5 (c src : t) : t :=
  mk (namespaceId c) (fuuid c) (chunkId c) (data c) (size c) (freeData c)
     (fileVersion c) (chunkVersion c) (md5 src).

Definition resetMD5 (c : t) : t :=
  mk (namespaceId c) (fuuid c) (chunkId c) (data c) (size c) (freeData c)
     (fileVersion c) (chunkVersion c) zeroMD5.

Definition set_size (c : t) (sz : Z) : t :=
  mk (namespaceId c) (fuuid c) (chunkId c) (data c) sz (freeData c)
     (fileVersion c) (chunkVersion c) (md5 c).

Definition set_buffer (c : t) (b : option (list Z)) (sz : Z) (own : bool) : t :=
  mk (namespaceId c) (fuuid c) (chunkId c) b sz own
     (fileVersion c) (chunkVersion c) (md5 c).

Definition set_freeData (c : t) (own : bool) : t :=
  set_buffer c (data c) (size c) own.

Definition set_fileVersion (c : t) (v : Z) : t :=
  mk (namespaceId c) (fuuid c) (chunkId c) (data c) (size c) (freeData c)
     v (chunkVersion c) (md5 c).

Definition set_chunkVersion (c : t) (v : string) : t :=
  mk (namespaceId c) (fuuid c) (chunkId c) (data c) (size c) (freeData c)
     (fileVersion c) v (md5 c).

Definition copyMeta (c src : t) (copySize : bool) : t :=
  let c := setId c (namespaceId src) (fuuid src) (chunkId src) in
  let c := set_fileVersion c (fileVersion src) in
  let c := set_chunkVersion c (chunkVersion src) in
  let c := copyMD5 c src in
  if copySize then set_size c (size src) else c.

(** [allocateData]: [mem] is what the allocator returns, [None] when it is out
    of memory; the block's contents are whatever was there. *)
Definition allocateData (mem : option (list Z)) (c : t) (sizet : Z) (aligned : bool) : bool * t :=
  if sizet <=? 0 then (false, c)
  else if bool_decide (is_Some (data c)) && (size c =? sizet) && freeData c && negb aligned
  then (true, c)
  else match mem with
       | None => (false, c)
       | Some b => (true, set_buffer c (Some b) sizet true)
       end.

Definition copy (mem : option (list Z)) (c src : t) (aligned : bool) : bool * t :=
  let c := release c in
  let c := copyMeta c src true in
  match allocateData mem c (size src) aligned with
  | (false, c) => (false, c)
  | (true, c) =>
      (true, set_buffer c (Some (take (Z.to_nat (size c)) (default [] (data src))))
                        (size c) (freeData c))
  end.

(** [move] returns the new destination and what is left of the source. *)
Definition move (c src : t) : t * t :=
  let c := release c in
  let c := copyMeta c src true in
  (set_buffer c (data src) (size src) (freeData src),
   set_buffer src None (size src) false).

Definition getChunkName `{UuidPrinter} (c : t) : string :=
  pretty (namespaceId c) +:+ "_" +:+ uuid_to_string (fuuid c) +:+ "_" +:+
  pretty (fileVersion c) +:+ "_" +:+ pretty (chunkId c).

Definition computeMD5 `{Md5} (c : t) : bool * t :=
  if size c <=? 0 then (false, c)
  else (true, mk (namespaceId c) (fuuid c) (chunkId c) (data c) (size c) (freeData c)
                 (fileVersion c) (chunkVersion c) (MD5 (bytes c))).

Definition verifyMD5 `{Md5} (c : t) : bool := bool_decide (md5 c = MD5 (bytes c)).

(** [matchMeta]: [memcmp] returns 0 on equal blocks, and its value is used as
    a truth value. *)
Definition matchMeta (c inp : t) : bool :=
  (chunkId c =? chunkId inp) && bool_decide (md5 c <> md5 inp) && (size c =? size inp).

#[global] Instance chunk_inhabited : Inhabited t := populate reset.

End Chunk.

(** The same chunk up to checksum and version: what a container may change. *)
Definition same_chunk `{UuidPrinter} (c c' : Chunk.t) : Prop :=
  Chunk.getChunkName c' = Chunk.getChunkName c /\ Chunk.data c' = Chunk.data c /\
  Chunk.size c' = Chunk.size c.

(** * Coding metadata *)

Module CodingMeta.

Record t := mk {
  coding : Z;                       (* unsigned char *)
  codingState : option (list Z);    (* unsigned char *, None for null *)
  n : Z; k : Z; f : Z;              (* int *)
  codingStateSize : Z;              (* int *)
  maxChunkSize : Z                  (* int *)
}.

Definition reset : t := mk UNKNOWN_CODE None 0 0 0 0 0.

Definition init (cs cn ck maxcs cf : Z) : t := mk cs None cn ck cf 0 maxcs.

Definition copyMeta (m src : t) (parametersOnly : bool) : bool * t :=
  let p st stS := mk (coding src) st (n src) (k src) (f src) stS (maxChunkSize src) in
  if parametersOnly then (true, p (codingState m) (codingStateSize m))
  else if 0 <? codingStateSize src
  then (true, p (Some (take (Z.to_nat (codingStateSize src)) (default [] (codingState src))))
              (codingStateSize src))
  else (true, p (codingState m) (codingStateSize src)).

(** [operator ==] as written: the conditional operator binds more loosely than
    [&&], so the whole conjunction, including the null test of [codingState],
    is its condition. *)
Definition eq_meta (x y : t) : bool :=
  if (coding x =? coding y) && (n x =? n y) && (k x =? k y) && (f x =? f y)
     && (maxChunkSize x =? maxChunkSize y) && (codingStateSize x =? codingStateSize y)
     && bool_decide (is_Some (codingState x))
  then bool_decide (take (Z.to_nat (codingStateSize x)) (default [] (codingState x))
                    = take (Z.to_nat (codingStateSize x)) (default [] (codingState y)))
  else true.

End CodingMeta.

(** * Chunk events *)

(** A pair of time stamps, in seconds and nanoseconds. *)
Record TagPt := mk_tag { start_sec : Z; start_nsec : Z; end_sec : Z; end_nsec : Z }.

Definition zero_tag : TagPt := mk_tag 0 0 0 0.

Module ChunkEvent.

Record t := mk {
  id : Z;                            (* unsigned int *)
  opcode : Opcode;
  numChunks : Z;                     (* int *)
  containerIds : option (list Z);    (* int *, None for null *)
  chunks : list Chunk.t;
  codingMeta : CodingMeta.t;
  repairUsingCAR : bool;
  numChunkGroups : Z;                (* int *)
  numInputChunks : Z;                (* int *)
  chunkGroupMap : list Z;            (* int * *)
  containerGroupMap : list Z;        (* int * *)
  agents : string;
  p2a : TagPt; a2p : TagPt; agentProcess : TagPt
}.

Definition reset : t :=
  mk 0 UNKNOWN_OP 0 None [] CodingMeta.reset false 0 0 [] [] "" zero_tag zero_tag zero_tag.

Definition set_opcode (e : t) (o : Opcode) : t :=
  mk (id e) o (numChunks e) (containerIds e) (chunks e) (codingMeta e) (repairUsingCAR e)
     (numChunkGroups e) (numInputChunks e) (chunkGroupMap e) (containerGroupMap e) (agents e)
     (p2a e) (a2p e) (agentProcess e).

Definition set_chunks (e : t) (num : Z) (cs : list Chunk.t) : t :=
  mk (id e) (opcode e) num (containerIds e) cs (codingMeta e) (repairUsingCAR e)
     (numChunkGroups e) (numInputChunks e) (chunkGroupMap e) (containerGroupMap e) (agents e)
     (p2a e) (a2p e) (agentProcess e).

End ChunkEvent.

(** * Chunk names are unique keys *)

Lemma chars_app s t : chars (s +:+ t) = chars s ++ chars t.
Proof. induction s as [|a s IH]; [done|]. simpl. by rewrite <- IH. Qed.

Lemma length_chars s : length (chars s) = String.length s.
Proof. induction s; cbn; congruence. Qed.

Lemma string_length_app s t : String.length (s +:+ t) = (String.length s + String.length t)%nat.
Proof. by rewrite <- !length_chars, chars_app, length_app. Qed.

(** Numbers below a power of ten have as many digits at most. *)
Lemma length_pretty_go k x s : (Z.of_N x < 10 ^ Z.of_nat k) -> (String.length (pretty_N_go x s) <= k + String.length s)%nat.
Proof.
  revert x s. induction k as [|k IH]; intros x s Hx.
  - assert (x = 0)%N as -> by (cbn in Hx; lia). done.
  - destruct (decide (0 < x)%N) as [Hp|Hp]; [|assert (x = 0)%N as -> by lia; rewrite pretty_N_go_0; lia].
    rewrite pretty_N_go_step by done. specialize (IH (x / 10)%N (String (pretty_N_char (x mod 10)) s)). cbn [String.length] in IH.
    rewrite Nat2Z.inj_succ, Z.pow_succ_r in Hx by lia. etransitivity; [apply IH|lia].
    rewrite N2Z.inj_div. apply Z.div_lt_upper_bound; lia.
Qed.

Lemma length_pretty_N (x : N) : Z.of_N x < 10 ^ 10 -> (String.length (pretty x) <= 10)%nat.
Proof.
  intros Hx. unfold pretty, pretty_N. case_decide; [cbn; lia|]. by apply (length_pretty_go 10 x "").
Qed.

(** A printed [int] has a sign and ten digits at most. *)
Lemma length_pretty (z : Z) : -2147483648 <= z < 2147483648 -> (String.length (pretty z) <= 11)%nat.
Proof.
  intros Hz. destruct z as [|p|p].
  - cbn. lia.
  - pose proof (length_pretty_N (N.pos p) ltac:(cbn; lia)). change (pretty (Z.pos p)) with (pretty (N.pos p)). lia.
  - pose proof (length_pretty_N (N.pos p) ltac:(cbn; lia)). change (pretty (Z.neg p)) with (String "-" (pretty (N.pos p))). cbn. lia.
Qed.

Lemma chars_inj s t : chars s = chars t -> s = t.
Proof.
  intros E%(f_equal String.string_of_list_ascii).
  by rewrite !String.string_of_list_ascii_of_string in E.
Qed.

Lemma plain_free_of a s : plain_char a = false -> plain s -> free_of a s.
Proof. intros Ha Hs. eapply Forall_impl; [exact Hs|]. simpl. congruence. Qed.

(** A separator that does not occur in the first parts splits a list in one way. *)
Lemma sep_split (x : Ascii.ascii) (s1 s2 t1 t2 : list Ascii.ascii) :
  Forall (fun a => a <> x) s1 -> Forall (fun a => a <> x) s2 ->
  s1 ++ x :: t1 = s2 ++ x :: t2 -> s1 = s2 /\ t1 = t2.
Proof.
  revert s2. induction s1 as [|a s1 IH]; intros [|b s2] H1 H2 Heq; simpl in *; simplify_eq;
    [done| by inv H2 | by inv H1|].
  inv H1. inv H2. destruct (IH s2) as [-> ->]; done.
Qed.

Lemma sep_append_inj s1 s2 t1 t2 :
  plain s1 -> plain s2 ->
  s1 +:+ "_" +:+ t1 = s2 +:+ "_" +:+ t2 -> s1 = s2 /\ t1 = t2.
Proof.
  intros H1 H2 Heq%(f_equal chars). rewrite !chars_app in Heq. cbn in Heq.
  apply sep_split in Heq as [E1%chars_inj E2%chars_inj]; [done| |];
    by apply (plain_free_of "_"%char).
Qed.

(** Decimal numerals are plain. *)
Lemma plain_pretty_N_go x s : plain s -> plain (pretty_N_go x s).
Proof.
  revert s. induction (N.lt_wf_0 x) as [x _ IH]; intros s Hs.
  destruct (decide (0 < x)%N) as [Hx|Hx].
  - rewrite pretty_N_go_step by done. apply IH; [apply N.div_lt; lia|].
    constructor; [|done]. unfold pretty_N_char. by repeat case_match.
  - by replace x with 0%N by lia.
Qed.

Lemma plain_pretty_N (x : N) : plain (pretty x).
Proof.
  unfold pretty, pretty_N. case_decide; [by repeat constructor|].
  apply plain_pretty_N_go. constructor.
Qed.

Lemma plain_pretty_Z (z : Z) : plain (pretty z).
Proof.
  destruct z as [|p|p]; [by repeat constructor|apply (plain_pretty_N (Npos p))|].
  constructor; [done|apply (plain_pretty_N (Npos p))].
Qed.

Section names.
Context `{UuidPrinterLaws}.

Lemma getChunkName_inj c1 c2 :
  Chunk.getChunkName c1 = Chunk.getChunkName c2 ->
  Chunk.namespaceId c1 = Chunk.namespaceId c2 /\ Chunk.fuuid c1 = Chunk.fuuid c2 /\
  Chunk.fileVersion c1 = Chunk.fileVersion c2 /\ Chunk.chunkId c1 = Chunk.chunkId c2.
Proof.
  intros E. unfold Chunk.getChunkName in E.
  apply sep_append_inj in E as [E1 E]; [|apply plain_pretty_Z..].
  apply sep_append_inj in E as [E2 E]; [|apply uuid_to_string_plain..].
  apply sep_append_inj in E as [E3 E4]; [|apply plain_pretty_Z..].
  apply (inj pretty) in E1, E3, E4. apply uuid_to_string_inj in E2. done.
Qed.

(** Names contain neither dots nor slashes. *)
Lemma getChunkName_free_of a c :
  plain_char a = false -> a <> "_"%char -> free_of a (Chunk.getChunkName c).
Proof.
  intros Ha Hu. unfold Chunk.getChunkName, free_of. rewrite !chars_app.
  pose proof (fun s => plain_free_of a s Ha) as Hp.
  repeat apply Forall_app_2; try (by repeat constructor);
    apply Hp; auto using plain_pretty_Z, uuid_to_string_plain.
Qed.
End names.

(** A concrete printer that satisfies the laws, for the examples. *)
Definition decimal_uuid : UuidPrinter := fun u : Z => pretty u.

Lemma decimal_uuid_laws : @UuidPrinterLaws decimal_uuid.
Proof. constructor; [apply _|intros u; apply plain_pretty_Z]. Qed.
