(* ===== verification/FileInfo.v ===== *)
(** What a listing tells about a file and its versions ([src/ds/file_info.hh],
    [src/ds/version_info.hh]). *)

From S2P Require Import Prelude DS.

#[local] Open Scope Z_scope.

Module VersionInfo.

(** The constructor does not set the version number, which is [None] until it is read. *)
Record t := mk {
  version : option Z;                (* int *)
  numChunks : Z;                     (* int *)
  size : Z;                          (* unsigned long int *)
  mtime : Z;                         (* time_t *)
  md5 : list Z;
  isDeleted : bool
}.

Definition reset : t := mk None 0 0 0 Chunk.zeroMD5 false.

End VersionInfo.

Module FileInfo.

(** The constructor does not set the version number. *)
Record t := mk {
  name : option string;              (* char *, with nameLength *)
  size : Z;                          (* unsigned long int *)
  ctime : Z; atime : Z; mtime : Z;   (* time_t *)
  numChunks : Z;                     (* int *)
  version : option Z;                (* int *)
  versions : list VersionInfo.t;     (* numVersions of them *)
  md5 : list Z;
  namespaceId : Z;                   (* unsigned char *)
  isDeleted : bool;
  storageClass : string
}.

Definition reset : t := mk None 0 0 0 0 0 None [] Chunk.zeroMD5 INVALID_NAMESPACE_ID false "".

End FileInfo.
