(* ===== verification/Checksum.v ===== *)
(** Checksums as text ([src/common/checksum_calculator.hh]): hexadecimal digits of the bytes
    and back.  The digests themselves are those of OpenSSL.  The theorem: reading the digits
    of a checksum returns it. *)

From Stdlib Require Import Ascii.
From Stdlib Require String.
From S2P Require Import Prelude DS.

#[local] Open Scope Z_scope.

Module ChecksumCalculator.

(** The digits in lower case. *)
Definition hex_digit (z : Z) : ascii := ascii_of_nat (Z.to_nat (if z <? 10 then 48 + z else 87 + z)).

Definition toHex (s : list Z) : string :=
  String.string_of_list_ascii (flat_map (fun b => [hex_digit (b / 16); hex_digit (b mod 16)]) s).

(** The value of a digit in either case. *)
Definition digit_value (a : ascii) : option Z :=
  let n := Z.of_nat (nat_of_ascii a) in
  if (48 <=? n) && (n <=? 57) then Some (n - 48)
  else if (97 <=? n) && (n <=? 102) then Some (n - 87)
  else if (65 <=? n) && (n <=? 70) then Some (n - 55)
  else None.

(** The bytes up to the first character that is not a digit, or the end; an odd number of
    digits and other characters throw. *)
Fixpoint unhex (l : list ascii) : bool * list Z :=
  match l with
  | [] => (true, [])
  | a :: b :: l =>
      match digit_value a, digit_value b with
      | Some x, Some y => let (ok, r) := unhex l in (ok, (16 * x + y) :: r)
      | _, _ => (false, [])
      end
  | [_] => (false, [])
  end.

(** [s] is the buffer for the bytes. *)
Definition unHex (hex : string) (s : list Z) : bool * list Z :=
  let n := String.length hex in
  if (length s <? n / 2 + n mod 2)%nat then (false, s)
  else let (ok, l) := unhex (chars hex) in (ok, l ++ drop (length l) s).

End ChecksumCalculator.

(** * Theorems *)

Import ChecksumCalculator.

Lemma digit_value_hex z : 0 <= z < 16 -> digit_value (hex_digit z) = Some z.
Proof.
  intros Hz. assert (Forall (fun z => digit_value (hex_digit z) = Some z) (seqZ 0 16)) as H by (vm_compute; repeat constructor).
  rewrite Forall_forall in H. apply H, elem_of_seqZ. lia.
Qed.

Lemma unhex_digits l : Forall (fun b => 0 <= b < 256) l ->
  unhex (flat_map (fun b => [hex_digit (b / 16); hex_digit (b mod 16)]) l) = (true, l).
Proof.
  induction 1 as [|b l Hb _ IH]; [done|]. cbn [flat_map app unhex].
  rewrite (digit_value_hex (b / 16)) by (split; [apply Z.div_pos; lia|apply Z.div_lt_upper_bound; lia]).
  rewrite (digit_value_hex (b mod 16)), IH by (apply Z.mod_pos_bound; lia).
  do 2 f_equal. symmetry. apply Z.div_mod. lia.
Qed.

Lemma length_digits l : length (flat_map (fun b => [hex_digit (b / 16); hex_digit (b mod 16)]) l) = (2 * length l)%nat.
Proof. induction l as [|b l IH]; [done|]. cbn [flat_map app length]. lia. Qed.

Lemma chars_toHex l : chars (toHex l) = flat_map (fun b => [hex_digit (b / 16); hex_digit (b mod 16)]) l.
Proof. apply String.list_ascii_of_string_of_list_ascii. Qed.

Lemma length_toHex l : String.length (toHex l) = (2 * length l)%nat.
Proof.
  assert (forall s, String.length s = length (chars s)) as -> by (induction s as [|a s IH]; [done|]; cbn; by rewrite IH).
  by rewrite chars_toHex, length_digits.
Qed.

Lemma unHex_toHex l s : Forall (fun b => 0 <= b < 256) l -> length s = length l -> unHex (toHex l) s = (true, l).
Proof.
  intros Hl Hs. unfold unHex. rewrite length_toHex, chars_toHex, unhex_digits by done.
  replace (2 * length l / 2 + (2 * length l) mod 2)%nat with (length l).
  - rewrite (proj2 (Nat.ltb_ge _ _)) by lia. by rewrite drop_ge, app_nil_r by lia.
  - rewrite (Nat.mul_comm 2), Nat.div_mul, Nat.Div0.mod_mul by lia. lia.
Qed.

Lemma toHex_inj l l' : Forall (fun b => 0 <= b < 256) l -> Forall (fun b => 0 <= b < 256) l' -> toHex l = toHex l' -> l = l'.
Proof.
  intros Hl Hl' E. assert (unhex (chars (toHex l)) = unhex (chars (toHex l'))) as E' by (by rewrite E).
  rewrite !chars_toHex, !unhex_digits in E' by done. by injection E'.
Qed.
