(* ===== verification/Util.v ===== *)
(** Helpers of agent and proxy ([src/common/util.hh]): the directions of messages and the
    coding of names for URLs.  The options of sockets and the random choice of samples are
    not modelled.  The theorem: decoding an encoded name returns it. *)

From Stdlib Require Import Ascii.
From Stdlib Require String.
From S2P Require Import Prelude DS.

Module Util.

Inductive MessageDirection := PROXY_TO_AGENT | AGENT_TO_PROXY | AGENT_TO_AGENT | UNKNOWN_MSG_DIRECTION.

Definition isMsgFromProxy (d : MessageDirection) : bool := match d with PROXY_TO_AGENT => true | _ => false end.
Definition isMsgFromAgent (d : MessageDirection) : bool := match d with AGENT_TO_AGENT | AGENT_TO_PROXY => true | _ => false end.
Definition isMsgToAgent (d : MessageDirection) : bool := match d with AGENT_TO_AGENT | PROXY_TO_AGENT => true | _ => false end.
Definition isMsgToProxy (d : MessageDirection) : bool := match d with AGENT_TO_PROXY => true | _ => false end.

(** The characters that are encoded, with their codes; the table for decoding has the
    same pairs. *)
Definition urlChars : list (ascii * string) :=
  [(" "%char, "%20"); ("!"%char, "%21"); ("034"%char, "%22"); ("#"%char, "%23"); ("$"%char, "%24"); ("%"%char, "%25");
   ("&"%char, "%26"); ("'"%char, "%27"); ("("%char, "%28"); (")"%char, "%29"); ("*"%char, "%2A"); ("+"%char, "%2B");
   (","%char, "%2C"); ("-"%char, "%2D"); ("."%char, "%2E"); ("/"%char, "%2F"); (":"%char, "%3A"); (";"%char, "%3B");
   ("<"%char, "%3C"); ("="%char, "%3D"); (">"%char, "%3E"); ("?"%char, "%3F"); ("@"%char, "%40"); ("["%char, "%5B");
   ("\"%char, "%5C"); ("]"%char, "%5D"); ("^"%char, "%5E"); ("_"%char, "%5F"); ("`"%char, "%60"); ("{"%char, "%7B");
   ("|"%char, "%7C"); ("}"%char, "%7D"); ("~"%char, "%7E")].

Definition code_of (a : ascii) : option string := snd ∘ snd <$> list_find (fun x => fst x = a) urlChars.
Definition char_of (code : list ascii) : option ascii := fst ∘ snd <$> list_find (fun x => chars (snd x) = code) urlChars.

Definition urlEncode (src : list ascii) : list ascii :=
  flat_map (fun a => match code_of a with Some s => chars s | None => [a] end) src.

(** Three characters after a percent sign are taken together, and dropped when they are
    no code. *)
Fixpoint urlDecode (src : list ascii) : list ascii :=
  match src with
  | [] => []
  | a :: l =>
      match l with
      | b :: c :: l' =>
          if bool_decide (a = "%"%char)
          then match char_of [a; b; c] with Some x => x :: urlDecode l' | None => urlDecode l' end
          else a :: urlDecode l
      | _ => a :: urlDecode l
      end
  end.

End Util.

(** * Theorems *)

Import Util.

(** Every code is a percent sign and two characters, and is decoded to its character. *)
Lemma code_shape a s : code_of a = Some s -> exists b c, chars s = ["%"%char; b; c] /\ char_of ["%"%char; b; c] = Some a.
Proof.
  unfold code_of. intros E. apply fmap_Some in E as ([i x] & Hf & ->). apply list_find_Some in Hf as (Hx & Ha & _). cbn in *. subst a.
  assert (Forall (fun x => exists b c, chars (snd x) = ["%"%char; b; c] /\ char_of ["%"%char; b; c] = Some (fst x)) urlChars) as Hall
    by (repeat (apply Forall_cons; split; [do 2 eexists; split; [reflexivity|vm_compute; reflexivity]|]); by apply Forall_nil).
  rewrite Forall_forall in Hall. apply (Hall x). by eapply list_elem_of_lookup_2.
Qed.

Lemma percent_coded a : code_of a = None -> a <> "%"%char.
Proof. intros E ->. vm_compute in E. discriminate E. Qed.

(** Decoding the encoded form of a string returns the string. *)
Theorem url_roundtrip s : urlDecode (urlEncode s) = s.
Proof.
  induction s as [|a s IH]; [done|]. cbn [urlEncode flat_map]. fold (urlEncode s). destruct (code_of a) as [code|] eqn:E.
  - destruct (code_shape _ _ E) as (b & c & -> & Hc). cbn [app urlDecode]. rewrite bool_decide_eq_true_2 by done. by rewrite Hc, IH.
  - apply percent_coded in E. cbn [app]. transitivity (a :: urlDecode (urlEncode s)); [|by rewrite IH].
    cbn [urlDecode]. destruct (urlEncode s) as [|b [|c l]]; try done. by rewrite bool_decide_eq_false_2.
Qed.
