(* ===== verification/Wire.v ===== *)
(** Messages on the wire: native integers as little-endian bytes, multi-part
    messages as lists of frames with a more-follows flag (ZeroMQ's contract), and
    parsers that consume frames the way the receiving code does.

    The theorems: decoding an encoded integer returns it, at every width; reading
    back a written field returns the field. *)

From Stdlib Require Import Ascii.
From Stdlib Require String.
From S2P Require Import Prelude DS.

(** * Integers *)

(** The [w] low bytes of [z]. *)
Fixpoint le (w : nat) (z : Z) : list Z :=
  match w with O => [] | S w => z mod 256 :: le w (z / 256) end.

Fixpoint unle (l : list Z) : Z :=
  match l with [] => 0 | b :: l => b + 256 * unle l end.

Lemma length_le w z : length (le w z) = w.
Proof. revert z. induction w as [|w IH]; intros z; [done|]. simpl. by rewrite IH. Qed.

Lemma unle_le w z : unle (le w z) = z mod 256 ^ Z.of_nat w.
Proof.
  revert z. induction w as [|w IH]; intros z; simpl le; [by rewrite Z.mod_1_r|].
  cbn [unle]. rewrite IH, Nat2Z.inj_succ, Z.pow_succ_r by lia.
  rewrite Z.rem_mul_r by lia. done.
Qed.

Lemma unle_le_u32 z : 0 <= z < 4294967296 -> unle (le 4 z) = z.
Proof. intros. rewrite unle_le. by apply Z.mod_small. Qed.

Lemma unle_le_i32 z : - 2147483648 <= z < 2147483648 -> i32 (unle (le 4 z)) = z.
Proof.
  intros. rewrite unle_le. change (256 ^ Z.of_nat 4) with 4294967296.
  unfold i32. Z.to_euclidean_division_equations. lia.
Qed.

Lemma unle_le_i64 z : - 9223372036854775808 <= z < 9223372036854775808 -> i64 (unle (le 8 z)) = z.
Proof.
  intros. rewrite unle_le. change (256 ^ Z.of_nat 8) with 18446744073709551616.
  unfold i64. Z.to_euclidean_division_equations. lia.
Qed.

Lemma unle_le_u8 z : 0 <= z < 256 -> unle (le 1 z) = z.
Proof. intros. rewrite unle_le. by apply Z.mod_small. Qed.

Lemma unle_le_u16 z : 0 <= z < 65536 -> unle (le 2 z) = z.
Proof. intros. rewrite unle_le. by apply Z.mod_small. Qed.

(** Arrays of [int]. *)
Definition le_ints (l : list Z) : list Z := concat (map (le 4) l).

Fixpoint unle_ints (n : nat) (b : list Z) : list Z :=
  match n with O => [] | S n => i32 (unle (take 4 b)) :: unle_ints n (drop 4 b) end.

Lemma length_le_ints l : length (le_ints l) = (4 * length l)%nat.
Proof.
  unfold le_ints. induction l as [|z l IH]; [done|]. cbn [map concat].
  rewrite length_app, length_le, IH. cbn [length]. lia.
Qed.

Lemma unle_ints_le l : Forall (fun z => - 2147483648 <= z < 2147483648) l ->
  unle_ints (length l) (le_ints l) = l.
Proof.
  induction 1 as [|z l Hz HF IH]; [done|]. unfold le_ints. cbn [map concat].
  cbn [length unle_ints]. rewrite take_app_length', drop_app_length' by (by rewrite length_le).
  fold (le_ints l). by rewrite unle_le_i32, IH.
Qed.

(** Arrays of [w]-byte unsigned integers. *)
Definition le_words (w : nat) (l : list Z) : list Z := concat (map (le w) l).

Fixpoint unle_words (w n : nat) (b : list Z) : list Z :=
  match n with O => [] | S n => unle (take w b) :: unle_words w n (drop w b) end.

Lemma length_le_words w l : length (le_words w l) = (w * length l)%nat.
Proof.
  unfold le_words. induction l as [|z l IH]; [simpl; lia|]. cbn [map concat].
  rewrite length_app, length_le, IH. cbn [length]. lia.
Qed.

Lemma unle_words_le w l : Forall (fun z => 0 <= z < 256 ^ Z.of_nat w) l ->
  unle_words w (length l) (le_words w l) = l.
Proof.
  induction 1 as [|z l Hz HF IH]; [done|]. unfold le_words. cbn [map concat].
  cbn [length unle_words]. rewrite take_app_length', drop_app_length' by (by rewrite length_le).
  fold (le_words w l). by rewrite unle_le, Z.mod_small, IH.
Qed.

(** * Strings *)

Definition string_bytes (s : string) : list Z := map (fun a => Z.of_nat (nat_of_ascii a)) (chars s).

Definition bytes_string (l : list Z) : string :=
  String.string_of_list_ascii (map (fun z => ascii_of_nat (Z.to_nat z)) l).

Lemma bytes_string_bytes s : bytes_string (string_bytes s) = s.
Proof.
  unfold bytes_string, string_bytes. rewrite map_map.
  rewrite (map_ext _ id); [by rewrite map_id, String.string_of_list_ascii_of_string|].
  intros a. by rewrite Nat2Z.id, ascii_nat_embedding.
Qed.

Lemma length_string_bytes s : length (string_bytes s) = String.length s.
Proof. unfold string_bytes. rewrite length_map. induction s; simpl; auto. Qed.

(** * Frames and parsers *)

(** A frame and whether more frames of the message follow. *)
Definition frame : Type := list Z * bool.

(** A parser gets the frames to come and whether the last received frame
    announced more.  [Fail] is an error return or a receive that times out,
    [Undef] a read beyond the end of a frame. *)
Definition parser (A : Type) : Type := list frame -> bool -> outcome (A * list frame * bool).

Definition pret {A} (a : A) : parser A := fun fs m => Ok (a, fs, m).

Definition pbind {A B} (p : parser A) (q : A -> parser B) : parser B := fun fs m =>
  match p fs m with
  | Ok (a, fs, m) => q a fs m
  | Fail => Fail
  | Undef => Undef
  end.

Declare Scope parser_scope.
Delimit Scope parser_scope with parser.
Notation "'do' x <- p ; q" := (pbind p (fun x => q))
  (at level 200, x name, p at level 100, q at level 200) : parser_scope.

(** [socket.recv]. *)
Definition recv : parser (list Z) := fun fs _ =>
  match fs with [] => Fail | (b, m) :: fs => Ok (b, fs, m) end.

(** [if (!req.more()) return 0;] *)
Definition need_more : parser unit := fun fs m => if m then Ok (tt, fs, m) else Fail.

(** The first [n] bytes of a frame. *)
Definition first_bytes (n : nat) (b : list Z) : parser (list Z) := fun fs m =>
  if (n <=? length b)%nat then Ok (take n b, fs, m) else Undef.

(** A field of [w] bytes, in a frame of its own. *)
Definition get_uint (w : nat) : parser Z :=
  (do b <- recv; do x <- first_bytes w b; pret (unle x))%parser.

Definition get_int : parser Z := (do z <- get_uint 4; pret (i32 z))%parser.

Definition get_long : parser Z := (do z <- get_uint 8; pret (i64 z))%parser.

Section fields.
Open Scope parser_scope.

Lemma recv_frame b m fs m0 : recv ((b, m) :: fs) m0 = Ok (b, fs, m).
Proof. done. Qed.

Lemma first_bytes_all b fs m : first_bytes (length b) b fs m = Ok (b, fs, m).
Proof. unfold first_bytes. by rewrite Nat.leb_refl, firstn_all. Qed.

Lemma get_uint_le w z m fs m0 : get_uint w ((le w z, m) :: fs) m0 = Ok (unle (le w z), fs, m).
Proof.
  unfold get_uint, pbind. simpl. unfold first_bytes. rewrite length_le, Nat.leb_refl.
  by rewrite take_ge by by rewrite length_le.
Qed.

Lemma get_int_le z m fs m0 : - 2147483648 <= z < 2147483648 ->
  get_int ((le 4 z, m) :: fs) m0 = Ok (z, fs, m).
Proof. intros. unfold get_int, pbind. rewrite get_uint_le. unfold pret. by rewrite unle_le_i32. Qed.

Lemma get_long_le z m fs m0 : - 9223372036854775808 <= z < 9223372036854775808 ->
  get_long ((le 8 z, m) :: fs) m0 = Ok (z, fs, m).
Proof. intros. unfold get_long, pbind. rewrite get_uint_le. unfold pret. by rewrite unle_le_i64. Qed.

Lemma get_u8_le z m fs m0 : 0 <= z < 256 -> get_uint 1 ((le 1 z, m) :: fs) m0 = Ok (z, fs, m).
Proof. intros. rewrite get_uint_le. by rewrite unle_le_u8. Qed.

Lemma get_u16_le z m fs m0 : 0 <= z < 65536 -> get_uint 2 ((le 2 z, m) :: fs) m0 = Ok (z, fs, m).
Proof. intros. rewrite get_uint_le. by rewrite unle_le_u16. Qed.

Lemma get_u32_le z m fs m0 : 0 <= z < 4294967296 ->
  get_uint 4 ((le 4 z, m) :: fs) m0 = Ok (z, fs, m).
Proof. intros. rewrite get_uint_le. by rewrite unle_le_u32. Qed.

(** One step of a parser. *)
Lemma pbind_ok {A B} (p : parser A) (q : A -> parser B) fs m a fs' m' :
  p fs m = Ok (a, fs', m') -> pbind p q fs m = q a fs' m'.
Proof. unfold pbind. by intros ->. Qed.

Lemma pbind_more {B} (q : unit -> parser B) fs : pbind need_more q fs true = q tt fs true.
Proof. done. Qed.
End fields.
