(* ===== verification/IO.v ===== *)
(** Chunk event messages ([src/common/io.cc]): how a request or a reply is
    written to a multi-part message and read back, and the address helpers.

    The theorems: reading a written event returns the event, restricted to the
    fields its opcode carries, and consumes the message exactly; the receiver
    never reads beyond a frame of such a message; generating an address and
    extracting its host are inverse. *)

From stdpp Require Import pretty.
From Stdlib Require Import Ascii.
From Stdlib Require String.
From S2P Require Import Prelude DS Wire.

Module IO.

(** * Which fields an opcode carries *)

Definition isFromProxy (o : Opcode) : bool :=
  match o with
  | PUT_CHUNK_REQ | GET_CHUNK_REQ | DEL_CHUNK_REQ | CPY_CHUNK_REQ | ENC_CHUNK_REQ
  | REG_AGENT_REQ | UPD_AGENT_REQ | SYN_PING | RPR_CHUNK_REQ | CHK_CHUNK_REQ
  | MOV_CHUNK_REQ | VRF_CHUNK_REQ => true
  | _ => false
  end.

Definition isFromAgent (o : Opcode) : bool := negb (isFromProxy o).

Definition hasData (o : Opcode) : bool :=
  match o with
  | PUT_CHUNK_REP_FAIL | GET_CHUNK_REP_FAIL | DEL_CHUNK_REP_FAIL | DEL_CHUNK_REP_SUCCESS
  | ENC_CHUNK_REP_FAIL | CHK_CHUNK_REP_FAIL | VRF_CHUNK_REP_FAIL => false
  | _ => true
  end.

Definition hasContainerIds (o : Opcode) : bool :=
  match o with
  | ENC_CHUNK_REP_SUCCESS | ENC_CHUNK_REP_FAIL | VRF_CHUNK_REP_SUCCESS | VRF_CHUNK_REP_FAIL => false
  | _ => true
  end && hasData o.

Definition hasChunkData (o : Opcode) : bool :=
  match o with
  | PUT_CHUNK_REQ | GET_CHUNK_REP_SUCCESS | ENC_CHUNK_REP_SUCCESS => true
  | _ => false
  end && hasData o.

Definition needsCoding (o : Opcode) : bool :=
  match o with ENC_CHUNK_REQ | RPR_CHUNK_REQ => true | _ => false end.

Definition hasRepairChunkInfo (o : Opcode) : bool :=
  match o with RPR_CHUNK_REQ => true | _ => false end.

Definition getNumChunkFactor (o : Opcode) : nat :=
  match o with CPY_CHUNK_REQ | MOV_CHUNK_REQ => 2 | _ => 1 end.

Definition CHUNK_VERSION_MAX_LEN : nat := 128.

(** * Sending *)

Definition send_tags (e : ChunkEvent.t) : list frame :=
  let o := ChunkEvent.opcode e in
  if isFromProxy o then
    [(le 8 (start_sec (ChunkEvent.p2a e)), true);
     (le 8 (start_nsec (ChunkEvent.p2a e)), hasData o)]
  else
    [(le 8 (end_sec (ChunkEvent.p2a e)), true);
     (le 8 (end_nsec (ChunkEvent.p2a e)), true);
     (le 8 (start_sec (ChunkEvent.agentProcess e)), true);
     (le 8 (start_nsec (ChunkEvent.agentProcess e)), true);
     (le 8 (end_sec (ChunkEvent.agentProcess e)), true);
     (le 8 (end_nsec (ChunkEvent.agentProcess e)), true);
     (le 8 (start_sec (ChunkEvent.a2p e)), true);
     (le 8 (start_nsec (ChunkEvent.a2p e)), hasData o)].

(** [last] is whether this is the last chunk of the event. *)
Definition send_chunk (o : Opcode) (last : bool) (c : Chunk.t) : list frame :=
  let versionLength := Nat.min (String.length (Chunk.chunkVersion c)) (CHUNK_VERSION_MAX_LEN - 1) in
  [(le 1 (Chunk.namespaceId c), true); (le 16 (Chunk.fuuid c), true);
   (le 4 (Chunk.chunkId c), true); (le 4 (Chunk.fileVersion c), true);
   (le 1 (Z.of_nat versionLength), true)]
  ++ (if (0 <? versionLength)%nat
      then [(take versionLength (string_bytes (Chunk.chunkVersion c)), true)] else [])
  ++ [(Chunk.md5 c, true);
      (le 4 (Chunk.size c), negb (negb (hasChunkData o) && negb (needsCoding o) && last))]
  ++ (if hasChunkData o
      then [(Chunk.bytes c, negb (negb (needsCoding o) && last))] else []).

Fixpoint send_chunks (o : Opcode) (cs : list Chunk.t) : list frame :=
  match cs with
  | [] => []
  | c :: cs => send_chunk o (bool_decide (cs = [])) c ++ send_chunks o cs
  end.

Definition send_coding (o : Opcode) (m : CodingMeta.t) : list frame :=
  let sz := CodingMeta.codingStateSize m in
  (le 4 sz, 0 <? sz)
  :: (if 0 <? sz
      then [(take (Z.to_nat sz) (default [] (CodingMeta.codingState m)), hasRepairChunkInfo o)]
      else []).

Definition send_repair (e : ChunkEvent.t) : list frame :=
  [(le 1 (CodingMeta.coding (ChunkEvent.codingMeta e)), true);
   (le 4 (ChunkEvent.numChunkGroups e), true); (le 4 (ChunkEvent.numInputChunks e), true);
   (le_ints (ChunkEvent.chunkGroupMap e), true); (le_ints (ChunkEvent.containerGroupMap e), true);
   (string_bytes (ChunkEvent.agents e), true);
   (le 1 (if ChunkEvent.repairUsingCAR e then 1 else 0), false)].

Definition sendChunkEventMessage (e : ChunkEvent.t) : list frame :=
  let o := ChunkEvent.opcode e in
  [(le 4 (ChunkEvent.id e), true); (le 2 (opcode_num o), true)] ++ send_tags e ++
  if negb (hasData o) then []
  else
    (le 4 (ChunkEvent.numChunks e), 0 <? ChunkEvent.numChunks e)
    :: (if hasContainerIds o
        then [(le_ints (default [] (ChunkEvent.containerIds e)), true)] else [])
    ++ send_chunks o (ChunkEvent.chunks e)
    ++ (if needsCoding o then send_coding o (ChunkEvent.codingMeta e) else [])
    ++ (if hasRepairChunkInfo o then send_repair e else []).

(** * Receiving *)

Section receiving.
Open Scope parser_scope.

Definition get_more {A} (p : parser A) : parser A := do _ <- need_more; p.

Definition get_tags (o : Opcode) : parser (TagPt * TagPt * TagPt) :=
  if isFromProxy o then
    do s <- get_more get_long; do ns <- get_more get_long;
    pret (mk_tag s ns 0 0, zero_tag, zero_tag)
  else
    do es <- get_more get_long; do en <- get_more get_long;
    do ps <- get_more get_long; do pn <- get_more get_long;
    do pes <- get_more get_long; do pen <- get_more get_long;
    do s <- get_more get_long; do ns <- get_more get_long;
    pret (mk_tag 0 0 es en, mk_tag s ns 0 0, mk_tag ps pn pes pen).

Definition get_version : parser string :=
  do len <- get_more (get_uint 1);
  if 0 <? len then
    do b <- get_more recv;
    do x <- first_bytes (Nat.min (Z.to_nat len) (CHUNK_VERSION_MAX_LEN - 1)) b;
    pret (bytes_string x)
  else pret "".

Definition get_chunk (o : Opcode) : parser Chunk.t :=
  do ns <- get_more (get_uint 1);
  do uuid <- get_more (get_uint 16);
  do cid <- get_more get_int;
  do fv <- get_more get_int;
  do cv <- get_version;
  do b <- get_more recv;
  do md5 <- first_bytes MD5_DIGEST_LENGTH b;
  do size <- get_more get_int;
  if hasChunkData o then
    do b <- get_more recv;
    do data <- first_bytes (Z.to_nat size) b;
    pret (Chunk.mk ns uuid cid (Some data) size true fv cv md5)
  else pret (Chunk.mk ns uuid cid None size true fv cv md5).

Fixpoint get_chunks (o : Opcode) (n : nat) : parser (list Chunk.t) :=
  match n with
  | O => pret []
  | S n => do c <- get_chunk o; do cs <- get_chunks o n; pret (c :: cs)
  end.

Definition get_coding (o : Opcode) : parser (Z * option (list Z)) :=
  if needsCoding o then
    do sz <- get_more get_int;
    if 0 <? sz then
      do b <- get_more recv;
      do st <- first_bytes (Z.to_nat sz) b;
      pret (sz, Some st)
    else pret (sz, None)
  else pret (0, None).

(** The repair information: coding scheme, groups, inputs, the two maps, the
    agents and the CAR flag. *)
Definition get_repair (o : Opcode) : parser (Z * Z * Z * list Z * list Z * string * bool) :=
  if hasRepairChunkInfo o then
    do coding <- get_more (get_uint 1);
    do groups <- get_more get_int;
    do inputs <- get_more get_int;
    do b1 <- get_more recv;
    do m1 <- first_bytes (4 * Z.to_nat (groups + inputs)) b1;
    do b2 <- get_more recv;
    do m2 <- first_bytes (4 * Z.to_nat inputs) b2;
    do b3 <- get_more recv;
    do car <- get_more (get_uint 1);
    pret (coding, groups, inputs, unle_ints (Z.to_nat (groups + inputs)) m1,
          unle_ints (Z.to_nat inputs) m2, bytes_string b3, negb (car =? 0))
  else pret (UNKNOWN_CODE, 0, 0, [], [], "", false).

Definition get_ids (o : Opcode) (num : Z) : parser (option (list Z)) :=
  if hasContainerIds o then
    do b <- get_more recv;
    do x <- first_bytes (4 * Z.to_nat num) b;
    pret (Some (unle_ints (Z.to_nat num) x))
  else pret None.

Definition getChunkEventMessage : parser ChunkEvent.t :=
  do id <- get_uint 4;
  do on <- get_more (get_uint 2);
  let o := opcode_of_num on in
  do tags <- get_tags o;
  let '(p2a, a2p, proc) := tags in
  if negb (hasData o) then
    pret (ChunkEvent.mk id o 0 None [] CodingMeta.reset false 0 0 [] [] "" p2a a2p proc)
  else
    do num <- get_more get_int;
    do ids <- get_ids o num;
    do cs <- get_chunks o (Z.to_nat num * getNumChunkFactor o);
    do cst <- get_coding o;
    do rep <- get_repair o;
    let '(coding, groups, inputs, m1, m2, agents, car) := rep in
    pret (ChunkEvent.mk id o num ids cs (CodingMeta.mk coding (snd cst) 0 0 0 (fst cst) 0)
            car groups inputs m1 m2 agents p2a a2p proc).
End receiving.

(** * Addresses *)

Definition genAddr (ip : string) (port : Z) : string := "tcp://" +:+ ip +:+ ":" +:+ pretty port.

(** [getAddrIP]: between the last slash and the last colon. *)
Fixpoint last_pos (a : Ascii.ascii) (l : list Ascii.ascii) (i : nat) (acc : option nat) : option nat :=
  match l with
  | [] => acc
  | b :: l => last_pos a l (S i) (if bool_decide (a = b) then Some i else acc)
  end.

(** A missing character gives [npos], whose successor is 0. *)
Definition getAddrIP (addr : string) : string :=
  let l := chars addr in
  let start := match last_pos "/"%char l 0 None with Some i => S i | None => 0%nat end in
  match last_pos ":"%char l 0 None with
  | Some e => String.string_of_list_ascii
                (if (e <? start)%nat then drop start l else take (e - start) (drop start l))
  | None => String.string_of_list_ascii (drop start l)
  end.

End IO.

(** * Reading back what was written *)

Import IO.

(** Values that fit their C types. *)
Definition is_int (z : Z) : Prop := - 2147483648 <= z < 2147483648.
Definition is_long (z : Z) : Prop := - 9223372036854775808 <= z < 9223372036854775808.

Definition tag_ok (t : TagPt) : Prop :=
  is_long (start_sec t) /\ is_long (start_nsec t) /\ is_long (end_sec t) /\ is_long (end_nsec t).

Record chunk_ok (o : Opcode) (c : Chunk.t) : Prop := {
  co_ns : 0 <= Chunk.namespaceId c < 256;
  co_uuid : 0 <= Chunk.fuuid c < 2 ^ 128;
  co_id : is_int (Chunk.chunkId c);
  co_fv : is_int (Chunk.fileVersion c);
  co_cv : (String.length (Chunk.chunkVersion c) < CHUNK_VERSION_MAX_LEN)%nat;
  co_md5 : length (Chunk.md5 c) = MD5_DIGEST_LENGTH;
  co_size : 0 <= Chunk.size c < 2147483648;
  co_data : hasChunkData o = true -> length (Chunk.bytes c) = Z.to_nat (Chunk.size c)
}.

(** The chunk as the receiver gets it. *)
Definition received_chunk (o : Opcode) (c : Chunk.t) : Chunk.t :=
  Chunk.mk (Chunk.namespaceId c) (Chunk.fuuid c) (Chunk.chunkId c)
    (if hasChunkData o then Some (Chunk.bytes c) else None) (Chunk.size c) true
    (Chunk.fileVersion c) (Chunk.chunkVersion c) (Chunk.md5 c).

(** Runs the next field of a parser, given what it yields. *)
Ltac pstep tac := erewrite pbind_ok; [|first [tac | unfold get_more; rewrite pbind_more; tac]];
  cbn beta.

Lemma get_version_back v fs : (String.length v < CHUNK_VERSION_MAX_LEN)%nat ->
  let len := Nat.min (String.length v) (CHUNK_VERSION_MAX_LEN - 1) in
  get_version ((le 1 (Z.of_nat len), true)
    :: (if (0 <? len)%nat then [(take len (string_bytes v), true)] else []) ++ fs) true
  = Ok (v, fs, true).
Proof.
  intros Hv len. assert (len = String.length v) as -> by (unfold len, CHUNK_VERSION_MAX_LEN in *; lia).
  unfold get_version. unfold CHUNK_VERSION_MAX_LEN in *.
  pstep ltac:(apply get_u8_le; lia).
  destruct (Nat.ltb_spec 0 (String.length v)) as [Hp|Hp].
  - rewrite (proj2 (Z.ltb_lt _ _)) by lia. pstep ltac:(apply recv_frame).
    rewrite Nat2Z.id, Nat.min_l by lia.
    rewrite take_ge by (by rewrite length_string_bytes).
    rewrite <- length_string_bytes. pstep ltac:(apply first_bytes_all).
    unfold pret. by rewrite bytes_string_bytes.
  - rewrite (proj2 (Z.ltb_ge _ _)) by lia. destruct v; [done|simpl in Hp; lia].
Qed.

Lemma get_chunk_back o last c fs : chunk_ok o c ->
  get_chunk o (send_chunk o last c ++ fs) true =
  Ok (received_chunk o c, fs, negb (negb (needsCoding o) && last)).
Proof.
  intros [Hns Huuid Hid Hfv Hcv Hmd5 Hsz Hdata]. unfold get_chunk, send_chunk, received_chunk.
  rewrite <- !app_assoc. cbn [app].
  pstep ltac:(apply get_u8_le; done). pstep ltac:(apply get_uint_le).
  rewrite unle_le, (Z.mod_small _ (256 ^ Z.of_nat 16)) by exact Huuid.
  pstep ltac:(apply get_int_le; done). pstep ltac:(apply get_int_le; done).
  pstep ltac:(by apply (get_version_back (Chunk.chunkVersion c))).
  pstep ltac:(apply recv_frame). rewrite <- Hmd5. pstep ltac:(apply first_bytes_all).
  unfold is_int in *. pstep ltac:(apply get_int_le; lia).
  destruct (hasChunkData o); cbn [negb andb app]; [|done].
  pstep ltac:(apply recv_frame). rewrite <- Hdata by done. pstep ltac:(apply first_bytes_all).
  done.
Qed.

Lemma get_chunks_back o cs fs : Forall (chunk_ok o) cs ->
  get_chunks o (length cs) (send_chunks o cs ++ fs) true =
  Ok (map (received_chunk o) cs, fs, bool_decide (cs = []) || needsCoding o).
Proof.
  induction 1 as [|c cs Hc HF IH]; [done|]. cbn [length get_chunks send_chunks map].
  rewrite <- app_assoc. pstep ltac:(by apply get_chunk_back).
  destruct cs as [|c' cs].
  - cbn [length get_chunks send_chunks app map]. unfold pbind, pret. simpl. by destruct (needsCoding o).
  - rewrite (bool_decide_eq_false_2 (c' :: cs = [])) by done. rewrite andb_false_r. cbn [negb].
    erewrite pbind_ok; [|exact IH]. by rewrite bool_decide_eq_false_2.
Qed.

(** The event fits the wire: the counters describe the lists, and the parts its
    opcode carries are there. *)
Record event_ok (e : ChunkEvent.t) : Prop := {
  eo_id : 0 <= ChunkEvent.id e < 4294967296;
  eo_p2a : tag_ok (ChunkEvent.p2a e);
  eo_a2p : tag_ok (ChunkEvent.a2p e);
  eo_proc : tag_ok (ChunkEvent.agentProcess e);
  eo_num : 0 <= ChunkEvent.numChunks e < 2147483648;
  eo_more : ChunkEvent.numChunks e = 0 ->
    hasContainerIds (ChunkEvent.opcode e) = false /\ needsCoding (ChunkEvent.opcode e) = false;
  eo_ids : hasContainerIds (ChunkEvent.opcode e) = true ->
    exists ids, ChunkEvent.containerIds e = Some ids /\
      length ids = Z.to_nat (ChunkEvent.numChunks e) /\ Forall is_int ids;
  eo_length : length (ChunkEvent.chunks e) =
    (Z.to_nat (ChunkEvent.numChunks e) * getNumChunkFactor (ChunkEvent.opcode e))%nat;
  eo_chunks : Forall (chunk_ok (ChunkEvent.opcode e)) (ChunkEvent.chunks e);
  eo_coding : needsCoding (ChunkEvent.opcode e) = true ->
    0 < CodingMeta.codingStateSize (ChunkEvent.codingMeta e) < 2147483648 /\
    exists st, CodingMeta.codingState (ChunkEvent.codingMeta e) = Some st /\
      length st = Z.to_nat (CodingMeta.codingStateSize (ChunkEvent.codingMeta e));
  eo_repair : hasRepairChunkInfo (ChunkEvent.opcode e) = true ->
    0 <= CodingMeta.coding (ChunkEvent.codingMeta e) < 256 /\
    0 <= ChunkEvent.numChunkGroups e < 1073741824 /\ 0 <= ChunkEvent.numInputChunks e < 1073741824 /\
    length (ChunkEvent.chunkGroupMap e) =
      Z.to_nat (ChunkEvent.numChunkGroups e + ChunkEvent.numInputChunks e) /\
    Forall is_int (ChunkEvent.chunkGroupMap e) /\
    length (ChunkEvent.containerGroupMap e) = Z.to_nat (ChunkEvent.numInputChunks e) /\
    Forall is_int (ChunkEvent.containerGroupMap e)
}.

(** The event as the receiver gets it. *)
Definition received (e : ChunkEvent.t) : ChunkEvent.t :=
  let o := ChunkEvent.opcode e in
  let m := ChunkEvent.codingMeta e in
  let start t := mk_tag (start_sec t) (start_nsec t) 0 0 in
  let end_ t := mk_tag 0 0 (end_sec t) (end_nsec t) in
  let p2a := if isFromProxy o then start (ChunkEvent.p2a e) else end_ (ChunkEvent.p2a e) in
  let a2p := if isFromProxy o then zero_tag else start (ChunkEvent.a2p e) in
  let proc := if isFromProxy o then zero_tag else ChunkEvent.agentProcess e in
  let rep {A} (x y : A) := if hasRepairChunkInfo o then x else y in
  if hasData o then
    ChunkEvent.mk (ChunkEvent.id e) o (ChunkEvent.numChunks e)
      (if hasContainerIds o then ChunkEvent.containerIds e else None)
      (map (received_chunk o) (ChunkEvent.chunks e))
      (CodingMeta.mk (rep (CodingMeta.coding m) UNKNOWN_CODE)
        (if needsCoding o then CodingMeta.codingState m else None) 0 0 0
        (if needsCoding o then CodingMeta.codingStateSize m else 0) 0)
      (rep (ChunkEvent.repairUsingCAR e) false) (rep (ChunkEvent.numChunkGroups e) 0)
      (rep (ChunkEvent.numInputChunks e) 0) (rep (ChunkEvent.chunkGroupMap e) [])
      (rep (ChunkEvent.containerGroupMap e) []) (rep (ChunkEvent.agents e) "") p2a a2p proc
  else
    ChunkEvent.mk (ChunkEvent.id e) o 0 None [] CodingMeta.reset false 0 0 [] [] "" p2a a2p proc.

Lemma get_tags_back e fs : tag_ok (ChunkEvent.p2a e) -> tag_ok (ChunkEvent.a2p e) ->
  tag_ok (ChunkEvent.agentProcess e) ->
  get_tags (ChunkEvent.opcode e) (send_tags e ++ fs) true =
  Ok (ChunkEvent.p2a (received e), ChunkEvent.a2p (received e), ChunkEvent.agentProcess (received e),
      fs, hasData (ChunkEvent.opcode e)).
Proof.
  intros (? & ? & ? & ?) (? & ? & ? & ?) (? & ? & ? & ?). unfold get_tags, send_tags, received.
  destruct (isFromProxy (ChunkEvent.opcode e)); cbn [app];
    do 2 pstep ltac:(apply get_long_le; done);
    [|do 6 pstep ltac:(apply get_long_le; done)];
    unfold pret; destruct (hasData (ChunkEvent.opcode e)); simpl; [done|done| |];
    by destruct (ChunkEvent.agentProcess e).
Qed.

Lemma get_ids_back e fs : event_ok e ->
  get_ids (ChunkEvent.opcode e) (ChunkEvent.numChunks e)
    ((if hasContainerIds (ChunkEvent.opcode e)
      then [(le_ints (default [] (ChunkEvent.containerIds e)), true)] else []) ++ fs)
    (0 <? ChunkEvent.numChunks e) =
  Ok (if hasContainerIds (ChunkEvent.opcode e) then ChunkEvent.containerIds e else None, fs,
      0 <? ChunkEvent.numChunks e).
Proof.
  intros [_ _ _ _ Hnum Hmore Hids _ _ _ _]. unfold get_ids.
  destruct (hasContainerIds (ChunkEvent.opcode e)) eqn:Hh; [|done].
  destruct (Hids eq_refl) as (ids & -> & Hl & HF).
  destruct (Z.ltb_spec 0 (ChunkEvent.numChunks e)) as [Hp|Hp].
  - cbn [app default]. pstep ltac:(apply recv_frame). rewrite <- Hl.
    change (id ids) with ids. rewrite <- length_le_ints. pstep ltac:(apply first_bytes_all).
    unfold pret. by rewrite unle_ints_le.
  - destruct Hmore as [? _]; [lia|done].
Qed.

Lemma repair_needs_coding o : needsCoding o = false -> hasRepairChunkInfo o = false.
Proof. by destruct o. Qed.

Lemma get_coding_back e fs : event_ok e ->
  get_coding (ChunkEvent.opcode e)
    ((if needsCoding (ChunkEvent.opcode e)
      then send_coding (ChunkEvent.opcode e) (ChunkEvent.codingMeta e) else []) ++ fs)
    (needsCoding (ChunkEvent.opcode e)) =
  Ok (if needsCoding (ChunkEvent.opcode e)
      then CodingMeta.codingStateSize (ChunkEvent.codingMeta e) else 0,
      if needsCoding (ChunkEvent.opcode e)
      then CodingMeta.codingState (ChunkEvent.codingMeta e) else None, fs,
      hasRepairChunkInfo (ChunkEvent.opcode e)).
Proof.
  intros [_ _ _ _ _ _ _ _ _ Hcod _]. unfold get_coding.
  destruct (needsCoding (ChunkEvent.opcode e)) eqn:Hn.
  2:{ by rewrite (repair_needs_coding _ Hn). }
  destruct (Hcod eq_refl) as (Hsz & st & Hst & Hl). unfold send_coding. rewrite Hst.
  rewrite (proj2 (Z.ltb_lt _ _)) by lia. cbn [app default].
  pstep ltac:(apply get_int_le; lia). rewrite (proj2 (Z.ltb_lt _ _)) by lia.
  pstep ltac:(apply recv_frame). rewrite <- Hl. change (id st) with st. rewrite firstn_all.
  pstep ltac:(apply first_bytes_all). done.
Qed.

Lemma get_repair_back e fs : event_ok e -> hasRepairChunkInfo (ChunkEvent.opcode e) = true ->
  get_repair (ChunkEvent.opcode e) (send_repair e ++ fs) true =
  Ok (CodingMeta.coding (ChunkEvent.codingMeta e), ChunkEvent.numChunkGroups e,
      ChunkEvent.numInputChunks e, ChunkEvent.chunkGroupMap e, ChunkEvent.containerGroupMap e,
      ChunkEvent.agents e, ChunkEvent.repairUsingCAR e, fs, false).
Proof.
  intros [_ _ _ _ _ _ _ _ _ _ Hrep] Hh. unfold get_repair, send_repair. rewrite Hh.
  destruct (Hrep Hh) as (Hc & Hg & Hi & Hl1 & HF1 & Hl2 & HF2). cbn [app].
  pstep ltac:(apply get_u8_le; lia). do 2 pstep ltac:(apply get_int_le; lia).
  pstep ltac:(apply recv_frame). rewrite <- Hl1, <- length_le_ints. pstep ltac:(apply first_bytes_all).
  pstep ltac:(apply recv_frame). rewrite <- Hl2, <- length_le_ints. pstep ltac:(apply first_bytes_all).
  pstep ltac:(apply recv_frame).
  pstep ltac:(apply get_u8_le; destruct (ChunkEvent.repairUsingCAR e); lia).
  unfold pret. rewrite !unle_ints_le, bytes_string_bytes by done.
  by destruct (ChunkEvent.repairUsingCAR e).
Qed.

Lemma get_event_chunks_back e fs : event_ok e ->
  get_chunks (ChunkEvent.opcode e)
    (Z.to_nat (ChunkEvent.numChunks e) * getNumChunkFactor (ChunkEvent.opcode e))
    (send_chunks (ChunkEvent.opcode e) (ChunkEvent.chunks e) ++ fs)
    (0 <? ChunkEvent.numChunks e) =
  Ok (map (received_chunk (ChunkEvent.opcode e)) (ChunkEvent.chunks e), fs,
      needsCoding (ChunkEvent.opcode e)).
Proof.
  intros [_ _ _ _ Hnum Hmore _ Hlen Hcs _ _]. rewrite <- Hlen.
  destruct (Z.ltb_spec 0 (ChunkEvent.numChunks e)) as [Hp|Hp].
  - rewrite get_chunks_back by done. rewrite bool_decide_eq_false_2; [done|].
    intros Hnil. rewrite Hnil in Hlen. simpl in Hlen.
    destruct (ChunkEvent.opcode e); simpl in Hlen; lia.
  - destruct Hmore as [_ ->]; [lia|]. replace (ChunkEvent.numChunks e) with 0 in Hlen by lia.
    by destruct (ChunkEvent.chunks e).
Qed.

(** C27: Reading the message of a chunk event yields the event with exactly the
    fields its opcode carries and leaves whatever follows the message untouched;
    in particular no receive blocks, fails or reads beyond a frame. *)
Theorem chunk_event_roundtrip e rest more :
  event_ok e ->
  getChunkEventMessage (sendChunkEventMessage e ++ rest) more = Ok (received e, rest, false).
Proof.
  intros He. pose proof He as [Hid Hp2a Ha2p Hproc Hnum _ _ _ _ _ _].
  unfold getChunkEventMessage, sendChunkEventMessage. rewrite <- !app_assoc. cbn [app].
  pstep ltac:(apply get_u32_le; done).
  pstep ltac:(apply get_u16_le; apply opcode_num_range). rewrite opcode_of_num_num.
  pstep ltac:(by apply get_tags_back). unfold received.
  destruct (hasData (ChunkEvent.opcode e)) eqn:Hd; cbn [negb]; [|done].
  rewrite <- app_comm_cons. rewrite <- !app_assoc.
  unfold is_int. pstep ltac:(apply get_int_le; lia).
  erewrite pbind_ok; [|by apply get_ids_back].
  erewrite pbind_ok; [|by apply get_event_chunks_back].
  erewrite pbind_ok; [|by apply get_coding_back].
  destruct (hasRepairChunkInfo (ChunkEvent.opcode e)) eqn:Hr.
  - erewrite pbind_ok; [|by apply get_repair_back]. done.
  - unfold get_repair. by rewrite Hr.
Qed.

(** * Addresses *)

Lemma last_pos_app a l1 l2 i acc :
  last_pos a (l1 ++ l2) i acc = last_pos a l2 (i + length l1) (last_pos a l1 i acc).
Proof.
  revert i acc. induction l1 as [|b l1 IH]; intros i acc; simpl; [by rewrite Nat.add_0_r|].
  rewrite IH. f_equal. lia.
Qed.

Lemma last_pos_free a l i acc : Forall (fun b => b <> a) l -> last_pos a l i acc = acc.
Proof.
  intros HF. revert i. induction HF as [|b l Hb _ IH]; intros i; [done|]. simpl.
  by rewrite bool_decide_eq_false_2.
Qed.

(** The host part of a generated address is the host it was generated from. *)
Lemma getAddrIP_genAddr ip port : free_of "/"%char ip -> getAddrIP (genAddr ip port) = ip.
Proof.
  intros Hip. unfold getAddrIP, genAddr. rewrite !chars_app.
  pose proof (plain_pretty_Z port) as Hport.
  change (chars "tcp://") with (["t"; "c"; "p"; ":"; "/"; "/"]%char).
  change (chars ":") with ([":"]%char).
  assert (forall a, plain_char a = false -> Forall (fun b => b <> a) (chars (pretty port))) as Hp
    by (intros a Ha; by apply (plain_free_of a)).
  rewrite !last_pos_app. rewrite (last_pos_free "/"%char (chars (pretty port))) by (by apply Hp).
  rewrite (last_pos_free ":"%char (chars (pretty port))) by (by apply Hp).
  rewrite (last_pos_free "/"%char (chars ip)) by done. 
  change (last_pos "/"%char ["t"; "c"; "p"; ":"; "/"; "/"]%char 0 None) with (Some 5%nat).
  rewrite (last_pos_free "/"%char [":"%char]) by (by repeat constructor).
  cbn [last_pos]. rewrite bool_decide_eq_true_2 by done. cbn [length Nat.add].
  rewrite (proj2 (Nat.ltb_ge _ _)) by lia.
  cbn [app drop Nat.sub]. rewrite Nat.sub_0_r, drop_0, take_app_length. apply String.string_of_list_ascii_of_string.
Qed.

(** * Example *)

Definition sample_event : ChunkEvent.t :=
  ChunkEvent.mk 9 RPR_CHUNK_REQ 1 (Some [7])
    [Chunk.mk 1 5 2 None 0 true 0 "300" Chunk.zeroMD5]
    (CodingMeta.mk RS (Some [1; 2]) 0 0 0 2 0) true 2 2 [1; 0; 1; 3] [4; 6] "a;b;"
    (mk_tag 11 12 0 0) zero_tag zero_tag.

Lemma chunk_event_roundtrip_witness :
  event_ok sample_event /\
  getChunkEventMessage (sendChunkEventMessage sample_event ++ [([42], false)]) false =
  Ok (received sample_event, [([42], false)], false).
Proof.
  assert (event_ok sample_event) as He.
  { constructor; simpl; unfold tag_ok, is_long, is_int; simpl; try lia; try (split_and!; lia);
      try (intros _; split_and!); try lia; try done.
    - intros _. exists [7]. split_and!; [done|done|]. by repeat constructor.
    - constructor; [|constructor]. constructor; simpl; unfold is_int, CHUNK_VERSION_MAX_LEN;
        try lia; done.
    - by exists [1; 2].
    - by repeat constructor.
    - by repeat constructor. }
  split; [exact He|]. exact (chunk_event_roundtrip sample_event [([42], false)] false He).
Defined.
