(* ===== verification/Isal.v ===== *)
(** The erasure-coding library ISA-L as the code uses it.

    ISA-L is not part of the repository: its functions are the fields of the
    class [Isal], their documented behaviour is the class [IsalLaws].  The file
    also holds the linear algebra over bytes that the coding theorems need, and
    an instance of both classes, the field with 256 elements, which shows that
    the laws can hold and lets concrete stripes be evaluated. *)

From S2P Require Import Prelude.

(** * Bytes *)

Definition byte (b : Z) : Prop := 0 <= b < 256.

Lemma byte_land b : byte b <-> Z.land b 255 = b.
Proof.
  change 255 with (Z.ones 8). rewrite Z.land_ones by lia. change (2 ^ 8) with 256.
  unfold byte. split; intros H.
  - by apply Z.mod_small.
  - rewrite <- H. apply Z.mod_pos_bound. lia.
Qed.

Lemma byte_lxor a b : byte a -> byte b -> byte (Z.lxor a b).
Proof.
  rewrite !byte_land. intros Ha Hb. rewrite <- Ha at 2. rewrite <- Hb at 2.
  apply Z.bits_inj'. intros i Hi.
  rewrite !Z.land_spec, !Z.lxor_spec, !Z.land_spec.
  by destruct (Z.testbit a i), (Z.testbit b i), (Z.testbit 255 i).
Qed.

Lemma byte_0 : byte 0.
Proof. unfold byte; lia. Qed.
Lemma byte_1 : byte 1.
Proof. unfold byte; lia. Qed.

Create HintDb bytes.
#[export] Hint Resolve byte_lxor byte_0 byte_1 : bytes.
#[export] Hint Extern 2 (_ < _)%nat => lia : bytes.

(** * Sums in a field of characteristic two *)

Fixpoint xorsum (m : nat) (f : nat -> Z) : Z :=
  match m with
  | O => 0
  | S m' => Z.lxor (xorsum m' f) (f m')
  end.

Lemma xorsum_ext m f g :
  (forall i, (i < m)%nat -> f i = g i) -> xorsum m f = xorsum m g.
Proof.
  induction m as [|m IH]; intros H; simpl; [done|].
  rewrite IH, H; [done|lia|intros; apply H; lia].
Qed.

Lemma xorsum_byte m f : (forall i, (i < m)%nat -> byte (f i)) -> byte (xorsum m f).
Proof. induction m as [|m IH]; intros H; simpl; auto with bytes. Qed.
#[export] Hint Resolve xorsum_byte : bytes.

Lemma xorsum_0 m f : (forall i, (i < m)%nat -> f i = 0) -> xorsum m f = 0.
Proof.
  induction m as [|m IH]; intros H; simpl; [done|].
  rewrite IH, H by (intros; try apply H; lia). done.
Qed.

Lemma xorsum_lxor m f g :
  xorsum m (fun i => Z.lxor (f i) (g i)) = Z.lxor (xorsum m f) (xorsum m g).
Proof.
  induction m as [|m IH]; simpl; [done|]. rewrite IH.
  rewrite !Z.lxor_assoc. f_equal. rewrite <- !Z.lxor_assoc. f_equal. apply Z.lxor_comm.
Qed.

Lemma xorsum_swap m p (f : nat -> nat -> Z) :
  xorsum m (fun i => xorsum p (f i)) = xorsum p (fun j => xorsum m (fun i => f i j)).
Proof.
  induction m as [|m IH]; simpl.
  - by rewrite xorsum_0.
  - by rewrite IH, <- xorsum_lxor.
Qed.

(** Only the term at [i] survives. *)
Lemma xorsum_single m f i :
  (i < m)%nat -> (forall j, (j < m)%nat -> j <> i -> f j = 0) -> xorsum m f = f i.
Proof.
  induction m as [|m IH]; intros Hi H0; [lia|]. simpl.
  destruct (decide (i = m)) as [->|Hne].
  - rewrite xorsum_0; [apply Z.lxor_0_l|]. intros j Hj. apply H0; lia.
  - rewrite (H0 m) by lia. rewrite Z.lxor_0_r. apply IH; [lia|]. intros. apply H0; lia.
Qed.

(** * The interface *)

Class Isal := {
  gf_mul : Z -> Z -> Z;
  (* gf_gen_rs_matrix(a, m, k): the m x k coefficients *)
  gf_gen_rs_matrix : nat -> nat -> list Z;
  (* gf_invert_matrix(in, out, n): None when the input is singular *)
  gf_invert_matrix : list Z -> nat -> option (list Z);
  (* what gf_invert_matrix leaves in its input, which it overwrites *)
  gf_invert_residue : list Z -> nat -> list Z;
  gftbls : Type;
  (* ec_init_tables(k, rows, a, gftbls) *)
  ec_init_tables : nat -> nat -> list Z -> gftbls;
  (* ec_encode_data(len, k, rows, gftbls, data, coding): the coding buffers *)
  ec_encode_data : nat -> nat -> nat -> gftbls -> list (list Z) -> list (list Z)
}.

(** Entry (i,j) of a row-major matrix with [k] columns. *)
Definition entry (M : list Z) (k i j : nat) : Z := M !!! (i * k + j)%nat.

(** Byte [b] of buffer [j]. *)
Definition byte_at (bufs : list (list Z)) (j b : nat) : Z := (bufs !!! j) !!! b.

(** [count] buffers of at least [len] bytes are present. *)
Definition buffers_ok (len count : nat) (bufs : list (list Z)) : Prop :=
  (count <= length bufs)%nat /\
  forall j, (j < count)%nat -> (len <= length (bufs !!! j))%nat /\
  forall b, (b < len)%nat -> byte (byte_at bufs j b).

Definition matrix_ok (M : list Z) (size : nat) : Prop :=
  (size <= length M)%nat /\ forall i, (i < size)%nat -> byte (M !!! i).

Class IsalLaws `{Isal} : Prop := {
  gf_mul_byte a b : byte a -> byte b -> byte (gf_mul a b);
  gf_mul_comm a b : byte a -> byte b -> gf_mul a b = gf_mul b a;
  gf_mul_assoc a b c : byte a -> byte b -> byte c ->
    gf_mul a (gf_mul b c) = gf_mul (gf_mul a b) c;
  gf_mul_lxor_r a b c : byte a -> byte b -> byte c ->
    gf_mul a (Z.lxor b c) = Z.lxor (gf_mul a b) (gf_mul a c);
  gf_mul_1_l a : byte a -> gf_mul 1 a = a;
  gf_mul_0_l a : byte a -> gf_mul 0 a = 0;
  (* an m x k matrix whose high portion is the identity *)
  gf_gen_rs_matrix_ok m k : (0 < k <= m)%nat -> matrix_ok (gf_gen_rs_matrix m k) (m * k);
  gf_gen_rs_matrix_length m k : (0 < k <= m)%nat -> length (gf_gen_rs_matrix m k) = (m * k)%nat;
  gf_gen_rs_matrix_id m k i j : (0 < k <= m)%nat -> (i < k)%nat -> (j < k)%nat ->
    entry (gf_gen_rs_matrix m k) k i j = if decide (i = j) then 1 else 0;
  (* the inverse of a square matrix *)
  gf_invert_matrix_ok M k I : matrix_ok M (k * k) -> gf_invert_matrix M k = Some I ->
    matrix_ok I (k * k) /\
    (forall i j, (i < k)%nat -> (j < k)%nat ->
      xorsum k (fun l => gf_mul (entry I k i l) (entry M k l j))
      = if decide (i = j) then 1 else 0) /\
    (forall i j, (i < k)%nat -> (j < k)%nat ->
      xorsum k (fun l => gf_mul (entry M k i l) (entry I k l j))
      = if decide (i = j) then 1 else 0);
  (* only the leading k x k block of the input is read *)
  gf_invert_matrix_block M k : (k * k <= length M)%nat ->
    gf_invert_matrix (take (k * k) M) k = gf_invert_matrix M k;
  length_gf_invert_residue M k : length (gf_invert_residue M k) = length M;
  (* every output byte is the dot product of a row with the input bytes *)
  ec_encode_data_spec len k rows M bufs :
    matrix_ok M (rows * k) -> buffers_ok len k bufs ->
    ec_encode_data len k rows (ec_init_tables k rows M) bufs =
    map (fun r => map (fun b =>
        xorsum k (fun j => gf_mul (entry M k r j) (byte_at bufs j b))) (seq 0 len))
      (seq 0 rows)
}.

#[export] Hint Resolve gf_mul_byte : bytes.

(** * Linear algebra *)

Section algebra.
Context `{IsalLaws}.

Lemma gf_mul_0_r a : byte a -> gf_mul a 0 = 0.
Proof. intros. rewrite gf_mul_comm by auto with bytes. by apply gf_mul_0_l. Qed.

Lemma gf_mul_xorsum_r a m f :
  byte a -> (forall i, (i < m)%nat -> byte (f i)) ->
  gf_mul a (xorsum m f) = xorsum m (fun i => gf_mul a (f i)).
Proof.
  intros Ha. induction m as [|m IH]; intros Hf; simpl; [by apply gf_mul_0_r|].
  rewrite gf_mul_lxor_r by auto with bytes. by rewrite IH by auto with bytes.
Qed.

Lemma gf_mul_xorsum_l a m f :
  byte a -> (forall i, (i < m)%nat -> byte (f i)) ->
  gf_mul (xorsum m f) a = xorsum m (fun i => gf_mul (f i) a).
Proof.
  intros Ha Hf. rewrite gf_mul_comm by auto with bytes.
  rewrite gf_mul_xorsum_r by done. apply xorsum_ext. intros.
  by rewrite gf_mul_comm by auto.
Qed.

(** Applying a row to encoded data is applying the product row to the data:
    if [R * S = T] then [R * (S * d) = T * d]. *)
Lemma row_apply k (R T : nat -> Z) (S : nat -> nat -> Z) (d : nat -> Z) :
  (forall l, (l < k)%nat -> byte (R l)) ->
  (forall l j, (l < k)%nat -> (j < k)%nat -> byte (S l j)) ->
  (forall j, (j < k)%nat -> byte (d j)) ->
  (forall j, (j < k)%nat -> xorsum k (fun l => gf_mul (R l) (S l j)) = T j) ->
  xorsum k (fun l => gf_mul (R l) (xorsum k (fun j => gf_mul (S l j) (d j)))) =
  xorsum k (fun j => gf_mul (T j) (d j)).
Proof.
  intros HR HS Hd HT.
  rewrite (xorsum_ext k _ (fun l => xorsum k (fun j => gf_mul (gf_mul (R l) (S l j)) (d j)))).
  2:{ intros l Hl. rewrite gf_mul_xorsum_r by auto with bytes.
      apply xorsum_ext. intros j Hj. by rewrite gf_mul_assoc by auto. }
  rewrite xorsum_swap. apply xorsum_ext. intros j Hj.
  rewrite <- gf_mul_xorsum_l by auto with bytes. by rewrite HT.
Qed.

(** The identity row selects one entry. *)
Lemma row_id k (d : nat -> Z) i :
  (i < k)%nat -> (forall j, (j < k)%nat -> byte (d j)) ->
  xorsum k (fun j => gf_mul (if decide (i = j) then 1 else 0) (d j)) = d i.
Proof.
  intros Hi Hd. rewrite (xorsum_single k _ i).
  - rewrite decide_True by done. by apply gf_mul_1_l, Hd.
  - done.
  - intros j Hj Hne. rewrite decide_False by done. by apply gf_mul_0_l, Hd.
Qed.
End algebra.
