(* ===== verification/Gf256.v ===== *)
(** An instance of the ISA-L interface: the field with 256 elements defined by
    the polynomial x^8 + x^4 + x^3 + x^2 + 1, with Gauss-Jordan inversion.  It
    witnesses that the laws of [IsalLaws] are satisfiable and makes the coding
    functions executable on concrete stripes. *)

From S2P Require Import Prelude Isal.

Module Gf256.

(** * Multiplication *)

Definition xtime (b : Z) : Z :=
  Z.lxor (Z.land (Z.shiftl b 1) 255) (if Z.testbit b 7 then 29 else 0).

Fixpoint xtimes (m : nat) (b : Z) : Z :=
  match m with O => b | S m' => xtime (xtimes m' b) end.

Definition mul (a b : Z) : Z :=
  xorsum 8 (fun i => if Z.testbit a (Z.of_nat i) then xtimes i b else 0).

Lemma xtime_byte b : byte (xtime b).
Proof.
  apply byte_lxor; [|destruct (Z.testbit b 7); unfold byte; lia].
  apply byte_land. rewrite <- Z.land_assoc. by rewrite Z.land_diag.
Qed.

Lemma xtimes_byte m b : byte b -> byte (xtimes m b).
Proof. destruct m; intros; [done|apply xtime_byte]. Qed.

Lemma land_lxor_distr a b c :
  Z.land (Z.lxor a b) c = Z.lxor (Z.land a c) (Z.land b c).
Proof.
  apply Z.bits_inj'. intros i Hi. rewrite !Z.land_spec, !Z.lxor_spec, !Z.land_spec.
  by destruct (Z.testbit a i), (Z.testbit b i), (Z.testbit c i).
Qed.

Lemma lxor_interchange a b c d :
  Z.lxor (Z.lxor a b) (Z.lxor c d) = Z.lxor (Z.lxor a c) (Z.lxor b d).
Proof.
  rewrite !Z.lxor_assoc. f_equal. rewrite <- !Z.lxor_assoc. f_equal. apply Z.lxor_comm.
Qed.

Lemma xtime_lxor a b : xtime (Z.lxor a b) = Z.lxor (xtime a) (xtime b).
Proof.
  unfold xtime. rewrite Z.shiftl_lxor, land_lxor_distr, lxor_interchange. f_equal.
  rewrite Z.lxor_spec. by destruct (Z.testbit a 7), (Z.testbit b 7).
Qed.

Lemma xtimes_lxor m a b : xtimes m (Z.lxor a b) = Z.lxor (xtimes m a) (xtimes m b).
Proof. induction m as [|m IH]; simpl; [done|]. by rewrite IH, xtime_lxor. Qed.

Lemma mul_lxor_r a b c : mul a (Z.lxor b c) = Z.lxor (mul a b) (mul a c).
Proof.
  unfold mul. rewrite <- xorsum_lxor. apply xorsum_ext. intros i _.
  destruct (Z.testbit a (Z.of_nat i)); [apply xtimes_lxor|done].
Qed.

Lemma mul_lxor_l a b c : mul (Z.lxor a b) c = Z.lxor (mul a c) (mul b c).
Proof.
  unfold mul. rewrite <- xorsum_lxor. apply xorsum_ext. intros i _. rewrite Z.lxor_spec.
  destruct (Z.testbit a (Z.of_nat i)), (Z.testbit b (Z.of_nat i)); simpl;
    by rewrite ?Z.lxor_0_r, ?Z.lxor_0_l, ?Z.lxor_nilpotent.
Qed.

Lemma mul_byte a b : byte b -> byte (mul a b).
Proof.
  intros Hb. apply xorsum_byte. intros i _.
  destruct (Z.testbit a (Z.of_nat i)); [by apply xtimes_byte|apply byte_0].
Qed.

Lemma mul_0_l b : mul 0 b = 0.
Proof. done. Qed.

Lemma mul_0_r a : mul a 0 = 0.
Proof.
  unfold mul. apply xorsum_0. intros i _. destruct (Z.testbit a (Z.of_nat i)); [|done].
  by induction i as [|i IH]; simpl; [|rewrite IH].
Qed.

(** A property that is closed under sums need only be checked on the eight
    powers of two. *)
Lemma byte_bits a :
  byte a -> a = xorsum 8 (fun i => if Z.testbit a (Z.of_nat i) then 2 ^ Z.of_nat i else 0).
Proof.
  intros [H0 H1]. set (P z := z = xorsum 8 (fun i => if Z.testbit z (Z.of_nat i)
                                            then 2 ^ Z.of_nat i else 0)).
  change (P a). assert (Forall P (seqZ 0 256)) as HP by (repeat (constructor; [reflexivity|]); constructor).
  rewrite Forall_forall in HP. apply HP, elem_of_seqZ. lia.
Qed.

Lemma byte_linear_ind (P : Z -> Prop) :
  P 0 -> (forall i, (i < 8)%nat -> P (2 ^ Z.of_nat i)) ->
  (forall a b, byte a -> byte b -> P a -> P b -> P (Z.lxor a b)) ->
  forall a, byte a -> P a.
Proof.
  intros H0 Hb Hx a Ha. rewrite (byte_bits a Ha).
  set (g := fun i => _).
  assert (forall i, (i < 8)%nat -> byte (g i) /\ P (g i)) as Hg.
  { intros i Hi. unfold g. destruct (Z.testbit a (Z.of_nat i)); [|auto using byte_0].
    split; [|by apply Hb]. do 8 (destruct i as [|i]; [unfold byte; simpl; lia|]). lia. }
  cut (forall m, (m <= 8)%nat -> byte (xorsum m g) /\ P (xorsum m g)); [intros HH; by apply (HH 8%nat)|].
  induction m as [|m IH]; intros Hm; simpl; [auto using byte_0|].
  destruct IH as [IH1 IH2]; [lia|]. destruct (Hg m) as [Hg1 Hg2]; [lia|].
  split; [by apply byte_lxor|by apply Hx].
Qed.

(** Decides a statement about all powers of two below 256. *)
Ltac each_bit i :=
  do 8 (destruct i as [|i]; [vm_compute; reflexivity|]); lia.

Lemma mul_1_l a : byte a -> mul 1 a = a.
Proof.
  revert a. apply byte_linear_ind; [done|intros i Hi; each_bit i|].
  intros a b _ _ Ha Hb. by rewrite mul_lxor_r, Ha, Hb.
Qed.

Lemma mul_comm a b : byte a -> byte b -> mul a b = mul b a.
Proof.
  intros Ha Hb. revert a Ha. apply byte_linear_ind.
  - by rewrite mul_0_r.
  - intros i Hi. revert b Hb. apply byte_linear_ind.
    + by rewrite mul_0_r.
    + intros j Hj. do 8 (destruct i as [|i]; [each_bit j|]). lia.
    + intros a b _ _ Ha Hb. by rewrite mul_lxor_r, mul_lxor_l, Ha, Hb.
  - intros x y _ _ Hx Hy. by rewrite mul_lxor_r, mul_lxor_l, Hx, Hy.
Qed.

Lemma mul_assoc a b c :
  byte a -> byte b -> byte c -> mul a (mul b c) = mul (mul a b) c.
Proof.
  intros Ha Hb Hc. revert a Ha. apply byte_linear_ind; [done| |].
  2:{ intros x y _ _ Hx Hy. by rewrite !mul_lxor_l, Hx, Hy. }
  intros i Hi. revert b Hb. apply byte_linear_ind; [by rewrite mul_0_l, mul_0_r| |].
  2:{ intros x y _ _ Hx Hy. by rewrite !mul_lxor_l, !mul_lxor_r, !mul_lxor_l, Hx, Hy. }
  intros j Hj. revert c Hc. apply byte_linear_ind; [by rewrite !mul_0_r| |].
  2:{ intros x y _ _ Hx Hy. by rewrite !mul_lxor_r, Hx, Hy. }
  intros l Hl. do 8 (destruct i as [|i]; [do 8 (destruct j as [|j]; [each_bit l|]); lia|]). lia.
Qed.

(** * Matrices *)

Fixpoint power (g : Z) (m : nat) : Z :=
  match m with O => 1 | S m' => mul (power g m') g end.

Definition rs_entry (k i j : nat) : Z :=
  if decide (i < k)%nat then (if decide (i = j) then 1 else 0)
  else power (power 2 (i - k)) j.

Definition tabulate (rows cols : nat) (f : nat -> nat -> Z) : list Z :=
  map (fun p => f (p / cols)%nat (p mod cols)%nat) (seq 0 (rows * cols)).

Definition gen_rs_matrix (m k : nat) : list Z := tabulate m k (rs_entry k).

Lemma entry_tabulate rows cols f i j :
  (i < rows)%nat -> (j < cols)%nat -> entry (tabulate rows cols f) cols i j = f i j.
Proof.
  intros Hi Hj. unfold entry, tabulate.
  assert (i * cols + j < rows * cols)%nat by nia.
  assert ((i * cols + j) / cols = i)%nat as E1.
  { rewrite Nat.add_comm, Nat.div_add, Nat.div_small by lia. lia. }
  assert ((i * cols + j) mod cols = j)%nat as E2.
  { rewrite Nat.add_comm, Nat.Div0.mod_add. by apply Nat.mod_small. }
  rewrite (list_lookup_total_correct _ _ (f i j)); [done|].
  rewrite list_lookup_fmap, lookup_seq_lt by done. simpl. by rewrite E1, E2.
Qed.

Lemma tabulate_ok rows cols f :
  (forall i j, byte (f i j)) -> matrix_ok (tabulate rows cols f) (rows * cols).
Proof.
  intros Hf. split; [unfold tabulate; by rewrite length_map, length_seq|].
  intros p Hp. unfold tabulate.
  rewrite (list_lookup_total_correct _ _ (f (p / cols)%nat (p mod cols)%nat)); [done|].
  by rewrite list_lookup_fmap, lookup_seq_lt by done.
Qed.

Lemma power_byte g m : byte g -> byte (power g m).
Proof. destruct m; intros; [apply byte_1|]. by apply mul_byte. Qed.

(** * Inversion *)

Definition inv (a : Z) : Z :=
  default 0 (list_find (fun x => mul x a = 1) (seqZ 0 256) ≫= fun p => Some p.2).

Definition scale (c : Z) (row : list Z) : list Z := map (mul c) row.

Definition subrow (c : Z) (row pivot : list Z) : list Z :=
  zip_with (fun x y => Z.lxor x (mul c y)) row pivot.

Definition eliminate (k : nat) (rows : list (list Z)) (c : nat) : list (list Z) :=
  match list_find (fun r : nat => (c <= r)%nat /\ (rows !!! r) !!! c <> 0) (seq 0 k) with
  | None => rows
  | Some (_, r) =>
      let p := scale (inv ((rows !!! r) !!! c)) (rows !!! r) in
      let rows := <[c := p]> (<[r := rows !!! c]> rows) in
      imap (fun i row => if decide (i = c) then row else subrow (row !!! c) row p) rows
  end.

Definition augmented (M : list Z) (k : nat) : list (list Z) :=
  map (fun i => map (fun j => entry M k i j) (seq 0 k) ++
                map (fun j => if decide (i = j) then 1 else 0) (seq 0 k)) (seq 0 k).

Definition is_identity_product (A B : list Z) (k : nat) : bool :=
  forallb (fun i => forallb (fun j =>
    xorsum k (fun l => mul (entry A k i l) (entry B k l j)) =?
      (if decide (i = j) then 1 else 0)) (seq 0 k)) (seq 0 k).

Definition invert_matrix (M : list Z) (k : nat) : option (list Z) :=
  let rows := foldl (eliminate k) (augmented M k) (seq 0 k) in
  let I := concat (map (drop k) rows) in
  if decide (length I = k * k)%nat then
    if forallb (fun b => (0 <=? b) && (b <? 256)) I
       && is_identity_product I M k && is_identity_product M I k
    then Some I else None
  else None.

Lemma is_identity_product_spec A B k i j :
  is_identity_product A B k = true -> (i < k)%nat -> (j < k)%nat ->
  xorsum k (fun l => mul (entry A k i l) (entry B k l j)) = if decide (i = j) then 1 else 0.
Proof.
  intros HP Hi Hj. unfold is_identity_product in HP.
  rewrite forallb_forall in HP. specialize (HP i). rewrite forallb_forall in HP.
  apply Z.eqb_eq, HP; apply in_seq; lia.
Qed.

Lemma entry_take M k i j :
  (i < k)%nat -> (j < k)%nat -> entry (take (k * k) M) k i j = entry M k i j.
Proof.
  intros Hi Hj. unfold entry. rewrite !list_lookup_total_alt.
  by rewrite lookup_take_lt by nia.
Qed.

Lemma identity_product_ext A A' B B' k :
  (forall i j, (i < k)%nat -> (j < k)%nat -> entry A k i j = entry A' k i j) ->
  (forall i j, (i < k)%nat -> (j < k)%nat -> entry B k i j = entry B' k i j) ->
  is_identity_product A B k = is_identity_product A' B' k.
Proof.
  intros HA HB. apply forallb_ext_in. intros i Hi%in_seq. apply forallb_ext_in. intros j Hj%in_seq.
  f_equal. apply xorsum_ext. intros l Hl. by rewrite HA, HB by lia.
Qed.

Lemma invert_matrix_block M k : invert_matrix (take (k * k) M) k = invert_matrix M k.
Proof.
  assert (augmented (take (k * k) M) k = augmented M k) as E.
  { apply map_ext_in. intros i Hi%in_seq. f_equal. apply map_ext_in. intros j Hj%in_seq.
    apply entry_take; lia. }
  unfold invert_matrix. rewrite E. case_decide; [|done].
  rewrite (identity_product_ext _ (concat (map (drop k) (foldl (eliminate k) (augmented M k) (seq 0 k))))
    (take (k * k) M) M), (identity_product_ext (take (k * k) M) M _
    (concat (map (drop k) (foldl (eliminate k) (augmented M k) (seq 0 k)))));
    auto using entry_take.
Qed.

#[export] Instance isal : Isal := {
  gf_mul := mul;
  gf_gen_rs_matrix := gen_rs_matrix;
  gf_invert_matrix := invert_matrix;
  gf_invert_residue M _ := replicate (length M) 0;
  gftbls := list Z;
  ec_init_tables _ _ M := M;
  ec_encode_data len k rows M bufs :=
    map (fun r => map (fun b =>
        xorsum k (fun j => mul (entry M k r j) (byte_at bufs j b))) (seq 0 len)) (seq 0 rows)
}.

#[export] Instance isal_laws : IsalLaws.
Proof.
  constructor; simpl.
  - intros a b _. apply mul_byte.
  - apply mul_comm.
  - apply mul_assoc.
  - intros a b c _ _ _. apply mul_lxor_r.
  - apply mul_1_l.
  - intros a _. apply mul_0_l.
  - intros m k _. apply tabulate_ok. intros i j. unfold rs_entry.
    repeat case_decide; auto using byte_0, byte_1.
    apply power_byte, power_byte. unfold byte; lia.
  - intros m k _. unfold gen_rs_matrix, tabulate. by rewrite length_map, length_seq.
  - intros m k i j Hk Hi Hj. unfold gen_rs_matrix. rewrite entry_tabulate by lia.
    unfold rs_entry. by rewrite decide_True.
  - intros M k I HM HI. unfold invert_matrix in HI. case_decide as Hlen; [|done].
    destruct (_ && _) eqn:E in HI; [|done]. simplify_eq.
    apply andb_prop in E as [[E1 E2]%andb_prop E3].
    split; [split; [lia|]|split; intros; by apply is_identity_product_spec].
    intros i Hi. rewrite forallb_forall in E1.
    set (I := concat _) in *.
    destruct (lookup_lt_is_Some_2 I i) as [x Hx]; [lia|].
    rewrite (list_lookup_total_correct _ _ _ Hx). unfold byte.
    specialize (E1 x). apply list_elem_of_lookup_2, list_elem_of_In in Hx.
    specialize (E1 Hx). lia.
  - intros M k _. apply invert_matrix_block.
  - intros M _. apply length_replicate.
  - done.
Qed.

End Gf256.
