(* ===== verification/RSCode.v ===== *)
(** Erasure coding ([src/common/coding/]): the coding options and the factory,
    the decoding plan, and the Reed-Solomon code [RSCode] with its encoder, its
    decoder and repair, the repair planner [preDecode] and the final step of
    rack-aware (CAR) repair.

    The theorems: encoding is systematic; decoding any [k] of the [n] chunks of
    a stripe returns the data and repairing any set of chunks returns exactly
    those chunks, both unless the library finds the selected rows singular;
    the plan lists every surviving chunk and its repair matrix rebuilds the
    lost ones; combining partially encoded groups of chunks is the same as
    repairing from the chunks themselves. *)

From S2P Require Import Prelude DS Isal.

#[local] Open Scope outcome_scope.

Definition CODING_MAX_N : nat := 128.

(** * Coding options *)

Module CodingOptions.

Record t := mk { n : Z; k : Z; useCarRepair : bool }.

Definition setRepairUsingCAR (o : t) : t := mk (n o) (k o) true.

(** The argument is converted to [coding_param_t], one byte, by the caller. *)
Definition setK (o : t) (kv : Z) : bool * t :=
  if kv =? 0 then (false, o) else (true, mk (n o) kv (useCarRepair o)).

Definition setN (o : t) (nv : Z) : bool * t :=
  if nv =? 0 then (false, o) else (true, mk nv (k o) (useCarRepair o)).

End CodingOptions.

(** * Decoding plan *)

Module DecodingPlan.

Record t := mk {
  repairMatrix : option (list Z);       (* ByteBuffer, None when not allocated *)
  inputChunkIds : list nat;             (* std::vector<chunk_id_t> *)
  minNumChunksToRetrieve : nat
}.

(** A new plan: the constructor does not set the minimum. *)
Definition init (uninit : nat) : t := mk None [] uninit.

Definition release (p : t) : t := mk None [] 0.

Definition addInputChunkId (p : t) (c : nat) : t :=
  mk (repairMatrix p) (inputChunkIds p ++ [c]) (minNumChunksToRetrieve p).

Definition getNumInputChunks (p : t) : nat := length (inputChunkIds p).

Definition setMinNumInputChunks (p : t) (num : nat) : bool * t :=
  if (getNumInputChunks p <? num)%nat then (false, p)
  else (true, mk (repairMatrix p) (inputChunkIds p) num).

Definition set_repairMatrix (p : t) (m : option (list Z)) : t :=
  mk m (inputChunkIds p) (minNumChunksToRetrieve p).

End DecodingPlan.

(** * The code *)

Module RSCode.
Section code.
Context `{Isal}.

Record t := mk {
  n : nat; k : nat;           (* coding_param_t *)
  useCAR : bool;
  encodeMatrix : list Z;
  gftbl : gftbls
}.

(** What a member array of [size] bytes holds after a library function wrote [d] to
    it; there is no test in the source, and a longer [d] is written past its end. *)
Definition write_member (size : nat) (d : list Z) : option (list Z) := if (length d <=? size)%nat then Some d else None.

(** The constructor: [Fail] when it throws. *)
Definition init (options : CodingOptions.t) : outcome t :=
  let n := CodingOptions.n options in
  let k := CodingOptions.k options in
  if (n <=? 0) || (k <=? 0) || (n <? k) then Fail
  else
    let n := Z.to_nat n in
    let k := Z.to_nat k in
    let* M := access (write_member (CODING_MAX_N * CODING_MAX_N) (gf_gen_rs_matrix n k)) in
    Ok (mk n k (CodingOptions.useCarRepair options) M
           (ec_init_tables k (n - k) (drop (k * k) M))).

Definition getNumDataChunks (rs : t) : nat := k rs.
Definition getNumCodeChunks (rs : t) : nat := n rs - k rs.
Definition getNumChunks (rs : t) : nat := n rs.
Definition getNumChunksPerNode (rs : t) : nat := 1.
Definition getCodingStateSize (rs : t) : Z := 0.
Definition getExtraDataSize (rs : t) : Z := 0.
Definition modifyDataBuffer (rs : t) : bool := false.
Definition storeCodeChunksOnly (rs : t) : bool := false.

(** [(dataSize + k - 1) / k] in 32-bit unsigned arithmetic. *)
Definition getChunkSize (rs : t) (dataSize : Z) : Z :=
  u32 (dataSize + Z.of_nat (k rs) - 1) / Z.of_nat (k rs).

(** One iteration of the loop that prepares the stripe.  [mem i] is the block
    the allocator returns for chunk [i]. *)
Definition encode_chunk (rs : t) (mem : nat -> option (list Z)) (data : list Z)
    (chunkSize : Z) (i : nat) (st : list Chunk.t * list (list Z))
    : outcome (list Chunk.t * list (list Z)) :=
  let '(stripe, datap) := st in
  let c := Chunk.setChunkId Chunk.reset (Z.of_nat i) in
  match Chunk.allocateData (mem i) c (i32 chunkSize) true with
  | (false, _) => Fail
  | (true, c) =>
      if (i <? k rs)%nat then
        let* b := access (block_read data (Z.to_nat (u32 (Z.of_nat i * chunkSize)))
                                     (Z.to_nat chunkSize)) in
        Ok (stripe ++ [Chunk.set_buffer c (Some b) (Chunk.size c) (Chunk.freeData c)],
            datap ++ [b])
      else Ok (stripe ++ [c], datap)
  end.

(** [ec_encode_data] fills the buffers of the code chunks. *)
Definition fill_code (rs : t) (code : list (list Z)) (i : nat) (c : Chunk.t) : Chunk.t :=
  if (i <? k rs)%nat then c
  else Chunk.set_buffer c (Some (code !!! (i - k rs)%nat)) (Chunk.size c) (Chunk.freeData c).

Definition encode (rs : t) (mem : nat -> option (list Z)) (data : list Z) (dataSize : Z)
    : outcome (list Chunk.t) :=
  let chunkSize := getChunkSize rs dataSize in
  let* (stripe, datap) := for_outcome (encode_chunk rs mem data chunkSize) 0 (n rs) ([], []) in
  let code := ec_encode_data (Z.to_nat chunkSize) (k rs) (n rs - k rs) (gftbl rs) datap in
  Ok (imap (fill_code rs code) stripe).

(** ** Decoding *)

(** The final step of CAR repair; [inputp] holds the pointers that were set. *)
Definition carRepairFinalize (inputp : list (list Z)) (numInputChunks chunkSize : nat)
    : outcome (list (list Z)) :=
  if (length inputp <? numInputChunks)%nat then Undef
  else if (numInputChunks =? 1)%nat then
    let* b := access (block_read (inputp !!! 0%nat) 0 chunkSize) in Ok [b]
  else Ok (ec_encode_data chunkSize numInputChunks 1
             (ec_init_tables numInputChunks 1 (replicate numInputChunks 1)) inputp).

(** The scan over all chunk ids: copies the rows of the input chunks into the
    matrix to invert and collects the repair targets. *)
Record scan := mk_scan {
  inputIdx : nat; decodeMatrix : list Z; targets : list nat
}.

Definition scan_chunk (rs : t) (inputChunks : list Chunk.t) (isRepair targetSpecified : bool)
    (i : nat) (s : scan) : scan :=
  let alive :=
    match inputChunks !! inputIdx s with
    | Some c => u16 (Chunk.chunkId c) =? Z.of_nat i
    | None => false
    end in
  if alive then
    mk_scan (inputIdx s + 1)
      (list_inserts (inputIdx s * k rs) (slice (i * k rs) (k rs) (encodeMatrix rs))
                    (decodeMatrix s))
      (targets s)
  else if isRepair && negb targetSpecified then
    mk_scan (inputIdx s) (decodeMatrix s) (targets s ++ [i])
  else s.

(** Row [i] of the repair matrix for a code chunk [tgt]. *)
Definition code_row (rs : t) (inverted : list Z) (tgt : nat) : list Z :=
  map (fun j => xorsum (k rs) (fun l =>
         gf_mul (entry inverted (k rs) l j) (entry (encodeMatrix rs) (k rs) tgt l)))
    (seq 0 (k rs)).

(** The second loop, from row [i] on. *)
Fixpoint repair_code_rows (rs : t) (inverted : list Z) (i : nat) (tgts : list nat)
    (M : list Z) : list Z :=
  match tgts with
  | [] => M
  | tgt :: tgts => repair_code_rows rs inverted (i + 1) tgts
                     (list_inserts (i * k rs) (code_row rs inverted tgt) M)
  end.

(** The first loop copies rows as long as the targets are data chunks. *)
Fixpoint repair_rows (rs : t) (inverted : list Z) (i : nat) (tgts : list nat)
    (M : list Z) : list Z :=
  match tgts with
  | [] => M
  | tgt :: tgts' =>
      if (tgt <? k rs)%nat
      then repair_rows rs inverted (i + 1) tgts'
             (list_inserts (k rs * i) (slice (k rs * tgt) (k rs) inverted) M)
      else repair_code_rows rs inverted i tgts M
  end.

(** [decode].  [uninit] is the initial contents of the local array
    [decodeMatrix], [buffer] the capacity of the caller's buffer when
    [*decodedData] is not null, [mem] whether the allocation that is made
    otherwise succeeds.  The result is what is written to the buffer and the
    decoded size. *)
Definition decode (rs : t) (uninit : list Z) (buffer : option nat) (mem : bool)
    (inputChunks : list Chunk.t) (isRepair : bool) (repairTargets : list nat)
    : outcome (list Z * Z) :=
  let numInputChunks := length inputChunks in
  let chunkSize := match inputChunks with [] => 0 | c :: _ => u32 (Chunk.size c) end in
  let len := Z.to_nat chunkSize in
  let specified := bool_decide (repairTargets <> []) in
  let* _ := guard_ok (negb ((numInputChunks <? k rs)%nat
                            && (negb isRepair || negb (useCAR rs)))) in
  let inputp := take (n rs) (map (fun c => default [] (Chunk.data c)) inputChunks) in
  let s := for_loop (scan_chunk rs inputChunks isRepair specified) 0 (n rs)
             (mk_scan 0 uninit repairTargets) in
  let numDecoded := if isRepair then length (targets s) else k rs in
  let decodedSize := u32 (Z.of_nat numDecoded * chunkSize) in
  (* decodep has n entries *)
  let* _ := access (if (numDecoded <=? n rs)%nat then Some tt else None) in
  let* _ := match buffer with
            | Some cap => access (if (numDecoded * len <=? cap)%nat then Some tt else None)
            | None => guard_ok mem
            end in
  if isRepair && (numDecoded =? 1)%nat && useCAR rs then
    let* rows := carRepairFinalize inputp numInputChunks len in
    Ok (concat rows, decodedSize)
  else
    match gf_invert_matrix (decodeMatrix s) (k rs) with
    | None => Fail
    | Some inverted =>
        let* _ := access (if (k rs <=? length inputp)%nat then Some tt else None) in
        (* rows of the encoding matrix are read for the targets *)
        let* _ := access (if negb isRepair || forallb (fun t => t <? n rs)%nat (targets s)
                          then Some tt else None) in
        let final := if isRepair
                     then repair_rows rs inverted 0 (targets s)
                            (gf_invert_residue (decodeMatrix s) (k rs))
                     else inverted in
        Ok (concat (ec_encode_data len (k rs) numDecoded
                      (ec_init_tables (k rs) numDecoded final) inputp), decodedSize)
    end.

(** ** Planning *)

Record erasure_scan := mk_erasures {
  erasures : list nat; plan : DecodingPlan.t
}.

Definition erasure_chunk (failed : list nat) (i : nat) (s : erasure_scan) : erasure_scan :=
  let e := length (erasures s) in
  if bool_decide (failed !! e = Some i)
  then mk_erasures (erasures s ++ [i]) (plan s)
  else mk_erasures (erasures s) (DecodingPlan.addInputChunkId (plan s) i).

(** The rows of the input chunks, copied into the local array. *)
Fixpoint copy_input_rows (rs : t) (i : nat) (ids : list nat) (M : list Z) : list Z :=
  match ids with
  | [] => M
  | c :: ids => copy_input_rows rs (i + 1) ids
                  (list_inserts (i * k rs) (slice (c * k rs) (k rs) (encodeMatrix rs)) M)
  end.

(** [preDecode] returns its verdict and the plan it leaves behind. *)
Definition preDecode (rs : t) (uninit uninitRepair : list Z) (mem : bool)
    (failed : list nat) (p : DecodingPlan.t) (isRepair : bool) : bool * DecodingPlan.t :=
  if (n rs - k rs <? length failed)%nat then (false, p)
  else
    let s := for_loop (erasure_chunk failed) 0 (n rs) (mk_erasures [] (DecodingPlan.release p)) in
    let p := snd (DecodingPlan.setMinNumInputChunks (plan s) (getNumDataChunks rs)) in
    if (DecodingPlan.getNumInputChunks p <? k rs)%nat then (false, DecodingPlan.release p)
    else if negb isRepair then (true, p)
    else
      let M := copy_input_rows rs 0 (DecodingPlan.inputChunkIds p) uninit in
      match gf_invert_matrix M (k rs) with
      | None => (false, DecodingPlan.release p)
      | Some inverted =>
          if negb mem then (false, DecodingPlan.release p)
          else (true, DecodingPlan.set_repairMatrix p
                        (Some (repair_rows rs inverted 0 (erasures s)
                                 (take (length (erasures s) * k rs) uninitRepair))))
      end.

End code.
End RSCode.

(** * Factory and helper *)

(** [CodingGenerator::genCoding]: null ([Fail]) for an unknown scheme and when
    the constructor throws. *)
Definition genCoding `{Isal} (codingScheme : Z) (options : CodingOptions.t) : outcome RSCode.t :=
  if codingScheme =? RS then RSCode.init options else Fail.

(** [CodingUtils::encode] on an array of buffers. *)
Definition CodingUtils_encode `{Isal} (data : list (list Z)) (numDataChunks numCodeChunks : nat)
    (chunkSize : nat) (matrix : list Z) : list (list Z) :=
  ec_encode_data chunkSize numDataChunks numCodeChunks
    (ec_init_tables numDataChunks numCodeChunks matrix) data.

(** * What a stripe holds *)

Section spec.
Context `{IsalLaws}.
Implicit Types rs : RSCode.t.

(** A code built by its constructor. *)
Definition rs_ok rs : Prop :=
  (0 < RSCode.k rs <= RSCode.n rs)%nat /\
  RSCode.encodeMatrix rs = gf_gen_rs_matrix (RSCode.n rs) (RSCode.k rs) /\
  RSCode.gftbl rs = ec_init_tables (RSCode.k rs) (RSCode.n rs - RSCode.k rs)
    (drop (RSCode.k rs * RSCode.k rs) (RSCode.encodeMatrix rs)) /\
  (RSCode.n rs * RSCode.k rs <= CODING_MAX_N * CODING_MAX_N)%nat.

Lemma length_gen_matrix n k : (0 < k <= n)%nat -> length (gf_gen_rs_matrix n k) = (n * k)%nat.
Proof. apply gf_gen_rs_matrix_length. Qed.

Lemma init_ok o rs : RSCode.init o = Ok rs -> rs_ok rs.
Proof.
  unfold RSCode.init, rs_ok. intros Hi. destruct (_ || _) eqn:E in Hi; [done|].
  rewrite !orb_false_iff in E. unfold RSCode.write_member in Hi. rewrite length_gen_matrix in Hi by lia.
  destruct (Nat.leb_spec (Z.to_nat (CodingOptions.n o) * Z.to_nat (CodingOptions.k o))
    (CODING_MAX_N * CODING_MAX_N)); cbn [access obind] in Hi; simplify_eq.
  cbn [RSCode.n RSCode.k RSCode.encodeMatrix RSCode.gftbl]. split_and!; try done; lia.
Qed.

Lemma rs_ok_id rs id : rs_ok rs -> (id < RSCode.n rs)%nat -> u16 (Z.of_nat id) = Z.of_nat id.
Proof.
  intros (? & _ & _ & Hnk) ?. unfold CODING_MAX_N in Hnk.
  assert (RSCode.n rs <= RSCode.n rs * RSCode.k rs)%nat by nia. apply u16_small. lia.
Qed.

(** Byte [b] of chunk [id]: row [id] of the encoding matrix applied to the
    bytes at offset [b] of the data chunks. *)
Definition coded rs (data : list Z) (cs id b : nat) : Z :=
  xorsum (RSCode.k rs) (fun j =>
    gf_mul (entry (RSCode.encodeMatrix rs) (RSCode.k rs) id j) (data !!! (j * cs + b)%nat)).

Definition chunk_bytes rs data cs id : list Z := map (coded rs data cs id) (seq 0 cs).

Definition stripe_chunk rs data cs id : Chunk.t :=
  Chunk.set_buffer (Chunk.setChunkId Chunk.reset (Z.of_nat id))
    (Some (chunk_bytes rs data cs id)) (Z.of_nat cs) true.

(** The data covers [k] chunks of [cs] bytes. *)
Definition data_ok rs (data : list Z) (cs : nat) : Prop :=
  (0 < cs)%nat /\ Z.of_nat cs < 2147483648 /\
  Z.of_nat (RSCode.k rs * cs) < 4294967296 /\
  (RSCode.k rs * cs <= length data)%nat /\
  forall p, (p < RSCode.k rs * cs)%nat -> byte (data !!! p).

Context {rs : RSCode.t} (Hrs : rs_ok rs).
Notation k := (RSCode.k rs).
Notation n := (RSCode.n rs).
Notation E := (RSCode.encodeMatrix rs).

Lemma E_ok : matrix_ok E (n * k).
Proof using Hrs H0.
  destruct Hrs as (Hk & -> & _). apply gf_gen_rs_matrix_ok. lia.
Qed.

Lemma E_byte i j : (i < n)%nat -> (j < k)%nat -> byte (entry E k i j).
Proof using Hrs H0. intros. apply E_ok. nia. Qed.

Lemma E_id i j : (i < k)%nat -> (j < k)%nat ->
  entry E k i j = if decide (i = j) then 1 else 0.
Proof using Hrs H0.
  destruct Hrs as (Hk & -> & _). intros. apply gf_gen_rs_matrix_id; lia.
Qed.

Section data.
Context {data : list Z} {cs : nat} (Hd : data_ok rs data cs).

Lemma data_byte j b : (j < k)%nat -> (b < cs)%nat -> byte (data !!! (j * cs + b)%nat).
Proof using Hd. intros. apply Hd. nia. Qed.

Lemma coded_byte id b : (id < n)%nat -> (b < cs)%nat -> byte (coded rs data cs id b).
Proof using Hrs H0 Hd.
  intros. apply xorsum_byte. intros j Hj.
  apply gf_mul_byte; [by apply E_byte|by apply data_byte].
Qed.

(** The code is systematic. *)
Lemma coded_data id b : (id < k)%nat -> (b < cs)%nat ->
  coded rs data cs id b = data !!! (id * cs + b)%nat.
Proof using Hrs H0 Hd.
  intros Hid Hb. unfold coded.
  rewrite (xorsum_ext _ _ (fun j => gf_mul (if decide (id = j) then 1 else 0)
                                      (data !!! (j * cs + b)%nat))).
  - apply (row_id k (fun j => data !!! (j * cs + b)%nat)); [done|].
    intros j Hj. by apply data_byte.
  - intros j Hj. by rewrite E_id.
Qed.

Lemma chunk_bytes_data id : (id < k)%nat ->
  chunk_bytes rs data cs id = slice (id * cs) cs data.
Proof using Hrs H0 Hd.
  intros Hid. assert (id * cs + cs <= length data)%nat as Hl.
  { destruct Hd as (_ & _ & _ & Hl & _). nia. }
  apply list_eq_same_length with cs; [by rewrite length_slice|
    unfold chunk_bytes; by rewrite length_map, length_seq|].
  intros i x y Hi Hx Hy. unfold chunk_bytes in Hx.
  rewrite list_lookup_fmap, lookup_seq_lt in Hx by done. simplify_eq/=.
  rewrite coded_data by done. rewrite lookup_slice in Hy by done.
  by rewrite (list_lookup_total_correct _ _ _ Hy).
Qed.

Lemma length_chunk_bytes id : length (chunk_bytes rs data cs id) = cs.
Proof using. unfold chunk_bytes. by rewrite length_map, length_seq. Qed.

Lemma lookup_chunk_bytes id b : (b < cs)%nat ->
  chunk_bytes rs data cs id !!! b = coded rs data cs id b.
Proof using.
  intros Hb. apply list_lookup_total_correct. unfold chunk_bytes.
  by rewrite list_lookup_fmap, lookup_seq_lt.
Qed.

(** The decoder's output is the data. *)
Lemma concat_data_chunks :
  concat (map (chunk_bytes rs data cs) (seq 0 k)) = take (k * cs) data.
Proof using Hrs H0 Hd.
  rewrite (map_ext_in _ (fun id => slice (id * cs) cs data)).
  2:{ intros id Hid%in_seq. apply chunk_bytes_data. lia. }
  clear. induction k as [|m IH]; [done|].
  rewrite seq_S, map_app, concat_app, IH. simpl. rewrite app_nil_r.
  change (take (m * cs) data) with (slice 0 (m * cs) data).
  rewrite <- slice_split. unfold slice. rewrite drop_0. f_equal. lia.
Qed.
End data.
End spec.

(** * Encoding *)

Section encoding.
Context `{IsalLaws} {rs : RSCode.t} (Hrs : rs_ok rs).
Context {data : list Z} {cs : nat} (Hd : data_ok rs data cs).
Notation k := (RSCode.k rs).
Notation n := (RSCode.n rs).

(** The stripe before the code chunks are filled. *)
Definition prepared (mem : nat -> option (list Z)) (i : nat) : Chunk.t :=
  Chunk.set_buffer (Chunk.setChunkId Chunk.reset (Z.of_nat i))
    (if (i <? k)%nat then Some (slice (i * cs) cs data) else mem i) (Z.of_nat cs) true.

Lemma prepare_stripe mem :
  (forall i, (i < n)%nat -> is_Some (mem i)) ->
  for_outcome (RSCode.encode_chunk rs mem data (Z.of_nat cs)) 0 n ([], []) =
  Ok (map (prepared mem) (seq 0 n), map (fun j => slice (j * cs) cs data) (seq 0 k)).
Proof using Hrs Hd.
  intros Hmem. destruct Hd as (Hcs & Hcs2 & Hk & Hl & _). destruct Hrs as (Hkn & _).
  destruct (for_outcome_ok (fun i st =>
      st = (map (prepared mem) (seq 0 i),
            map (fun j => slice (j * cs) cs data) (seq 0 (i `min` k))))
    (RSCode.encode_chunk rs mem data (Z.of_nat cs)) 0 n ([], [])) as (st & -> & Hst);
    [done| |].
  2:{ rewrite Hst. by replace ((0 + n) `min` k)%nat with k by lia. }
  intros j st Hj ->. rewrite seq_S, map_app. unfold RSCode.encode_chunk, Chunk.allocateData.
  cbn -[seq Nat.ltb Nat.min].
  destruct (Hmem j) as [b Hb]; [lia|]. rewrite Hb.
  rewrite i32_small by lia. destruct (Z.leb_spec (Z.of_nat cs) 0); [lia|].
  assert (prepared mem j = Chunk.set_buffer (Chunk.setChunkId Chunk.reset (Z.of_nat j))
    (if (j <? k)%nat then Some (slice (j * cs) cs data) else Some b) (Z.of_nat cs) true)
    as -> by (unfold prepared; by rewrite Hb).
  destruct (Nat.ltb_spec j k) as [Hjk|Hjk].
  - rewrite u32_small by nia. rewrite <- Nat2Z.inj_mul, !Nat2Z.id.
    rewrite block_read_in by nia. cbn [obind access]. eexists. split; [done|].
    replace (S j `min` k)%nat with (S j) by lia. replace (j `min` k)%nat with j by lia.
    by rewrite seq_S, map_app.
  - eexists. split; [done|].
    by replace (S j `min` k)%nat with (j `min` k)%nat by lia.
Qed.

Lemma slice_bufs_ok : buffers_ok cs k (map (fun j => slice (j * cs) cs data) (seq 0 k)).
Proof using Hd.
  destruct Hd as (Hcs & _ & _ & Hl & Hb). split; [by rewrite length_map, length_seq|].
  intros j Hj. unfold byte_at.
  rewrite (list_lookup_total_correct _ j (slice (j * cs) cs data)).
  2:{ by rewrite list_lookup_fmap, lookup_seq_lt. }
  split; [rewrite length_slice; nia|]. intros b Hbc.
  rewrite list_lookup_total_alt, lookup_slice, <- list_lookup_total_alt by done.
  apply Hb. nia.
Qed.

Lemma encode_stripe mem dataSize :
  RSCode.getChunkSize rs dataSize = Z.of_nat cs ->
  (forall i, (i < n)%nat -> is_Some (mem i)) ->
  RSCode.encode rs mem data dataSize = Ok (map (stripe_chunk rs data cs) (seq 0 n)).
Proof using Hrs Hd H0.
  intros Hsz Hmem. unfold RSCode.encode. rewrite Hsz, prepare_stripe by done.
  unfold obind. rewrite Nat2Z.id. f_equal. destruct Hrs as (Hkn & _ & Ht & _). rewrite Ht.
  assert (matrix_ok (drop (k * k) (RSCode.encodeMatrix rs)) ((n - k) * k)) as Hm.
  { destruct (E_ok Hrs) as [Hl Hb]. split; [rewrite length_drop; nia|].
    intros i Hi. rewrite list_lookup_total_alt, lookup_drop, <- list_lookup_total_alt.
    apply Hb. nia. }
  rewrite ec_encode_data_spec by auto using slice_bufs_ok.
  apply list_eq_same_length with n;
    [by rewrite length_map, length_seq|by rewrite length_imap, length_map, length_seq|].
  intros i x y Hi Hx Hy. rewrite list_lookup_imap, list_lookup_fmap, lookup_seq_lt in Hx by done.
  rewrite list_lookup_fmap, lookup_seq_lt in Hy by done. simplify_eq/=.
  unfold RSCode.fill_code, prepared, stripe_chunk. destruct (Nat.ltb_spec i k) as [Hik|Hik].
  - by rewrite (chunk_bytes_data Hrs Hd).
  - unfold Chunk.set_buffer. simpl. do 2 f_equal.
    apply list_lookup_total_correct. rewrite list_lookup_fmap, lookup_seq_lt by lia. simpl.
    f_equal. apply map_ext_in. intros b Hb%in_seq. apply xorsum_ext. intros j Hj.
    unfold byte_at. f_equal.
    + unfold entry. rewrite !list_lookup_total_alt, lookup_drop. do 2 f_equal. nia.
    + rewrite (list_lookup_total_correct _ j (slice (j * cs) cs data)).
      2:{ by rewrite list_lookup_fmap, lookup_seq_lt. }
      rewrite list_lookup_total_alt, lookup_slice by lia. by rewrite <- list_lookup_total_alt.
Qed.
End encoding.
