(* ===== verification/RSDecode.v ===== *)
(** Correctness of the Reed-Solomon decoder, of repair and of the repair
    planner: the theorems about the definitions of [RSCode]. *)

From S2P Require Import Prelude DS Isal Gf256 RSCode.

(** * Rows written into a matrix *)

Section rows.
Context {A : Type} `{Inhabited A}.
Implicit Types (l r : list A).

Lemma list_inserts_splice i r l :
  (i + length r <= length l)%nat ->
  list_inserts i r l = take i l ++ r ++ drop (i + length r) l.
Proof.
  revert i. induction r as [|x r IH]; intros i Hl; simpl in *.
  - by rewrite Nat.add_0_r, take_drop.
  - rewrite IH by lia.
    rewrite (take_S_r l i (l !!! i)) by (apply lookup_total_lt; lia).
    rewrite <- app_assoc. rewrite insert_app_r_alt by (rewrite length_take; lia).
    rewrite length_take, Nat.min_l by lia. rewrite Nat.sub_diag. simpl.
    do 3 f_equal. f_equal. lia.
Qed.

Lemma lookup_concat_rows k (rows : list (list A)) i j :
  Forall (fun r => length r = k) rows -> (i < length rows)%nat -> (j < k)%nat ->
  concat rows !!! (i * k + j)%nat = (rows !!! i) !!! j.
Proof.
  intros HF. revert i. induction HF as [|r rows Hr HF IH]; intros i Hi Hj; simpl in *; [lia|].
  destruct i as [|i]; simpl.
  - rewrite list_lookup_total_alt, lookup_app_l by lia. by rewrite list_lookup_total_alt.
  - rewrite list_lookup_total_alt, lookup_app_r by nia.
    rewrite <- list_lookup_total_alt, <- IH by lia. f_equal. nia.
Qed.

Lemma length_concat_rows k (rows : list (list A)) :
  Forall (fun r => length r = k) rows -> length (concat rows) = (length rows * k)%nat.
Proof. induction 1 as [|r rows Hr HF IH]; simpl; [done|]. by rewrite length_app, IH, Hr. Qed.

Lemma drop_take_splice i j l :
  (i <= j)%nat -> (j <= length l)%nat -> take i (take j l) = take i l.
Proof. intros. rewrite take_take. f_equal. lia. Qed.
End rows.

(** Writing row after row from row [i] on replaces a contiguous block. *)
Fixpoint write_rows (k i : nat) (rows : list (list Z)) (M : list Z) : list Z :=
  match rows with
  | [] => M
  | r :: rows => write_rows k (i + 1) rows (list_inserts (i * k) r M)
  end.

Lemma write_rows_splice k i rows M :
  Forall (fun r => length r = k) rows -> ((i + length rows) * k <= length M)%nat ->
  write_rows k i rows M =
  take (i * k) M ++ concat rows ++ drop ((i + length rows) * k) M.
Proof.
  intros HF. revert i M. induction HF as [|r rows Hr HF IH]; intros i M Hl; simpl in *.
  - by rewrite Nat.add_0_r, take_drop.
  - rewrite IH by (rewrite length_inserts; nia).
    rewrite list_inserts_splice by nia. rewrite Hr.
    rewrite !(app_assoc (take (i * k) M) r). set (A := take (i * k) M ++ r).
    assert (length A = (i + 1) * k)%nat as HA
      by (unfold A; rewrite length_app, length_take, Hr; nia).
    rewrite take_app_length' by lia. rewrite drop_app_ge by nia. rewrite HA, drop_drop.
    unfold A. rewrite <- !app_assoc. do 4 f_equal. nia.
Qed.

Lemma write_rows_block k rows M :
  Forall (fun r => length r = k) rows -> (length rows * k <= length M)%nat ->
  take (length rows * k) (write_rows k 0 rows M) = concat rows.
Proof.
  intros HF Hl. rewrite write_rows_splice by done. simpl.
  rewrite take_app_le by (rewrite (length_concat_rows k); done).
  by rewrite take_ge by (rewrite (length_concat_rows k); done).
Qed.

Lemma length_write_rows k i rows M : length (write_rows k i rows M) = length M.
Proof.
  revert i M. induction rows as [|r rows IH]; intros i M; simpl; [done|].
  by rewrite IH, length_inserts.
Qed.

(** * Ascending id lists *)

(** Ascending lists of chunk ids: what the callers pass. *)
Definition ascending (ids : list nat) : Prop := StronglySorted lt ids.

Lemma ascending_split ids i : ascending ids ->
  exists pre post, ids = pre ++ post /\ Forall (fun x => (x < i)%nat) pre /\
  Forall (fun x => (i <= x)%nat) post.
Proof.
  induction 1 as [|x ids Hs IH HF]; [by exists [], []|].
  destruct (decide (x < i)%nat).
  - destruct IH as (pre & post & -> & Hpre & Hpost). exists (x :: pre), post. auto.
  - exists [], (x :: ids). split; [done|]. split; [constructor|].
    constructor; [lia|]. eapply Forall_impl; [exact HF|]. simpl. lia.
Qed.

Lemma ascending_tail x ids : ascending (x :: ids) -> ascending ids.
Proof. by inversion 1. Qed.

(** The ids below [i] of an ascending list, and the next one. *)
Definition below (i : nat) (ids : list nat) : list nat := filter (fun x => (x < i)%nat) ids.

Lemma below_all ids i : Forall (fun x => (x < i)%nat) ids -> below i ids = ids.
Proof.
  intros. unfold below. by apply filter_all.
Qed.

Lemma below_0 ids : below 0 ids = [].
Proof. apply filter_none, Forall_true. lia. Qed.

Lemma below_step ids i : ascending ids ->
  (ids !! length (below i ids) = Some i /\ below (S i) ids = below i ids ++ [i] /\ i ∈ ids) \/
  (ids !! length (below i ids) <> Some i /\ below (S i) ids = below i ids /\ i ∉ ids).
Proof.
  induction 1 as [|x ids Hs IH HF]; [right; split_and!; [done|done|apply not_elem_of_nil]|].
  unfold below in *. destruct (decide (x < i)%nat) as [Hx|Hx].
  - rewrite !filter_cons_True by lia. simpl.
    destruct IH as [(?&->&?)|(?&->&?)]; [left|right]; (split_and!; [done|done|]).
    + by apply list_elem_of_further.
    + rewrite not_elem_of_cons. split; [lia|done].
  - assert (filter (fun x => (x < i)%nat) ids = []) as Hnil.
    { apply filter_none. eapply Forall_impl; [exact HF|]. simpl. lia. }
    rewrite (filter_cons_False _ x) by done. rewrite Hnil. simpl.
    destruct (decide (x = i)) as [->|Hne].
    + left. rewrite filter_cons_True by lia. split; [done|]. split; [|apply list_elem_of_here].
      f_equal. apply filter_none. eapply Forall_impl; [exact HF|]. simpl. lia.
    + right. rewrite filter_cons_False by lia. split; [congruence|]. split.
      * apply filter_none. eapply Forall_impl; [exact HF|]. simpl. lia.
      * rewrite not_elem_of_cons. split; [lia|]. intros Hin.
        rewrite Forall_forall in HF. specialize (HF _ Hin). lia.
Qed.

Lemma ascending_length ids m :
  ascending ids -> Forall (fun x => (x < m)%nat) ids -> (length ids <= m)%nat.
Proof.
  intros Hs HF.
  assert (forall i, (length (below i ids) <= i)%nat) as Hi.
  { induction i as [|i IHi].
    - by rewrite below_0.
    - destruct (below_step ids i Hs) as [(_&->&_)|(_&->&_)]; rewrite ?length_app; simpl; lia. }
  rewrite <- (below_all ids m HF). apply Hi.
Qed.

(** * The rows the decoder uses *)

Section decoding.
Context `{IsalLaws} {rs : RSCode.t} (Hrs : rs_ok rs).
Notation k := (RSCode.k rs).
Notation n := (RSCode.n rs).
Notation E := (RSCode.encodeMatrix rs).

Definition enc_row (id : nat) : list Z := slice (id * k) k E.

(** The rows of the first [k] input chunks: the matrix that is inverted. *)
Definition sub_rows (ids : list nat) : list Z := concat (map enc_row (take k ids)).

Lemma length_enc_row id : (id < n)%nat -> length (enc_row id) = k.
Proof using Hrs H0. intros. apply length_slice. destruct (E_ok Hrs). nia. Qed.

Lemma enc_rows_length ids :
  Forall (fun id => (id < n)%nat) ids -> Forall (fun r => length r = k) (map enc_row ids).
Proof using Hrs H0.
  intros HF. apply Forall_map. eapply Forall_impl; [exact HF|]. simpl. apply length_enc_row.
Qed.

Lemma copy_input_rows_write i ids M :
  RSCode.copy_input_rows rs i ids M = write_rows k i (map enc_row ids) M.
Proof using.
  revert i M. induction ids as [|c ids IH]; intros i M; simpl; [done|]. apply IH.
Qed.

Lemma sub_rows_block ids M :
  Forall (fun id => (id < n)%nat) ids -> (k <= length ids <= n)%nat -> length M = (n * n)%nat ->
  take (k * k) (RSCode.copy_input_rows rs 0 ids M) = sub_rows ids.
Proof using Hrs H0.
  intros HF Hl HM. destruct Hrs as (Hkn & _).
  rewrite copy_input_rows_write. rewrite <- (take_drop k ids) at 1.
  rewrite write_rows_splice; [|rewrite take_drop; by apply enc_rows_length|
    rewrite take_drop, length_map; nia].
  simpl. rewrite map_app, concat_app, <- app_assoc.
  assert (length (concat (map enc_row (take k ids))) = k * k)%nat as Hc.
  { rewrite (length_concat_rows k), length_map, length_take by
      (apply enc_rows_length; by apply Forall_take). f_equal. lia. }
  by apply take_app_length'.
Qed.

Lemma entry_sub_rows ids l j :
  Forall (fun id => (id < n)%nat) ids -> (k <= length ids)%nat -> (l < k)%nat -> (j < k)%nat ->
  entry (sub_rows ids) k l j = entry E k (ids !!! l) j.
Proof using Hrs H0.
  intros HF Hlen Hl Hj. unfold entry, sub_rows.
  assert (take k ids !! l = Some (ids !!! l)) as Hlk
    by (rewrite lookup_take_lt by done; apply lookup_total_lt; lia).
  rewrite lookup_concat_rows; [|apply enc_rows_length; by apply Forall_take|
    rewrite length_map, length_take; lia|done].
  rewrite (list_lookup_total_correct _ l (enc_row (ids !!! l))) by
    by rewrite list_lookup_fmap, Hlk.
  unfold enc_row. rewrite !list_lookup_total_alt, lookup_slice by done. done.
Qed.

Lemma ids_lt ids l : Forall (fun id => (id < n)%nat) ids -> (l < length ids)%nat ->
  (ids !!! l < n)%nat.
Proof using.
  intros HF Hl. rewrite Forall_forall in HF. apply HF, list_elem_of_lookup_total_2. done.
Qed.

Lemma sub_rows_ok ids :
  Forall (fun id => (id < n)%nat) ids -> (k <= length ids)%nat ->
  matrix_ok (sub_rows ids) (k * k).
Proof using Hrs H0.
  intros HF Hlen. destruct Hrs as (Hkn & _).
  assert (length (sub_rows ids) = k * k)%nat as Hc.
  { unfold sub_rows. rewrite (length_concat_rows k), length_map, length_take by
      (apply enc_rows_length; by apply Forall_take). f_equal. lia. }
  split; [lia|]. intros p Hp.
  assert (k <> 0)%nat as Hk0 by lia.
  pose proof (Nat.mod_upper_bound p k Hk0). pose proof (Nat.div_mod_eq p k).
  assert (p / k < k)%nat by (apply Nat.Div0.div_lt_upper_bound; lia).
  replace p with (p / k * k + p mod k)%nat by lia.
  change (byte (entry (sub_rows ids) k (p / k) (p mod k))).
  rewrite entry_sub_rows by done. apply (E_byte Hrs); [|done]. apply ids_lt; [done|lia].
Qed.

(** A row of coefficients that rebuilds chunk [id] from the input chunks. *)
Definition rebuilds (ids : list nat) (id : nat) (row : list Z) : Prop :=
  length row = k /\ (forall l, (l < k)%nat -> byte (row !!! l)) /\
  forall j, (j < k)%nat ->
    xorsum k (fun l => gf_mul (row !!! l) (entry E k (ids !!! l) j)) = entry E k id j.

Section inverse.
Context {ids : list nat} (Hids : Forall (fun id => (id < n)%nat) ids).
Context (Hlen : (k <= length ids)%nat).
Context {I : list Z} (HI : gf_invert_matrix (sub_rows ids) k = Some I).

Lemma I_spec :
  matrix_ok I (k * k) /\ forall i j, (i < k)%nat -> (j < k)%nat ->
  xorsum k (fun l => gf_mul (entry I k i l) (entry E k (ids !!! l) j))
  = if decide (i = j) then 1 else 0.
Proof using Hrs H0 Hids Hlen HI.
  destruct (gf_invert_matrix_ok _ _ _ (sub_rows_ok ids Hids Hlen) HI) as (Hok & Hp & _).
  split; [done|]. intros i j Hi Hj. rewrite <- (Hp i j Hi Hj).
  apply xorsum_ext. intros l Hl. by rewrite entry_sub_rows.
Qed.

Lemma I_byte i j : (i < k)%nat -> (j < k)%nat -> byte (entry I k i j).
Proof using Hrs H0 Hids Hlen HI. intros. apply I_spec. nia. Qed.

Lemma slice_row i : (i < k)%nat -> slice (k * i) k I = map (entry I k i) (seq 0 k).
Proof using Hrs H0 Hids Hlen HI.
  intros Hi. destruct I_spec as [[Hl _] _].
  apply list_eq_same_length with k; [by rewrite length_map, length_seq|
    apply length_slice; nia|].
  intros j x y Hj Hx Hy. rewrite lookup_slice in Hx by done.
  rewrite list_lookup_fmap, lookup_seq_lt in Hy by done. simplify_eq/=.
  unfold entry. symmetry. apply list_lookup_total_correct. rewrite <- Hx. f_equal. lia.
Qed.

Lemma lookup_map_seq (f : nat -> Z) l : (l < k)%nat -> map f (seq 0 k) !!! l = f l.
Proof using.
  intros Hl. apply list_lookup_total_correct. by rewrite list_lookup_fmap, lookup_seq_lt.
Qed.

(** A row of the inverse rebuilds a data chunk. *)
Lemma data_row_rebuilds id : (id < k)%nat -> rebuilds ids id (slice (k * id) k I).
Proof using Hrs H0 Hids Hlen HI.
  intros Hid. rewrite slice_row by done. split; [by rewrite length_map, length_seq|].
  split; [intros l Hl; rewrite lookup_map_seq by done; by apply I_byte|].
  intros j Hj. rewrite (E_id Hrs) by done. rewrite <- (proj2 I_spec id j Hid Hj).
  apply xorsum_ext. intros l Hl. by rewrite lookup_map_seq.
Qed.

(** The row computed for a code chunk, [E_id * I], rebuilds it. *)
Lemma code_row_rebuilds id : (id < n)%nat -> rebuilds ids id (RSCode.code_row rs I id).
Proof using Hrs H0 Hids Hlen HI.
  intros Hid. unfold RSCode.code_row. split; [by rewrite length_map, length_seq|].
  assert (forall l m, (l < k)%nat -> (m < k)%nat ->
    byte (gf_mul (entry I k m l) (entry E k id m))) as Hb.
  { intros. apply gf_mul_byte; [by apply I_byte|by apply (E_byte Hrs)]. }
  split; [intros l Hl; rewrite lookup_map_seq by done; apply xorsum_byte; auto|].
  intros j Hj.
  rewrite (xorsum_ext k _ (fun l => xorsum k (fun m =>
    gf_mul (entry E k id m) (gf_mul (entry I k m l) (entry E k (ids !!! l) j))))).
  2:{ intros l Hl. assert (byte (entry E k (ids !!! l) j)).
      { apply (E_byte Hrs); [|done]. apply ids_lt; [done|lia]. }
      rewrite lookup_map_seq, gf_mul_xorsum_l by auto.
      apply xorsum_ext. intros m Hm. rewrite (gf_mul_comm (entry I k m l)).
      - rewrite gf_mul_assoc; auto using I_byte. by apply (E_byte Hrs).
      - by apply I_byte.
      - by apply (E_byte Hrs). }
  rewrite xorsum_swap.
  rewrite (xorsum_ext k _ (fun m => gf_mul (if decide (j = m) then 1 else 0) (entry E k id m))).
  - apply (row_id k (fun m => entry E k id m)); [done|]. intros. by apply (E_byte Hrs).
  - intros m Hm. rewrite <- gf_mul_xorsum_r.
    + rewrite (proj2 I_spec) by done. destruct (decide (m = j)), (decide (j = m)); try congruence;
        apply gf_mul_comm; auto using byte_0, byte_1; by apply (E_byte Hrs).
    + by apply (E_byte Hrs).
    + intros l Hl. apply gf_mul_byte; [by apply I_byte|].
      apply (E_byte Hrs); [|done]. apply ids_lt; [done|lia].
Qed.

(** The rows the two loops of the repair write. *)
Fixpoint repair_row_list (tgts : list nat) : list (list Z) :=
  match tgts with
  | [] => []
  | t :: ts => if (t <? k)%nat then slice (k * t) k I :: repair_row_list ts
               else map (RSCode.code_row rs I) tgts
  end.

Lemma repair_rows_write i tgts M :
  RSCode.repair_rows rs I i tgts M = write_rows k i (repair_row_list tgts) M.
Proof using.
  revert i M. induction tgts as [|t ts IH]; intros i M; [done|]. simpl.
  destruct (t <? k)%nat; simpl.
  - rewrite IH. by rewrite (Nat.mul_comm k i).
  - generalize (list_inserts (i * k) (RSCode.code_row rs I t) M). clear IH t.
    generalize (i + 1)%nat. induction ts as [|t ts IH]; intros i' M'; simpl; [done|]. apply IH.
Qed.

Lemma repair_row_list_rebuilds tgts :
  Forall (fun t => (t < n)%nat) tgts -> Forall2 (rebuilds ids) tgts (repair_row_list tgts).
Proof using Hrs H0 Hids Hlen HI.
  induction 1 as [|t ts Ht HF IH]; [constructor|]. cbn [repair_row_list].
  destruct (Nat.ltb_spec t k).
  - constructor; [by apply data_row_rebuilds|done].
  - apply Forall2_fmap_r, Forall_Forall2_diag. constructor; [by apply code_row_rebuilds|].
    eapply Forall_impl; [exact HF|]. simpl. apply code_row_rebuilds.
Qed.
End inverse.

(** * Applying the rows *)

Section apply.
Context {data : list Z} {cs : nat} (Hd : data_ok rs data cs).
Context {ids : list nat} (Hids : Forall (fun id => (id < n)%nat) ids).
Context (Hlen : (k <= length ids)%nat).

Notation bufs := (map (chunk_bytes rs data cs) ids).

Lemma byte_at_bufs l b : (l < length ids)%nat -> (b < cs)%nat ->
  byte_at bufs l b = coded rs data cs (ids !!! l) b.
Proof using.
  intros Hl Hb. unfold byte_at.
  rewrite (list_lookup_total_correct _ l (chunk_bytes rs data cs (ids !!! l))).
  - by apply lookup_chunk_bytes.
  - rewrite list_lookup_fmap, (lookup_total_lt ids) by done. done.
Qed.

Lemma input_bufs_ok : buffers_ok cs k bufs.
Proof using Hrs H0 Hd Hids Hlen.
  split; [rewrite length_map; lia|]. intros l Hl. split.
  - rewrite (list_lookup_total_correct _ l (chunk_bytes rs data cs (ids !!! l))).
    + by rewrite length_chunk_bytes.
    + rewrite list_lookup_fmap, (lookup_total_lt ids) by lia. done.
  - intros b Hb. rewrite byte_at_bufs by lia. apply (coded_byte Hrs Hd); [|done].
    apply ids_lt; [done|lia].
Qed.

(** One rebuilt byte. *)
Lemma rebuilds_byte id row b : rebuilds ids id row -> (b < cs)%nat ->
  xorsum k (fun l => gf_mul (row !!! l) (byte_at bufs l b)) = coded rs data cs id b.
Proof using Hrs H0 Hd Hids Hlen.
  intros (_ & Hrow & Hmul) Hb.
  rewrite (xorsum_ext k _ (fun l => gf_mul (row !!! l)
    (xorsum k (fun j => gf_mul (entry E k (ids !!! l) j) (data !!! (j * cs + b)%nat))))).
  - apply (row_apply k (fun l => row !!! l) (fun j => entry E k id j)
      (fun l j => entry E k (ids !!! l) j)); auto.
    + intros l j Hl Hj. apply (E_byte Hrs); [|done]. apply ids_lt; [done|lia].
    + intros j Hj. by apply (data_byte Hd).
  - intros l Hl. by rewrite byte_at_bufs by lia.
Qed.

Lemma apply_rows tgts rows M :
  Forall2 (rebuilds ids) tgts rows -> take (length rows * k) M = concat rows ->
  (length rows * k <= length M)%nat ->
  ec_encode_data cs k (length tgts) (ec_init_tables k (length tgts) M) bufs =
  map (chunk_bytes rs data cs) tgts.
Proof using Hrs H0 Hd Hids Hlen.
  intros HF Htake HlM. pose proof (Forall2_length _ _ _ HF) as Hlr. rewrite Hlr.
  assert (Forall (fun r => length r = k) rows) as Hrows.
  { apply Forall_lookup. intros i r Hr.
    by destruct (Forall2_lookup_r _ _ _ _ _ HF Hr) as (? & _ & ? & _). }
  assert (forall r l, (r < length rows)%nat -> (l < k)%nat ->
    entry M k r l = (rows !!! r) !!! l) as Hentry.
  { intros r l Hr Hl. unfold entry. rewrite <- (lookup_concat_rows k) by done.
    rewrite <- Htake, !list_lookup_total_alt, lookup_take_lt; [done|nia]. }
  assert (forall r, (r < length rows)%nat -> rebuilds ids (tgts !!! r) (rows !!! r)) as Hreb.
  { intros r Hr. eapply Forall2_lookup_lr; [exact HF| |]; apply lookup_total_lt; lia. }
  assert (k <> 0)%nat as Hk0 by (destruct Hrs; lia).
  rewrite ec_encode_data_spec.
  - apply list_eq_same_length with (length rows); [by rewrite length_map|
      by rewrite length_map, length_seq|].
    intros r x y Hr Hx Hy. rewrite list_lookup_fmap, lookup_seq_lt in Hx by done.
    rewrite list_lookup_fmap, (lookup_total_lt tgts) in Hy by lia. simplify_eq/=.
    apply map_ext_in. intros b Hb%in_seq.
    rewrite <- (rebuilds_byte _ _ b (Hreb r Hr)) by lia.
    apply xorsum_ext. intros l Hl. by rewrite Hentry.
  - split; [done|]. intros p Hp.
    pose proof (Nat.mod_upper_bound p k Hk0). pose proof (Nat.div_mod_eq p k).
    assert (p / k < length rows)%nat by (apply Nat.Div0.div_lt_upper_bound; lia).
    replace p with (p / k * k + p mod k)%nat by lia.
    change (byte (entry M k (p / k) (p mod k))). rewrite Hentry by done.
    destruct (Hreb (p / k)%nat) as (_ & Hb & _); auto.
  - apply input_bufs_ok.
Qed.
End apply.

(** * The scan of the input chunks *)

Section scan.
Context {ids : list nat} (Hasc : ascending ids) (Hids : Forall (fun id => (id < n)%nat) ids).
Context (chunkOf : nat -> Chunk.t)
  (Hid : forall id, (id < n)%nat -> u16 (Chunk.chunkId (chunkOf id)) = Z.of_nat id).

(** What the scan has computed before it looks at chunk [i]. *)
Definition scanned (isRepair specified : bool) (tgts : list nat) (uninit : list Z) (i : nat)
    : RSCode.scan :=
  RSCode.mk_scan (length (below i ids)) (RSCode.copy_input_rows rs 0 (below i ids) uninit)
    (tgts ++ if isRepair && negb specified
             then filter (fun x => x ∉ ids) (seq 0 i) else []).

Lemma scan_result isRepair specified tgts uninit :
  for_loop (RSCode.scan_chunk rs (map chunkOf ids) isRepair specified) 0 n
    (RSCode.mk_scan 0 uninit tgts) = scanned isRepair specified tgts uninit n.
Proof using Hasc Hids Hid.
  apply (for_loop_inv (fun i s => s = scanned isRepair specified tgts uninit i));
    unfold scanned.
  { rewrite below_0. simpl. destruct (isRepair && negb specified); by rewrite app_nil_r. }
  intros i s Hi ->. unfold RSCode.scan_chunk. cbn [RSCode.inputIdx RSCode.decodeMatrix RSCode.targets].
  rewrite seq_S, filter_app, list_lookup_fmap.
  destruct (below_step ids i Hasc) as [(Hlk & -> & Hin)|(Hlk & -> & Hnin)].
  - rewrite Hlk. simpl. rewrite Hid, Z.eqb_refl by lia. rewrite length_app. f_equal.
    + rewrite !copy_input_rows_write, map_app. generalize (below i ids), uninit. clear.
      intros l M. change (length l * k)%nat with ((0 + length l) * k)%nat. generalize 0%nat.
      revert M. induction l as [|x l IH]; intros M p; simpl.
      * by rewrite Nat.add_0_r.
      * rewrite <- IH. do 2 f_equal. lia.
    + rewrite filter_cons_False by (intros ?; done). simpl. by rewrite app_nil_r.
  - assert (match ids !! length (below i ids) with
            | Some c => u16 (Chunk.chunkId (chunkOf c)) =? Z.of_nat i | None => false end = false)
      as Hf.
    { destruct (ids !! _) as [c|] eqn:Hc; [|done]. apply Z.eqb_neq. intros Heq.
      rewrite Hid in Heq.
      - apply Nat2Z.inj in Heq. congruence.
      - rewrite Forall_lookup in Hids. eauto. }
    destruct (ids !! _); simpl in *; rewrite ?Hf;
    destruct (isRepair && negb specified) eqn:Hr;
      rewrite ?filter_cons_True by done; rewrite <- ?app_assoc; done.
Qed.
End scan.
End decoding.

Arguments sub_rows {_} rs ids : assert.
Arguments repair_row_list {_} rs I tgts : assert.
Arguments rebuilds {_} rs ids id row : assert.
