(* ===== verification/RSTheorems.v ===== *)
(** The correctness theorems of the Reed-Solomon code: encoding followed by
    decoding any [k] chunks, repair of any chunks, the repair plan, and the
    final step of rack-aware (CAR) repair. *)

From S2P Require Import Prelude DS Isal Gf256 RSCode RSDecode.

#[local] Open Scope outcome_scope.

(** * Evaluating the decoder on the chunks of a stripe *)

Section decode.
Context `{IsalLaws} {rs : RSCode.t} (Hrs : rs_ok rs).
Context {data : list Z} {cs : nat} (Hd : data_ok rs data cs).
Context {ids : list nat} (Hasc : ascending ids).
Context (Hids : Forall (fun id => (id < RSCode.n rs)%nat) ids).
Context (Hlen : (RSCode.k rs <= length ids)%nat).
Notation k := (RSCode.k rs).
Notation n := (RSCode.n rs).
Notation input := (map (stripe_chunk rs data cs) ids).

(** The buffer the output goes to has room for [m] chunks. *)
Definition room (m : nat) (buffer : option nat) (mem : bool) : Prop :=
  match buffer with Some cap => (m * cs <= cap)%nat | None => mem = true end.

Lemma room_ok m buffer mem : room m buffer mem ->
  match buffer with
  | Some cap => access (if (m * cs <=? cap)%nat then Some tt else None)
  | None => guard_ok mem
  end = Ok tt.
Proof using.
  unfold room. destruct buffer as [cap|]; [|by intros ->].
  intros Hr. by rewrite (proj2 (Nat.leb_le _ _) Hr).
Qed.

Lemma input_size :
  match input with [] => 0 | c :: _ => u32 (Chunk.size c) end = Z.of_nat cs.
Proof using Hlen Hd Hrs.
  clear Hasc Hids. destruct Hrs as (Hk & _), Hd as (_ & Hcs & _).
  destruct ids; simpl in *; [lia|].
  apply u32_small. lia.
Qed.

Lemma input_buffers :
  take n (map (fun c => default [] (Chunk.data c)) input) = map (chunk_bytes rs data cs) ids.
Proof using Hasc Hids.
  rewrite map_map. simpl. apply take_ge. rewrite length_map.
  by apply ascending_length.
Qed.

Lemma stripe_scan isRepair specified tgts uninit :
  for_loop (RSCode.scan_chunk rs input isRepair specified) 0 n
    (RSCode.mk_scan 0 uninit tgts) =
  RSCode.mk_scan (length ids) (RSCode.copy_input_rows rs 0 ids uninit)
    (tgts ++ if isRepair && negb specified
             then filter (fun x => x ∉ ids) (seq 0 n) else []).
Proof using Hasc Hids Hrs.
  rewrite (scan_result Hasc Hids).
  - unfold scanned. by rewrite below_all.
  - intros id Hid. by apply (rs_ok_id rs).
Qed.

Lemma input_length : (k <=? length input)%nat = true.
Proof using Hlen. rewrite length_map. by apply Nat.leb_le. Qed.

Lemma invert_input uninit : length uninit = (n * n)%nat ->
  gf_invert_matrix (RSCode.copy_input_rows rs 0 ids uninit) k =
  gf_invert_matrix (sub_rows rs ids) k.
Proof using Hrs H0 Hasc Hids Hlen.
  intros Hu. pose proof (ascending_length ids n Hasc Hids).
  rewrite <- (sub_rows_block Hrs ids uninit) by (done || lia).
  symmetry. apply gf_invert_matrix_block.
  rewrite copy_input_rows_write, length_write_rows. destruct Hrs as (? & _). nia.
Qed.

Lemma decode_data uninit buffer mem tgts :
  length uninit = (n * n)%nat -> room k buffer mem ->
  RSCode.decode rs uninit buffer mem input false tgts =
  match gf_invert_matrix (sub_rows rs ids) k with
  | None => Fail
  | Some _ => Ok (take (k * cs) data, Z.of_nat (k * cs))
  end.
Proof using Hrs H0 Hd Hasc Hids Hlen.
  intros Hu Hroom. unfold RSCode.decode.
  rewrite input_size, Nat2Z.id, input_buffers, stripe_scan.
  rewrite length_map, (proj2 (Nat.ltb_ge _ _) Hlen).
  cbn [andb negb guard_ok obind RSCode.targets RSCode.decodeMatrix orb].
  destruct (proj1 Hrs) as [Hk0 Hkn]. rewrite (proj2 (Nat.leb_le _ _) Hkn).
  cbn [access obind]. rewrite room_ok by done. cbn [obind]. rewrite invert_input by done.
  destruct (gf_invert_matrix _ _) as [I|] eqn:HI; [|done].
  rewrite length_map, (proj2 (Nat.leb_le _ _) Hlen). cbn [access obind]. f_equal. f_equal.
  - rewrite <- (concat_data_chunks Hrs Hd). f_equal.
    destruct (I_spec Hrs Hids Hlen HI) as [[HlI _] _].
    pose (rows := map (fun id => slice (k * id) k I) (seq 0 k)).
    assert (forall m, concat (map (fun id => slice (k * id) k I) (seq 0 m)) = take (m * k) I)
      as Hrows.
    { induction m as [|m IH]; [done|].
      rewrite seq_S, map_app, concat_app, IH. simpl. rewrite app_nil_r.
      change (take (m * k) I) with (slice 0 (m * k) I). rewrite (Nat.mul_comm k m).
      rewrite <- slice_split. unfold slice. rewrite drop_0. f_equal. lia. }
    assert (length rows = k) as Hlr by (unfold rows; by rewrite length_map, length_seq).
    pose proof (apply_rows Hrs Hd Hids Hlen (seq 0 k) rows I) as Happ.
    rewrite length_seq, Hlr in Happ. apply Happ; [|by rewrite <- Hrows|done].
    unfold rows. apply Forall2_fmap_r, Forall_Forall2_diag, Forall_seq. intros j Hj.
    apply (data_row_rebuilds Hrs Hids Hlen HI). lia.
  - rewrite u32_small; [lia|]. destruct Hd as (_ & _ & ? & _). lia.
Qed.

(** The chunks a repair rebuilds. *)
Definition repaired (tgts : list nat) : list nat :=
  match tgts with [] => filter (fun x => x ∉ ids) (seq 0 n) | _ => tgts end.

Lemma repair_chunks uninit buffer mem tgts :
  length uninit = (n * n)%nat ->
  Forall (fun t => (t < n)%nat) tgts -> (length tgts <= n)%nat ->
  room (length (repaired tgts)) buffer mem ->
  Z.of_nat (n * cs) < 4294967296 ->
  RSCode.useCAR rs = false \/ length (repaired tgts) <> 1%nat ->
  RSCode.decode rs uninit buffer mem input true tgts =
  match gf_invert_matrix (sub_rows rs ids) k with
  | None => Fail
  | Some _ => Ok (concat (map (chunk_bytes rs data cs) (repaired tgts)),
                  Z.of_nat (length (repaired tgts) * cs))
  end.
Proof using Hrs H0 Hd Hasc Hids Hlen.
  intros Hu Ht Htn Hroom Hsz Hcar. unfold RSCode.decode.
  rewrite input_size, Nat2Z.id, input_buffers, stripe_scan.
  rewrite length_map, (proj2 (Nat.ltb_ge _ _) Hlen).
  cbn [andb negb guard_ok obind RSCode.targets RSCode.decodeMatrix orb].
  assert (tgts ++ (if negb (bool_decide (tgts <> [])) then filter (fun x => x ∉ ids) (seq 0 n)
                   else []) = repaired tgts) as ->.
  { unfold repaired. destruct tgts; [done|]. rewrite bool_decide_eq_true_2 by done.
    simpl. by rewrite app_nil_r. }
  assert (Forall (fun t => (t < n)%nat) (repaired tgts)) as HF.
  { unfold repaired. destruct tgts; [|done].
    apply Forall_forall. intros t [_ [_ Hin]%elem_of_seq]%list_elem_of_filter. lia. }
  assert (length (repaired tgts) <= n)%nat as HR.
  { unfold repaired. destruct tgts; [|done].
    etrans; [apply length_filter|by rewrite length_seq]. }
  rewrite (proj2 (Nat.leb_le _ _) HR). cbn [access obind]. rewrite room_ok by done. cbn [obind].
  assert ((length (repaired tgts) =? 1)%nat && RSCode.useCAR rs = false) as ->.
  { destruct Hcar as [->|Hne]; [apply andb_false_r|]. by rewrite (proj2 (Nat.eqb_neq _ _) Hne). }
  rewrite invert_input by done.
  destruct (gf_invert_matrix _ _) as [I|] eqn:HI; [|done].
  rewrite length_map, (proj2 (Nat.leb_le _ _) Hlen). cbn [access obind].
  assert (forallb (fun t => t <? n)%nat (repaired tgts) = true) as ->.
  { apply forallb_forall. intros t Hin%list_elem_of_In. rewrite Forall_forall in HF.
    by apply Nat.ltb_lt, HF. }
  cbn [access obind]. f_equal. f_equal.
  - f_equal. rewrite repair_rows_write.
    pose proof (repair_row_list_rebuilds Hrs Hids Hlen HI _ HF) as HR2.
    pose proof (Forall2_length _ _ _ HR2) as Hl2.
    assert (length (gf_invert_residue (RSCode.copy_input_rows rs 0 ids uninit) k) = n * n)%nat
      as Hres by (by rewrite length_gf_invert_residue, copy_input_rows_write, length_write_rows).
    assert (length (repair_row_list rs I (repaired tgts)) * k <= n * n)%nat as Hfit.
    { rewrite <- Hl2. destruct (proj1 Hrs). nia. }
    apply (apply_rows Hrs Hd Hids Hlen _ _ _ HR2).
    + apply write_rows_block; [|by rewrite Hres].
      apply Forall_lookup. intros i r Hr.
      by destruct (Forall2_lookup_r _ _ _ _ _ HR2 Hr) as (? & _ & ? & _).
    + by rewrite length_write_rows, Hres.
  - rewrite u32_small; nia.
Qed.
End decode.

Arguments room : clear implicits.
Arguments repaired {_} rs ids tgts : assert.

(** * The repair plan *)

Section plan.
Context `{IsalLaws} {rs : RSCode.t} (Hrs : rs_ok rs).
Context {failed : list nat} (Hasc : ascending failed).
Context (Hf : Forall (fun id => (id < RSCode.n rs)%nat) failed).
Notation k := (RSCode.k rs).
Notation n := (RSCode.n rs).

(** The chunks that survive. *)
Definition alive_ids : list nat := filter (fun x => x ∉ failed) (seq 0 n).

Lemma erasure_scan_result p :
  for_loop (RSCode.erasure_chunk failed) 0 n (RSCode.mk_erasures [] (DecodingPlan.release p)) =
  RSCode.mk_erasures failed (DecodingPlan.mk None alive_ids 0).
Proof using Hasc Hf.
  transitivity (RSCode.mk_erasures (below n failed) (DecodingPlan.mk None alive_ids 0));
    [|by rewrite below_all].
  apply (for_loop_inv (fun i s => s = RSCode.mk_erasures (below i failed)
    (DecodingPlan.mk None (filter (fun x => x ∉ failed) (seq 0 i)) 0))).
  { by rewrite below_0. }
  intros i s Hi ->. unfold RSCode.erasure_chunk. cbn [RSCode.erasures RSCode.plan].
  rewrite seq_S, filter_app. unfold DecodingPlan.addInputChunkId. simpl.
  destruct (below_step failed i Hasc) as [(Hlk & -> & Hin)|(Hlk & -> & Hnin)].
  - rewrite bool_decide_eq_true_2 by done. rewrite filter_cons_False by (by intros ?).
    by rewrite app_nil_r.
  - rewrite bool_decide_eq_false_2 by done. by rewrite filter_cons_True.
Qed.

Lemma alive_length : (length alive_ids + length failed = n)%nat.
Proof using Hasc Hf.
  transitivity (length alive_ids + length (below n failed))%nat; [by rewrite below_all|].
  unfold alive_ids. clear Hf. induction n as [|m IH].
  { by rewrite below_0. }
  rewrite seq_S, filter_app, length_app.
  destruct (below_step failed m Hasc) as [(_ & -> & Hin)|(_ & -> & Hnin)].
  - rewrite filter_cons_False by (by intros ?). rewrite length_app. simpl. lia.
  - rewrite filter_cons_True by done. simpl. lia.
Qed.

Lemma alive_ok : ascending alive_ids /\ Forall (fun id => (id < n)%nat) alive_ids.
Proof using.
  split.
  - unfold alive_ids, ascending. clear. generalize 0%nat as i. induction n as [|m IH]; intros i.
    { constructor. }
    simpl. rewrite filter_cons. case_decide; [|done]. constructor; [done|].
    apply Forall_forall. intros x [_ [Hx _]%elem_of_seq]%list_elem_of_filter. lia.
  - apply Forall_forall. intros x [_ [_ Hx]%elem_of_seq]%list_elem_of_filter. lia.
Qed.

Lemma preDecode_result uninit uninitRepair mem p isRepair :
  (length failed <= n - k)%nat -> length uninit = (n * n)%nat ->
  (length failed * k <= length uninitRepair)%nat ->
  RSCode.preDecode rs uninit uninitRepair mem failed p isRepair =
  if negb isRepair then (true, DecodingPlan.mk None alive_ids k)
  else match gf_invert_matrix (sub_rows rs alive_ids) k with
       | None => (false, DecodingPlan.mk None [] 0)
       | Some inv =>
           if mem
           then (true, DecodingPlan.mk (Some (concat (repair_row_list rs inv failed)))
                         alive_ids k)
           else (false, DecodingPlan.mk None [] 0)
       end.
Proof using Hrs H0 Hasc Hf.
  intros Hl Hu Hr. pose proof alive_length as Hal. destruct alive_ok as [Ha1 Ha2].
  assert (k <= length alive_ids)%nat as Hka by (destruct (proj1 Hrs); lia).
  unfold RSCode.preDecode. rewrite (proj2 (Nat.ltb_ge _ _) Hl), erasure_scan_result.
  cbn [RSCode.plan RSCode.erasures].
  unfold DecodingPlan.setMinNumInputChunks, DecodingPlan.getNumInputChunks, RSCode.getNumDataChunks.
  cbn [DecodingPlan.inputChunkIds]. rewrite (proj2 (Nat.ltb_ge _ _) Hka).
  cbn [snd DecodingPlan.inputChunkIds DecodingPlan.repairMatrix].
  rewrite (proj2 (Nat.ltb_ge _ _) Hka). destruct isRepair; [|done]. cbn [negb].
  rewrite (invert_input Hrs Ha1 Ha2 Hka) by done.
  destruct (gf_invert_matrix _ _) as [I|] eqn:HI; [|done].
  destruct mem; [|done]. cbn [negb]. unfold DecodingPlan.set_repairMatrix. do 3 f_equal.
  rewrite repair_rows_write.
  pose proof (repair_row_list_rebuilds Hrs Ha2 Hka HI _ Hf) as HR.
  pose proof (Forall2_length _ _ _ HR) as HlR. rewrite HlR in Hr |- *.
  set (rows := repair_row_list rs I failed) in *.
  assert (Forall (fun r => length r = k) rows) as Hrows.
  { apply Forall_lookup. intros i r Hi.
    by destruct (Forall2_lookup_r _ _ _ _ _ HR Hi) as (? & _ & ? & _). }
  assert (length (take (length rows * k) uninitRepair) = length rows * k)%nat as Ht
    by (rewrite length_take; lia).
  rewrite write_rows_splice by (done || lia). simpl. rewrite drop_ge by lia. apply app_nil_r.
Qed.
End plan.

Arguments alive_ids {_} rs failed : assert.

(** * Rack-aware repair *)

(** The xor of a list. *)
Definition xorlist (l : list Z) : Z := foldr Z.lxor 0 l.

Lemma xorlist_app l1 l2 : xorlist (l1 ++ l2) = Z.lxor (xorlist l1) (xorlist l2).
Proof.
  induction l1 as [|x l1 IH]; simpl; [by rewrite Z.lxor_0_l|]. by rewrite IH, Z.lxor_assoc.
Qed.

Lemma xorlist_perm l1 l2 : l1 ≡ₚ l2 -> xorlist l1 = xorlist l2.
Proof.
  induction 1; simpl; try congruence.
  by rewrite <- !Z.lxor_assoc, (Z.lxor_comm x y).
Qed.

Lemma xorsum_list m f : xorsum m f = xorlist (map f (seq 0 m)).
Proof.
  induction m as [|m IH]; [done|].
  rewrite seq_S, map_app, xorlist_app, <- IH. simpl. by rewrite Z.lxor_0_r.
Qed.

Lemma xorlist_concat ls : xorlist (map xorlist ls) = xorlist (concat ls).
Proof. induction ls as [|l ls IH]; simpl; [done|]. by rewrite xorlist_app, IH. Qed.

(** Summing over the positions of a list. *)
Lemma xorsum_positions {A} `{!Inhabited A} (l : list A) (f : A -> Z) :
  xorsum (length l) (fun j => f (l !!! j)) = xorlist (map f l).
Proof.
  rewrite xorsum_list. f_equal. apply list_eq_same_length with (length l);
    [by rewrite length_map|by rewrite length_map, length_seq|].
  intros i x y Hi Hx Hy. rewrite list_lookup_fmap, lookup_seq_lt in Hx by done.
  rewrite list_lookup_fmap, (lookup_total_lt l) in Hy by done. simplify_eq/=. done.
Qed.

(** The final step xors its inputs. *)
Lemma carRepairFinalize_xor `{IsalLaws} cs (bufs : list (list Z)) :
  bufs <> [] ->
  (forall buf, buf ∈ bufs -> length buf = cs /\ forall b, (b < cs)%nat -> byte (buf !!! b)) ->
  RSCode.carRepairFinalize bufs (length bufs) cs =
  Ok [map (fun b => xorlist (map (fun buf => buf !!! b) bufs)) (seq 0 cs)].
Proof.
  intros Hne Hb. unfold RSCode.carRepairFinalize. rewrite Nat.ltb_irrefl.
  destruct (Nat.eqb_spec (length bufs) 1) as [H1|H1].
  - destruct bufs as [|buf [|? ?]]; try done.
    destruct (Hb buf) as [Hl _]; [apply list_elem_of_here|]. simpl.
    rewrite block_read_in by lia. cbn [access obind]. do 2 f_equal.
    unfold slice. rewrite drop_0, take_ge by lia.
    apply list_eq_same_length with cs; [by rewrite length_map, length_seq|done|].
    intros i x y Hi Hx Hy. rewrite list_lookup_fmap, lookup_seq_lt in Hy by done.
    simplify_eq/=. rewrite Z.lxor_0_r. symmetry. by apply list_lookup_total_correct.
  - assert (forall j, (j < length bufs)%nat -> replicate (length bufs) 1 !!! j = 1) as Hone
      by (intros; by apply lookup_total_replicate_2).
    assert (forall j, (j < length bufs)%nat -> length (bufs !!! j) = cs /\
      forall b, (b < cs)%nat -> byte ((bufs !!! j) !!! b)) as Hbj
      by (intros j Hj; by apply Hb, list_elem_of_lookup_total_2).
    rewrite ec_encode_data_spec.
    + simpl. do 2 f_equal. apply map_ext_in. intros b Hin%in_seq.
      rewrite <- xorsum_positions. apply xorsum_ext. intros j Hj.
      unfold entry, byte_at. simpl. rewrite Hone by done. apply gf_mul_1_l, Hbj; [done|lia].
    + split; [rewrite length_replicate; lia|]. intros j Hj. rewrite Hone by lia. apply byte_1.
    + split; [done|]. intros j Hj. destruct (Hbj j Hj) as [-> ?]. by split.
Qed.

Section car.
Context `{IsalLaws} {rs : RSCode.t} (Hrs : rs_ok rs).
Context {data : list Z} {cs : nat} (Hd : data_ok rs data cs).
Context {ids : list nat} (Hids : Forall (fun id => (id < RSCode.n rs)%nat) ids).
Context (Hlen : (RSCode.k rs <= length ids)%nat).
Notation k := (RSCode.k rs).

(** What an agent sends for the group of input chunks at positions [g]: the
    chunks combined with the coefficients of these positions. *)
Definition partial (row : list Z) (g : list nat) : list Z :=
  CodingUtils_encode (map (fun p => chunk_bytes rs data cs (ids !!! p)) g) (length g) 1 cs
    (map (fun p => row !!! p) g) !!! 0%nat.

Definition term (row : list Z) (b p : nat) : Z :=
  gf_mul (row !!! p) (coded rs data cs (ids !!! p) b).

Lemma term_byte row b p : (forall l, (l < k)%nat -> byte (row !!! l)) ->
  (p < k)%nat -> (b < cs)%nat -> byte (term row b p).
Proof using Hrs H0 Hd Hids Hlen.
  intros Hrow Hp Hb. apply gf_mul_byte; [by apply Hrow|]. apply (coded_byte Hrs Hd); [|done].
  apply ids_lt; [done|lia].
Qed.

Lemma partial_spec row g :
  (forall p, (p < k)%nat -> byte (row !!! p)) -> Forall (fun p => (p < k)%nat) g ->
  partial row g = map (fun b => xorlist (map (term row b) g)) (seq 0 cs).
Proof using Hrs H0 Hd Hids Hlen.
  intros Hrow Hg. unfold partial, CodingUtils_encode.
  assert (forall j, (j < length g)%nat -> (g !!! j < k)%nat) as Hgj.
  { intros j Hj. rewrite Forall_forall in Hg. by apply Hg, list_elem_of_lookup_total_2. }
  rewrite ec_encode_data_spec.
  - simpl. apply map_ext_in. intros b Hb%in_seq. rewrite <- xorsum_positions.
    apply xorsum_ext. intros j Hj. unfold entry, byte_at, term. simpl.
    by rewrite !lookup_total_map, lookup_chunk_bytes by lia.
  - split; [rewrite length_map; lia|]. intros j Hj. rewrite lookup_total_map by lia.
    apply Hrow, Hgj. lia.
  - split; [by rewrite length_map|]. intros j Hj. rewrite lookup_total_map by done.
    rewrite length_chunk_bytes. split; [done|]. intros b Hb. unfold byte_at.
    rewrite lookup_total_map, lookup_chunk_bytes by done. apply (coded_byte Hrs Hd); [|done].
    apply ids_lt; [done|]. specialize (Hgj j Hj). lia.
Qed.

Lemma lookup_partial row g b :
  (forall p, (p < k)%nat -> byte (row !!! p)) -> Forall (fun p => (p < k)%nat) g -> (b < cs)%nat ->
  partial row g !!! b = xorlist (map (term row b) g).
Proof using Hrs H0 Hd Hids Hlen.
  intros. rewrite partial_spec by done. apply list_lookup_total_correct.
  by rewrite list_lookup_fmap, lookup_seq_lt.
Qed.

Lemma group_positions groups g :
  concat groups ≡ₚ seq 0 k -> g ∈ groups -> Forall (fun p => (p < k)%nat) g.
Proof using.
  clear Hlen. intros Hperm Hin. apply Forall_forall. intros p Hp.
  assert (p ∈ seq 0 k) as [_ ?]%elem_of_seq; [|lia].
  rewrite <- Hperm. apply list_elem_of_In, in_concat. exists g. by split; apply list_elem_of_In.
Qed.

Lemma car_combine id row groups :
  rebuilds rs ids id row -> groups <> [] -> concat groups ≡ₚ seq 0 k ->
  RSCode.carRepairFinalize (map (partial row) groups) (length groups) cs =
  Ok [chunk_bytes rs data cs id].
Proof using Hrs H0 Hd Hids Hlen.
  intros Hreb Hne Hperm. pose proof Hreb as (_ & Hrow & _).
  assert (length groups = length (map (partial row) groups)) as -> by by rewrite length_map.
  rewrite carRepairFinalize_xor.
  - do 2 f_equal. apply map_ext_in. intros b Hb%in_seq.
    rewrite <- (rebuilds_byte Hrs Hd Hids Hlen _ _ b Hreb) by lia.
    rewrite map_map, (map_ext_in _ (fun g => xorlist (map (term row b) g))).
    2:{ intros g Hg%list_elem_of_In. apply lookup_partial; eauto using group_positions. lia. }
    rewrite <- (map_map (map (term row b)) xorlist), xorlist_concat, <- concat_map.
    rewrite (xorlist_perm _ (map (term row b) (seq 0 k))) by (by rewrite Hperm).
    rewrite <- xorsum_list. apply xorsum_ext. intros l Hl. unfold term.
    by rewrite byte_at_bufs by lia.
  - by destruct groups.
  - intros buf (g & -> & Hg)%list_elem_of_fmap.
    pose proof (group_positions _ _ Hperm Hg) as Hpos.
    split; [rewrite partial_spec by done; by rewrite length_map, length_seq|].
    intros b Hb. rewrite lookup_partial by done. rewrite <- xorsum_positions.
    apply xorsum_byte. intros i Hi. apply term_byte; [done| |done].
    rewrite Forall_forall in Hpos. by apply Hpos, list_elem_of_lookup_total_2.
Qed.
End car.

Arguments partial {_} rs data cs ids row g : assert.

(** * Correctness of the code *)

(** C4: Encoding a stripe succeeds and yields [n] chunks; decoding any ascending
    choice of at least [k] of them returns exactly the first [k * chunkSize]
    bytes of the data, unless the library reports the rows of the first [k]
    chosen chunks as singular, in which case decoding fails (and never returns
    wrong data). *)
Theorem rs_encode_decode `{IsalLaws} o rs data dataSize cs mem uninit buffer memDecode ids :
  RSCode.init o = Ok rs -> data_ok rs data cs ->
  RSCode.getChunkSize rs dataSize = Z.of_nat cs ->
  (forall i, (i < RSCode.n rs)%nat -> is_Some (mem i)) ->
  ascending ids -> Forall (fun id => (id < RSCode.n rs)%nat) ids ->
  (RSCode.k rs <= length ids)%nat ->
  length uninit = (RSCode.n rs * RSCode.n rs)%nat ->
  room cs (RSCode.k rs) buffer memDecode ->
  exists stripe, RSCode.encode rs mem data dataSize = Ok stripe /\
  length stripe = RSCode.n rs /\
  RSCode.decode rs uninit buffer memDecode (map (fun i => stripe !!! i) ids) false [] =
  match gf_invert_matrix (sub_rows rs ids) (RSCode.k rs) with
  | Some _ => Ok (take (RSCode.k rs * cs) data, Z.of_nat (RSCode.k rs * cs))
  | None => Fail
  end.
Proof.
  intros Hi Hd Hsz Hmem Hasc Hids Hlen Hu Hroom. pose proof (init_ok _ _ Hi) as Hrs.
  exists (map (stripe_chunk rs data cs) (seq 0 (RSCode.n rs))).
  split; [by apply encode_stripe|]. split; [by rewrite length_map, length_seq|].
  rewrite <- (decode_data Hrs Hd Hasc Hids Hlen uninit buffer memDecode [] Hu Hroom).
  f_equal. apply map_ext_in. intros id Hid%list_elem_of_In. apply list_lookup_total_correct.
  rewrite list_lookup_fmap, lookup_seq_lt; [done|]. rewrite Forall_forall in Hids. auto.
Qed.

(** C25: Repairing from any ascending choice of at least [k] chunks of a stripe
    returns exactly the requested chunks (all missing ones when none is named),
    data or code, in the order of the request, and fails when the coding library
    finds the rows of the first [k] of the chosen chunks singular.  The repair of one
    chunk in a code that is set up for rack-aware repair, where the chunks given are
    partial results, is another one ([car_repair]). *)
Theorem rs_repair `{IsalLaws} o rs data cs uninit buffer mem ids tgts :
  RSCode.init o = Ok rs -> data_ok rs data cs ->
  ascending ids -> Forall (fun id => (id < RSCode.n rs)%nat) ids ->
  (RSCode.k rs <= length ids)%nat ->
  length uninit = (RSCode.n rs * RSCode.n rs)%nat ->
  Forall (fun t => (t < RSCode.n rs)%nat) tgts -> (length tgts <= RSCode.n rs)%nat ->
  room cs (length (repaired rs ids tgts)) buffer mem ->
  Z.of_nat (RSCode.n rs * cs) < 4294967296 ->
  RSCode.useCAR rs = false \/ length (repaired rs ids tgts) <> 1%nat ->
  RSCode.decode rs uninit buffer mem (map (stripe_chunk rs data cs) ids) true tgts =
  match gf_invert_matrix (sub_rows rs ids) (RSCode.k rs) with
  | Some _ => Ok (concat (map (chunk_bytes rs data cs) (repaired rs ids tgts)),
                  Z.of_nat (length (repaired rs ids tgts) * cs))
  | None => Fail
  end.
Proof.
  intros Hi Hd Hasc Hids Hlen Hu Ht Htn Hroom Hsz Hcar. pose proof (init_ok _ _ Hi) as Hrs.
  rewrite (repair_chunks Hrs Hd Hasc Hids Hlen) by done. by destruct (gf_invert_matrix _ _).
Qed.

(** C39: With at most [n - k] failures, when the rows of the first [k] survivors are
    not singular, the planner lists exactly the surviving
    chunks in ascending order and asks for [k] of them; the repair matrix it
    computes turns the first [k] surviving chunks of any stripe into the failed
    chunks. *)
Theorem preDecode_repairs `{IsalLaws} o rs data cs uninit uninitRepair failed p inv :
  RSCode.init o = Ok rs -> data_ok rs data cs ->
  ascending failed -> Forall (fun id => (id < RSCode.n rs)%nat) failed ->
  (length failed <= RSCode.n rs - RSCode.k rs)%nat ->
  length uninit = (RSCode.n rs * RSCode.n rs)%nat ->
  (length failed * RSCode.k rs <= length uninitRepair)%nat ->
  gf_invert_matrix (sub_rows rs (alive_ids rs failed)) (RSCode.k rs)
    = Some inv ->
  exists M, RSCode.preDecode rs uninit uninitRepair true failed p true =
    (true, DecodingPlan.mk (Some M) (filter (fun x => x ∉ failed) (seq 0 (RSCode.n rs)))
                           (RSCode.k rs)) /\
  CodingUtils_encode (map (chunk_bytes rs data cs) (alive_ids rs failed))
    (RSCode.k rs) (length failed) cs M = map (chunk_bytes rs data cs) failed.
Proof.
  intros Hi Hd Hasc Hf Hl Hu Hr Hinv. pose proof (init_ok _ _ Hi) as Hrs.
  pose proof (alive_length (rs := rs) Hasc Hf) as Hal. destruct (alive_ok (rs := rs) (failed := failed)) as [_ Ha].
  assert (RSCode.k rs <= length (alive_ids rs failed))%nat as Hka
    by (destruct (proj1 Hrs); lia).
  eexists. split; [rewrite (preDecode_result Hrs Hasc Hf) by done; by rewrite Hinv|].
  pose proof (repair_row_list_rebuilds Hrs Ha Hka Hinv failed Hf) as HR.
  assert (length (concat (repair_row_list rs inv failed)) =
    length (repair_row_list rs inv failed) * RSCode.k rs)%nat as Hcl.
  { apply length_concat_rows. apply Forall_lookup. intros i r Hlk.
    by destruct (Forall2_lookup_r _ _ _ _ _ HR Hlk) as (? & _ & ? & _). }
  apply (apply_rows Hrs Hd Ha Hka _ _ _ HR); [apply take_ge; lia|lia].
Qed.

(** C26: Rack-aware repair of one chunk: when the positions of the [k] input
    chunks are split into any number of groups, each group is combined with its
    coefficients of a row that rebuilds the chunk, and the partial results are
    handed to the decoder, the decoder returns exactly the lost chunk. *)
Theorem car_repair `{IsalLaws} o rs data cs uninit buffer mem ids id row groups input :
  RSCode.init o = Ok rs -> data_ok rs data cs -> RSCode.useCAR rs = true ->
  Forall (fun id => (id < RSCode.n rs)%nat) ids -> (RSCode.k rs <= length ids)%nat ->
  rebuilds rs ids id row -> groups <> [] -> concat groups ≡ₚ seq 0 (RSCode.k rs) ->
  (length groups <= RSCode.n rs)%nat -> room cs 1 buffer mem ->
  map Chunk.data input = map (fun g => Some (partial rs data cs ids row g)) groups ->
  Forall (fun c => Chunk.size c = Z.of_nat cs) input ->
  RSCode.decode rs uninit buffer mem input true [id] =
  Ok (chunk_bytes rs data cs id, Z.of_nat cs).
Proof.
  intros Hi Hd Hcar Hids Hlen Hreb Hne Hperm Hgn Hroom Hin Hsz.
  pose proof (init_ok _ _ Hi) as Hrs. unfold RSCode.decode.
  assert (length input = length groups) as Hli.
  { rewrite <- (length_map Chunk.data input), Hin. apply length_map. }
  assert (match input with [] => 0 | c :: _ => u32 (Chunk.size c) end = Z.of_nat cs) as ->.
  { destruct input as [|c input]; [by destruct groups|]. inversion Hsz as [|? ? Hc]; subst.
    rewrite Hc. apply u32_small. destruct Hd as (_ & ? & _). lia. }
  rewrite Hcar, Hli. rewrite andb_false_r. cbn [negb guard_ok obind andb].
  assert (forall s, RSCode.targets s = [id] -> RSCode.targets (for_loop
    (RSCode.scan_chunk rs input true (bool_decide ([id] <> []))) 0 (RSCode.n rs) s) = [id]) as Ht.
  { intros s Hs. apply (for_loop_inv (fun _ s => RSCode.targets s = [id])); [done|].
    intros i s' _ Hs'. unfold RSCode.scan_chunk. simpl. by destruct (input !! _) as [c|];
      [destruct (_ =? _)|]. }
  rewrite Ht by done. cbn [length Nat.eqb andb].
  assert (1 <=? RSCode.n rs = true)%nat as -> by (apply Nat.leb_le; destruct (proj1 Hrs); lia).
  cbn [access obind]. rewrite Nat2Z.id, room_ok by done. cbn [obind].
  assert (take (RSCode.n rs) (map (fun c => default [] (Chunk.data c)) input) =
    map (partial rs data cs ids row) groups) as ->.
  { rewrite <- (map_map Chunk.data (default [])), Hin, map_map. simpl.
    apply take_ge. by rewrite length_map. }
  rewrite (car_combine Hrs Hd Hids Hlen id row groups) by done. cbn [obind concat].
  rewrite app_nil_r, u32_small; [by rewrite Z.mul_1_l|].
  destruct Hd as (_ & ? & _). lia.
Qed.

(** The constructor accepts exactly the parameters with [0 < k <= n]; for
    those, the member arrays hold the encoding matrix if and only if
    [n * k <= CODING_MAX_N * CODING_MAX_N], which the constructor does not
    check. *)
Theorem rs_init_bounds `{IsalLaws} o :
  let n := CodingOptions.n o in
  let k := CodingOptions.k o in
  (RSCode.init o = Fail <-> ~ (0 < k <= n)) /\
  (RSCode.init o = Undef <-> 0 < k <= n /\ 128 * 128 < n * k) /\
  (0 < k <= n -> n * k <= 128 * 128 ->
   exists rs, RSCode.init o = Ok rs /\ Z.of_nat (RSCode.n rs) = n /\ Z.of_nat (RSCode.k rs) = k).
Proof.
  intros n k. unfold RSCode.init. fold n k.
  assert ((n <=? 0) || (k <=? 0) || (n <? k) = negb (bool_decide (0 < k <= n))) as ->.
  { destruct (bool_decide_reflect (0 < k <= n)); simpl; bdestr; lia. }
  destruct (bool_decide_reflect (0 < k <= n)) as [Hk|Hk]; cbn [negb];
    [|split_and!; try (split; [done|tauto]); tauto].
  unfold RSCode.write_member. rewrite length_gen_matrix by lia.
  assert ((Z.to_nat n * Z.to_nat k <=? CODING_MAX_N * CODING_MAX_N)%nat
    = (n * k <=? 128 * 128)) as ->.
  { unfold CODING_MAX_N. bdestr; nia. }
  destruct (Z.leb_spec (n * k) (128 * 128)); cbn [access obind];
    (split_and!; [split; [done|tauto]|split; [done|lia] || (split; [by split|done])|]); [|lia].
  intros _ _. eexists. split; [done|]. cbn [RSCode.n RSCode.k]. lia.
Qed.

(** * A concrete stripe *)

#[local] Existing Instances Gf256.isal Gf256.isal_laws.

Definition sample_options (car : bool) : CodingOptions.t := CodingOptions.mk 4 2 car.

Definition sample_code (car : bool) : RSCode.t :=
  RSCode.mk 4 2 car (gf_gen_rs_matrix 4 2) (ec_init_tables 2 2 (drop 4 (gf_gen_rs_matrix 4 2))).

Lemma sample_init car : RSCode.init (sample_options car) = Ok (sample_code car).
Proof.
  unfold RSCode.init. simpl CodingOptions.n. simpl CodingOptions.k. cbn [Z.leb Z.ltb orb Z.compare].
  unfold RSCode.write_member. rewrite length_gen_matrix by (cbn; lia).
  assert ((Z.to_nat 4 * Z.to_nat 2 <=? CODING_MAX_N * CODING_MAX_N)%nat = true) as ->;
    reflexivity.
Qed.

Definition sample_data : list Z := [7; 13; 200; 255; 0; 91].

Lemma sample_data_ok car : data_ok (sample_code car) sample_data 3.
Proof.
  split_and!; [simpl; lia|simpl; lia|simpl; lia|simpl; lia|].
  intros p Hp. simpl in Hp. unfold byte. do 6 (destruct p as [|p]; [compute; by split|]). lia.
Qed.

Lemma sample_ascending x y : (x < y)%nat -> ascending [x; y].
Proof. intros. repeat constructor. done. Qed.

Lemma rs_encode_decode_witness :
  exists stripe, RSCode.encode (sample_code false) (fun _ => Some []) sample_data 6 = Ok stripe /\
  length stripe = 4%nat /\
  RSCode.decode (sample_code false) (replicate 16 0) None true
    (map (fun i => stripe !!! i) [1; 3]%nat) false [] = Ok (sample_data, 6).
Proof.
  destruct (rs_encode_decode (sample_options false) (sample_code false) sample_data 6 3
    (fun _ => Some []) (replicate 16 0) None true [1; 3]%nat) as (stripe & He & Hl & Hdec).
  - apply sample_init.
  - apply sample_data_ok.
  - reflexivity.
  - intros i _. by eexists.
  - apply sample_ascending. lia.
  - repeat constructor; simpl; lia.
  - simpl. lia.
  - reflexivity.
  - reflexivity.
  - exists stripe. split; [exact He|]. split; [exact Hl|]. rewrite Hdec. vm_compute. reflexivity.
Defined.

Lemma rs_repair_witness :
  RSCode.decode (sample_code false) (replicate 16 0) None true
    (map (stripe_chunk (sample_code false) sample_data 3) [1; 3]%nat) true [] =
  Ok (chunk_bytes (sample_code false) sample_data 3 0 ++
      chunk_bytes (sample_code false) sample_data 3 2, 6).
Proof.
  rewrite (rs_repair (sample_options false) (sample_code false) sample_data 3
    (replicate 16 0) None true [1; 3]%nat []).
  - vm_compute. reflexivity.
  - apply sample_init.
  - apply sample_data_ok.
  - apply sample_ascending. lia.
  - repeat constructor; simpl; lia.
  - simpl. lia.
  - reflexivity.
  - constructor.
  - simpl. lia.
  - reflexivity.
  - simpl. lia.
  - by left.
Defined.

Lemma preDecode_repairs_witness :
  exists M, RSCode.preDecode (sample_code false) (replicate 16 0) (replicate 16 0) true [0; 2]%nat
    (DecodingPlan.init 0) true = (true, DecodingPlan.mk (Some M) [1; 3]%nat 2) /\
  CodingUtils_encode (map (chunk_bytes (sample_code false) sample_data 3) [1; 3]%nat) 2 2 3 M =
  map (chunk_bytes (sample_code false) sample_data 3) [0; 2]%nat.
Proof.
  apply (preDecode_repairs (sample_options false) (sample_code false) sample_data 3
    (replicate 16 0) (replicate 16 0) [0; 2]%nat (DecodingPlan.init 0)
    (default [] (gf_invert_matrix (sub_rows (sample_code false) [1; 3]%nat) 2))).
  - apply sample_init.
  - apply sample_data_ok.
  - apply sample_ascending. lia.
  - repeat constructor; simpl; lia.
  - simpl. lia.
  - reflexivity.
  - simpl. lia.
  - vm_compute. reflexivity.
Defined.

(** Chunk 0 from chunks 1 and 2, one in each rack. *)
Definition sample_row : list Z :=
  RSCode.code_row (sample_code true)
    (default [] (gf_invert_matrix (sub_rows (sample_code true) [1; 2]%nat) 2)) 0.

Definition sample_partial (p : nat) : Chunk.t :=
  Chunk.set_buffer Chunk.reset (Some (partial (sample_code true) sample_data 3 [1; 2]%nat
    sample_row [p])) 3 true.

Lemma sample_row_rebuilds : rebuilds (sample_code true) [1; 2]%nat 0 sample_row.
Proof.
  assert (rs_ok (sample_code true)) as Hrs
    by apply (init_ok (sample_options true)), sample_init.
  apply code_row_rebuilds; [done|repeat constructor; simpl; lia|simpl; lia| |simpl; lia].
  vm_compute. reflexivity.
Qed.

Lemma car_repair_witness :
  RSCode.decode (sample_code true) [] None true [sample_partial 0; sample_partial 1] true [0%nat] =
  Ok (chunk_bytes (sample_code true) sample_data 3 0, 3).
Proof.
  apply (car_repair (sample_options true) (sample_code true) sample_data 3 [] None true
    [1; 2]%nat 0 sample_row [[0%nat]; [1%nat]]).
  - apply sample_init.
  - apply sample_data_ok.
  - reflexivity.
  - repeat constructor; simpl; lia.
  - simpl. lia.
  - apply sample_row_rebuilds.
  - done.
  - reflexivity.
  - simpl. lia.
  - reflexivity.
  - reflexivity.
  - repeat constructor.
Defined.
