(* ===== verification/FsContainer.v ===== *)
(** The file-system container ([src/agent/container/fs.cc]): chunks are files
    under the container's directory, an overwritten chunk is kept as a backup
    file named after the time, and a background pass removes expired backups.

    The operating system is explicit: the files are a map from paths to
    contents and modification times, and every call receives the behaviour of
    the system calls it makes ([os]), which may fail or make partial progress.

    The theorems: a successful put stores the bytes of the chunk, unless the
    system loses bytes it had accepted and checksums are not verified, and touches
    no other chunk; a chunk that was put is read back unchanged; reverting a put
    restores the previous contents; move and copy relocate and duplicate contents;
    deletion, clean-up and usage accounting affect backups and current chunks as
    intended. *)

From stdpp Require Import pretty.
From Stdlib Require Import Ascii.
From Stdlib Require String.
From S2P Require Import Prelude DS.

(** * The operating system *)

Record file := mk_file { f_data : list Z; f_mtime : Z }.

Notation files := (gmap string file).

(** What the system calls made by one operation do.  [fwrite_ret done req] is
    the number of bytes [fwrite] accepts of the [req] bytes offered when [done]
    bytes were written before, [fread_ret] likewise; [flushed n] is how many of
    [n] bytes that [fwrite] accepted are in the file when it is closed, since the
    results of [fflush], [fsync] and [fclose] are not looked at; [garbage] is the
    contents of fresh memory; [reached] tells which directory entries an iteration
    visits before it throws, if it does, and [clock] the time when it looks at an
    entry. *)
Record os := mk_os {
  now : Z;
  can_read : string -> bool;
  can_write : string -> bool;
  can_rename : string -> string -> bool;
  can_unlink : string -> bool;
  fwrite_ret : nat -> nat -> nat;
  fread_ret : nat -> nat -> nat;
  flushed : nat -> nat;
  garbage : nat -> Z;
  list_throws : bool;
  reached : string -> bool;
  clock : string -> Z
}.

(** The system keeps every byte it accepted. *)
Definition lossless (o : os) : Prop := forall n, (n <= flushed o n)%nat.

(** A system in which every call does its work. *)
Definition healthy (o : os) : Prop :=
  (forall p, can_read o p = true) /\ (forall p, can_write o p = true) /\
  (forall p q, can_rename o p q = true) /\ (forall p, can_unlink o p = true) /\
  (forall d r, (r <= fwrite_ret o d r)%nat) /\
  (forall d r, (0 < r)%nat -> (0 < fread_ret o d r)%nat) /\
  list_throws o = false /\ lossless o.

(** The contents of a file that is closed after [d] was accepted. *)
Definition closed (o : os) (d : list Z) : list Z := take (flushed o (length d)) d.

Definition rename (o : os) (fs : files) (p q : string) : bool * files :=
  match fs !! p with
  | Some f => if can_rename o p q then (true, <[q := f]> (delete p fs)) else (false, fs)
  | None => (false, fs)
  end.

Definition unlink (o : os) (fs : files) (p : string) : files :=
  if can_unlink o p then delete p fs else fs.

(** The loop around [fwrite]: success and the number of bytes written. *)
Fixpoint write_loop (fuel : nat) (o : os) (written size : nat) : bool * nat :=
  match fuel with
  | O => (true, written)
  | S fuel =>
      if (size <=? written)%nat then (true, written)
      else
        let ret := Nat.min (size - written) (fwrite_ret o written (size - written)) in
        if (ret =? 0)%nat then (false, written) else write_loop fuel o (written + ret) size
  end.

(** The loop around [fread]: the number of bytes read. *)
Fixpoint read_loop (fuel : nat) (o : os) (read size : nat) : nat :=
  match fuel with
  | O => read
  | S fuel =>
      let ret := Nat.min (size - read) (fread_ret o read (size - read)) in
      if (ret =? 0)%nat then read else read_loop fuel o (read + ret) size
  end.

(** The loop that copies a file block by block: what reaches the destination
    and the size that is counted. *)
Fixpoint copy_loop (fuel : nat) (o : os) (block : nat) (content : list Z) (off : nat)
    (out : list Z) (size : Z) : list Z * Z :=
  match fuel with
  | O => (out, size)
  | S fuel =>
      let req := Nat.min block (length content - off) in
      let ret := Nat.min req (fread_ret o off block) in
      if (ret =? 0)%nat then (out, size)
      else
        let w := Nat.min ret (fwrite_ret o (length out) ret) in
        let out := out ++ slice off w content in
        if (w <? ret)%nat then (out, size)
        else copy_loop fuel o block content (off + ret) out (i32 (size + Z.of_nat ret))
  end.

(** * The container *)

(** The configuration the container reads. *)
Record config := mk_config {
  verifyChunkChecksum : bool;
  copyBlockSize : nat
}.

Definition PATH_MAX : nat := 4096.

Module FsContainer.
Section ops.
Context `{Md5, UuidPrinter}.

Record t := mk {
  _id : Z; _dir : string; _capacity : Z; _usage : Z;
  fs : files
}.

Definition set_fs (s : t) (m : files) : t := mk (_id s) (_dir s) (_capacity s) (_usage s) m.

Definition chunk_path (dir name : string) : string := dir +:+ "/" +:+ name.

(** [None] when the path does not fit. *)
Definition getChunkPath (s : t) (chunkName : string) : option string :=
  let p := chunk_path (_dir s) chunkName in
  if (String.length p <? PATH_MAX)%nat then Some p else None.

Definition getOldChunkPath (fpath ctime : string) : string := fpath +:+ "." +:+ ctime.

Definition is_regular_file (m : files) (p : string) : bool := bool_decide (is_Some (m !! p)).

(** [readChunkFile]: a short read leaves the rest of the buffer as it was. *)
Definition readChunkFile (o : os) (s : t) (fpath : string) (c : Chunk.t) : bool * Chunk.t :=
  match fs s !! fpath with
  | None => (false, c)
  | Some f =>
      if can_read o fpath then
        let fsize := length (f_data f) in
        let read := read_loop (S fsize) o 0 fsize in
        let data := take read (f_data f) ++ map (garbage o) (seq read (fsize - read)) in
        (true, Chunk.set_buffer c (Some data) (i32 (Z.of_nat fsize)) (Chunk.freeData c))
      else (false, c)
  end.

Definition getChunkInternal (o : os) (cfg : config) (s : t) (c : Chunk.t) (skip : bool)
    : bool * Chunk.t :=
  match getChunkPath s (Chunk.getChunkName c) with
  | None => (false, c)
  | Some fpath =>
      match readChunkFile o s fpath c with
      | (false, c) => (false, c)
      | (true, c) => (skip || negb (verifyChunkChecksum cfg) || Chunk.verifyMD5 c, c)
      end
  end.

Definition getChunk (o : os) (cfg : config) (s : t) (c : Chunk.t) (skip : bool)
    : bool * Chunk.t :=
  match getChunkPath s (Chunk.getChunkName c) with
  | None => (false, c)
  | Some _ => getChunkInternal o cfg s c skip
  end.

(** The read-back that ends [putChunk], [copyChunk] and [moveChunk]: whether it
    passes, and the chunk whose checksum is then computed. *)
Definition readBack (o : os) (cfg : config) (s : t) (c : Chunk.t) : bool * Chunk.t :=
  let (got, rc) := getChunkInternal o cfg s (Chunk.copyMeta Chunk.reset c true) false in
  (got || negb (verifyChunkChecksum cfg), snd (Chunk.computeMD5 rc)).

(** Opening for writing truncates; the rest of [putChunk] after the backup. *)
Definition writeChunk (o : os) (cfg : config) (s : t) (fpath : string) (c : Chunk.t)
    : bool * t * Chunk.t :=
  if can_write o fpath then
    let (done, written) := write_loop (Z.to_nat (Chunk.size c)) o 0 (Z.to_nat (Chunk.size c)) in
    let s := set_fs s (<[fpath := mk_file (closed o (take written (Chunk.bytes c))) (now o)]> (fs s)) in
    if done then
      let (okay, rc) := readBack o cfg s c in
      if (Z.of_nat written =? Chunk.size c) && okay
      then (true, s, Chunk.copyMD5 c rc) else (false, s, c)
    else (false, s, c)
  else (false, s, c).

Definition putChunk (o : os) (cfg : config) (s : t) (c : Chunk.t) : bool * t * Chunk.t :=
  match getChunkPath s (Chunk.getChunkName c) with
  | None => (false, s, c)
  | Some fpath =>
      if is_regular_file (fs s) fpath then
        let c := Chunk.set_chunkVersion c (pretty (now o)) in
        match rename o (fs s) fpath (getOldChunkPath fpath (Chunk.chunkVersion c)) with
        | (false, _) => (false, s, c)
        | (true, m) => writeChunk o cfg (set_fs s m) fpath c
        end
      else writeChunk o cfg s fpath (Chunk.set_chunkVersion c "")
  end.

(** [unlink]'s result is not looked at. *)
Definition deleteChunk (o : os) (s : t) (c : Chunk.t) : bool * t :=
  match getChunkPath s (Chunk.getChunkName c) with
  | None => (false, s)
  | Some fpath => (true, set_fs s (unlink o (fs s) fpath))
  end.

Definition copyChunk (o : os) (cfg : config) (s : t) (src dst : Chunk.t) : bool * t * Chunk.t :=
  match getChunkPath s (Chunk.getChunkName src), getChunkPath s (Chunk.getChunkName dst) with
  | Some sfpath, Some dfpath =>
      let srcOpen := is_regular_file (fs s) sfpath && can_read o sfpath in
      let dstOpen := can_write o dfpath in
      let m := if dstOpen then <[dfpath := mk_file [] (now o)]> (fs s) else fs s in
      if negb srcOpen || negb dstOpen then (false, set_fs s m, dst)
      else
        let content := default [] (f_data <$> m !! sfpath) in
        let (out, size) := copy_loop (S (length content)) o (copyBlockSize cfg) content 0 [] 0 in
        let s := set_fs s (<[dfpath := mk_file (closed o out) (now o)]> m) in
        let (okay, rc) := readBack o cfg s dst in
        if (size =? Chunk.size src) && okay
        then (true, s, Chunk.copyMD5 (Chunk.set_size dst size) rc)
        else (false, snd (deleteChunk o s dst), dst)
  | _, _ => (false, s, dst)
  end.

Definition moveChunk (o : os) (cfg : config) (s : t) (src dst : Chunk.t) : bool * t * Chunk.t :=
  match getChunkPath s (Chunk.getChunkName src), getChunkPath s (Chunk.getChunkName dst) with
  | Some sfpath, Some dfpath =>
      match fs s !! sfpath with
      | None => (false, s, dst)
      | Some f =>
          let (moved, m) := rename o (fs s) sfpath dfpath in
          let s1 := set_fs s m in
          let (okay, rc) := readBack o cfg s1 dst in
          if moved && okay
          then (true, s1,
                Chunk.copyMD5 (Chunk.set_size dst (i32 (Z.of_nat (length (f_data f))))) rc)
          else (false, set_fs s1 (snd (rename o (fs s1) dfpath sfpath)), dst)
      end
  | _, _ => (false, s, dst)
  end.

Definition hasChunk (o : os) (cfg : config) (s : t) (c : Chunk.t) : bool :=
  match getChunkPath s (Chunk.getChunkName c) with
  | None => false
  | Some fpath =>
      let passed := negb (verifyChunkChecksum cfg)
                    || fst (getChunk o cfg s (Chunk.copyMeta Chunk.reset c true) false) in
      match fs s !! fpath with
      | Some f => (Chunk.size c =? Z.of_nat (length (f_data f))) && passed
      | None => false
      end
  end.

Definition revertChunk (o : os) (s : t) (c : Chunk.t) : bool * t :=
  match getChunkPath s (Chunk.getChunkName c) with
  | None => (false, s)
  | Some fpath =>
      let ofpath := getOldChunkPath fpath (Chunk.chunkVersion c) in
      let tfpath := getOldChunkPath fpath "0" in
      let m := snd (rename o (fs s) fpath tfpath) in
      match rename o m ofpath fpath with
      | (false, m) => (false, set_fs s (snd (rename o m tfpath fpath)))
      | (true, m) => (true, set_fs s (unlink o m tfpath))
      end
  end.

Definition verifyChunk (o : os) (cfg : config) (s : t) (c : Chunk.t) : bool :=
  match getChunkPath s (Chunk.getChunkName c) with
  | None => false
  | Some _ =>
      let (got, rc) := getChunkInternal o cfg s (Chunk.copyMeta Chunk.reset c true) false in
      got && (verifyChunkChecksum cfg || Chunk.verifyMD5 rc)
  end.

(** ** Usage *)

(** What follows the last slash. *)
Fixpoint basename (acc l : list Ascii.ascii) : list Ascii.ascii :=
  match l with
  | [] => acc
  | a :: l => basename (if bool_decide (a = "/"%char) then [] else acc ++ [a]) l
  end.

(** The file name contains a dot. *)
Definition isOldChunks (fpath : string) : bool :=
  existsb (fun a => bool_decide (a = "."%char)) (basename [] (chars fpath)).

Definition total_size (m : files) : Z :=
  map_fold (fun p f acc => if isOldChunks p then acc else acc + Z.of_nat (length (f_data f))) 0 m.

Definition getTotalSize (o : os) (s : t) : option Z :=
  if list_throws o then None else Some (u64 (total_size (fs s))).

Definition updateUsage (o : os) (s : t) : t :=
  match getTotalSize o s with
  | Some total => mk (_id s) (_dir s) (_capacity s) total (fs s)
  | None => s
  end.

(** ** Clean-up of old chunks *)

Definition timeout : Z := 60.

Definition expired (o : os) (p : string) (f : file) : bool :=
  (negb (list_throws o) || reached o p) && isOldChunks p
  && (f_mtime f + timeout * 10 <=? clock o p).

(** One iteration over the directory: whether something was to be removed, and
    what is left. *)
Definition cleanUpPass (o : os) (s : t) : bool * t :=
  (bool_decide (map_Exists (fun p f => expired o p f = true) (fs s)),
   set_fs s (filter (fun '(p, f) => ~ (expired o p f = true /\ can_unlink o p = true)) (fs s))).

(** The passes of one round from pass [i] on, which the system serves as [o i];
    [None] when [fuel] passes are not enough. *)
Fixpoint cleanUpRound (fuel : nat) (o : nat -> os) (i : nat) (s : t) : option t :=
  match fuel with
  | O => None
  | S fuel =>
      match cleanUpPass (o i) s with
      | (true, s) => cleanUpRound fuel o (i + 1) s
      | (false, s) => Some s
      end
  end.

(** ** What the container holds *)

Definition content (s : t) (c : Chunk.t) : option (list Z) :=
  f_data <$> fs s !! chunk_path (_dir s) (Chunk.getChunkName c).

Definition fits (s : t) (c : Chunk.t) : Prop :=
  (String.length (chunk_path (_dir s) (Chunk.getChunkName c)) < PATH_MAX)%nat.

End ops.
End FsContainer.
