(* ===== verification/FsTheorems.v ===== *)
(** Correctness of the file-system container: the loops, the paths, the effect
    of each operation on the chunks the container holds, and the theorems on
    put, get, revert, copy, move, clean-up and usage. *)

From stdpp Require Import pretty.
From Stdlib Require Import Ascii.
From Stdlib Require String.
From S2P Require Import Prelude DS FsContainer.
Import FsContainer.

(** * The loops *)

Section loops.
Context (o : os).

Lemma write_loop_spec fuel w size : (w <= size)%nat -> (size - w <= fuel)%nat ->
  exists r, (w <= r <= size)%nat /\
    (write_loop fuel o w size = (true, size) /\ r = size \/
     write_loop fuel o w size = (false, r) /\ (r < size)%nat).
Proof.
  revert w. induction fuel as [|fuel IH]; intros w Hw Hf; simpl.
  { exists size. split; [lia|]. left. split; [f_equal; lia|done]. }
  destruct (Nat.leb_spec size w).
  { exists size. split; [lia|]. left. split; [f_equal; lia|done]. }
  destruct (Nat.eqb_spec (Nat.min (size - w) (fwrite_ret o w (size - w))) 0).
  { exists w. split; [lia|]. right. split; [done|lia]. }
  destruct (IH (w + Nat.min (size - w) (fwrite_ret o w (size - w)))%nat) as (r & Hr & Hcase);
    [lia|lia|]. exists r. split; [lia|done].
Qed.

Lemma write_loop_all size : (forall d r, (r <= fwrite_ret o d r)%nat) -> write_loop size o 0 size = (true, size).
Proof.
  intros Hw. destruct size as [|size]; [done|]. cbn [write_loop].
  specialize (Hw 0%nat (S size - 0)%nat). rewrite Nat.min_l by lia.
  replace (0 + (S size - 0))%nat with (S size) by lia.
  rewrite (proj2 (Nat.leb_gt _ _)), (proj2 (Nat.eqb_neq _ _)) by lia.
  destruct size; [done|]. cbn [write_loop]. by rewrite Nat.leb_refl.
Qed.

Lemma write_loop_healthy size : healthy o -> write_loop size o 0 size = (true, size).
Proof. intros Ho. apply write_loop_all, Ho. Qed.

Lemma read_loop_all fuel r size : (forall d r, (0 < r)%nat -> (0 < fread_ret o d r)%nat) ->
  (r <= size)%nat -> (size - r < fuel)%nat -> read_loop fuel o r size = size.
Proof.
  intros Hf. revert r. induction fuel as [|fuel IH]; intros r Hr Hl; [lia|]. simpl.
  destruct (Nat.eqb_spec (Nat.min (size - r) (fread_ret o r (size - r))) 0) as [H0|H0].
  - destruct (decide (r = size)); [done|]. specialize (Hf r (size - r)%nat). lia.
  - apply IH; lia.
Qed.

Lemma read_loop_healthy fuel r size : healthy o ->
  (r <= size)%nat -> (size - r < fuel)%nat -> read_loop fuel o r size = size.
Proof. intros Ho. apply read_loop_all, Ho. Qed.

Lemma copy_loop_healthy fuel block content off out :
  healthy o -> (0 < block)%nat -> (off <= length content)%nat -> (length content - off < fuel)%nat ->
  out = take off content -> Z.of_nat (length content) < 2147483648 ->
  copy_loop fuel o block content off out (Z.of_nat off) = (content, Z.of_nat (length content)).
Proof.
  intros (_ & _ & _ & _ & Hw & Hr & _) Hb. revert off out.
  induction fuel as [|fuel IH]; intros off out Hoff Hf -> Hlen; [lia|]. simpl.
  set (ret := Nat.min _ (fread_ret o off block)). pose proof (Hr off block Hb).
  destruct (Nat.eqb_spec ret 0) as [H0|H0].
  { assert (off = length content) as -> by lia. by rewrite firstn_all. }
  specialize (Hw (length (take off content)) ret). rewrite Nat.min_l by lia.
  rewrite Nat.ltb_irrefl. rewrite i32_small by lia. rewrite <- Nat2Z.inj_add.
  apply IH; [lia|lia| |done]. change (take off content) with (slice 0 off content).
  rewrite <- slice_split. unfold slice. by rewrite drop_0.
Qed.
End loops.

(** * Renaming *)

Lemma rename_true o m p q m' : rename o m p q = (true, m') ->
  exists f, m !! p = Some f /\ m' = <[q := f]> (delete p m).
Proof. unfold rename. intros. repeat case_match; simplify_eq. eauto. Qed.

Lemma rename_false o m p q m' : rename o m p q = (false, m') -> m' = m.
Proof. unfold rename. intros. by repeat case_match; simplify_eq. Qed.

Lemma rename_healthy o m p q f : healthy o -> m !! p = Some f ->
  rename o m p q = (true, <[q := f]> (delete p m)).
Proof. intros (_ & _ & Hr & _) Hp. unfold rename. by rewrite Hp, Hr. Qed.

Lemma rename_missing o m p q : m !! p = None -> rename o m p q = (false, m).
Proof. intros Hp. unfold rename. by rewrite Hp. Qed.

(** * Paths *)

Section paths.
Context `{UuidPrinterLaws}.

Lemma name_dot c : free_of "."%char (Chunk.getChunkName c).
Proof. by apply getChunkName_free_of. Qed.

Lemma append_assoc (s t u : string) : (s +:+ t) +:+ u = s +:+ t +:+ u.
Proof. apply chars_inj. rewrite !chars_app. by rewrite app_assoc. Qed.

Lemma append_inj_l (s t u : string) : s +:+ t = s +:+ u -> t = u.
Proof.
  intros E%(f_equal chars). rewrite !chars_app in E. by apply app_inv_head, chars_inj in E.
Qed.

Lemma chunk_path_inj dir n1 n2 : chunk_path dir n1 = chunk_path dir n2 -> n1 = n2.
Proof. unfold chunk_path. intros E%append_inj_l%append_inj_l. done. Qed.

Lemma chunk_path_ne dir n1 n2 : n1 <> n2 -> chunk_path dir n1 <> chunk_path dir n2.
Proof. intros Hne E. by apply Hne, (chunk_path_inj dir). Qed.

Lemma old_path_suffix dir n m v :
  n = m +:+ "." +:+ v <-> chunk_path dir n = getOldChunkPath (chunk_path dir m) v.
Proof.
  unfold chunk_path, getOldChunkPath. rewrite !append_assoc. split; [by intros ->|].
  by intros E%append_inj_l%append_inj_l.
Qed.

(** A current chunk is never stored under the name of a backup. *)
Lemma old_path_ne dir c n v :
  chunk_path dir (Chunk.getChunkName c) <> getOldChunkPath (chunk_path dir n) v.
Proof.
  intros E%old_path_suffix. pose proof (name_dot c) as Hd. unfold free_of in Hd.
  rewrite E, !chars_app in Hd. apply Forall_app in Hd as [_ Hd].
  apply Forall_app in Hd as [Hd _]. by inversion Hd.
Qed.

Lemma old_path_inj dir c1 c2 v1 v2 :
  getOldChunkPath (chunk_path dir (Chunk.getChunkName c1)) v1 =
  getOldChunkPath (chunk_path dir (Chunk.getChunkName c2)) v2 ->
  Chunk.getChunkName c1 = Chunk.getChunkName c2 /\ v1 = v2.
Proof.
  unfold chunk_path, getOldChunkPath. rewrite !append_assoc.
  intros E%append_inj_l%append_inj_l. apply (f_equal chars) in E. rewrite !chars_app in E.
  apply sep_split in E as [E1%chars_inj E2%chars_inj]; [done|apply name_dot..].
Qed.

(** What an update of one file does to the chunks. *)

Notation path s c := (chunk_path (_dir s) (Chunk.getChunkName c)).

Lemma content_insert s m c f :
  content (set_fs s (<[path s c := f]> m)) c = Some (f_data f).
Proof. unfold content, set_fs. cbn [fs _dir]. by rewrite lookup_insert_eq. Qed.

Lemma content_insert_other s m c d f : Chunk.getChunkName d <> Chunk.getChunkName c ->
  content (set_fs s (<[path s c := f]> m)) d = content (set_fs s m) d.
Proof.
  intros Hne. unfold content, set_fs. cbn [fs _dir]. rewrite lookup_insert_ne; [done|].
  intros E. by apply Hne, (chunk_path_inj (_dir s)).
Qed.

Lemma content_insert_old s m n v d f :
  content (set_fs s (<[getOldChunkPath (chunk_path (_dir s) n) v := f]> m)) d
  = content (set_fs s m) d.
Proof.
  unfold content, set_fs. cbn [fs _dir]. rewrite lookup_insert_ne; [done|].
  intros E. symmetry in E. by apply old_path_ne in E.
Qed.

Lemma content_delete s m c : content (set_fs s (delete (path s c) m)) c = None.
Proof. unfold content, set_fs. cbn [fs _dir]. by rewrite lookup_delete_eq. Qed.

Lemma content_delete_other s m c d : Chunk.getChunkName d <> Chunk.getChunkName c ->
  content (set_fs s (delete (path s c) m)) d = content (set_fs s m) d.
Proof.
  intros Hne. unfold content, set_fs. cbn [fs _dir]. rewrite lookup_delete_ne; [done|].
  intros E. by apply Hne, (chunk_path_inj (_dir s)).
Qed.

Lemma content_delete_old s m n v d :
  content (set_fs s (delete (getOldChunkPath (chunk_path (_dir s) n) v) m)) d
  = content (set_fs s m) d.
Proof.
  unfold content, set_fs. cbn [fs _dir]. rewrite lookup_delete_ne; [done|].
  intros E. symmetry in E. by apply old_path_ne in E.
Qed.

Lemma content_set_fs s : forall c, content (set_fs s (fs s)) c = content s c.
Proof. by destruct s. Qed.

Lemma content_same_name s c d : Chunk.getChunkName c = Chunk.getChunkName d ->
  content s c = content s d.
Proof. unfold content. by intros ->. Qed.
End paths.

#[export] Hint Rewrite @content_insert @content_insert_old @content_delete @content_delete_old
  @content_set_fs : fs.
#[export] Hint Rewrite @content_insert_other @content_delete_other using congruence : fs.

(** * Operations *)

Section ops.
Context `{Md5, UuidPrinterLaws}.
Implicit Types (s : t) (c d : Chunk.t) (o : os).
Notation path s c := (chunk_path (_dir s) (Chunk.getChunkName c)).
Notation name := Chunk.getChunkName.

Lemma getChunkPath_inv s n p : getChunkPath s n = Some p -> p = chunk_path (_dir s) n.
Proof. unfold getChunkPath. intros. by case_match; simplify_eq. Qed.

Lemma getChunkPath_fits s c : fits s c -> getChunkPath s (name c) = Some (path s c).
Proof. unfold fits, getChunkPath. intros Hf%Nat.ltb_lt. by rewrite Hf. Qed.

Lemma fits_name s c d : name c = name d -> fits s d -> fits s c.
Proof. unfold fits. by intros ->. Qed.

Lemma take_bytes c : take (Z.to_nat (Chunk.size c)) (Chunk.bytes c) = Chunk.bytes c.
Proof. unfold Chunk.bytes. rewrite take_take. f_equal. lia. Qed.

(** ** Reading *)

Lemma getChunkInternal_healthy o cfg s c b skip :
  healthy o -> fits s c -> content s c = Some b -> Z.of_nat (length b) < 2147483648 ->
  getChunkInternal o cfg s c skip =
  (skip || negb (verifyChunkChecksum cfg) || bool_decide (Chunk.md5 c = MD5 b),
   Chunk.set_buffer c (Some b) (Z.of_nat (length b)) (Chunk.freeData c)).
Proof using.
  intros Ho Hf Hc Hl. unfold getChunkInternal. rewrite getChunkPath_fits by done.
  unfold content in Hc. apply fmap_Some in Hc as (f & Hp & ->).
  unfold readChunkFile. rewrite Hp. rewrite (proj1 Ho).
  rewrite read_loop_healthy by (done || lia). rewrite take_ge, Nat.sub_diag by done. simpl.
  rewrite app_nil_r, i32_small by lia. unfold Chunk.verifyMD5, Chunk.bytes. simpl.
  by rewrite Nat2Z.id, take_ge.
Qed.

Lemma getChunk_healthy o cfg s c b skip :
  healthy o -> fits s c -> content s c = Some b -> Z.of_nat (length b) < 2147483648 ->
  getChunk o cfg s c skip =
  (skip || negb (verifyChunkChecksum cfg) || bool_decide (Chunk.md5 c = MD5 b),
   Chunk.set_buffer c (Some b) (Z.of_nat (length b)) (Chunk.freeData c)).
Proof using.
  intros. unfold getChunk. rewrite getChunkPath_fits by done. by apply getChunkInternal_healthy.
Qed.

(** The checksum a write leaves in the chunk. *)
Definition stored_md5 c (b : list Z) : list Z :=
  match b with [] => Chunk.md5 c | _ => MD5 b end.

Lemma readBack_healthy o cfg s c b :
  healthy o -> fits s c -> content s c = Some b -> Z.of_nat (length b) < 2147483648 ->
  exists rc, readBack o cfg s c =
    (bool_decide (Chunk.md5 c = MD5 b) || negb (verifyChunkChecksum cfg), rc) /\
    Chunk.md5 rc = stored_md5 c b.
Proof using.
  intros Ho Hf Hc Hl. unfold readBack.
  rewrite (getChunkInternal_healthy o cfg s _ b) by done. simpl.
  eexists. split; [f_equal|].
  - destruct (verifyChunkChecksum cfg); simpl; [done|]. by rewrite orb_true_r.
  - unfold Chunk.computeMD5. simpl. destruct b as [|x b]; [done|].
    destruct (Z.leb_spec (Z.of_nat (length (x :: b))) 0); [simpl in *; lia|]. simpl.
    unfold Chunk.bytes. cbn [Chunk.size Chunk.data Chunk.set_buffer default].
    by rewrite Nat2Z.id, take_ge.
Qed.

Lemma readBack_version o cfg s c ver : fst (readBack o cfg s (Chunk.set_chunkVersion c ver)) = fst (readBack o cfg s c).
Proof using.
  unfold readBack, getChunkInternal, readChunkFile.
  change (name (Chunk.copyMeta Chunk.reset (Chunk.set_chunkVersion c ver) true)) with (name (Chunk.copyMeta Chunk.reset c true)).
  destruct (getChunkPath _ _) as [p|]; [|done]. destruct (fs s !! p) as [f|]; [|done]. by destruct (can_read o p).
Qed.

(** ** Writing *)

Lemma writeChunk_inv o cfg s c r s' c' :
  writeChunk o cfg s (path s c) c = (r, s', c') -> 0 <= Chunk.size c ->
  same_chunk c c' /\ Chunk.chunkVersion c' = Chunk.chunkVersion c /\
  (s' = s /\ r = false \/
   exists w, s' = set_fs s (<[path s c := mk_file (closed o (take w (Chunk.bytes c))) (now o)]> (fs s)) /\
             (r = true -> w = Z.to_nat (Chunk.size c) /\ fst (readBack o cfg s' c) = true)).
Proof using.
  intros Hw Hsz. unfold writeChunk in Hw.
  destruct (can_write o (path s c)); [|simplify_eq; split_and!; eauto; by split_and!].
  destruct (write_loop_spec o (Z.to_nat (Chunk.size c)) 0 (Z.to_nat (Chunk.size c)))
    as (w & Hle & [[E ->]|[E Hlt]]); [lia|lia| |]; rewrite E in Hw.
  - destruct (readBack _ _ _ _) as [okay rc] eqn:Hrb. rewrite Z2Nat.id, Z.eqb_refl in Hw by done.
    destruct okay; simplify_eq/=; (split; [done|split; [done|right]]); eexists; (split; [done|]).
    + intros _. by rewrite Hrb.
    + done.
  - simplify_eq. split; [done|split; [done|right]]. exists w. by split.
Qed.

(** The state [putChunk] writes in: the old file, if any, is set aside. *)
Definition backed_up (o : os) s c : t :=
  match fs s !! path s c with
  | Some f => set_fs s (<[getOldChunkPath (path s c) (pretty (now o)) := f]>
                          (delete (path s c) (fs s)))
  | None => s
  end.

Lemma backed_up_dir o s c : _dir (backed_up o s c) = _dir s.
Proof using. unfold backed_up. by case_match. Qed.

Lemma backed_up_other o s c d : name d <> name c ->
  content (backed_up o s c) d = content s d.
Proof using H1.
  intros Hne. unfold backed_up. case_match; [|done]. by autorewrite with fs.
Qed.

Lemma putChunk_inv o cfg s c r s' c' :
  putChunk o cfg s c = (r, s', c') -> 0 <= Chunk.size c ->
  same_chunk c c' /\
  ((s' = s \/ s' = backed_up o s c) /\ r = false \/
   exists w, s' = set_fs s (<[path s c := mk_file (closed o (take w (Chunk.bytes c))) (now o)]>
                              (fs (backed_up o s c))) /\
             (r = true -> w = Z.to_nat (Chunk.size c) /\ fst (readBack o cfg s' c) = true)).
Proof using.
  intros Hp Hsz. unfold putChunk in Hp.
  destruct (getChunkPath s (name c)) as [p|] eqn:Hpath; [|simplify_eq; split; [done|left; by auto]].
  apply getChunkPath_inv in Hpath as ->. unfold is_regular_file in Hp. unfold backed_up.
  destruct (fs s !! path s c) as [f|] eqn:Hlk.
  - rewrite bool_decide_eq_true_2 in Hp by done.
    destruct (rename _ _ _ _) as [[] m] eqn:Hr in Hp; [|simplify_eq; split; [done|left; by auto]].
    apply rename_true in Hr as (f' & Hf' & ->). simplify_eq.
    apply (writeChunk_inv o cfg (set_fs s _) (Chunk.set_chunkVersion c (pretty (now o)))) in Hp
      as (Hs & _ & Hcase); [|done]. split; [exact Hs|].
    destruct Hcase as [[-> ->]|(w & -> & Hw)]; [left; by eauto|right]. exists w. rewrite readBack_version in Hw. by split.
  - rewrite bool_decide_eq_false_2 in Hp by (by intros []).
    apply (writeChunk_inv o cfg s (Chunk.set_chunkVersion c "")) in Hp as (Hs & _ & Hcase); [|done].
    split; [exact Hs|]. destruct Hcase as [[-> ->]|(w & -> & Hw)]; [left; by eauto|right].
    exists w. rewrite readBack_version in Hw. by split.
Qed.

(** A put touches no other chunk, and one that reports success has stored what is
    left of the bytes, and has read it back. *)
Lemma put_effect o cfg s c r s' c' :
  putChunk o cfg s c = (r, s', c') -> 0 <= Chunk.size c ->
  same_chunk c c' /\ _dir s' = _dir s /\
  (forall d, name d <> name c -> content s' d = content s d) /\
  (r = true -> content s' c = Some (closed o (Chunk.bytes c)) /\ fst (readBack o cfg s' c) = true).
Proof using H1.
  intros Hp Hsz. apply putChunk_inv in Hp as [Hs Hcase]; [|done]. split; [done|].
  destruct Hcase as [[[->| ->] ->]|(w & -> & Hw)].
  - done.
  - split; [apply backed_up_dir|]. split; [|done]. intros. by apply backed_up_other.
  - split; [done|]. split.
    + intros d Hne. rewrite content_insert_other by done.
      rewrite <- (backed_up_other o s c d) by done. unfold content. by rewrite backed_up_dir.
    + intros ->. destruct (Hw eq_refl) as [-> Hrb]. split; [|done].
      rewrite content_insert. simpl. by rewrite take_bytes.
Qed.

Lemma closed_lossless o l : lossless o -> closed o l = l.
Proof using. intros Ho. apply take_ge, Ho. Qed.

Lemma healthy_lossless o : healthy o -> lossless o.
Proof using. intros Ho. apply Ho. Qed.

(** A read-back that passes the verification has found the checksum of the chunk. *)
Lemma readBack_verified o cfg s c b :
  (forall i r, (0 < r)%nat -> (0 < fread_ret o i r)%nat) -> verifyChunkChecksum cfg = true ->
  content s c = Some b -> Z.of_nat (length b) < 2147483648 -> fst (readBack o cfg s c) = true -> MD5 b = Chunk.md5 c.
Proof using.
  intros Ho Hv Hc Hl. unfold readBack, getChunkInternal. change (name (Chunk.copyMeta Chunk.reset c true)) with (name c).
  destruct (getChunkPath s (name c)) as [p|] eqn:Hp; [|cbn; by rewrite Hv]. apply getChunkPath_inv in Hp as ->.
  unfold content in Hc. apply fmap_Some in Hc as (f & Hf & ->). unfold readChunkFile. rewrite Hf.
  destruct (can_read o _); [|cbn; by rewrite Hv]. rewrite read_loop_all by (done || lia).
  rewrite take_ge, Nat.sub_diag, app_nil_r, i32_small, Hv by (done || lia). cbn. rewrite orb_false_r.
  intros Hm%bool_decide_eq_true. unfold Chunk.bytes in Hm. cbn in Hm. by rewrite Nat2Z.id, take_ge in Hm.
Qed.

Lemma writeChunk_healthy o cfg s c :
  healthy o -> fits s c -> 0 <= Chunk.size c < 2147483648 ->
  length (Chunk.bytes c) = Z.to_nat (Chunk.size c) ->
  exists c', writeChunk o cfg s (path s c) c =
    (bool_decide (Chunk.md5 c = MD5 (Chunk.bytes c)) || negb (verifyChunkChecksum cfg),
     set_fs s (<[path s c := mk_file (Chunk.bytes c) (now o)]> (fs s)), c') /\
    (bool_decide (Chunk.md5 c = MD5 (Chunk.bytes c)) || negb (verifyChunkChecksum cfg) = true ->
     Chunk.md5 c' = stored_md5 c (Chunk.bytes c)).
Proof using.
  intros Ho Hf Hsz Hlen. unfold writeChunk.
  rewrite (proj1 (proj2 Ho)), write_loop_healthy by done.
  rewrite take_bytes, closed_lossless by by apply healthy_lossless.
  set (s1 := set_fs s _).
  destruct (readBack_healthy o cfg s1 c (Chunk.bytes c)) as (rc & -> & Hmd5);
    [done|done|apply content_insert|lia|].
  rewrite Z2Nat.id, Z.eqb_refl by lia. simpl.
  destruct (bool_decide _ || _); by eexists.
Qed.

(** On a healthy system a put succeeds unless verification is on and the
    checksum is wrong; in both cases the bytes are stored. *)
Lemma putChunk_healthy o cfg s c :
  healthy o -> fits s c -> 0 <= Chunk.size c < 2147483648 ->
  length (Chunk.bytes c) = Z.to_nat (Chunk.size c) ->
  exists s' c', putChunk o cfg s c =
    (bool_decide (Chunk.md5 c = MD5 (Chunk.bytes c)) || negb (verifyChunkChecksum cfg), s', c') /\
    content s' c = Some (Chunk.bytes c) /\ _dir s' = _dir s /\
    (bool_decide (Chunk.md5 c = MD5 (Chunk.bytes c)) || negb (verifyChunkChecksum cfg) = true ->
     Chunk.md5 c' = stored_md5 c (Chunk.bytes c)).
Proof using.
  intros Ho Hf Hsz Hlen. unfold putChunk. rewrite getChunkPath_fits by done.
  unfold is_regular_file. destruct (fs s !! path s c) as [f|] eqn:Hlk.
  - rewrite bool_decide_eq_true_2 by done. rewrite (rename_healthy _ _ _ _ f) by done.
    destruct (writeChunk_healthy o cfg (set_fs s (<[getOldChunkPath (path s c) (pretty (now o)) := f]>
      (delete (path s c) (fs s)))) (Chunk.set_chunkVersion c (pretty (now o)))) as (c' & E & Hmd5);
      [done..|].
    eexists _, c'. split; [exact E|].
    split; [exact (content_insert _ _ (Chunk.set_chunkVersion c (pretty (now o))) _)|]. by split.
  - rewrite bool_decide_eq_false_2 by (by intros []).
    destruct (writeChunk_healthy o cfg s (Chunk.set_chunkVersion c "")) as (c' & E & Hmd5); [done..|].
    eexists _, c'. split; [exact E|].
    split; [exact (content_insert _ _ (Chunk.set_chunkVersion c "") _)|]. by split.
Qed.

(** ** Revert *)

(** After a put over an existing file the backup holds that file. *)
Lemma putChunk_backup o cfg s c r s' c' f :
  putChunk o cfg s c = (r, s', c') -> 0 <= Chunk.size c -> fits s c ->
  (forall p q, can_rename o p q = true) -> fs s !! path s c = Some f ->
  Chunk.chunkVersion c' = pretty (now o) /\
  fs s' !! getOldChunkPath (path s c) (pretty (now o)) = Some f.
Proof using H1.
  intros Hp Hsz Hf Hr Hlk. unfold putChunk in Hp. rewrite getChunkPath_fits in Hp by done.
  unfold is_regular_file in Hp. rewrite bool_decide_eq_true_2 in Hp by done.
  unfold rename in Hp. rewrite Hlk, Hr in Hp.
  apply (writeChunk_inv o cfg (set_fs s _) (Chunk.set_chunkVersion c (pretty (now o)))) in Hp
    as (_ & Hv & Hcase); [|done]. split; [exact Hv|].
  destruct Hcase as [[-> _]|(w & -> & _)]; simpl.
  - by rewrite lookup_insert_eq.
  - rewrite lookup_insert_ne by apply old_path_ne. by rewrite lookup_insert_eq.
Qed.

(** Reverting to an existing backup makes it current again. *)
Lemma revertChunk_healthy o s c f :
  healthy o -> fits s c -> Chunk.chunkVersion c <> "0" ->
  fs s !! getOldChunkPath (path s c) (Chunk.chunkVersion c) = Some f ->
  exists s', revertChunk o s c = (true, s') /\ _dir s' = _dir s /\
    content s' c = Some (f_data f) /\
    forall d, name d <> name c -> content s' d = content s d.
Proof using H1.
  intros Ho Hf Hv Hold. unfold revertChunk. rewrite getChunkPath_fits by done.
  assert (getOldChunkPath (path s c) (Chunk.chunkVersion c) <> getOldChunkPath (path s c) "0")
    as Hne by (by intros [_ E]%old_path_inj).
  assert (exists m, snd (rename o (fs s) (path s c) (getOldChunkPath (path s c) "0")) = m /\
    m !! getOldChunkPath (path s c) (Chunk.chunkVersion c) = Some f /\
    forall d, name d <> name c -> content (set_fs s m) d = content s d) as (m & -> & Hm & Hother).
  { destruct (fs s !! path s c) as [g|] eqn:Hg.
    - rewrite (rename_healthy _ _ _ _ g) by done. eexists. split; [done|]. simpl. split.
      + rewrite lookup_insert_ne, lookup_delete_ne by (done || apply old_path_ne). done.
      + intros d Hd. by autorewrite with fs.
    - rewrite rename_missing by done. exists (fs s). split_and!; [done|done|].
      intros. apply content_set_fs. }
  rewrite (rename_healthy _ _ _ _ f) by done. eexists. split; [done|]. split; [done|].
  unfold unlink. rewrite (proj1 (proj2 (proj2 (proj2 Ho)))).
  split.
  - rewrite content_delete_old. apply content_insert.
  - intros d Hd. rewrite content_delete_old, content_insert_other, content_delete_old by done.
    by apply Hother.
Qed.
End ops.

(** * Current files and backups *)

Section old.
Context `{UuidPrinterLaws}.

Lemma basename_plain acc l : Forall (fun a => a <> "/"%char) l -> basename acc l = acc ++ l.
Proof.
  intros HF. revert acc. induction HF as [|a l Ha HF IH]; intros acc; simpl.
  - by rewrite app_nil_r.
  - rewrite bool_decide_eq_false_2 by done. rewrite IH. by rewrite <- app_assoc.
Qed.

Lemma basename_slash acc l1 l2 :
  Forall (fun a => a <> "/"%char) l2 -> basename acc (l1 ++ "/"%char :: l2) = l2.
Proof.
  intros HF. revert acc. induction l1 as [|a l1 IH]; intros acc; [|apply IH].
  simpl. by rewrite basename_plain.
Qed.

Lemma isOldChunks_path dir c : isOldChunks (chunk_path dir (Chunk.getChunkName c)) = false.
Proof.
  unfold isOldChunks, chunk_path. rewrite !chars_app. cbn.
  rewrite basename_slash by (by apply getChunkName_free_of).
  pose proof (name_dot c) as Hd. unfold free_of in Hd.
  induction Hd as [|a l Ha _ IH]; [done|]. cbn. by rewrite bool_decide_eq_false_2.
Qed.

Lemma isOldChunks_old dir c (z : Z) :
  isOldChunks (getOldChunkPath (chunk_path dir (Chunk.getChunkName c)) (pretty z)) = true.
Proof.
  unfold isOldChunks, chunk_path, getOldChunkPath. rewrite !append_assoc, !chars_app. cbn.
  rewrite basename_slash.
  - rewrite existsb_app. apply orb_true_iff. by right.
  - apply Forall_app. split; [by apply getChunkName_free_of|]. constructor; [done|].
    apply (plain_free_of "/"%char); [done|]. apply plain_pretty_Z.
Qed.

(** ** Usage *)

Definition weight (p : string) (f : file) : Z :=
  if isOldChunks p then 0 else Z.of_nat (length (f_data f)).

Lemma total_size_insert m p f : m !! p = None ->
  total_size (<[p := f]> m) = total_size m + weight p f.
Proof using.
  intros Hp. unfold total_size.
  rewrite (map_fold_insert_L _ _ p f m); [|intros; repeat case_match; lia|done].
  unfold weight. case_match; lia.
Qed.

Lemma total_size_delete m p f : m !! p = Some f ->
  total_size m = total_size (delete p m) + weight p f.
Proof using.
  intros Hp. rewrite <- (total_size_insert (delete p m) p f) by apply lookup_delete_eq.
  by rewrite insert_delete_id.
Qed.

Lemma total_size_replace m p f :
  total_size (<[p := f]> m) =
  total_size m - (match m !! p with Some g => weight p g | None => 0 end) + weight p f.
Proof using.
  destruct (m !! p) as [g|] eqn:Hg.
  - rewrite <- insert_delete_eq, total_size_insert by apply lookup_delete_eq.
    rewrite (total_size_delete m p g) by done. lia.
  - rewrite total_size_insert by done. lia.
Qed.

Lemma weight_old dir c (z : Z) f :
  weight (getOldChunkPath (chunk_path dir (Chunk.getChunkName c)) (pretty z)) f = 0.
Proof. unfold weight. by rewrite isOldChunks_old. Qed.

Lemma weight_path dir c f :
  weight (chunk_path dir (Chunk.getChunkName c)) f = Z.of_nat (length (f_data f)).
Proof. unfold weight. by rewrite isOldChunks_path. Qed.

(** The bytes the container counts for a chunk. *)
Definition used (s : t) (c : Chunk.t) : Z :=
  match content s c with Some b => Z.of_nat (length b) | None => 0 end.

Lemma backed_up_total o s c :
  total_size (fs (backed_up o s c)) = total_size (fs s) - used s c.
Proof.
  unfold backed_up, used, content. destruct (fs s !! _) as [f|] eqn:Hf; [|simpl; lia].
  simpl. rewrite total_size_replace, weight_old. rewrite lookup_delete_ne.
  - rewrite (total_size_delete (fs s) _ f Hf), weight_path. case_match; rewrite ?weight_old; lia.
  - apply old_path_ne.
Qed.

Lemma backed_up_gone o s c :
  fs (backed_up o s c) !! chunk_path (_dir s) (Chunk.getChunkName c) = None.
Proof.
  unfold backed_up. case_match eqn:E; [|done]. simpl.
  rewrite lookup_insert_ne by (intros E'; symmetry in E'; by apply old_path_ne in E').
  apply lookup_delete_eq.
Qed.
End old.

(** * Correctness *)

Section theorems.
Context `{Md5, UuidPrinterLaws}.
Implicit Types (s : t) (c d : Chunk.t) (o : os).
Notation name := Chunk.getChunkName.

(** C30: Whatever the file system does, a put changes no other chunk.  A put that
    reports success has offered every byte to the file system, which has accepted
    them: the file holds the bytes of the chunk if the system keeps what it
    accepted, and otherwise what was left of them when the file was closed, because
    the results of [fflush], [fsync] and [fclose] are not looked at.  With checksum
    verification on and reads that return what is in the file, the stored bytes have
    the checksum of the chunk all the same. *)
Theorem fs_put_stores o cfg s c r s' c' :
  putChunk o cfg s c = (r, s', c') -> 0 <= Chunk.size c < 2147483648 ->
  (forall d, name d <> name c -> content s' d = content s d) /\
  (r = true -> exists b, content s' c = Some b /\ b `prefix_of` Chunk.bytes c /\
     (lossless o -> b = Chunk.bytes c) /\
     (verifyChunkChecksum cfg = true -> (forall i n, (0 < n)%nat -> (0 < fread_ret o i n)%nat) -> MD5 b = Chunk.md5 c)).
Proof.
  intros Hp Hsz. destruct (put_effect _ _ _ _ _ _ _ Hp (proj1 Hsz)) as (_ & _ & Hother & Hst). split; [done|].
  intros Hr. destruct (Hst Hr) as [Hc Hrb]. eexists. split; [exact Hc|]. split; [apply prefix_take|].
  split; [apply closed_lossless|]. intros Hv Hf. eapply readBack_verified; [exact Hf|exact Hv|exact Hc| |exact Hrb].
  unfold closed, Chunk.bytes. rewrite !length_take. lia.
Qed.

(** Without verification a put reports success although the system lost every byte. *)
Theorem fs_put_loses o cfg s c :
  verifyChunkChecksum cfg = false -> (forall n, flushed o n = 0%nat) -> can_write o (chunk_path (_dir s) (name c)) = true ->
  (forall i r, (r <= fwrite_ret o i r)%nat) -> fits s c -> content s c = None -> 0 <= Chunk.size c ->
  exists s' c', putChunk o cfg s c = (true, s', c') /\ content s' c = Some [].
Proof.
  intros Hv Hfl Hw Hwr Hf Hc Hsz. unfold putChunk. rewrite getChunkPath_fits by done. unfold is_regular_file.
  rewrite bool_decide_eq_false_2 by (intros [f E]; unfold content in Hc; by rewrite E in Hc).
  unfold writeChunk. rewrite Hw. change (Chunk.size (Chunk.set_chunkVersion c "")) with (Chunk.size c).
  rewrite write_loop_all by done. destruct (readBack _ _ _ _) as [okay rc] eqn:Hrb.
  assert (okay = true) as -> by (apply (f_equal fst) in Hrb; unfold readBack in Hrb; destruct (getChunkInternal _ _ _ _ _);
    cbn in Hrb; by rewrite Hv, orb_true_r in Hrb).
  rewrite Z2Nat.id, Z.eqb_refl by done. eexists _, _. split; [done|]. unfold closed. rewrite Hfl. apply content_insert.
Qed.

(** C28: On a healthy file system a chunk whose checksum is right (or is not
    verified) is put successfully, and a later get with the checksum the put
    reported returns exactly its bytes; with verification on, a chunk with a wrong
    checksum is refused. *)
Theorem fs_put_get o1 o2 cfg s c :
  healthy o1 -> healthy o2 -> fits s c -> 0 <= Chunk.size c < 2147483648 ->
  length (Chunk.bytes c) = Z.to_nat (Chunk.size c) ->
  exists s' c', putChunk o1 cfg s c =
    (negb (verifyChunkChecksum cfg) || Chunk.verifyMD5 c, s', c') /\
  (negb (verifyChunkChecksum cfg) || Chunk.verifyMD5 c = true ->
   forall q, name q = name c -> Chunk.md5 q = Chunk.md5 c' ->
   getChunk o2 cfg s' q false =
   (true, Chunk.set_buffer q (Some (Chunk.bytes c)) (Chunk.size c) (Chunk.freeData q))).
Proof.
  intros Ho1 Ho2 Hf Hsz Hlen.
  destruct (putChunk_healthy o1 cfg s c Ho1 Hf Hsz Hlen) as (s' & c' & E & Hc & Hdir & Hmd5).
  exists s', c'. rewrite E, orb_comm. split; [done|]. fold (Chunk.verifyMD5 c) in *.
  intros Hok q Hq Hqm. rewrite orb_comm in Hok.
  assert (fits s' q) by (unfold fits in *; by rewrite Hdir, Hq).
  rewrite (getChunk_healthy _ _ _ _ (Chunk.bytes c)); [|done|done| |lia].
  - rewrite Hlen, Z2Nat.id by lia. f_equal. destruct (verifyChunkChecksum cfg); [|done].
    rewrite orb_false_r in Hok. simpl. apply bool_decide_eq_true_2.
    rewrite Hqm, Hmd5 by by rewrite orb_false_r. apply bool_decide_eq_true in Hok.
    unfold stored_md5. by case_match.
  - rewrite <- Hc. by apply content_same_name.
Qed.

(** C22: Reverting a put, successful or not, over an existing chunk brings every
    chunk of the container back to its contents before the put. *)
Theorem fs_put_revert o1 o2 cfg s c old r s' c' :
  (forall p q, can_rename o1 p q = true) -> 0 < now o1 -> healthy o2 ->
  fits s c -> 0 <= Chunk.size c -> content s c = Some old ->
  putChunk o1 cfg s c = (r, s', c') ->
  exists s'', revertChunk o2 s' c' = (true, s'') /\ forall d, content s'' d = content s d.
Proof.
  intros Hr Hnow Ho2 Hf Hsz Hold Hp.
  pose proof Hold as (f & Hlk & ->)%fmap_Some.
  destruct (put_effect _ _ _ _ _ _ _ Hp Hsz) as ((Hname & _) & Hdir & Hother & _).
  destruct (putChunk_backup _ _ _ _ _ _ _ f Hp Hsz Hf Hr Hlk) as [Hv Hb].
  destruct (revertChunk_healthy o2 s' c' f) as (s'' & E & Hdir' & Hc & Hother').
  - done.
  - unfold fits in *. by rewrite Hdir, Hname.
  - rewrite Hv. change "0" with (pretty 0). intros Heq%(inj pretty). lia.
  - by rewrite Hdir, Hname, Hv.
  - exists s''. split; [done|]. intros d. destruct (decide (name d = name c)) as [Hd|Hd].
    + rewrite (content_same_name s'' d c' (eq_trans Hd (eq_sym Hname))), Hc.
      rewrite <- Hold. by apply content_same_name.
    + rewrite Hother' by (by rewrite Hname). by apply Hother.
Qed.

(** Moving a chunk on a healthy file system: with a matching (or unverified)
    checksum the contents are at the destination and gone from the source,
    otherwise the move is refused and the source keeps its contents; no third
    chunk changes either way. *)
Theorem fs_move o cfg s src dst b :
  healthy o -> fits s src -> fits s dst -> name src <> name dst ->
  content s src = Some b -> Z.of_nat (length b) < 2147483648 ->
  exists s' dst', moveChunk o cfg s src dst =
    (bool_decide (Chunk.md5 dst = MD5 b) || negb (verifyChunkChecksum cfg), s', dst') /\
  (forall d, name d <> name src -> name d <> name dst -> content s' d = content s d) /\
  if bool_decide (Chunk.md5 dst = MD5 b) || negb (verifyChunkChecksum cfg)
  then content s' dst = Some b /\ content s' src = None /\
       Chunk.size dst' = Z.of_nat (length b) /\ Chunk.md5 dst' = stored_md5 dst b
  else content s' src = Some b /\ content s' dst = None.
Proof.
  intros Ho Hfs Hfd Hne Hc Hl. pose proof Hc as (f & Hlk & ->)%fmap_Some.
  unfold moveChunk. rewrite !getChunkPath_fits, Hlk by done.
  rewrite (rename_healthy _ _ _ _ f) by done.
  set (s1 := set_fs s _).
  assert (content s1 dst = Some (f_data f)) as Hd1 by apply content_insert.
  destruct (readBack_healthy o cfg s1 dst (f_data f)) as (rc & -> & Hrc); [done|done|done|done|].
  assert (forall d, name d <> name src -> name d <> name dst -> content s1 d = content s d) as Hother.
  { intros d H2 H3. unfold s1. by rewrite content_insert_other, content_delete_other, content_set_fs. }
  rewrite andb_true_l. destruct (bool_decide _ || _) eqn:Hok; eexists _, _; (split; [done|]).
  - split; [done|]. split; [done|]. split; [|split; [|done]].
    + unfold s1. by rewrite content_insert_other, content_delete.
    + simpl. by rewrite i32_small by lia.
  - unfold s1 in *. simpl. rewrite (rename_healthy _ _ _ _ f) by (done || apply lookup_insert_eq).
    simpl. split.
    + intros d H2 H3. rewrite <- Hother by done.
      change (chunk_path (_dir s)) with (chunk_path (_dir s)).
      rewrite (content_insert_other (set_fs s _)), (content_delete_other (set_fs s _)) by done. done.
    + split; [apply (content_insert (set_fs s _))|].
      rewrite (content_insert_other (set_fs s _)) by done. apply (content_delete (set_fs s _)).
Qed.

(** Copying a chunk on a healthy file system duplicates its contents and
    changes no third chunk, provided the request states the size of the source
    and the checksum matches or is not verified. *)
Theorem fs_copy o cfg s src dst b :
  healthy o -> fits s src -> fits s dst -> name src <> name dst -> (0 < copyBlockSize cfg)%nat ->
  content s src = Some b -> Z.of_nat (length b) < 2147483648 ->
  Chunk.size src = Z.of_nat (length b) ->
  bool_decide (Chunk.md5 dst = MD5 b) || negb (verifyChunkChecksum cfg) = true ->
  exists s' dst', copyChunk o cfg s src dst = (true, s', dst') /\
  content s' dst = Some b /\ (forall d, name d <> name dst -> content s' d = content s d) /\
  Chunk.size dst' = Z.of_nat (length b) /\ Chunk.md5 dst' = stored_md5 dst b.
Proof.
  intros Ho Hfs Hfd Hne Hblk Hc Hl Hsz Hok. pose proof Hc as (f & Hlk & ->)%fmap_Some.
  unfold copyChunk. rewrite !getChunkPath_fits by done. unfold is_regular_file.
  rewrite bool_decide_eq_true_2 by (by rewrite Hlk).
  rewrite (proj1 Ho), (proj1 (proj2 Ho)). cbn [andb negb orb].
  rewrite lookup_insert_ne by (intros E%chunk_path_inj; congruence).
  rewrite Hlk. change (default [] (f_data <$> Some f)) with (f_data f).
  rewrite (copy_loop_healthy o _ _ _ 0 [] : _ -> _ -> _ -> _ -> _ -> _ ->
    copy_loop _ o _ _ 0 [] 0 = _) by (done || lia).
  rewrite closed_lossless by by apply healthy_lossless. set (s1 := set_fs s _).
  assert (content s1 dst = Some (f_data f)) as Hd1 by (unfold s1; by rewrite content_insert).
  destruct (readBack_healthy o cfg s1 dst (f_data f)) as (rc & -> & Hrc); [done|done|done|done|].
  rewrite Hsz, Z.eqb_refl, Hok. simpl. eexists _, _. split; [done|]. split; [done|].
  split; [|by split]. intros d Hd. unfold s1.
  by rewrite !content_insert_other, content_set_fs.
Qed.

(** A copy whose source does not exist fails, but it first truncates the
    destination: an existing destination chunk loses its contents. *)
Theorem fs_copy_missing_source o cfg s src dst :
  can_write o (chunk_path (_dir s) (name dst)) = true -> fits s src -> fits s dst ->
  content s src = None ->
  exists s', copyChunk o cfg s src dst = (false, s', dst) /\ content s' dst = Some [].
Proof.
  intros Hw Hfs Hfd Hc. unfold copyChunk. rewrite !getChunkPath_fits, Hw by done.
  unfold is_regular_file. rewrite bool_decide_eq_false_2.
  - eexists. split; [done|]. apply content_insert.
  - intros [f Hf]. unfold content in Hc. by rewrite Hf in Hc.
Qed.

(** A backup that is ten minutes old when a pass looks at it. *)
Definition stale o p (f : file) : bool := isOldChunks p && (f_mtime f + 600 <=? clock o p).

(** One pass keeps exactly the files that are not stale backups. *)
Lemma cleanUpPass_lookup o s p : healthy o ->
  fs (snd (cleanUpPass o s)) !! p =
  match fs s !! p with Some f => if stale o p f then None else Some f | None => None end.
Proof using.
  intros Ho. unfold cleanUpPass, stale. simpl. destruct (fs s !! p) as [f|] eqn:Hp.
  - destruct (_ && _) eqn:E.
    + apply map_lookup_filter_None_2. right. intros f' Hf' Hn. simplify_eq.
      apply Hn. split; [|apply Ho]. unfold expired. by rewrite (proj1 (proj2 (proj2 (proj2 (proj2 (proj2 (proj2 Ho))))))).
    + apply map_lookup_filter_Some_2; [done|]. intros [He _]. unfold expired in He.
      rewrite <- andb_assoc in He. apply andb_prop in He as [_ He].
      change (timeout * 10) with 600 in He. by rewrite E in He.
  - apply map_lookup_filter_None_2. by left.
Qed.

(** A pass that says it removed something leaves fewer files. *)
Lemma cleanUpPass_smaller o s s' : healthy o -> cleanUpPass o s = (true, s') -> (size (fs s') < size (fs s))%nat.
Proof using.
  intros Ho E. unfold cleanUpPass in E. injection E as E <-. apply bool_decide_eq_true in E as (p & f & Hp & He). cbn.
  apply map_subset_size, strict_spec_alt. split; [apply map_filter_subseteq|]. intros E. rewrite <- E in Hp.
  apply map_lookup_filter_Some in Hp as [_ Hn]. apply Hn. split; [done|apply Ho].
Qed.

(** A round ends after as many passes as there are files, at most, and removes what
    was stale in one of its passes. *)
Lemma cleanUpRound_passes (sys : nat -> os) : (forall i, healthy (sys i)) -> forall fuel i s, (size (fs s) < fuel)%nat ->
  exists n s', (n <= size (fs s))%nat /\ cleanUpRound fuel sys i s = Some s' /\ _dir s' = _dir s /\
  forall p, fs s' !! p = match fs s !! p with
    | Some f => if existsb (fun j => stale (sys j) p f) (seq i (S n)) then None else Some f
    | None => None end.
Proof using.
  intros Ho. induction fuel as [|fuel IH]; intros i s Hs; [lia|]. cbn [cleanUpRound].
  pose proof (fun p => cleanUpPass_lookup (sys i) s p (Ho i)) as Hlk. destruct (cleanUpPass (sys i) s) as [removed s1] eqn:E.
  assert (_dir s1 = _dir s) as Hdir by (unfold cleanUpPass in E; by injection E as _ <-). cbn [snd] in Hlk. destruct removed.
  - pose proof (cleanUpPass_smaller _ _ _ (Ho i) E) as Hlt. destruct (IH (i + 1)%nat s1) as (n & s' & Hn & Hr & Hd & Hp); [lia|].
    exists (S n), s'. split; [lia|]. split; [done|]. split; [congruence|]. intros p. rewrite Hp, Hlk. destruct (fs s !! p) as [f|]; [|done].
    rewrite Nat.add_1_r. change (seq i (S (S n))) with (i :: seq (S i) (S n)). cbn [existsb]. by destruct (stale (sys i) p f).
  - exists 0%nat, s1. split; [lia|]. split; [done|]. split; [done|]. intros p. rewrite Hlk. destruct (fs s !! p) as [f|]; [|done].
    cbn. by rewrite orb_false_r.
Qed.

(** C31: One round of clean-up on a healthy file system ends: after at most one pass
    more than there are files.  The clock is read anew for every file in every pass,
    and may show any time; the round removes exactly the backups whose last write was
    ten minutes old or more when one of its passes, the last one included, looked at
    them, and leaves every current chunk alone. *)
Theorem fs_cleanup (sys : nat -> os) s :
  (forall i, healthy (sys i)) ->
  exists n s', (n <= size (fs s))%nat /\ cleanUpRound (S (size (fs s))) sys 0 s = Some s' /\
  (forall d, content s' d = content s d) /\
  forall p, fs s' !! p =
    match fs s !! p with
    | Some f => if isOldChunks p && existsb (fun i => f_mtime f + 600 <=? clock (sys i) p) (seq 0 (S n)) then None else Some f
    | None => None
    end.
Proof.
  intros Ho. destruct (cleanUpRound_passes sys Ho (S (size (fs s))) 0 s) as (n & s' & Hn & Hr & Hd & Hp); [lia|].
  assert (forall p f l, existsb (fun j => stale (sys j) p f) l = isOldChunks p && existsb (fun i => f_mtime f + 600 <=? clock (sys i) p) l) as Hst.
  { intros p f l. unfold stale. destruct (isOldChunks p); [done|]. by induction l. }
  exists n, s'. split; [done|]. split; [done|]. split; [|intros p; rewrite Hp; destruct (fs s !! p); [by rewrite Hst|done]].
  intros d. unfold content. rewrite Hd, Hp. destruct (fs s !! _); [|done]. by rewrite Hst, isOldChunks_path.
Qed.

(** A round of clean-up that meets an expired backup it cannot unlink never
    ends: no number of passes is enough. *)
Theorem fs_cleanup_livelock (sys : nat -> os) s p f :
  (forall i, list_throws (sys i) = false /\ f_mtime f + 600 <= clock (sys i) p /\ can_unlink (sys i) p = false) ->
  fs s !! p = Some f -> isOldChunks p = true ->
  forall fuel i, cleanUpRound fuel sys i s = None.
Proof.
  intros Ho Hp Hold fuel. revert s Hp. induction fuel as [|fuel IH]; intros s Hp i; [done|].
  destruct (Ho i) as (Ht & Hexp & Hu). assert (expired (sys i) p f = true) as He.
  { unfold expired. rewrite Ht, Hold. by apply Z.leb_le. }
  cbn [cleanUpRound]. unfold cleanUpPass. rewrite bool_decide_eq_true_2 by (by exists p, f).
  apply IH. apply map_lookup_filter_Some_2; [done|]. rewrite Hu. by intros [_ ?].
Qed.

(** The age of a backup is that of its last write, not of the overwrite:
    when a chunk last written ten minutes ago or more is overwritten, a clean-up
    at the same time removes the backup and the overwrite can no longer be
    reverted. *)
Theorem fs_backup_expires o cfg s c f r s' c' :
  healthy o -> fits s c -> 0 <= Chunk.size c -> 0 < now o -> (forall p, clock o p = now o) ->
  fs s !! chunk_path (_dir s) (name c) = Some f -> f_mtime f + 600 <= now o ->
  putChunk o cfg s c = (r, s', c') ->
  exists s'', cleanUpRound (S (size (fs s'))) (fun _ => o) 0 s' = Some s'' /\ fst (revertChunk o s'' c') = false.
Proof.
  intros Ho Hf Hsz Hnow Hclk Hlk Hm Hp. pose proof Ho as (_ & _ & Hren & _).
  destruct (put_effect _ _ _ _ _ _ _ Hp Hsz) as ((Hname & _) & Hdir & _).
  destruct (putChunk_backup _ _ _ _ _ _ _ f Hp Hsz Hf Hren Hlk) as [Hv Hb].
  destruct (cleanUpRound_passes (fun _ => o) (fun _ => Ho) (S (size (fs s'))) 0 s') as (n & s2 & _ & Hround & Hd2 & Hlk2); [lia|].
  exists s2. split; [done|]. assert (_dir s2 = _dir s) as Hdir2 by congruence.
  assert (fs s2 !! getOldChunkPath (chunk_path (_dir s) (name c)) (pretty (now o)) = None) as Hgone.
  { rewrite Hlk2, Hb. cbn [seq existsb]. unfold stale at 1. rewrite isOldChunks_old, Hclk. by rewrite (proj2 (Z.leb_le _ _) Hm). }
  unfold revertChunk. rewrite getChunkPath_fits by (unfold fits in *; by rewrite Hdir2, Hname).
  rewrite Hdir2, Hname, Hv. rewrite rename_missing; [done|].
  destruct (fs s2 !! chunk_path (_dir s) (name c)) as [g|] eqn:Hg.
  - rewrite (rename_healthy _ _ _ _ g) by done. simpl.
    rewrite lookup_insert_ne, lookup_delete_ne; [done|apply old_path_ne|].
    change "0" with (pretty 0). intros [_ E%(inj pretty)]%old_path_inj. lia.
  - by rewrite rename_missing.
Qed.

(** A put of a chunk changes the usage the container reports by the size of
    the chunk minus the size of the version it replaces; backups are not
    counted. *)
Theorem fs_put_usage o cfg s c s' c' :
  putChunk o cfg s c = (true, s', c') -> 0 <= Chunk.size c ->
  length (Chunk.bytes c) = Z.to_nat (Chunk.size c) -> list_throws o = false -> lossless o ->
  _usage (updateUsage o s') = u64 (total_size (fs s) - used s c + Chunk.size c).
Proof.
  intros Hp Hsz Hlen Ho Hls. apply putChunk_inv in Hp as (_ & [[_ ?]|(w & -> & Hw)]); [done| |done].
  destruct (Hw eq_refl) as [-> _]. rewrite take_bytes, closed_lossless by done. unfold updateUsage, getTotalSize. rewrite Ho. simpl.
  rewrite total_size_insert by apply backed_up_gone. rewrite backed_up_total, weight_path. simpl.
  rewrite Hlen, Z2Nat.id by done. done.
Qed.
End theorems.

(** * Examples *)

Module FsSample.

#[local] Instance sum_md5 : Md5 := fun l => [foldr Z.add 0 l].
#[local] Existing Instances decimal_uuid decimal_uuid_laws.

(** A healthy system at time 1000. *)
Definition ok_os : os :=
  mk_os 1000 (fun _ => true) (fun _ => true) (fun _ _ => true) (fun _ => true)
    (fun _ r => r) (fun _ r => r) (fun n => n) (fun _ => 0) false (fun _ => true) (fun _ => 1000).

Definition cfg : config := mk_config true 2.

Definition chunk (cid : Z) (b : list Z) : Chunk.t :=
  Chunk.mk 1 5 cid (Some b) (Z.of_nat (length b)) true 0 "" (MD5 b).

(** Chunk 2 is stored, with a backup of an earlier version. *)
Definition state : t :=
  mk 7 "/d" 100 0
    (<["/d/1_5_0_2" := mk_file [9; 9] 500]> (<["/d/1_5_0_2.300" := mk_file [8] 100]> ∅)).

Lemma ok_os_healthy : healthy ok_os.
Proof. split_and!; simpl; auto; try lia. intros n. done. Qed.

Lemma state_fits cid : cid = 2 \/ cid = 3 -> fits state (chunk cid [4; 5; 6]).
Proof. intros [->| ->]; apply Nat.ltb_lt; vm_compute; reflexivity. Qed.

Lemma fs_put_stores_witness :
  exists s' c', putChunk ok_os cfg state (chunk 2 [4; 5; 6]) = (true, s', c') /\
  content s' (chunk 2 [4; 5; 6]) = Some [4; 5; 6] /\
  content s' (chunk 3 []) = content state (chunk 3 []).
Proof.
  destruct (putChunk ok_os cfg state (chunk 2 [4; 5; 6])) as [[r s'] c'] eqn:E.
  destruct (fs_put_stores ok_os cfg state (chunk 2 [4; 5; 6]) r s' c' E) as [Hother Hst];
    [vm_compute; split; [discriminate|reflexivity]|].
  assert (r = true) as -> by (apply (f_equal (fun x => fst (fst x))) in E; vm_compute in E; done).
  exists s', c'. split; [reflexivity|]. destruct (Hst eq_refl) as (b & Hb & _ & Hall & _). split.
  - rewrite Hb, (Hall (healthy_lossless _ ok_os_healthy)). reflexivity.
  - apply Hother. vm_compute. discriminate.
Defined.

Lemma fs_put_get_witness :
  exists s' c', putChunk ok_os cfg state (chunk 2 [4; 5; 6]) = (true, s', c') /\
  forall q, Chunk.getChunkName q = Chunk.getChunkName (chunk 2 [4; 5; 6]) ->
  Chunk.md5 q = Chunk.md5 c' ->
  getChunk ok_os cfg s' q false =
  (true, Chunk.set_buffer q (Some [4; 5; 6]) 3 (Chunk.freeData q)).
Proof.
  destruct (fs_put_get ok_os ok_os cfg state (chunk 2 [4; 5; 6])) as (s' & c' & E & Hget).
  - apply ok_os_healthy.
  - apply ok_os_healthy.
  - apply state_fits. by left.
  - vm_compute. split; [discriminate|reflexivity].
  - reflexivity.
  - exists s', c'. split; [exact E|]. apply Hget. vm_compute. reflexivity.
Defined.

Lemma fs_put_revert_witness :
  exists r s' c' s'', putChunk ok_os cfg state (chunk 2 [4; 5; 6]) = (r, s', c') /\
  revertChunk ok_os s' c' = (true, s'') /\ forall d, content s'' d = content state d.
Proof.
  destruct (putChunk ok_os cfg state (chunk 2 [4; 5; 6])) as [[r s'] c'] eqn:E.
  destruct (fs_put_revert ok_os ok_os cfg state (chunk 2 [4; 5; 6]) [9; 9] r s' c')
    as (s'' & Hr & Hc).
  - reflexivity.
  - reflexivity.
  - apply ok_os_healthy.
  - apply state_fits. by left.
  - vm_compute. discriminate.
  - vm_compute. reflexivity.
  - exact E.
  - exists r, s', c', s''. split; [reflexivity|]. split; [exact Hr|exact Hc].
Defined.

Lemma fs_move_witness :
  exists s' dst', moveChunk ok_os cfg state (chunk 2 []) (chunk 3 [9; 9]) = (true, s', dst') /\
  content s' (chunk 3 []) = Some [9; 9] /\ content s' (chunk 2 []) = None.
Proof.
  destruct (fs_move ok_os cfg state (chunk 2 []) (chunk 3 [9; 9]) [9; 9])
    as (s' & dst' & E & _ & Hc).
  - apply ok_os_healthy.
  - apply (state_fits 2). by left.
  - apply (state_fits 3). by right.
  - vm_compute. discriminate.
  - vm_compute. reflexivity.
  - reflexivity.
  - exists s', dst'. split; [exact E|]. destruct Hc as (Hd & Hs & _). split; [exact Hd|exact Hs].
Defined.

Lemma fs_copy_witness :
  exists s' dst', copyChunk ok_os cfg state (chunk 2 [9; 9]) (chunk 3 [9; 9]) = (true, s', dst') /\
  content s' (chunk 3 []) = Some [9; 9] /\ content s' (chunk 2 []) = Some [9; 9].
Proof.
  destruct (fs_copy ok_os cfg state (chunk 2 [9; 9]) (chunk 3 [9; 9]) [9; 9])
    as (s' & dst' & E & Hd & Hs & _).
  - apply ok_os_healthy.
  - apply (state_fits 2). by left.
  - apply (state_fits 3). by right.
  - vm_compute. discriminate.
  - vm_compute. repeat constructor.
  - vm_compute. reflexivity.
  - reflexivity.
  - reflexivity.
  - vm_compute. reflexivity.
  - exists s', dst'. split; [exact E|]. split; [exact Hd|]. rewrite Hs; [reflexivity|].
    vm_compute. discriminate.
Defined.

Lemma fs_cleanup_witness :
  exists s', cleanUpRound 3 (fun _ => ok_os) 0 state = Some s' /\
  fs s' !! "/d/1_5_0_2.300" = None /\ fs s' !! "/d/1_5_0_2" = Some (mk_file [9; 9] 500).
Proof.
  destruct (fs_cleanup (fun _ => ok_os) state (fun _ => ok_os_healthy)) as (n & s' & _ & E & _ & Hlk).
  exists s'. split; [exact E|]. rewrite !Hlk. split; reflexivity.
Defined.

Lemma fs_put_usage_witness :
  exists s' c', putChunk ok_os cfg state (chunk 2 [4; 5; 6]) = (true, s', c') /\
  _usage (updateUsage ok_os s') = 3.
Proof.
  destruct (putChunk ok_os cfg state (chunk 2 [4; 5; 6])) as [[r s'] c'] eqn:E.
  assert (r = true) as -> by (apply (f_equal (fun x => fst (fst x))) in E; vm_compute in E; done).
  exists s', c'. split; [reflexivity|].
  rewrite (fs_put_usage ok_os cfg state (chunk 2 [4; 5; 6]) s' c' E).
  - vm_compute. reflexivity.
  - vm_compute. discriminate.
  - reflexivity.
  - reflexivity.
  - apply (healthy_lossless _ ok_os_healthy).
Defined.

End FsSample.
