(* ===== verification/Container.v ===== *)
(** The interface of a container ([src/agent/container/container.hh]): the
    operations every container type implements, and what they promise to the
    container manager.  The promises are the documented contracts of the
    interface; [FsInstance] shows that the file-system container keeps them. *)

From S2P Require Import Prelude DS.

(** [S] is the state of a container, [E] the behaviour of the world during one
    call. *)
Class Container (S E : Type) := {
  putChunk : E -> S -> Chunk.t -> bool * S * Chunk.t;
  getChunk : E -> S -> Chunk.t -> bool -> bool * Chunk.t;
  deleteChunk : E -> S -> Chunk.t -> bool * S;
  copyChunk : E -> S -> Chunk.t -> Chunk.t -> bool * S * Chunk.t;
  moveChunk : E -> S -> Chunk.t -> Chunk.t -> bool * S * Chunk.t;
  hasChunk : E -> S -> Chunk.t -> bool;
  revertChunk : E -> S -> Chunk.t -> bool * S;
  verifyChunk : E -> S -> Chunk.t -> bool;
  updateUsage : E -> S -> S;
  getUsage : S -> Z;
  getCapacity : S -> Z;
  getId : S -> Z;
  (* the contents stored under the name of a chunk *)
  holds : S -> Chunk.t -> option (list Z);
  (* the world does not fail the call *)
  env_ok : E -> Prop
}.

Class ContainerLaws (S E : Type) `{UuidPrinter} `{Container S E} : Prop := {
  holds_name s c d : Chunk.getChunkName c = Chunk.getChunkName d -> holds s c = holds s d;
  put_stores e s c s' c' : putChunk e s c = (true, s', c') -> 0 <= Chunk.size c ->
    holds s' c = Some (Chunk.bytes c);
  put_frame e s c r s' c' d : putChunk e s c = (r, s', c') -> 0 <= Chunk.size c ->
    Chunk.getChunkName d <> Chunk.getChunkName c -> holds s' d = holds s d;
  put_same e s c r s' c' : putChunk e s c = (r, s', c') -> 0 <= Chunk.size c -> same_chunk c c';
  get_absent e s c skip : holds s c = None -> fst (getChunk e s c skip) = false;
  get_present e s c skip b c' : env_ok e -> holds s c = Some b ->
    Z.of_nat (length b) < 2147483648 -> getChunk e s c skip = (true, c') ->
    Chunk.data c' = Some b /\ Chunk.size c' = Z.of_nat (length b) /\
    Chunk.getChunkName c' = Chunk.getChunkName c;
  delete_removes e s c s' : env_ok e -> deleteChunk e s c = (true, s') -> holds s' c = None;
  delete_frame e s c r s' d : deleteChunk e s c = (r, s') ->
    Chunk.getChunkName d <> Chunk.getChunkName c -> holds s' d = holds s d;
  move_moves e s src dst s' dst' : env_ok e ->
    Chunk.getChunkName src <> Chunk.getChunkName dst ->
    moveChunk e s src dst = (true, s', dst') ->
    is_Some (holds s src) /\ holds s' dst = holds s src /\ holds s' src = None;
  move_frame e s src dst r s' dst' d : moveChunk e s src dst = (r, s', dst') ->
    Chunk.getChunkName d <> Chunk.getChunkName src ->
    Chunk.getChunkName d <> Chunk.getChunkName dst -> holds s' d = holds s d;
  copy_copies e s src dst s' dst' : env_ok e ->
    Chunk.getChunkName src <> Chunk.getChunkName dst ->
    (forall b, holds s src = Some b -> Z.of_nat (length b) < 2147483648) ->
    copyChunk e s src dst = (true, s', dst') ->
    is_Some (holds s src) /\ holds s' dst = holds s src;
  copy_frame e s src dst r s' dst' d : copyChunk e s src dst = (r, s', dst') ->
    Chunk.getChunkName d <> Chunk.getChunkName dst -> holds s' d = holds s d;
  has_present e s c : hasChunk e s c = true ->
    exists b, holds s c = Some b /\ Chunk.size c = Z.of_nat (length b);
  revert_frame e s c r s' d : revertChunk e s c = (r, s') ->
    Chunk.getChunkName d <> Chunk.getChunkName c -> holds s' d = holds s d
}.
