(* ===== verification/FsInstance.v ===== *)
(** The file-system container implements the container interface, on systems that keep
    the bytes they accepted: the interface promises that a chunk whose put succeeded is
    stored, and [FsTheorems.fs_put_loses] shows that it may not be otherwise. *)

From stdpp Require Import pretty.
From S2P Require Import Prelude DS FsContainer FsTheorems Container.

(** What a system that keeps its promises does during one call. *)
Record lossless_os := mk_lossless { sys :> os; sys_lossless : lossless sys }.

Section instance.
Context `{Md5, UuidPrinter} (cfg : config).

Definition fs_container : Container FsContainer.t lossless_os := {|
  putChunk (o : lossless_os) := FsContainer.putChunk o cfg;
  getChunk (o : lossless_os) := FsContainer.getChunk o cfg;
  deleteChunk (o : lossless_os) := FsContainer.deleteChunk o;
  copyChunk (o : lossless_os) := FsContainer.copyChunk o cfg;
  moveChunk (o : lossless_os) := FsContainer.moveChunk o cfg;
  hasChunk (o : lossless_os) := FsContainer.hasChunk o cfg;
  revertChunk (o : lossless_os) := FsContainer.revertChunk o;
  verifyChunk (o : lossless_os) := FsContainer.verifyChunk o cfg;
  updateUsage (o : lossless_os) := FsContainer.updateUsage o;
  getUsage := FsContainer._usage;
  getCapacity := FsContainer._capacity;
  getId := FsContainer._id;
  holds := FsContainer.content;
  env_ok (o : lossless_os) := healthy o
|}.
End instance.

Section laws.
Context `{Md5, UuidPrinterLaws} (cfg : config).
Import FsContainer.
Implicit Types (s : t) (c d : Chunk.t) (o : os).
Notation name := Chunk.getChunkName.

(** A successful operation had a path that fits. *)
Lemma path_fits s c p : getChunkPath s (name c) = Some p ->
  fits s c /\ p = chunk_path (_dir s) (name c).
Proof using.
  unfold getChunkPath, fits. intros E. case_match eqn:Hl; simplify_eq.
  by apply Nat.ltb_lt in Hl.
Qed.

Lemma getChunk_absent o s c skip : content s c = None -> fst (getChunk o cfg s c skip) = false.
Proof using.
  intros Hc. unfold getChunk, getChunkInternal.
  destruct (getChunkPath s (name c)) as [p|] eqn:Hp; [|done]. apply path_fits in Hp as [_ ->].
  unfold readChunkFile. unfold content in Hc.
  by destruct (fs s !! _).
Qed.

Lemma getChunk_fits o s c skip c' : getChunk o cfg s c skip = (true, c') -> fits s c.
Proof using.
  unfold getChunk. destruct (getChunkPath s (name c)) as [p|] eqn:Hp; [|done].
  by apply path_fits in Hp as [? _].
Qed.

Lemma deleteChunk_frame o s c r s' d : deleteChunk o s c = (r, s') -> name d <> name c ->
  content s' d = content s d.
Proof using.
  unfold deleteChunk. intros E Hd. destruct (getChunkPath s (name c)) as [p|] eqn:Hp; simplify_eq;
    [|done]. apply path_fits in Hp as [_ ->]. unfold unlink.
  case_match; [|by rewrite content_set_fs]. by rewrite content_delete_other, content_set_fs.
Qed.

Lemma deleteChunk_removes o s c s' : healthy o -> deleteChunk o s c = (true, s') ->
  content s' c = None.
Proof using.
  unfold deleteChunk. intros Ho E.
  destruct (getChunkPath s (name c)) as [p|] eqn:Hp; simplify_eq.
  apply path_fits in Hp as [_ ->]. unfold unlink. rewrite (proj1 (proj2 (proj2 (proj2 Ho)))).
  apply content_delete.
Qed.

(** Renaming one current chunk to another touches no third one. *)
Lemma rename_content o s src dst d :
  name d <> name src -> name d <> name dst ->
  content (set_fs s (snd (rename o (fs s) (chunk_path (_dir s) (name src))
                                 (chunk_path (_dir s) (name dst))))) d = content s d.
Proof using.
  intros Hs Hd. destruct (rename _ _ _ _) as [[] m] eqn:E.
  - apply rename_true in E as (f & _ & ->). simpl.
    by rewrite content_insert_other, content_delete_other, content_set_fs.
  - apply rename_false in E as ->. simpl. by rewrite content_set_fs.
Qed.

Lemma moveChunk_frame o s src dst r s' dst' d : moveChunk o cfg s src dst = (r, s', dst') ->
  name d <> name src -> name d <> name dst -> content s' d = content s d.
Proof using.
  unfold moveChunk. intros E Hs Hd.
  destruct (getChunkPath s (name src)) as [p|] eqn:Hp; [|by simplify_eq].
  destruct (getChunkPath s (name dst)) as [q|] eqn:Hq; [|by simplify_eq].
  apply path_fits in Hp as [_ ->]. apply path_fits in Hq as [_ ->].
  destruct (fs s !! _) as [f|]; [|by simplify_eq].
  pose proof (rename_content o s src dst d Hs Hd) as H1'.
  destruct (rename o _ _ _) as [moved m] eqn:Hm. simpl in H1'.
  destruct (readBack _ _ _ _) as [okay rc]. destruct (moved && okay); injection E as <- <- <-; [done|].
  rewrite <- H1'. by apply (rename_content o (set_fs s m) dst src d).
Qed.

Lemma moveChunk_moves o s src dst s' dst' : healthy o -> name src <> name dst ->
  moveChunk o cfg s src dst = (true, s', dst') ->
  is_Some (content s src) /\ content s' dst = content s src /\ content s' src = None.
Proof using.
  unfold moveChunk. intros Ho Hne E.
  destruct (getChunkPath s (name src)) as [p|] eqn:Hp; [|by simplify_eq].
  destruct (getChunkPath s (name dst)) as [q|] eqn:Hq; [|by simplify_eq].
  apply path_fits in Hp as [_ ->]. apply path_fits in Hq as [_ ->].
  destruct (fs s !! _) as [f|] eqn:Hf; [|by simplify_eq].
  rewrite (rename_healthy _ _ _ _ f) in E by done.
  destruct (readBack _ _ _ _) as [okay rc]. destruct (true && okay); simplify_eq.
  assert (content s src = Some (f_data f)) as -> by (unfold content; by rewrite Hf).
  split; [done|]. rewrite content_insert. split; [done|].
  by rewrite content_insert_other, content_delete.
Qed.

Lemma copyChunk_frame o s src dst r s' dst' d : copyChunk o cfg s src dst = (r, s', dst') ->
  name d <> name dst -> content s' d = content s d.
Proof using.
  unfold copyChunk. intros E Hd.
  destruct (getChunkPath s (name src)) as [p|] eqn:Hp; [|by simplify_eq].
  destruct (getChunkPath s (name dst)) as [q|] eqn:Hq; [|by simplify_eq].
  apply path_fits in Hp as [_ ->]. apply path_fits in Hq as [_ ->].
  set (m := if can_write o _ then _ else _) in E.
  assert (content (set_fs s m) d = content s d) as Hm.
  { unfold m. destruct (can_write o _); [|apply content_set_fs].
    by rewrite content_insert_other, content_set_fs. }
  destruct (negb _ || _); [by simplify_eq|].
  destruct (copy_loop _ _ _ _ _ _ _) as [out size]. destruct (readBack _ _ _ _) as [okay rc].
  destruct (_ && okay); injection E as <- <- <-.
  - by rewrite content_insert_other.
  - destruct (deleteChunk o _ dst) as [r' s''] eqn:Hdel.
    cbn [snd]. rewrite (deleteChunk_frame _ _ _ _ _ d Hdel Hd). by rewrite content_insert_other.
Qed.

Lemma copyChunk_copies o s src dst s' dst' :
  (0 < copyBlockSize cfg)%nat -> healthy o -> name src <> name dst ->
  (forall b, content s src = Some b -> Z.of_nat (length b) < 2147483648) ->
  copyChunk o cfg s src dst = (true, s', dst') ->
  is_Some (content s src) /\ content s' dst = content s src.
Proof using.
  unfold copyChunk. intros Hblk Ho Hne Hlen E.
  destruct (getChunkPath s (name src)) as [p|] eqn:Hp; [|by simplify_eq].
  destruct (getChunkPath s (name dst)) as [q|] eqn:Hq; [|by simplify_eq].
  apply path_fits in Hp as [_ ->]. apply path_fits in Hq as [_ ->].
  unfold is_regular_file in E. rewrite (proj1 (proj2 Ho)) in E.
  destruct (fs s !! chunk_path (_dir s) (name src)) as [f|] eqn:Hf.
  2:{ rewrite bool_decide_eq_false_2 in E by (by intros []). by simplify_eq. }
  assert (content s src = Some (f_data f)) as Hc by (unfold content; by rewrite Hf).
  rewrite bool_decide_eq_true_2, (proj1 Ho) in E by done. cbn [andb negb orb] in E.
  rewrite lookup_insert_ne, Hf in E by (intros Heq%chunk_path_inj; congruence).
  change (default [] (f_data <$> Some f)) with (f_data f) in E.
  rewrite (copy_loop_healthy o _ _ _ 0 [] : _ -> _ -> _ -> _ -> _ -> _ ->
    copy_loop _ o _ _ 0 [] 0 = _) in E by (done || lia || by apply Hlen).
  rewrite closed_lossless in E by by apply healthy_lossless.
  destruct (readBack _ _ _ _) as [okay rc]. destruct (_ && okay); [|by simplify_eq].
  injection E as <- <-. rewrite Hc. split; [done|]. by rewrite content_insert.
Qed.

Lemma hasChunk_present o s c : hasChunk o cfg s c = true ->
  exists b, content s c = Some b /\ Chunk.size c = Z.of_nat (length b).
Proof using.
  unfold hasChunk. destruct (getChunkPath s (name c)) as [p|] eqn:Hp; [|done].
  apply path_fits in Hp as [_ ->]. unfold content.
  destruct (fs s !! _) as [f|]; [|done]. intros [Hs _]%andb_prop.
  exists (f_data f). split; [done|]. by apply Z.eqb_eq.
Qed.

Lemma revertChunk_frame o s c r s' d : revertChunk o s c = (r, s') -> name d <> name c ->
  content s' d = content s d.
Proof using H1.
  unfold revertChunk. intros E Hd.
  destruct (getChunkPath s (name c)) as [p|] eqn:Hp; [|by simplify_eq].
  apply path_fits in Hp as [_ ->].
  assert (forall m p q, (p = chunk_path (_dir s) (name c) \/
      exists v, p = getOldChunkPath (chunk_path (_dir s) (name c)) v) ->
    (q = chunk_path (_dir s) (name c) \/
      exists v, q = getOldChunkPath (chunk_path (_dir s) (name c)) v) ->
    content (set_fs s (snd (rename o m p q))) d = content (set_fs s m) d) as Hren.
  { intros m p q Hp Hq. destruct (rename o m p q) as [[] m'] eqn:Er.
    - apply rename_true in Er as (f & _ & ->). simpl.
      destruct Hq as [->|[v ->]], Hp as [->|[w ->]];
        rewrite ?content_insert_other, ?content_insert_old by done;
        by rewrite ?content_delete_other, ?content_delete_old by done.
    - by apply rename_false in Er as ->. }
  set (m := snd (rename o (fs s) _ _)) in E.
  assert (content (set_fs s m) d = content s d) as Hm.
  { unfold m. rewrite Hren by eauto. apply content_set_fs. }
  destruct (rename o m _ _) as [[] m2] eqn:E2.
  - injection E as <- <-. rewrite <- Hm. rewrite <- (Hren m (getOldChunkPath
      (chunk_path (_dir s) (name c)) (Chunk.chunkVersion c)) (chunk_path (_dir s) (name c)))
      by eauto. rewrite E2. unfold unlink. case_match; [by rewrite content_delete_old|done].
  - injection E as <- <-. apply rename_false in E2 as ->. by rewrite Hren by eauto.
Qed.

Lemma fs_container_laws : (0 < copyBlockSize cfg)%nat ->
  @ContainerLaws t lossless_os _ (fs_container cfg).
Proof.
  intros Hblk. constructor; simpl.
  - intros s c d. apply content_same_name.
  - intros o s c s' c' E Hsz. destruct (put_effect _ _ _ _ _ _ _ E Hsz) as (_ & _ & _ & Hst).
    destruct (Hst eq_refl) as [-> _]. by rewrite closed_lossless by apply sys_lossless.
  - intros o s c r s' c' d E Hsz. destruct (put_effect _ _ _ _ _ _ _ E Hsz) as (_ & _ & ? & _). auto.
  - intros o s c r s' c' E Hsz. by destruct (put_effect _ _ _ _ _ _ _ E Hsz) as (? & _).
  - intros o s c skip. apply getChunk_absent.
  - intros o s c skip b c' Ho Hc Hl E. pose proof (getChunk_fits _ _ _ _ _ E).
    rewrite (getChunk_healthy o cfg s c b) in E by done. by simplify_eq.
  - intros o s c s'. apply deleteChunk_removes.
  - intros o s c r s' d. apply deleteChunk_frame.
  - intros o s src dst s' dst'. apply moveChunk_moves.
  - intros o s src dst r s' dst' d. apply moveChunk_frame.
  - intros. by eapply copyChunk_copies.
  - intros o s src dst r s' dst' d. apply copyChunk_frame.
  - intros o s c. apply hasChunk_present.
  - intros o s c r s' d. apply revertChunk_frame.
Qed.
End laws.
