(* ===== verification/S3.v ===== *)
(** The object store of the S3 containers.  The client library and the service are not part
    of the repository: the calls that the container makes are the fields of the class [S3],
    their documented behaviour is [S3Laws], and [S3Versioned] is what is documented for a
    bucket that keeps versions.  A map from keys to versions is an instance. *)

From Stdlib Require Import Ascii.
From S2P Require Import Prelude DS Checksum.

#[local] Open Scope Z_scope.

Import ChecksumCalculator.

Definition quoted (s : string) : string := String "034"%char (s +:+ String "034"%char "").

(** The tag of an object that was stored by one request: its MD5 in double quotes. *)
Definition etag_of `{Md5} (d : list Z) : string := quoted (toHex (MD5 d)).

(** [B] is the state of a bucket, [E] the behaviour of the service during one call.  A
    request may fail although it took effect. *)
Class S3 (B E : Type) := {
  PutObject : E -> B -> string -> list Z -> option (string * string) * B;   (* tag, version *)
  GetObject : E -> B -> string -> option (list Z);
  HeadObject : E -> B -> string -> option (Z * string);                     (* length, tag *)
  DeleteObject : E -> B -> string -> option string -> bool * B;             (* the version, if given *)
  CopyObject : E -> B -> string -> string -> bool * B;
  ListObjects : E -> B -> string -> option (list (string * Z) * bool * string);
  (* the versions of an object, the newest first; None is a delete marker *)
  versions : B -> string -> list (string * option (list Z));
  (* the objects with their sizes, in the order of the service *)
  listing : B -> list (string * Z);
  (* the service does not fail the call *)
  s3_ok : E -> Prop
}.

Definition object `{S3 B E} (b : B) (k : string) : option (list Z) := versions b k !! 0%nat ≫= snd.

(** The part of a listing after [marker]. *)
Fixpoint after (marker : string) (l : list (string * Z)) : list (string * Z) :=
  match l with
  | [] => []
  | x :: l => if bool_decide (fst x = marker) then l else after marker l
  end.

Definition from_marker (marker : string) (l : list (string * Z)) : list (string * Z) :=
  if bool_decide (marker = "") then l else after marker l.

Class S3Laws (B E : Type) `{S3 B E} `{Md5} : Prop := {
  put_effect e b k d o b' : PutObject e b k d = (o, b') ->
    (forall k', k' <> k -> versions b' k' = versions b k') /\
    forall tag v, o = Some (tag, v) -> tag = etag_of d /\ object b' k = Some d;
  get_effect e b k d : GetObject e b k = Some d -> object b k = Some d;
  head_effect e b k n tag : HeadObject e b k = Some (n, tag) ->
    exists d, object b k = Some d /\ n = Z.of_nat (length d) /\ tag = etag_of d;
  delete_effect e b k v r b' : DeleteObject e b k v = (r, b') -> forall k', k' <> k -> versions b' k' = versions b k';
  delete_ok e b k b' r : s3_ok e -> DeleteObject e b k None = (r, b') -> object b' k = None;
  copy_effect e b src dst r b' : CopyObject e b src dst = (r, b') ->
    (forall k', k' <> dst -> versions b' k' = versions b k') /\
    (r = true -> is_Some (object b src) /\ object b' dst = object b src);
  (* a page holds at least one object when more follow *)
  list_effect e b m page truncated next : ListObjects e b m = Some (page, truncated, next) ->
    m = "" \/ m ∈ (listing b).*1 ->
    exists rest, from_marker m (listing b) = page ++ rest /\
      (truncated = true -> page <> [] /\ (next = "" \/ Some next = fst <$> last page)) /\ (truncated = false -> rest = []);
  listing_keys b : NoDup (listing b).*1 /\ "" ∉ (listing b).*1;
  listing_objects b k n : (k, n) ∈ listing b <-> exists d, object b k = Some d /\ n = Z.of_nat (length d)
}.

Class S3Versioned (B E : Type) `{S3 B E} : Prop := {
  put_version e b k d tag v b' : PutObject e b k d = (Some (tag, v), b') ->
    versions b' k = (v, Some d) :: versions b k /\ v ∉ (versions b k).*1;
  delete_version e b k v b' : DeleteObject e b k (Some v) = (true, b') ->
    versions b' k = filter (fun x => fst x <> v) (versions b k)
}.

(** * A bucket *)

Module Bucket.

Notation t := (gmap string (list (string * option (list Z)))).

(** Whether the call fails, before or after it took effect, and the size of a page. *)
Record behaviour := mk_behaviour { refused : bool; lost : bool; page : nat }.

Definition get (b : t) (k : string) : list (string * option (list Z)) :=
  if bool_decide (k = "") then [] else default [] (b !! k).
Definition newest (l : list (string * option (list Z))) : option (list Z) := l !! 0%nat ≫= snd.
Definition add (b : t) (k : string) (d : option (list Z)) : t := <[k := (fresh (get b k).*1, d) :: get b k]> b.
Definition sizes (b : t) : list (string * Z) :=
  omap (fun '(k, l) => if bool_decide (k = "") then None else (fun d => (k, Z.of_nat (length d))) <$> newest l) (map_to_list b).

Definition put `{Md5} (e : behaviour) (b : t) (k : string) (d : list Z) : option (string * string) * t :=
  if refused e || bool_decide (k = "") then (None, b)
  else (if lost e then None else Some (etag_of d, fresh (get b k).*1), add b k (Some d)).

Definition delete (e : behaviour) (b : t) (k : string) (v : option string) : bool * t :=
  if refused e then (false, b)
  else (negb (lost e), match v with
                       | None => add b k None
                       | Some v => <[k := filter (fun x => fst x <> v) (get b k)]> b
                       end).

Definition copy (e : behaviour) (b : t) (src dst : string) : bool * t :=
  match newest (get b src) with
  | Some d => if refused e || bool_decide (dst = "") then (false, b) else (negb (lost e), add b dst (Some d))
  | None => (false, b)
  end.

#[export] Instance s3 `{Md5} : S3 t behaviour := {|
  PutObject := put;
  GetObject e b k := if refused e then None else newest (get b k);
  HeadObject e b k := if refused e then None else (fun d => (Z.of_nat (length d), etag_of d)) <$> newest (get b k);
  DeleteObject := delete;
  CopyObject := copy;
  ListObjects e b m :=
    if refused e then None
    else let l := from_marker m (sizes b) in let n := S (page e) in Some (take n l, (n <? length l)%nat, "");
  versions := get;
  listing := sizes;
  s3_ok e := refused e = false
|}.

End Bucket.

Section bucket.
Context `{Md5}.
Import Bucket.
Implicit Types (b : Bucket.t) (k : string).

Lemma get_add b k d : k <> "" -> get (add b k d) k = (fresh (get b k).*1, d) :: get b k.
Proof. intros Hk. unfold get at 1, add. rewrite bool_decide_eq_false_2 by done. by rewrite lookup_insert_eq. Qed.

Lemma get_insert_ne b k k' l : k' <> k -> get (<[k := l]> b) k' = get b k'.
Proof. intros Hk. unfold get. case_bool_decide; [done|]. by rewrite lookup_insert_ne. Qed.

Lemma get_empty b : get b "" = [].
Proof. done. Qed.

Lemma elem_of_sizes b k n : (k, n) ∈ sizes b <-> exists d, newest (get b k) = Some d /\ n = Z.of_nat (length d).
Proof.
  unfold sizes. rewrite list_elem_of_omap. split.
  - intros ([k' l] & Hl & E). case_bool_decide; [done|]. apply fmap_Some in E as (d & Hd & [= -> ->]).
    apply elem_of_map_to_list in Hl. exists d. unfold get. by rewrite bool_decide_eq_false_2, Hl by done.
  - intros (d & Hd & ->). unfold get in Hd. case_bool_decide; [done|]. destruct (b !! k) as [l|] eqn:E; [|done].
    exists (k, l). split; [by apply elem_of_map_to_list|]. rewrite bool_decide_eq_false_2 by done. cbn in Hd. by rewrite Hd.
Qed.

Lemma sizes_keys b : NoDup (sizes b).*1 /\ "" ∉ (sizes b).*1.
Proof.
  unfold sizes. split.
  - pose proof (NoDup_fst_map_to_list b) as Hnd. induction (map_to_list b) as [|[k l] m IH]; [constructor|].
    apply NoDup_cons in Hnd as [Hk Hnd]. specialize (IH Hnd). cbn. case_bool_decide; [done|]. destruct (newest l); cbn; [|done].
    apply NoDup_cons. split; [|done]. intros (x & -> & Hx)%list_elem_of_fmap. apply Hk. apply list_elem_of_omap in Hx as ([k' l'] & Hin & E).
    case_bool_decide; [done|]. apply fmap_Some in E as (? & _ & ->). apply list_elem_of_fmap. by exists (k', l').
  - intros ([k n] & Hk & Hin)%list_elem_of_fmap. cbn in Hk. subst k. apply elem_of_sizes in Hin as (d & Hd & _). done.
Qed.

#[export] Instance bucket_laws : S3Laws Bucket.t behaviour.
Proof.
  constructor; cbn -[Nat.ltb].
  - unfold put. intros e b k d o b' E. destruct (refused e || bool_decide (k = "")) eqn:R; injection E as <- <-; [done|].
    apply orb_false_iff in R as [_ Hk%bool_decide_eq_false]. split; [intros; by apply get_insert_ne|].
    destruct (lost e); [done|]. intros tag v [= <- <-]. split; [done|]. unfold object. cbn. by rewrite get_add.
  - intros e b k d E. by destruct (refused e).
  - intros e b k n tag E. destruct (refused e); [done|]. apply fmap_Some in E as (d & Hd & [= -> ->]). by exists d.
  - unfold delete. intros e b k v r b' E k' Hk. destruct (refused e); injection E as _ <-; [done|]. destruct v; by apply get_insert_ne.
  - unfold delete. intros e b k b' r He E. rewrite He in E. injection E as _ <-. unfold object. cbn.
    destruct (decide (k = "")) as [->|Hk]; [done|]. by rewrite get_add.
  - unfold copy. intros e b src dst r b' E. destruct (newest (get b src)) as [d|] eqn:Ed; [|by injection E as <- <-].
    destruct (refused e || bool_decide (dst = "")) eqn:R; injection E as <- <-; [done|].
    apply orb_false_iff in R as [_ Hk%bool_decide_eq_false]. split; [intros; by apply get_insert_ne|]. intros _.
    unfold object. cbn. change (get b src !! 0%nat ≫= snd) with (newest (get b src)). rewrite Ed. split; [done|]. by rewrite get_add.
  - intros e b m pg tr nx E _. destruct (refused e); [done|]. injection E as <- <- <-. set (l := from_marker m (sizes b)).
    exists (drop (S (page e)) l). split; [by rewrite take_drop|]. split.
    + intros Ht%Nat.ltb_lt. split; [|by left]. destruct l; [cbn in Ht; lia|discriminate].
    + intros Ht%Nat.ltb_ge. by apply drop_ge.
  - apply sizes_keys.
  - apply elem_of_sizes.
Qed.

#[export] Instance bucket_versioned : S3Versioned Bucket.t behaviour.
Proof.
  constructor; cbn.
  - unfold put. intros e b k d tag v b' E. destruct (refused e || bool_decide (k = "")) eqn:R; [done|].
    apply orb_false_iff in R as [_ Hk%bool_decide_eq_false]. destruct (lost e); [done|]. injection E as _ <- <-. rewrite get_add by done.
    split; [done|]. apply infinite_is_fresh.
  - unfold delete. intros e b k v b' E. destruct (refused e); [done|]. injection E as _ <-. unfold get at 1.
    case_bool_decide; [by subst|]. by rewrite lookup_insert_eq.
Qed.
End bucket.
