(* ===== verification/AwsContainer.v ===== *)
(** The S3 container ([src/agent/container/aws_s3.cc]; [generic_s3.cc] derives from it
    without changes): a chunk is an object in a bucket under its name, checksums are the
    tags that the service returns, and a put is reverted by removing the version it made.

    Every call to the service gets its own behaviour: [e i] is that of the [i]-th call of
    an operation.  The set-up of the client and of the bucket is not modelled. *)

From Stdlib Require String.
From S2P Require Import Prelude DS Checksum Container S3.

#[local] Open Scope Z_scope.

Module AwsContainer.
Import ChecksumCalculator.

Definition OBJ_PATH_MAX : nat := 128.
Definition CHUNK_VERSION_MAX_LEN : nat := 128.

Section container.
Context `{Md5, UuidPrinter} {B E : Type} `{S3 B E}.
Context (verifyChunkChecksum : bool).

Record t := mk { _id : Z; _capacity : Z; _usage : Z; _bucket : B }.

Definition set_bucket (s : t) (b : B) : t := mk (_id s) (_capacity s) (_usage s) b.

(** The name is printed into a buffer of [OBJ_PATH_MAX] bytes before its length is looked
    at; [object_path_fits] shows that names of chunks fit. *)
Definition genObjectPath (name : string) : option string :=
  if (String.length name <? OBJ_PATH_MAX)%nat then Some name else None.

(** The tag without its quotes; [substr] throws on an empty tag. *)
Definition unquote (etag : string) : option string :=
  match etag with
  | EmptyString => None
  | String _ r => Some (String.substring 0 (String.length etag - 2) r)
  end.

(** For an empty tag the code throws while it prints the mismatch; S3 has no such tags. *)
Definition compareChecksum (etag : string) (md5 : list Z) : bool :=
  bool_decide (unquote etag = Some (toHex md5)).

Definition copyChecksum (etag : string) (md5 : list Z) : list Z :=
  match unquote etag with
  | Some hash => snd (unHex hash md5)
  | None => md5
  end.

Definition set_md5 (c : Chunk.t) (m : list Z) : Chunk.t :=
  Chunk.mk (Chunk.namespaceId c) (Chunk.fuuid c) (Chunk.chunkId c) (Chunk.data c) (Chunk.size c) (Chunk.freeData c)
    (Chunk.fileVersion c) (Chunk.chunkVersion c) m.

(** [snprintf] with [CHUNK_VERSION_MAX_LEN - 1]. *)
Definition kept_version (v : string) : string := String.substring 0 (CHUNK_VERSION_MAX_LEN - 2) v.

Definition putChunk (e : nat -> E) (s : t) (c : Chunk.t) : bool * t * Chunk.t :=
  match genObjectPath (Chunk.getChunkName c) with
  | None => (false, s, c)
  | Some opath =>
      let (outcome, b) := PutObject (e 0%nat) (_bucket s) opath (Chunk.bytes c) in
      let s := set_bucket s b in
      match outcome with
      | Some (etag, v) =>
          if negb verifyChunkChecksum || compareChecksum etag (Chunk.md5 c) then
            let c := Chunk.set_chunkVersion c (kept_version v) in
            (true, s, set_md5 c (copyChecksum etag (Chunk.md5 c)))
          else (false, s, c)
      | None => (false, s, c)
      end
  end.

Definition getChunk (e : nat -> E) (s : t) (c : Chunk.t) (skipVerification : bool) : bool * Chunk.t :=
  match genObjectPath (Chunk.getChunkName c) with
  | None => (false, c)
  | Some opath =>
      match GetObject (e 0%nat) (_bucket s) opath with
      | Some d =>
          let c := Chunk.set_buffer c (Some d) (i32 (Z.of_nat (length d))) (Chunk.freeData c) in
          (skipVerification || negb verifyChunkChecksum || Chunk.verifyMD5 c, c)
      | None => (false, c)
      end
  end.

(** The result of the call is not looked at. *)
Definition deleteChunk (e : E) (s : t) (c : Chunk.t) : bool * t :=
  match genObjectPath (Chunk.getChunkName c) with
  | None => (false, s)
  | Some opath => (true, set_bucket s (snd (DeleteObject e (_bucket s) opath None)))
  end.

Definition copyChunk (e : nat -> E) (s : t) (src dst : Chunk.t) : bool * t * Chunk.t :=
  match genObjectPath (Chunk.getChunkName src), genObjectPath (Chunk.getChunkName dst) with
  | Some sopath, Some dopath =>
      let (okay, b) := CopyObject (e 0%nat) (_bucket s) sopath dopath in
      let s := set_bucket s b in
      if okay then
        match HeadObject (e 1%nat) (_bucket s) dopath with
        | Some (len, etag) =>
            let dst := Chunk.set_size dst (i32 len) in
            let dst := set_md5 dst (copyChecksum etag (Chunk.md5 dst)) in
            if negb verifyChunkChecksum || compareChecksum etag (Chunk.md5 src) then (true, s, dst)
            else (false, snd (deleteChunk (e 2%nat) s dst), dst)
        | None => (false, snd (deleteChunk (e 2%nat) s dst), dst)
        end
      else (false, s, dst)
  | _, _ => (false, s, dst)
  end.

Definition moveChunk (e : nat -> E) (s : t) (src dst : Chunk.t) : bool * t * Chunk.t :=
  match copyChunk e s src dst with
  | (true, s, dst) => let (okay, s) := deleteChunk (e 3%nat) s src in (okay, s, dst)
  | (false, s, dst) => (false, s, dst)
  end.

Definition hasChunk (e : nat -> E) (s : t) (c : Chunk.t) : bool :=
  match genObjectPath (Chunk.getChunkName c) with
  | None => false
  | Some opath =>
      match HeadObject (e 0%nat) (_bucket s) opath with
      | Some (len, etag) => (len =? Chunk.size c) && (negb verifyChunkChecksum || compareChecksum etag (Chunk.md5 c))
      | None => false
      end
  end.

Definition revertChunk (e : nat -> E) (s : t) (c : Chunk.t) : bool * t :=
  match genObjectPath (Chunk.getChunkName c) with
  | None => (false, s)
  | Some opath =>
      let (okay, b) := DeleteObject (e 0%nat) (_bucket s) opath (Some (Chunk.chunkVersion c)) in
      (okay, set_bucket s b)
  end.

Definition verifyChunk (e : nat -> E) (s : t) (c : Chunk.t) : bool :=
  match genObjectPath (Chunk.getChunkName c) with
  | None => false
  | Some opath =>
      match HeadObject (e 0%nat) (_bucket s) opath with
      | Some (_, etag) => compareChecksum etag (Chunk.md5 c)
      | None => false
      end
  end.

(** The pages from [marker] on, where [i] were read before; [None] when [fuel] pages were
    not enough, [Some None] when a request failed. *)
Fixpoint list_pages (fuel : nat) (e : nat -> E) (s : t) (i : nat) (marker : string) (total : Z) : option (option Z) :=
  match fuel with
  | O => None
  | S fuel =>
      match ListObjects (e i) (_bucket s) marker with
      | None => Some None
      | Some (page, truncated, next) =>
          let total := foldl (fun n x => u64 (n + snd x)) total page in
          if truncated then
            let next := if bool_decide (next = ""%string) then default ""%string (fst <$> last page) else next in
            list_pages fuel e s (i + 1) next total
          else Some (Some total)
      end
  end.

(** Every page has an object, so there are no more pages than objects. *)
Definition getTotalSize (e : nat -> E) (s : t) : option (option Z) := list_pages (S (length (listing (_bucket s)))) e s 0 "" 0.

Definition updateUsage (e : nat -> E) (s : t) : t :=
  match getTotalSize e s with
  | Some (Some total) => mk (_id s) (_capacity s) total (_bucket s)
  | _ => s
  end.

End container.
Arguments t : clear implicits.
End AwsContainer.

Definition aws_container `{Md5, UuidPrinter} {B E : Type} `{S3 B E} (verify : bool) : Container (AwsContainer.t B) (nat -> E) := {|
  putChunk := AwsContainer.putChunk verify;
  getChunk := AwsContainer.getChunk verify;
  deleteChunk e := AwsContainer.deleteChunk (e 0%nat);
  copyChunk := AwsContainer.copyChunk verify;
  moveChunk := AwsContainer.moveChunk verify;
  hasChunk := AwsContainer.hasChunk verify;
  revertChunk := AwsContainer.revertChunk;
  verifyChunk := AwsContainer.verifyChunk;
  updateUsage := AwsContainer.updateUsage;
  getUsage := AwsContainer._usage;
  getCapacity := AwsContainer._capacity;
  getId := AwsContainer._id;
  holds s c := object (AwsContainer._bucket s) (Chunk.getChunkName c);
  env_ok e := forall i, s3_ok (e i)
|}.
