(* ===== verification/AwsTheorems.v ===== *)
(** Correctness of the S3 container: it implements the container interface on every object
    store that behaves as S3 is documented, a put can be reverted, and the usage is the
    size of all objects. *)

From stdpp Require Import pretty.
From Stdlib Require String.
From S2P Require Import Prelude DS Checksum Container S3 AwsContainer.

#[local] Open Scope Z_scope.

Import ChecksumCalculator.

(** ** Names and checksums *)

Lemma substring_app a b : String.substring 0 (String.length a) (a +:+ b) = a.
Proof. induction a as [|x a IH]; [by destruct b|]. change (String x a +:+ b) with (String x (a +:+ b)). cbn [String.substring String.length]. by rewrite IH. Qed.

Lemma substring_whole n s : (String.length s <= n)%nat -> String.substring 0 n s = s.
Proof. revert n. induction s as [|x s IH]; intros [|n] Hn; cbn in *; try done; try lia. by rewrite IH by lia. Qed.

Lemma unquote_quoted s : AwsContainer.unquote (quoted s) = Some s.
Proof.
  unfold AwsContainer.unquote, quoted. cbn [String.length]. rewrite string_length_app. cbn [String.length].
  replace (S (String.length s + 1) - 2)%nat with (String.length s) by lia. by rewrite substring_app.
Qed.

(** The checksum in a tag is that of the object. *)
Lemma compare_etag `{Md5} d m : (forall x, Forall (fun b => 0 <= b < 256) (MD5 x)) -> Forall (fun b => 0 <= b < 256) m ->
  AwsContainer.compareChecksum (etag_of d) m = bool_decide (MD5 d = m).
Proof.
  intros Hmd Hm. unfold AwsContainer.compareChecksum, etag_of. rewrite unquote_quoted. apply bool_decide_ext. split; [|by intros ->].
  intros [= E]. by apply toHex_inj.
Qed.

(** The printed name of a chunk fits into the buffer. *)
Lemma object_path_fits `{UuidPrinter} c : String.length (uuid_to_string (Chunk.fuuid c)) = 36%nat ->
  0 <= Chunk.namespaceId c < 256 -> -2147483648 <= Chunk.fileVersion c < 2147483648 -> -2147483648 <= Chunk.chunkId c < 2147483648 ->
  AwsContainer.genObjectPath (Chunk.getChunkName c) = Some (Chunk.getChunkName c).
Proof.
  intros Hu Hns Hv Hid. unfold AwsContainer.genObjectPath, Chunk.getChunkName. rewrite !string_length_app, Hu.
  pose proof (length_pretty (Chunk.namespaceId c) ltac:(lia)). pose proof (length_pretty _ Hv). pose proof (length_pretty _ Hid).
  rewrite (proj2 (Nat.ltb_lt _ _)); [done|]. unfold AwsContainer.OBJ_PATH_MAX. cbn [String.length]. lia.
Qed.

(** ** The container interface *)

Section laws.
Context `{Md5, UuidPrinter} {B E : Type} `{HS : S3 B E} `{HL : !S3Laws B E}.
Context (verify : bool).
Import AwsContainer.
Implicit Types (s : t B) (c : Chunk.t) (e : nat -> E).
Notation name := Chunk.getChunkName.
Notation held s c := (object (_bucket s) (name c)).

Lemma genObjectPath_same n p : genObjectPath n = Some p -> p = n.
Proof using. unfold genObjectPath. case_match; by intros [= <-]. Qed.

Lemma object_same b b' k : versions b' k = versions b k -> object b' k = object b k.
Proof using. unfold object. by intros ->. Qed.

(** The cases of an operation on one object. *)
Ltac path := unfold putChunk, getChunk, deleteChunk, hasChunk, revertChunk, verifyChunk in *;
  match goal with
  | Hop : context [genObjectPath ?n] |- _ => let p := fresh "p" in let Hp := fresh "Hp" in
      destruct (genObjectPath n) as [p|] eqn:Hp; [apply genObjectPath_same in Hp as ->|by simplify_eq]
  end.

Lemma put_cases e s c r s' c' : putChunk verify e s c = (r, s', c') ->
  (forall d, name d <> name c -> held s' d = held s d) /\ same_chunk c c' /\ (r = true -> held s' c = Some (Chunk.bytes c)).
Proof using HL.
  intros Hop. path. destruct (PutObject _ _ _ _) as [o b] eqn:Eo. apply put_effect in Eo as [Hf Hs].
  assert (forall d, name d <> name c -> object b (name d) = object (_bucket s) (name d)) as Hframe
    by (intros; by apply object_same, Hf).
  destruct o as [[etag v]|]; [|by injection Hop as <- <- <-]. destruct (Hs _ _ eq_refl) as [-> Hob].
  destruct (_ || _); injection Hop as <- <- <-; by split_and!.
Qed.

Lemma delete_cases (e : E) s c r s' : deleteChunk e s c = (r, s') ->
  (forall d, name d <> name c -> held s' d = held s d) /\ (s3_ok e -> r = true -> held s' c = None).
Proof using HL.
  intros Hop. path. destruct (DeleteObject _ _ _ _) as [o b] eqn:Eo. injection Hop as <- <-. cbn. split.
  - intros d Hd. eapply object_same, delete_effect; [exact Eo|done].
  - intros He _. by eapply delete_ok.
Qed.

Lemma copy_cases e s src dst r s' dst' : copyChunk verify e s src dst = (r, s', dst') ->
  (forall d, name d <> name dst -> held s' d = held s d) /\ name dst' = name dst /\
  (r = true -> is_Some (held s src) /\ held s' dst = held s src).
Proof using HL.
  unfold copyChunk. destruct (genObjectPath (name src)) as [p|] eqn:Hp; [apply genObjectPath_same in Hp as ->|by intros [= <- <- <-]].
  destruct (genObjectPath (name dst)) as [p|] eqn:Hp; [apply genObjectPath_same in Hp as ->|by intros [= <- <- <-]].
  destruct (CopyObject _ _ _ _) as [o b] eqn:Eo. apply copy_effect in Eo as [Hf Hs].
  assert (forall d, name d <> name dst -> object b (name d) = object (_bucket s) (name d)) as Hframe
    by (intros; by apply object_same, Hf).
  destruct o; [|by intros [= <- <- <-]]. specialize (Hs eq_refl). cbn [_bucket set_bucket].
  assert (forall c' d, name c' = name dst -> name d <> name dst -> held (snd (deleteChunk (e 2%nat) (set_bucket s b) c')) d = held s d) as Hdel.
  { intros c' d Hc Hd. destruct (deleteChunk _ _ _) as [r2 s2] eqn:Ed. apply delete_cases in Ed as [Hf2 _]. cbn.
    rewrite Hf2 by (by rewrite Hc). by apply Hframe. }
  destruct (HeadObject _ _ _) as [[len etag]|]; [|intros [= <- <- <-]; split_and!; [|done|done]; intros; by apply Hdel].
  destruct (_ || _); intros [= <- <- <-]; (split_and!; [|done|done]); [done|]. intros; by apply Hdel.
Qed.

Lemma aws_laws : @ContainerLaws (t B) (nat -> E) _ (aws_container verify).
Proof using HL.
  constructor; cbn.
  - intros s c d E1. by rewrite E1.
  - intros e s c s' c' E1 _. by apply put_cases in E1 as (_ & _ & Hs); apply Hs.
  - intros e s c r s' c' d E1 _ Hd. by apply put_cases in E1 as (Hf & _); apply Hf.
  - intros e s c r s' c' E1 _. by apply put_cases in E1 as (_ & Hs & _).
  - intros e s c skip Hc. unfold getChunk. destruct (genObjectPath _) as [p|] eqn:Hp; [apply genObjectPath_same in Hp as ->|done].
    destruct (GetObject _ _ _) as [d|] eqn:Eg; [|done]. apply get_effect in Eg. congruence.
  - intros e s c skip b c' _ Hc Hb. unfold getChunk. destruct (genObjectPath _) as [p|] eqn:Hp; [apply genObjectPath_same in Hp as ->|done].
    destruct (GetObject _ _ _) as [d|] eqn:Eg; [|done]. apply get_effect in Eg. assert (d = b) as -> by congruence.
    intros [= _ <-]. cbn. rewrite i32_small by lia. by split_and!.
  - intros e s c s' He E1. apply delete_cases in E1 as [_ Hs]. by apply Hs.
  - intros e s c r s' d E1 Hd. by apply delete_cases in E1 as [Hf _]; apply Hf.
  - intros e s src dst s' dst' He Hne. unfold moveChunk. destruct (copyChunk _ _ _ _ _) as [[[] s1] dst1] eqn:Ec; [|done].
    destruct (deleteChunk _ _ _) as [r s2] eqn:Ed. intros [= -> <- <-].
    apply copy_cases in Ec as (_ & _ & Hc). destruct (Hc eq_refl) as [Hsome Hdst]. apply delete_cases in Ed as [Hf Hdel].
    split; [done|]. split; [by rewrite Hf by congruence|]. by apply Hdel.
  - intros e s src dst r s' dst' d. unfold moveChunk. destruct (copyChunk _ _ _ _ _) as [[[] s1] dst1] eqn:Ec; apply copy_cases in Ec as (Hf & _).
    + destruct (deleteChunk _ _ _) as [r2 s2] eqn:Ed. apply delete_cases in Ed as [Hf2 _]. intros [= <- <- <-] H1' H2'. rewrite Hf2 by done. by apply Hf.
    + intros [= <- <- <-] _ H2'. by apply Hf.
  - intros e s src dst s' dst' _ _ _ E1. apply copy_cases in E1 as (_ & _ & Hs). by apply Hs.
  - intros e s src dst r s' dst' d E1 Hd. by apply copy_cases in E1 as (Hf & _); apply Hf.
  - intros e s c. unfold hasChunk. destruct (genObjectPath _) as [p|] eqn:Hp; [apply genObjectPath_same in Hp as ->|done].
    destruct (HeadObject _ _ _) as [[len etag]|] eqn:Eh; [|done]. apply head_effect in Eh as (d & Hd & -> & _).
    intros [Hl%Z.eqb_eq _]%andb_true_iff. by exists d.
  - intros e s c r s' d. unfold revertChunk. destruct (genObjectPath _) as [p|] eqn:Hp; [apply genObjectPath_same in Hp as ->|by intros [= _ <-]].
    destruct (DeleteObject _ _ _ _) as [o b] eqn:Eo. intros [= _ <-] Hd. cbn. eapply object_same, delete_effect; [exact Eo|done].
Qed.

(** ** Usage *)

Lemma after_app l1 x l2 : fst x ∉ l1.*1 -> after (fst x) (l1 ++ x :: l2) = l2.
Proof using.
  induction l1 as [|y l1 IH]; cbn; intros Hx; [by rewrite bool_decide_eq_true_2|].
  apply not_elem_of_cons in Hx as [Hy Hx]. rewrite bool_decide_eq_false_2 by congruence. by apply IH.
Qed.

Definition total_of (l : list (string * Z)) (n : Z) : Z := foldl (fun n x => u64 (n + snd x)) n l.

(** The loop over the pages reads the rest of the listing. *)
Lemma list_pages_rest e s seen rest : forall fuel i m n,
  listing (_bucket s) = seen ++ rest -> from_marker m (listing (_bucket s)) = rest -> m = "" \/ m ∈ (listing (_bucket s)).*1 ->
  (length rest < fuel)%nat ->
  list_pages fuel e s i m n = Some None \/ list_pages fuel e s i m n = Some (Some (total_of rest n)).
Proof using HL.
  remember (length rest) as k eqn:Ek. revert seen rest Ek.
  induction (lt_wf k) as [k _ IH]. intros seen rest -> fuel i m n Hl Hm Hmk Hf. destruct fuel as [|fuel]; [lia|]. cbn [list_pages].
  destruct (ListObjects _ _ _) as [[[page tr] next]|] eqn:El; [|by left].
  apply list_effect in El as (more & Hp & Ht & Hfin); [|done]. rewrite Hm in Hp. clear Hm. subst rest.
  destruct tr; [|right; rewrite Hfin by done; by rewrite app_nil_r].
  destruct (Ht eq_refl) as [Hne Hnext]. destruct (exists_last Hne) as (pg & x & ->). rewrite last_snoc in *.
  assert ((if bool_decide (next = "") then default "" (fst <$> Some x) else next) = fst x) as ->.
  { destruct Hnext as [->|[= ->]]; [done|]. by case_bool_decide. }
  destruct (listing_keys (_bucket s)) as [Hnd Hemp]. rewrite Hl in Hnd. rewrite length_app, length_app in Hf. cbn [length] in Hf.
  assert (fst x ∈ (listing (_bucket s)).*1) as Hin.
  { rewrite Hl. apply list_elem_of_fmap. exists x. set_solver. }
  unfold total_of. rewrite (foldl_app _ (pg ++ [x])). fold (total_of (pg ++ [x]) n). fold (total_of more (total_of (pg ++ [x]) n)).
  apply (IH (length more)) with (seen := seen ++ pg ++ [x]); try done; [rewrite !length_app; cbn; lia|by rewrite Hl, !app_assoc| | |lia].
  - unfold from_marker. rewrite bool_decide_eq_false_2 by (intros E1; by rewrite E1 in Hin). rewrite Hl.
    replace (seen ++ (pg ++ [x]) ++ more) with ((seen ++ pg) ++ x :: more) by (by rewrite <- !app_assoc).
    apply after_app. intros Hx. replace (seen ++ (pg ++ [x]) ++ more) with ((seen ++ pg) ++ x :: more) in Hnd by (by rewrite <- !app_assoc).
    rewrite fmap_app, fmap_cons in Hnd. apply NoDup_app in Hnd as (_ & Hd & _). by apply (Hd _ Hx), list_elem_of_here.
  - by right.
Qed.

Lemma total_size e s : getTotalSize e s = Some None \/ getTotalSize e s = Some (Some (total_of (listing (_bucket s)) 0)).
Proof using HL. apply (list_pages_rest e s [] (listing (_bucket s))); [done|done|by left|lia]. Qed.
End laws.

Lemma filter_absent {A} (v : string) (l : list (string * A)) : v ∉ l.*1 -> filter (fun x => fst x <> v) l = l.
Proof.
  induction l as [|x l IH]; [done|]. intros [Hx Hl]%not_elem_of_cons. rewrite filter_cons_True by (intros E; by apply Hx).
  by rewrite IH.
Qed.

(** * The theorems *)

(** C23: The S3 container implements the container interface on every object store that
    behaves as S3 is documented: what is proved of the container manager and the agent for
    any container holds for it.  An update of the usage ends, and either keeps the old
    figure, when a request for the listing fails, or sets it to the size of all objects,
    however the service cuts the listing into pages. *)
Theorem aws_implements_container `{Md5, UuidPrinter} {B E : Type} `{HS : S3 B E} `{HL : !S3Laws B E} (verify : bool) :
  @ContainerLaws (AwsContainer.t B) (nat -> E) _ (aws_container verify) /\
  (forall (e : nat -> E) s, let s' := AwsContainer.updateUsage e s in
     AwsContainer._bucket s' = AwsContainer._bucket s /\
     (AwsContainer._usage s' = AwsContainer._usage s \/ AwsContainer._usage s' = total_of (listing (AwsContainer._bucket s)) 0)) /\
  (forall (e : nat -> E) s, is_Some (AwsContainer.getTotalSize e s)).
Proof.
  split; [apply aws_laws|]. split.
  - intros e s. unfold AwsContainer.updateUsage. destruct (total_size e s) as [-> | ->]; cbn; auto.
  - intros e s. destruct (total_size e s) as [-> | ->]; by eexists.
Qed.

(** C24: A put into an S3 bucket that keeps versions can be reverted: when the put and then
    the revert of the chunk it returned succeed, the object has exactly the versions it had
    before the put, so that the chunk reads as before, or is absent if it was, and no other
    chunk has changed.  The version ids of the service must fit into the field of the
    chunk. *)
Theorem aws_put_revert `{Md5, UuidPrinter} {B E : Type} `{HS : S3 B E} `{HL : !S3Laws B E} `{HV : !S3Versioned B E}
    verify (e e' : nat -> E) (s s' s2 : AwsContainer.t B) c c' :
  (forall tag v b, PutObject (e 0%nat) (AwsContainer._bucket s) (Chunk.getChunkName c) (Chunk.bytes c) = (Some (tag, v), b) ->
     (String.length v <= 126)%nat) ->
  AwsContainer.putChunk verify e s c = (true, s', c') -> AwsContainer.revertChunk e' s' c' = (true, s2) ->
  versions (AwsContainer._bucket s2) (Chunk.getChunkName c) = versions (AwsContainer._bucket s) (Chunk.getChunkName c) /\
  forall d, @holds _ _ (aws_container verify) s2 d = @holds _ _ (aws_container verify) s d.
Proof.
  intros Hlen Hput Hrev. pose proof (put_cases verify _ _ _ _ _ _ Hput) as (Hf & (Hn & _) & _).
  unfold AwsContainer.putChunk in Hput. destruct (AwsContainer.genObjectPath _) as [p|] eqn:Hp; [|done].
  pose proof (genObjectPath_same _ _ Hp) as ->. destruct (PutObject _ _ _ _) as [[[tag v]|] b] eqn:Eo; [|done].
  pose proof (put_version _ _ _ _ _ _ _ Eo) as [Hv Hfresh]. specialize (Hlen _ _ _ eq_refl).
  destruct (_ || _); [|done]. injection Hput as <- <-. unfold AwsContainer.revertChunk in Hrev. rewrite Hn, Hp in Hrev.
  destruct (DeleteObject _ _ _ _) as [r b2] eqn:Ed. injection Hrev as -> <-. cbn in Ed. unfold AwsContainer.kept_version in Ed.
  rewrite substring_whole in Ed by (unfold AwsContainer.CHUNK_VERSION_MAX_LEN; lia).
  pose proof (delete_effect _ _ _ _ _ _ Ed) as Hd. apply delete_version in Ed. rewrite Hv in Ed.
  assert (versions b2 (Chunk.getChunkName c) = versions (AwsContainer._bucket s) (Chunk.getChunkName c)) as Hsame.
  { rewrite Ed, filter_cons_False by (intros Hx; by apply Hx). by apply filter_absent. }
  split; [exact Hsame|]. intros d. cbn. unfold object. destruct (decide (Chunk.getChunkName d = Chunk.getChunkName c)) as [-> | Hne]; [by rewrite Hsame|].
  specialize (Hf d Hne). cbn in Hf. unfold object in Hf. by rewrite (Hd _ Hne).
Qed.

(** * Witnesses *)

Module AwsSample.
Import AwsContainer.

#[local] Instance sum_md5 : Md5 := fun l => [foldr Z.add 0 l mod 256].
#[local] Existing Instances decimal_uuid Bucket.s3.

Definition fine : nat -> Bucket.behaviour := fun _ => Bucket.mk_behaviour false false 0.
Definition chunk (d : list Z) : Chunk.t :=
  Chunk.mk 1 7 0 (Some d) (Z.of_nat (length d)) true 0 "" (MD5 d).
Definition empty : t Bucket.t := mk 3 1000 0 ∅.
Definition one : t Bucket.t := snd (fst (putChunk true fine empty (chunk [1; 2; 3]))).
Definition two : bool * t Bucket.t * Chunk.t := putChunk true fine one (chunk [4; 5]).

Lemma aws_implements_container_witness :
  @ContainerLaws (t Bucket.t) (nat -> Bucket.behaviour) _ (aws_container true) /\ _usage (updateUsage fine one) = 3.
Proof. split; [apply (aws_implements_container true)|reflexivity]. Defined.

(** The second version of a chunk is put and reverted. *)
Lemma aws_put_revert_witness :
  exists s2, revertChunk fine (snd (fst two)) (snd two) = (true, s2) /\ object (_bucket s2) (Chunk.getChunkName (chunk [4; 5])) = Some [1; 2; 3].
Proof.
  destruct (revertChunk fine (snd (fst two)) (snd two)) as [r s2] eqn:Er.
  assert (r = true) as -> by (apply (f_equal fst) in Er; vm_compute in Er; by symmetry).
  exists s2. split; [done|].
  destruct (aws_put_revert true fine fine one (snd (fst two)) s2 (chunk [4; 5]) (snd two)) as [_ Hr].
  - intros tag v b E. apply (f_equal fst) in E. vm_compute in E. injection E as _ <-. vm_compute. lia.
  - vm_compute. reflexivity.
  - exact Er.
  - etrans; [exact (Hr (chunk [4; 5]))|vm_compute; reflexivity].
Defined.
End AwsSample.
