(* ===== verification/AliContainer.v ===== *)
(** The container on Alibaba Cloud ([src/agent/container/alicloud.cc]).  The client library
    is a class, [Oss]: a call gives what the headers of its reply hold, or fails.  Writes
    beyond a buffer are [Undef].

    The theorems: without verification of checksums a chunk that was put is read back and
    nothing else changes; with it every successful upload overruns a buffer; and a chunk
    that cannot be read is reported as read. *)

From stdpp Require Import pretty.
From Stdlib Require String.
From S2P Require Import Prelude DS Wire AwsContainer AwsTheorems.

#[local] Open Scope Z_scope.
#[local] Open Scope outcome_scope.

(** Headers of a reply: the length and the MD5 of the object. *)
Record headers := mk_headers { content_length : option Z; content_md5 : option string }.

(** [encode] and [decode] are the base64 functions of the library. *)
Class Oss (B E : Type) := {
  oss_put_object_from_buffer : E -> B -> string -> list Z -> option headers * B;
  oss_get_object_to_buffer : E -> B -> string -> option (list (list Z));   (* the pieces of the object *)
  oss_delete_object : E -> B -> string -> bool * B;
  oss_copy_object : E -> B -> string -> string -> bool * B;
  oss_head_object : E -> B -> string -> bool * headers;
  oss_get_bucket_stat : E -> B -> option Z;
  aos_base64_encode : list Z -> list Z;
  apr_base64_decode_binary : list Z -> list Z;
  stored : B -> string -> option (list Z)
}.

Class OssLaws (B E : Type) `{Oss B E} : Prop := {
  oss_put e b k d o b' : oss_put_object_from_buffer e b k d = (o, b') ->
    (forall k', k' <> k -> stored b' k' = stored b k') /\ (is_Some o -> stored b' k = Some d);
  oss_get e b k l : oss_get_object_to_buffer e b k = Some l -> stored b k = Some (concat l);
  oss_delete e b k r b' : oss_delete_object e b k = (r, b') -> forall k', k' <> k -> stored b' k' = stored b k';
  aos_base64_length l : length (aos_base64_encode l) = (4 * ((length l + 2) / 3))%nat
}.

Module AliContainer.

Section container.
Context `{Md5, UuidPrinter} {B E : Type} `{Oss B E}.
Context (verifyChunkChecksum : bool).

Record t := mk { _id : Z; _capacity : Z; _usage : Z; _bucket : B }.

Definition set_bucket (s : t) (b : B) : t := mk (_id s) (_capacity s) (_usage s) b.

Definition genObjectPath (name : string) : option string := AwsContainer.genObjectPath name.

(** The text and the zero after it go to a buffer of [MD5_DIGEST_LENGTH] bytes.  A missing
    header is a null pointer. *)
Definition compareChecksum (hash : option string) (md5 : list Z) : outcome bool :=
  let text := aos_base64_encode md5 in
  if (MD5_DIGEST_LENGTH <? length text + 1)%nat then Undef
  else match hash with
       | Some h => Ok (bool_decide (string_bytes h = text))
       | None => Undef
       end.

Definition copyChecksum (hash : option string) (md5 : list Z) : outcome (list Z) :=
  match hash with
  | None => Ok md5
  | Some h =>
      if (24 <? String.length h)%nat then Ok md5
      else
        let d := apr_base64_decode_binary (string_bytes h) in
        if (length md5 <? length d)%nat then Undef else Ok (d ++ drop (length d) md5)
  end.

Definition putChunk (e : nat -> E) (s : t) (c : Chunk.t) : outcome (bool * t * Chunk.t) :=
  match genObjectPath (Chunk.getChunkName c) with
  | None => Ok (false, s, c)
  | Some opath =>
      let (status, b) := oss_put_object_from_buffer (e 0%nat) (_bucket s) opath (Chunk.bytes c) in
      let s := set_bucket s b in
      match status with
      | Some h =>
          let* success := if verifyChunkChecksum then compareChecksum (content_md5 h) (Chunk.md5 c) else Ok true in
          let* m := copyChecksum (content_md5 h) (Chunk.md5 c) in
          Ok (success, s, AwsContainer.set_md5 c m)
      | None => Ok (false, s, c)
      end
  end.

(** A request that fails leaves the verdict at true. *)
Definition getChunk (e : nat -> E) (s : t) (c : Chunk.t) (skipVerification : bool) : bool * Chunk.t :=
  match genObjectPath (Chunk.getChunkName c) with
  | None => (false, c)
  | Some opath =>
      match oss_get_object_to_buffer (e 0%nat) (_bucket s) opath with
      | Some pieces =>
          let d := concat pieces in
          let c := Chunk.set_buffer c (Some d) (i32 (Z.of_nat (length d))) (Chunk.freeData c) in
          (if negb skipVerification && verifyChunkChecksum then Chunk.verifyMD5 c else true, c)
      | None => (true, c)
      end
  end.

Definition deleteChunk (e : E) (s : t) (c : Chunk.t) : bool * t :=
  match genObjectPath (Chunk.getChunkName c) with
  | None => (false, s)
  | Some opath => (true, set_bucket s (snd (oss_delete_object e (_bucket s) opath)))
  end.

Definition copyChunk (e : nat -> E) (s : t) (src dst : Chunk.t) : outcome (bool * t * Chunk.t) :=
  match genObjectPath (Chunk.getChunkName src), genObjectPath (Chunk.getChunkName dst) with
  | Some sopath, Some dopath =>
      let (okay, b) := oss_copy_object (e 0%nat) (_bucket s) sopath dopath in
      let s := set_bucket s b in
      if okay then
        let (okay, h) := oss_head_object (e 1%nat) (_bucket s) dopath in
        let* okay := if okay && verifyChunkChecksum then compareChecksum (content_md5 h) (Chunk.md5 src) else Ok okay in
        if okay then
          match content_length h with
          | Some len =>
              let* m := copyChecksum (content_md5 h) (Chunk.md5 dst) in
              Ok (true, s, AwsContainer.set_md5 (Chunk.set_size dst (i32 len)) m)
          | None => Undef
          end
        else Ok (false, snd (deleteChunk (e 2%nat) s dst), dst)
      else Ok (false, s, dst)
  | _, _ => Ok (false, s, dst)
  end.

Definition moveChunk (e : nat -> E) (s : t) (src dst : Chunk.t) : outcome (bool * t * Chunk.t) :=
  let* (okay, s, dst) := copyChunk e s src dst in
  if okay : bool then let (okay, s) := deleteChunk (e 3%nat) s src in Ok (okay, s, dst) else Ok (false, s, dst).

Definition checkChunk (e : nat -> E) (s : t) (c : Chunk.t) (forceChecksumCheck checksumOnly : bool) : outcome bool :=
  match genObjectPath (Chunk.getChunkName c) with
  | None => Ok false
  | Some opath =>
      let (okay, h) := oss_head_object (e 0%nat) (_bucket s) opath in
      if okay && (checksumOnly || match content_length h with Some len => i32 len =? Chunk.size c | None => false end) then
        if negb verifyChunkChecksum && negb forceChecksumCheck then Ok true else compareChecksum (content_md5 h) (Chunk.md5 c)
      else Ok false
  end.

Definition hasChunk (e : nat -> E) (s : t) (c : Chunk.t) : outcome bool := checkChunk e s c false false.
Definition verifyChunk (e : nat -> E) (s : t) (c : Chunk.t) : outcome bool := checkChunk e s c true true.

(** Not supported. *)
Definition revertChunk (s : t) (c : Chunk.t) : bool * t := (false, s).

Definition getTotalSize (e : E) (s : t) : option Z := oss_get_bucket_stat e (_bucket s).

Definition updateUsage (e : E) (s : t) : t :=
  match getTotalSize e s with
  | Some total => mk (_id s) (_capacity s) total (_bucket s)
  | None => s
  end.

End container.
Arguments t : clear implicits.
End AliContainer.

(** * Theorems *)

Section theorems.
Context `{Md5, UuidPrinter} {B E : Type} `{HO : Oss B E} `{HL : !OssLaws B E}.
Import AliContainer.
Implicit Types (s : t B) (c : Chunk.t) (e : nat -> E).
Notation name := Chunk.getChunkName.

(** A chunk that is put without verification of checksums is read back from what the
    service stores, and no other chunk changes. *)
Theorem ali_put_get e e' s c s' c' c2 : putChunk false e s c = Ok (true, s', c') ->
  Z.of_nat (length (Chunk.bytes c)) < 2147483648 -> is_Some (oss_get_object_to_buffer (e' 0%nat) (_bucket s') (name c)) ->
  name c2 = name c -> exists r, getChunk false e' s' c2 false = (true, r) /\ Chunk.data r = Some (Chunk.bytes c) /\
  forall d, name d <> name c -> stored (_bucket s') (name d) = stored (_bucket s) (name d).
Proof using HL.
  unfold putChunk. intros Hput Hlen [l Hl] Hn. destruct (genObjectPath (name c)) as [p|] eqn:Hp; [|done].
  pose proof (genObjectPath_same _ _ Hp) as ->.
  destruct (oss_put_object_from_buffer _ _ _ _) as [[h|] b] eqn:Eo; [|done]. apply oss_put in Eo as [Hf Hs].
  cbn [obind] in Hput. destruct (copyChecksum _ _) as [| |m]; [done|done|]. injection Hput as <- _.
  unfold getChunk. rewrite Hn, Hp, Hl. eexists. split; [reflexivity|]. cbn in Hl |- *. apply oss_get in Hl. rewrite (Hs ltac:(by eexists)) in Hl.
  injection Hl as <-. split; [done|]. intros d Hd. by apply Hf.
Qed.

(** With verification of checksums, every upload that succeeds ends in undefined
    behaviour: the text of a checksum has 24 characters, its buffer 16. *)
Theorem ali_checked_put_overruns e s c h b : genObjectPath (name c) = Some (name c) -> length (Chunk.md5 c) = MD5_DIGEST_LENGTH ->
  oss_put_object_from_buffer (e 0%nat) (_bucket s) (name c) (Chunk.bytes c) = (Some h, b) -> putChunk true e s c = Undef.
Proof using HL.
  intros Hp Hmd Eo. unfold putChunk. rewrite Hp, Eo. unfold compareChecksum. rewrite (proj2 (Nat.ltb_lt _ _)); [done|].
  rewrite aos_base64_length, Hmd. vm_compute. lia.
Qed.

(** A chunk that is not there is reported as read, with whatever the buffer held. *)
Theorem ali_missing_chunk_read verify e s c : genObjectPath (name c) = Some (name c) ->
  oss_get_object_to_buffer (e 0%nat) (_bucket s) (name c) = None -> getChunk verify e s c false = (true, c).
Proof using. intros Hp Hg. unfold getChunk. by rewrite Hp, Hg. Qed.
End theorems.
