(* ===== verification/AzureContainer.v ===== *)
(** The container on Azure blob storage ([src/agent/container/azure_blob.cc]).  The client
    library is a class, [Azure], whose calls may throw; the result of an operation says
    whether an exception leaves it, which nobody catches.  The set-up of the client and the
    listing for the usage are not modelled.

    The theorems: a put over an existing chunk can be reverted as long as the snapshot of
    the old chunk was made; the revert of the first put of a chunk leaves the chunk. *)

From Stdlib Require String.
From S2P Require Import Prelude DS Wire AwsContainer AwsTheorems.

#[local] Open Scope Z_scope.

(** A blob is named by its path, an earlier state of it by the time of the snapshot too;
    the empty time names the blob itself.  [to_base64] and [from_base64] are library
    functions. *)
Class Azure (B E : Type) := {
  create_snapshot : E -> B -> string -> option string * B;              (* the time *)
  upload_from_stream : E -> B -> string -> list Z -> option string * B; (* the MD5 property *)
  download_attributes : E -> B -> string -> option (Z * string);        (* size, MD5 property *)
  download_to_stream : E -> B -> string -> option (list Z);
  delete_blob : E -> B -> string -> bool * B;                           (* with its snapshots *)
  start_copy : E -> B -> string * string -> string -> bool * B;
  to_base64 : list Z -> string;
  from_base64 : string -> list Z;
  blob : B -> string -> string -> option (list Z)
}.

Class AzureLaws (B E : Type) `{Azure B E} : Prop := {
  snapshot_effect e b k o b' : create_snapshot e b k = (o, b') ->
    (forall k', blob b' k' "" = blob b k' "") /\
    forall v, o = Some v -> v <> "" /\ is_Some (blob b k "") /\ blob b' k v = blob b k "";
  upload_effect e b k d o b' : upload_from_stream e b k d = (o, b') ->
    (forall k' v, k' <> k \/ v <> "" -> blob b' k' v = blob b k' v) /\ (is_Some o -> blob b' k "" = Some d);
  start_copy_effect e b src v dst r b' : start_copy e b (src, v) dst = (r, b') ->
    (forall k v, k <> dst \/ v <> "" -> blob b' k v = blob b k v) /\ (r = true -> blob b' dst "" = blob b src v)
}.

Module AzureContainer.

Section container.
Context `{Md5, UuidPrinter} {B E : Type} `{Azure B E}.
Context (verifyChunkChecksum : bool).

Record t := mk { _id : Z; _capacity : Z; _usage : Z; _blobContainer : B }.

Definition set_blobs (s : t) (b : B) : t := mk (_id s) (_capacity s) (_usage s) b.

(** The result of an operation; [thrown] when an exception leaves it. *)
Record result := mk_result { thrown : bool; okay : bool; state : t; chunk : Chunk.t }.

Definition genBlobPath (name : string) : option string := AwsContainer.genObjectPath name.

Definition compareChecksum (hash : string) (md5 : list Z) : bool := bool_decide (hash = to_base64 md5).

Definition copyChecksum (hash : string) (md5 : list Z) : list Z :=
  let d := from_base64 hash in if (length d =? MD5_DIGEST_LENGTH)%nat then d else md5.

(** [snprintf] with [CHUNK_VERSION_MAX_LEN]. *)
Definition kept_version (v : string) : string := String.substring 0 (AwsContainer.CHUNK_VERSION_MAX_LEN - 1) v.

(** A snapshot that fails is noted in the log only, and the version is then empty. *)
Definition putChunk (e : nat -> E) (s : t) (c : Chunk.t) : result :=
  match genBlobPath (Chunk.getChunkName c) with
  | None => mk_result false false s c
  | Some bpath =>
      let (snap, b) := create_snapshot (e 0%nat) (_blobContainer s) bpath in
      let (up, b) := upload_from_stream (e 1%nat) b bpath (Chunk.bytes c) in
      let s := set_blobs s b in
      match up with
      | None => mk_result true false s c
      | Some hash =>
          let c := Chunk.set_chunkVersion c (kept_version (default "" snap)) in
          if negb verifyChunkChecksum || compareChecksum hash (Chunk.md5 c)
          then mk_result false true s (AwsContainer.set_md5 c (copyChecksum hash (Chunk.md5 c)))
          else mk_result false false s c
      end
  end.

(** The data goes to a buffer of the size that was asked for before. *)
Definition getChunk (e : nat -> E) (s : t) (c : Chunk.t) (skipVerification : bool) : result :=
  match genBlobPath (Chunk.getChunkName c) with
  | None => mk_result false false s c
  | Some bpath =>
      match download_attributes (e 0%nat) (_blobContainer s) bpath with
      | None => mk_result true false s c
      | Some (size, _) =>
          match download_to_stream (e 1%nat) (_blobContainer s) bpath with
          | Some d =>
              let c := Chunk.set_buffer c (Some d) (i32 size) (Chunk.freeData c) in
              mk_result false (skipVerification || negb verifyChunkChecksum || Chunk.verifyMD5 c) s c
          | None => mk_result true false s (Chunk.set_size c (i32 size))
          end
      end
  end.

Definition deleteChunk (e : E) (s : t) (c : Chunk.t) : result :=
  match genBlobPath (Chunk.getChunkName c) with
  | None => mk_result false false s c
  | Some bpath =>
      let (ok, b) := delete_blob e (_blobContainer s) bpath in
      mk_result (negb ok) ok (set_blobs s b) c
  end.

Definition copyChunk (e : nat -> E) (s : t) (src dst : Chunk.t) : result :=
  match genBlobPath (Chunk.getChunkName src), genBlobPath (Chunk.getChunkName dst) with
  | Some srcpath, Some dstpath =>
      let (ok, b) := start_copy (e 0%nat) (_blobContainer s) (srcpath, "") dstpath in
      let s := set_blobs s b in
      if negb ok then mk_result true false s dst
      else match download_attributes (e 1%nat) b dstpath with
           | None => mk_result true false s dst
           | Some (size, hash) =>
               let dst := Chunk.set_size dst (i32 size) in
               let dst := AwsContainer.set_md5 dst (copyChecksum hash (Chunk.md5 dst)) in
               if verifyChunkChecksum && negb (compareChecksum hash (Chunk.md5 src)) then
                 let r := deleteChunk (e 2%nat) s dst in mk_result (thrown r) false (state r) dst
               else mk_result false true s dst
           end
  | _, _ => mk_result false false s dst
  end.

Definition moveChunk (e : nat -> E) (s : t) (src dst : Chunk.t) : result :=
  let r := copyChunk e s src dst in
  if thrown r || negb (okay r) then r
  else let r2 := deleteChunk (e 3%nat) (state r) src in mk_result (thrown r2) (okay r2) (state r2) (chunk r).

Definition checkChunkAttributes (e : nat -> E) (s : t) (c : Chunk.t) (forceChecksumCheck checksumOnly : bool) : bool :=
  match genBlobPath (Chunk.getChunkName c) with
  | None => false
  | Some bpath =>
      match download_attributes (e 0%nat) (_blobContainer s) bpath with
      | None => false
      | Some (size, hash) =>
          (checksumOnly || (size =? u32 (Chunk.size c))) &&
          (negb verifyChunkChecksum && negb forceChecksumCheck || compareChecksum hash (Chunk.md5 c))
      end
  end.

Definition hasChunk (e : nat -> E) (s : t) (c : Chunk.t) : bool := checkChunkAttributes e s c false false.
Definition verifyChunk (e : nat -> E) (s : t) (c : Chunk.t) : bool := checkChunkAttributes e s c true true.

Definition revertChunk (e : nat -> E) (s : t) (c : Chunk.t) : bool * t :=
  match genBlobPath (Chunk.getChunkName c) with
  | None => (false, s)
  | Some bpath =>
      let (ok, b) := start_copy (e 0%nat) (_blobContainer s) (bpath, Chunk.chunkVersion c) bpath in
      (ok, set_blobs s b)
  end.

End container.
Arguments t : clear implicits.
Arguments result : clear implicits.
End AzureContainer.

(** * Theorems *)

Section theorems.
Context `{Md5, UuidPrinter} {B E : Type} `{HA : Azure B E} `{HL : !AzureLaws B E}.
Context (verify : bool).
Import AzureContainer.
Implicit Types (s : t B) (c d : Chunk.t) (e : nat -> E).
Notation name := Chunk.getChunkName.

Lemma put_done e s c : let r := putChunk verify e s c in okay r = true ->
  genBlobPath (name c) = Some (name c) /\ name (chunk r) = name c /\
  blob (_blobContainer (state r)) (name c) "" = Some (Chunk.bytes c) /\
  (forall k, k <> name c -> blob (_blobContainer (state r)) k "" = blob (_blobContainer s) k "") /\
  exists o b1, create_snapshot (e 0%nat) (_blobContainer s) (name c) = (o, b1) /\
    Chunk.chunkVersion (chunk r) = kept_version (default "" o) /\
    forall v, v <> "" -> blob (_blobContainer (state r)) (name c) v = blob b1 (name c) v.
Proof using HL.
  cbv zeta. unfold putChunk. destruct (genBlobPath (name c)) as [p|] eqn:Hp; [|done].
  pose proof (genObjectPath_same _ _ Hp) as ->. destruct (create_snapshot _ _ _) as [o b1] eqn:Es.
  destruct (upload_from_stream _ _ _ _) as [up b2] eqn:Eu. pose proof (upload_effect _ _ _ _ _ _ Eu) as [Hf Hu].
  pose proof (snapshot_effect _ _ _ _ _ Es) as [Hs _].
  destruct up as [hash|]; [|done]. destruct (_ || _); [|done]. intros _. cbn. split; [done|]. split; [done|]. split; [by apply Hu|].
  split; [intros k Hk; rewrite Hf by (by left); apply Hs|]. exists o, b1. split_and!; try done. intros v Hv. apply Hf. by right.
Qed.

(** A put over an existing chunk is reverted to the old chunk when the snapshot was made
    and its time fits into the field of the chunk; no other chunk changes. *)
Theorem azure_put_revert e e' s c s2 time b1 : let r := putChunk verify e s c in okay r = true ->
  create_snapshot (e 0%nat) (_blobContainer s) (name c) = (Some time, b1) -> (String.length time <= 127)%nat ->
  revertChunk e' (state r) (chunk r) = (true, s2) ->
  forall d, blob (_blobContainer s2) (name d) "" = blob (_blobContainer s) (name d) "".
Proof using HL.
  intros r Hr Es Ht Hrev d. destruct (put_done e s c Hr) as (Hp & Hn & _ & Hf & o & b & Es' & Hv & Hold). rewrite Es in Es'. injection Es' as <- <-.
  pose proof (snapshot_effect _ _ _ _ _ Es) as [_ Hsnap]. destruct (Hsnap _ eq_refl) as (Hne & _ & Hsame).
  unfold revertChunk in Hrev. fold r in Hn, Hv, Hf, Hold. rewrite Hn, Hp in Hrev. rewrite Hv in Hrev. cbn [default id] in Hrev. unfold kept_version in Hrev.
  rewrite substring_whole in Hrev by (unfold AwsContainer.CHUNK_VERSION_MAX_LEN; lia).
  destruct (start_copy _ _ _ _) as [ok b2] eqn:Ec. injection Hrev as -> <-. apply start_copy_effect in Ec as [Hf2 Hc]. cbn.
  destruct (decide (name d = name c)) as [-> | Hd]; [by rewrite Hc, Hold, Hsame|]. rewrite Hf2 by (by left). by apply Hf.
Qed.

(** The first put of a chunk makes no snapshot, so the revert copies the chunk onto
    itself, reports success and leaves it. *)
Theorem azure_first_put_stays e e' s c s2 b1 : let r := putChunk verify e s c in okay r = true ->
  create_snapshot (e 0%nat) (_blobContainer s) (name c) = (None, b1) ->
  revertChunk e' (state r) (chunk r) = (true, s2) -> blob (_blobContainer s2) (name c) "" = Some (Chunk.bytes c).
Proof using HL.
  intros r Hr Es Hrev. destruct (put_done e s c Hr) as (Hp & Hn & Hdone & _ & o & b & Es' & Hv & _). rewrite Es in Es'. injection Es' as <- <-.
  unfold revertChunk in Hrev. fold r in Hn, Hv, Hdone. rewrite Hn, Hp in Hrev. rewrite Hv in Hrev.
  destruct (start_copy _ _ _ _) as [ok b2] eqn:Ec. injection Hrev as -> <-. apply start_copy_effect in Ec as [_ Hc]. cbn in Hc |- *. by rewrite Hc.
Qed.
End theorems.
