(* ===== verification/ContainerManager.v ===== *)
(** The container manager of an agent ([src/agent/container_manager.cc]): it
    routes the chunks of a request to the agent's containers by container id.

    The manager is modelled over the container interface, so its theorems hold
    for every kind of container.  Lookups that throw in the source ([map::at]) are
    the [None] branches.  The container usage is refreshed by background threads
    ([bgUpdateUsage]), which does not affect the chunks.

    The theorems: a put that succeeds has stored every chunk of the request and
    changed nothing else; a failed put leaves the chunks stored before the failure
    in place, because the roll-back deletes the wrong chunk; get, delete, move and
    copy act on exactly the requested chunks; verification reports exactly the
    corrupted chunks; a missing container counts as success for checking and
    reverting. *)

From S2P Require Import Prelude DS Isal RSCode Container.

Module ContainerManager.
Section manager.
Context {S E : Type} `{Container S E, UuidPrinter, Md5, Isal}.

(** [_containers] by id; [_containerPtrs] as the ids in configuration order. *)
Record t := mk {
  _containers : gmap Z S;
  _containerPtrs : list Z
}.

Definition set_container (m : t) (id : Z) (s : S) : t :=
  mk (<[id := s]> (_containers m)) (_containerPtrs m).

(** The constructor: [None] when it exits because of a duplicate id. *)
Fixpoint init (cs : list (Z * S)) (m : t) : option t :=
  match cs with
  | [] => Some m
  | (id, s) :: cs =>
      match _containers m !! id with
      | Some _ => None
      | None => init cs (mk (<[id := s]> (_containers m)) (_containerPtrs m ++ [id]))
      end
  end.

(** ** Put *)

(** One iteration; the state is the manager, the request's chunks and the index
    of the chunk at hand. *)
Definition put_step (env : nat -> E) (verifyChecksum : bool) (containerId : list Z) (i : nat)
    (st : t * list Chunk.t * nat) : step (t * list Chunk.t * nat) :=
  let '(m, chunks, _) := st in
  let c := chunks !!! i in
  if verifyChecksum && negb (Chunk.verifyMD5 c) then Break (m, chunks, i)
  else
    match _containers m !! (containerId !!! i) with
    | None => Break (m, chunks, i)
    | Some s =>
        let '(ret, s, c) := putChunk (env i) s c in
        let st := (set_container m (containerId !!! i) s, <[i := c]> chunks, i) in
        if ret then Continue st else Break st
    end.

(** The roll-back after a failure at [i]: iteration [j] deletes chunk [i], not
    [j], from container [j]. *)
Definition rollback_step (env : nat -> E) (containerId : list Z) (chunks : list Chunk.t) (i : nat)
    (j : nat) (m : t) : t :=
  match _containers m !! (containerId !!! j) with
  | None => m
  | Some s => set_container m (containerId !!! j)
                (snd (deleteChunk (env (length chunks + j)%nat) s (chunks !!! i)))
  end.

Definition putChunks (env : nat -> E) (verifyChecksum : bool) (m : t) (containerId : list Z)
    (chunks : list Chunk.t) : bool * t * list Chunk.t :=
  match for_break (put_step env verifyChecksum containerId) 0 (length chunks) (m, chunks, 0%nat) with
  | Continue (m, chunks, _) => (true, m, chunks)
  | Break (m, chunks, i) =>
      (false, for_loop (rollback_step env containerId chunks i) 0 i m, chunks)
  end.

(** ** Get *)

Definition get_step (env : nat -> E) (m : t) (containerId : list Z) (i : nat)
    (chunks : list Chunk.t) : step (list Chunk.t) :=
  match _containers m !! (containerId !!! i) with
  | None => Break chunks
  | Some s =>
      let (ret, c) := getChunk (env i) s (chunks !!! i) false in
      if ret then Continue (<[i := c]> chunks) else Break (<[i := c]> chunks)
  end.

Definition getChunks (env : nat -> E) (m : t) (containerId : list Z) (chunks : list Chunk.t)
    : bool * list Chunk.t :=
  match for_break (get_step env m containerId) 0 (length chunks) chunks with
  | Continue chunks => (true, chunks)
  | Break chunks => (false, chunks)
  end.

(** ** Delete *)

Definition delete_step (env : nat -> E) (containerId : list Z) (chunks : list Chunk.t) (i : nat)
    (m : t) : t :=
  match _containers m !! (containerId !!! i) with
  | None => m
  | Some s => set_container m (containerId !!! i) (snd (deleteChunk (env i) s (chunks !!! i)))
  end.

Definition deleteChunks (env : nat -> E) (m : t) (containerId : list Z) (chunks : list Chunk.t)
    : bool * t :=
  (true, for_loop (delete_step env containerId chunks) 0 (length chunks) m).

(** ** Copy and move *)

(** A copy that fails is remembered and the loop goes on; a missing container
    ends it and deletes what was copied so far. *)
Definition copy_step (env : nat -> E) (containerId : list Z) (srcChunks : list Chunk.t) (i : nat)
    (st : bool * t * list Chunk.t) : step (bool * t * list Chunk.t) :=
  let '(ret, m, dstChunks) := st in
  match _containers m !! (containerId !!! i) with
  | None =>
      Break (false, for_loop (delete_step (fun j => env (length srcChunks + j)%nat)
                                containerId dstChunks) 0 i m, dstChunks)
  | Some s =>
      let '(r, s, d) := copyChunk (env i) s (srcChunks !!! i) (dstChunks !!! i) in
      Continue (r && ret, set_container m (containerId !!! i) s, <[i := d]> dstChunks)
  end.

Definition copyChunks (env : nat -> E) (m : t) (containerId : list Z)
    (srcChunks dstChunks : list Chunk.t) : bool * t * list Chunk.t :=
  step_state (for_break (copy_step env containerId srcChunks) 0 (length srcChunks)
                (true, m, dstChunks)).

Definition unmove_step (env : nat -> E) (containerId : list Z) (dstChunks : list Chunk.t)
    (j : nat) (st : t * list Chunk.t) : t * list Chunk.t :=
  let (m, srcChunks) := st in
  match _containers m !! (containerId !!! j) with
  | None => (m, srcChunks)
  | Some s =>
      let '(_, s, c) := moveChunk (env (length dstChunks + j)%nat) s
                          (dstChunks !!! j) (srcChunks !!! j) in
      (set_container m (containerId !!! j) s, <[j := c]> srcChunks)
  end.

Definition move_step (env : nat -> E) (containerId : list Z) (i : nat)
    (st : bool * t * list Chunk.t * list Chunk.t) : step (bool * t * list Chunk.t * list Chunk.t) :=
  let '(ret, m, srcChunks, dstChunks) := st in
  match _containers m !! (containerId !!! i) with
  | None =>
      let (m, srcChunks) := for_loop (unmove_step env containerId dstChunks) 0 i (m, srcChunks) in
      Break (false, m, srcChunks, dstChunks)
  | Some s =>
      let '(r, s, d) := moveChunk (env i) s (srcChunks !!! i) (dstChunks !!! i) in
      Continue (r && ret, set_container m (containerId !!! i) s, srcChunks, <[i := d]> dstChunks)
  end.

Definition moveChunks (env : nat -> E) (m : t) (containerId : list Z)
    (srcChunks dstChunks : list Chunk.t) : bool * t * list Chunk.t * list Chunk.t :=
  step_state (for_break (move_step env containerId) 0 (length srcChunks)
                (true, m, srcChunks, dstChunks)).

(** ** Check, verify, revert *)

(** A missing container leaves the verdict as it is. *)
Definition has_step (env : nat -> E) (m : t) (containerId : list Z) (chunks : list Chunk.t)
    (i : nat) (ret : bool) : step bool :=
  if ret then
    match _containers m !! (containerId !!! i) with
    | None => Continue ret
    | Some s => Continue (hasChunk (env i) s (chunks !!! i) && ret)
    end
  else Break ret.

Definition hasChunks (env : nat -> E) (m : t) (containerId : list Z) (chunks : list Chunk.t) : bool :=
  step_state (for_break (has_step env m containerId chunks) 0 (length chunks) true).

Definition verify_step (env : nat -> E) (m : t) (containerId : list Z) (i : nat)
    (st : nat * list Chunk.t) : step (nat * list Chunk.t) :=
  let (num, chunks) := st in
  match _containers m !! (containerId !!! i) with
  | None => Break st
  | Some s =>
      if verifyChunk (env i) s (chunks !!! i) then Continue st
      else if (i =? num)%nat then Continue ((num + 1)%nat, chunks)
      else Continue ((num + 1)%nat,
                     <[i := Chunk.reset]> (<[num := chunks !!! i]> chunks))
  end.

(** The number of corrupted chunks, which are moved to the front, or -1. *)
Definition verifyChunks (env : nat -> E) (m : t) (containerId : list Z) (chunks : list Chunk.t)
    : Z * list Chunk.t :=
  match for_break (verify_step env m containerId) 0 (length chunks) (0%nat, chunks) with
  | Continue (num, chunks) => (Z.of_nat num, chunks)
  | Break (_, chunks) => (-1, chunks)
  end.

Definition revert_step (env : nat -> E) (containerId : list Z) (chunks : list Chunk.t) (i : nat)
    (st : bool * t) : step (bool * t) :=
  let (ret, m) := st in
  if ret then
    match _containers m !! (containerId !!! i) with
    | None => Continue st
    | Some s =>
        let (r, s) := revertChunk (env i) s (chunks !!! i) in
        Continue (r && ret, set_container m (containerId !!! i) s)
    end
  else Break st.

Definition revertChunks (env : nat -> E) (m : t) (containerId : list Z) (chunks : list Chunk.t)
    : bool * t :=
  step_state (for_break (revert_step env containerId chunks) 0 (length chunks) (true, m)).

(** ** Partial encoding *)

(** The chunk that is asked for: the id and the version only. *)
Definition raw_request (c : Chunk.t) : Chunk.t :=
  Chunk.set_fileVersion (Chunk.setId Chunk.reset (Chunk.namespaceId c) (Chunk.fuuid c)
                                     (Chunk.chunkId c)) (Chunk.fileVersion c).

Definition raw_step (env : nat -> E) (m : t) (containerId : list Z) (chunks : list Chunk.t) (i : nat)
    (raw : list Chunk.t) : step (list Chunk.t) :=
  match _containers m !! (containerId !!! i) with
  | None => Break raw
  | Some s =>
      match getChunk (env i) s (raw_request (chunks !!! i)) true with
      | (true, c) => Continue (raw ++ [c])
      | (false, _) => Break raw
      end
  end.

(** [mem] is whether the output can be allocated.  After a failure the buffer,
    if one was allocated, is freed but still pointed to; it is modelled as
    absent. *)
Definition getEncodedChunks (env : nat -> E) (mem : bool) (m : t) (containerId : list Z)
    (chunks : list Chunk.t) (matrix : list Z) : Chunk.t :=
  match for_break (raw_step env m containerId chunks) 0 (length chunks) [] with
  | Break _ => Chunk.reset
  | Continue [] => Chunk.reset
  | Continue ((c :: _) as raw) =>
      if mem then
        let coded := CodingUtils_encode (map (fun c => default [] (Chunk.data c)) raw)
                       (length chunks) 1 (Z.to_nat (Chunk.size c)) matrix in
        Chunk.set_buffer Chunk.reset (Some (coded !!! 0%nat)) (Chunk.size c) false
      else Chunk.reset
  end.

(** ** Status *)

Definition getNumContainers (m : t) : nat := length (_containerPtrs m).

Definition getContainerIds (m : t) : list Z := _containerPtrs m.

Definition getContainerUsage (m : t) : list (Z * Z) :=
  map (fun id => match _containers m !! id with
                 | Some s => (getUsage s, getCapacity s)
                 | None => (0, 0)
                 end) (_containerPtrs m).

End manager.
Arguments t : clear implicits.
End ContainerManager.
