(* ===== verification/ManagerTheorems.v ===== *)
(** Correctness of the container manager, proved against the container
    interface. *)

From S2P Require Import Prelude DS Isal RSCode FsContainer Container ContainerManager FsTheorems FsInstance.
Import ContainerManager.

Section manager.
Context {S E : Type} `{ContainerLaws S E, Md5}.
Implicit Types (m : t S) (c d : Chunk.t) (chunks : list Chunk.t) (cids : list Z).
Notation name := Chunk.getChunkName.

(** What the container [id] holds for a chunk. *)
Definition stored m (id : Z) d : option (list Z) :=
  s ← _containers m !! id; holds s d.

Lemma stored_set m id s id' d :
  stored (set_container m id s) id' d = if decide (id' = id) then holds s d else stored m id' d.
Proof using.
  unfold stored, set_container. simpl. case_decide as Hd.
  - subst. by rewrite lookup_insert_eq.
  - by rewrite lookup_insert_ne by done.
Qed.

Lemma stored_name m id c d : name c = name d -> stored m id c = stored m id d.
Proof using H1.
  intros Hn. unfold stored. destruct (_containers m !! id); [|done]. simpl. by apply holds_name.
Qed.

(** ** Put *)

(** No two chunks of the request go to the same place. *)
Definition distinct cids chunks : Prop :=
  forall i j, (i < length chunks)%nat -> (j < length chunks)%nat -> i <> j ->
  cids !!! i = cids !!! j -> name (chunks !!! i) <> name (chunks !!! j).

(** The state before chunk [i] is written. *)
Record put_inv (m0 : t S) cids chunks (i : nat) (m : t S) (cs : list Chunk.t) : Prop := {
  pi_length : length cs = length chunks;
  pi_rest : forall j, (i <= j)%nat -> cs !!! j = chunks !!! j;
  pi_same : forall j, (j < i)%nat -> same_chunk (chunks !!! j) (cs !!! j);
  pi_stored : forall j, (j < i)%nat ->
    stored m (cids !!! j) (chunks !!! j) = Some (Chunk.bytes (chunks !!! j));
  pi_frame : forall id d,
    (forall j, (j < i)%nat -> cids !!! j = id -> name d <> name (chunks !!! j)) ->
    stored m id d = stored m0 id d;
  pi_dom : forall id, is_Some (_containers m !! id) <-> is_Some (_containers m0 !! id)
}.

Lemma same_chunk_refl c : same_chunk c c.
Proof using. by split_and!. Qed.

(** Writing chunk [i] to its container. *)
Lemma put_inv_step m0 cids chunks i m cs e s r s' c' :
  distinct cids chunks -> (forall j, (j < length chunks)%nat -> 0 <= Chunk.size (chunks !!! j)) ->
  (i < length chunks)%nat -> put_inv m0 cids chunks i m cs ->
  _containers m !! (cids !!! i) = Some s -> putChunk e s (cs !!! i) = (r, s', c') ->
  let m' := set_container m (cids !!! i) s' in
  (forall j, (j < i)%nat ->
    stored m' (cids !!! j) (chunks !!! j) = Some (Chunk.bytes (chunks !!! j))) /\
  (r = true -> put_inv m0 cids chunks (i + 1) m' (<[i := c']> cs)).
Proof using H1.
  intros Hdist Hsz Hi [Hl Hrest Hsame Hst Hfr Hdom] Hs Hput m'.
  rewrite (Hrest i) in Hput by lia. specialize (Hsz i Hi).
  assert (forall id d, (id = cids !!! i -> name d <> name (chunks !!! i)) ->
    stored m' id d = stored m id d) as Hkeep.
  { intros id d Hne. unfold m'. rewrite stored_set. case_decide as Hid; [|done]. subst.
    unfold stored. rewrite Hs. simpl. eapply put_frame; eauto. }
  assert (forall j, (j < i)%nat ->
    stored m' (cids !!! j) (chunks !!! j) = Some (Chunk.bytes (chunks !!! j))) as Hst'.
  { intros j Hj. rewrite Hkeep; [by apply Hst|]. intros Heq. apply Hdist; [lia|lia|lia|done]. }
  split; [done|]. intros ->. constructor.
  - by rewrite length_insert.
  - intros j Hj. rewrite list_lookup_total_insert_ne by lia. apply Hrest. lia.
  - intros j Hj. destruct (decide (j = i)) as [->|Hne].
    + rewrite list_lookup_total_insert_eq by lia. eapply put_same; eauto.
    + rewrite list_lookup_total_insert_ne by lia. apply Hsame. lia.
  - intros j Hj. destruct (decide (j = i)) as [->|Hne]; [|apply Hst'; lia].
    unfold m'. rewrite stored_set, decide_True by done. eapply put_stores; eauto.
  - intros id d Hne. rewrite Hkeep.
    + apply Hfr. intros j Hj. apply Hne. lia.
    + intros ->. apply Hne; [lia|done].
  - intros id. unfold m', set_container. simpl. rewrite <- Hdom.
    destruct (decide (id = cids !!! i)) as [->|Hid].
    + rewrite lookup_insert_eq, Hs. by split.
    + by rewrite lookup_insert_ne by done.
Qed.

Lemma put_inv_init m0 cids chunks : put_inv m0 cids chunks 0 m0 chunks.
Proof using. constructor; done || lia. Qed.

(** The state in which the put of chunk [i] failed. *)
Definition put_failed cids chunks (st : t S * list Chunk.t * nat) : Prop :=
  let '(m, cs, i) := st in
  (i < length chunks)%nat /\ length cs = length chunks /\
  name (cs !!! i) = name (chunks !!! i) /\
  forall j, (j < i)%nat ->
    stored m (cids !!! j) (chunks !!! j) = Some (Chunk.bytes (chunks !!! j)).

Lemma put_step_inv env verify m0 cids chunks j st :
  distinct cids chunks -> (forall j, (j < length chunks)%nat -> 0 <= Chunk.size (chunks !!! j)) ->
  (j < length chunks)%nat -> put_inv m0 cids chunks j st.1.1 st.1.2 ->
  match put_step env verify cids j st with
  | Continue st' => put_inv m0 cids chunks (j + 1) st'.1.1 st'.1.2
  | Break st' => put_failed cids chunks st'
  end.
Proof using H1.
  destruct st as [[m1 cs1] i1]. simpl. intros Hdist Hsz Hj Hp. pose proof Hp as [Hl Hr _ Hs _ _].
  assert (put_failed cids chunks (m1, cs1, j)) as Hfail.
  { split_and!; [done|done|by rewrite Hr|done]. }
  destruct (verify && _); [done|].
  destruct (_containers m1 !! (cids !!! j)) as [s|] eqn:Hc; [|done].
  destruct (putChunk (env j) s (cs1 !!! j)) as [[r s'] c'] eqn:Hput.
  destruct (put_inv_step _ _ _ _ _ _ _ _ _ _ _ Hdist Hsz Hj Hp Hc Hput) as [Hst Hnext].
  destruct r; simpl; [by apply Hnext|]. rewrite Hr in Hput by lia.
  split_and!; [done|by rewrite length_insert| |done].
  rewrite list_lookup_total_insert_eq by lia.
  by destruct (put_same _ _ _ _ _ _ Hput (Hsz j Hj)) as [? _].
Qed.

(** The put loop ends with all chunks stored, or breaks at some chunk with all
    earlier ones stored. *)
Lemma put_loop env verify m0 cids chunks :
  distinct cids chunks -> (forall j, (j < length chunks)%nat -> 0 <= Chunk.size (chunks !!! j)) ->
  match for_break (put_step env verify cids) 0 (length chunks) (m0, chunks, 0%nat) with
  | Continue st => put_inv m0 cids chunks (length chunks) st.1.1 st.1.2
  | Break st => put_failed cids chunks st
  end.
Proof using H1.
  intros Hdist Hsz.
  apply (for_break_inv (fun i st => put_inv m0 cids chunks i st.1.1 st.1.2)
    (put_failed cids chunks)); [apply put_inv_init|].
  intros j st Hj Hp.
  pose proof (put_step_inv env verify m0 cids chunks j st Hdist Hsz ltac:(lia) Hp) as Hs.
  destruct (put_step _ _ _ _ _); [by rewrite <- Nat.add_1_r|done].
Qed.

Lemma putChunks_ok_inv env verify m cids chunks m' chunks' :
  distinct cids chunks -> (forall i, (i < length chunks)%nat -> 0 <= Chunk.size (chunks !!! i)) ->
  putChunks env verify m cids chunks = (true, m', chunks') ->
  put_inv m cids chunks (length chunks) m' chunks'.
Proof using H1.
  intros Hdist Hsz Hput. unfold putChunks in Hput.
  pose proof (put_loop env verify m cids chunks Hdist Hsz) as Hl.
  destruct (for_break _ _ _ _) as [[[m1 cs1] i1]|[[m1 cs1] i1]]; by simplify_eq/=.
Qed.

(** C21: A put of several chunks that succeeds has stored every chunk in its
    container and changed no other chunk of any container. *)
Theorem putChunks_stores env verify m cids chunks m' chunks' :
  distinct cids chunks -> (forall i, (i < length chunks)%nat -> 0 <= Chunk.size (chunks !!! i)) ->
  putChunks env verify m cids chunks = (true, m', chunks') ->
  (forall i, (i < length chunks)%nat ->
    stored m' (cids !!! i) (chunks !!! i) = Some (Chunk.bytes (chunks !!! i))) /\
  (forall id d, (forall i, (i < length chunks)%nat -> cids !!! i = id ->
                  name d <> name (chunks !!! i)) ->
    stored m' id d = stored m id d).
Proof.
  intros Hdist Hsz Hput.
  by destruct (putChunks_ok_inv _ _ _ _ _ _ _ Hdist Hsz Hput) as [_ _ _ Hst Hfr _].
Qed.

(** A put changes at most checksums and versions of the chunks of the request. *)
Definition all_same chunks cs : Prop :=
  length cs = length chunks /\
  forall j, (j < length chunks)%nat -> same_chunk (chunks !!! j) (cs !!! j).

Lemma putChunks_same env verify m cids chunks r m' chunks' :
  (forall i, (i < length chunks)%nat -> 0 <= Chunk.size (chunks !!! i)) ->
  putChunks env verify m cids chunks = (r, m', chunks') -> all_same chunks chunks'.
Proof using H1.
  intros Hsz Hput. unfold putChunks in Hput.
  assert (forall j st, (j < length chunks)%nat -> all_same chunks st.1.2 ->
    all_same chunks (step_state (put_step env verify cids j st)).1.2) as Hstep.
  { intros j [[m1 cs1] i1] Hj [Hl Hs]. simpl in *.
    destruct (verify && _); [done|]. destruct (_containers m1 !! _) as [s|]; [|done].
    destruct (putChunk (env j) s (cs1 !!! j)) as [[r1 s1] c1] eqn:Hp.
    destruct (Hs j Hj) as (Hn & Hd & Hz).
    destruct (put_same _ _ _ _ _ _ Hp) as (Hn' & Hd' & Hz'); [rewrite Hz; by apply Hsz|].
    assert (all_same chunks (<[j := c1]> cs1)) as Hall; [|by destruct r1].
    split; [by rewrite length_insert|]. intros i Hi. destruct (decide (i = j)) as [->|Hne].
    - rewrite list_lookup_total_insert_eq by lia. split_and!; congruence.
    - rewrite list_lookup_total_insert_ne by done. by apply Hs. }
  assert (all_same chunks (step_state (for_break (put_step env verify cids) 0 (length chunks)
    (m, chunks, 0%nat))).1.2) as Hall.
  { pose proof (for_break_inv (fun _ st => all_same chunks st.1.2) (fun st => all_same chunks st.1.2)
      (put_step env verify cids) 0 (length chunks) (m, chunks, 0%nat)) as Hinv.
    destruct (for_break _ _ _ _); apply Hinv; try (split; [done|intros; apply same_chunk_refl]);
      intros j st Hj Hst; specialize (Hstep j st ltac:(lia) Hst);
      by destruct (put_step _ _ _ _ _). }
  destruct (for_break _ _ _ _) as [[[m1 cs1] i1]|[[m1 cs1] i1]]; by simplify_eq/=.
Qed.

Lemma all_same_data chunks cs : all_same chunks cs -> map Chunk.data cs = map Chunk.data chunks.
Proof using.
  intros [Hl Hs]. apply list_eq_same_length with (length chunks);
    [by rewrite length_map|by rewrite length_map|].
  intros i x y Hi Hx Hy. rewrite list_lookup_fmap, (lookup_total_lt cs) in Hx by lia.
  rewrite list_lookup_fmap, (lookup_total_lt chunks) in Hy by done. simplify_eq/=.
  by destruct (Hs i Hi) as (_ & ? & _).
Qed.

(** ** Roll-back *)

Lemma rollback_keeps env cids cs i k m id d :
  name d <> name (cs !!! i) ->
  stored (for_loop (rollback_step env cids cs i) 0 k m) id d = stored m id d.
Proof using H1.
  intros Hne. apply (for_loop_inv (fun _ m' => stored m' id d = stored m id d)); [done|].
  intros j m' _ <-. unfold rollback_step. destruct (_containers m' !! _) as [s|] eqn:Hs; [|done].
  rewrite stored_set. case_decide as Hid; [|done]. subst. unfold stored. rewrite Hs. simpl.
  destruct (deleteChunk _ s _) as [r s'] eqn:Hdel. simpl. eapply delete_frame; eauto.
Qed.

(** When a put of several distinct chunks fails at some chunk, the chunks
    written before it are still stored: the roll-back does not remove them. *)
Theorem putChunks_failure_leaves env verify m cids chunks m' chunks' :
  NoDup (map name chunks) ->
  (forall i, (i < length chunks)%nat -> 0 <= Chunk.size (chunks !!! i)) ->
  putChunks env verify m cids chunks = (false, m', chunks') ->
  exists i, (i < length chunks)%nat /\ forall j, (j < i)%nat ->
    stored m' (cids !!! j) (chunks !!! j) = Some (Chunk.bytes (chunks !!! j)).
Proof.
  intros Hnd Hsz Hput.
  assert (forall i j, (i < length chunks)%nat -> (j < length chunks)%nat -> i <> j ->
    name (chunks !!! i) <> name (chunks !!! j)) as Hne.
  { intros i j Hi Hj Hij Heq. apply Hij. eapply NoDup_lookup; [exact Hnd| |];
      rewrite list_lookup_fmap, (lookup_total_lt chunks) by done; [done|]. simpl. by rewrite Heq. }
  assert (distinct cids chunks) as Hdist by (intros i j Hi Hj Hij _; by apply Hne).
  unfold putChunks in Hput. pose proof (put_loop env verify m cids chunks Hdist Hsz) as Hl.
  destruct (for_break _ _ _ _) as [[[m1 cs1] i1]|[[m1 cs1] i1]]; simplify_eq/=.
  destruct Hl as (Hi & _ & Hn & Hst). exists i1. split; [done|]. intros j Hj.
  rewrite rollback_keeps; [by apply Hst|]. rewrite Hn. apply Hne; lia.
Qed.

(** ** Get *)

Lemma getChunks_inv env m cids chunks out :
  getChunks env m cids chunks = (true, out) ->
  length out = length chunks /\ forall i, (i < length chunks)%nat ->
  exists s, _containers m !! (cids !!! i) = Some s /\
            getChunk (env i) s (chunks !!! i) false = (true, out !!! i).
Proof using.
  unfold getChunks. intros Hget.
  pose proof (for_break_inv (fun i cs => length cs = length chunks /\
    (forall j, (i <= j)%nat -> cs !!! j = chunks !!! j) /\
    forall j, (j < i)%nat -> exists s, _containers m !! (cids !!! j) = Some s /\
      getChunk (env j) s (chunks !!! j) false = (true, cs !!! j)) (fun _ => True)
    (get_step env m cids) 0 (length chunks) chunks) as Hinv.
  destruct (for_break _ _ _ _) as [cs|cs]; simplify_eq/=.
  destruct Hinv as (? & _ & ?); [split_and!; done || lia| |done].
  intros j cs Hj (Hl & Hr & Hs). unfold get_step.
  destruct (_containers m !! (cids !!! j)) as [s|] eqn:Hc; [|done].
  rewrite Hr by lia. destruct (getChunk (env j) s (chunks !!! j) false) as [[] c] eqn:Hg; [|done].
  rewrite length_insert. split; [done|]. split.
  - intros i Hi. rewrite list_lookup_total_insert_ne by lia. apply Hr. lia.
  - intros i Hi. destruct (decide (i = j)) as [->|Hne].
    + rewrite list_lookup_total_insert_eq by lia. eauto.
    + rewrite list_lookup_total_insert_ne by lia. apply Hs. lia.
Qed.

(** C29: After a successful put, a successful get of the same chunks returns
    exactly the bytes that were put. *)
Theorem putChunks_getChunks env env' verify m cids chunks m' chunks' req out :
  distinct cids chunks ->
  (forall i, (i < length chunks)%nat -> 0 <= Chunk.size (chunks !!! i) < 2147483648) ->
  putChunks env verify m cids chunks = (true, m', chunks') ->
  (forall i, env_ok (env' i)) -> length req = length chunks ->
  (forall i, (i < length chunks)%nat -> name (req !!! i) = name (chunks !!! i)) ->
  getChunks env' m' cids req = (true, out) ->
  forall i, (i < length chunks)%nat ->
  Chunk.data (out !!! i) = Some (Chunk.bytes (chunks !!! i)) /\
  Chunk.size (out !!! i) = Z.of_nat (length (Chunk.bytes (chunks !!! i))).
Proof.
  intros Hdist Hsz Hput Henv Hlen Hname Hget i Hi.
  destruct (putChunks_ok_inv _ _ _ _ _ _ _ Hdist (fun j Hj => proj1 (Hsz j Hj)) Hput)
    as [_ _ _ Hst _ _]. specialize (Hst i Hi).
  destruct (getChunks_inv _ _ _ _ _ Hget) as [_ Hout].
  destruct (Hout i ltac:(lia)) as (s & Hs & Hg).
  rewrite <- (stored_name m' _ (req !!! i)) in Hst by auto. unfold stored in Hst.
  rewrite Hs in Hst. simpl in Hst.
  assert (Z.of_nat (length (Chunk.bytes (chunks !!! i))) < 2147483648) as Hlt.
  { unfold Chunk.bytes. rewrite length_take. specialize (Hsz i Hi). lia. }
  by destruct (get_present _ _ _ _ _ _ (Henv i) Hst Hlt Hg) as (? & ? & _).
Qed.

(** ** Verification *)

(** The indices of the corrupted chunks among the first [i]. *)
Definition corrupted (bad : nat -> bool) (i : nat) : list nat :=
  filter (fun j => bad j = true) (seq 0 i).

Lemma corrupted_S bad i :
  corrupted bad (i + 1) = corrupted bad i ++ if bad i then [i] else [].
Proof using.
  unfold corrupted. rewrite Nat.add_1_r, seq_S, filter_app. simpl. f_equal.
  rewrite filter_cons, filter_nil. by destruct (bad i).
Qed.

Lemma corrupted_length bad i : (length (corrupted bad i) <= i)%nat.
Proof using. unfold corrupted. etrans; [apply length_filter|by rewrite length_seq]. Qed.

(** The list after the first [i] chunks were verified. *)
Definition verified (bad : nat -> bool) chunks (i : nat) (st : nat * list Chunk.t) : Prop :=
  let (num, cs) := st in
  num = length (corrupted bad i) /\ length cs = length chunks /\
  (forall j, (i <= j)%nat -> cs !!! j = chunks !!! j) /\
  take num cs = map (fun j => chunks !!! j) (corrupted bad i).

Lemma verify_step_inv env m cids chunks bad i s st :
  _containers m !! (cids !!! i) = Some s ->
  verifyChunk (env i) s (chunks !!! i) = negb (bad i) -> (i < length chunks)%nat ->
  verified bad chunks i st ->
  exists st', verify_step env m cids i st = Continue st' /\ verified bad chunks (i + 1) st'.
Proof using.
  destruct st as [num cs]. intros Hs Hv Hi (-> & Hl & Hr & Ht). unfold verify_step, verified.
  rewrite Hs, Hr, Hv, corrupted_S by lia. pose proof (corrupted_length bad i) as Hle.
  destruct (bad i) eqn:Hb; simpl.
  - rewrite length_app, map_app. simpl.
    destruct (Nat.eqb_spec i (length (corrupted bad i))) as [Heq|Hne]; eexists; (split; [done|]).
    + split_and!; [done|done|intros j Hj; apply Hr; lia|].
      rewrite <- Ht, Nat.add_1_r. apply take_S_r. rewrite <- Heq, <- (Hr i) by lia.
      apply lookup_total_lt. lia.
    + simpl. rewrite !length_insert. split_and!; [done|done| |].
      * intros j Hj. rewrite !list_lookup_total_insert_ne by lia. apply Hr. lia.
      * rewrite take_insert_ge by lia. rewrite Nat.add_1_r.
        rewrite (take_S_r _ _ (chunks !!! i)) by (apply list_lookup_insert_eq; lia).
        rewrite take_insert_ge by lia. by rewrite Ht.
  - eexists. split; [done|]. rewrite app_nil_r. split_and!; [done|done| |done].
    intros j Hj. apply Hr. lia.
Qed.

(** C38: Verification of chunks whose containers exist returns the number of
    corrupted chunks and moves exactly these to the front of the list, in order. *)
Theorem verifyChunks_reports env m cids chunks (bad : nat -> bool) :
  (forall i, (i < length chunks)%nat -> exists s,
    _containers m !! (cids !!! i) = Some s /\
    verifyChunk (env i) s (chunks !!! i) = negb (bad i)) ->
  let c := filter (fun i => bad i = true) (seq 0 (length chunks)) in
  exists out, verifyChunks env m cids chunks = (Z.of_nat (length c), out) /\
  length out = length chunks /\ take (length c) out = map (fun i => chunks !!! i) c.
Proof.
  intros Hall c. unfold verifyChunks.
  assert (match for_break (verify_step env m cids) 0 (length chunks) (0%nat, chunks) with
          | Continue st => verified bad chunks (length chunks) st
          | Break _ => False end) as Hinv.
  { apply (for_break_inv (verified bad chunks) (fun _ => False)); [by split_and!|].
    intros i st Hi Hp. destruct (Hall i) as (s & Hs & Hv); [lia|].
    destruct (verify_step_inv env m cids chunks bad i s st Hs Hv) as (st' & -> & Hst'); [lia|done|].
    by rewrite <- Nat.add_1_r. }
  destruct (for_break _ _ _ _) as [[num out]|]; [|done].
  destruct Hinv as (-> & Hl & _ & Ht). exists out. by split_and!.
Qed.

(** ** Checking *)

Lemma hasChunks_inv env m cids chunks : hasChunks env m cids chunks = true ->
  forall i s, (i < length chunks)%nat -> _containers m !! (cids !!! i) = Some s ->
  hasChunk (env i) s (chunks !!! i) = true.
Proof using.
  unfold hasChunks. intros Hh.
  pose proof (for_break_inv (fun i ret => ret = true -> forall j s, (j < i)%nat ->
    _containers m !! (cids !!! j) = Some s -> hasChunk (env j) s (chunks !!! j) = true)
    (fun ret => ret = false) (has_step env m cids chunks) 0 (length chunks) true) as Hinv.
  destruct (for_break _ _ _ _) as [ret|ret]; simpl in Hh; subst; [apply Hinv|discriminate Hinv];
    try lia; try done; clear Hinv; intros i ret Hi Hp; unfold has_step; (destruct ret; [|done]);
    destruct (_containers m !! (cids !!! i)) as [s|] eqn:Hs;
    intros Hok j s' Hj Hs'; (destruct (decide (j = i)) as [->|Hne];
      [|apply (Hp eq_refl); [lia|done]]); simplify_eq; by apply andb_prop in Hok as [? _].
Qed.

(** When the check of several chunks succeeds, every chunk whose container
    exists is stored with the stated size; the check of a chunk whose container
    does not exist succeeds as well. *)
Theorem hasChunks_present env m cids chunks :
  hasChunks env m cids chunks = true ->
  forall i, (i < length chunks)%nat ->
  _containers m !! (cids !!! i) = None \/
  exists b, stored m (cids !!! i) (chunks !!! i) = Some b /\
            Chunk.size (chunks !!! i) = Z.of_nat (length b).
Proof.
  intros Hh i Hi. destruct (_containers m !! (cids !!! i)) as [s|] eqn:Hs; [right|by left].
  unfold stored. rewrite Hs. simpl. eapply has_present, hasChunks_inv; eauto.
Qed.

(** A chunk in a container that does not exist is reported as present. *)
Lemma hasChunks_missing_container env m id c :
  _containers m !! id = None -> hasChunks env m [id] [c] = true.
Proof using. intros Hm. unfold hasChunks. simpl. unfold has_step. simpl. by rewrite Hm. Qed.

(** A revert in a container that does not exist is reported as done. *)
Lemma revertChunks_missing_container env m id c :
  _containers m !! id = None -> revertChunks env m [id] [c] = (true, m).
Proof using. intros Hm. unfold revertChunks. simpl. by rewrite Hm. Qed.
End manager.

(** * Examples *)

Module ManagerSample.
Import FsSample.
#[local] Existing Instances sum_md5 decimal_uuid decimal_uuid_laws.
#[local] Instance files_container : Container FsContainer.t lossless_os := fs_container cfg.

#[local] Instance files_container_laws : ContainerLaws FsContainer.t lossless_os.
Proof. apply fs_container_laws. vm_compute. repeat constructor. Qed.

(** Two containers, one of them empty. *)
Definition empty : FsContainer.t := FsContainer.mk 8 "/e" 100 0 ∅.
Definition mgr : t FsContainer.t := mk (<[7 := state]> (<[8 := empty]> ∅)) [7; 8].
Definition env (_ : nat) : lossless_os := mk_lossless ok_os (healthy_lossless _ ok_os_healthy).
Definition request : list Chunk.t := [chunk 0 [4; 5; 6]; chunk 1 [7; 8; 9]].

(** Case analysis on the index of a chunk of [request]. *)
Ltac each_chunk := intros [|[|i]] Hi; [| |simpl in Hi; lia].

Lemma request_distinct : distinct [7; 8] request.
Proof.
  intros i j Hi Hj Hij Heq. exfalso.
  destruct i as [|[|i]], j as [|[|j]]; simpl in Hi, Hj; try lia; vm_compute in Heq; discriminate.
Qed.

Lemma putChunks_stores_witness :
  exists m' chunks', putChunks env true mgr [7; 8] request = (true, m', chunks') /\
  stored m' 7 (chunk 0 []) = Some [4; 5; 6] /\ stored m' 8 (chunk 1 []) = Some [7; 8; 9] /\
  stored m' 7 (chunk 2 []) = Some [9; 9].
Proof.
  destruct (putChunks env true mgr [7; 8] request) as [[r m'] chunks'] eqn:Hput.
  assert (r = true) as -> by (apply (f_equal (fun x => fst (fst x))) in Hput; vm_compute in Hput; done).
  destruct (putChunks_stores env true mgr [7; 8] request m' chunks') as [Hst Hfr].
  - apply request_distinct.
  - each_chunk; vm_compute; discriminate.
  - exact Hput.
  - exists m', chunks'. split; [reflexivity|].
    split; [exact (Hst 0%nat ltac:(vm_compute; repeat constructor))|].
    split; [exact (Hst 1%nat ltac:(vm_compute; repeat constructor))|].
    rewrite Hfr; [vm_compute; reflexivity|]. each_chunk; intros _; vm_compute; discriminate.
Defined.

Lemma putChunks_getChunks_witness :
  exists m' chunks' out, putChunks env true mgr [7; 8] request = (true, m', chunks') /\
  getChunks env m' [7; 8] chunks' = (true, out) /\
  Chunk.data (out !!! 1%nat) = Some [7; 8; 9].
Proof.
  destruct (putChunks env true mgr [7; 8] request) as [[r m'] chunks'] eqn:Hput.
  destruct (getChunks env m' [7; 8] chunks') as [r' out] eqn:Hget.
  assert (r = true /\ r' = true /\ length chunks' = 2%nat /\
    (forall i, (i < length request)%nat ->
      Chunk.getChunkName (chunks' !!! i) = Chunk.getChunkName (request !!! i)))
    as (-> & -> & Hlen & Hname).
  { pose proof (f_equal (fun x => fst (fst x)) Hput) as E1. vm_compute in E1.
    pose proof (f_equal (fun x => snd (fst x)) Hput) as E2. vm_compute in E2.
    pose proof (f_equal snd Hput) as E3. vm_compute in E3.
    cbv [fst snd] in E1, E2, E3. subst. vm_compute in Hget. injection Hget as <- _.
    by split_and!. }
  exists m', chunks', out. split; [reflexivity|]. split; [exact Hget|].
  destruct (putChunks_getChunks env env true mgr [7; 8] request m' chunks' chunks' out)
    with (i := 1%nat) as [Hd _].
  - apply request_distinct.
  - each_chunk; vm_compute; (split; [discriminate|reflexivity]).
  - exact Hput.
  - intros i. apply ok_os_healthy.
  - exact Hlen.
  - exact Hname.
  - exact Hget.
  - vm_compute. repeat constructor.
  - exact Hd.
Defined.

(** Chunk 2 carries a wrong checksum, chunk 3 is not stored. *)
Definition suspects : list Chunk.t := [chunk 2 [9; 9]; chunk 2 [1]; chunk 3 [1]].

Lemma verifyChunks_reports_witness :
  exists out, verifyChunks env mgr [7; 7; 7] suspects = (2, out) /\
  take 2 out = [chunk 2 [1]; chunk 3 [1]].
Proof.
  destruct (verifyChunks_reports env mgr [7; 7; 7] suspects (fun i => negb (i =? 0)%nat))
    as (out & E & _ & Ht).
  - intros i Hi. exists state. destruct i as [|[|[|i]]]; [split; vm_compute; reflexivity..|].
    vm_compute in Hi. lia.
  - exists out. split; [exact E|exact Ht].
Defined.

Lemma hasChunks_present_witness :
  hasChunks env mgr [7; 9] [chunk 2 [9; 9]; chunk 2 [5]] = true /\
  (_containers mgr !! 7 = None \/ exists b, stored mgr 7 (chunk 2 [9; 9]) = Some b /\ 2 = Z.of_nat (length b)).
Proof.
  assert (hasChunks env mgr [7; 9] [chunk 2 [9; 9]; chunk 2 [5]] = true) as Hh
    by (vm_compute; reflexivity).
  split; [exact Hh|].
  exact (hasChunks_present env mgr [7; 9] [chunk 2 [9; 9]; chunk 2 [5]] Hh 0%nat
    ltac:(vm_compute; repeat constructor)).
Defined.
End ManagerSample.
