(* ===== verification/Agent.v ===== *)
(** The agent's request handler ([Agent::handleChunkEvent], src/agent/agent.cc):
    one event is dispatched on its opcode, acts on the containers, for repairs
    talks to other agents, and is turned into the reply in place.

    Other agents are a function from a request (its event id, the address and the
    event) to a reply; requests sent in parallel have distinct ids, so the
    function can answer each of them differently.  The time stamps of the
    benchmark fields are not modelled. *)

From Stdlib Require Import Ascii.
From Stdlib Require String.
From S2P Require Import Prelude DS Isal RSCode Container ContainerManager.

#[local] Open Scope outcome_scope.

Module Agent.
Section agent.
Context {S E : Type} `{Container S E, UuidPrinter, Md5, Isal}.

Record stats := mk_stats {
  chunk_in : Z; chunk_out : Z;       (* unsigned long int *)
  ops_success : Z; ops_fail : Z
}.

Record t := mk {
  _containerManager : ContainerManager.t S;
  _stats : stats;
  _eventCount : Z                    (* std::atomic<int> *)
}.

Definition incrementOp (success : bool) (a : t) : t :=
  let s := _stats a in
  mk (_containerManager a)
     (if success then mk_stats (chunk_in s) (chunk_out s) (u64 (ops_success s + 1)) (ops_fail s)
      else mk_stats (chunk_in s) (chunk_out s) (ops_success s) (u64 (ops_fail s + 1)))
     (_eventCount a).

Definition addIngressChunkTraffic (traffic : Z) (a : t) : t :=
  let s := _stats a in
  mk (_containerManager a)
     (mk_stats (u64 (chunk_in s + traffic)) (chunk_out s) (ops_success s) (ops_fail s))
     (_eventCount a).

Definition addEgressChunkTraffic (traffic : Z) (a : t) : t :=
  let s := _stats a in
  mk (_containerManager a)
     (mk_stats (chunk_in s) (u64 (chunk_out s + traffic)) (ops_success s) (ops_fail s))
     (_eventCount a).

Definition set_manager (m : ContainerManager.t S) (a : t) : t := mk m (_stats a) (_eventCount a).

Definition traffic_of (cs : list Chunk.t) : Z :=
  foldl (fun acc c => u64 (acc + Chunk.size c)) 0 cs.

(** What the handler depends on besides its state: the configuration, the world
    of the container calls, the allocator, and the other agents. *)
Record world := mk_world {
  verifyChecksum : bool;
  env : nat -> E;
  mem : bool;
  net : Z -> string -> ChunkEvent.t -> option ChunkEvent.t
}.

Section handlers.
Context (w : world).

Implicit Types (a : t) (e : ChunkEvent.t).

Definition ids_of e : list Z := default [] (ChunkEvent.containerIds e).

(** The reply of an operation on the chunks of the event. *)
Definition conclude (okOp failOp : Opcode) (ok : bool) a e : t * ChunkEvent.t :=
  (incrementOp ok a, ChunkEvent.set_opcode e (if ok then okOp else failOp)).

Definition set_event_chunks e (cs : list Chunk.t) : ChunkEvent.t :=
  ChunkEvent.set_chunks e (ChunkEvent.numChunks e) cs.

(** [exit(1)] when the container ids are missing. *)
Definition handle_put a e : outcome (t * ChunkEvent.t) :=
  match ChunkEvent.containerIds e with
  | None => Fail
  | Some ids =>
      let '(ok, m, cs) := ContainerManager.putChunks (env w) (verifyChecksum w)
                            (_containerManager a) ids (ChunkEvent.chunks e) in
      let (a, e) := conclude PUT_CHUNK_REP_SUCCESS PUT_CHUNK_REP_FAIL ok (set_manager m a)
                      (set_event_chunks e cs) in
      Ok (addIngressChunkTraffic (traffic_of cs) a, e)
  end.

Definition handle_get a e : t * ChunkEvent.t :=
  let (ok, cs) := ContainerManager.getChunks (env w) (_containerManager a) (ids_of e)
                    (ChunkEvent.chunks e) in
  let a := if ok then addEgressChunkTraffic (traffic_of cs) a else a in
  conclude GET_CHUNK_REP_SUCCESS GET_CHUNK_REP_FAIL ok a (set_event_chunks e cs).

Definition handle_del a e : t * ChunkEvent.t :=
  let (ok, m) := ContainerManager.deleteChunks (env w) (_containerManager a) (ids_of e)
                   (ChunkEvent.chunks e) in
  conclude DEL_CHUNK_REP_SUCCESS DEL_CHUNK_REP_FAIL ok (set_manager m a) e.

(** After a copy or a move every chunk of the reply gets the metadata of the
    chunk at index [numChunks], the first destination. *)
Definition forward_meta (num : nat) (cs : list Chunk.t) : list Chunk.t :=
  map (fun c => Chunk.copyMeta c (cs !!! num) true) (take num cs) ++ drop num cs.

Definition handle_cpy a e : t * ChunkEvent.t :=
  let num := Z.to_nat (ChunkEvent.numChunks e) in
  let src := take num (ChunkEvent.chunks e) in
  let '(ok, m, dst) := ContainerManager.copyChunks (env w) (_containerManager a) (ids_of e)
                         src (drop num (ChunkEvent.chunks e)) in
  conclude CPY_CHUNK_REP_SUCCESS CPY_CHUNK_REP_FAIL ok (set_manager m a)
    (set_event_chunks e (forward_meta num (src ++ dst))).

Definition handle_mov a e : t * ChunkEvent.t :=
  let num := Z.to_nat (ChunkEvent.numChunks e) in
  let '(ok, m, src, dst) := ContainerManager.moveChunks (env w) (_containerManager a) (ids_of e)
                              (take num (ChunkEvent.chunks e)) (drop num (ChunkEvent.chunks e)) in
  conclude MOV_CHUNK_REP_SUCCESS MOV_CHUNK_REP_FAIL ok (set_manager m a)
    (set_event_chunks e (forward_meta num (src ++ dst))).

Definition handle_enc a e : t * ChunkEvent.t :=
  let c := ContainerManager.getEncodedChunks (env w) (mem w) (_containerManager a) (ids_of e)
             (ChunkEvent.chunks e)
             (default [] (CodingMeta.codingState (ChunkEvent.codingMeta e))) in
  if 0 <? Chunk.size c then
    (incrementOp true a,
     ChunkEvent.mk (ChunkEvent.id e) ENC_CHUNK_REP_SUCCESS 1 None [Chunk.set_freeData c true]
       CodingMeta.reset (ChunkEvent.repairUsingCAR e) (ChunkEvent.numChunkGroups e)
       (ChunkEvent.numInputChunks e) (ChunkEvent.chunkGroupMap e) (ChunkEvent.containerGroupMap e)
       (ChunkEvent.agents e) (ChunkEvent.p2a e) (ChunkEvent.a2p e) (ChunkEvent.agentProcess e))
  else (incrementOp false a, ChunkEvent.set_opcode e ENC_CHUNK_REP_FAIL).

Definition handle_chk a e : t * ChunkEvent.t :=
  let ok := ContainerManager.hasChunks (env w) (_containerManager a) (ids_of e)
              (ChunkEvent.chunks e) in
  (a, ChunkEvent.set_opcode e (if ok then CHK_CHUNK_REP_SUCCESS else CHK_CHUNK_REP_FAIL)).

Definition handle_rvt a e : t * ChunkEvent.t :=
  let (ok, m) := ContainerManager.revertChunks (env w) (_containerManager a) (ids_of e)
                   (ChunkEvent.chunks e) in
  conclude RVT_CHUNK_REP_SUCCESS RVT_CHUNK_REP_FAIL ok (set_manager m a) e.

Definition handle_vrf a e : t * ChunkEvent.t :=
  let (num, cs) := ContainerManager.verifyChunks (env w) (_containerManager a) (ids_of e)
                     (ChunkEvent.chunks e) in
  if 0 <=? num
  then conclude VRF_CHUNK_REP_SUCCESS VRF_CHUNK_REP_FAIL true a (ChunkEvent.set_chunks e num cs)
  else conclude VRF_CHUNK_REP_SUCCESS VRF_CHUNK_REP_FAIL false a (set_event_chunks e cs).

(** ** Repair *)

(** The next address of the ';'-separated list from position [st] on, and the
    position after it.  When no ';' follows, the rest of the string is taken and
    the search starts over at 0. *)
Fixpoint find_semicolon (l : list Ascii.ascii) : option nat :=
  match l with
  | [] => None
  | a :: l => if bool_decide (a = ";"%char) then Some 0%nat else Datatypes.S <$> find_semicolon l
  end.

Definition next_addr (agents : string) (st : nat) : string * nat :=
  let rest := drop st (chars agents) in
  match find_semicolon rest with
  | Some n => (String.string_of_list_ascii (take n rest), (st + n + 1)%nat)
  | None => (String.string_of_list_ascii rest, 0%nat)
  end.

(** The chunk asked for as input: identity and version, no data. *)
Definition input_chunk (first : Chunk.t) (cid : Z) : Chunk.t :=
  Chunk.set_fileVersion
    (Chunk.set_buffer (Chunk.setId Chunk.reset (Chunk.namespaceId first) (Chunk.fuuid first) cid)
       None 0 true) (Chunk.fileVersion first).

(** The request for the inputs number [reqIdx], with [chunkPos] chunks asked for
    before it. *)
Definition input_request e (first : Chunk.t) (eventId : Z) (reqIdx chunkPos : nat) : ChunkEvent.t :=
  let isCAR := ChunkEvent.repairUsingCAR e in
  let groupMap := ChunkEvent.chunkGroupMap e in
  let num := if isCAR then Z.to_nat (groupMap !!! (reqIdx + chunkPos)%nat) else 1%nat in
  let cid j := groupMap !!! (if isCAR then chunkPos + reqIdx + j + 1 else chunkPos + j + 1)%nat in
  let state := default [] (CodingMeta.codingState (ChunkEvent.codingMeta e)) in
  ChunkEvent.mk eventId (if isCAR then ENC_CHUNK_REQ else GET_CHUNK_REQ) (Z.of_nat num)
    (Some (slice chunkPos num (ChunkEvent.containerGroupMap e)))
    (map (fun j => input_chunk first (cid j)) (seq 0 num))
    (if isCAR then CodingMeta.mk UNKNOWN_CODE (Some (slice chunkPos num state)) 0 0 0 (Z.of_nat num) 0
     else CodingMeta.reset)
    false 0 0 [] [] "" zero_tag zero_tag zero_tag.

(** The requests that are sent with their addresses, and the positions reached
    in the chunk map and in the address list. *)
Fixpoint input_requests e (first : Chunk.t) (n reqIdx : nat) (eventId : Z) (chunkPos st : nat)
    : list (ChunkEvent.t * string) * nat :=
  match n with
  | O => ([], st)
  | Datatypes.S n =>
      let r := input_request e first eventId reqIdx chunkPos in
      let (addr, st) := next_addr (ChunkEvent.agents e) st in
      let (rs, st) := input_requests e first n (reqIdx + 1) (i32 (eventId + 1))
                        (chunkPos + Z.to_nat (ChunkEvent.numChunks r)) st in
      ((r, addr) :: rs, st)
  end.

Definition send (r : ChunkEvent.t * string) : option ChunkEvent.t :=
  net w (ChunkEvent.id (fst r)) (snd r) (fst r).

(** The inputs, when every reply is a success: the buffers in request order and
    the size of the last one. *)
Fixpoint collect (expected : Opcode) (reps : list (option ChunkEvent.t))
    : option (list (list Z) * Z) :=
  match reps with
  | [] => Some ([], 0)
  | Some r :: reps =>
      match collect expected reps with
      | Some (bufs, sz) =>
          if bool_decide (ChunkEvent.opcode r = expected) then
            let c := ChunkEvent.chunks r !!! 0%nat in
            Some (default [] (Chunk.data c) :: bufs,
                  match reps with [] => Chunk.size c | _ => sz end)
          else None
      | None => None
      end
  | None :: _ => None
  end.

(** The repaired chunks with their checksums. *)
Definition decoded_chunks e (bufs : list (list Z)) (chunkSize : Z) : list Chunk.t :=
  let n := length bufs in
  let matrix := if ChunkEvent.repairUsingCAR e then replicate n 1
                else default [] (CodingMeta.codingState (ChunkEvent.codingMeta e)) in
  let out := CodingUtils_encode bufs n (length (ChunkEvent.chunks e)) (Z.to_nat chunkSize) matrix in
  imap (fun i c => snd (Chunk.computeMD5
                          (Chunk.set_buffer c (Some (out !!! i)) chunkSize (Chunk.freeData c))))
       (ChunkEvent.chunks e).

(** The put requests for all but the first chunk. *)
Fixpoint store_requests e (cs : list Chunk.t) (n reqIdx : nat) (eventId : Z) (st : nat)
    : list (ChunkEvent.t * string) :=
  match n with
  | O => []
  | Datatypes.S n =>
      let c := Chunk.set_freeData (cs !!! (reqIdx + 1)%nat) false in
      let r := ChunkEvent.mk eventId PUT_CHUNK_REQ 1 (Some [ids_of e !!! (reqIdx + 1)%nat]) [c]
                 CodingMeta.reset false 0 0 [] [] "" zero_tag zero_tag zero_tag in
      let (addr, st) := next_addr (ChunkEvent.agents e) st in
      (r, addr) :: store_requests e cs n (reqIdx + 1) (i32 (eventId + 1)) st
  end.

(** Storing the repaired chunks [cs]: the first one (all of them with CAR) in
    the local container, the others at the agents from position [st] of the
    address list on.  The result also lists the put requests that were sent. *)
Definition store_repaired a e (cs : list Chunk.t) (st : nat)
    : t * ChunkEvent.t * list (ChunkEvent.t * string) :=
  let isCAR := ChunkEvent.repairUsingCAR e in
  let toSend := if isCAR then 0%nat else (length (ChunkEvent.chunks e) - 1)%nat in
  let puts := store_requests e cs toSend 0 (_eventCount a) st in
  let a := mk (_containerManager a) (_stats a) (i32 (_eventCount a + Z.of_nat toSend)) in
  let numLocal := if isCAR then length (ChunkEvent.chunks e) else 1%nat in
  let '(ok, m, local) := ContainerManager.putChunks (env w) (verifyChecksum w)
                           (_containerManager a)
                           (replicate numLocal (ids_of e !!! 0%nat)) (take numLocal cs) in
  let stored := forallb (fun r => match send r with
                                  | Some rep => bool_decide (ChunkEvent.opcode rep
                                                             = PUT_CHUNK_REP_SUCCESS)
                                  | None => false
                                  end) puts in
  let (a, e) := conclude RPR_CHUNK_REP_SUCCESS RPR_CHUNK_REP_FAIL (ok && stored)
                  (set_manager m a) (set_event_chunks e (local ++ drop numLocal cs)) in
  (a, e, puts).

(** [RPR_CHUNK_REQ]. *)
Definition handle_rpr a e : outcome (t * ChunkEvent.t * list (ChunkEvent.t * string)) :=
  let coding := CodingMeta.coding (ChunkEvent.codingMeta e) in
  if (coding <? 0) || (UNKNOWN_CODE <=? coding)
  then Ok (a, ChunkEvent.set_opcode e RPR_CHUNK_REP_FAIL, [])
  else
    let isCAR := ChunkEvent.repairUsingCAR e in
    let* first := access (ChunkEvent.chunks e !! 0%nat) in
    let* total := access (if isCAR then Some (ChunkEvent.numChunkGroups e)
                          else ChunkEvent.chunkGroupMap e !! 0%nat) in
    let n := Z.to_nat total in
    let (reqs, st) := input_requests e first n 0 (_eventCount a) 0 0 in
    let a := mk (_containerManager a) (_stats a) (i32 (_eventCount a + Z.of_nat n)) in
    match collect (if isCAR then ENC_CHUNK_REP_SUCCESS else GET_CHUNK_REP_SUCCESS)
                  (map send reqs) with
    | None => Ok (incrementOp false a, ChunkEvent.set_opcode e RPR_CHUNK_REP_FAIL, [])
    | Some (bufs, chunkSize) =>
        let* _ := access (if mem w then Some tt else None) in
        Ok (store_repaired a e (decoded_chunks e bufs chunkSize) st)
    end.

(** ** Dispatch *)

(** One event: the new state and the reply. *)
Definition handleChunkEvent a e : outcome (t * ChunkEvent.t) :=
  match ChunkEvent.opcode e with
  | PUT_CHUNK_REQ => handle_put a e
  | GET_CHUNK_REQ => Ok (handle_get a e)
  | DEL_CHUNK_REQ => Ok (handle_del a e)
  | CPY_CHUNK_REQ => Ok (handle_cpy a e)
  | ENC_CHUNK_REQ => Ok (handle_enc a e)
  | RPR_CHUNK_REQ => let* (a, e, _) := handle_rpr a e in Ok (a, e)
  | CHK_CHUNK_REQ => Ok (handle_chk a e)
  | MOV_CHUNK_REQ => Ok (handle_mov a e)
  | RVT_CHUNK_REQ => Ok (handle_rvt a e)
  | VRF_CHUNK_REQ => Ok (handle_vrf a e)
  | _ => Ok (a, e)
  end.

End handlers.
End agent.
Arguments t : clear implicits.
Arguments world : clear implicits.
End Agent.
