(* ===== verification/AgentTheorems.v ===== *)
(** Correctness of the agent's request handler: a repair asks the right agents for the
    inputs, rebuilds exactly the lost chunks, stores the first one and sends the others
    to their agents. *)

From Stdlib Require Import Ascii.
From Stdlib Require String.

From S2P Require Import Prelude DS Isal Gf256 RSCode RSDecode RSTheorems Container ContainerManager.
From S2P Require Import ManagerTheorems Agent FsContainer FsTheorems FsInstance.
Import Agent.

#[local] Open Scope outcome_scope.

(** * Addresses *)

(** The address the loops find for request number [i] when they start at position
    [st], and where they go on. *)
Fixpoint nth_addr (agents : string) (i st : nat) : string * nat :=
  match i with
  | O => next_addr agents st
  | Datatypes.S i => nth_addr agents i (snd (next_addr agents st))
  end.

(** The list of addresses in a request: each is followed by a semicolon. *)
Definition joined (addrs : list string) : string := foldr (fun a s => a +:+ ";" +:+ s) ""%string addrs.

Lemma find_semicolon_app l1 l2 : Forall (fun a => a <> ";"%char) l1 -> find_semicolon (l1 ++ ";"%char :: l2) = Some (length l1).
Proof.
  induction 1 as [|a l1 Ha _ IH]; cbn [find_semicolon app length]; [by rewrite bool_decide_eq_true_2|].
  rewrite bool_decide_eq_false_2 by done. by rewrite IH.
Qed.

Lemma next_addr_joined pre a addrs : free_of ";"%char a ->
  next_addr (pre +:+ joined (a :: addrs)) (String.length pre) = (a, String.length (pre +:+ a +:+ ";")).
Proof.
  intros Ha. unfold next_addr. cbn [joined foldr]. fold (joined addrs). rewrite !chars_app, drop_app_length' by by rewrite length_chars.
  cbn [chars app]. rewrite find_semicolon_app, take_app_length by done. rewrite !string_length_app, length_chars. cbn [String.length].
  by rewrite String.string_of_list_ascii_of_string, Nat.add_assoc.
Qed.

Lemma nth_addr_from pre addrs i a : Forall (free_of ";"%char) addrs -> addrs !! i = Some a ->
  fst (nth_addr (pre +:+ joined addrs) i (String.length pre)) = a.
Proof.
  intros Hf. revert pre i. induction Hf as [|b addrs Hb _ IH]; intros pre i Hi; [done|].
  destruct i as [|i]; cbn [nth_addr]; rewrite next_addr_joined by done; [by injection Hi|]. cbn [snd].
  replace (pre +:+ joined (b :: addrs)) with ((pre +:+ b +:+ ";") +:+ joined addrs); [by apply IH|].
  cbn [joined foldr]. fold (joined addrs). apply chars_inj. by rewrite !chars_app, <- !app_assoc.
Qed.

Lemma nth_addr_joined addrs i a : Forall (free_of ";"%char) addrs -> addrs !! i = Some a ->
  fst (nth_addr (joined addrs) i 0) = a.
Proof. apply (nth_addr_from ""). Qed.

Lemma slice_one {A} `{Inhabited A} (l : list A) i : (i < length l)%nat -> slice i 1 l = [l !!! i].
Proof.
  intros Hi. unfold slice. destruct (lookup_lt_is_Some_2 l i Hi) as [x Hx].
  by rewrite (drop_S _ _ _ Hx), (list_lookup_total_correct _ _ _ Hx).
Qed.

Section agent.
Context {S E : Type} `{ContainerLaws S E, Md5, IsalLaws}.
Implicit Types (a : t S) (w : world E) (e : ChunkEvent.t).

(** * The inputs of a repair *)

(** Without CAR, request [i] asks the agent number [i] for the chunk at position
    [i + 1] of the group map, in the container at position [i]; the addresses go on
    where the requests end. *)
Lemma input_requests_ids e first n r ev st reqs st' :
  ChunkEvent.repairUsingCAR e = false -> input_requests e first n r ev r st = (reqs, st') ->
  length reqs = n /\
  (forall i q, reqs !! i = Some q -> ChunkEvent.opcode (fst q) = GET_CHUNK_REQ /\
     ids_of (fst q) = slice (r + i) 1 (ChunkEvent.containerGroupMap e) /\
     ChunkEvent.chunks (fst q) = [input_chunk first (ChunkEvent.chunkGroupMap e !!! (r + i + 1)%nat)] /\
     snd q = fst (nth_addr (ChunkEvent.agents e) i st)) /\
  forall j, nth_addr (ChunkEvent.agents e) j st' = nth_addr (ChunkEvent.agents e) (n + j) st.
Proof using.
  intros Hcar. revert r ev st reqs st'. induction n as [|n IH]; intros r ev st reqs st' Hr.
  { by injection Hr as <- <-. }
  cbn [input_requests] in Hr. destruct (next_addr _ _) as [addr st1] eqn:Ha.
  assert (ChunkEvent.numChunks (input_request e first ev r r) = 1) as Hnum.
  { unfold input_request. simpl. by rewrite Hcar. }
  rewrite Hnum in Hr. change (Z.to_nat 1) with 1%nat in Hr.
  destruct (input_requests _ _ _ _ _ _ _) as [rs st2] eqn:Hrs. injection Hr as <- <-.
  destruct (IH _ _ _ _ _ Hrs) as (Hl & Hq & Hst). split; [cbn; by rewrite Hl|]. split.
  - intros [|i] q Hi; cbn [lookup list_lookup] in Hi.
    + injection Hi as <-. cbn [fst snd nth_addr]. rewrite Ha. unfold input_request, ids_of. cbn. rewrite Hcar, Nat.add_0_r.
      split_and!; try done. cbn. by rewrite !Nat.add_0_r.
    + destruct (Hq i q Hi) as (Ho & Hids & Hc & Had). cbn [nth_addr]. rewrite Ha. cbn [snd].
      replace (r + Datatypes.S i)%nat with (r + 1 + i)%nat by lia. by split_and!.
  - intros j. cbn [Nat.add nth_addr]. rewrite Ha. apply Hst.
Qed.

(** Replies that all succeed are collected in order. *)
Lemma collect_all expected (reps : list (option ChunkEvent.t)) (bufs : list (list Z)) sz :
  Forall2 (fun rep b => exists r, rep = Some r /\ ChunkEvent.opcode r = expected /\
    Chunk.data (ChunkEvent.chunks r !!! 0%nat) = Some b /\
    Chunk.size (ChunkEvent.chunks r !!! 0%nat) = sz) reps bufs ->
  reps <> [] -> collect expected reps = Some (bufs, sz).
Proof using.
  induction 1 as [|rep b reps bufs (r & -> & Hop & Hd & Hsz) HF IH]; [done|]. intros _. simpl.
  destruct reps as [|rep' reps].
  - inversion HF; subst. simpl. rewrite bool_decide_eq_true_2 by done. by rewrite Hd.
  - rewrite IH by done. rewrite bool_decide_eq_true_2 by done. by rewrite Hd.
Qed.

(** * Storing *)

Notation name := Chunk.getChunkName.

Lemma computeMD5_data c : Chunk.data (snd (Chunk.computeMD5 c)) = Chunk.data c.
Proof using. unfold Chunk.computeMD5. by destruct (_ <=? _). Qed.

Lemma computeMD5_size c : Chunk.size (snd (Chunk.computeMD5 c)) = Chunk.size c.
Proof using. unfold Chunk.computeMD5. by destruct (_ <=? _). Qed.

Lemma computeMD5_name c : name (snd (Chunk.computeMD5 c)) = name c.
Proof using. unfold Chunk.computeMD5. by destruct (_ <=? _). Qed.

(** The container, name and data of the chunk a request stores; the second component of
    the request is the address it is sent to. *)
Definition put_view (q : ChunkEvent.t * string) : list Z * string * option (list Z) :=
  (ids_of (fst q), name (ChunkEvent.chunks (fst q) !!! 0%nat), Chunk.data (ChunkEvent.chunks (fst q) !!! 0%nat)).

Lemma store_requests_addr e cs n r ev st :
  map snd (store_requests e cs n r ev st) = map (fun i => fst (nth_addr (ChunkEvent.agents e) i st)) (seq 0 n).
Proof using.
  revert r ev st. induction n as [|n IH]; intros r ev st; [done|]. cbn [store_requests seq map nth_addr].
  destruct (next_addr _ _) as [addr st'] eqn:Ha. cbn [map snd fst]. rewrite IH, <- seq_shift, map_map. f_equal.
  apply map_ext. intros i. cbn [nth_addr]. by rewrite Ha.
Qed.

(** The put requests carry the chunks after the first one. *)
Lemma store_requests_view e cs n r ev st :
  map put_view (store_requests e cs n r ev st) =
  map (fun i => ([ids_of e !!! i], name (cs !!! i), Chunk.data (cs !!! i))) (seq (r + 1) n).
Proof using.
  revert r ev st. induction n as [|n IH]; intros r ev st; simpl; [done|].
  destruct (next_addr _ _) as [addr st']. simpl. rewrite IH. by replace (Datatypes.S (r + 1)) with (r + 1 + 1)%nat by lia.
Qed.

(** The agent at [addr] answers a request for the chunk [c] in the containers [ids] with
    the bytes [b]. *)
Definition peer_holds (w : world E) (addr : string) (ids : list Z) (c : Chunk.t) (b : list Z) : Prop :=
  forall ev r, ChunkEvent.opcode r = GET_CHUNK_REQ -> ids_of r = ids -> ChunkEvent.chunks r = [c] ->
  exists rep, net w ev addr r = Some rep /\ ChunkEvent.opcode rep = GET_CHUNK_REP_SUCCESS /\
  Chunk.data (ChunkEvent.chunks rep !!! 0%nat) = Some b /\
  Chunk.size (ChunkEvent.chunks rep !!! 0%nat) = Z.of_nat (length b).

(** Every agent the repair asks has the chunk it is asked for: chunk [ids !!! i] of the
    stripe. *)
Definition inputs_held (w : world E) e (first : Chunk.t) (rs : RSCode.t) (data : list Z) (cs : nat) (ids : list nat) : Prop :=
  forall i id, ids !! i = Some id ->
  peer_holds w (fst (nth_addr (ChunkEvent.agents e) i 0)) (slice i 1 (ChunkEvent.containerGroupMap e))
    (input_chunk first (ChunkEvent.chunkGroupMap e !!! (i + 1)%nat)) (chunk_bytes rs data cs id).

(** All agents answer with the chunks of the stripe; stripe by stripe, the chunks of a
    file are numbered from 0. *)
Definition peers_hold (w : world E) (rs : RSCode.t) (data : list Z) (cs : nat) : Prop :=
  forall ev addr r, ChunkEvent.opcode r = GET_CHUNK_REQ ->
  exists rep, net w ev addr r = Some rep /\ ChunkEvent.opcode rep = GET_CHUNK_REP_SUCCESS /\
  Chunk.data (ChunkEvent.chunks rep !!! 0%nat) =
    Some (chunk_bytes rs data cs (Z.to_nat (Chunk.chunkId (ChunkEvent.chunks r !!! 0%nat)
                                            mod Z.of_nat (RSCode.n rs)))) /\
  Chunk.size (ChunkEvent.chunks rep !!! 0%nat) = Z.of_nat cs.

Lemma collect_inputs w rs data cs e first ev ids reqs st :
  inputs_held w e first rs data cs ids -> ChunkEvent.repairUsingCAR e = false -> ids <> [] ->
  input_requests e first (length ids) 0 ev 0 0 = (reqs, st) ->
  collect GET_CHUNK_REP_SUCCESS (map (send w) reqs) = Some (map (chunk_bytes rs data cs) ids, Z.of_nat cs).
Proof using.
  intros Hpeers Hcar Hne Hr. destruct (input_requests_ids _ _ _ _ _ _ _ _ Hcar Hr) as (Hl & Hq & _).
  apply collect_all.
  - apply Forall2_fmap_l, Forall2_same_length_lookup_2; [by rewrite Hl, length_map|].
    intros i q b Hi (id & -> & Hlk)%list_lookup_fmap_Some. destruct (Hq i q Hi) as (Hop & Hids & Hc & Haddr).
    destruct (Hpeers i id Hlk (ChunkEvent.id (fst q)) (fst q) Hop Hids Hc) as (rep & Hn & Ho & Hd & Hs).
    exists rep. rewrite length_chunk_bytes in Hs. split; [|done]. unfold send. by rewrite Haddr.
  - destruct ids as [|i0 ids]; [done|]. intros Hnil%(f_equal length). rewrite length_map in Hnil. simpl in *. lia.
Qed.

(** * Repair *)

(** The repaired chunks carry the output of the decoder. *)
Lemma decoded_chunks_spec e bufs sz outs :
  CodingUtils_encode bufs (length bufs) (length (ChunkEvent.chunks e)) (Z.to_nat sz)
    (if ChunkEvent.repairUsingCAR e then replicate (length bufs) 1
     else default [] (CodingMeta.codingState (ChunkEvent.codingMeta e))) = outs ->
  length outs = length (ChunkEvent.chunks e) ->
  length (decoded_chunks e bufs sz) = length outs /\
  forall i, (i < length outs)%nat ->
    Chunk.data (decoded_chunks e bufs sz !!! i) = Some (outs !!! i) /\
    Chunk.size (decoded_chunks e bufs sz !!! i) = sz /\
    name (decoded_chunks e bufs sz !!! i) = name (ChunkEvent.chunks e !!! i).
Proof using.
  intros Ho Hl. split; [by unfold decoded_chunks; rewrite length_imap|]. intros i Hi.
  rewrite Hl in Hi. destruct (lookup_lt_is_Some_2 (ChunkEvent.chunks e) i Hi) as [c Hc].
  assert (decoded_chunks e bufs sz !! i = Some (snd (Chunk.computeMD5
    (Chunk.set_buffer c (Some (outs !!! i)) sz (Chunk.freeData c))))) as Hk.
  { unfold decoded_chunks. by rewrite list_lookup_imap, Hc, Ho. }
  rewrite (list_lookup_total_correct _ _ _ Hk), (list_lookup_total_correct _ _ _ Hc).
  by rewrite computeMD5_data, computeMD5_size, computeMD5_name.
Qed.

Lemma map_data_of (cs : list Chunk.t) (outs : list (list Z)) :
  length cs = length outs ->
  (forall i, (i < length outs)%nat -> Chunk.data (cs !!! i) = Some (outs !!! i)) ->
  map Chunk.data cs = map Some outs.
Proof using.
  intros Hl Hd. apply list_eq_same_length with (length outs);
    [by rewrite length_map|by rewrite length_map|].
  intros i x y Hi Hx Hy. rewrite list_lookup_fmap, (lookup_total_lt cs) in Hx by lia.
  rewrite list_lookup_fmap, (lookup_total_lt outs) in Hy by done. simplify_eq/=. by apply Hd.
Qed.

Section repair.
Context {rs : RSCode.t} (Hrs : rs_ok rs).
Context {data : list Z} {cs : nat} (Hd : data_ok rs data cs).
Context {failed : list nat} (Hasc : ascending failed).
Context (Hf : Forall (fun id => (id < RSCode.n rs)%nat) failed).
Context (Hnum : (0 < length failed <= RSCode.n rs - RSCode.k rs)%nat).
Context {inv : list Z}
  (Hinv : gf_invert_matrix (sub_rows rs (alive_ids rs failed)) (RSCode.k rs) = Some inv).

(** The matrix of the plan applied to the first [k] surviving chunks. *)
Lemma plan_matrix_repairs :
  CodingUtils_encode (map (chunk_bytes rs data cs) (take (RSCode.k rs) (alive_ids rs failed)))
    (RSCode.k rs) (length failed) cs (concat (repair_row_list rs inv failed)) =
  map (chunk_bytes rs data cs) failed.
Proof using Hrs Hd Hasc Hf Hnum Hinv H4.
  pose proof (alive_length (rs := rs) Hasc Hf) as Hal.
  destruct (alive_ok (rs := rs) (failed := failed)) as [_ Ha].
  set (ids := take (RSCode.k rs) (alive_ids rs failed)).
  assert (length ids = RSCode.k rs) as Hli.
  { unfold ids. rewrite length_take. destruct (proj1 Hrs). lia. }
  assert (sub_rows rs ids = sub_rows rs (alive_ids rs failed)) as Hsub.
  { unfold sub_rows, ids. by rewrite take_take, Nat.min_id. }
  rewrite <- Hsub in Hinv.
  assert (Forall (fun id => (id < RSCode.n rs)%nat) ids) as Hids by by apply Forall_take.
  pose proof (repair_row_list_rebuilds Hrs Hids ltac:(lia) Hinv failed Hf) as HR.
  assert (length (concat (repair_row_list rs inv failed)) =
    length (repair_row_list rs inv failed) * RSCode.k rs)%nat as Hcl.
  { apply length_concat_rows. apply Forall_lookup. intros i r Hlk.
    by destruct (Forall2_lookup_r _ _ _ _ _ HR Hlk) as (? & _ & ? & _). }
  apply (apply_rows Hrs Hd Hids ltac:(lia) _ _ _ HR); [apply take_ge; lia|lia].
Qed.
End repair.

(** Putting the first repaired chunk locally. *)
Lemma local_put w m id (dec : list Chunk.t) ok m' local :
  (0 < length dec)%nat -> 0 <= Chunk.size (dec !!! 0%nat) ->
  ContainerManager.putChunks (env w) (verifyChecksum w) m (replicate 1 id) (take 1 dec)
    = (ok, m', local) ->
  map Chunk.data (local ++ drop 1 dec) = map Chunk.data dec /\
  (ok = true -> stored m' id (dec !!! 0%nat) = Some (Chunk.bytes (dec !!! 0%nat))).
Proof using H1.
  intros Hl Hsz Hput. destruct dec as [|c dec]; [simpl in Hl; lia|].
  cbn [take replicate] in Hput. change ((c :: dec) !!! 0%nat) with c in *.
  assert (forall i, (i < length [c])%nat -> 0 <= Chunk.size ([c] !!! i)) as Hsz1.
  { intros [|i] Hi; [done|simpl in Hi; lia]. }
  split.
  - pose proof (all_same_data _ _ (putChunks_same _ _ _ _ _ _ _ _ Hsz1 Hput)) as Hs.
    rewrite map_app, Hs. done.
  - intros ->. assert (distinct [id] [c]) as Hdist.
    { intros i j Hi Hj Hij. simpl in Hi, Hj. lia. }
    destruct (putChunks_ok_inv _ _ _ _ _ _ _ Hdist Hsz1 Hput) as [_ _ _ Hst _ _].
    exact (Hst 0%nat ltac:(simpl; lia)).
Qed.

(** Storing repaired chunks without CAR. *)
Lemma store_repaired_spec w a e (dec : list Chunk.t) st (outs : list (list Z)) sz :
  ChunkEvent.repairUsingCAR e = false -> (0 < length outs)%nat ->
  length (ChunkEvent.chunks e) = length outs -> length dec = length outs -> 0 <= sz ->
  (forall i, (i < length outs)%nat -> Chunk.data (dec !!! i) = Some (outs !!! i) /\
     Chunk.size (dec !!! i) = sz /\ name (dec !!! i) = name (ChunkEvent.chunks e !!! i)) ->
  exists a' e' puts, store_repaired w a e dec st = (a', e', puts) /\ ids_of e' = ids_of e /\
  map Chunk.data (ChunkEvent.chunks e') = map Some outs /\
  map put_view puts =
    map (fun i => ([ids_of e !!! i], name (ChunkEvent.chunks e !!! i), Some (outs !!! i))) (seq 1 (length outs - 1)) /\
  map snd puts = map (fun i => fst (nth_addr (ChunkEvent.agents e) i st)) (seq 0 (length outs - 1)) /\
  (ChunkEvent.opcode e' = RPR_CHUNK_REP_SUCCESS ->
   stored (_containerManager a') (ids_of e !!! 0%nat) (ChunkEvent.chunks e !!! 0%nat) =
     Some (take (Z.to_nat sz) (outs !!! 0%nat)) /\
   Forall (fun q => exists rep, send w q = Some rep /\
             ChunkEvent.opcode rep = PUT_CHUNK_REP_SUCCESS) puts).
Proof using H1.
  intros Hcar Hpos Hlen Hdl Hsz Hdata. unfold store_repaired. rewrite Hcar, Hlen.
  destruct (ContainerManager.putChunks _ _ _ _ _) as [[ok m] local] eqn:Hput.
  pose proof (map_data_of dec outs Hdl (fun i Hi => proj1 (Hdata i Hi))) as Hmd.
  destruct (Hdata 0%nat Hpos) as (Hd0 & Hs0 & Hn0).
  destruct (local_put w _ _ dec ok m local ltac:(lia) ltac:(lia) Hput) as [Hlocal Hstored].
  eexists _, _, _. split; [reflexivity|]. split; [by destruct (ok && _)|]. split; [exact (eq_trans Hlocal Hmd)|]. split.
  - rewrite store_requests_view. apply map_ext_in. intros i [_ Hi]%in_seq.
    destruct (Hdata i ltac:(lia)) as (-> & _ & ->). done.
  - split; [apply store_requests_addr|]. cbn [conclude set_event_chunks ChunkEvent.set_opcode ChunkEvent.opcode].
    intros Hop. destruct (ok && _) eqn:Hok; [|done]. apply andb_prop in Hok as [-> Hall]. split.
    + simpl. rewrite (stored_name m _ _ (dec !!! 0%nat)) by done. rewrite Hstored by done.
      unfold Chunk.bytes. by rewrite Hd0, Hs0.
    + apply Forall_forall. intros q Hq. rewrite forallb_forall in Hall.
      specialize (Hall q (proj1 (list_elem_of_In _ _) Hq)). destruct (send w q) as [rep|]; [|done].
      exists rep. split; [done|]. by apply bool_decide_eq_true in Hall.
Qed.

Lemma agent_repair_spec w a e rs data cs failed uninit uninitRepair p plan :
  rs_ok rs -> data_ok rs data cs -> ascending failed ->
  Forall (fun id => (id < RSCode.n rs)%nat) failed ->
  (0 < length failed <= RSCode.n rs - RSCode.k rs)%nat ->
  length uninit = (RSCode.n rs * RSCode.n rs)%nat ->
  (length failed * RSCode.k rs <= length uninitRepair)%nat ->
  RSCode.preDecode rs uninit uninitRepair true failed p true = (true, plan) ->
  ChunkEvent.repairUsingCAR e = false ->
  CodingMeta.coding (ChunkEvent.codingMeta e) = RS ->
  CodingMeta.codingState (ChunkEvent.codingMeta e) = DecodingPlan.repairMatrix plan ->
  head (ChunkEvent.chunkGroupMap e) = Some (Z.of_nat (RSCode.k rs)) ->
  length (ChunkEvent.chunks e) = length failed -> mem w = true ->
  inputs_held w e (ChunkEvent.chunks e !!! 0%nat) rs data cs (take (RSCode.k rs) (DecodingPlan.inputChunkIds plan)) ->
  exists a' e' puts, handle_rpr w a e = Ok (a', e', puts) /\ ids_of e' = ids_of e /\
  map Chunk.data (ChunkEvent.chunks e') = map Some (map (chunk_bytes rs data cs) failed) /\
  map put_view puts =
    map (fun i => ([ids_of e !!! i], name (ChunkEvent.chunks e !!! i), Some (chunk_bytes rs data cs (failed !!! i))))
      (seq 1 (length failed - 1)) /\
  map snd puts = map (fun i => fst (nth_addr (ChunkEvent.agents e) (RSCode.k rs + i) 0)) (seq 0 (length failed - 1)) /\
  (ChunkEvent.opcode e' = RPR_CHUNK_REP_SUCCESS ->
   stored (_containerManager a') (ids_of e !!! 0%nat) (ChunkEvent.chunks e !!! 0%nat) =
     Some (chunk_bytes rs data cs (failed !!! 0%nat)) /\
   Forall (fun q => exists rep, send w q = Some rep /\
             ChunkEvent.opcode rep = PUT_CHUNK_REP_SUCCESS) puts).
Proof.
  intros Hrs Hd Hasc Hf Hnum Hu Hr Hplan Hcar Hcod Hst Hmap Hlen Hmem Hpeers.
  rewrite (preDecode_result Hrs Hasc Hf) in Hplan by (done || lia). simpl in Hplan.
  destruct (gf_invert_matrix _ _) as [inv|] eqn:Hinv; [|done]. injection Hplan as <-. simpl in *.
  pose proof (plan_matrix_repairs Hrs Hd Hasc Hf Hnum Hinv) as Hdec.
  set (ids := take (RSCode.k rs) (alive_ids rs failed)) in *.
  assert (length ids = RSCode.k rs) as Hli.
  { unfold ids. rewrite length_take. pose proof (alive_length (rs := rs) Hasc Hf).
    destruct (proj1 Hrs). lia. }
  unfold handle_rpr. rewrite Hcod, Hcar. destruct (ChunkEvent.chunkGroupMap e) as [|x cids] eqn:Hgm; [done|].
  injection Hmap as ->. simpl.
  destruct (lookup_lt_is_Some_2 (ChunkEvent.chunks e) 0%nat) as [first Hfirst]; [lia|].
  rewrite (list_lookup_total_correct _ _ _ Hfirst) in Hpeers. rewrite Hfirst. cbn [access obind]. rewrite Nat2Z.id, <- Hli.
  destruct (input_requests _ _ _ _ _ _ _) as [reqs st] eqn:Hreqs.
  rewrite (collect_inputs _ _ _ _ _ _ _ _ _ _ Hpeers Hcar) with (2 := Hreqs)
    by (intros ->; simpl in Hli; destruct (proj1 Hrs); lia).
  destruct (input_requests_ids _ _ _ _ _ _ _ _ Hcar Hreqs) as (_ & _ & Hnext).
  rewrite Hmem. cbn [access obind].
  destruct (decoded_chunks_spec e (map (chunk_bytes rs data cs) ids) (Z.of_nat cs)
    (map (chunk_bytes rs data cs) failed)) as [Hdl Hdata].
  { rewrite Hcar, Hst, length_map, Hli, Hlen, Nat2Z.id. exact Hdec. }
  { by rewrite length_map. }
  edestruct (store_repaired_spec w) as (a' & e' & puts & -> & Hi' & Hc & Hp & Hpa & Hs);
    [done| |by rewrite length_map|exact Hdl| |exact Hdata|]; [rewrite length_map; lia|lia|].
  rewrite length_map in Hp, Hpa. exists a', e', puts. split_and!; [done|done|done| | |].
  { rewrite Hp. apply map_ext_in. intros i [_ Hi]%in_seq. by rewrite lookup_total_map by lia. }
  { rewrite Hpa. apply map_ext. intros i. by rewrite Hnext, Hli. }
  intros Hop. destruct (Hs Hop) as [-> ?].
  rewrite lookup_total_map, take_ge by (rewrite ?length_chunk_bytes; lia). done.
Qed.

(** The addresses from number [k] on. *)
Lemma nth_addr_drop addrs k m : Forall (free_of ";"%char) addrs -> length addrs = (k + m)%nat ->
  map (fun i => fst (nth_addr (joined addrs) (k + i) 0)) (seq 0 m) = drop k addrs.
Proof using.
  intros Hf Hl. apply list_eq_same_length with m; [by rewrite length_drop; lia|by rewrite length_map, length_seq|].
  intros i x y Hi Hx Hy. rewrite lookup_drop in Hy. apply list_lookup_fmap_Some in Hx as (j & -> & [-> _]%lookup_seq).
  by apply nth_addr_joined.
Qed.

(** C19: A repair request that carries the plan of the proxy's decoder makes the agent
    rebuild exactly the failed chunks.  The request names the agents in a list, in which
    every address is followed by a semicolon: first those that have the [k] input chunks,
    then those for all repaired chunks but the first.  If each of the first [k] agents
    answers the request for its input chunk in its container with the bytes of this chunk, then the repaired chunks are in the reply; each of them but
    the first is sent, with its container, its name and its bytes, to the agent that the
    list names for it; and when the reply reports success the first one is stored in the
    local container and every other one was acknowledged.  This is the repair without
    rack-aware grouping. *)
Theorem agent_repair w a e o rs data cs failed uninit uninitRepair p plan addrs cids conts :
  RSCode.init o = Ok rs -> data_ok rs data cs -> ascending failed ->
  Forall (fun id => (id < RSCode.n rs)%nat) failed ->
  (0 < length failed <= RSCode.n rs - RSCode.k rs)%nat ->
  length uninit = (RSCode.n rs * RSCode.n rs)%nat ->
  (length failed * RSCode.k rs <= length uninitRepair)%nat ->
  RSCode.preDecode rs uninit uninitRepair true failed p true = (true, plan) ->
  ChunkEvent.repairUsingCAR e = false ->
  CodingMeta.coding (ChunkEvent.codingMeta e) = RS ->
  CodingMeta.codingState (ChunkEvent.codingMeta e) = DecodingPlan.repairMatrix plan ->
  ChunkEvent.chunkGroupMap e = Z.of_nat (RSCode.k rs) :: cids ->
  ChunkEvent.containerGroupMap e = conts -> length conts = RSCode.k rs ->
  ChunkEvent.agents e = joined addrs -> Forall (free_of ";"%char) addrs ->
  length addrs = (RSCode.k rs + (length failed - 1))%nat ->
  length (ChunkEvent.chunks e) = length failed -> mem w = true ->
  (forall i id, take (RSCode.k rs) (DecodingPlan.inputChunkIds plan) !! i = Some id ->
     peer_holds w (addrs !!! i) [conts !!! i] (input_chunk (ChunkEvent.chunks e !!! 0%nat) (cids !!! i))
       (chunk_bytes rs data cs id)) ->
  exists a' e' puts, handle_rpr w a e = Ok (a', e', puts) /\ ids_of e' = ids_of e /\
  map Chunk.data (ChunkEvent.chunks e') = map Some (map (chunk_bytes rs data cs) failed) /\
  map put_view puts =
    map (fun i => ([ids_of e !!! i], name (ChunkEvent.chunks e !!! i), Some (chunk_bytes rs data cs (failed !!! i))))
      (seq 1 (length failed - 1)) /\
  map snd puts = drop (RSCode.k rs) addrs /\
  (ChunkEvent.opcode e' = RPR_CHUNK_REP_SUCCESS ->
   stored (_containerManager a') (ids_of e !!! 0%nat) (ChunkEvent.chunks e !!! 0%nat) =
     Some (chunk_bytes rs data cs (failed !!! 0%nat)) /\
   Forall (fun q => exists rep, send w q = Some rep /\
             ChunkEvent.opcode rep = PUT_CHUNK_REP_SUCCESS) puts).
Proof.
  intros Hi%init_ok Hd Hasc Hf Hn Hu Hr Hp Hcar Hcod Hst Hgm Hcm Hlc Hag Hfree Hla Hlen Hmem Hpeers.
  rewrite <- (nth_addr_drop addrs _ _ Hfree Hla), <- Hag.
  eapply agent_repair_spec; try done; [by rewrite Hgm|]. intros i id Hlk.
  pose proof (lookup_lt_Some _ _ _ Hlk) as Hlt. rewrite length_take in Hlt.
  rewrite Hag, (nth_addr_joined addrs i (addrs !!! i)) by (done || (apply list_lookup_lookup_total_lt; lia)).
  rewrite Hcm, (slice_one conts i) by lia. rewrite Hgm, Nat.add_1_r. by apply Hpeers.
Qed.
End agent.

(** * Witnesses *)

Module AgentSample.
Import FsSample ManagerSample.
#[local] Existing Instances sum_md5 decimal_uuid decimal_uuid_laws.
#[local] Existing Instances files_container files_container_laws Gf256.isal Gf256.isal_laws.

Definition rs : RSCode.t := sample_code false.

(** The agents [a] and [b] have chunks 1 and 3 of the stripe of [sample_data], and [c]
    stores what it is given. *)
Definition peers (_ : Z) (addr : string) (r : ChunkEvent.t) : option ChunkEvent.t :=
  match ChunkEvent.opcode r with
  | GET_CHUNK_REQ =>
      if bool_decide (addr = "c") then None else
      let id := if bool_decide (addr = "a") then 1%nat else 3%nat in
      Some (ChunkEvent.set_chunks (ChunkEvent.set_opcode r GET_CHUNK_REP_SUCCESS) 1
              [Chunk.set_buffer (ChunkEvent.chunks r !!! 0%nat) (Some (chunk_bytes rs sample_data 3 id)) (Z.of_nat 3) true])
  | _ => if bool_decide (addr = "c") then Some (ChunkEvent.set_opcode r PUT_CHUNK_REP_SUCCESS) else None
  end.

Lemma peer_a ids c : peer_holds (mk_world true ManagerSample.env true peers) "a" ids c (chunk_bytes rs sample_data 3 1).
Proof. intros ev r Hr _ _. unfold peers. cbn [net]. rewrite Hr. eexists. split; [reflexivity|]. by rewrite length_chunk_bytes. Qed.

Lemma peer_b ids c : peer_holds (mk_world true ManagerSample.env true peers) "b" ids c (chunk_bytes rs sample_data 3 3).
Proof. intros ev r Hr _ _. unfold peers. cbn [net]. rewrite Hr. eexists. split; [reflexivity|]. by rewrite length_chunk_bytes. Qed.

Definition world : Agent.world lossless_os := mk_world true ManagerSample.env true peers.
Definition agent : Agent.t FsContainer.t := Agent.mk mgr (mk_stats 0 0 0 0) 0.

Definition plan : DecodingPlan.t :=
  snd (RSCode.preDecode rs (replicate 16 0) (replicate 16 0) true [0; 2]%nat
         (DecodingPlan.init 0) true).

(** The request to rebuild chunks 0 and 2 into containers 7 and 9. *)
Definition repair_event : ChunkEvent.t :=
  ChunkEvent.mk 3 RPR_CHUNK_REQ 2 (Some [7; 9]) [chunk 0 []; chunk 2 []]
    (CodingMeta.mk RS (DecodingPlan.repairMatrix plan) 4 2 4 4 0) false 0 2
    (2 :: map Z.of_nat (take 2 (DecodingPlan.inputChunkIds plan))) [8; 10]
    "a;b;c;" zero_tag zero_tag zero_tag.

Lemma agent_repair_witness :
  exists a' e' puts, handle_rpr world agent repair_event = Ok (a', e', puts) /\ map snd puts = ["c"] /\
  map Chunk.data (ChunkEvent.chunks e') = [Some [7; 13; 200];
    Some (chunk_bytes rs sample_data 3 2)] /\
  ChunkEvent.opcode e' = RPR_CHUNK_REP_SUCCESS /\
  stored (_containerManager a') 7 (chunk 0 []) = Some [7; 13; 200].
Proof.
  destruct (agent_repair world agent repair_event (sample_options false) rs sample_data 3
    [0; 2]%nat (replicate 16 0) (replicate 16 0) (DecodingPlan.init 0) plan
    ["a"; "b"; "c"] (map Z.of_nat (take 2 (DecodingPlan.inputChunkIds plan))) [8; 10])
    as (a' & e' & puts & Hh & _ & Hc & _ & Hpa & Hs).
  - apply sample_init.
  - apply sample_data_ok.
  - apply sample_ascending. lia.
  - repeat constructor; simpl; lia.
  - simpl. lia.
  - reflexivity.
  - simpl. lia.
  - assert (fst (RSCode.preDecode rs (replicate 16 0) (replicate 16 0) true [0; 2]%nat
         (DecodingPlan.init 0) true) = true) as Hok by (vm_compute; reflexivity).
    unfold plan. destruct (RSCode.preDecode _ _ _ _ _ _ _) as [ok p]. simpl in *. by rewrite Hok.
  - reflexivity.
  - reflexivity.
  - reflexivity.
  - reflexivity.
  - reflexivity.
  - reflexivity.
  - reflexivity.
  - repeat (constructor; [repeat (constructor; [discriminate|]); constructor|]). constructor.
  - reflexivity.
  - reflexivity.
  - reflexivity.
  - assert (take 2 (DecodingPlan.inputChunkIds plan) = [1; 3]%nat) as Hin by (vm_compute; reflexivity).
    intros i id Hi. change (RSCode.k rs) with 2%nat in Hi. rewrite Hin in Hi.
    destruct i as [|[|i]]; [| |discriminate Hi]; injection Hi as <-; [apply peer_a|apply peer_b].
  - assert (ChunkEvent.opcode e' = RPR_CHUNK_REP_SUCCESS) as Hop.
    { assert (match handle_rpr world agent repair_event with
              | Ok (_, x, _) => bool_decide (ChunkEvent.opcode x = RPR_CHUNK_REP_SUCCESS)
              | _ => false end = true) as Hv by (vm_compute; reflexivity).
      rewrite Hh in Hv. by apply bool_decide_eq_true in Hv. }
    exists a', e', puts. split; [exact Hh|]. split; [exact Hpa|]. split; [rewrite Hc; vm_compute; reflexivity|].
    split; [exact Hop|]. destruct (Hs Hop) as [Hst _]. etrans; [exact Hst|]. vm_compute. reflexivity.
Defined.
End AgentSample.
