(* ===== verification/Coordinator.v ===== *)
(** Coordinator messages ([src/common/coordinator.cc], [src/ds/coordinator_event.hh]):
    registration and status messages between an agent and the proxy, and what the
    agent's coordinator answers ([src/agent/coordinator.cc]).

    Floating-point values travel as their bit patterns.  The theorems: reading a
    written event returns the event, restricted to the fields its opcode carries,
    and consumes exactly the message; a status report carries the state of every
    container of the agent, in order. *)

From Stdlib Require String.
From S2P Require Import Prelude DS Wire IO Container ContainerManager.
From S2P Require Import FsContainer FsTheorems ManagerTheorems.

#[local] Open Scope outcome_scope.

(** * Events *)

Definition HOST_TYPE_UNKNOWN : Z := 7.

Module SysInfo.

Record t := mk {
  cpu_num : Z;                       (* char *)
  cpu_usage : list Z;                (* float[256], as bit patterns *)
  mem_total : Z; mem_free : Z;       (* unsigned int *)
  net_in : Z; net_out : Z;           (* double, as bit patterns *)
  hostType : Z                       (* unsigned char *)
}.

Definition init : t := mk 0 (replicate 256 0) 0 0 0 0 HOST_TYPE_UNKNOWN.

End SysInfo.

Module CoordinatorEvent.

Record t := mk {
  opcode : Opcode;
  agentId : Z;                       (* int *)
  agentHostType : Z;                 (* unsigned char *)
  agentAddr : string;
  cport : Z;                         (* unsigned short *)
  numContainers : Z;                 (* int *)
  containerIds : list Z;             (* int * *)
  containerUsage : list Z;           (* unsigned long int * *)
  containerCapacity : list Z;        (* unsigned long int * *)
  containerType : list Z;            (* unsigned char * *)
  sysinfo : SysInfo.t
}.

Definition init : t := mk (opcode_of_num 0) 0 HOST_TYPE_UNKNOWN "" 0 0 [] [] [] [] SysInfo.init.

Definition set_opcode (e : t) (o : Opcode) : t :=
  mk o (agentId e) (agentHostType e) (agentAddr e) (cport e) (numContainers e) (containerIds e)
     (containerUsage e) (containerCapacity e) (containerType e) (sysinfo e).

Definition set_sysinfo (e : t) (s : SysInfo.t) : t :=
  mk (opcode e) (agentId e) (agentHostType e) (agentAddr e) (cport e) (numContainers e)
     (containerIds e) (containerUsage e) (containerCapacity e) (containerType e) s.

End CoordinatorEvent.

(** * Messages *)

Module Coordinator.
Import CoordinatorEvent.

Definition hasData (o : Opcode) : bool :=
  match o with REG_AGENT_REQ | UPD_AGENT_REP | GET_SYSINFO_REP => true | _ => false end.

Definition send_status (e : t) : list frame :=
  let num := numContainers e in
  let addr := string_bytes (agentAddr e) in
  [(le 4 (agentId e), true); (le 1 (agentHostType e), true);
   (le 4 (Z.of_nat (length addr)), true)]
  ++ (if (0 <? length addr)%nat then [(addr, true)] else [])
  ++ [(le 2 (cport e), true); (le 4 num, 0 <? num)]
  ++ (if 0 <? num then
        [(le_ints (take (Z.to_nat num) (containerIds e)), true);
         (le_words 1 (take (Z.to_nat num) (containerType e)), true);
         (le_words 8 (take (Z.to_nat num) (containerUsage e)), true);
         (le_words 8 (take (Z.to_nat num) (containerCapacity e)), false)]
      else []).

Definition send_sysinfo (s : SysInfo.t) : list frame :=
  [(le 1 (SysInfo.cpu_num s), true);
   (le_words 4 (take (Z.to_nat (SysInfo.cpu_num s)) (SysInfo.cpu_usage s)), true);
   (le 4 (SysInfo.mem_total s), true); (le 4 (SysInfo.mem_free s), true);
   (le 8 (SysInfo.net_in s), true); (le 8 (SysInfo.net_out s), false)].

(** A negative CPU count converts to a huge buffer size. *)
Definition sendEventMessage (e : t) : outcome (list frame) :=
  let o := opcode e in
  let first := (le 2 (opcode_num o), hasData o) in
  match o with
  | REG_AGENT_REQ | UPD_AGENT_REP => Ok (first :: send_status e)
  | GET_SYSINFO_REP =>
      if SysInfo.cpu_num (sysinfo e) <? 0 then Undef else Ok (first :: send_sysinfo (sysinfo e))
  | _ => Ok [first]
  end.

Section receiving.
Open Scope parser_scope.

(** An array of [n] elements of [w] bytes, copied out of a frame. *)
Definition get_words (w n : nat) : parser (list Z) :=
  do b <- recv; do x <- first_bytes (w * n) b; pret (unle_words w n x).

Definition get_ints (n : nat) : parser (list Z) :=
  do b <- recv; do x <- first_bytes (4 * n) b; pret (unle_ints n x).

(** The address keeps its previous value when none is sent. *)
Definition get_addr (old : string) : parser string :=
  do len <- IO.get_more get_int;
  if 0 <? len then
    do b <- IO.get_more recv; do x <- first_bytes (Z.to_nat len) b; pret (bytes_string x)
  else pret old.

Definition get_status (e : t) : parser t :=
  do id <- IO.get_more get_int;
  do host <- IO.get_more (get_uint 1);
  do addr <- get_addr (agentAddr e);
  do port <- IO.get_more (get_uint 2);
  do num <- IO.get_more get_int;
  let n := Z.to_nat num in
  if 0 <? num then
    do ids <- IO.get_more (get_ints n);
    do types <- IO.get_more (get_words 1 n);
    do usage <- IO.get_more (get_words 8 n);
    do capacity <- get_words 8 n;
    pret (mk (opcode e) id host addr port num ids usage capacity types (sysinfo e))
  else
    pret (mk (opcode e) id host addr port num (containerIds e) (containerUsage e)
             (containerCapacity e) (containerType e) (sysinfo e)).

(** The received usages overwrite the first entries of the array. *)
Definition get_sysinfo (s : SysInfo.t) : parser SysInfo.t :=
  do num <- IO.get_more (get_uint 1);
  let num := (num + 128) mod 256 - 128 in
  do usage <- IO.get_more (fun fs m => if num <? 0 then Undef else get_words 4 (Z.to_nat num) fs m);
  do total <- IO.get_more (get_uint 4);
  do free <- IO.get_more (get_uint 4);
  do rx <- IO.get_more (get_uint 8);
  do tx <- IO.get_more (get_uint 8);
  pret (SysInfo.mk num (usage ++ drop (length usage) (SysInfo.cpu_usage s)) total free rx tx
          (SysInfo.hostType s)).

(** Reads a message into the event [e]. *)
Definition getEventMessage (e : t) : parser t :=
  do on <- get_uint 2;
  let e := set_opcode e (opcode_of_num on) in
  match opcode e with
  | REG_AGENT_REQ | UPD_AGENT_REP => get_status e
  | GET_SYSINFO_REP => do s <- get_sysinfo (sysinfo e); pret (set_sysinfo e s)
  | _ => pret e
  end.

End receiving.
End Coordinator.

(** * Reading back what was written *)

Section roundtrip.
Import CoordinatorEvent Coordinator.

Definition is_u64 (z : Z) : Prop := 0 <= z < 256 ^ Z.of_nat 8.

(** The status fields fit their types and the arrays have the stated length. *)
Record status_ok (e : t) : Prop := {
  so_id : is_int (agentId e);
  so_host : 0 <= agentHostType e < 256;
  so_addr : Z.of_nat (String.length (agentAddr e)) < 2147483648;
  so_port : 0 <= cport e < 65536;
  so_num : 0 <= numContainers e < 2147483648;
  so_ids : length (containerIds e) = Z.to_nat (numContainers e) /\ Forall is_int (containerIds e);
  so_types : length (containerType e) = Z.to_nat (numContainers e) /\
    Forall (fun z => 0 <= z < 256 ^ Z.of_nat 1) (containerType e);
  so_usage : length (containerUsage e) = Z.to_nat (numContainers e) /\
    Forall is_u64 (containerUsage e);
  so_capacity : length (containerCapacity e) = Z.to_nat (numContainers e) /\
    Forall is_u64 (containerCapacity e)
}.

Record sysinfo_ok (s : SysInfo.t) : Prop := {
  si_num : 0 <= SysInfo.cpu_num s < 128;
  si_usage : length (SysInfo.cpu_usage s) = 256%nat /\
    Forall (fun z => 0 <= z < 256 ^ Z.of_nat 4) (SysInfo.cpu_usage s);
  si_total : 0 <= SysInfo.mem_total s < 4294967296;
  si_free : 0 <= SysInfo.mem_free s < 4294967296;
  si_in : is_u64 (SysInfo.net_in s);
  si_out : is_u64 (SysInfo.net_out s)
}.

Definition message_ok (e : t) : Prop :=
  match opcode e with
  | REG_AGENT_REQ | UPD_AGENT_REP => status_ok e
  | GET_SYSINFO_REP => sysinfo_ok (sysinfo e)
  | _ => True
  end.

(** The event [old] after the status of [e] was read into it. *)
Definition with_status (old e : t) : t :=
  let some := 0 <? numContainers e in
  mk (opcode e) (agentId e) (agentHostType e)
    (if (0 <? String.length (agentAddr e))%nat then agentAddr e else agentAddr old) (cport e)
    (numContainers e)
    (if some then containerIds e else containerIds old)
    (if some then containerUsage e else containerUsage old)
    (if some then containerCapacity e else containerCapacity old)
    (if some then containerType e else containerType old) (sysinfo old).

Definition with_sysinfo (old s : SysInfo.t) : SysInfo.t :=
  let num := Z.to_nat (SysInfo.cpu_num s) in
  SysInfo.mk (SysInfo.cpu_num s)
    (take num (SysInfo.cpu_usage s) ++ drop num (SysInfo.cpu_usage old))
    (SysInfo.mem_total s) (SysInfo.mem_free s) (SysInfo.net_in s) (SysInfo.net_out s)
    (SysInfo.hostType old).

Definition received_event (old e : t) : t :=
  match opcode e with
  | REG_AGENT_REQ | UPD_AGENT_REP => with_status old e
  | GET_SYSINFO_REP => set_sysinfo (set_opcode old (opcode e)) (with_sysinfo (sysinfo old) (sysinfo e))
  | _ => set_opcode old (opcode e)
  end.

Lemma get_words_back w n l m fs m0 :
  length l = n -> Forall (fun z => 0 <= z < 256 ^ Z.of_nat w) l ->
  get_words w n ((le_words w l, m) :: fs) m0 = Ok (l, fs, m).
Proof.
  intros <- HF. unfold get_words. pstep ltac:(apply recv_frame).
  rewrite <- length_le_words. pstep ltac:(apply first_bytes_all). unfold pret.
  by rewrite unle_words_le.
Qed.

Lemma get_ints_back n l m fs m0 : length l = n -> Forall is_int l ->
  get_ints n ((le_ints l, m) :: fs) m0 = Ok (l, fs, m).
Proof.
  intros <- HF. unfold get_ints. pstep ltac:(apply recv_frame).
  rewrite <- length_le_ints. pstep ltac:(apply first_bytes_all). unfold pret.
  by rewrite unle_ints_le.
Qed.

Lemma get_addr_back old s fs : Z.of_nat (String.length s) < 2147483648 ->
  let b := string_bytes s in
  get_addr old ((le 4 (Z.of_nat (length b)), true)
    :: (if (0 <? length b)%nat then [(b, true)] else []) ++ fs) true
  = Ok (if (0 <? String.length s)%nat then s else old, fs, true).
Proof.
  intros Hs b. unfold get_addr. rewrite <- length_string_bytes in Hs. fold b in Hs.
  pstep ltac:(apply get_int_le; lia). rewrite <- (length_string_bytes s). fold b.
  destruct (Nat.ltb_spec 0 (length b)) as [Hp|Hp].
  - rewrite (proj2 (Z.ltb_lt _ _)) by lia. cbn [app]. pstep ltac:(apply recv_frame).
    rewrite Nat2Z.id. pstep ltac:(apply first_bytes_all). unfold pret, b.
    by rewrite bytes_string_bytes.
  - by rewrite (proj2 (Z.ltb_ge _ _)) by lia.
Qed.

Lemma get_status_back old e rest : status_ok e ->
  get_status (set_opcode old (opcode e)) (send_status e ++ rest) true =
  Ok (with_status old e, rest, false).
Proof.
  intros [Hid Hhost Haddr Hport Hnum [Hli Hi] [Hlt Ht] [Hlu Hu] [Hlc Hc]].
  unfold get_status, send_status, with_status. rewrite <- !app_assoc. cbn [app].
  pstep ltac:(apply get_int_le; done). pstep ltac:(apply get_u8_le; done).
  pstep ltac:(by apply get_addr_back). cbn [app].
  pstep ltac:(apply get_u16_le; done). pstep ltac:(apply get_int_le; lia).
  destruct (Z.ltb_spec 0 (numContainers e)) as [Hp|Hp]; [|done].
  cbn [app]. rewrite !take_ge by lia.
  pstep ltac:(by apply get_ints_back).
  pstep ltac:(by apply get_words_back).
  pstep ltac:(by apply get_words_back).
  pstep ltac:(by apply get_words_back). done.
Qed.

Lemma get_sysinfo_back old s rest : sysinfo_ok s ->
  get_sysinfo old (send_sysinfo s ++ rest) true = Ok (with_sysinfo old s, rest, false).
Proof.
  intros [Hnum [Hlu Hu] Ht Hf Hin Hout]. unfold get_sysinfo, send_sysinfo, with_sysinfo.
  assert (length (take (Z.to_nat (SysInfo.cpu_num s)) (SysInfo.cpu_usage s)) =
    Z.to_nat (SysInfo.cpu_num s)) as Hl by (rewrite length_take; lia).
  cbn [app]. pstep ltac:(apply get_u8_le; lia).
  replace ((SysInfo.cpu_num s + 128) mod 256 - 128) with (SysInfo.cpu_num s)
    by (rewrite Z.mod_small; lia).
  rewrite (proj2 (Z.ltb_ge _ _)) by lia.
  pstep ltac:(apply get_words_back; [exact Hl|by apply Forall_take]).
  pstep ltac:(apply get_u32_le; done). pstep ltac:(apply get_u32_le; done).
  pstep ltac:(apply get_uint_le). pstep ltac:(apply get_uint_le).
  unfold pret. rewrite !unle_le, !Z.mod_small, Hl by done. done.
Qed.

(** C34: Reading a coordinator message into an event yields the event with exactly
    the fields its opcode carries overwritten, and consumes exactly the
    message. *)
Theorem coordinator_event_roundtrip old e rest more :
  message_ok e ->
  exists frames, sendEventMessage e = Ok frames /\
  getEventMessage old (frames ++ rest) more = Ok (received_event old e, rest, false).
Proof.
  intros He. unfold message_ok, sendEventMessage, getEventMessage, received_event in *.
  destruct (opcode e) eqn:Ho; try (eexists; split; [done|];
    cbn [app]; pstep ltac:(apply get_u16_le; apply opcode_num_range);
    rewrite opcode_of_num_num; done).
  all: try (eexists; split; [done|]; cbn [app hasData];
    pstep ltac:(apply get_u16_le; apply opcode_num_range);
    rewrite opcode_of_num_num; cbn [opcode set_opcode]; rewrite <- Ho; by apply get_status_back).
  pose proof (si_num _ He). rewrite (proj2 (Z.ltb_ge _ _)) by lia.
  eexists. split; [done|]. cbn [app hasData].
  pstep ltac:(apply get_u16_le; apply opcode_num_range).
  rewrite opcode_of_num_num. cbn [opcode set_opcode sysinfo].
  pstep ltac:(by apply get_sysinfo_back). done.
Qed.
End roundtrip.

(** * The agent's coordinator *)

Module AgentCoordinator.
Section coordinator.
Context {S E : Type} `{Container S E}.

Record config := mk_config {
  agentIP : string; agentPort : Z; agentCPort : Z;
  containerTypes : list Z
}.

Record t := mk {
  _cm : option (ContainerManager.t S);
  _hostType : Z;
  _sysinfo : list SysInfo.t; _latestInfoIdx : nat
}.

Definition prepareStatus (cfg : config) (a : t) (e : CoordinatorEvent.t) : CoordinatorEvent.t :=
  let addr := IO.genAddr (agentIP cfg) (agentPort cfg) in
  let o := CoordinatorEvent.opcode e in
  let id := CoordinatorEvent.agentId e in
  match _cm a with
  | None =>
      CoordinatorEvent.mk o id (_hostType a) addr (agentCPort cfg) 0
        (CoordinatorEvent.containerIds e) (CoordinatorEvent.containerUsage e)
        (CoordinatorEvent.containerCapacity e) (CoordinatorEvent.containerType e)
        (CoordinatorEvent.sysinfo e)
  | Some m =>
      let num := ContainerManager.getNumContainers m in
      let usage := ContainerManager.getContainerUsage m in
      CoordinatorEvent.mk o id (_hostType a) addr (agentCPort cfg) (Z.of_nat num)
        (ContainerManager.getContainerIds m) (map fst usage) (map snd usage)
        (take num (containerTypes cfg)) (CoordinatorEvent.sysinfo e)
  end.

Definition prepareSysInfo (a : t) (e : CoordinatorEvent.t) : CoordinatorEvent.t :=
  let s := default SysInfo.init (_sysinfo a !! _latestInfoIdx a) in
  CoordinatorEvent.set_sysinfo e
    (SysInfo.mk (SysInfo.cpu_num s) (SysInfo.cpu_usage s) (SysInfo.mem_total s)
       (SysInfo.mem_free s) (SysInfo.net_in s) (SysInfo.net_out s) (_hostType a)).

(** The reply to one request of the proxy; other opcodes are not answered. *)
Definition listen_step (cfg : config) (a : t) (e : CoordinatorEvent.t) : option CoordinatorEvent.t :=
  match CoordinatorEvent.opcode e with
  | SYN_PING => Some (CoordinatorEvent.set_opcode e ACK_PING)
  | UPD_AGENT_REQ => Some (prepareStatus cfg a (CoordinatorEvent.set_opcode e UPD_AGENT_REP))
  | GET_SYSINFO_REQ => Some (prepareSysInfo a (CoordinatorEvent.set_opcode e GET_SYSINFO_REP))
  | _ => None
  end.

End coordinator.
Arguments t : clear implicits.
End AgentCoordinator.

Section agent_status.
Import CoordinatorEvent Coordinator AgentCoordinator.
Context {S E : Type} `{Container S E}.

(** The configuration and the containers fit the message. *)
Record report_ok (cfg : AgentCoordinator.config) (a : AgentCoordinator.t S)
    (m : ContainerManager.t S) : Prop := {
  ro_host : 0 <= _hostType a < 256;
  ro_ip : Z.of_nat (String.length (IO.genAddr (agentIP cfg) (agentPort cfg))) < 2147483648;
  ro_port : 0 <= agentCPort cfg < 65536;
  ro_num : 0 < Z.of_nat (ContainerManager.getNumContainers m) < 2147483648;
  ro_ids : Forall is_int (ContainerManager.getContainerIds m);
  ro_types : (ContainerManager.getNumContainers m <= length (containerTypes cfg))%nat /\
    Forall (fun z => 0 <= z < 256 ^ Z.of_nat 1) (containerTypes cfg);
  ro_usage : Forall (fun p => is_u64 (fst p) /\ is_u64 (snd p)) (ContainerManager.getContainerUsage m)
}.

(** When the proxy asks an agent for its status, what it reads from the reply
    lists every container of the agent, in order, with its id, its usage and its
    capacity. *)
Theorem agent_status_report cfg (a : AgentCoordinator.t S) m req old rest more :
  _cm a = Some m -> report_ok cfg a m -> is_int (agentId req) -> opcode req = UPD_AGENT_REQ ->
  exists rep frames e, listen_step cfg a req = Some rep /\ sendEventMessage rep = Ok frames /\
  getEventMessage old (frames ++ rest) more = Ok (e, rest, false) /\
  opcode e = UPD_AGENT_REP /\ numContainers e = Z.of_nat (length (ContainerManager._containerPtrs m)) /\
  containerIds e = ContainerManager._containerPtrs m /\
  zip (containerUsage e) (containerCapacity e) = ContainerManager.getContainerUsage m.
Proof.
  intros Hcm [Hh Hip Hp Hn Hi [Hlt Ht] Hu] Hid Hop. unfold listen_step. rewrite Hop.
  set (rep := prepareStatus cfg a (set_opcode req UPD_AGENT_REP)).
  assert (length (ContainerManager.getContainerUsage m) = ContainerManager.getNumContainers m) as Hl
    by (unfold ContainerManager.getContainerUsage; by rewrite length_map).
  assert (opcode rep = UPD_AGENT_REP) as Hro by (unfold rep, prepareStatus; by rewrite Hcm).
  assert (status_ok rep) as Hok.
  { unfold rep, prepareStatus. rewrite Hcm. constructor; cbn; rewrite ?Nat2Z.id; try done; try lia.
    - split; [rewrite length_take; lia|by apply Forall_take].
    - rewrite length_map. split; [lia|]. apply Forall_map. eapply Forall_impl; [exact Hu|]. by intros ? [].
    - rewrite length_map. split; [lia|]. apply Forall_map. eapply Forall_impl; [exact Hu|]. by intros ? []. }
  assert (sendEventMessage rep = Ok ((le 2 (opcode_num UPD_AGENT_REP), true) :: send_status rep))
    as Hsend by (unfold sendEventMessage; by rewrite Hro).
  exists rep, ((le 2 (opcode_num UPD_AGENT_REP), true) :: send_status rep), (with_status old rep).
  split; [done|]. split; [done|]. split.
  { unfold getEventMessage. cbn [app].
    pstep ltac:(apply get_u16_le; apply opcode_num_range). rewrite opcode_of_num_num.
    cbn [opcode set_opcode]. rewrite <- Hro. by apply get_status_back. }
  unfold with_status, rep, prepareStatus. rewrite Hcm.
  cbn. rewrite (proj2 (Z.ltb_lt _ _)) by lia. split_and!; [done|done|done|].
  rewrite zip_fst_snd. done.
Qed.
End agent_status.

(** * Witnesses *)

Module CoordinatorSample.
Import FsSample ManagerSample.
#[local] Existing Instances files_container.

Definition registration : CoordinatorEvent.t :=
  CoordinatorEvent.mk REG_AGENT_REQ 0 0 "tcp://h:1" 59001 2 [7; 8] [0; 10] [100; 200] [0; 0]
    SysInfo.init.

Lemma coordinator_event_roundtrip_witness :
  exists frames, Coordinator.sendEventMessage registration = Ok frames /\
  Coordinator.getEventMessage CoordinatorEvent.init (frames ++ [([1], false)]) false =
  Ok (registration, [([1], false)], false).
Proof.
  apply (coordinator_event_roundtrip CoordinatorEvent.init registration [([1], false)] false).
  constructor; cbn; unfold is_int, is_u64; rewrite ?Nat2Z.id; try lia;
    (split; [reflexivity|repeat constructor; lia]).
Defined.

Definition cfg : AgentCoordinator.config := AgentCoordinator.mk_config "h" 57001 59001 [0; 0; 3].
Definition coordinator : AgentCoordinator.t FsContainer.t :=
  AgentCoordinator.mk (Some mgr) 2 [SysInfo.init] 0.
Definition request : CoordinatorEvent.t :=
  CoordinatorEvent.set_opcode CoordinatorEvent.init UPD_AGENT_REQ.

Lemma sample_usage : ContainerManager.getContainerUsage mgr = [(0, 100); (0, 100)].
Proof. vm_compute. reflexivity. Qed.

Lemma agent_status_report_witness :
  exists rep frames e, AgentCoordinator.listen_step cfg coordinator request = Some rep /\
  Coordinator.sendEventMessage rep = Ok frames /\
  Coordinator.getEventMessage CoordinatorEvent.init (frames ++ []) false = Ok (e, [], false) /\
  CoordinatorEvent.containerIds e = [7; 8] /\
  zip (CoordinatorEvent.containerUsage e) (CoordinatorEvent.containerCapacity e) =
    [(0, 100); (0, 100)].
Proof.
  destruct (agent_status_report cfg coordinator mgr request CoordinatorEvent.init [] false)
    as (rep & frames & e & Hl & Hs & Hg & _ & _ & Hi & Hz).
  - reflexivity.
  - constructor; unfold is_int, is_u64; [simpl; lia|vm_compute; reflexivity|simpl; lia|cbn; lia| | |].
    + repeat constructor; lia.
    + split; [cbn; lia|repeat constructor; lia].
    + rewrite sample_usage. repeat constructor; simpl; lia.
  - unfold is_int. cbn. lia.
  - reflexivity.
  - exists rep, frames, e. split; [exact Hl|]. split; [exact Hs|]. split; [exact Hg|].
    split; [exact Hi|exact (eq_trans Hz sample_usage)].
Defined.
End CoordinatorSample.
