(* ===== verification/ProxyCoordinator.v ===== *)
(** The proxy's coordinator ([src/proxy/coordinator.cc]): which agents and
    containers there are, which of them are alive, where new chunks go, and which
    chunks share an agent.

    The maps and sets of the class are stdpp's; iterating over them is iterating
    over the sorted keys.  An agent's arrays are the list of its containers (the
    first [numContainers] entries), and touching an entry beyond them is [Undef].
    [Fail] is an exception nobody catches.  What the agents answer on their
    sockets, the clock and the configuration are the [world] of a call. *)

From Stdlib Require Import SpecFloat.
From S2P Require Import Prelude DS Wire IO Coordinator.

#[local] Open Scope outcome_scope.

(** * Utilisation

    [float usage = used * 1.0 / capacity]: both numbers are converted to double,
    divided, and the quotient is rounded to float. *)

Definition double_of (z : Z) : spec_float := binary_normalize 53 1024 z 0 false.

Definition float_of_double (x : spec_float) : spec_float :=
  match x with
  | S754_finite s m e => binary_normalize 24 128 (if s then Zneg m else Zpos m) e s
  | _ => x
  end.

Definition utilization (used capacity : Z) : spec_float :=
  float_of_double (SFdiv 53 1024 (double_of used) (double_of capacity)).

(** [multimap::insert]: after the entries with an equal key. *)
Fixpoint multimap_insert (k : spec_float) (v : nat) (m : list (spec_float * nat))
    : list (spec_float * nat) :=
  match m with
  | [] => [(k, v)]
  | (k', v') :: m' => if SFltb k k' then (k, v) :: m else (k', v') :: multimap_insert k v m'
  end.

Inductive DistributionPolicy := STATIC | POLICY_RR | POLICY_LU.

#[global] Instance DistributionPolicy_eq_dec : EqDecision DistributionPolicy.
Proof. solve_decision. Defined.

Module ProxyCoordinator.

Definition NUM_MAX_CONTAINER_PER_AGENT : nat := 16.

(** One entry of the container arrays of an agent. *)
Record slot := mk_slot {
  containerId : Z;                   (* int *)
  containerUsage : Z;                (* unsigned long int *)
  containerCapacity : Z;             (* unsigned long int *)
  containerType : Z                  (* unsigned char *)
}.

#[global] Instance slot_inhabited : Inhabited slot := populate (mk_slot INVALID_CONTAINER_ID 0 0 0).

Record AgentInfo := mk_info {
  socket : bool;                     (* whether there is one *)
  hostType : Z;
  isNear : bool;
  startingContainerIndex : nat;
  containers : list slot;
  utilizationMap : list (spec_float * nat);
  sysinfo : SysInfo.t
}.

Record t := mk {
  _containerToAgentMap : gmap Z string;
  _agentStatus : gmap string bool;
  _agents : gmap string AgentInfo;
  _aliveAgents : gset string;
  _lastCheckedTime : Z;
  _startingAgentIdx : nat
}.

Definition set_maps (s : t) (cm : gmap Z string) (ag : gmap string AgentInfo) : t :=
  mk cm (_agentStatus s) ag (_aliveAgents s) (_lastCheckedTime s) (_startingAgentIdx s).

Definition set_agent (s : t) (ip : string) (info : AgentInfo) : t :=
  set_maps s (_containerToAgentMap s) (<[ip := info]> (_agents s)).

Definition set_checked (s : t) (time : Z) : t :=
  mk (_containerToAgentMap s) (_agentStatus s) (_agents s) (_aliveAgents s) time (_startingAgentIdx s).

(** The answer on the socket of an agent: an error of the socket, no answer or an
    unexpected one, or the answer asked for. *)
Inductive answer (A : Type) := Unreachable | NoAnswer | Answer (a : A).
Arguments Unreachable {A}.
Arguments NoAnswer {A}.
Arguments Answer {A} a.

Record world := mk_world {
  now : Z;
  livenessCacheTime : Z;
  pong : string -> bool;
  status_of : string -> answer CoordinatorEvent.t;
  sysinfo_of : string -> answer SysInfo.t;
  connects : string -> bool;
  isAgentNear : string -> bool;
  policy : DistributionPolicy
}.

(** ** Liveness of agents *)

Definition setAgentAlive (s : t) (ip : string) : t :=
  mk (_containerToAgentMap s) (<[ip := true]> (_agentStatus s)) (_agents s)
     ({[ ip ]} ∪ _aliveAgents s) (_lastCheckedTime s) (_startingAgentIdx s).

Definition setAgentDown (s : t) (ip : string) : bool * t :=
  let known := bool_decide (is_Some (_agentStatus s !! ip)) in
  (known,
   mk (_containerToAgentMap s)
      (if known then <[ip := false]> (_agentStatus s) else _agentStatus s) (_agents s)
      (_aliveAgents s ∖ {[ ip ]}) (_lastCheckedTime s) (_startingAgentIdx s)).

Definition set_socket (i : AgentInfo) (b : bool) : AgentInfo :=
  mk_info b (hostType i) (isNear i) (startingContainerIndex i) (containers i) (utilizationMap i)
    (sysinfo i).

(** An agent that cannot be reached: down, and its socket closed. *)
Definition lose_agent (s : t) (ip : string) (info : AgentInfo) : t :=
  set_agent (snd (setAgentDown s ip)) ip (set_socket info false).

Definition agent_ips (s : t) : list string :=
  merge_sort String.le (elements (dom (_agents s))).

Definition alive_ips (s : t) : list string :=
  merge_sort String.le (elements (_aliveAgents s)).

Definition ping_step (w : world) (s : t) (ip : string) : t :=
  match _agents s !! ip with
  | Some info => if socket info && negb (pong w ip) then lose_agent s ip info else s
  | None => s
  end.

Definition pingAgents (w : world) (s : t) : t := foldl (ping_step w) s (agent_ips s).

(** ** Status updates *)

(** The first entry, from [j] on and around, whose id is [id]. *)
Fixpoint find_slot (cs : list slot) (id : Z) (num j fuel : nat) : outcome (option nat) :=
  match fuel with
  | O => Ok None
  | Datatypes.S fuel =>
      let* c := access (cs !! j) in
      if containerId c =? id then Ok (Some j) else find_slot cs id num ((j + 1) mod num) fuel
  end.

(** The update of the containers with the reported values: the entry [j] of the
    container that is entry [i] of the report gets the values at [j] of the
    report. *)
Definition status_step (e : CoordinatorEvent.t) (num i : nat)
    (st : list slot * list (spec_float * nat)) : outcome (list slot * list (spec_float * nat)) :=
  let (cs, um) := st in
  let* id := access (CoordinatorEvent.containerIds e !! i) in
  let* found := find_slot cs id num i num in
  let* cs := match found with
             | Some j =>
                 let* u := access (CoordinatorEvent.containerUsage e !! j) in
                 let* c := access (CoordinatorEvent.containerCapacity e !! j) in
                 let* ty := access (CoordinatorEvent.containerType e !! j) in
                 Ok (<[j := mk_slot id u c ty]> cs)
             | None => Ok cs
             end in
  let* u := access (CoordinatorEvent.containerUsage e !! i) in
  let* c := access (CoordinatorEvent.containerCapacity e !! i) in
  Ok (cs, multimap_insert (utilization u c) i um).

Definition update_info (info : AgentInfo) (e : CoordinatorEvent.t) : outcome AgentInfo :=
  let num := Z.to_nat (CoordinatorEvent.numContainers e) in
  let* (cs, um) := for_outcome (status_step e num) 0 num (containers info, []) in
  Ok (mk_info (socket info) (CoordinatorEvent.agentHostType e) (isNear info)
        (startingContainerIndex info) cs um (sysinfo info)).

Definition set_agent_sysinfo (i : AgentInfo) (si : SysInfo.t) : AgentInfo :=
  mk_info (socket i) (hostType i) (isNear i) (startingContainerIndex i) (containers i)
    (utilizationMap i) si.

Definition update_agent (w : world) (s : t) (ip : string) : outcome t :=
  match _agents s !! ip with
  | Some info =>
      if negb (socket info) then Ok s
      else match status_of w ip with
           | Unreachable => Ok (lose_agent s ip info)
           | NoAnswer => Ok s
           | Answer e =>
               let* info := update_info info e in
               match sysinfo_of w ip with
               | Unreachable => Ok (lose_agent s ip info)
               | NoAnswer => Ok (set_agent s ip info)
               | Answer si =>
                   Ok (set_agent s ip (if 0 <? CoordinatorEvent.numContainers e
                                       then set_agent_sysinfo info si else info))
               end
           end
  | None => Ok s
  end.

Fixpoint update_agents (w : world) (s : t) (ips : list string) : outcome t :=
  match ips with
  | [] => Ok s
  | ip :: ips => let* s := update_agent w s ip in update_agents w s ips
  end.

Definition updateAgentStatus (w : world) (s : t) : outcome t := update_agents w s (agent_ips s).

(** The update is skipped while the last one is recent. *)
Definition refresh (w : world) (s : t) : outcome t :=
  if _lastCheckedTime s + livenessCacheTime w <? now w then
    let* s := updateAgentStatus w s in Ok (set_checked s (now w))
  else Ok s.

(** ** Liveness of containers *)

(** The status array and the number of failures after entry [i]. *)
Definition liveness_step (s : t) (ids : list Z) (checkAllFailures treatUnusedAsOffline : bool)
    (i : nat) (st : list bool * Z) : step (list bool * Z) :=
  let (status, numFailed) := st in
  let id := ids !!! i in
  let failed := (<[i := false]> status, numFailed + 1) in
  let stop (x : list bool * Z) := if checkAllFailures then Continue x else Break x in
  if id =? UNUSED_CONTAINER_ID then
    if treatUnusedAsOffline then stop failed else Continue (status, numFailed)
  else match _containerToAgentMap s !! id with
       | None => stop failed
       | Some addr =>
           match _agentStatus s !! IO.getAddrIP addr with
           | Some alive => Continue (<[i := alive]> status, numFailed + Z.b2z (negb alive))
           | None => stop failed
           end
       end.

(** Returns the number of failures, and the status array [status] overwritten. *)
Definition checkContainerLiveness (w : world) (s : t) (ids : list Z) (status : list bool)
    (updateStatusFirst checkAllFailures treatUnusedAsOffline : bool)
    : outcome (Z * list bool * t) :=
  let* s := if updateStatusFirst then refresh w s else Ok s in
  let (status, numFailed) :=
    step_state (for_break (liveness_step s ids checkAllFailures treatUnusedAsOffline)
                  0 (length ids) (status, 0)) in
  Ok (numFailed, status, s).

(** [k] is the parameter of the storage class. *)
Definition countable (skipFull : bool) (k : Z) (c : slot) : bool :=
  negb (skipFull && (containerCapacity c <=? u64 (u64 (containerUsage c + 1) + u64 (2 * k)))).

Fixpoint count_containers (s : t) (skipFull : bool) (k : Z) (ips : list string) : outcome nat :=
  match ips with
  | [] => Ok 0%nat
  | a :: ips =>
      match _agents s !! a with
      | None => Fail
      | Some info =>
          let* n := count_containers s skipFull k ips in
          Ok (length (filter (fun c => countable skipFull k c = true) (containers info)) + n)%nat
      end
  end.

Definition getNumAliveContainers (w : world) (s : t) (skipFull : bool) (k : Z) : outcome (nat * t) :=
  let* s := updateAgentStatus w s in
  let* n := count_containers s skipFull k (alive_ips s) in
  Ok (n, s).

(** ** Placement *)

(** The containers in use, and how many of them each agent has. *)
Definition pool_step (s : t) (ids : list Z) (status : list bool) (i : nat)
    (st : gset Z * gmap string Z) : gset Z * gmap string Z :=
  let (pool, count) := st in
  let id := ids !!! i in
  if negb (status !!! i) then st
  else if bool_decide (id ∈ pool) then st
  else ({[ id ]} ∪ pool,
        match _containerToAgentMap s !! id with
        | None => count
        | Some addr => let ip := IO.getAddrIP addr in
                       <[ip := default 0 (count !! ip) + 1]> count
        end).

Record placement := mk_placement {
  numSpare : nat;
  pool : gset Z;                     (* containers already in use *)
  counts : gmap string Z;            (* of them, per agent *)
  limit : Z;                         (* containers per agent *)
  fsize : Z; coding_k : Z;
  order : DistributionPolicy;
  first_agent : nat                  (* _startingAgentIdx *)
}.

(** [(fsize + 2 * k) / k], the space a chunk needs. *)
Definition chunk_need (p : placement) : outcome Z :=
  if coding_k p =? 0 then Undef
  else Ok (u64 (fsize p + u64 (2 * coding_k p)) / u64 (coding_k p)).

Definition too_full (c : slot) (need : Z) : bool :=
  containerCapacity c <? u64 (containerUsage c + need).

Record scan := mk_scan {
  spare : list Z; skipped : list Z;
  local : nat;                       (* localSelected *)
  cidx : nat;
  uit : list (spec_float * nat);     (* the iterator: the rest of the map *)
  start : nat                        (* info.startingContainerIndex *)
}.

Definition low_priority (p : placement) (info : AgentInfo) (agentCount : nat) : bool :=
  (agentCount <? first_agent p)%nat || (bool_decide (order p = STATIC) && negb (isNear info)).

(** The container at the current index is taken. *)
Definition take_container (p : placement) (info : AgentInfo) (agentCount : nat) (id : Z) (sc : scan)
    : scan :=
  if low_priority p info agentCount then
    mk_scan (spare sc) (skipped sc ++ [id]) (local sc + 1) (cidx sc) (uit sc) (start sc)
  else
    mk_scan (spare sc ++ [id]) (skipped sc) (local sc + 1) (cidx sc) (uit sc)
      (if bool_decide (order p = POLICY_RR) && (local sc =? 0)%nat
          && (0 <? length (containers info))%nat
       then ((cidx sc + 1) mod length (containers info))%nat else start sc).

Definition set_cidx (sc : scan) (j : nat) (u : list (spec_float * nat)) : scan :=
  mk_scan (spare sc) (skipped sc) (local sc) j u (start sc).

(** The loop over the containers of an agent, [fuel] iterations before
    [numScreened] reaches [toScreen]. *)
Fixpoint screen (p : placement) (info : AgentInfo) (agentCount toScreen fuel : nat) (sc : scan)
    : outcome scan :=
  match fuel with
  | O => Ok sc
  | Datatypes.S fuel =>
      if negb ((length (spare sc) <? numSpare p)%nat && (Z.of_nat (local sc) <? limit p))
      then Ok sc
      else
        let* c := access (containers info !! cidx sc) in
        let next := ((cidx sc + 1) mod toScreen)%nat in
        if bool_decide (containerId c ∈ pool p) then
          screen p info agentCount toScreen fuel
            (mk_scan (spare sc) (skipped sc) (local sc + 1) next (uit sc) (start sc))
        else
          let* need := chunk_need p in
          if too_full c need then screen p info agentCount toScreen fuel sc
          else
            let sc := take_container p info agentCount (containerId c) sc in
            if bool_decide (order p = POLICY_LU) then
              match uit sc with
              | _ :: (((_, j) :: _) as u) => screen p info agentCount toScreen fuel (set_cidx sc j u)
              | _ => Ok sc
              end
            else screen p info agentCount toScreen fuel (set_cidx sc next (uit sc))
  end.

Definition set_start (i : AgentInfo) (n : nat) : AgentInfo :=
  mk_info (socket i) (hostType i) (isNear i) n (containers i) (utilizationMap i) (sysinfo i).

(** The scan of one agent; [None] when the agent is skipped. *)
Definition screen_agent (p : placement) (ip : string) (info : AgentInfo) (agentCount : nat)
    (sel skip : list Z) : outcome (option scan) :=
  if limit p <=? default (limit p - 1) (counts p !! ip) then Ok None
  else if bool_decide (order p = POLICY_LU) then
    match utilizationMap info with
    | [] => Ok None
    | (_, j) :: _ =>
        let n := length (utilizationMap info) in
        let* sc := screen p info agentCount n n
                     (mk_scan sel skip 0 j (utilizationMap info) (startingContainerIndex info)) in
        Ok (Some sc)
    end
  else
    let n := length (containers info) in
    let* sc := screen p info agentCount n n
                 (mk_scan sel skip 0 (startingContainerIndex info) (utilizationMap info)
                    (startingContainerIndex info)) in
    Ok (Some sc).

(** The loop over the agents that are alive. *)
Fixpoint screen_agents (p : placement) (ips : list string) (agentCount : nat)
    (sel skip : list Z) (ag : gmap string AgentInfo)
    : outcome (list Z * list Z * gmap string AgentInfo) :=
  match ips with
  | [] => Ok (sel, skip, ag)
  | a :: ips =>
      match ag !! a with
      | None => Fail
      | Some info =>
          let* r := screen_agent p a info agentCount sel skip in
          match r with
          | None => screen_agents p ips agentCount sel skip ag
          | Some sc =>
              let ag := <[a := set_start info (start sc)]> ag in
              if (numSpare p <=? length (spare sc))%nat then Ok (spare sc, skipped sc, ag)
              else screen_agents p ips (agentCount + 1) (spare sc) (skipped sc) ag
          end
      end
  end.

Definition placement_of (w : world) (s : t) (ids : list Z) (status : list bool) (num : nat)
    (size : Z) (m : CodingMeta.t) : placement :=
  let (pl, count) := for_loop (pool_step s ids status) 0 (length ids) (∅, ∅) in
  let f := CodingMeta.f m in
  mk_placement num pl count
    (if 0 <? f then Z.quot (CodingMeta.n m - CodingMeta.k m) f else CodingMeta.n m)
    size (CodingMeta.k m) (policy w) (_startingAgentIdx s).

(** Returns the containers found.  A null array of ids or of their status is the
    empty list. *)
Definition findSpareContainers (w : world) (s : t) (ids : list Z) (status : list bool) (num : Z)
    (size : Z) (m : CodingMeta.t) : outcome (list Z * t) :=
  if num <=? 0 then Ok ([], s)
  else
    let* s := refresh w s in
    let p := placement_of w s ids status (Z.to_nat num) size m in
    let* (sel, skip, ag) := screen_agents p (alive_ips s) 0 [] [] (_agents s) in
    let alive := base.size (_aliveAgents s) in
    Ok (sel ++ take (numSpare p - length sel) skip,
        mk (_containerToAgentMap s) (_agentStatus s) ag (_aliveAgents s) (_lastCheckedTime s)
          (if bool_decide (order p = POLICY_RR) && (0 <? alive)%nat
           then ((_startingAgentIdx s + 1) mod alive)%nat else _startingAgentIdx s)).

(** ** Chunks by agent *)

(** An array write. *)
Definition write {A} (l : list A) (i : nat) (x : A) : outcome (list A) :=
  if (i <? length l)%nat then Ok (<[i := x]> l) else Undef.

Record groups := mk_groups {
  group_of : gmap string nat;        (* agentToGroupMap *)
  group_size : list nat;
  num_groups : nat;
  chunk_groups : list Z
}.

Definition group_step (s : t) (ids : list Z) (status : list bool) (i : nat) (g : groups)
    : outcome groups :=
  if negb (status !!! i) then Ok g
  else match _containerToAgentMap s !! (ids !!! i) with
       | None => Ok g
       | Some agent =>
           let fresh := bool_decide (group_of g !! agent = None) in
           let gm := if fresh then <[agent := num_groups g]> (group_of g) else group_of g in
           let num := if fresh then (num_groups g + 1)%nat else num_groups g in
           let id := default 0%nat (gm !! agent) in
           let* size := access (group_size g !! id) in
           let* cg := write (chunk_groups g) (id * (length ids + 1) + size + 1) (Z.of_nat i) in
           Ok (mk_groups gm (<[id := (size + 1)%nat]> (group_size g)) num cg)
       end.

(** [cg] is the caller's array.  Returns the number of groups and the array. *)
Definition findChunkGroups (s : t) (ids : list Z) (status : list bool) (cg : list Z)
    : outcome (nat * list Z) :=
  let n := length ids in
  let* g := for_outcome (group_step s ids status) 0 n (mk_groups ∅ (replicate n 0%nat) 0 cg) in
  let* cg := for_outcome (fun i cg =>
               let* size := access (group_size g !! i) in
               write cg (i * (n + 1)) (Z.of_nat size)) 0 (num_groups g) (chunk_groups g) in
  Ok (num_groups g, cg).

(** ** Registration *)

Definition set_containers (i : AgentInfo) (cs : list slot) : AgentInfo :=
  mk_info (socket i) (hostType i) (isNear i) (startingContainerIndex i) cs (utilizationMap i)
    (sysinfo i).

(** The four [memmove]s over entries of the given sizes stay within the arrays. *)
Definition memmove_ok (j num : nat) : bool :=
  forallb (fun sz => (j + 1) * sz + (sz * num - j - 1) <=? sz * NUM_MAX_CONTAINER_PER_AGENT)%nat
          [4; 8; 8; 1]%nat.

Fixpoint index_of (cs : list slot) (id : Z) (j : nat) : option nat :=
  match cs with
  | [] => None
  | c :: cs => if containerId c =? id then Some j else index_of cs id (j + 1)
  end.

(** The entry of the container is overwritten by the entries after it, and the
    number of containers goes down by one whether or not it was found. *)
Definition remove_container (cs : list slot) (id : Z) : outcome (list slot) :=
  let n := length cs in
  match index_of cs id 0 with
  | Some j => if (j + 1 <? n)%nat then
                if memmove_ok j n then Ok (delete j cs) else Undef
              else Ok (take (n - 1) cs)
  | None => Ok (take (n - 1) cs)
  end.

Definition unmap (ids : list Z) (cm : gmap Z string) : gmap Z string :=
  foldl (fun m id => delete id m) cm ids.

Record registration := mk_reg {
  reg_map : gmap Z string;
  reg_agents : gmap string AgentInfo;
  reg_slots : list slot;
  reg_util : list (spec_float * nat)
}.

(** Entry [i] becomes a container of the agent. *)
Definition add_slot (e : CoordinatorEvent.t) (i : nat) (r : registration) : outcome registration :=
  if (NUM_MAX_CONTAINER_PER_AGENT <=? length (reg_slots r))%nat then Undef
  else
    let* id := access (CoordinatorEvent.containerIds e !! i) in
    let* u := access (CoordinatorEvent.containerUsage e !! i) in
    let* c := access (CoordinatorEvent.containerCapacity e !! i) in
    let* ty := access (CoordinatorEvent.containerType e !! i) in
    Ok (mk_reg (reg_map r) (reg_agents r) (reg_slots r ++ [mk_slot id u c ty])
          (multimap_insert (utilization u c) (length (reg_slots r)) (reg_util r))).

(** The mapping of entry [i]: [None] when the registration is refused. *)
Definition claim (s : t) (e : CoordinatorEvent.t) (id : Z) (r : registration)
    : outcome (option registration) :=
  let addr := CoordinatorEvent.agentAddr e in
  match reg_map r !! id with
  | None => Ok (Some (mk_reg (<[id := addr]> (reg_map r)) (reg_agents r) (reg_slots r) (reg_util r)))
  | Some orig =>
      let ip := IO.getAddrIP orig in
      let* live := if bool_decide (orig = addr) then Ok false
                   else match _agentStatus s !! ip with Some b => Ok b | None => Fail end in
      if (live : bool) then Ok None
      else match reg_agents r !! ip with
           | None => Ok None
           | Some info =>
               let* cs := remove_container (containers info) id in
               Ok (Some (mk_reg (<[id := addr]> (reg_map r))
                           (<[ip := set_containers info cs]> (reg_agents r))
                           (reg_slots r) (reg_util r)))
           end
  end.

(** The loop over the containers of the event, from [i] on. *)
Fixpoint register_loop (s : t) (e : CoordinatorEvent.t) (i n : nat) (r : registration)
    : outcome (bool * registration) :=
  match n with
  | O => Ok (true, r)
  | Datatypes.S n =>
      let* id := access (CoordinatorEvent.containerIds e !! i) in
      let* c := claim s e id r in
      match c with
      | None =>
          Ok (false, mk_reg (unmap (take i (CoordinatorEvent.containerIds e)) (reg_map r))
                       (reg_agents r) (reg_slots r) (reg_util r))
      | Some r => let* r := add_slot e i r in register_loop s e (i + 1) n r
      end
  end.

Definition registerAgent (w : world) (s : t) (e : CoordinatorEvent.t) : outcome (bool * t) :=
  let* (success, r) := register_loop s e 0 (Z.to_nat (CoordinatorEvent.numContainers e))
                         (mk_reg (_containerToAgentMap s) (_agents s) [] []) in
  let s := set_maps s (reg_map r) (reg_agents r) in
  if success then
    let ip := IO.getAddrIP (CoordinatorEvent.agentAddr e) in
    let s := setAgentAlive s ip in
    let info := mk_info (connects w (IO.genAddr ip (CoordinatorEvent.cport e)))
                  (CoordinatorEvent.agentHostType e) (isAgentNear w ip) 0 (reg_slots r)
                  (reg_util r) SysInfo.init in
    let cm := match _agents s !! ip with
              | Some old => unmap (map containerId (containers old)) (_containerToAgentMap s)
              | None => _containerToAgentMap s
              end in
    Ok (true, set_maps s cm (<[ip := info]> (_agents s)))
  else Ok (false, s).

(** One request of the listening loop; the count of containers is looked at, but
    does not matter. *)
Definition handle_event (w : world) (s : t) (e : CoordinatorEvent.t)
    : outcome (CoordinatorEvent.t * t) :=
  match CoordinatorEvent.opcode e with
  | REG_AGENT_REQ =>
      let* (ok, s) := registerAgent w s e in
      Ok (CoordinatorEvent.set_opcode e (if ok then REG_AGENT_REP_SUCCESS else REG_AGENT_REP_FAIL), s)
  | _ => Ok (e, s)
  end.

(** The agents of the configuration, each asked for its status. *)
Fixpoint registerPresetAgents (w : world) (s : t) (l : list (string * Z)) : outcome t :=
  match l with
  | [] => Ok s
  | (ip, port) :: l =>
      if negb (connects w (IO.genAddr ip port)) then registerPresetAgents w s l
      else match status_of w ip with
           | Answer e => let* (_, s) := registerAgent w s e in registerPresetAgents w s l
           | _ => registerPresetAgents w s l
           end
  end.

(** ** Reports *)

Definition getAgentStatus (w : world) (s : t) : outcome (list (string * AgentInfo) * t) :=
  let* s := updateAgentStatus w s in
  Ok (omap (fun ip => (fun i => (IO.getAddrIP ip, i)) <$> _agents s !! ip) (agent_ips s), s).

(** Minimum capacity, maximum usage, containers with a live agent, containers. *)
Definition usage_step (st : Z * Z * nat * nat) (info : AgentInfo) : Z * Z * nat * nat :=
  foldl (fun '(mc, mu, alive, num) c =>
           (Z.min mc (containerCapacity c), Z.max mu (containerUsage c),
            (alive + Nat.b2n (socket info))%nat, (num + 1)%nat)) st (containers info).

Definition getStorageUsage (w : world) (s : t) (n k : Z) : outcome (Z * Z * t) :=
  let* s := updateAgentStatus w s in
  let '(minCapacity, maxUsage, alive, num) :=
    foldl usage_step (18446744073709551615, 0, 0%nat, 0%nat)
          (omap (fun ip => _agents s !! ip) (agent_ips s)) in
  let* (usage, capacity) :=
    if Z.of_nat alive <=? n then Ok (u64 (maxUsage * k), u64 (minCapacity * k))
    else if n =? 0 then Undef
    else Ok (u64 (u64 (maxUsage * Z.of_nat num) / u64 n * k),
             u64 (u64 (minCapacity * Z.of_nat num) / u64 n * k)) in
  Ok (usage, if Z.of_nat alive <? k then usage else capacity, s).

End ProxyCoordinator.
