(* ===== verification/ZmqMessages.v ===== *)
(** Messages between the clients and the proxy: the operation codes
    ([src/common/zmq_int_define.hh]), requests and replies ([src/ds/request_reply.hh]),
    and how the proxy reads the one and writes the other ([src/proxy/interfaces/zmq.hh],
    [src/proxy/interfaces/zmq.cc]).

    A message is a list of frames.  Floating-point values travel as their bit
    patterns.  [malloc n] is whether [n] bytes can be allocated. *)

From Stdlib Require String.
From S2P Require Import Prelude DS Wire IO FileInfo Coordinator ProxyCoordinator.

#[local] Open Scope Z_scope.
#[local] Open Scope outcome_scope.

(** * Operation codes *)

Inductive ClientOpcode :=
| WRITE_FILE_REQ | WRITE_FILE_REP_SUCCESS | WRITE_FILE_REP_FAIL
| READ_FILE_REQ | READ_FILE_REP_SUCCESS | READ_FILE_REP_FAIL
| APPEND_FILE_REQ | APPEND_FILE_REP_SUCCESS | APPEND_FILE_REP_FAIL
| GET_APPEND_SIZE_REQ | GET_APPEND_SIZE_REP_SUCCESS | GET_APPEND_SIZE_REP_FAIL
| DEL_FILE_REQ | DEL_FILE_REP_SUCCESS | DEL_FILE_REP_FAIL
| READ_FILE_RANGE_REQ | READ_FILE_RANGE_REP_SUCCESS | READ_FILE_RANGE_REP_FAIL
| GET_READ_SIZE_REQ | GET_READ_SIZE_REP_SUCCESS | GET_READ_SIZE_REP_FAIL
| RENAME_FILE_REQ | RENAME_FILE_REP_SUCCESS | RENAME_FILE_REP_FAIL
| GET_CAPACITY_REQ | GET_CAPACITY_REP_SUCCESS | GET_CAPACITY_REP_FAIL
| GET_FILE_LIST_REQ | GET_FILE_LIST_REP_SUCCESS | GET_FILE_LIST_REP_FAIL
| GET_AGENT_STATUS_REQ | GET_AGENT_STATUS_REP_SUCCESS | GET_AGENT_STATUS_REP_FAIL
| OVERWRITE_FILE_REQ | OVERWRITE_FILE_REP_SUCCESS | OVERWRITE_FILE_REP_FAIL
| GET_BG_TASK_PRG_REQ | GET_BG_TASK_PRG_REP_SUCCESS | GET_BG_TASK_PRG_REP_FAIL
| COPY_FILE_REQ | COPY_FILE_REP_SUCCESS | COPY_FILE_REP_FAIL
| GET_REPAIR_STATS_REQ | GET_REPAIR_STATS_REP_SUCCESS | GET_REPAIR_STATS_REP_FAIL
| GET_PROXY_STATUS_REQ | GET_PROXY_STATUS_REP_SUCCESS | GET_PROXY_STATUS_REP_FAIL
| UNKNOWN_CLIENT_OP.

(** An operation code is an [int] in the structures and on the wire. *)
Definition op_num (o : ClientOpcode) : Z :=
  match o with
  | WRITE_FILE_REQ => 0 | WRITE_FILE_REP_SUCCESS => 1 | WRITE_FILE_REP_FAIL => 2
  | READ_FILE_REQ => 3 | READ_FILE_REP_SUCCESS => 4 | READ_FILE_REP_FAIL => 5
  | APPEND_FILE_REQ => 6 | APPEND_FILE_REP_SUCCESS => 7 | APPEND_FILE_REP_FAIL => 8
  | GET_APPEND_SIZE_REQ => 9 | GET_APPEND_SIZE_REP_SUCCESS => 10 | GET_APPEND_SIZE_REP_FAIL => 11
  | DEL_FILE_REQ => 12 | DEL_FILE_REP_SUCCESS => 13 | DEL_FILE_REP_FAIL => 14
  | READ_FILE_RANGE_REQ => 15 | READ_FILE_RANGE_REP_SUCCESS => 16 | READ_FILE_RANGE_REP_FAIL => 17
  | GET_READ_SIZE_REQ => 18 | GET_READ_SIZE_REP_SUCCESS => 19 | GET_READ_SIZE_REP_FAIL => 20
  | RENAME_FILE_REQ => 21 | RENAME_FILE_REP_SUCCESS => 22 | RENAME_FILE_REP_FAIL => 23
  | GET_CAPACITY_REQ => 24 | GET_CAPACITY_REP_SUCCESS => 25 | GET_CAPACITY_REP_FAIL => 26
  | GET_FILE_LIST_REQ => 27 | GET_FILE_LIST_REP_SUCCESS => 28 | GET_FILE_LIST_REP_FAIL => 29
  | GET_AGENT_STATUS_REQ => 30 | GET_AGENT_STATUS_REP_SUCCESS => 31 | GET_AGENT_STATUS_REP_FAIL => 32
  | OVERWRITE_FILE_REQ => 33 | OVERWRITE_FILE_REP_SUCCESS => 34 | OVERWRITE_FILE_REP_FAIL => 35
  | GET_BG_TASK_PRG_REQ => 36 | GET_BG_TASK_PRG_REP_SUCCESS => 37 | GET_BG_TASK_PRG_REP_FAIL => 38
  | COPY_FILE_REQ => 39 | COPY_FILE_REP_SUCCESS => 40 | COPY_FILE_REP_FAIL => 41
  | GET_REPAIR_STATS_REQ => 42 | GET_REPAIR_STATS_REP_SUCCESS => 43 | GET_REPAIR_STATS_REP_FAIL => 44
  | GET_PROXY_STATUS_REQ => 45 | GET_PROXY_STATUS_REP_SUCCESS => 46 | GET_PROXY_STATUS_REP_FAIL => 47
  | UNKNOWN_CLIENT_OP => 48
  end.

Definition is_op (z : Z) (os : list ClientOpcode) : bool := existsb (fun o => z =? op_num o) os.

(** * Requests and replies at the proxy *)

Module Request.

Record file_part := mk_file {
  name : string;
  namespaceId : Z;                   (* unsigned char *)
  offset : Z;                        (* unsigned long int *)
  size : Z;                          (* unsigned long int; the same memory as length *)
  isCached : bool;
  cachePath : string;
  data : option (list Z);            (* unsigned char * *)
  storageClass : string
}.

Record stats_part := mk_stats {
  usage : Z; capacity : Z; fileCount : Z; fileLimit : Z; repairCount : Z   (* unsigned long int *)
}.

Record list_part := mk_list {
  fileInfo : list FileInfo.t;                                   (* numFiles of them *)
  agentInfo : list (string * ProxyCoordinator.AgentInfo);       (* numAgents of them, with their addresses *)
  bgTasks : list (string * Z)                                   (* name and progress *)
}.

Record t := mk {
  opcode : Z;                        (* int *)
  file : file_part;
  stats : stats_part;
  lists : list_part;
  proxyStatus : SysInfo.t
}.

(** The count of files to repair is not set by the constructor; 0 stands for it. *)
Definition init : t :=
  mk (op_num UNKNOWN_CLIENT_OP)
     (mk_file "" INVALID_NAMESPACE_ID INVALID_FILE_OFFSET INVALID_FILE_LENGTH false "" None "")
     (mk_stats 0 0 0 0 0) (mk_list [] [] []) SysInfo.init.

Definition set_opcode (r : t) (o : Z) : t := mk o (file r) (stats r) (lists r) (proxyStatus r).
Definition set_file (r : t) (f : file_part) : t := mk (opcode r) f (stats r) (lists r) (proxyStatus r).
Definition set_stats (r : t) (s : stats_part) : t := mk (opcode r) (file r) s (lists r) (proxyStatus r).
Definition set_lists (r : t) (l : list_part) : t := mk (opcode r) (file r) (stats r) l (proxyStatus r).
Definition set_status (r : t) (s : SysInfo.t) : t := mk (opcode r) (file r) (stats r) (lists r) s.

End Request.

(** * The interface of the proxy *)

Module ProxyZmq.
Import Request.

Definition hasFileData (op : Z) : bool := is_op op [WRITE_FILE_REQ; APPEND_FILE_REQ; OVERWRITE_FILE_REQ].

Definition hasOpcodeOnly (op : Z) : bool :=
  is_op op [GET_CAPACITY_REQ; GET_AGENT_STATUS_REQ; GET_PROXY_STATUS_REQ; GET_BG_TASK_PRG_REQ].

Definition hasNamespaceIdOnly (op : Z) : bool := false.

Definition hasFileSize (op : Z) : bool :=
  is_op op [WRITE_FILE_REQ; APPEND_FILE_REQ; OVERWRITE_FILE_REQ; READ_FILE_RANGE_REQ; COPY_FILE_REQ].

Definition hasFileOffset (op : Z) : bool :=
  is_op op [APPEND_FILE_REQ; OVERWRITE_FILE_REQ; READ_FILE_RANGE_REQ; COPY_FILE_REQ].

Definition replyFileData (op : Z) : bool := is_op op [READ_FILE_REP_SUCCESS; READ_FILE_RANGE_REP_SUCCESS].
Definition replyStats (op : Z) : bool := is_op op [GET_CAPACITY_REP_SUCCESS].
Definition replyFileList (op : Z) : bool := is_op op [GET_FILE_LIST_REP_SUCCESS].

Definition replyOpcodeOnly (op : Z) : bool :=
  negb (replyFileData op) && negb (replyStats op) && negb (replyFileList op) &&
  negb (is_op op [GET_APPEND_SIZE_REP_SUCCESS; GET_READ_SIZE_REP_SUCCESS; APPEND_FILE_REP_SUCCESS;
                  OVERWRITE_FILE_REP_SUCCESS; GET_AGENT_STATUS_REP_SUCCESS; GET_PROXY_STATUS_REP_SUCCESS;
                  GET_BG_TASK_PRG_REP_SUCCESS; GET_REPAIR_STATS_REP_SUCCESS]).

(** ** Reading a request *)

Section receiving.
Context (malloc : Z -> bool) (defaultStorageClass : string).
Open Scope parser_scope.

(** A frame as a string. *)
Definition get_string : parser string := do b <- recv; pret (bytes_string b).

Definition get_class : parser string :=
  do s <- IO.get_more get_string; pret (if bool_decide (s = EmptyString) then defaultStorageClass else s).

(** A flag of one byte. *)
Definition get_flag : parser bool := do z <- IO.get_more (get_uint 1); pret (negb (z =? 0)).

(** The frames of the data are copied one after the other into a buffer with room for
    [room] bytes, until there are [size] bytes; without a buffer there is no place to
    copy to. *)
Fixpoint get_frames (room : option Z) (size : Z) (got : list Z) (fs : list frame) (more : bool)
    : outcome (list Z * list frame * bool) :=
  if Z.of_nat (length got) <? size then
    if negb more then Fail
    else match fs with
         | [] => Fail
         | (b, more) :: fs =>
             match room with
             | Some room =>
                 if Z.of_nat (length got + length b) <=? room
                 then get_frames (Some room) size (got ++ b) fs more else Undef
             | None => if bool_decide (b = []) then get_frames None size got fs more else Undef
             end
         end
  else Ok (got, fs, more).

Definition get_data (size : Z) : parser (option (list Z)) :=
  let room := u64 (size + 1) in
  if malloc room then do d <- get_frames (Some room) size []; pret (Some d)
  else do _ <- get_frames None size []; pret None.

(** The fields of a request on a file, after its name. *)
Definition get_file_fields (op : Z) (f : file_part) : parser file_part :=
  do size <- (if hasFileSize op then IO.get_more (get_uint 8) else pret (size f));
  do class <- (if op =? op_num WRITE_FILE_REQ then get_class else pret (storageClass f));
  do offset <- (if negb (op =? op_num WRITE_FILE_REQ) && hasFileOffset op then IO.get_more (get_uint 8)
                else pret (offset f));
  do cached <- get_flag;
  if cached then
    do path <- IO.get_more get_string;
    pret (mk_file (name f) (namespaceId f) offset size true path (data f) class)
  else
    do d <- (if hasFileData op then get_data size else pret (data f));
    pret (mk_file (name f) (namespaceId f) offset size false (cachePath f) d class).

(** [Fail] is a return value other than 0. *)
Definition getRequest : parser t :=
  do op <- get_int;
  let f := file init in
  let req f := pret (set_file (set_opcode init op) f) in
  if hasOpcodeOnly op then req f
  else
    do ns <- get_uint 1;
    let with_name nm class := mk_file nm ns (offset f) (size f) (isCached f) (cachePath f) (data f) class in
    if hasNamespaceIdOnly op then req (with_name (name f) (storageClass f))
    else if op =? op_num GET_APPEND_SIZE_REQ then
      do class <- get_class; req (with_name (name f) class)
    else
      do nm <- IO.get_more get_string;
      let f := with_name nm (storageClass f) in
      if is_op op [GET_READ_SIZE_REQ; GET_FILE_LIST_REQ] then req f
      else do f <- get_file_fields op f; req f.

End receiving.

(** ** Sending a reply *)

(** [len] bytes from a buffer. *)
Definition send_buffer (b : option (list Z)) (len : Z) (more : bool) : outcome frame :=
  let* d := access (if len =? 0 then Some [] else b ≫= fun d => block_read d 0 (Z.to_nat len)) in
  Ok (d, more).

Definition send_file_data (op : Z) (f : file_part) : outcome (list frame) :=
  let* last := if isCached f then Ok (string_bytes (cachePath f), false)
               else send_buffer (data f) (size f) false in
  Ok ((if op =? op_num READ_FILE_RANGE_REP_SUCCESS then [(le 8 (offset f), true)] else [])
      ++ [(le 8 (size f), true); (le 1 (if isCached f then 1 else 0), true); last]).

Definition send_stats (s : stats_part) : list frame :=
  [(le 8 (usage s), true); (le 8 (capacity s), true); (le 8 (fileCount s), true); (le 8 (fileLimit s), false)].

(** The fields of one entry of a list; [more] is whether another entry follows. *)
Definition send_info (i : FileInfo.t) (more : bool) : outcome (list frame) :=
  let nm := default EmptyString (FileInfo.name i) in
  Ok [(string_bytes nm, true); (le 8 (FileInfo.size i), true); (le 8 (FileInfo.ctime i), true);
      (le 8 (FileInfo.atime i), true); (le 8 (FileInfo.mtime i), more)].

(** The entries one by one, the last one without more to come. *)
Fixpoint send_each {A} (send : A -> bool -> outcome (list frame)) (l : list A) : outcome (list frame) :=
  match l with
  | [] => Ok []
  | a :: l =>
      let* fs := send a (negb (bool_decide (length l = 0%nat))) in
      let* rest := send_each send l in
      Ok (fs ++ rest)
  end.

Definition send_list {A} (send : A -> bool -> outcome (list frame)) (l : list A) : outcome (list frame) :=
  let* fs := send_each send l in
  Ok ((le 4 (Z.of_nat (length l)), (0 <? length l)%nat) :: fs).

(** A negative CPU count converts to a huge length. *)
Definition send_sys_info (s : SysInfo.t) (more : bool) : outcome (list frame) :=
  if SysInfo.cpu_num s <? 0 then Undef
  else Ok [(le 1 (SysInfo.cpu_num s), true);
           (le_words 4 (take (Z.to_nat (SysInfo.cpu_num s)) (SysInfo.cpu_usage s)), true);
           (le 4 (SysInfo.mem_total s), true); (le 4 (SysInfo.mem_free s), true);
           (le 8 (SysInfo.net_in s), true); (le 8 (SysInfo.net_out s), true);
           (le 1 (SysInfo.hostType s), more)].

(** The arrays of an agent are sent up to its number of containers. *)
Definition send_agent (a : string * ProxyCoordinator.AgentInfo) (more : bool) : outcome (list frame) :=
  let (addr, i) := a in
  let cs := ProxyCoordinator.containers i in
  let some := (0 <? length cs)%nat in
  let* sys := send_sys_info (ProxyCoordinator.sysinfo i) true in
  Ok ([(le 1 (if ProxyCoordinator.socket i then 1 else 0), true); (string_bytes addr, true);
       (le 1 (ProxyCoordinator.hostType i), true)]
      ++ sys ++ [(le 4 (Z.of_nat (length cs)), some || more)]
      ++ (if some then
            [(le_ints (map ProxyCoordinator.containerId cs), true);
             (le_words 1 (map ProxyCoordinator.containerType cs), true);
             (le_words 8 (map ProxyCoordinator.containerUsage cs), true);
             (le_words 8 (map ProxyCoordinator.containerCapacity cs), more)]
          else [])).

Definition send_task (t : string * Z) (more : bool) : outcome (list frame) :=
  Ok [(string_bytes (fst t), true); (le 4 (snd t), more)].

Definition sendReply (rep : t) : outcome (list frame) :=
  let op := opcode rep in
  let* rest :=
    if replyFileData op then send_file_data op (file rep)
    else if replyStats op then Ok (send_stats (stats rep))
    else if replyFileList op then send_list send_info (fileInfo (lists rep))
    else if is_op op [GET_APPEND_SIZE_REP_SUCCESS; GET_READ_SIZE_REP_SUCCESS] then Ok [(le 8 (size (file rep)), false)]
    else if is_op op [APPEND_FILE_REP_SUCCESS; OVERWRITE_FILE_REP_SUCCESS] then Ok [(le 8 (size (file rep)), false)]
    else if is_op op [GET_AGENT_STATUS_REP_SUCCESS] then send_list send_agent (agentInfo (lists rep))
    else if is_op op [GET_PROXY_STATUS_REP_SUCCESS] then send_sys_info (proxyStatus rep) false
    else if is_op op [GET_BG_TASK_PRG_REP_SUCCESS] then send_list send_task (bgTasks (lists rep))
    else if is_op op [GET_REPAIR_STATS_REP_SUCCESS] then
      Ok [(le 8 (fileCount (stats rep)), true); (le 8 (repairCount (stats rep)), false)]
    else Ok [] in
  Ok ((le 4 op, negb (replyOpcodeOnly op)) :: rest).

End ProxyZmq.
