(* ===== verification/ZmqClient.v ===== *)
(** The client library ([src/client/c/zmq_interface.h], [src/client/c/zmq_interface.c]):
    setting up a request, sending it, and reading the reply into the request.

    A [char *] is a string, of which C sees the part before the first zero byte, or no
    string.  The network is a function from the frames of a request to the frames of the
    reply, or to nothing when a frame cannot be sent or no reply comes in time.
    [malloc n] is whether [n] bytes can be allocated; memory that is not initialised has
    any contents.  Logging is left out. *)

From Stdlib Require Import Ascii.
From Stdlib Require String.
From S2P Require Import Prelude DS Wire IO Coordinator ProxyCoordinator ZmqMessages.

#[local] Open Scope Z_scope.
#[local] Open Scope outcome_scope.

Module ZmqClient.

(** * Structures *)

(** A string in C ends at the first zero byte. *)
Fixpoint c_str (s : string) : string :=
  match s with
  | EmptyString => EmptyString
  | String a s => if bool_decide (a = Ascii.zero) then EmptyString else String a (c_str s)
  end.

Definition strlen (s : string) : Z := Z.of_nat (String.length (c_str s)).

Record name_t := mk_name {
  chars : option string;             (* char * *)
  len : Z                            (* int *)
}.

Record file_t := mk_file {
  filename : name_t;
  cachepath : name_t;
  offset : Z;                        (* unsigned long int *)
  size : Z;                          (* unsigned long int; the same memory as length *)
  storage_class : name_t;
  data : option (list Z);            (* unsigned char * *)
  free_cachepath : bool
}.

Record sys_stats_t := mk_stats { usage : Z; capacity : Z; file_count : Z; file_limit : Z }.

Record file_list_item_t := mk_item { fname : string; fsize : Z; ctime : Z; atime : Z; mtime : Z }.

Record agent_info_t := mk_agent {
  alive : Z;                         (* unsigned char *)
  addr : string;
  host_type : Z;                     (* unsigned char *)
  num_containers : Z;                (* int *)
  container_id : list Z;             (* int[16] *)
  container_usage : list Z;          (* unsigned long int[16] *)
  container_capacity : list Z;       (* unsigned long int[16] *)
  container_type : list Z;           (* unsigned char[16] *)
  sysinfo : SysInfo.t
}.

Definition MAX_NUM_CONTAINER_PER_AGENT : nat := 16.
Definition UNKNOWN_NAMESPACE_ID : Z := u8 (-1).

Record request_t := mk_request {
  opcode : Z;                        (* int *)
  namespace_id : Z;                  (* unsigned char *)
  file : file_t;
  stats : sys_stats_t;
  file_list : list file_list_item_t;
  agent_list : list agent_info_t;
  proxy_status : SysInfo.t
}.

Definition set_file (r : request_t) (f : file_t) : request_t :=
  mk_request (opcode r) (namespace_id r) f (stats r) (file_list r) (agent_list r) (proxy_status r).
Definition set_opcode (r : request_t) (o : Z) : request_t :=
  mk_request o (namespace_id r) (file r) (stats r) (file_list r) (agent_list r) (proxy_status r).
Definition set_stats (r : request_t) (s : sys_stats_t) : request_t :=
  mk_request (opcode r) (namespace_id r) (file r) s (file_list r) (agent_list r) (proxy_status r).
Definition set_file_list (r : request_t) (l : list file_list_item_t) : request_t :=
  mk_request (opcode r) (namespace_id r) (file r) (stats r) l (agent_list r) (proxy_status r).
Definition set_agent_list (r : request_t) (l : list agent_info_t) : request_t :=
  mk_request (opcode r) (namespace_id r) (file r) (stats r) (file_list r) l (proxy_status r).
Definition set_proxy_status (r : request_t) (s : SysInfo.t) : request_t :=
  mk_request (opcode r) (namespace_id r) (file r) (stats r) (file_list r) (agent_list r) s.

Definition name_t_init : name_t := mk_name None 0.
Definition file_t_init : file_t := mk_file name_t_init name_t_init 0 0 name_t_init None false.

(** Two of the counts and the type of the host keep what was there. *)
Definition sys_stats_t_init (s : sys_stats_t) : sys_stats_t := mk_stats 0 0 (file_count s) (file_limit s).
Definition sysinfo_t_init (s : SysInfo.t) : SysInfo.t :=
  SysInfo.mk 0 (replicate 256 0) 0 0 0 0 (SysInfo.hostType s).

(** The second assignment is to the operation code, not to the namespace. *)
Definition request_t_init (r : request_t) : request_t :=
  let r := mk_request (opcode r) (namespace_id r) file_t_init (sys_stats_t_init (stats r)) [] []
             (sysinfo_t_init (proxy_status r)) in
  set_opcode (set_opcode r (op_num UNKNOWN_CLIENT_OP)) UNKNOWN_NAMESPACE_ID.

(** * Setting up a request *)

(** Every function returns a code and the request. *)
Definition setter : Type := outcome (Z * request_t).

Definition c_name (s : string) : name_t := mk_name (Some s) (i32 (strlen s)).

Definition _set_file_request (r : request_t) (nm : option string) (ns : Z) : outcome request_t :=
  let* nm := access nm in
  let f := file r in
  Ok (mk_request (opcode r) ns
        (mk_file (c_name nm) (cachepath f) (offset f) (size f) (storage_class f) (data f) (free_cachepath f))
        (stats r) (file_list r) (agent_list r) (proxy_status r)).

Definition set_range (r : request_t) (off length : Z) : request_t :=
  let f := file r in
  set_file r (mk_file (filename f) (cachepath f) off length (storage_class f) (data f) (free_cachepath f)).

Definition set_cachepath (r : request_t) (path : string) : request_t :=
  let f := file r in
  set_file r (mk_file (filename f) (c_name path) (offset f) (size f) (storage_class f) (data f) (free_cachepath f)).

Definition set_data (r : request_t) (d : option (list Z)) : request_t :=
  let f := file r in
  set_file r (mk_file (filename f) (cachepath f) (offset f) (size f) (storage_class f) d (free_cachepath f)).

Definition set_class (r : request_t) (s : string) : request_t :=
  let f := file r in
  set_file r (mk_file (filename f) (cachepath f) (offset f) (size f) (c_name s) (data f) (free_cachepath f)).

Definition _set_file_ranged_request (r : request_t) (nm : option string) (ns off length : Z) : outcome request_t :=
  let* r := _set_file_request r nm ns in Ok (set_range r off length).

Definition _set_cached_file_request (r : request_t) (nm path : option string) (ns : Z) : outcome request_t :=
  let* r := _set_file_request r nm ns in
  let* path := access path in
  Ok (set_cachepath r path).

Definition _set_cached_file_ranged_request (r : request_t) (nm path : option string) (off length ns : Z)
    : outcome request_t :=
  let* r := _set_cached_file_request r nm path ns in Ok (set_range r off length).

(** The operation code last, and success. *)
Definition finish (o : ClientOpcode) (r : request_t) : setter := Ok (0, set_opcode r (op_num o)).

Definition set_file_write_request_base (r : request_t) (nm : option string) (filesize : Z) (class : option string)
    (ns : Z) : setter :=
  let r := request_t_init r in
  match nm, class with
  | Some nm, Some class =>
      let* r := _set_file_request r (Some nm) ns in
      finish WRITE_FILE_REQ (set_class (set_range r (offset (file r)) filesize) class)
  | _, _ => Ok (-1, r)
  end.

Definition set_buffered_file_write_request (r : request_t) (nm : option string) (filesize : Z)
    (d : option (list Z)) (class : option string) (ns : Z) : setter :=
  match d with
  | None => Ok (-1, r)
  | Some d =>
      let* (code, r) := set_file_write_request_base r nm filesize class ns in
      if code =? -1 then Ok (-1, r) else Ok (0, set_data r (Some d))
  end.

Definition set_cached_file_write_request (r : request_t) (nm : option string) (filesize : Z)
    (path class : option string) (ns : Z) : setter :=
  match path with
  | None => Ok (-1, r)
  | Some path =>
      let* (code, r) := set_file_write_request_base r nm filesize class ns in
      if code =? -1 then Ok (-1, r) else Ok (0, set_cachepath r path)
  end.

Definition set_buffered_file_read_request (r : request_t) (nm : option string) (ns : Z) : setter :=
  let r := request_t_init r in
  match nm with
  | None => Ok (-1, r)
  | Some nm => let* r := _set_file_request r (Some nm) ns in finish READ_FILE_REQ r
  end.

Definition set_cached_file_read_request (r : request_t) (nm path : option string) (ns : Z) : setter :=
  let r := request_t_init r in
  match nm, path with
  | Some nm, Some path => let* r := _set_cached_file_request r (Some nm) (Some path) ns in finish READ_FILE_REQ r
  | _, _ => Ok (-1, r)
  end.

Definition set_delete_file_request (r : request_t) (nm : option string) (ns : Z) : setter :=
  let r := request_t_init r in
  match nm with
  | None => Ok (-1, r)
  | Some nm => let* r := _set_file_request r (Some nm) ns in finish DEL_FILE_REQ r
  end.

Definition set_buffered_file_append_request (r : request_t) (nm : option string) (d : option (list Z))
    (off length ns : Z) : setter :=
  let* r := _set_file_ranged_request (request_t_init r) nm ns off length in finish APPEND_FILE_REQ (set_data r d).

Definition set_cached_file_append_request (r : request_t) (nm path : option string) (off length ns : Z) : setter :=
  let* r := _set_cached_file_ranged_request (request_t_init r) nm path off length ns in finish APPEND_FILE_REQ r.

Definition set_buffered_file_overwrite_request (r : request_t) (nm : option string) (d : option (list Z))
    (off length ns : Z) : setter :=
  let* r := _set_file_ranged_request (request_t_init r) nm ns off length in finish OVERWRITE_FILE_REQ (set_data r d).

(** This function has no return statement: [ret] is what the caller finds. *)
Definition set_buffered_file_partial_read_request (ret : Z) (r : request_t) (nm : option string) (d : option (list Z))
    (off length ns : Z) : setter :=
  let* r := _set_file_ranged_request (request_t_init r) nm ns off length in
  let* (_, r) := finish READ_FILE_RANGE_REQ (set_data r d) in
  Ok (ret, r).

Definition set_cached_file_partial_read_request (r : request_t) (nm path : option string) (off length ns : Z) : setter :=
  let* r := _set_cached_file_ranged_request (request_t_init r) nm path off length ns in finish READ_FILE_RANGE_REQ r.

Definition set_file_rename_request (r : request_t) (old_nm new_nm : option string) (ns : Z) : setter :=
  let* r := _set_cached_file_request (request_t_init r) old_nm new_nm ns in finish RENAME_FILE_REQ r.

(** The request is not initialised.  The helper has no return statement: [ret] is what
    this function compares with -1. *)
Definition set_file_copy_request (ret : Z) (r : request_t) (src dst : option string) (off length ns : Z) : setter :=
  match dst with
  | None => Ok (-1, r)
  | Some dst =>
      let* r := _set_cached_file_ranged_request r src (Some dst) off length ns in
      if ret =? -1 then Ok (-1, r) else finish COPY_FILE_REQ r
  end.

Definition set_get_storage_capacity_request (r : request_t) : setter := finish GET_CAPACITY_REQ (request_t_init r).

(** The length is taken of the prefix even if there is none. *)
Definition set_get_file_list_request (r : request_t) (ns : Z) (prefix : option string) : setter :=
  let r := request_t_init r in
  let* p := access prefix in
  let f := file r in
  finish GET_FILE_LIST_REQ
    (mk_request (opcode r) ns
       (mk_file (c_name p) (cachepath f) (offset f) (size f) (storage_class f) (data f) (free_cachepath f))
       (stats r) (file_list r) (agent_list r) (proxy_status r)).

Definition set_get_append_size_request (r : request_t) (class : option string) : setter :=
  let r := request_t_init r in
  let* class := access class in
  finish GET_APPEND_SIZE_REQ (set_class r class).

Definition set_get_read_size_request (r : request_t) (nm : option string) (ns : Z) : setter :=
  let* r := _set_file_request (request_t_init r) nm ns in finish GET_READ_SIZE_REQ r.

Definition set_get_agent_status_request (r : request_t) : setter := finish GET_AGENT_STATUS_REQ (request_t_init r).
Definition set_get_proxy_status_request (r : request_t) : setter := finish GET_PROXY_STATUS_REQ (request_t_init r).
Definition set_get_repair_stats_request (r : request_t) : setter := finish GET_REPAIR_STATS_REQ (request_t_init r).
Definition set_get_background_task_progress_request (r : request_t) : setter :=
  finish GET_BG_TASK_PRG_REQ (request_t_init r).

(** * Sending a request *)

Definition has_file_data (op : Z) : bool := is_op op [WRITE_FILE_REQ; APPEND_FILE_REQ; OVERWRITE_FILE_REQ].

Definition has_opcode_only (op : Z) : bool :=
  is_op op [GET_CAPACITY_REQ; GET_AGENT_STATUS_REQ; GET_PROXY_STATUS_REQ; GET_BG_TASK_PRG_REQ].

Definition has_namespace_id_only (op : Z) : bool := false.

Definition has_size_or_length (op : Z) : bool :=
  is_op op [WRITE_FILE_REQ; APPEND_FILE_REQ; OVERWRITE_FILE_REQ; READ_FILE_RANGE_REQ; COPY_FILE_REQ].

Definition has_offset (op : Z) : bool :=
  is_op op [APPEND_FILE_REQ; OVERWRITE_FILE_REQ; READ_FILE_RANGE_REQ; COPY_FILE_REQ].

Definition send_name (n : name_t) (more : bool) : outcome frame :=
  ProxyZmq.send_buffer (string_bytes <$> chars n) (u64 (len n)) more.

(** The fields of a request on a file, the name first. *)
Definition send_file_fields (op : Z) (f : file_t) : outcome (list frame) :=
  let* nm := send_name (filename f) true in
  let* middle := if op =? op_num WRITE_FILE_REQ then let* c := send_name (storage_class f) true in Ok [c]
                 else Ok (if has_offset op then [(le 8 (offset f), true)] else []) in
  let is_cached := 0 <? len (cachepath f) in
  let with_data := has_file_data op && (0 <? size f) in
  let* last := if is_cached then let* p := send_name (cachepath f) false in Ok [p]
               else if with_data then let* d := ProxyZmq.send_buffer (data f) (size f) false in Ok [d]
               else Ok [] in
  Ok ([nm] ++ (if has_size_or_length op then [(le 8 (size f), true)] else [])
      ++ middle ++ [(le 1 (if is_cached then 1 else 0), with_data || is_cached)] ++ last).

(** The request of [send_request] has all its parts, so the first test never fails. *)
Definition request_frames (op ns : Z) (f : file_t) : outcome (list frame) :=
  let* rest :=
    if has_opcode_only op then Ok []
    else
      let* rest :=
        if has_namespace_id_only op then Ok []
        else if op =? op_num GET_APPEND_SIZE_REQ then let* c := send_name (storage_class f) false in Ok [c]
        else if is_op op [GET_READ_SIZE_REQ; GET_FILE_LIST_REQ] then let* n := send_name (filename f) false in Ok [n]
        else send_file_fields op f in
      Ok ((le 1 ns, negb (has_namespace_id_only op)) :: rest) in
  Ok ((le 4 op, negb (has_opcode_only op)) :: rest).

(** * Reading the reply *)

Section replies.
Context (malloc : Z -> bool) (junk : nat -> Z) (junk_item : file_list_item_t) (junk_agent : agent_info_t).
Open Scope parser_scope.

(** [memcpy] of a frame over memory: a frame that is too long runs over its end, one
    that is too short leaves the rest. *)
Definition overlay (old : list Z) (b : list Z) : parser (list Z) := fun fs m =>
  if (length b <=? length old)%nat then Ok (b ++ drop (length b) old, fs, m) else Undef.

Definition get_bytes (old : list Z) : parser (list Z) := do b <- recv; overlay old b.

(** An unsigned field of [w] bytes. *)
Definition get_field (w : nat) (old : Z) : parser Z :=
  IO.get_more (do b <- get_bytes (le w old); pret (unle b)).

Definition get_int_field (old : Z) : parser Z := do z <- get_field 4 old; pret (i32 z).
Definition get_time_field (old : Z) : parser Z := do z <- get_field 8 old; pret (i64 z).

(** A string, copied to memory of its own; [checked] is whether the result of the
    allocation is looked at. *)
Definition get_text (checked : bool) : parser string :=
  IO.get_more (do b <- recv;
               if malloc (Z.of_nat (length b) + 1) then pret (bytes_string b)
               else (fun _ _ => if checked then Fail else Undef)).

(** The data goes to the buffer of the request if there is one that is large enough, or
    to a new buffer. *)
Definition get_file_data (osize : Z) (d : option (list Z)) (sz : Z) : parser (list Z) :=
  match d with
  | Some buf => if osize <? sz then (fun _ _ => Fail) else get_bytes buf
  | None => if malloc sz then get_bytes (map junk (seq 0 (Z.to_nat sz))) else (fun _ _ => Fail)
  end.

Definition get_read_reply (op : Z) (f : file_t) : parser file_t :=
  do off <- (if op =? op_num READ_FILE_RANGE_REP_SUCCESS then get_field 8 (offset f) else pret (offset f));
  do sz <- get_field 8 (size f);
  do cached <- get_field 1 (junk 0);
  do _ <- need_more;
  if cached =? 0 then
    do d <- get_file_data (size f) (data f) sz;
    pret (mk_file (filename f) (cachepath f) off sz (storage_class f) (Some d) (free_cachepath f))
  else
    do path <- get_text false;
    pret (mk_file (filename f) (mk_name (Some path) (i32 (Z.of_nat (String.length path)))) off sz (storage_class f)
            (data f) true).

Definition get_stats (s : sys_stats_t) : parser sys_stats_t :=
  do u <- get_field 8 (usage s);
  do c <- get_field 8 (capacity s);
  do n <- get_field 8 (file_count s);
  do l <- get_field 8 (file_limit s);
  pret (mk_stats u c n l).

(** The list is allocated when it has an element; [size] is that of an element. *)
Fixpoint get_each {A} (get : parser A) (n : nat) : parser (list A) :=
  match n with
  | O => pret []
  | S n => do a <- get; do l <- get_each get n; pret (a :: l)
  end.

Definition get_list {A} (size : Z) (get : parser A) (old : Z) : parser (list A) :=
  do total <- get_field 4 old;
  if (0 <? total) && negb (malloc (size * total)) then (fun _ _ => Fail)
  else get_each get (Z.to_nat total).

Definition get_item : parser file_list_item_t :=
  do nm <- get_text true;
  do sz <- get_field 8 (fsize junk_item);
  do c <- get_time_field (ctime junk_item);
  do a <- get_time_field (atime junk_item);
  do m <- get_time_field (mtime junk_item);
  pret (mk_item nm sz c a m).

(** As many usages are copied as there are CPUs. *)
Definition get_sys_info (s : SysInfo.t) : parser SysInfo.t :=
  do num <- get_field 1 (SysInfo.cpu_num s);
  let num := (num + 128) mod 256 - 128 in
  do usage <- IO.get_more (fun fs m => if num <? 0 then Undef else Coordinator.get_words 4 (Z.to_nat num) fs m);
  do total <- get_field 4 (SysInfo.mem_total s);
  do free <- get_field 4 (SysInfo.mem_free s);
  do rx <- get_field 8 (SysInfo.net_in s);
  do tx <- get_field 8 (SysInfo.net_out s);
  do host <- get_field 1 (SysInfo.hostType s);
  pret (SysInfo.mk num (usage ++ drop (length usage) (SysInfo.cpu_usage s)) total free rx tx host).

(** Arrays with one element per container. *)
Definition get_array (w : nat) (old : list Z) : parser (list Z) :=
  IO.get_more (do b <- get_bytes (le_words w old); pret (unle_words w (length old) b)).

Definition get_agent : parser agent_info_t :=
  let a := junk_agent in
  do al <- get_field 1 (alive a);
  do ad <- get_text false;
  do host <- get_field 1 (host_type a);
  do sys <- get_sys_info (sysinfo a);
  do num <- get_int_field (num_containers a);
  if 0 <? num then
    do ids <- get_array 4 (container_id a);
    do types <- get_array 1 (container_type a);
    do usages <- get_array 8 (container_usage a);
    do capacities <- get_array 8 (container_capacity a);
    pret (mk_agent al ad host num (map i32 ids) usages capacities types sys)
  else
    pret (mk_agent al ad host num (container_id a) (container_usage a) (container_capacity a) (container_type a) sys).

(** The progress of a task is kept as the size of a file. *)
Definition get_task : parser file_list_item_t :=
  do nm <- get_text true;
  do progress <- get_int_field 0;
  pret (mk_item nm (u64 progress) (ctime junk_item) (atime junk_item) (mtime junk_item)).

(** The operation code of the reply, and the request with what the reply tells. *)
Definition read_reply (r : request_t) : parser (Z * request_t) :=
  do b <- get_bytes (map junk (seq 0 4));
  let op := i32 (unle b) in
  let f := file r in
  let done_ r := pret (op, r) in
  let with_size sz := set_file r (mk_file (filename f) (cachepath f) (offset f) sz (storage_class f) (data f) (free_cachepath f)) in
  if is_op op [READ_FILE_REP_SUCCESS; READ_FILE_RANGE_REP_SUCCESS] then
    do f <- get_read_reply op f; done_ (set_file r f)
  else if is_op op [GET_CAPACITY_REP_SUCCESS] then do s <- get_stats (stats r); done_ (set_stats r s)
  else if is_op op [GET_FILE_LIST_REP_SUCCESS] then
    do l <- get_list 40 get_item (Z.of_nat (length (file_list r))); done_ (set_file_list r l)
  else if is_op op [GET_APPEND_SIZE_REP_SUCCESS; GET_READ_SIZE_REP_SUCCESS] then
    do sz <- get_field 8 (size f); done_ (with_size sz)
  else if is_op op [APPEND_FILE_REP_SUCCESS; OVERWRITE_FILE_REP_SUCCESS] then
    do sz <- get_field 8 (size f); done_ (with_size sz)
  else if is_op op [GET_AGENT_STATUS_REP_SUCCESS] then
    do l <- get_list 1424 get_agent (Z.of_nat (length (agent_list r))); done_ (set_agent_list r l)
  else if is_op op [GET_PROXY_STATUS_REP_SUCCESS] then
    do s <- get_sys_info (proxy_status r); done_ (set_proxy_status r s)
  else if is_op op [GET_BG_TASK_PRG_REP_SUCCESS] then
    do l <- get_list 40 get_task (Z.of_nat (length (file_list r))); done_ (set_file_list r l)
  else if is_op op [GET_REPAIR_STATS_REP_SUCCESS] then
    do n <- get_field 8 (file_count (stats r));
    do l <- get_field 8 (file_limit (stats r));
    done_ (set_stats r (mk_stats (usage (stats r)) (capacity (stats r)) n l))
  else done_ r.

(** * The whole exchange *)

(** [ULONG_MAX] with the request as it was or partly overwritten, or the value and the
    request after the reply. *)
Inductive answer := NoReply | Replied (value : Z) (r : request_t).

Definition ULONG_MAX : Z := 18446744073709551615.

(** The operations whose reply must be their success. *)
Definition refused (op ret : Z) : bool :=
  existsb (fun '(req, rep) => (op =? op_num req) && negb (ret =? op_num rep))
    [(WRITE_FILE_REQ, WRITE_FILE_REP_SUCCESS); (READ_FILE_REQ, READ_FILE_REP_SUCCESS);
     (DEL_FILE_REQ, DEL_FILE_REP_SUCCESS); (APPEND_FILE_REQ, APPEND_FILE_REP_SUCCESS);
     (OVERWRITE_FILE_REQ, OVERWRITE_FILE_REP_SUCCESS); (READ_FILE_RANGE_REQ, READ_FILE_RANGE_REP_SUCCESS);
     (RENAME_FILE_REQ, RENAME_FILE_REP_SUCCESS); (COPY_FILE_REQ, COPY_FILE_REP_SUCCESS)].

(** An operation code below zero in a reply counts as an error too. *)
Definition send_request (net : list frame -> option (list frame)) (r : request_t) : outcome answer :=
  let* fs := request_frames (opcode r) (namespace_id r) (file r) in
  match net fs with
  | None => Ok NoReply
  | Some fs =>
      match read_reply r fs true with
      | Undef => Undef
      | Fail => Ok NoReply
      | Ok ((ret, r), _, _) =>
          if ret <? 0 then Ok NoReply
          else Ok (Replied (if refused (opcode r) ret then ULONG_MAX else size (file r)) r)
      end
  end.

End replies.
End ZmqClient.
