(* ===== verification/ZmqTheorems.v ===== *)
(** The protocol between the clients and the proxy: what a client asks for is what the
    proxy reads, what the proxy replies is what the client reads, and every message is
    well formed. *)

From Stdlib Require Import Ascii.
From Stdlib Require String.
From S2P Require Import Prelude DS Wire IO FileInfo Coordinator ProxyCoordinator ZmqMessages ZmqClient.

#[local] Open Scope Z_scope.
#[local] Open Scope outcome_scope.

(** * What a client asks for *)

(** The calls of the client library, with the arguments that are not the request. *)
Inductive call :=
| Write (nm : string) (sz : Z) (d : list Z) (class : string)
| WriteCached (nm : string) (sz : Z) (path class : string)
| Read (nm : string)
| ReadCached (nm path : string)
| Delete (nm : string)
| Append (nm : string) (d : list Z) (off len : Z)
| AppendCached (nm path : string) (off len : Z)
| Overwrite (nm : string) (d : list Z) (off len : Z)
| ReadRange (nm : string) (buf : option (list Z)) (off len : Z)
| ReadRangeCached (nm path : string) (off len : Z)
| Rename (old_nm new_nm : string)
| Copy (src dst : string) (off len : Z)
| Capacity
| ListFiles (pre : string)
| AppendSize (class : string)
| ReadSize (nm : string)
| AgentStatus
| ProxyStatus
| RepairStats
| TaskProgress.

(** What the client library makes of a call in namespace [ns]; [ret] is what a function
    without a return statement returns. *)
Definition prepare (ret : Z) (c : call) (ns : Z) (r : ZmqClient.request_t) : ZmqClient.setter :=
  match c with
  | Write nm sz d class => ZmqClient.set_buffered_file_write_request r (Some nm) sz (Some d) (Some class) ns
  | WriteCached nm sz path class => ZmqClient.set_cached_file_write_request r (Some nm) sz (Some path) (Some class) ns
  | Read nm => ZmqClient.set_buffered_file_read_request r (Some nm) ns
  | ReadCached nm path => ZmqClient.set_cached_file_read_request r (Some nm) (Some path) ns
  | Delete nm => ZmqClient.set_delete_file_request r (Some nm) ns
  | Append nm d off len => ZmqClient.set_buffered_file_append_request r (Some nm) (Some d) off len ns
  | AppendCached nm path off len => ZmqClient.set_cached_file_append_request r (Some nm) (Some path) off len ns
  | Overwrite nm d off len => ZmqClient.set_buffered_file_overwrite_request r (Some nm) (Some d) off len ns
  | ReadRange nm buf off len => ZmqClient.set_buffered_file_partial_read_request ret r (Some nm) buf off len ns
  | ReadRangeCached nm path off len => ZmqClient.set_cached_file_partial_read_request r (Some nm) (Some path) off len ns
  | Rename a b => ZmqClient.set_file_rename_request r (Some a) (Some b) ns
  | Copy src dst off len => ZmqClient.set_file_copy_request ret r (Some src) (Some dst) off len ns
  | Capacity => ZmqClient.set_get_storage_capacity_request r
  | ListFiles prefix => ZmqClient.set_get_file_list_request r ns (Some prefix)
  | AppendSize class => ZmqClient.set_get_append_size_request r (Some class)
  | ReadSize nm => ZmqClient.set_get_read_size_request r (Some nm) ns
  | AgentStatus => ZmqClient.set_get_agent_status_request r
  | ProxyStatus => ZmqClient.set_get_proxy_status_request r
  | RepairStats => ZmqClient.set_get_repair_stats_request r
  | TaskProgress => ZmqClient.set_get_background_task_progress_request r
  end.

(** A string, a size, a path and data that the interface can take. *)
Definition text_ok (s : string) : Prop := ZmqClient.strlen s < 2147483648.
Definition path_ok (s : string) : Prop := 0 < ZmqClient.strlen s < 2147483648.
Definition number_ok (z : Z) : Prop := 0 <= z < 18446744073709551616.
Definition data_ok (sz : Z) (d : list Z) : Prop := 0 <= sz <= Z.of_nat (length d) /\ sz + 1 < 18446744073709551616.

Definition call_ok (c : call) : Prop :=
  match c with
  | Write nm sz d class => text_ok nm /\ text_ok class /\ data_ok sz d
  | WriteCached nm sz path class => text_ok nm /\ text_ok class /\ path_ok path /\ number_ok sz
  | Read nm | Delete nm | ReadSize nm => text_ok nm
  | ReadCached nm path => text_ok nm /\ path_ok path
  | Append nm d off len | Overwrite nm d off len => text_ok nm /\ number_ok off /\ data_ok len d
  | AppendCached nm path off len | ReadRangeCached nm path off len | Copy nm path off len =>
      text_ok nm /\ path_ok path /\ number_ok off /\ number_ok len
  | ReadRange nm _ off len => text_ok nm /\ number_ok off /\ number_ok len
  | Rename a b => text_ok a /\ text_ok b
  | ListFiles prefix => text_ok prefix
  | AppendSize class => text_ok class
  | Capacity | AgentStatus | ProxyStatus | RepairStats | TaskProgress => True
  end.

(** The number of bytes that the proxy has to hold. *)
Definition payload (c : call) : option Z :=
  match c with
  | Write _ sz _ _ => Some sz
  | Append _ _ _ len | Overwrite _ _ _ len => Some len
  | _ => None
  end.

(** The namespace that reaches the proxy; calls without one carry that of the request. *)
Definition sent_namespace (c : call) (ns : Z) (r : ZmqClient.request_t) : Z :=
  match c with AppendSize _ | RepairStats => ZmqClient.namespace_id r | _ => ns end.

(** What the proxy is meant to read. *)
Definition asked_for (dflt : string) (c : call) (ns : Z) (r : ZmqClient.request_t) : Request.t :=
  let ask op nm off sz path d class :=
    Request.set_file (Request.set_opcode Request.init (op_num op))
      (Request.mk_file (ZmqClient.c_str nm) (sent_namespace c ns r) off sz
         (negb (bool_decide (ZmqClient.c_str path = EmptyString))) (ZmqClient.c_str path) d class) in
  let plain op := Request.set_opcode Request.init (op_num op) in
  let class_of c := if bool_decide (ZmqClient.c_str c = EmptyString) then dflt else ZmqClient.c_str c in
  let no := INVALID_FILE_OFFSET in
  let part sz d := Some (take (Z.to_nat sz) d) in
  match c with
  | Write nm sz d class => ask WRITE_FILE_REQ nm no sz EmptyString (part sz d) (class_of class)
  | WriteCached nm sz path class => ask WRITE_FILE_REQ nm no sz path None (class_of class)
  | Read nm => ask READ_FILE_REQ nm no no EmptyString None EmptyString
  | ReadCached nm path => ask READ_FILE_REQ nm no no path None EmptyString
  | Delete nm => ask DEL_FILE_REQ nm no no EmptyString None EmptyString
  | Append nm d off len => ask APPEND_FILE_REQ nm off len EmptyString (part len d) EmptyString
  | AppendCached nm path off len => ask APPEND_FILE_REQ nm off len path None EmptyString
  | Overwrite nm d off len => ask OVERWRITE_FILE_REQ nm off len EmptyString (part len d) EmptyString
  | ReadRange nm _ off len => ask READ_FILE_RANGE_REQ nm off len EmptyString None EmptyString
  | ReadRangeCached nm path off len => ask READ_FILE_RANGE_REQ nm off len path None EmptyString
  | Rename a b => ask RENAME_FILE_REQ a no no b None EmptyString
  | Copy src dst off len => ask COPY_FILE_REQ src off len dst None EmptyString
  | Capacity => plain GET_CAPACITY_REQ
  | ListFiles prefix => ask GET_FILE_LIST_REQ prefix no no EmptyString None EmptyString
  | AppendSize class => ask GET_APPEND_SIZE_REQ EmptyString no no EmptyString None (class_of class)
  | ReadSize nm => ask GET_READ_SIZE_REQ nm no no EmptyString None EmptyString
  | AgentStatus => plain GET_AGENT_STATUS_REQ
  | ProxyStatus => plain GET_PROXY_STATUS_REQ
  | RepairStats => ask GET_REPAIR_STATS_REQ EmptyString no no EmptyString None EmptyString
  | TaskProgress => plain GET_BG_TASK_PRG_REQ
  end.

(** * Strings *)

Lemma string_bytes_cons a s : string_bytes (String a s) = Z.of_nat (nat_of_ascii a) :: string_bytes s.
Proof. done. Qed.

Lemma c_str_prefix s : take (String.length (ZmqClient.c_str s)) (string_bytes s) = string_bytes (ZmqClient.c_str s).
Proof.
  induction s as [|a s IH]; [done|]. cbn [ZmqClient.c_str]. case_bool_decide; [done|].
  rewrite !string_bytes_cons. cbn [String.length take]. by rewrite IH.
Qed.

Lemma c_str_length s : (String.length (ZmqClient.c_str s) <= length (string_bytes s))%nat.
Proof.
  rewrite length_string_bytes. induction s as [|a s IH]; [done|]. cbn [ZmqClient.c_str String.length].
  case_bool_decide; cbn [String.length]; lia.
Qed.

Lemma c_str_empty s : ZmqClient.strlen s = 0 <-> ZmqClient.c_str s = EmptyString.
Proof. unfold ZmqClient.strlen. destruct (ZmqClient.c_str s); cbn; split; try done; lia. Qed.

Lemma strlen_nonneg s : 0 <= ZmqClient.strlen s.
Proof. unfold ZmqClient.strlen. lia. Qed.

Lemma send_name_c s more : text_ok s ->
  ZmqClient.send_name (ZmqClient.c_name s) more = Ok (string_bytes (ZmqClient.c_str s), more).
Proof.
  unfold text_ok. intros Hs. pose proof (strlen_nonneg s). unfold ZmqClient.send_name, ZmqClient.c_name, ProxyZmq.send_buffer.
  cbn [ZmqClient.chars ZmqClient.len fmap option_fmap option_map]. rewrite i32_small, u64_small by lia.
  destruct (Z.eqb_spec (ZmqClient.strlen s) 0) as [E|E].
  - by rewrite (proj1 (c_str_empty s) E).
  - cbn [mbind option_bind]. pose proof (c_str_length s). unfold ZmqClient.strlen. rewrite Nat2Z.id, block_read_in by lia.
    cbn [access obind]. unfold slice. by rewrite drop_0, c_str_prefix.
Qed.

(** The structure of a name stands for the string [s]. *)
Definition spells (n : ZmqClient.name_t) (s : string) : Prop :=
  (forall more, ZmqClient.send_name n more = Ok (string_bytes s, more)) /\
  (0 <? ZmqClient.len n) = negb (bool_decide (s = EmptyString)).

Lemma spells_c_name s : text_ok s -> spells (ZmqClient.c_name s) (ZmqClient.c_str s).
Proof.
  intros Hs. split; [intros; by apply send_name_c|]. unfold text_ok in Hs. cbn [ZmqClient.c_name ZmqClient.len].
  pose proof (strlen_nonneg s). rewrite i32_small by lia. case_bool_decide as E; cbn [negb].
  - apply c_str_empty in E. apply Z.ltb_ge. lia.
  - apply Z.ltb_lt. rewrite <- c_str_empty in E. lia.
Qed.

Lemma spells_init : spells ZmqClient.name_t_init EmptyString.
Proof. by split. Qed.

(** * Requests *)

Section requests.
Context (malloc : Z -> bool) (dflt : string).
Open Scope parser_scope.

Lemma get_string_back s m fs m0 : ProxyZmq.get_string ((string_bytes s, m) :: fs) m0 = Ok (s, fs, m).
Proof. unfold ProxyZmq.get_string. pstep ltac:(apply recv_frame). unfold pret. by rewrite bytes_string_bytes. Qed.

Lemma get_class_back s m fs :
  ProxyZmq.get_class dflt ((string_bytes s, m) :: fs) true =
  Ok (if bool_decide (s = EmptyString) then dflt else s, fs, m).
Proof. unfold ProxyZmq.get_class. by pstep ltac:(apply get_string_back). Qed.

Lemma get_u64_back z m fs m0 : number_ok z -> get_uint 8 ((le 8 z, m) :: fs) m0 = Ok (z, fs, m).
Proof. intros Hz. rewrite get_uint_le, unle_le. by rewrite Z.mod_small. Qed.

Lemma get_flag_back (b : bool) m fs : ProxyZmq.get_flag ((le 1 (if b then 1 else 0), m) :: fs) true = Ok (b, fs, m).
Proof. unfold ProxyZmq.get_flag. pstep ltac:(apply get_u8_le; destruct b; lia). by destruct b. Qed.

Lemma get_data_back sz d rest : data_ok sz d -> malloc (u64 (sz + 1)) = true ->
  exists fs, (if 0 <? sz then (let* x := ProxyZmq.send_buffer (Some d) sz false in Ok [x]) else Ok []) = Ok fs /\
  ProxyZmq.get_data malloc sz (fs ++ rest) (0 <? sz) = Ok (Some (take (Z.to_nat sz) d), rest, false).
Proof.
  intros [Hsz Hmax] Hm. unfold ProxyZmq.get_data. rewrite Hm. rewrite u64_small by lia.
  destruct (Z.ltb_spec 0 sz) as [Hp|Hp].
  - unfold ProxyZmq.send_buffer. rewrite (proj2 (Z.eqb_neq _ _)) by lia. cbn [mbind option_bind].
    rewrite block_read_in by lia. cbn [access obind]. eexists. split; [done|]. cbn [app].
    unfold slice. rewrite drop_0. set (b := take (Z.to_nat sz) d).
    assert (Z.of_nat (length b) = sz) as Hl by (unfold b; rewrite length_take; lia).
    unfold pbind. cbn [ProxyZmq.get_frames length app]. rewrite (proj2 (Z.ltb_lt _ _)) by lia. cbn [negb].
    rewrite (proj2 (Z.leb_le _ _)) by lia. destruct rest; cbn [ProxyZmq.get_frames];
      by rewrite (proj2 (Z.ltb_ge _ _)) by lia.
  - eexists. split; [done|]. assert (sz = 0) as -> by lia. cbn [app]. unfold pbind. by destruct rest.
Qed.

Definition sent_class (op : Z) (class : string) : string :=
  if op =? op_num WRITE_FILE_REQ then (if bool_decide (class = EmptyString) then dflt else class) else EmptyString.

Definition sent_offset (op : Z) (f : ZmqClient.file_t) : Z :=
  if negb (op =? op_num WRITE_FILE_REQ) && ProxyZmq.hasFileOffset op then ZmqClient.offset f else INVALID_FILE_OFFSET.

(** The fields of a request on a file, written by the client and read by the proxy. *)
Definition file_fields (op ns : Z) (f : ZmqClient.file_t) (nm path class : string) (d : option (list Z)) : Request.file_part :=
  Request.mk_file nm ns (sent_offset op f)
    (if ProxyZmq.hasFileSize op then ZmqClient.size f else INVALID_FILE_LENGTH)
    (negb (bool_decide (path = EmptyString))) path d (sent_class op class).

(** The data that a request carries. *)
Definition carried (op : Z) (f : ZmqClient.file_t) (path : string) : option (list Z) :=
  if bool_decide (path = EmptyString) && ProxyZmq.hasFileData op
  then take (Z.to_nat (ZmqClient.size f)) <$> ZmqClient.data f else None.

Lemma carried_none op f path : ZmqClient.data f = None \/ ProxyZmq.hasFileData op = false -> carried op f path = None.
Proof. unfold carried. intros [E|E]; rewrite E; [by destruct (_ && _)|by rewrite andb_false_r]. Qed.

(** The storage class of a write, or the offset. *)
Lemma class_or_offset_back op f class :
  (op = op_num WRITE_FILE_REQ -> spells (ZmqClient.storage_class f) class) -> number_ok (ZmqClient.offset f) ->
  exists mid, (if op =? op_num WRITE_FILE_REQ then (let* c := ZmqClient.send_name (ZmqClient.storage_class f) true in Ok [c])
      else Ok (if ZmqClient.has_offset op then [(le 8 (ZmqClient.offset f), true)] else [])) = Ok mid /\
    forall rest (k : string -> Z -> parser Request.file_part),
      (do class <- (if op =? op_num WRITE_FILE_REQ then ProxyZmq.get_class dflt else pret EmptyString);
       do off <- (if negb (op =? op_num WRITE_FILE_REQ) && ProxyZmq.hasFileOffset op then IO.get_more (get_uint 8)
                  else pret INVALID_FILE_OFFSET);
       k class off) (mid ++ rest) true =
      k (sent_class op class) (sent_offset op f) rest true.
Proof.
  intros Hc Hoff. unfold sent_class, sent_offset. destruct (Z.eqb_spec op (op_num WRITE_FILE_REQ)) as [E|E]; cbn [negb andb].
  - destruct (Hc E) as [Hc' _]. rewrite Hc'. eexists. split; [done|]. intros rest k. cbn [app].
    by pstep ltac:(apply get_class_back).
  - change (ZmqClient.has_offset op) with (ProxyZmq.hasFileOffset op). eexists. split; [done|]. intros rest k.
    destruct (ProxyZmq.hasFileOffset op); cbn [app]; [|done]. erewrite pbind_ok; [|done]. cbn beta.
    by pstep ltac:(by apply get_u64_back).
Qed.

(** Where the data is: a path, or the data itself. *)
Lemma place_back op f path (k : bool -> string -> option (list Z) -> Request.file_part) :
  spells (ZmqClient.cachepath f) path ->
  (path = EmptyString -> ProxyZmq.hasFileData op = true -> exists d, ZmqClient.data f = Some d /\
     data_ok (ZmqClient.size f) d /\ malloc (u64 (ZmqClient.size f + 1)) = true) ->
  let cached := 0 <? ZmqClient.len (ZmqClient.cachepath f) in
  let with_data := ZmqClient.has_file_data op && (0 <? ZmqClient.size f) in
  exists last, (if cached then (let* p := ZmqClient.send_name (ZmqClient.cachepath f) false in Ok [p])
      else if with_data then (let* d := ProxyZmq.send_buffer (ZmqClient.data f) (ZmqClient.size f) false in Ok [d]) else Ok []) = Ok last /\
    forall rest,
      (do cached <- ProxyZmq.get_flag;
       if cached then do path <- IO.get_more ProxyZmq.get_string; pret (k true path None)
       else do d <- (if ProxyZmq.hasFileData op then ProxyZmq.get_data malloc (ZmqClient.size f) else pret None);
            pret (k false EmptyString d)) ((le 1 (if cached then 1 else 0), with_data || cached) :: last ++ rest) true =
      Ok (k (negb (bool_decide (path = EmptyString))) path (carried op f path), rest, false).
Proof.
  intros [Hp Ep] Hd cached with_data. subst cached with_data. rewrite Ep, Hp. unfold carried.
  change (ZmqClient.has_file_data op) with (ProxyZmq.hasFileData op). case_bool_decide as E; cbn [negb andb].
  - subst path. destruct (ProxyZmq.hasFileData op) eqn:Hop; cbn [andb orb].
    + destruct (Hd eq_refl eq_refl) as (d & -> & Hok & Hm). destruct (get_data_back _ d [] Hok Hm) as (fs & Efs & _).
      exists fs. split; [exact Efs|]. intros rest. rewrite orb_false_r. pstep ltac:(apply (get_flag_back false)).
      destruct (get_data_back _ d rest Hok Hm) as (fs' & Efs' & Eget). rewrite Efs in Efs'. injection Efs' as <-.
      by pstep ltac:(exact Eget).
    + exists []. split; [done|]. intros rest. by pstep ltac:(apply (get_flag_back false)).
  - exists [(string_bytes path, false)]. split; [done|]. intros rest. rewrite orb_true_r.
    pstep ltac:(apply (get_flag_back true)). cbn [app]. by pstep ltac:(apply get_string_back).
Qed.

Lemma file_fields_back op ns f nm path class :
  spells (ZmqClient.filename f) nm -> spells (ZmqClient.cachepath f) path ->
  (op = op_num WRITE_FILE_REQ -> spells (ZmqClient.storage_class f) class) ->
  number_ok (ZmqClient.size f) -> number_ok (ZmqClient.offset f) ->
  (ProxyZmq.hasFileData op = true -> ProxyZmq.hasFileSize op = true) ->
  (path = EmptyString -> ProxyZmq.hasFileData op = true -> exists d, ZmqClient.data f = Some d /\
     data_ok (ZmqClient.size f) d /\ malloc (u64 (ZmqClient.size f + 1)) = true) ->
  exists fs, ZmqClient.send_file_fields op f = Ok fs /\ forall rest,
    (do nm <- IO.get_more ProxyZmq.get_string;
     ProxyZmq.get_file_fields malloc dflt op
       (Request.mk_file nm ns INVALID_FILE_OFFSET INVALID_FILE_LENGTH false EmptyString None EmptyString)) (fs ++ rest) true =
    Ok (file_fields op ns f nm path class (carried op f path), rest, false).
Proof.
  intros [Hn _] Hp Hc Hsz Hoff Hds Hd. unfold ZmqClient.send_file_fields. rewrite Hn. cbn [obind].
  destruct (class_or_offset_back op f class Hc Hoff) as (mid & Emid & Hmid). rewrite Emid. cbn [obind].
  set (off := sent_offset op f) in *. set (cl := sent_class op class) in *.
  set (sz := if ProxyZmq.hasFileSize op then ZmqClient.size f else INVALID_FILE_LENGTH).
  destruct (place_back op f path (fun b p d => Request.mk_file nm ns off sz b p d cl) Hp Hd) as (last & Elast & Hlast).
  cbv zeta in Elast. rewrite Elast. cbn [obind]. eexists. split; [done|]. intros rest. rewrite <- !app_assoc. cbn [app].
  pstep ltac:(apply get_string_back). unfold ProxyZmq.get_file_fields.
  cbn [Request.name Request.namespaceId Request.size Request.storageClass Request.offset Request.data Request.cachePath].
  change (ZmqClient.has_size_or_length op) with (ProxyZmq.hasFileSize op).
  assert (forall fs', (if ProxyZmq.hasFileSize op then IO.get_more (get_uint 8) else pret INVALID_FILE_LENGTH)
    ((if ProxyZmq.hasFileSize op then [(le 8 (ZmqClient.size f), true)] else []) ++ fs') true = Ok (sz, fs', true)) as Esz.
  { intros fs'. subst sz. destruct (ProxyZmq.hasFileSize op); [|done]. cbn [app]. unfold IO.get_more. rewrite pbind_more.
    by apply get_u64_back. }
  pstep ltac:(apply Esz). rewrite Hmid. cbv zeta in Hlast.
  assert ((if ProxyZmq.hasFileData op then ProxyZmq.get_data malloc sz else pret None) =
    (if ProxyZmq.hasFileData op then ProxyZmq.get_data malloc (ZmqClient.size f) else pret None)) as ->.
  { destruct (ProxyZmq.hasFileData op); [|done]. subst sz. by rewrite Hds. }
  rewrite Hlast. done.
Qed.

(** A whole request on a file. *)
Lemma file_request_back op ns f nm path class :
  - 2147483648 <= op < 2147483648 -> 0 <= ns < 256 -> ProxyZmq.hasOpcodeOnly op = false ->
  is_op op [GET_APPEND_SIZE_REQ; GET_READ_SIZE_REQ; GET_FILE_LIST_REQ] = false ->
  spells (ZmqClient.filename f) nm -> spells (ZmqClient.cachepath f) path ->
  (op = op_num WRITE_FILE_REQ -> spells (ZmqClient.storage_class f) class) ->
  number_ok (ZmqClient.size f) -> number_ok (ZmqClient.offset f) ->
  (path = EmptyString -> ProxyZmq.hasFileData op = true -> exists d, ZmqClient.data f = Some d /\
     data_ok (ZmqClient.size f) d /\ malloc (u64 (ZmqClient.size f + 1)) = true) ->
  exists fs, ZmqClient.request_frames op ns f = Ok fs /\ forall rest more,
    ProxyZmq.getRequest malloc dflt (fs ++ rest) more =
    Ok (Request.set_file (Request.set_opcode Request.init op) (file_fields op ns f nm path class (carried op f path)), rest, false).
Proof.
  intros Hop Hns H1 H2 Hn Hp Hc Hsz Hoff Hd.
  assert (ProxyZmq.hasFileData op = true -> ProxyZmq.hasFileSize op = true) as Hds.
  { unfold ProxyZmq.hasFileData, ProxyZmq.hasFileSize, is_op. cbn [existsb]. intros Hd'. apply orb_true_iff in Hd'.
    destruct Hd' as [->|Hd']; [done|]. apply orb_true_iff in Hd'. destruct Hd' as [->|Hd']; [by rewrite orb_true_r|].
    rewrite orb_false_r in Hd'. rewrite Hd'. by rewrite !orb_true_r. }
  destruct (file_fields_back op ns f nm path class Hn Hp Hc Hsz Hoff Hds Hd) as (fs & Efs & Hfs).
  unfold ZmqClient.request_frames. change (ZmqClient.has_opcode_only op) with (ProxyZmq.hasOpcodeOnly op). rewrite H1.
  unfold is_op in H2. cbn [existsb] in H2. apply orb_false_iff in H2. destruct H2 as [H2 H3].
  cbn [ZmqClient.has_namespace_id_only]. rewrite H2. unfold is_op at 1. cbn [existsb]. rewrite H3, Efs. cbn [obind negb].
  eexists. split; [done|]. intros rest more. cbn [app]. unfold ProxyZmq.getRequest.
  pstep ltac:(apply get_int_le; exact Hop). rewrite H1. pstep ltac:(by apply get_u8_le).
  cbn [ProxyZmq.hasNamespaceIdOnly]. rewrite H2. unfold is_op. cbn [existsb]. rewrite H3.
  specialize (Hfs rest). cbn. revert Hfs. unfold pbind. destruct (IO.get_more ProxyZmq.get_string (fs ++ rest) true) as [| |[[nm' fs'] m']]; [done|done|].
  intros ->. done.
Qed.

Lemma namespace_frame op ns f : ProxyZmq.hasOpcodeOnly op = true -> - 2147483648 <= op < 2147483648 ->
  ZmqClient.request_frames op ns f = Ok [(le 4 op, false)] /\ forall rest more,
  ProxyZmq.getRequest malloc dflt ([(le 4 op, false)] ++ rest) more = Ok (Request.set_opcode Request.init op, rest, false).
Proof.
  intros H1 Hop. unfold ZmqClient.request_frames. change (ZmqClient.has_opcode_only op) with (ProxyZmq.hasOpcodeOnly op). rewrite H1.
  split; [done|]. intros rest more. unfold ProxyZmq.getRequest. cbn [app]. pstep ltac:(apply get_int_le; exact Hop). rewrite H1. done.
Qed.

(** Evaluates what depends on a known operation code. *)
Ltac ops := cbn [ProxyZmq.hasOpcodeOnly ProxyZmq.hasNamespaceIdOnly ZmqClient.has_opcode_only ZmqClient.has_namespace_id_only
  is_op existsb op_num Z.eqb Pos.eqb orb].

(** Requests with a name or a storage class only. *)
Lemma name_request_back op ns f s : op ∈ [GET_READ_SIZE_REQ; GET_FILE_LIST_REQ] -> 0 <= ns < 256 -> spells (ZmqClient.filename f) s ->
  exists fs, ZmqClient.request_frames (op_num op) ns f = Ok fs /\ forall rest more,
    ProxyZmq.getRequest malloc dflt (fs ++ rest) more =
    Ok (Request.set_file (Request.set_opcode Request.init (op_num op))
          (Request.mk_file s ns INVALID_FILE_OFFSET INVALID_FILE_LENGTH false EmptyString None EmptyString), rest, false).
Proof.
  intros Hop Hns [Hn _]. unfold ZmqClient.request_frames, ProxyZmq.getRequest.
  rewrite Hn. apply list_elem_of_In in Hop. destruct Hop as [<-|[<-|[]]]; (eexists; split; [reflexivity|]); intros rest more; cbn [app];
    (pstep ltac:(apply get_int_le; cbn; lia)); ops; (erewrite pbind_ok; [|by apply get_u8_le]); cbn beta;
    ops; by pstep ltac:(apply get_string_back).
Qed.

Lemma class_request_back ns f s : 0 <= ns < 256 -> spells (ZmqClient.storage_class f) s ->
  exists fs, ZmqClient.request_frames (op_num GET_APPEND_SIZE_REQ) ns f = Ok fs /\ forall rest more,
    ProxyZmq.getRequest malloc dflt (fs ++ rest) more =
    Ok (Request.set_file (Request.set_opcode Request.init (op_num GET_APPEND_SIZE_REQ))
          (Request.mk_file EmptyString ns INVALID_FILE_OFFSET INVALID_FILE_LENGTH false EmptyString None
             (if bool_decide (s = EmptyString) then dflt else s)), rest, false).
Proof.
  intros Hns [Hn _]. unfold ZmqClient.request_frames, ProxyZmq.getRequest. ops.
  rewrite Hn. eexists. split; [reflexivity|]. intros rest more. cbn [app].
  pstep ltac:(apply get_int_le; lia). ops. erewrite pbind_ok; [|by apply get_u8_le]. cbn beta.
  ops. by pstep ltac:(apply get_class_back).
Qed.

(** The sides of a request: names, sizes and data. *)
Ltac fields := try done; intros; try (rewrite carried_none by (by (left + right)); reflexivity); cbn; try done; intros; unfold path_ok, number_ok in *;
  first [apply spells_c_name; unfold text_ok in *; lia | apply spells_init | lia
        | exfalso; match goal with H : ZmqClient.c_str _ = EmptyString |- _ => apply c_str_empty in H; lia end
        | match goal with H : data_ok _ _ |- _ => destruct H; lia end
        | eexists; split_and!; [reflexivity|assumption|eauto]].

Ltac on_file op nm path class :=
  lazymatch goal with |- exists fs, ZmqClient.request_frames _ ?ns ?f = Ok fs /\ _ =>
    let fs := fresh "fs" in let E := fresh "E" in let Hfs := fresh "Hfs" in
    destruct (file_request_back (op_num op) ns f nm path class) as (fs & E & Hfs);
      [cbn; lia|lia|done|done| | | | | | |exists fs; split; [exact E|]; intros rest more; rewrite Hfs]
  end.

(** What the client sets up and sends for a call is read by the proxy as this call. *)
Lemma request_back ret c ns r :
  call_ok c -> 0 <= ns < 256 -> 0 <= ZmqClient.namespace_id r < 256 -> ret <> -1 ->
  (forall n, payload c = Some n -> malloc (u64 (n + 1)) = true) ->
  match prepare ret c ns r with
  | Ok (_, r') => exists fs,
      ZmqClient.request_frames (ZmqClient.opcode r') (ZmqClient.namespace_id r') (ZmqClient.file r') = Ok fs /\
      forall rest more, ProxyZmq.getRequest malloc dflt (fs ++ rest) more = Ok (asked_for dflt c ns r, rest, false)
  | _ => False
  end.
Proof.
  intros Hok Hns Hr Hret Hm. apply Z.eqb_neq in Hret.
  destruct c; cbn -[ZmqClient.request_frames ProxyZmq.getRequest op_num asked_for Z.eqb]; try rewrite Hret;
    cbn -[ZmqClient.request_frames ProxyZmq.getRequest op_num asked_for]; cbn [call_ok payload] in *; destruct_and?.
  - on_file WRITE_FILE_REQ (ZmqClient.c_str nm) EmptyString (ZmqClient.c_str class); fields.
  - on_file WRITE_FILE_REQ (ZmqClient.c_str nm) (ZmqClient.c_str path) (ZmqClient.c_str class); fields.
  - on_file READ_FILE_REQ (ZmqClient.c_str nm) EmptyString EmptyString; fields.
  - on_file READ_FILE_REQ (ZmqClient.c_str nm) (ZmqClient.c_str path) EmptyString; fields.
  - on_file DEL_FILE_REQ (ZmqClient.c_str nm) EmptyString EmptyString; fields.
  - on_file APPEND_FILE_REQ (ZmqClient.c_str nm) EmptyString EmptyString; fields.
  - on_file APPEND_FILE_REQ (ZmqClient.c_str nm) (ZmqClient.c_str path) EmptyString; fields.
  - on_file OVERWRITE_FILE_REQ (ZmqClient.c_str nm) EmptyString EmptyString; fields.
  - on_file READ_FILE_RANGE_REQ (ZmqClient.c_str nm) EmptyString EmptyString; fields.
  - on_file READ_FILE_RANGE_REQ (ZmqClient.c_str nm) (ZmqClient.c_str path) EmptyString; fields.
  - on_file RENAME_FILE_REQ (ZmqClient.c_str old_nm) (ZmqClient.c_str new_nm) EmptyString; fields.
  - on_file COPY_FILE_REQ (ZmqClient.c_str src) (ZmqClient.c_str dst) EmptyString; fields.
  - eexists. by apply (namespace_frame (op_num GET_CAPACITY_REQ)).
  - apply (name_request_back GET_FILE_LIST_REQ ns _ (ZmqClient.c_str pre)); [set_solver|lia|by apply spells_c_name].
  - apply (class_request_back _ _ (ZmqClient.c_str class)); [lia|by apply spells_c_name].
  - apply (name_request_back GET_READ_SIZE_REQ ns _ (ZmqClient.c_str nm)); [set_solver|lia|by apply spells_c_name].
  - eexists. by apply (namespace_frame (op_num GET_AGENT_STATUS_REQ)).
  - eexists. by apply (namespace_frame (op_num GET_PROXY_STATUS_REQ)).
  - on_file GET_REPAIR_STATS_REQ EmptyString EmptyString EmptyString; fields.
  - eexists. by apply (namespace_frame (op_num GET_BG_TASK_PRG_REQ)).
Qed.
End requests.

(** * Replies *)

Lemma unle_words_mod w l : unle_words w (length l) (le_words w l) = map (fun z => z mod 256 ^ Z.of_nat w) l.
Proof.
  induction l as [|z l IH]; [done|]. unfold le_words. cbn [map concat length unle_words].
  rewrite take_app_length', drop_app_length' by (by rewrite length_le). fold (le_words w l). by rewrite unle_le, IH.
Qed.

Lemma le_words_app w l1 l2 : le_words w (l1 ++ l2) = le_words w l1 ++ le_words w l2.
Proof. unfold le_words. by rewrite map_app, concat_app. Qed.

Lemma drop_le_words w n l : (n <= length l)%nat -> drop (w * n) (le_words w l) = le_words w (drop n l).
Proof.
  intros Hn. rewrite <- (take_drop n l) at 1. rewrite le_words_app, drop_app_length'; [done|].
  rewrite length_le_words, length_take. f_equal. lia.
Qed.

Section replies.
Context (malloc : Z -> bool) (junk : nat -> Z) (junk_item : ZmqClient.file_list_item_t) (junk_agent : ZmqClient.agent_info_t).
Context (memory : forall n, malloc n = true).
Open Scope parser_scope.

Lemma get_bytes_back old b m fs m0 : (length b <= length old)%nat ->
  ZmqClient.get_bytes old ((b, m) :: fs) m0 = Ok (b ++ drop (length b) old, fs, m).
Proof.
  intros Hb. unfold ZmqClient.get_bytes. pstep ltac:(apply recv_frame). unfold ZmqClient.overlay.
  by rewrite (proj2 (Nat.leb_le _ _) Hb).
Qed.

Lemma get_field_back w old z m fs : ZmqClient.get_field w old ((le w z, m) :: fs) true = Ok (z mod 256 ^ Z.of_nat w, fs, m).
Proof.
  unfold ZmqClient.get_field, IO.get_more. rewrite pbind_more. pstep ltac:(apply get_bytes_back; by rewrite !length_le).
  unfold pret. rewrite drop_ge, app_nil_r, unle_le by (by rewrite !length_le). done.
Qed.

Lemma get_field_number old z m fs : number_ok z -> ZmqClient.get_field 8 old ((le 8 z, m) :: fs) true = Ok (z, fs, m).
Proof. intros Hz. rewrite get_field_back. by rewrite Z.mod_small. Qed.

Lemma get_field_u32 old z m fs : 0 <= z < 4294967296 -> ZmqClient.get_field 4 old ((le 4 z, m) :: fs) true = Ok (z, fs, m).
Proof. intros Hz. rewrite get_field_back. by rewrite Z.mod_small. Qed.

Lemma get_field_u8 old z m fs : 0 <= z < 256 -> ZmqClient.get_field 1 old ((le 1 z, m) :: fs) true = Ok (z, fs, m).
Proof. intros Hz. rewrite get_field_back. by rewrite Z.mod_small. Qed.

Lemma get_int_field_back old z m fs : - 2147483648 <= z < 2147483648 ->
  ZmqClient.get_int_field old ((le 4 z, m) :: fs) true = Ok (z, fs, m).
Proof.
  intros Hz. unfold ZmqClient.get_int_field. pstep ltac:(apply get_field_back). unfold pret.
  rewrite <- (unle_le 4). by rewrite unle_le_i32.
Qed.

Lemma get_time_field_back old z m fs : - 9223372036854775808 <= z < 9223372036854775808 ->
  ZmqClient.get_time_field old ((le 8 z, m) :: fs) true = Ok (z, fs, m).
Proof.
  intros Hz. unfold ZmqClient.get_time_field. pstep ltac:(apply get_field_back). unfold pret.
  rewrite <- (unle_le 8). by rewrite unle_le_i64.
Qed.

Lemma get_text_back c s m fs : ZmqClient.get_text malloc c ((string_bytes s, m) :: fs) true = Ok (s, fs, m).
Proof.
  unfold ZmqClient.get_text, IO.get_more. rewrite pbind_more. pstep ltac:(apply recv_frame). rewrite memory.
  unfold pret. by rewrite bytes_string_bytes.
Qed.

(** An array that is sent overwrites the first elements. *)
Lemma get_array_back w old l m fs : (length l <= length old)%nat ->
  Forall (fun z => 0 <= z < 256 ^ Z.of_nat w) old -> 
  ZmqClient.get_array w old ((le_words w l, m) :: fs) true = Ok (map (fun z => z mod 256 ^ Z.of_nat w) l ++ drop (length l) old, fs, m).
Proof.
  intros Hl Hold. unfold ZmqClient.get_array, IO.get_more. rewrite pbind_more.
  pstep ltac:(apply get_bytes_back; rewrite !length_le_words; nia). unfold pret.
  rewrite length_le_words, drop_le_words, <- le_words_app by done.
  assert (length old = length (l ++ drop (length l) old)) as El by (rewrite length_app, length_drop; lia).
  rewrite El at 1. rewrite unle_words_mod, map_app. do 4 f_equal.
  rewrite <- (map_id (drop (length l) old)) at 2. apply map_ext_in. intros z Hz. apply Z.mod_small.
  rewrite Forall_forall in Hold. apply Hold. rewrite <- (take_drop (length l) old). apply elem_of_app. right. by apply list_elem_of_In.
Qed.

(** ** What the client is told *)

Definition status_in_range (s : SysInfo.t) : Prop := sysinfo_ok s /\ 0 <= SysInfo.hostType s < 256.

(** The status [s] over the status [old]. *)
Definition told_status (old s : SysInfo.t) : SysInfo.t :=
  let num := Z.to_nat (SysInfo.cpu_num s) in
  SysInfo.mk (SysInfo.cpu_num s) (take num (SysInfo.cpu_usage s) ++ drop num (SysInfo.cpu_usage old))
    (SysInfo.mem_total s) (SysInfo.mem_free s) (SysInfo.net_in s) (SysInfo.net_out s) (SysInfo.hostType s).

Lemma get_sys_info_back old s (more : bool) rest : status_in_range s ->
  exists fs, ProxyZmq.send_sys_info s more = Ok fs /\
    ZmqClient.get_sys_info old (fs ++ rest) true = Ok (told_status old s, rest, more).
Proof.
  intros [[Hnum [Hlu Hu] Ht Hf Hin Hout] Hh]. unfold ZmqClient.get_sys_info, ProxyZmq.send_sys_info, told_status.
  rewrite (proj2 (Z.ltb_ge _ _)) by lia. eexists. split; [done|]. cbn [app].
  assert (length (take (Z.to_nat (SysInfo.cpu_num s)) (SysInfo.cpu_usage s)) =
    Z.to_nat (SysInfo.cpu_num s)) as Hl by (rewrite length_take; lia).
  pstep ltac:(apply get_field_u8; lia).
  replace ((SysInfo.cpu_num s + 128) mod 256 - 128) with (SysInfo.cpu_num s) by (rewrite Z.mod_small; lia).
  rewrite (proj2 (Z.ltb_ge _ _)) by lia.
  pstep ltac:(apply get_words_back; [exact Hl|by apply Forall_take]).
  pstep ltac:(by apply get_field_u32). pstep ltac:(by apply get_field_u32).
  pstep ltac:(by apply get_field_number). pstep ltac:(by apply get_field_number). pstep ltac:(by apply get_field_u8).
  unfold pret. by rewrite Hl.
Qed.

(** An entry that can be sent and read can be sent and read in a list. *)
Lemma get_list_back {A B} sz (send : A -> bool -> outcome (list frame)) (get : parser B) (f : A -> B) old l rest :
  Z.of_nat (length l) < 4294967296 ->
  (forall a, a ∈ l -> forall more rest, exists fs, send a more = Ok fs /\ get (fs ++ rest) true = Ok (f a, rest, more)) ->
  exists fs, ProxyZmq.send_list send l = Ok fs /\ ZmqClient.get_list malloc sz get old (fs ++ rest) true = Ok (map f l, rest, false).
Proof.
  intros Hlen Hback.
  assert (exists fs, ProxyZmq.send_each send l = Ok fs /\
    ZmqClient.get_each get (length l) (fs ++ rest) (0 <? length l)%nat = Ok (map f l, rest, false)) as (fs & Efs & Eget).
  { clear Hlen. induction l as [|a l IH]; [by exists []|]. destruct IH as (fs & Efs & Eget); [set_solver|].
    destruct (Hback a ltac:(set_solver) (negb (bool_decide (length l = 0%nat))) (fs ++ rest)) as (fa & Ea & Ga).
    cbn [ProxyZmq.send_each]. rewrite Ea, Efs. cbn [obind]. eexists. split; [done|]. rewrite <- app_assoc.
    cbn [length Nat.ltb Nat.leb ZmqClient.get_each map]. pstep ltac:(exact Ga).
    replace (negb (bool_decide (length l = 0%nat))) with (0 <? length l)%nat by (destruct l; done).
    by pstep ltac:(exact Eget). }
  unfold ProxyZmq.send_list. rewrite Efs. cbn [obind]. eexists. split; [done|]. unfold ZmqClient.get_list. cbn [app].
  pstep ltac:(apply get_field_u32; lia). rewrite memory, andb_false_r, Nat2Z.id. exact Eget.
Qed.

Definition info_ok (i : FileInfo.t) : Prop :=
  number_ok (FileInfo.size i) /\ is_long (FileInfo.ctime i) /\ is_long (FileInfo.atime i) /\ is_long (FileInfo.mtime i).

Definition told_item (i : FileInfo.t) : ZmqClient.file_list_item_t :=
  ZmqClient.mk_item (default EmptyString (FileInfo.name i)) (FileInfo.size i) (FileInfo.ctime i) (FileInfo.atime i) (FileInfo.mtime i).

Lemma get_item_back i more rest : info_ok i ->
  exists fs, ProxyZmq.send_info i more = Ok fs /\ ZmqClient.get_item malloc junk_item (fs ++ rest) true = Ok (told_item i, rest, more).
Proof.
  intros (H1 & H2 & H3 & H4). eexists. split; [done|]. cbn [app]. unfold ZmqClient.get_item.
  pstep ltac:(apply get_text_back). pstep ltac:(by apply get_field_number). pstep ltac:(by apply get_time_field_back).
  pstep ltac:(by apply get_time_field_back). by pstep ltac:(by apply get_time_field_back).
Qed.

Definition told_task (t : string * Z) : ZmqClient.file_list_item_t :=
  ZmqClient.mk_item (fst t) (u64 (snd t)) (ZmqClient.ctime junk_item) (ZmqClient.atime junk_item) (ZmqClient.mtime junk_item).

Lemma get_task_back t more rest : is_int (snd t) ->
  exists fs, ProxyZmq.send_task t more = Ok fs /\ ZmqClient.get_task malloc junk_item (fs ++ rest) true = Ok (told_task t, rest, more).
Proof.
  intros Ht. eexists. split; [done|]. cbn [app]. unfold ZmqClient.get_task. pstep ltac:(apply get_text_back).
  by pstep ltac:(by apply get_int_field_back).
Qed.

(** The arrays of the client have a place for every container. *)
Record agent_memory (a : ZmqClient.agent_info_t) : Prop := {
  am_ids : length (ZmqClient.container_id a) = 16%nat /\ Forall (fun z => 0 <= z < 256 ^ Z.of_nat 4) (ZmqClient.container_id a);
  am_types : length (ZmqClient.container_type a) = 16%nat /\ Forall (fun z => 0 <= z < 256 ^ Z.of_nat 1) (ZmqClient.container_type a);
  am_usage : length (ZmqClient.container_usage a) = 16%nat /\ Forall (fun z => 0 <= z < 256 ^ Z.of_nat 8) (ZmqClient.container_usage a);
  am_capacity : length (ZmqClient.container_capacity a) = 16%nat /\ Forall (fun z => 0 <= z < 256 ^ Z.of_nat 8) (ZmqClient.container_capacity a)
}.

Definition slot_ok (c : ProxyCoordinator.slot) : Prop :=
  is_int (ProxyCoordinator.containerId c) /\ 0 <= ProxyCoordinator.containerType c < 256 /\
  number_ok (ProxyCoordinator.containerUsage c) /\ number_ok (ProxyCoordinator.containerCapacity c).

Definition agent_ok (a : string * ProxyCoordinator.AgentInfo) : Prop :=
  0 <= ProxyCoordinator.hostType (snd a) < 256 /\ status_in_range (ProxyCoordinator.sysinfo (snd a)) /\
  (length (ProxyCoordinator.containers (snd a)) <= 16)%nat /\ Forall slot_ok (ProxyCoordinator.containers (snd a)).

(** The containers of the agent fill the first entries of the arrays. *)
Definition told_agent (a : string * ProxyCoordinator.AgentInfo) : ZmqClient.agent_info_t :=
  let (addr, i) := a in
  let j := junk_agent in
  let cs := ProxyCoordinator.containers i in
  let fill {A} (f : ProxyCoordinator.slot -> A) old := map f cs ++ drop (length cs) old in
  ZmqClient.mk_agent (if ProxyCoordinator.socket i then 1 else 0) addr (ProxyCoordinator.hostType i)
    (Z.of_nat (length cs))
    (if (0 <? length cs)%nat then fill ProxyCoordinator.containerId (map i32 (ZmqClient.container_id j)) else ZmqClient.container_id j)
    (fill ProxyCoordinator.containerUsage (ZmqClient.container_usage j))
    (fill ProxyCoordinator.containerCapacity (ZmqClient.container_capacity j))
    (fill ProxyCoordinator.containerType (ZmqClient.container_type j))
    (told_status (ZmqClient.sysinfo j) (ProxyCoordinator.sysinfo i)).

Lemma map_mod_small {A} (f : A -> Z) w l : Forall (fun a => 0 <= f a < 256 ^ Z.of_nat w) l ->
  map (fun z => z mod 256 ^ Z.of_nat w) (map f l) = map f l.
Proof.
  induction 1 as [|a l Ha _ IH]; [done|]. cbn [map]. by rewrite IH, Z.mod_small.
Qed.

Lemma map_int_mod (f : ProxyCoordinator.slot -> Z) l : Forall (fun a => is_int (f a)) l ->
  map i32 (map (fun z => z mod 256 ^ Z.of_nat 4) (map f l)) = map f l.
Proof.
  induction 1 as [|a l Ha _ IH]; [done|]. cbn [map]. rewrite IH. f_equal. rewrite <- unle_le. by apply unle_le_i32.
Qed.

Lemma get_agent_back a more rest : agent_memory junk_agent -> agent_ok a ->
  exists fs, ProxyZmq.send_agent a more = Ok fs /\ ZmqClient.get_agent malloc junk_agent (fs ++ rest) true = Ok (told_agent a, rest, more).
Proof.
  destruct a as [addr i]. intros [[M1 M1'] [M2 M2'] [M3 M3'] [M4 M4']] (H1 & H2 & H3 & H4). cbn [snd] in *.
  unfold ProxyZmq.send_agent. set (cs := ProxyCoordinator.containers i) in *.
  destruct (get_sys_info_back (ZmqClient.sysinfo junk_agent) (ProxyCoordinator.sysinfo i) true [] H2) as (fs & Efs & _).
  rewrite Efs. cbn [obind]. eexists. split; [done|]. rewrite <- !app_assoc. cbn [app]. unfold ZmqClient.get_agent.
  pstep ltac:(apply get_field_u8; destruct (ProxyCoordinator.socket i); lia). pstep ltac:(apply get_text_back).
  pstep ltac:(by apply get_field_u8).
  assert (forall r, ZmqClient.get_sys_info (ZmqClient.sysinfo junk_agent) (fs ++ r) true =
    Ok (told_status (ZmqClient.sysinfo junk_agent) (ProxyCoordinator.sysinfo i), r, true)) as Hsys.
  { intros r. destruct (get_sys_info_back (ZmqClient.sysinfo junk_agent) (ProxyCoordinator.sysinfo i) true r H2) as (fs' & Efs' & Hget).
    rewrite Efs in Efs'. by injection Efs' as <-. }
  pstep ltac:(apply Hsys). pstep ltac:(apply get_int_field_back; lia). unfold told_agent. fold cs.
  destruct (Nat.ltb_spec 0 (length cs)) as [Hp|Hp].
  - rewrite (proj2 (Z.ltb_lt _ _)) by lia. cbn [orb app].
    change (le_ints (map ProxyCoordinator.containerId cs)) with (le_words 4 (map ProxyCoordinator.containerId cs)).
    do 4 (pstep ltac:(apply get_array_back; [rewrite length_map; lia|done])). unfold pret. rewrite !length_map, map_app.
    rewrite Forall_forall in H4.
    rewrite map_int_mod by (apply Forall_forall; intros c Hc; by apply H4).
    rewrite (map_mod_small ProxyCoordinator.containerType) by (apply Forall_forall; intros c Hc; apply H4; done).
    rewrite (map_mod_small ProxyCoordinator.containerUsage) by (apply Forall_forall; intros c Hc; apply H4; done).
    rewrite (map_mod_small ProxyCoordinator.containerCapacity) by (apply Forall_forall; intros c Hc; apply H4; done).
    rewrite <- fmap_drop. done.
  - rewrite (proj2 (Z.ltb_ge _ _)) by lia. cbn [orb app]. unfold pret. destruct cs; [|cbn in Hp; lia]. done.
Qed.

(** ** The data of a file *)

(** The data of a reply over the buffer of the request, or in a buffer of its own. *)
Definition told_file (off : Z) (f : ZmqClient.file_t) (rf : Request.file_part) : ZmqClient.file_t :=
  let got := take (Z.to_nat (Request.size rf)) (default [] (Request.data rf)) in
  if Request.isCached rf then
    let path := Request.cachePath rf in
    ZmqClient.mk_file (ZmqClient.filename f) (ZmqClient.mk_name (Some path) (i32 (Z.of_nat (String.length path)))) off
      (Request.size rf) (ZmqClient.storage_class f) (ZmqClient.data f) true
  else
    ZmqClient.mk_file (ZmqClient.filename f) (ZmqClient.cachepath f) off (Request.size rf) (ZmqClient.storage_class f)
      (Some (got ++ drop (length got) (default [] (ZmqClient.data f)))) (ZmqClient.free_cachepath f).

(** The buffer of the proxy has the data, and that of the client, if it gave one, has
    room for it. *)
Definition file_ok (f : ZmqClient.file_t) (rf : Request.file_part) : Prop :=
  number_ok (Request.offset rf) /\ number_ok (Request.size rf) /\
  (Request.isCached rf = false ->
     (Request.size rf <= Z.of_nat (length (default [] (Request.data rf)))) /\
     forall buf, ZmqClient.data f = Some buf -> Request.size rf <= ZmqClient.size f <= Z.of_nat (length buf)).

Lemma send_buffer_ok b len more : 0 <= len <= Z.of_nat (length (default [] b)) ->
  ProxyZmq.send_buffer b len more = Ok (take (Z.to_nat len) (default [] b), more).
Proof.
  intros Hl. unfold ProxyZmq.send_buffer. destruct (Z.eqb_spec len 0) as [->|Hz]; [done|].
  destruct b as [d|]; [|cbn in Hl; lia]. cbn [mbind option_bind from_option id] in *. rewrite block_read_in by lia.
  unfold slice. by rewrite drop_0.
Qed.

Lemma get_read_reply_back op f rf rest : file_ok f rf ->
  exists fs, ProxyZmq.send_file_data op rf = Ok fs /\
    ZmqClient.get_read_reply malloc junk op f (fs ++ rest) true =
    Ok (told_file (if op =? op_num READ_FILE_RANGE_REP_SUCCESS then Request.offset rf else ZmqClient.offset f) f rf, rest, false).
Proof.
  intros (Ho & Hs & Hd). unfold ProxyZmq.send_file_data, told_file.
  assert (forall l, (if op =? op_num READ_FILE_RANGE_REP_SUCCESS then ZmqClient.get_field 8 (ZmqClient.offset f) else pret (ZmqClient.offset f))
    ((if op =? op_num READ_FILE_RANGE_REP_SUCCESS then [(le 8 (Request.offset rf), true)] else []) ++ l) true =
    Ok (if op =? op_num READ_FILE_RANGE_REP_SUCCESS then Request.offset rf else ZmqClient.offset f, l, true)) as Hoff.
  { intros l. destruct (op =? _); [|done]. by apply get_field_number. }
  destruct (Request.isCached rf) eqn:Ec; cbn [obind].
  - eexists. split; [done|]. rewrite <- app_assoc. unfold ZmqClient.get_read_reply. pstep ltac:(apply Hoff). cbn [app].
    pstep ltac:(by apply get_field_number). pstep ltac:(apply get_field_u8; lia). cbn [Z.eqb]. rewrite pbind_more.
    by pstep ltac:(apply get_text_back).
  - destruct (Hd eq_refl) as [Hd1 Hd2]. unfold number_ok in *. rewrite send_buffer_ok by lia. cbn [obind].
    eexists. split; [done|]. rewrite <- app_assoc. unfold ZmqClient.get_read_reply. pstep ltac:(apply Hoff). cbn [app].
    pstep ltac:(by apply get_field_number). pstep ltac:(apply get_field_u8; lia). cbn [Z.eqb]. rewrite pbind_more.
    set (got := take _ _). assert (length got = Z.to_nat (Request.size rf)) as Hl by (unfold got; rewrite length_take; lia).
    unfold ZmqClient.get_file_data. destruct (ZmqClient.data f) as [buf|] eqn:Eb; cbn [from_option id].
    + destruct (Hd2 _ eq_refl). rewrite (proj2 (Z.ltb_ge _ _)) by lia. by pstep ltac:(apply get_bytes_back; lia).
    + rewrite memory. pstep ltac:(apply get_bytes_back; rewrite length_map, length_seq; lia). unfold pret.
      rewrite drop_nil, app_nil_r, drop_ge, app_nil_r by (rewrite length_map, length_seq; lia). done.
Qed.

(** ** The whole reply *)

Definition stats_ok (s : Request.stats_part) : Prop :=
  number_ok (Request.usage s) /\ number_ok (Request.capacity s) /\ number_ok (Request.fileCount s) /\
  number_ok (Request.fileLimit s) /\ number_ok (Request.repairCount s).

(** What a reply with operation code [o] needs to fit the message and the request. *)
Definition reply_ok (o : ClientOpcode) (r : ZmqClient.request_t) (rep : Request.t) : Prop :=
  match o with
  | READ_FILE_REP_SUCCESS | READ_FILE_RANGE_REP_SUCCESS => file_ok (ZmqClient.file r) (Request.file rep)
  | GET_CAPACITY_REP_SUCCESS | GET_REPAIR_STATS_REP_SUCCESS => stats_ok (Request.stats rep)
  | GET_FILE_LIST_REP_SUCCESS => let l := Request.fileInfo (Request.lists rep) in
      Z.of_nat (length l) < 4294967296 /\ Forall info_ok l
  | GET_APPEND_SIZE_REP_SUCCESS | GET_READ_SIZE_REP_SUCCESS | APPEND_FILE_REP_SUCCESS | OVERWRITE_FILE_REP_SUCCESS =>
      number_ok (Request.size (Request.file rep))
  | GET_AGENT_STATUS_REP_SUCCESS => let l := Request.agentInfo (Request.lists rep) in
      Z.of_nat (length l) < 4294967296 /\ Forall agent_ok l /\ agent_memory junk_agent
  | GET_PROXY_STATUS_REP_SUCCESS => status_in_range (Request.proxyStatus rep)
  | GET_BG_TASK_PRG_REP_SUCCESS => let l := Request.bgTasks (Request.lists rep) in
      Z.of_nat (length l) < 4294967296 /\ Forall (fun t => is_int (snd t)) l
  | _ => True
  end.

(** The request after such a reply. *)
Definition told (o : ClientOpcode) (r : ZmqClient.request_t) (rep : Request.t) : ZmqClient.request_t :=
  let f := ZmqClient.file r in
  let rf := Request.file rep in
  let st := Request.stats rep in
  match o with
  | READ_FILE_REP_SUCCESS => ZmqClient.set_file r (told_file (ZmqClient.offset f) f rf)
  | READ_FILE_RANGE_REP_SUCCESS => ZmqClient.set_file r (told_file (Request.offset rf) f rf)
  | GET_CAPACITY_REP_SUCCESS =>
      ZmqClient.set_stats r (ZmqClient.mk_stats (Request.usage st) (Request.capacity st) (Request.fileCount st) (Request.fileLimit st))
  | GET_REPAIR_STATS_REP_SUCCESS =>
      ZmqClient.set_stats r (ZmqClient.mk_stats (ZmqClient.usage (ZmqClient.stats r)) (ZmqClient.capacity (ZmqClient.stats r))
                               (Request.fileCount st) (Request.repairCount st))
  | GET_FILE_LIST_REP_SUCCESS => ZmqClient.set_file_list r (map told_item (Request.fileInfo (Request.lists rep)))
  | GET_BG_TASK_PRG_REP_SUCCESS => ZmqClient.set_file_list r (map told_task (Request.bgTasks (Request.lists rep)))
  | GET_AGENT_STATUS_REP_SUCCESS => ZmqClient.set_agent_list r (map told_agent (Request.agentInfo (Request.lists rep)))
  | GET_PROXY_STATUS_REP_SUCCESS => ZmqClient.set_proxy_status r (told_status (ZmqClient.proxy_status r) (Request.proxyStatus rep))
  | GET_APPEND_SIZE_REP_SUCCESS | GET_READ_SIZE_REP_SUCCESS | APPEND_FILE_REP_SUCCESS | OVERWRITE_FILE_REP_SUCCESS =>
      ZmqClient.set_file r (ZmqClient.mk_file (ZmqClient.filename f) (ZmqClient.cachepath f) (ZmqClient.offset f)
                              (Request.size rf) (ZmqClient.storage_class f) (ZmqClient.data f) (ZmqClient.free_cachepath f))
  | _ => r
  end.

Ltac reply_ops := cbn [ProxyZmq.replyFileData ProxyZmq.replyStats ProxyZmq.replyFileList ProxyZmq.replyOpcodeOnly
  is_op existsb op_num Z.eqb Pos.eqb orb andb negb].

(** A reply whose fields [L] sends and reads. *)
Tactic Notation "from" constr(L) :=
  let fs := fresh "fs" in let E := fresh "E" in let G := fresh "G" in
  destruct L as (fs & E & G); rewrite E; cbn [obind]; eexists; split; [reflexivity|]; cbn [app];
  match goal with Hop : forall m l k, ZmqClient.get_bytes _ _ _ = _ |- _ => pstep ltac:(apply Hop) end;
  match goal with Eop : i32 _ = op_num _ |- _ => rewrite Eop end; reply_ops; pstep ltac:(exact G); reflexivity.

(** What the proxy replies is what the client reads, and nothing of the message is left. *)
Lemma reply_back o r rep rest more :
  Request.opcode rep = op_num o -> reply_ok o r rep ->
  exists fs, ProxyZmq.sendReply rep = Ok fs /\
    ZmqClient.read_reply malloc junk junk_item junk_agent r (fs ++ rest) more = Ok ((op_num o, told o r rep), rest, false).
Proof.
  intros Eo Hok. unfold ProxyZmq.sendReply. rewrite Eo.
  assert (forall m l k, ZmqClient.get_bytes (map junk (seq 0 4)) ((le 4 (op_num o), m) :: l) k = Ok (le 4 (op_num o), l, m)) as Hop.
  { intros. rewrite get_bytes_back by (by rewrite length_le). rewrite drop_ge by (by rewrite length_le). by rewrite app_nil_r. }
  assert (i32 (unle (le 4 (op_num o))) = op_num o) as Eop by (apply unle_le_i32; destruct o; cbn; lia).
  unfold ZmqClient.read_reply.
  destruct o; cbn [reply_ok told] in *;
    try (eexists; split; [reflexivity|]; cbn [app]; pstep ltac:(apply Hop); rewrite Eop; reflexivity).
  all: reply_ops.
  all: try (eexists; split; [reflexivity|]; cbn [app]; pstep ltac:(apply Hop); rewrite Eop; reply_ops; destruct_and?;
    repeat (pstep ltac:(by apply get_field_number)); reflexivity).
  - from (get_read_reply_back 4 (ZmqClient.file r) (Request.file rep) rest Hok).
  - from (get_read_reply_back 16 (ZmqClient.file r) (Request.file rep) rest Hok).
  - eexists. split; [reflexivity|]. cbn [app]. pstep ltac:(apply Hop). rewrite Eop. reply_ops. destruct Hok as (? & ? & ? & ? & _).
    pstep ltac:(unfold ZmqClient.get_stats; repeat (pstep ltac:(by apply get_field_number)); reflexivity). done.
  - destruct Hok as [Hl Hok]. rewrite Forall_forall in Hok.
    from (get_list_back 40 ProxyZmq.send_info _ _ (Z.of_nat (length (ZmqClient.file_list r))) _ rest Hl
      (fun i Hi more rest => get_item_back i more rest (Hok i Hi))).
  - destruct Hok as (Hl & Hok & Hmem). rewrite Forall_forall in Hok.
    from (get_list_back 1424 ProxyZmq.send_agent _ _ (Z.of_nat (length (ZmqClient.agent_list r))) _ rest Hl
      (fun i Hi more rest => get_agent_back i more rest Hmem (Hok i Hi))).
  - destruct Hok as [Hl Hok]. rewrite Forall_forall in Hok.
    from (get_list_back 40 ProxyZmq.send_task _ _ (Z.of_nat (length (ZmqClient.file_list r))) _ rest Hl
      (fun i Hi more rest => get_task_back i more rest (Hok i Hi))).
  - destruct Hok as (? & ? & ? & ? & ?). eexists. split; [reflexivity|]. cbn [app]. pstep ltac:(apply Hop). rewrite Eop. reply_ops.
    by repeat (pstep ltac:(by apply get_field_number)).
  - from (get_sys_info_back (ZmqClient.proxy_status r) (Request.proxyStatus rep) false rest Hok).
Qed.
End replies.

(** * Messages *)

(** Every frame announces another one. *)
Definition announcing (fs : list frame) : Prop := Forall (fun f => snd f = true) fs.

Lemma announcing_nil : announcing [].
Proof. constructor. Qed.

Lemma announcing_cons b fs : announcing fs -> announcing ((b, true) :: fs).
Proof. by constructor. Qed.

(** A message: every frame but the last one announces another one. *)
Definition well_formed (fs : list frame) : Prop := exists l b, fs = l ++ [(b, false)] /\ announcing l.

(** Part of a message: the last frame announces [more]. *)
Definition part (more : bool) (fs : list frame) : Prop := exists l b, fs = l ++ [(b, more)] /\ announcing l.

Lemma part_one b more : part more [(b, more)].
Proof. exists [], b. split; [done|constructor]. Qed.

Lemma part_after more a fs : announcing a -> part more fs -> part more (a ++ fs).
Proof. intros Ha (l & b & -> & Hl). exists (a ++ l), b. split; [by rewrite app_assoc|by apply Forall_app_2]. Qed.

Lemma part_cons more b fs : part more fs -> part more ((b, true) :: fs).
Proof. intros H. apply (part_after more [(b, true)]); [by repeat constructor|done]. Qed.

Lemma part_announcing fs : part true fs -> announcing fs.
Proof. intros (l & b & -> & Hl). apply Forall_app_2; [done|by repeat constructor]. Qed.

Create HintDb frames.
#[local] Hint Resolve part_one part_after part_cons part_announcing : frames.
#[local] Hint Resolve announcing_nil announcing_cons : frames.

Lemma send_buffer_flag b len more f : ProxyZmq.send_buffer b len more = Ok f -> exists x, f = (x, more).
Proof. unfold ProxyZmq.send_buffer. destruct (access _); cbn; [done|done|]. intros [= <-]. by eexists. Qed.

Lemma ok_inj {A} (a b : A) : Ok a = Ok b -> b = a.
Proof. congruence. Qed.

(** Splits the equation of a program that returned. *)
Ltac oks := repeat match goal with
  | H : obind ?o _ = Ok _ |- _ => let E := fresh "E" in destruct o eqn:E; cbn [obind] in H; [done|done|]
  | H : Ok _ = Ok _ |- _ => apply ok_inj in H; try subst
  | H : ProxyZmq.send_buffer _ _ _ = Ok ?x |- _ => apply send_buffer_flag in H; destruct H as [? ->]
  | H : ZmqClient.send_name _ _ = Ok ?x |- _ => apply send_buffer_flag in H; destruct H as [? ->]
  end.

Lemma send_file_fields_formed op f fs : ZmqClient.send_file_fields op f = Ok fs -> well_formed fs.
Proof.
  unfold ZmqClient.send_file_fields. intros H. oks. change (well_formed ?l) with (part false l).
  apply part_after; [auto with frames|]. apply part_after; [destruct (ZmqClient.has_size_or_length op); auto with frames|].
  apply part_after.
  - destruct (op =? op_num WRITE_FILE_REQ); oks; [auto with frames|]. destruct (ZmqClient.has_offset op); auto with frames.
  - destruct (0 <? _); oks; [rewrite orb_true_r; auto with frames|]. rewrite orb_false_r.
    destruct (_ && _); oks; rewrite ?app_nil_r; auto with frames.
Qed.

Lemma request_formed op ns f fs : ZmqClient.request_frames op ns f = Ok fs -> well_formed fs.
Proof.
  unfold ZmqClient.request_frames. intros H. oks. change (well_formed ?l) with (part false l).
  destruct (ZmqClient.has_opcode_only op); oks; cbn [negb]; [apply part_one|]. apply part_cons. cbn [ZmqClient.has_namespace_id_only negb] in *.
  apply part_cons. destruct (op =? _); oks; [auto with frames|]. destruct (is_op _ _); oks; [auto with frames|].
  by eapply send_file_fields_formed.
Qed.

Lemma send_each_cons {A} (send : A -> bool -> outcome (list frame)) a l :
  ProxyZmq.send_each send (a :: l) =
  let* fs := send a (negb (bool_decide (length l = 0%nat))) in let* rest := ProxyZmq.send_each send l in Ok (fs ++ rest).
Proof. done. Qed.

Lemma send_list_formed {A} (send : A -> bool -> outcome (list frame)) l fs :
  (forall a more fs, send a more = Ok fs -> part more fs) -> ProxyZmq.send_list send l = Ok fs -> well_formed fs.
Proof.
  intros Hsend H. unfold ProxyZmq.send_list in H. destruct (ProxyZmq.send_each send l) as [| |gs] eqn:E; cbn [obind] in H; [done|done|].
  apply ok_inj in H. subst fs. rename gs into fs. change (well_formed ?l) with (part false l). destruct l as [|a l]; [cbn in E; oks; apply part_one|]. cbn [length Nat.ltb Nat.leb]. apply part_cons.
  revert a fs E. induction l as [|a' l IH]; intros a fs E; rewrite send_each_cons in E;
    destruct (send a _) as [| |fa] eqn:Ea; cbn [obind] in E; try done; apply Hsend in Ea.
  - cbn in E. apply ok_inj in E. subst fs. by rewrite app_nil_r.
  - destruct (ProxyZmq.send_each send (a' :: l)) as [| |fr] eqn:Er; cbn [obind] in E; [done|done|].
    apply ok_inj in E. subst fs. apply part_after; [by apply part_announcing|by eapply IH].
Qed.

Lemma send_sys_info_formed s more fs : ProxyZmq.send_sys_info s more = Ok fs -> part more fs.
Proof. unfold ProxyZmq.send_sys_info. destruct (_ <? _); [done|]. intros [= <-]. auto 10 with frames. Qed.

Lemma send_agent_formed a more fs : ProxyZmq.send_agent a more = Ok fs -> part more fs.
Proof.
  unfold ProxyZmq.send_agent. destruct a as [addr i]. intros H. oks. apply send_sys_info_formed in E.
  do 3 apply part_cons. apply part_after; [auto with frames|]. destruct (0 <? _)%nat; cbn [orb app]; auto 10 with frames.
Qed.

Lemma send_file_data_formed op f fs : ProxyZmq.send_file_data op f = Ok fs -> well_formed fs.
Proof.
  unfold ProxyZmq.send_file_data. intros H. oks. change (well_formed ?l) with (part false l).
  apply part_after; [destruct (op =? _); auto with frames|]. destruct (Request.isCached f); oks; auto with frames.
Qed.

Lemma is_op_app z a b : is_op z (a ++ b) = is_op z a || is_op z b.
Proof. unfold is_op. apply existsb_app. Qed.

Lemma reply_formed rep fs : ProxyZmq.sendReply rep = Ok fs -> well_formed fs.
Proof.
  unfold ProxyZmq.sendReply. set (op := Request.opcode rep). intros H.
  match type of H with obind ?o _ = _ => destruct o as [| |gs] eqn:E end; cbn [obind] in H; [done|done|].
  apply ok_inj in H. subst fs. change (well_formed ?l) with (part false l). unfold ProxyZmq.replyOpcodeOnly.
  change [GET_APPEND_SIZE_REP_SUCCESS; GET_READ_SIZE_REP_SUCCESS; APPEND_FILE_REP_SUCCESS; OVERWRITE_FILE_REP_SUCCESS;
          GET_AGENT_STATUS_REP_SUCCESS; GET_PROXY_STATUS_REP_SUCCESS; GET_BG_TASK_PRG_REP_SUCCESS; GET_REPAIR_STATS_REP_SUCCESS]
    with ([GET_APPEND_SIZE_REP_SUCCESS; GET_READ_SIZE_REP_SUCCESS] ++ [APPEND_FILE_REP_SUCCESS; OVERWRITE_FILE_REP_SUCCESS] ++
          [GET_AGENT_STATUS_REP_SUCCESS] ++ [GET_PROXY_STATUS_REP_SUCCESS] ++ [GET_BG_TASK_PRG_REP_SUCCESS] ++ [GET_REPAIR_STATS_REP_SUCCESS]).
  rewrite !is_op_app.
  repeat match type of E with (if ?b then _ else _) = _ => destruct b; cbn [negb andb orb] end;
    rewrite ?andb_false_r; cbn [negb]; [apply part_cons..|by apply ok_inj in E; subst; apply part_one].
  - by eapply send_file_data_formed.
  - oks. unfold ProxyZmq.send_stats. auto with frames.
  - eapply send_list_formed, E. intros i more fs Hi. unfold ProxyZmq.send_info in Hi. oks. auto 8 with frames.
  - oks. auto with frames.
  - oks. auto with frames.
  - eapply send_list_formed, E. apply send_agent_formed.
  - by eapply send_sys_info_formed.
  - eapply send_list_formed, E. intros t more fs Ht. unfold ProxyZmq.send_task in Ht. oks. auto with frames.
  - oks. auto with frames.
Qed.

(** C18: Every message of the protocol is well formed: whatever the request of the client
    or the reply of the proxy is, if it can be sent at all then every frame but the last
    one announces another frame, so that it arrives as one message and the next message
    starts afresh. *)
Theorem messages_well_formed :
  (forall op ns f fs, ZmqClient.request_frames op ns f = Ok fs -> well_formed fs) /\
  (forall rep fs, ProxyZmq.sendReply rep = Ok fs -> well_formed fs).
Proof. split; [apply request_formed|apply reply_formed]. Qed.

(** * A call and its reply *)

(** The reply that means success; the other calls accept any reply. *)
Definition success_of (c : call) : option ClientOpcode :=
  match c with
  | Write _ _ _ _ | WriteCached _ _ _ _ => Some WRITE_FILE_REP_SUCCESS
  | Read _ | ReadCached _ _ => Some READ_FILE_REP_SUCCESS
  | Delete _ => Some DEL_FILE_REP_SUCCESS
  | Append _ _ _ _ | AppendCached _ _ _ _ => Some APPEND_FILE_REP_SUCCESS
  | Overwrite _ _ _ _ => Some OVERWRITE_FILE_REP_SUCCESS
  | ReadRange _ _ _ _ | ReadRangeCached _ _ _ _ => Some READ_FILE_RANGE_REP_SUCCESS
  | Rename _ _ => Some RENAME_FILE_REP_SUCCESS
  | Copy _ _ _ _ => Some COPY_FILE_REP_SUCCESS
  | _ => None
  end.

Definition accepted (c : call) (o : ClientOpcode) : bool :=
  match success_of c with Some s => op_num s =? op_num o | None => true end.

(** The network with a proxy at the other end that answers a request with [serve]. *)
Definition link_to (malloc : Z -> bool) (dflt : string) (serve : Request.t -> Request.t) (fs : list frame) : option (list frame) :=
  match ProxyZmq.getRequest malloc dflt fs true with
  | Ok (req, [], _) => match ProxyZmq.sendReply (serve req) with Ok fs => Some fs | _ => None end
  | _ => None
  end.

Lemma op_num_range o : 0 <= op_num o < 49.
Proof. destruct o; cbn; lia. Qed.

Lemma prepared_opcode ret c ns r code r' : prepare ret c ns r = Ok (code, r') -> ret <> -1 -> forall o,
  ZmqClient.refused (ZmqClient.opcode r') (op_num o) = negb (accepted c o).
Proof.
  intros E Hret o. apply Z.eqb_neq in Hret.
  destruct c; cbn -[op_num Z.eqb] in E; rewrite ?Hret in E; cbn -[op_num Z.eqb] in E; injection E as _ <-; destruct o; reflexivity.
Qed.

(** C13: A call of the client library reaches the proxy as it was made, and the reply
    reaches the caller: for every call with arguments that the interface can take, the
    request that the library sets up and sends is read by the proxy as exactly this call,
    with the data and the names it was given; what the message for the proxy's answer
    carries, if it fits the message and the caller's buffer, is what the request holds
    afterwards, and the rest of the request is as it was: the data and the size for a
    read, a size for an append, an overwrite and the two calls that ask for a size, the
    lists and figures for the calls that ask for them, and nothing for a write, a
    deletion, a rename, a copy or any failure.  The value returned is the size in the
    request, or [ULONG_MAX] when the call is to write, read, append, overwrite, delete,
    rename or copy and the answer is not its success; a call that asks for a size
    returns the size that was in the request also when the answer is a failure. *)
Theorem client_exchange malloc malloc' dflt junk junk_item junk_agent serve ret c ns r code r' o :
  call_ok c -> 0 <= ns < 256 -> 0 <= ZmqClient.namespace_id r < 256 -> ret <> -1 ->
  (forall n, payload c = Some n -> malloc (u64 (n + 1)) = true) -> (forall n, malloc' n = true) ->
  prepare ret c ns r = Ok (code, r') ->
  let rep := serve (asked_for dflt c ns r) in
  Request.opcode rep = op_num o -> reply_ok junk_agent o r' rep ->
  let r2 := told junk_item junk_agent o r' rep in
  ZmqClient.send_request malloc' junk junk_item junk_agent (link_to malloc dflt serve) r' =
  Ok (ZmqClient.Replied (if accepted c o then ZmqClient.size (ZmqClient.file r2) else ZmqClient.ULONG_MAX) r2).
Proof.
  intros Hok Hns Hr Hret Hm Hm' Ep rep Eo Hrep r2.
  pose proof (request_back malloc dflt ret c ns r Hok Hns Hr Hret Hm) as Hreq. rewrite Ep in Hreq. destruct Hreq as (fs & Efs & Hget).
  unfold ZmqClient.send_request. rewrite Efs. cbn [obind]. unfold link_to.
  specialize (Hget [] true). rewrite app_nil_r in Hget. rewrite Hget. fold rep.
  destruct (reply_back malloc' junk junk_item junk_agent Hm' o r' rep [] true Eo Hrep) as (gs & Egs & Hread).
  rewrite Egs. rewrite app_nil_r in Hread. rewrite Hread. fold r2. pose proof (op_num_range o).
  rewrite (proj2 (Z.ltb_ge _ _)) by lia. do 2 f_equal.
  assert (ZmqClient.opcode r2 = ZmqClient.opcode r') as -> by (unfold r2, told; by destruct o).
  rewrite (prepared_opcode _ _ _ _ _ _ Ep Hret). by destruct (accepted c o).
Qed.

(** The proxy copies every frame of the data that comes without comparing its length with
    the size that was announced: a frame that is longer than the announced size by two
    bytes or more runs over the end of the buffer. *)
Theorem long_frame_overruns malloc sz b m fs :
  0 < sz -> sz + 1 < 18446744073709551616 -> malloc (sz + 1) = true -> sz + 1 < Z.of_nat (length b) ->
  ProxyZmq.get_data malloc sz ((b, m) :: fs) true = Undef.
Proof.
  intros Hsz Hmax Hm Hb. unfold ProxyZmq.get_data. rewrite u64_small, Hm by lia. unfold pbind. cbn [ProxyZmq.get_frames length Z.of_nat].
  rewrite (proj2 (Z.ltb_lt _ _)) by lia. cbn [negb Nat.add]. by rewrite (proj2 (Z.leb_gt _ _)) by lia.
Qed.

(** * Witnesses *)

Module ZmqSample.

Definition all_memory (n : Z) : bool := true.
Definition no_item : ZmqClient.file_list_item_t := ZmqClient.mk_item "" 0 0 0 0.
Definition no_agent : ZmqClient.agent_info_t :=
  ZmqClient.mk_agent 0 "" 0 0 (replicate 16 0) (replicate 16 0) (replicate 16 0) (replicate 16 0) SysInfo.init.

(** A request as it is before it is set up. *)
Definition blank : ZmqClient.request_t :=
  ZmqClient.mk_request 7 9 ZmqClient.file_t_init (ZmqClient.mk_stats 1 2 3 4) [] [] SysInfo.init.

(** A proxy with one file. *)
Definition one_file (req : Request.t) : Request.t :=
  if (Request.opcode req =? op_num READ_FILE_REQ) && bool_decide (Request.name (Request.file req) = "a"%string)
  then Request.set_file (Request.set_opcode Request.init (op_num READ_FILE_REP_SUCCESS))
         (Request.mk_file "a" 5 0 3 false "" (Some [10; 20; 30]) "")
  else Request.set_opcode Request.init (op_num READ_FILE_REP_FAIL).

Definition read_a : ZmqClient.request_t :=
  match prepare 0 (Read "a") 5 blank with Ok (_, r) => r | _ => blank end.

Lemma client_exchange_witness :
  call_ok (Read "a") /\
  exists r, ZmqClient.send_request all_memory (fun _ => 0) no_item no_agent (link_to all_memory "std" one_file) read_a =
    Ok (ZmqClient.Replied 3 r) /\ ZmqClient.data (ZmqClient.file r) = Some [10; 20; 30].
Proof.
  split; [unfold call_ok, text_ok; vm_compute; reflexivity|]. eexists. split; [apply (client_exchange all_memory all_memory "std" (fun _ => 0) no_item no_agent one_file 0 (Read "a") 5 blank 0 read_a READ_FILE_REP_SUCCESS)
    |reflexivity];
    try reflexivity; try (cbn; lia); try (vm_compute; reflexivity); try (intros n Hn; discriminate Hn).
  split; [|split]; [vm_compute; split; congruence..|]. intros _. split; [vm_compute; congruence|]. intros buf Hb. discriminate Hb.
Defined.

End ZmqSample.
