(* ===== verification/CoordinatorTheorems.v ===== *)
(** Correctness of the proxy's coordinator: the liveness report is exact, new
    chunks go to distinct live containers with room and in such a way that no [f]
    agents hold more chunks than the code tolerates to lose, chunks are grouped
    by agent, and the tables stay consistent while agents register, update their
    status and disappear. *)

From S2P Require Import Prelude DS IO Coordinator ProxyCoordinator.
Import ProxyCoordinator.

#[local] Open Scope outcome_scope.

(** * Placement *)

Definition slots_of (ag : gmap string AgentInfo) (ip : string) : list slot :=
  match ag !! ip with Some info => containers info | None => [] end.

Definition agent_ids (ag : gmap string AgentInfo) (ip : string) : list Z :=
  map containerId (slots_of ag ip).

(** The index where the next search starts is one of the agent's containers. *)
Definition start_ok (info : AgentInfo) : Prop :=
  containers info = [] \/ (startingContainerIndex info < length (containers info))%nat.

Section screening.
Context (p : placement) (need : Z).
Context (Hneed : chunk_need p = Ok need) (Hpolicy : order p <> POLICY_LU).

(** What the loop over the containers [cs] of one agent takes, in the order it
    looks at them: it stops for good at the first container that is too full. *)
Fixpoint pick (room budget : nat) (low : bool) (cs : list slot) : list Z :=
  match cs with
  | [] => []
  | c :: cs =>
      if (room =? 0)%nat || (budget =? 0)%nat then []
      else if bool_decide (containerId c ∈ pool p) then pick room (budget - 1) low cs
      else if too_full c need then []
      else containerId c :: pick (if low then room else room - 1)%nat (budget - 1) low cs
  end.

Lemma pick_sublist room budget low cs : sublist (pick room budget low cs) (map containerId cs).
Proof using.
  revert room budget. induction cs as [|c cs IH]; intros room budget; simpl; [constructor|].
  destruct (_ || _); [apply sublist_nil_l|]. case_bool_decide; [by constructor|].
  destruct (too_full c need); [apply sublist_nil_l|]. by constructor.
Qed.

Lemma pick_budget room budget low cs : (length (pick room budget low cs) <= budget)%nat.
Proof using.
  revert room budget. induction cs as [|c cs IH]; intros room budget; simpl; [lia|].
  destruct (Nat.eqb_spec budget 0); [rewrite orb_true_r; simpl; lia|]. rewrite orb_false_r.
  destruct (room =? 0)%nat; [simpl; lia|].
  case_bool_decide; [specialize (IH room (budget - 1)%nat); lia|].
  destruct (too_full c need); simpl; [lia|].
  specialize (IH (if low then room else room - 1)%nat (budget - 1)%nat). lia.
Qed.

Lemma pick_room room budget cs : (length (pick room budget false cs) <= room)%nat.
Proof using.
  revert room budget. induction cs as [|c cs IH]; intros room budget; simpl; [lia|].
  destruct (Nat.eqb_spec room 0); [simpl; lia|]. destruct (budget =? 0)%nat; [simpl; lia|].
  case_bool_decide; [apply IH|]. destruct (too_full c need); simpl; [lia|].
  specialize (IH (room - 1)%nat (budget - 1)%nat). lia.
Qed.

(** A container with room that is not in use. *)
Definition usable (cs : list slot) (id : Z) : Prop :=
  id ∉ pool p /\ exists c, c ∈ cs /\ containerId c = id /\ too_full c need = false.

Lemma pick_usable room budget low cs : Forall (usable cs) (pick room budget low cs).
Proof using.
  revert room budget. induction cs as [|c cs IH]; intros room budget; simpl; [constructor|].
  assert (forall id, usable cs id -> usable (c :: cs) id) as Hmono.
  { intros id (? & c' & ? & ? & ?). split; [done|]. exists c'. split; [by right|done]. }
  destruct (_ || _); [constructor|].
  case_bool_decide as Hin; [eapply Forall_impl; [apply IH|done]|].
  destruct (too_full c need) eqn:Hfull; [constructor|]. constructor.
  - split; [done|]. exists c. split; [by left|done].
  - eapply Forall_impl; [apply IH|done].
Qed.

(** Once the loop is at a container that is too full it does nothing more. *)
Lemma screen_stuck info cnt n fuel sc c :
  containers info !! cidx sc = Some c -> containerId c ∉ pool p -> too_full c need = true ->
  screen p info cnt n fuel sc = Ok sc.
Proof using Hneed.
  intros Hc Hp Hf. induction fuel as [|fuel IH]; [done|]. simpl. destruct (negb _); [done|].
  rewrite Hc. cbn [access obind]. rewrite bool_decide_eq_false_2 by done. rewrite Hneed.
  cbn [obind]. by rewrite Hf.
Qed.

(** [rest] is what lies ahead of the index [i], around the end of [cs]. *)
Definition ahead (cs rest : list slot) (i : nat) : Prop :=
  forall j, (j < length rest)%nat -> cs !! ((i + j) mod length cs)%nat = rest !! j.

Lemma ahead_tail cs c rest i : ahead cs (c :: rest) i ->
  ahead cs rest ((i + 1) mod length cs).
Proof using.
  intros Ha j Hj. specialize (Ha (Datatypes.S j) ltac:(simpl; lia)). simpl in Ha. rewrite <- Ha.
  f_equal. rewrite Nat.Div0.add_mod_idemp_l. f_equal. lia.
Qed.

Lemma screen_picks info cnt rest sc :
  let low := low_priority p info cnt in
  ahead (containers info) rest (cidx sc) -> (cidx sc < length (containers info))%nat ->
  exists sc', screen p info cnt (length (containers info)) (length rest) sc = Ok sc' /\
  let new := pick (numSpare p - length (spare sc)) (Z.to_nat (limit p - Z.of_nat (local sc))) low rest in
  spare sc' = spare sc ++ (if low then [] else new) /\
  skipped sc' = skipped sc ++ (if low then new else []).
Proof using Hneed Hpolicy.
  intros low. revert sc. induction rest as [|c rest IH]; intros sc Ha Hi; simpl.
  { exists sc. destruct low; by rewrite !app_nil_r. }
  assert (((numSpare p - length (spare sc) =? 0)%nat
     || (Z.to_nat (limit p - Z.of_nat (local sc)) =? 0)%nat) =
    negb ((length (spare sc) <? numSpare p)%nat && (Z.of_nat (local sc) <? limit p))) as -> by bdestr.
  destruct (_ && _); cbn [negb].
  2:{ exists sc. destruct low; by rewrite !app_nil_r. }
  pose proof (Ha 0%nat ltac:(simpl; lia)) as Hc. simpl in Hc.
  rewrite Nat.add_0_r, Nat.mod_small in Hc by done. rewrite Hc. cbn [access obind].
  assert ((cidx sc + 1) mod length (containers info) < length (containers info))%nat as Hi'
    by (apply Nat.mod_upper_bound; lia).
  replace (Z.to_nat (limit p - Z.of_nat (local sc)) - 1)%nat
    with (Z.to_nat (limit p - Z.of_nat (local sc + 1))) by lia.
  case_bool_decide as Hin.
  { destruct (IH (mk_scan (spare sc) (skipped sc) (local sc + 1)
      ((cidx sc + 1) mod length (containers info)) (uit sc) (start sc)))
      as (sc' & -> & Hsp & Hsk); [by eapply ahead_tail|done|]. by exists sc'. }
  rewrite Hneed. cbn [obind]. destruct (too_full c need) eqn:Hf.
  { rewrite (screen_stuck _ _ _ _ _ c) by done. exists sc. destruct low; by rewrite !app_nil_r. }
  rewrite bool_decide_eq_false_2 by done.
  set (sc1 := set_cidx (take_container p info cnt (containerId c) sc)
    ((cidx sc + 1) mod length (containers info))
    (uit (take_container p info cnt (containerId c) sc))).
  destruct (IH sc1) as (sc' & -> & Hsp & Hsk);
    [subst sc1; by eapply ahead_tail|subst sc1; done|]. exists sc'. split; [done|].
  subst sc1. unfold take_container in *. fold low in Hsp, Hsk |- *. destruct low; simpl in *.
  - rewrite Hsp, Hsk, <- app_assoc. done.
  - rewrite Hsp, Hsk, <- app_assoc, length_app. simpl.
    by replace (numSpare p - (length (spare sc) + 1))%nat
      with (numSpare p - length (spare sc) - 1)%nat by lia.
Qed.

(** ** One agent *)

Lemma rotate_ahead cs i : (i < length cs)%nat -> ahead cs (rotate i cs) i.
Proof using.
  intros Hi j Hj. rewrite length_rotate in Hj. rewrite lookup_rotate_r by done. f_equal.
  unfold rotate_nat_add. rewrite <- Nat2Z.inj_add, <- Nat2Z.inj_mod, Nat2Z.id. done.
Qed.

Lemma rotate_Permutation {A} n (l : list A) : rotate n l ≡ₚ l.
Proof using.
  unfold rotate. rewrite Permutation_app_comm. by rewrite take_drop.
Qed.

(** What an agent contributes. *)
Definition contribution (cs : list slot) (new : list Z) : Prop :=
  new ⊆+ map containerId cs /\ (length new <= Z.to_nat (limit p))%nat /\ Forall (usable cs) new.

Lemma contribution_nil cs : contribution cs [].
Proof using. split_and!; [apply submseteq_nil_l|simpl; lia|constructor]. Qed.

Lemma screen_agent_spec ip info cnt sel skip :
  start_ok info -> (length sel <= numSpare p)%nat ->
  exists r, screen_agent p ip info cnt sel skip = Ok r /\
  match r with
  | None => True
  | Some sc => exists new, contribution (containers info) new /\
      spare sc ++ skipped sc ≡ₚ (sel ++ skip) ++ new /\ (length (spare sc) <= numSpare p)%nat
  end.
Proof using Hneed Hpolicy.
  intros Hst Hlen. unfold screen_agent. destruct (limit p <=? _); [by exists None|].
  rewrite bool_decide_eq_false_2 by done.
  set (sc0 := mk_scan sel skip 0 _ _ _).
  assert (exists rest, ahead (containers info) rest (cidx sc0) /\ rest ≡ₚ containers info /\
    (rest = [] \/ cidx sc0 < length (containers info))%nat) as (rest & Ha & Hp & Hi).
  { destruct Hst as [E|Hi]; [exists []; rewrite E; split_and!; [intros j Hj; simpl in Hj; lia|done|by left]|].
    exists (rotate (cidx sc0) (containers info)).
    split_and!; [by apply rotate_ahead|apply rotate_Permutation|by right]. }
  cbv zeta. replace (screen p info cnt _ _ sc0)
    with (screen p info cnt (length (containers info)) (length rest) sc0) by (by rewrite Hp).
  assert (exists sc', screen p info cnt (length (containers info)) (length rest) sc0 = Ok sc' /\
    let new := pick (numSpare p - length sel) (Z.to_nat (limit p - Z.of_nat 0))
                 (low_priority p info cnt) rest in
    spare sc' = sel ++ (if low_priority p info cnt then [] else new) /\
    skipped sc' = skip ++ (if low_priority p info cnt then new else []))
    as (sc' & -> & Hsp & Hsk).
  { destruct Hi as [->|Hi]; [|by apply (screen_picks info cnt rest sc0)].
    exists sc0. simpl. destruct (low_priority p info cnt); by rewrite !app_nil_r. }
  cbn [obind]. eexists. split; [done|]. simpl in Hsp, Hsk.
  set (new := pick _ _ _ rest) in *. exists new. split; [|split].
  - split_and!.
    + rewrite <- Hp. apply sublist_submseteq, pick_sublist.
    + unfold new. rewrite pick_budget. lia.
    + eapply Forall_impl; [apply pick_usable|]. intros id (? & c & Hc & ?). split; [done|].
      exists c. by rewrite <- Hp.
  - rewrite Hsp, Hsk. destruct (low_priority p info cnt); rewrite ?app_nil_r; [by rewrite app_assoc|].
    rewrite <- !app_assoc. by rewrite (Permutation_app_comm new skip).
  - rewrite Hsp. unfold new. destruct (low_priority p info cnt); rewrite length_app; simpl; [lia|].
    pose proof (pick_room (numSpare p - length sel) (Z.to_nat (limit p - Z.of_nat 0)) rest). simpl in *. lia.
Qed.

(** ** All agents *)

Lemma screen_agents_spec ips cnt sel skip ag :
  NoDup ips -> Forall (fun ip => exists info, ag !! ip = Some info /\ start_ok info) ips ->
  (length sel <= numSpare p)%nat ->
  exists sel' skip' ag', screen_agents p ips cnt sel skip ag = Ok (sel', skip', ag') /\
  (length sel' <= numSpare p)%nat /\
  exists picks, Forall2 (fun ip new => contribution (slots_of ag ip) new) ips picks /\
    sel' ++ skip' ≡ₚ (sel ++ skip) ++ concat picks.
Proof using Hneed Hpolicy.
  intros Hnd. revert cnt sel skip ag. induction Hnd as [|a ips Ha Hnd IH]; intros cnt sel skip ag HF Hlen.
  { exists sel, skip, ag. split_and!; [done|done|]. exists []. by rewrite app_nil_r. }
  apply Forall_cons in HF as [(info & Hinfo & Hst) HF]. cbn [screen_agents]. rewrite Hinfo.
  destruct (screen_agent_spec a info cnt sel skip Hst Hlen) as (r & -> & Hr). cbn [obind].
  destruct r as [sc|].
  2:{ destruct (IH cnt sel skip ag HF Hlen) as (sel' & skip' & ag' & -> & Hl & picks & HP & Hperm).
      exists sel', skip', ag'. split_and!; [done|done|]. exists ([] :: picks).
      split; [constructor; [apply contribution_nil|done]|done]. }
  destruct Hr as (new & Hnew & Hperm & Hl).
  set (ag1 := <[a := set_start info (start sc)]> ag).
  assert (forall ip, slots_of ag1 ip = slots_of ag ip) as Hslots.
  { intros ip. unfold slots_of, ag1. destruct (decide (ip = a)) as [->|Hne].
    - by rewrite lookup_insert_eq, Hinfo.
    - by rewrite lookup_insert_ne. }
  assert (contribution (slots_of ag a) new) as Hca by (unfold slots_of; by rewrite Hinfo).
  destruct (numSpare p <=? length (spare sc))%nat.
  - exists (spare sc), (skipped sc), ag1. split_and!; [done|done|].
    exists (new :: replicate (length ips) []). split.
    + constructor; [done|]. apply Forall2_same_length_lookup_2; [by rewrite length_replicate|].
      intros i x y _ [-> _]%lookup_replicate. apply contribution_nil.
    + rewrite Hperm. simpl. assert (concat (replicate (length ips) []) = ([] : list Z)) as ->
        by (induction (length ips); simpl; auto). by rewrite app_nil_r.
  - destruct (IH (cnt + 1)%nat (spare sc) (skipped sc) ag1) as (sel' & skip' & ag' & -> & Hl' & picks & HP & Hp').
    + apply Forall_forall. intros ip Hip. rewrite Forall_forall in HF. unfold ag1.
      rewrite lookup_insert_ne; [by apply HF|]. by intros ->.
    + done.
    + exists sel', skip', ag'. split_and!; [done|done|]. exists (new :: picks). split.
      * constructor; [done|]. eapply Forall2_impl; [exact HP|]. intros ip x Hx. cbv beta in *. by rewrite Hslots in Hx.
      * rewrite Hp', Hperm. simpl. by rewrite !app_assoc.
Qed.
End screening.

(** * Status updates keep the tables *)

(** The set of live agents and the status table agree. *)
Definition consistent (s : t) : Prop :=
  forall ip, ip ∈ _aliveAgents s <-> _agentStatus s !! ip = Some true.

(** [s'] is [s] after status updates: agents may have gone down and usages may
    have changed, nothing else. *)
Record updated (s s' : t) : Prop := {
  up_map : _containerToAgentMap s' = _containerToAgentMap s;
  up_info : forall ip, option_Forall2 (fun i i' =>
    map containerId (containers i') = map containerId (containers i) /\
    startingContainerIndex i' = startingContainerIndex i) (_agents s !! ip) (_agents s' !! ip);
  up_known : forall ip, is_Some (_agentStatus s' !! ip) <-> is_Some (_agentStatus s !! ip);
  up_alive : forall ip, ip ∈ _aliveAgents s' -> ip ∈ _aliveAgents s;
  up_consistent : consistent s -> consistent s'
}.

#[global] Instance updated_refl : Reflexive updated.
Proof.
  intros s. constructor; [done| |done|done|done].
  intros ip. destruct (_agents s !! ip); by constructor.
Qed.

#[global] Instance updated_trans : Transitive updated.
Proof.
  intros s1 s2 s3 [Hm1 Hi1 Hk1 Ha1 Hs1] [Hm2 Hi2 Hk2 Ha2 Hs2]. constructor; [congruence| | |auto|auto].
  - intros ip. specialize (Hi1 ip). specialize (Hi2 ip).
    destruct Hi1 as [i i' [E1 E2]|]; inversion Hi2 as [? i'' [E3 E4]|]; subst; constructor.
    split; congruence.
  - intros ip. by rewrite Hk2, Hk1.
Qed.

Lemma updated_set_agent s ip info info' : _agents s !! ip = Some info ->
  map containerId (containers info') = map containerId (containers info) ->
  startingContainerIndex info' = startingContainerIndex info ->
  updated s (set_agent s ip info').
Proof.
  intros Hi Hc Hst. constructor; simpl; [done| |done|done|done].
  intros ip'. destruct (decide (ip = ip')) as [<-|Hne].
  - rewrite lookup_insert_eq, Hi. by constructor.
  - rewrite lookup_insert_ne by done. destruct (_agents s !! ip'); by constructor.
Qed.

Lemma updated_down s ip : updated s (snd (setAgentDown s ip)).
Proof.
  constructor; simpl; [done| | |set_solver|].
  - intros ip'. destruct (_agents s !! ip'); by constructor.
  - intros ip'. case_bool_decide as Hk; [|done]. destruct (decide (ip = ip')) as [<-|Hne].
    + rewrite lookup_insert_eq. split; [done|by eexists].
    + by rewrite lookup_insert_ne.
  - intros Hc ip'. simpl. specialize (Hc ip'). rewrite elem_of_difference, elem_of_singleton, Hc.
    case_bool_decide as Hk; destruct (decide (ip = ip')) as [<-|Hne].
    + rewrite lookup_insert_eq. naive_solver.
    + rewrite lookup_insert_ne by done. naive_solver.
    + split; [naive_solver|]. intros Hs. by destruct Hk; eexists.
    + naive_solver.
Qed.

Lemma updated_lose s ip info info' : _agents s !! ip = Some info ->
  map containerId (containers info') = map containerId (containers info) ->
  startingContainerIndex info' = startingContainerIndex info ->
  updated s (lose_agent s ip info').
Proof.
  intros Hi Hc Hst. unfold lose_agent. etrans; [apply updated_down|].
  by apply (updated_set_agent _ _ info).
Qed.

(** The report overwrites entries of containers with the same id. *)
Lemma status_step_ids e num i cs um cs' um' : status_step e num i (cs, um) = Ok (cs', um') ->
  map containerId cs' = map containerId cs.
Proof.
  assert (forall id j fuel k, find_slot cs id num j fuel = Ok (Some k) ->
    exists c, cs !! k = Some c /\ containerId c = id) as Hfind.
  { intros id j fuel. revert j. induction fuel as [|fuel IH]; intros j k; simpl; [done|].
    destruct (cs !! j) as [c|] eqn:Hc; [|done]. cbn [access obind].
    destruct (Z.eqb_spec (containerId c) id); [|apply IH]. intros [= <-]. by exists c. }
  simpl. intros H. destruct (access (CoordinatorEvent.containerIds e !! i)) as [| |id]; [done|done|].
  cbn [obind] in H. destruct (find_slot _ _ _ _ _) as [| |[j|]] eqn:Hj; [done|done| |];
    cbn [obind] in H.
  - apply Hfind in Hj as (c & Hc & <-).
    repeat (destruct (access _); cbn [obind] in H; try done). simplify_eq.
    apply list_eq. intros k. rewrite !list_lookup_fmap. destruct (decide (j = k)) as [<-|Hne].
    + rewrite list_lookup_insert_eq by (eapply lookup_lt_Some; eauto). by rewrite Hc.
    + by rewrite list_lookup_insert_ne.
  - repeat (destruct (access _); cbn [obind] in H; try done). by simplify_eq.
Qed.

Lemma update_info_ids info e info' : update_info info e = Ok info' ->
  map containerId (containers info') = map containerId (containers info) /\
  startingContainerIndex info' = startingContainerIndex info.
Proof.
  unfold update_info. intros H. destruct (for_outcome _ _ _ _) as [| |[cs um]] eqn:Hf; [done|done|].
  cbn [obind] in H. simplify_eq. simpl. split; [|done].
  assert (forall i m st cs um, for_outcome (status_step e (Z.to_nat (CoordinatorEvent.numContainers e)))
    i m st = Ok (cs, um) -> map containerId cs = map containerId (fst st)) as Hloop.
  { clear. intros i m. revert i. induction m as [|m IH]; intros i st cs um; simpl; [by intros [= ->]|].
    destruct (status_step _ _ i st) as [| |[cs1 um1]] eqn:Hs; [done|done|]. cbn [obind].
    intros H%IH. rewrite H. destruct st as [cs0 um0]. by apply status_step_ids in Hs. }
  by apply Hloop in Hf.
Qed.

Lemma update_agent_updated w s ip s' : update_agent w s ip = Ok s' -> updated s s'.
Proof.
  unfold update_agent. intros H. destruct (_agents s !! ip) as [info|] eqn:Hi; [|by simplify_eq].
  destruct (negb (socket info)); [by simplify_eq|].
  destruct (status_of w ip) as [| |e]; [simplify_eq; by apply (updated_lose _ _ info)|by simplify_eq|].
  destruct (update_info info e) as [| |info1] eqn:Hu; [done|done|]. cbn [obind] in H.
  apply update_info_ids in Hu as [? ?].
  destruct (sysinfo_of w ip); simplify_eq;
    [by apply (updated_lose _ _ info)|by apply (updated_set_agent _ _ info)|].
  destruct (0 <? _); by apply (updated_set_agent _ _ info).
Qed.

Lemma updateAgentStatus_updated w s s' : updateAgentStatus w s = Ok s' -> updated s s'.
Proof.
  unfold updateAgentStatus. generalize (agent_ips s). intros ips. revert s.
  induction ips as [|ip ips IH]; intros s; simpl; [by intros [= <-]|].
  destruct (update_agent w s ip) as [| |s1] eqn:Hu; [done|done|]. cbn [obind].
  intros H%IH. etrans; [by eapply update_agent_updated|done].
Qed.

Lemma refresh_updated w s s' : refresh w s = Ok s' -> updated s s'.
Proof.
  unfold refresh. destruct (_ <? _); [|by intros [= <-]].
  destruct (updateAgentStatus w s) as [| |s1] eqn:Hu; [done|done|]. cbn [obind]. intros [= <-].
  destruct (updateAgentStatus_updated _ _ _ Hu). by constructor.
Qed.

Lemma pingAgents_updated w s : updated s (pingAgents w s).
Proof.
  unfold pingAgents. generalize (agent_ips s). intros ips. revert s.
  induction ips as [|ip ips IH]; intros s; [done|]. simpl. etrans; [|apply IH].
  unfold ping_step. destruct (_agents s !! ip) as [info|] eqn:Hi; [|done].
  destruct (_ && _); [|done]. by apply (updated_lose _ _ info).
Qed.

(** * The tables of the coordinator *)

(** An agent is alive when its status says so, the agents with a status are the
    agents there are, and a container is mapped to an address exactly when it is
    one of the containers of the agent there. *)
Record registry (s : t) : Prop := {
  rg_alive : consistent s;
  rg_known : forall ip, is_Some (_agentStatus s !! ip) <-> is_Some (_agents s !! ip);
  rg_ids : forall ip, NoDup (agent_ids (_agents s) ip);
  rg_mapped : forall id ip, id ∈ agent_ids (_agents s) ip <->
    exists addr, _containerToAgentMap s !! id = Some addr /\ IO.getAddrIP addr = ip
}.

Definition starts_ok (s : t) : Prop :=
  forall ip info, ip ∈ _aliveAgents s -> _agents s !! ip = Some info -> start_ok info.

Lemma updated_agent_ids s s' ip : updated s s' ->
  agent_ids (_agents s') ip = agent_ids (_agents s) ip.
Proof.
  intros Hu. unfold agent_ids, slots_of. by destruct (up_info _ _ Hu ip) as [i i' [-> _]|].
Qed.

Lemma updated_registry s s' : updated s s' -> registry s -> registry s'.
Proof.
  intros Hu [Ha Hk Hn Hm]. constructor.
  - by apply (up_consistent _ _ Hu).
  - intros ip. rewrite (up_known _ _ Hu), Hk.
    destruct (up_info _ _ Hu ip); [|done]. split; by eexists.
  - intros ip. by rewrite (updated_agent_ids _ _ _ Hu).
  - intros id ip. by rewrite (updated_agent_ids _ _ _ Hu), (up_map _ _ Hu).
Qed.

Lemma updated_starts s s' : updated s s' -> starts_ok s -> starts_ok s'.
Proof.
  intros Hu Hs ip info' Hal Hi'. pose proof (up_info _ _ Hu ip) as Hi. rewrite Hi' in Hi.
  inversion Hi as [i ? [E1 E2] Hi1|]; subst. symmetry in Hi1.
  specialize (Hs ip i (up_alive _ _ Hu _ Hal) Hi1). unfold start_ok in *.
  apply (f_equal length) in E1 as El. rewrite !length_map in El. rewrite El, E2.
  destruct Hs as [Hs|Hs]; [left|by right]. rewrite Hs in El. by apply nil_length_inv.
Qed.

(** An agent that is alive is a known agent. *)
Lemma alive_known s ip : registry s -> ip ∈ _aliveAgents s -> is_Some (_agents s !! ip).
Proof. intros Hr Hal. apply (rg_known _ Hr). apply (rg_alive _ Hr) in Hal. by eexists. Qed.

Lemma agents_disjoint s id ip1 ip2 : registry s ->
  id ∈ agent_ids (_agents s) ip1 -> id ∈ agent_ids (_agents s) ip2 -> ip1 = ip2.
Proof.
  intros Hr (a1 & H1 & <-)%(rg_mapped _ Hr) (a2 & H2 & <-)%(rg_mapped _ Hr). congruence.
Qed.

(** ** Where new chunks go *)

Lemma alive_ips_spec s : NoDup (alive_ips s) /\ forall ip, ip ∈ alive_ips s <-> ip ∈ _aliveAgents s.
Proof.
  unfold alive_ips. split; [|intros ip]; rewrite merge_sort_Permutation;
    [apply NoDup_elements|apply elem_of_elements].
Qed.

Lemma pool_in_use w s ids status num size m i : (i < length ids)%nat -> status !!! i = true ->
  ids !!! i ∈ pool (placement_of w s ids status num size m).
Proof.
  intros Hi Hs. unfold placement_of.
  pose proof (for_loop_inv (fun n (st : gset Z * gmap string Z) => forall j, (j < n)%nat ->
    status !!! j = true -> ids !!! j ∈ fst st) (pool_step s ids status) 0 (length ids) (∅, ∅)) as H.
  simpl in H. destruct (for_loop _ _ _ _) as [pl count] eqn:E. simpl in *. apply H; [lia| |done|done].
  intros j [pl' cnt'] _ IH k Hk Hsk. simpl in *. destruct (decide (k = j)) as [->|Hne].
  - rewrite Hsk. cbn [negb]. destruct (bool_decide_reflect (ids !!! j ∈ pl')); simpl; set_solver.
  - specialize (IH k ltac:(lia) Hsk). destruct (negb _); [done|].
    destruct (bool_decide (_ ∈ pl')); simpl; set_solver.
Qed.

(** The containers found are, up to order, a selection of what each live agent
    contributes. *)
Lemma findSpareContainers_spec w s s1 ids status num size m :
  registry s -> starts_ok s -> policy w <> POLICY_LU -> 0 < CodingMeta.k m < 2147483648 -> 0 < num ->
  refresh w s = Ok s1 ->
  exists spare s' need picks, findSpareContainers w s ids status num size m = Ok (spare, s') /\
  let p := placement_of w s1 ids status (Z.to_nat num) size m in
  chunk_need p = Ok need /\ (length spare <= Z.to_nat num)%nat /\
  Forall2 (fun ip new => contribution p need (slots_of (_agents s1) ip) new) (alive_ips s1) picks /\
  spare ⊆+ concat picks.
Proof.
  intros Hr Hst Hpol Hk Hnum Href. pose proof (refresh_updated _ _ _ Href) as Hu.
  apply (updated_registry _ _ Hu) in Hr. apply (updated_starts _ _ Hu) in Hst.
  unfold findSpareContainers. rewrite (proj2 (Z.leb_gt _ _)) by lia. rewrite Href. cbn [obind].
  set (p := placement_of w s1 ids status (Z.to_nat num) size m).
  assert (order p = policy w /\ coding_k p = CodingMeta.k m /\ numSpare p = Z.to_nat num)
    as (Hord & Hck & Hns).
  { unfold p, placement_of. by destruct (for_loop _ _ _ _). }
  assert (exists need, chunk_need p = Ok need) as [need Hneed].
  { unfold chunk_need. rewrite Hck. destruct (Z.eqb_spec (CodingMeta.k m) 0); [lia|by eexists]. }
  destruct (alive_ips_spec s1) as [Hnd Hips].
  edestruct (screen_agents_spec p need Hneed ltac:(by rewrite Hord) (alive_ips s1) 0 [] [] (_agents s1))
    as (sel & skip & ag & -> & Hl & picks & HP & Hperm); [done| |simpl; lia|].
  { apply Forall_forall. intros ip Hal%Hips. destruct (alive_known _ _ Hr Hal) as [info Hi].
    exists info. split; [done|]. by eapply Hst. }
  cbn [obind]. eexists _, _, need, picks. split; [done|]. split_and!; [done| |done|].
  - rewrite length_app, length_take. lia.
  - simpl in Hperm. rewrite <- Hperm. apply submseteq_app; [done|]. apply sublist_submseteq, sublist_take.
Qed.

Lemma contributions_of p need s ips picks ip : registry s -> NoDup ips ->
  Forall2 (fun ip new => contribution p need (slots_of (_agents s) ip) new) ips picks ->
  (length (filter (fun id => id ∈ agent_ids (_agents s) ip) (concat picks)) <= Z.to_nat (limit p))%nat.
Proof.
  intros Hr Hnd HF.
  assert (forall a new, a <> ip -> contribution p need (slots_of (_agents s) a) new ->
    filter (fun id => id ∈ agent_ids (_agents s) ip) new = []) as Hother.
  { intros a new Hne (Hsub & _). apply filter_none, Forall_forall. intros id Hid Hin.
    apply Hne. apply (agents_disjoint s id); [done| |done]. by eapply (elem_of_submseteq new). }
  revert Hnd. induction HF as [|a new ips picks Hc HF IH]; intros Hnd; simpl; [lia|].
  apply NoDup_cons in Hnd as [Ha Hnd]. rewrite filter_app, length_app.
  destruct (decide (a = ip)) as [->|Hne].
  - assert (filter (fun id => id ∈ agent_ids (_agents s) ip) (concat picks) = []) as ->.
    { clear IH Hc. induction HF as [|b new' ips picks Hc HF IH]; [done|]. simpl.
      apply not_elem_of_cons in Ha as [? ?]. apply NoDup_cons in Hnd as [_ ?].
      rewrite filter_app, (Hother b) by done. simpl. auto. }
    simpl. destruct Hc as (_ & Hl & _). pose proof (length_filter (fun id => id ∈ agent_ids (_agents s) ip) new).
    lia.
  - rewrite (Hother a) by done. simpl. auto.
Qed.

Lemma contributions_NoDup p need s ips picks : registry s -> NoDup ips ->
  Forall2 (fun ip new => contribution p need (slots_of (_agents s) ip) new) ips picks ->
  NoDup (concat picks) /\
  forall id, id ∈ concat picks -> exists ip, ip ∈ ips /\ usable p need (slots_of (_agents s) ip) id.
Proof.
  intros Hr Hnd HF. induction HF as [|a new ips picks Hc HF IH]; simpl.
  { split; [constructor|]. intros id Hid. by apply elem_of_nil in Hid. }
  apply NoDup_cons in Hnd as [Ha Hnd]. destruct (IH Hnd) as [IHn IHu].
  destruct Hc as (Hsub & _ & Hus). rewrite Forall_forall in Hus. split.
  - apply NoDup_app. split_and!; [|intros id Hid1 Hid2|done].
    + apply submseteq_Permutation in Hsub as [l Hl]. pose proof (rg_ids _ Hr a) as Hn.
      unfold agent_ids in Hn. rewrite Hl in Hn. by apply NoDup_app in Hn as [? _].
    + destruct (IHu id Hid2) as (ip & Hip & _ & c & Hc & <- & _). apply Ha.
      rewrite (agents_disjoint s (containerId c) a ip Hr); [done| |].
      * by apply (elem_of_submseteq new).
      * unfold agent_ids. apply list_elem_of_fmap. by exists c.
  - intros id [Hid|Hid]%elem_of_app; [exists a; split; [by left|by apply Hus]|].
    destruct (IHu id Hid) as (ip & Hip & ?). exists ip. split; [by right|done].
Qed.

(** C32: With the static and the round-robin policy, the containers found for new
    chunks are distinct, at most as many as asked for, not among the containers
    in use, on agents that are alive, and have room for a chunk. *)
Theorem spare_sound w s s1 ids status num size m :
  registry s -> starts_ok s -> policy w <> POLICY_LU -> 0 < CodingMeta.k m < 2147483648 -> 0 < num ->
  refresh w s = Ok s1 ->
  exists spare s', findSpareContainers w s ids status num size m = Ok (spare, s') /\
  (length spare <= Z.to_nat num)%nat /\ NoDup spare /\
  (forall i, (i < length ids)%nat -> status !!! i = true -> ids !!! i ∉ spare) /\
  (forall id, id ∈ spare -> exists ip c, ip ∈ _aliveAgents s1 /\ c ∈ slots_of (_agents s1) ip /\
     containerId c = id /\
     too_full c (u64 (size + u64 (2 * CodingMeta.k m)) / u64 (CodingMeta.k m)) = false).
Proof.
  intros Hr Hst Hpol Hk Hnum Href.
  destruct (findSpareContainers_spec w s s1 ids status num size m Hr Hst Hpol Hk Hnum Href)
    as (spare & s' & need & picks & -> & Hneed & Hl & HP & Hsub).
  apply (updated_registry _ _ (refresh_updated _ _ _ Href)) in Hr.
  destruct (alive_ips_spec s1) as [Hnd Hips].
  destruct (contributions_NoDup _ _ _ _ _ Hr Hnd HP) as [Hn Hus].
  assert (need = u64 (size + u64 (2 * CodingMeta.k m)) / u64 (CodingMeta.k m)) as ->.
  { unfold chunk_need, placement_of in Hneed. destruct (for_loop _ _ _ _). simpl in Hneed.
    destruct (_ =? 0); congruence. }
  exists spare, s'. split_and!; [done|done| | |].
  - apply submseteq_Permutation in Hsub as [l Hperm]. rewrite Hperm in Hn. by apply NoDup_app in Hn as [? _].
  - intros i Hi Hs Hin. destruct (Hus (ids !!! i)) as (ip & _ & Hnot & _).
    { by apply (elem_of_submseteq spare). }
    by apply Hnot, pool_in_use.
  - intros id Hid. destruct (Hus id) as (ip & Hip & _ & c & Hc & Hcid & Hroom).
    { by apply (elem_of_submseteq spare). }
    exists ip, c. split_and!; [by apply Hips|done|done|done].
Qed.

Lemma length_filter_split {A} (P : A -> Prop) `{!forall x, Decision (P x)} (l : list A) :
  length l = (length (filter P l) + length (filter (fun x => ~ P x) l))%nat.
Proof.
  induction l as [|x l IH]; [done|]. rewrite !filter_cons. destruct (decide (P x)), (decide (~ P x)); cbn [length]; try lia; done.
Qed.

(** C7: The placement tolerates the failure of any [f] agents.  With the static and the
    round-robin policy, any [f] agents hold at most [n - k] of the containers that one
    call finds, so that when all [n] chunks of a stripe are placed by it, at least [k] of
    them are at other agents.  Containers that the stripe uses already, when only some
    chunks are placed, are not counted by the code; see
    [limit_ignores_containers_in_use]. *)
Theorem spare_tolerates_failures w s s1 ids status num size m (failed : list string) :
  registry s -> starts_ok s -> policy w <> POLICY_LU -> 0 < CodingMeta.k m < 2147483648 -> 0 < num ->
  refresh w s = Ok s1 -> CodingMeta.k m <= CodingMeta.n m -> 0 < CodingMeta.f m ->
  Z.of_nat (length failed) <= CodingMeta.f m ->
  let lost id := Exists (fun ip => id ∈ agent_ids (_agents s1) ip) failed in
  exists spare s', findSpareContainers w s ids status num size m = Ok (spare, s') /\
  Z.of_nat (length (filter lost spare)) <= CodingMeta.n m - CodingMeta.k m /\
  (Z.of_nat (length spare) = CodingMeta.n m -> CodingMeta.k m <= Z.of_nat (length (filter (fun id => ~ lost id) spare))).
Proof.
  intros Hr Hst Hpol Hk Hnum Href Hkn Hf Hfailed lost.
  destruct (findSpareContainers_spec w s s1 ids status num size m Hr Hst Hpol Hk Hnum Href)
    as (spare & s' & need & picks & -> & _ & _ & HP & Hsub).
  apply (updated_registry _ _ (refresh_updated _ _ _ Href)) in Hr.
  destruct (alive_ips_spec s1) as [Hnd _]. exists spare, s'. split; [done|].
  cut (Z.of_nat (length (filter lost spare)) <= CodingMeta.n m - CodingMeta.k m).
  { intros Hle. split; [done|]. intros Hn. rewrite (length_filter_split lost spare) in Hn. lia. }
  subst lost. cbv beta.
  set (p := placement_of w s1 ids status (Z.to_nat num) size m) in *.
  assert (limit p = (CodingMeta.n m - CodingMeta.k m) / CodingMeta.f m) as Hlim.
  { unfold p, placement_of. destruct (for_loop _ _ _ _). cbn [limit].
    rewrite (proj2 (Z.ltb_lt _ _)) by done. apply Z.quot_div_nonneg; lia. }
  assert (forall ip, (length (filter (fun id => id ∈ agent_ids (_agents s1) ip) spare)
    <= Z.to_nat (limit p))%nat) as Hone.
  { intros ip. etrans; [|by apply (contributions_of p need s1 (alive_ips s1) picks ip)].
    apply submseteq_Permutation in Hsub as [l ->]. rewrite filter_app, length_app. lia. }
  assert (length (filter (fun id => Exists (fun ip => id ∈ agent_ids (_agents s1) ip) failed) spare)
    <= length failed * Z.to_nat (limit p))%nat as Hall.
  { clear Hfailed. induction failed as [|ip failed IH]; simpl.
    - rewrite filter_none; [simpl; lia|]. apply Forall_forall. intros id _ Hex. inversion Hex.
    - etrans; [|apply Nat.add_le_mono; [apply (Hone ip)|exact IH]].
      clear. induction spare as [|id spare IH]; [simpl; lia|]. rewrite !filter_cons.
      repeat case_decide; simpl; try lia. exfalso.
      match goal with H : Exists _ (_ :: _) |- _ => apply Exists_cons in H as [?|?]; done end. }
  assert (0 <= limit p /\ CodingMeta.f m * limit p <= CodingMeta.n m - CodingMeta.k m) as [? ?].
  { rewrite Hlim. split; [apply Z.div_pos; lia|apply Z.mul_div_le; lia]. }
  nia.
Qed.

(** * Liveness of containers *)

(** A container can be reached: it is mapped to an agent that is alive. *)
Definition online (s : t) (id : Z) : bool :=
  match _containerToAgentMap s !! id with
  | Some addr => default false (_agentStatus s !! IO.getAddrIP addr)
  | None => false
  end.

(** The chunk in this container counts as failed. *)
Definition counts_failed (s : t) (unusedOffline : bool) (id : Z) : bool :=
  if id =? UNUSED_CONTAINER_ID then unusedOffline else negb (online s id).

Definition failures (s : t) (unusedOffline : bool) (ids : list Z) : nat :=
  length (filter (fun id => counts_failed s unusedOffline id = true) ids).

(** One entry: its status is set, unless it is unused and not treated as
    offline, and the count goes up when it failed. *)
Lemma liveness_step_state s ids all unused i status n : (i < length status)%nat ->
  exists status', step_state (liveness_step s ids all unused i (status, n)) =
    (status', n + Z.b2z (counts_failed s unused (ids !!! i))) /\
  length status' = length status /\ (forall j, j <> i -> status' !!! j = status !!! j) /\
  status' !!! i = (if ids !!! i =? UNUSED_CONTAINER_ID
                   then (if unused then false else status !!! i) else online s (ids !!! i)) /\
  (all = true \/ counts_failed s unused (ids !!! i) = false ->
   exists st, liveness_step s ids all unused i (status, n) = Continue st).
Proof.
  intros Hi. unfold liveness_step, counts_failed, online.
  assert (forall b : bool, length (<[i := b]> status) = length status /\
    (forall j, j <> i -> <[i := b]> status !!! j = status !!! j) /\ <[i := b]> status !!! i = b) as Hins.
  { intros b. split_and!; [apply length_insert| |by apply list_lookup_total_insert_eq].
    intros j Hj. by apply list_lookup_total_insert_ne. }
  assert (forall b x, step_state (if b : bool then Continue x else Break x) = x :> (list bool * Z)) as Hss
    by (by intros []).
  destruct (_ =? UNUSED_CONTAINER_ID).
  { destruct unused.
    - exists (<[i := false]> status). rewrite Hss. split; [done|]. destruct (Hins false) as (? & ? & ?).
      split_and!; [done|done|done|]. intros [->|]; [by eexists|done].
    - exists status. simpl. rewrite Z.add_0_r. split_and!; [done|done|done|done|]. by eexists. }
  destruct (_containerToAgentMap s !! (ids !!! i)) as [addr|]; [destruct (_agentStatus s !! _) as [b|]|].
  - exists (<[i := b]> status). destruct (Hins b) as (? & ? & ?). split_and!; try done. by eexists.
  - exists (<[i := false]> status). rewrite Hss. destruct (Hins false) as (? & ? & ?).
    split_and!; try done. intros [->|]; [by eexists|done].
  - exists (<[i := false]> status). rewrite Hss. destruct (Hins false) as (? & ? & ?).
    split_and!; try done. intros [->|]; [by eexists|done].
Qed.

Lemma failures_snoc s unused ids i : (i < length ids)%nat ->
  Z.of_nat (failures s unused (take (i + 1) ids)) =
  Z.of_nat (failures s unused (take i ids)) + Z.b2z (counts_failed s unused (ids !!! i)).
Proof.
  intros Hi. unfold failures. rewrite Nat.add_1_r.
  rewrite (take_S_r ids i (ids !!! i)) by (by apply lookup_total_lt). rewrite filter_app, length_app.
  rewrite filter_cons. destruct (counts_failed s unused (ids !!! i)); simpl; lia.
Qed.

(** The first [i] entries are done. *)
Definition checked_to (s : t) (ids : list Z) (status : list bool) (unused : bool) (i : nat)
    (st : list bool * Z) : Prop :=
  length (fst st) = length ids /\ snd st = Z.of_nat (failures s unused (take i ids)) /\
  (forall j, (i <= j)%nat -> fst st !!! j = status !!! j) /\
  forall j, (j < i)%nat -> fst st !!! j =
    if ids !!! j =? UNUSED_CONTAINER_ID then (if unused then false else status !!! j)
    else online s (ids !!! j).

Lemma liveness_step_inv s ids status all unused i st : (i < length ids)%nat ->
  checked_to s ids status unused i st ->
  match liveness_step s ids all unused i st with
  | Continue st' => checked_to s ids status unused (Datatypes.S i) st'
  | Break st' => all = false /\ 0 < snd st' /\ (0 < failures s unused ids)%nat
  end.
Proof.
  destruct st as [st n]. intros Hi (Hl & Hn & Hrest & Hdone). cbn [fst snd] in *.
  destruct (liveness_step_state s ids all unused i st n ltac:(lia)) as (st' & Hst & Hl' & Hne & Hat & Hcont).
  pose proof (failures_snoc s unused ids i Hi) as Hsnoc. rewrite Nat.add_1_r in Hsnoc.
  destruct (liveness_step s ids all unused i (st, n)) as [x|x]; simpl in Hst; subst x.
  - split_and!; simpl; [congruence|lia| |].
    + intros j Hj. rewrite Hne by lia. apply Hrest. lia.
    + intros j Hj. destruct (decide (j = i)) as [->|Hji].
      * rewrite Hat. by rewrite (Hrest i) by lia.
      * rewrite Hne by done. apply Hdone. lia.
  - destruct all; [by destruct (Hcont (or_introl eq_refl))|].
    destruct (counts_failed s unused (ids !!! i)) eqn:Hc; [|by destruct (Hcont (or_intror eq_refl))].
    simpl in *. split_and!; [done|lia|]. unfold failures.
    rewrite <- (take_drop (Datatypes.S i) ids), filter_app, length_app.
    fold (failures s unused (take (Datatypes.S i) ids)). lia.
Qed.

(** The check of all failures with a status that is recent. *)
Lemma liveness_all w s s1 ids status (upd unused : bool) :
  length status = length ids -> (if upd then refresh w s else Ok s) = Ok s1 ->
  exists status', checkContainerLiveness w s ids status upd true unused = Ok (Z.of_nat (failures s1 unused ids), status', s1) /\
  checked_to s1 ids status unused (length ids) (status', Z.of_nat (failures s1 unused ids)).
Proof.
  intros Hlen Hs1. unfold checkContainerLiveness. rewrite Hs1. cbn [obind].
  pose proof (for_break_inv (checked_to s1 ids status unused)
    (fun st => true = false /\ 0 < snd st /\ (0 < failures s1 unused ids)%nat)
    (liveness_step s1 ids true unused) 0 (length ids) (status, 0)) as Hinv.
  cbv beta in Hinv.
  assert (checked_to s1 ids status unused 0 (status, 0)) as H0 by (split_and!; [done|done|done|lia]).
  specialize (Hinv H0 (fun j st Hj => liveness_step_inv s1 ids status true unused j st (proj2 Hj))).
  destruct (for_break _ _ _ _) as [[st' n]|[st' n]]; [|by destruct Hinv].
  simpl. pose proof Hinv as (_ & Hn & _). simpl in Hn. rewrite firstn_all in Hn. rewrite Hn in *. by exists st'.
Qed.

(** The liveness check reports exactly which containers can be reached: with
    all failures checked, every entry that is in use gets the liveness of its
    container, an unused entry is marked offline or left alone as the caller
    asked, and the result is the number of failures; when the check may stop
    early the result is still zero exactly when nothing failed. *)
Theorem liveness_exact w s s1 ids status (upd all unused : bool) :
  length status = length ids -> (if upd then refresh w s else Ok s) = Ok s1 ->
  exists n status', checkContainerLiveness w s ids status upd all unused = Ok (n, status', s1) /\
  (n = 0 <-> failures s1 unused ids = 0%nat) /\
  (all = true -> n = Z.of_nat (failures s1 unused ids) /\
   forall i, (i < length ids)%nat -> status' !!! i =
     if ids !!! i =? UNUSED_CONTAINER_ID then (if unused then false else status !!! i)
     else online s1 (ids !!! i)).
Proof.
  intros Hlen Hs1. unfold checkContainerLiveness. rewrite Hs1. cbn [obind].
  pose proof (for_break_inv (checked_to s1 ids status unused)
    (fun st => all = false /\ 0 < snd st /\ (0 < failures s1 unused ids)%nat)
    (liveness_step s1 ids all unused) 0 (length ids) (status, 0)) as Hinv.
  cbv beta in Hinv.
  assert (checked_to s1 ids status unused 0 (status, 0)) as H0
    by (split_and!; [done|done|done|lia]).
  specialize (Hinv H0 (fun j st Hj => liveness_step_inv s1 ids status all unused j st (proj2 Hj))).
  destruct (for_break _ _ _ _) as [[st' n]|[st' n]].
  - destruct Hinv as (_ & Hn & _ & Hst). simpl in *. rewrite firstn_all in Hn.
    exists n, st'. split; [done|]. split; [lia|done].
  - destruct Hinv as (-> & Hn & Hf). simpl in *. exists n, st'. split; [done|]. split; [lia|done].
Qed.

(** * Chunks by agent *)

Section grouping.
Context (s : t) (ids : list Z) (status : list bool).
Notation n := (length ids).

(** The agent of chunk [i], when the chunk is alive. *)
Definition group_key (i : nat) : option string :=
  if (status !!! i : bool) then _containerToAgentMap s !! (ids !!! i) else None.

(** The chunks before [i] on agent [a]. *)
Definition members (i : nat) (a : string) : list nat :=
  filter (fun k => group_key k = Some a) (seq 0 i).

Lemma members_S i a :
  members (Datatypes.S i) a = members i a ++ (if decide (group_key i = Some a) then [i] else []).
Proof. unfold members. by rewrite seq_S, filter_app, filter_cons. Qed.

Lemma length_members i a : (length (members i a) <= i)%nat.
Proof. unfold members. rewrite length_filter, length_seq. done. Qed.

(** Row [j] and column [x] of the array determine its index. *)
Lemma row_inj j j' x x' : (x <= n)%nat -> (x' <= n)%nat ->
  (j * (n + 1) + x = j' * (n + 1) + x')%nat -> j = j' /\ x = x'.
Proof. intros. assert (j = j') as -> by nia. lia. Qed.

(** The state of the loop after [i] chunks, for the groups of the agents [ags]. *)
Record layout (i : nat) (ags : list string) (g : groups) : Prop := {
  ly_nodup : NoDup ags;
  ly_num : num_groups g = length ags;
  ly_map : forall a j, group_of g !! a = Some j <-> ags !! j = Some a;
  ly_length : length (chunk_groups g) = (n * (n + 1))%nat;
  ly_size : length (group_size g) = n;
  ly_sizes : forall j, (j < n)%nat -> group_size g !! j =
    Some (match ags !! j with Some a => length (members i a) | None => 0%nat end);
  ly_rows : forall j a m k, ags !! j = Some a -> members i a !! m = Some k ->
    chunk_groups g !! (j * (n + 1) + (m + 1))%nat = Some (Z.of_nat k)
}.

(** The agents met so far. *)
Definition met (i : nat) (ags : list string) : Prop :=
  (length ags <= i)%nat /\ forall a, a ∈ ags <-> exists k, (k < i)%nat /\ group_key k = Some a.

Lemma layout_skip i ags g : group_key i = None -> layout i ags g -> layout (Datatypes.S i) ags g.
Proof using.
  intros Hk [H1 H2 H3 H4 H5 H6 H7].
  assert (forall a, members (Datatypes.S i) a = members i a) as Hm.
  { intros a. rewrite members_S, Hk, decide_False, app_nil_r by done. done. }
  constructor; [done|done|done|done|done| |].
  - intros j Hj. rewrite H6 by done. destruct (ags !! j); [by rewrite Hm|done].
  - intros j a m k. rewrite Hm. apply H7.
Qed.

(** A group is opened for an agent without chunks so far. *)
Lemma layout_new i ags g a : a ∉ ags -> members i a = [] -> layout i ags g ->
  layout i (ags ++ [a])
    (mk_groups (<[a := num_groups g]> (group_of g)) (group_size g) (num_groups g + 1) (chunk_groups g)).
Proof using.
  intros Ha Hm [H1 H2 H3 H4 H5 H6 H7].
  constructor; simpl; [|rewrite length_app; simpl; lia| |done|done| |].
  - apply NoDup_app. split_and!; [done| |apply NoDup_singleton]. intros x Hx ->%list_elem_of_singleton. done.
  - intros b j. destruct (decide (a = b)) as [<-|Hne].
    + rewrite lookup_insert_eq, H2. rewrite lookup_snoc_Some. split.
      * intros [= <-]. by right.
      * intros [[_ Hin%list_elem_of_lookup_2]|[-> _]]; done.
    + rewrite lookup_insert_ne by done. rewrite H3, lookup_snoc_Some. split.
      * intros Hj. left. split; [by eapply lookup_lt_Some|done].
      * by intros [[_ Hj]|[_ Hab]].
  - intros j Hj. rewrite H6 by done. f_equal. destruct (decide (j < length ags)%nat) as [Hl|Hl].
    + by rewrite lookup_app_l.
    + rewrite (lookup_ge_None_2 ags) by lia. destruct ((ags ++ [a]) !! j) as [b|] eqn:Hb; [|done].
      apply lookup_snoc_Some in Hb as [[? _]|[_ <-]]; [lia|]. by rewrite Hm.
  - intros j b m k [[_ Hj]|[_ <-]]%lookup_snoc_Some; [by apply H7|]. by rewrite Hm.
Qed.

(** Chunk [i] is added to the group of its agent. *)
Lemma layout_add i ags g a j size :
  (i < n)%nat -> group_key i = Some a -> ags !! j = Some a -> (j < n)%nat ->
  group_size g !! j = Some size -> layout i ags g ->
  (j * (n + 1) + size + 1 < length (chunk_groups g))%nat /\
  layout (Datatypes.S i) ags
    (mk_groups (group_of g) (<[j := (size + 1)%nat]> (group_size g)) (num_groups g)
       (<[(j * (n + 1) + size + 1)%nat := Z.of_nat i]> (chunk_groups g))).
Proof using.
  intros Hi Hk Hj Hjn Hsize [H1 H2 H3 H4 H5 H6 H7].
  assert (size = length (members i a)) as -> by (rewrite H6, Hj in Hsize by done; congruence).
  pose proof (length_members i a) as Hml.
  assert (j * (n + 1) + length (members i a) + 1 < length (chunk_groups g))%nat as Hlt by (rewrite H4; nia).
  assert (forall b, b <> a -> members (Datatypes.S i) b = members i b) as Hmb.
  { intros b Hb. rewrite members_S, decide_False, app_nil_r by congruence. done. }
  assert (members (Datatypes.S i) a = members i a ++ [i]) as Hma by (by rewrite members_S, decide_True).
  split; [done|]. constructor; simpl; [done|done|done|by rewrite length_insert|by rewrite length_insert| |].
  - intros j' Hj'. destruct (decide (j = j')) as [<-|Hne].
    + rewrite list_lookup_insert_eq by lia. rewrite Hj, Hma, length_app. simpl. by rewrite Nat.add_comm.
    + rewrite list_lookup_insert_ne, H6 by done. destruct (ags !! j') as [b|] eqn:Hb; [|done].
      rewrite Hmb; [done|]. intros ->. apply Hne. by eapply NoDup_lookup.
  - intros j' b m k Hb Hm.
    assert (m <= i)%nat as Hmi.
    { apply lookup_lt_Some in Hm. pose proof (length_members (Datatypes.S i) b). lia. }
    destruct (decide (j * (n + 1) + (length (members i a) + 1) = j' * (n + 1) + (m + 1))%nat) as [E|E].
    + apply row_inj in E as [<- E]; [|lia|lia]. assert (m = length (members i a)) as -> by lia.
      rewrite Hb in Hj. injection Hj as ->. rewrite Hma, lookup_app_r, Nat.sub_diag in Hm by lia.
      injection Hm as <-. by rewrite Nat.add_assoc, list_lookup_insert_eq.
    + rewrite list_lookup_insert_ne by lia. apply (H7 j' b); [done|].
      destruct (decide (b = a)) as [->|Hba]; [|by rewrite <- Hmb].
      rewrite Hma in Hm. apply lookup_snoc_Some in Hm as [[_ Hm]|[-> _]]; [done|].
      exfalso. apply E. by rewrite (NoDup_lookup _ _ _ _ H1 Hj Hb).
Qed.

Lemma group_step_layout i ags g : (i < n)%nat -> met i ags -> layout i ags g ->
  exists ags' g', group_step s ids status i g = Ok g' /\ met (Datatypes.S i) ags' /\
  layout (Datatypes.S i) ags' g'.
Proof using.
  intros Hi [Hbound Hkeys] Hg. unfold group_step.
  destruct (group_key i) as [a|] eqn:Hk.
  2:{ exists ags, g. split; [|split; [|by apply layout_skip]].
      - unfold group_key in Hk. destruct (status !!! i); [|done]. simpl. by rewrite Hk.
      - split; [lia|]. intros a. rewrite Hkeys. split; intros (k & ? & ?); exists k; (split; [|done]); [lia|].
        destruct (decide (k = i)) as [->|]; [congruence|lia]. }
  assert (status !!! i = true /\ _containerToAgentMap s !! (ids !!! i) = Some a) as [-> ->].
  { unfold group_key in Hk. by destruct (status !!! i). }
  cbn [negb].
  assert (forall ags', (forall b, b ∈ ags' <-> b ∈ ags \/ b = a) -> (length ags' <= Datatypes.S i)%nat ->
    met (Datatypes.S i) ags') as Hmet.
  { intros ags' Hel Hl. split; [done|]. intros b. rewrite Hel, Hkeys. split.
    - intros [(k & ? & ?)| ->]; [exists k; split; [lia|done]|exists i; split; [lia|done]].
    - intros (k & Hki & Hb). destruct (decide (k = i)) as [->|]; [right; congruence|left].
      exists k. split; [lia|done]. }
  assert (exists ags1 j, layout i ags1 (mk_groups
      (if bool_decide (group_of g !! a = None) then <[a := num_groups g]> (group_of g) else group_of g)
      (group_size g)
      (if bool_decide (group_of g !! a = None) then num_groups g + 1 else num_groups g)%nat
      (chunk_groups g)) /\ ags1 !! j = Some a /\ (j < n)%nat /\ met (Datatypes.S i) ags1)
    as (ags1 & j & Hly & Hj & Hjn & Hm).
  { case_bool_decide as Hfresh.
    - assert (a ∉ ags) as Ha.
      { intros [j Hj]%list_elem_of_lookup. apply (ly_map _ _ _ Hg) in Hj. congruence. }
      exists (ags ++ [a]), (length ags). split_and!.
      + apply layout_new; [done| |done]. apply filter_none, Forall_forall.
        intros k [? ?]%elem_of_seq Hkey. apply Ha, Hkeys. exists k. split; [lia|done].
      + by rewrite lookup_app_r, Nat.sub_diag.
      + lia.
      + apply Hmet; [|rewrite length_app; simpl; lia]. intros b.
        by rewrite elem_of_app, list_elem_of_singleton.
    - destruct (group_of g !! a) as [j|] eqn:Hj; [|done]. apply (ly_map _ _ _ Hg) in Hj as Hj'.
      exists ags, j. split_and!; [by destruct g|done|apply lookup_lt_Some in Hj'; lia|].
      apply Hmet; [|lia]. intros b. split; [by left|].
      intros [?| ->]; [done|]. by eapply list_elem_of_lookup_2. }
  apply (ly_map _ _ _ Hly) in Hj as Hgj. cbn [group_of] in Hgj. rewrite Hgj. cbn [default from_option id].
  pose proof (ly_sizes _ _ _ Hly j Hjn) as Hsz. cbn [group_size] in Hsz. unfold id. rewrite Hsz.
  cbn [access obind].
  pose proof (fun size H => layout_add i ags1 _ a j size Hi Hk Hj Hjn H Hly) as Hadd.
  destruct (Hadd _ Hsz) as [Hlt Hnew]. cbn [chunk_groups] in Hlt, Hnew.
  unfold write. rewrite (proj2 (Nat.ltb_lt _ _)) by exact Hlt. cbn [obind].
  exists ags1. eexists. split; [reflexivity|]. by split.
Qed.

(** The chunks that are alive and whose container is known are grouped by
    agent: there is one group per agent with such a chunk, and row [j] of the
    result holds the number of chunks of agent [j] followed by their indices in
    ascending order; nothing is written outside the array. *)
Theorem chunk_groups_by_agent cg :
  length cg = (n * (n + 1))%nat ->
  exists ags cg', findChunkGroups s ids status cg = Ok (length ags, cg') /\
  length cg' = length cg /\ NoDup ags /\
  (forall a, a ∈ ags <-> exists k, (k < n)%nat /\ group_key k = Some a) /\
  forall j a, ags !! j = Some a ->
    cg' !! (j * (n + 1))%nat = Some (Z.of_nat (length (members n a))) /\
    forall m k, members n a !! m = Some k -> cg' !! (j * (n + 1) + (m + 1))%nat = Some (Z.of_nat k).
Proof using.
  intros Hcg. unfold findChunkGroups.
  destruct (for_outcome_ok (fun i g => exists ags, met i ags /\ layout i ags g)
    (group_step s ids status) 0 n (mk_groups ∅ (replicate n 0%nat) 0 cg))
    as (g & -> & ags & [Hbound Hkeys] & Hg).
  { exists []. split; [split; [simpl; lia|]|].
    - intros a. split; [by intros ?%elem_of_nil|]. intros (k & ? & _). lia.
    - constructor; simpl; [constructor|done| |done|by rewrite length_replicate| |done].
      + intros a j. rewrite lookup_empty. done.
      + intros j Hj. by apply lookup_replicate_2. }
  { intros i g [_ Hi] (ags & Hm & Hg). destruct (group_step_layout i ags g ltac:(lia) Hm Hg)
      as (ags' & g' & ? & ? & ?). exists g'. split; [done|]. by exists ags'. }
  cbn [obind]. simpl in Hbound, Hkeys, Hg. destruct Hg as [H1 H2 H3 H4 H5 H6 H7]. rewrite H2.
  destruct (for_outcome_ok (fun i (cg : list Z) => length cg = (n * (n + 1))%nat /\
      (forall x, (forall j, (j < i)%nat -> x <> (j * (n + 1))%nat) -> cg !! x = chunk_groups g !! x) /\
      forall j a, (j < i)%nat -> ags !! j = Some a ->
        cg !! (j * (n + 1))%nat = Some (Z.of_nat (length (members n a))))
    (fun i cg => let* size := access (group_size g !! i) in write cg (i * (n + 1)) (Z.of_nat size))
    0 (length ags) (chunk_groups g)) as (cg' & Hrun & Hl & Hsame & Hheads).
  { split_and!; [done|done|lia]. }
  { intros i c [_ Hi] (Hl & Hsame & Hheads). simpl in Hi. rewrite H6 by lia. cbn [access obind].
    unfold write. rewrite (proj2 (Nat.ltb_lt _ _)) by (rewrite Hl; nia). eexists. split; [done|].
    split_and!; [by rewrite length_insert| |].
    - intros x Hx. rewrite list_lookup_insert_ne by (apply not_eq_sym, Hx; lia).
      apply Hsame. intros j Hj. apply Hx. lia.
    - intros j a Hj Ha. destruct (decide (i = j)) as [<-|Hne].
      + rewrite list_lookup_insert_eq by (rewrite Hl; nia). by rewrite Ha.
      + rewrite list_lookup_insert_ne by nia. apply Hheads; [lia|done]. }
  rewrite Hrun. cbn [obind]. exists ags, cg'. split_and!; [done|congruence|done|exact Hkeys|].
  intros j a Hj. pose proof (lookup_lt_Some _ _ _ Hj). split; [apply Hheads; [lia|done]|].
  intros m k Hm. pose proof (lookup_lt_Some _ _ _ Hm). pose proof (length_members n a).
  rewrite Hsame; [by apply (H7 j a)|]. intros j' _ E.
  replace (j' * (n + 1))%nat with (j' * (n + 1) + 0)%nat in E by lia.
  apply row_inj in E as [_ E]; lia.
Qed.
End grouping.
