(* ===== verification/RegistrationTheorems.v ===== *)
(** Registration of agents keeps the coordinator's tables consistent
    ([ProxyCoordinator::registerAgent], src/proxy/coordinator.cc), together with
    the other operations that change the tables. *)

From S2P Require Import Prelude DS IO Coordinator ProxyCoordinator CoordinatorTheorems.
Import ProxyCoordinator.

#[local] Open Scope outcome_scope.

(** * Removing one container of an agent *)

Lemma index_of_spec cs id j0 : id ∈ map containerId cs ->
  exists j c, index_of cs id j0 = Some (j0 + j)%nat /\ cs !! j = Some c /\ containerId c = id.
Proof.
  revert j0. induction cs as [|c cs IH]; intros j0; simpl; [by intros ?%elem_of_nil|].
  destruct (Z.eqb_spec (containerId c) id) as [E|E].
  - intros _. exists 0%nat, c. by rewrite Nat.add_0_r.
  - intros [Hid|Hid]%elem_of_cons; [done|]. destruct (IH (j0 + 1)%nat Hid) as (j & c' & -> & ? & ?).
    exists (Datatypes.S j), c'. split; [f_equal; lia|done].
Qed.

(** Up to nine containers the block moves stay within the arrays. *)
Lemma memmove_small j n : (n <= 9)%nat -> (j + 1 < n)%nat -> memmove_ok j n = true.
Proof.
  intros Hn Hj. unfold memmove_ok, NUM_MAX_CONTAINER_PER_AGENT. simpl.
  rewrite !andb_true_iff. repeat split; apply Nat.leb_le; lia.
Qed.

Lemma remove_container_ok cs id : (length cs <= 9)%nat -> exists cs', remove_container cs id = Ok cs'.
Proof.
  intros Hl. unfold remove_container. destruct (index_of cs id 0) as [j|]; [|by eexists].
  destruct (Nat.ltb_spec (j + 1) (length cs)); [|by eexists]. rewrite memmove_small by done. by eexists.
Qed.

Lemma remove_container_spec cs id cs' : NoDup (map containerId cs) -> id ∈ map containerId cs ->
  remove_container cs id = Ok cs' ->
  (length cs' <= length cs)%nat /\ NoDup (map containerId cs') /\
  forall x, x ∈ map containerId cs' <-> x ∈ map containerId cs /\ x <> id.
Proof.
  intros Hnd Hin Hr. unfold remove_container in Hr.
  destruct (index_of_spec cs id 0 Hin) as (j & c & Hj' & Hc & Hcid). rewrite Hj' in Hr. simpl in Hr.
  pose proof (lookup_lt_Some _ _ _ Hc) as Hj. assert (cs' = delete j cs) as ->.
  { destruct (Nat.ltb_spec (j + 1) (length cs)).
    - destruct (memmove_ok j (length cs)); [by injection Hr|done].
    - injection Hr as <-. assert (j = length cs - 1)%nat as -> by lia.
      by rewrite delete_take_drop, drop_ge, app_nil_r by lia. }
  apply delete_Permutation in Hc. split; [apply Permutation_length in Hc; simpl in Hc; lia|].
  apply (Permutation_map containerId) in Hc. simpl in Hc. rewrite Hc in Hnd.
  apply NoDup_cons in Hnd as [Hnot Hnd]. split; [done|]. intros x. rewrite Hc, elem_of_cons. subst id. split; [|by intros [[?|?] ?]].
  intros Hx. split; [by right|]. by intros ->.
Qed.

Lemma unmap_lookup ids cm id :
  unmap ids cm !! id = if decide (id ∈ ids) then None else cm !! id.
Proof.
  revert cm. induction ids as [|x ids IH]; intros cm.
  { by rewrite decide_False by apply not_elem_of_nil. }
  change (unmap (x :: ids) cm) with (unmap ids (delete x cm)). rewrite IH. destruct (decide (id ∈ ids)) as [Hin|Hin].
  - by rewrite decide_True by (by right).
  - destruct (decide (x = id)) as [->|Hne].
    + rewrite decide_True by by left. apply lookup_delete_eq.
    + rewrite decide_False by (rewrite elem_of_cons; naive_solver). by rewrite lookup_delete_ne.
Qed.

(** * The loop over the containers of the agent *)

Section loop.
Context (s : t) (e : CoordinatorEvent.t).
Notation ids := (take (Z.to_nat (CoordinatorEvent.numContainers e)) (CoordinatorEvent.containerIds e)).
Notation addr := (CoordinatorEvent.agentAddr e).
Notation ip0 := (IO.getAddrIP (CoordinatorEvent.agentAddr e)).
Context (Hs : registry s).

(** After [i] containers: they are mapped to the agent and gone from their
    previous agents; the agents that are alive are untouched. *)
Record claimed (i : nat) (r : registration) : Prop := {
  cl_map : forall id, reg_map r !! id =
    if decide (id ∈ take i ids) then Some addr else _containerToAgentMap s !! id;
  cl_dom : forall ip, is_Some (reg_agents r !! ip) <-> is_Some (_agents s !! ip);
  cl_nodup : forall ip, NoDup (agent_ids (reg_agents r) ip);
  cl_ids : forall id ip, id ∈ agent_ids (reg_agents r) ip <->
    id ∈ agent_ids (_agents s) ip /\ id ∉ take i ids;
  cl_live : forall ip, ip <> ip0 -> _agentStatus s !! ip = Some true ->
    reg_agents r !! ip = _agents s !! ip;
  cl_fewer : forall ip, (length (slots_of (reg_agents r) ip) <= length (slots_of (_agents s) ip))%nat;
  cl_slots : map containerId (reg_slots r) = take i ids
}.

(** The container belongs to another agent that is alive. *)
Definition conflict (id : Z) : bool :=
  match _containerToAgentMap s !! id with
  | Some orig => negb (bool_decide (orig = addr)) &&
                 bool_decide (_agentStatus s !! IO.getAddrIP orig = Some true)
  | None => false
  end.

Lemma take_snoc_elem i id x : ids !! i = Some id ->
  x ∈ take (i + 1) ids <-> x ∈ take i ids \/ x = id.
Proof using.
  intros Hi. rewrite Nat.add_1_r, (take_S_r _ _ _ Hi), elem_of_app, list_elem_of_singleton. done.
Qed.

Lemma fresh_id i id : NoDup ids -> ids !! i = Some id -> id ∉ take i ids.
Proof using.
  intros Hnd Hi [j Hj]%list_elem_of_lookup. apply lookup_take_Some in Hj as [Hj Hlt].
  pose proof (NoDup_lookup _ _ _ _ Hnd Hi Hj). lia.
Qed.

Lemma claim_map i id r x : ids !! i = Some id -> claimed i r ->
  (<[id := addr]> (reg_map r)) !! x =
  if decide (x ∈ take (i + 1) ids) then Some addr else _containerToAgentMap s !! x.
Proof using.
  intros Hi Hr. destruct (decide (id = x)) as [<-|Hne].
  - rewrite lookup_insert_eq, decide_True; [done|]. apply (take_snoc_elem i id); [done|by right].
  - rewrite lookup_insert_ne, (cl_map _ _ Hr) by done.
    destruct (decide (x ∈ take i ids)) as [Hin|Hin].
    + rewrite decide_True; [done|]. apply (take_snoc_elem i id); [done|by left].
    + rewrite decide_False; [done|]. rewrite (take_snoc_elem i id) by done. naive_solver.
Qed.

(** A container nobody had. *)
Lemma claimed_new i id r slots u : ids !! i = Some id -> _containerToAgentMap s !! id = None ->
  claimed i r -> map containerId slots = take (i + 1) ids ->
  claimed (i + 1) (mk_reg (<[id := addr]> (reg_map r)) (reg_agents r) slots u).
Proof using Hs.
  intros Hi Hid Hr Hslots. pose proof Hr as [_ Hd Hn Hids Hl Hsm _].
  constructor; simpl; [by intros x; apply (claim_map i)|done|done| |done|done|done].
  intros x ip. rewrite Hids, (take_snoc_elem i id) by done. split; [|naive_solver].
  intros [Hx Hx']. split; [done|]. intros [?| ->]; [done|].
  apply (rg_mapped _ Hs) in Hx as (? & ? & _). congruence.
Qed.

(** A container taken from the agent at [orig]. *)
Lemma claimed_taken i id r orig info cs slots u :
  ids !! i = Some id -> _containerToAgentMap s !! id = Some orig ->
  (orig = addr \/ _agentStatus s !! IO.getAddrIP orig <> Some true) ->
  claimed i r -> reg_agents r !! IO.getAddrIP orig = Some info ->
  (length cs <= length (containers info))%nat -> NoDup (map containerId cs) ->
  (forall x, x ∈ map containerId cs <-> x ∈ map containerId (containers info) /\ x <> id) ->
  map containerId slots = take (i + 1) ids ->
  claimed (i + 1) (mk_reg (<[id := addr]> (reg_map r))
    (<[IO.getAddrIP orig := set_containers info cs]> (reg_agents r)) slots u).
Proof using Hs.
  intros Hi Hid Hdown Hr Hinfo Hcl Hcn Hcs Hslots. pose proof Hr as [_ Hd Hn Hids Hl Hsm _].
  assert (forall ip, agent_ids (<[IO.getAddrIP orig := set_containers info cs]> (reg_agents r)) ip =
    if decide (IO.getAddrIP orig = ip) then map containerId cs else agent_ids (reg_agents r) ip) as Hai.
  { intros ip. unfold agent_ids, slots_of.
    destruct (decide (IO.getAddrIP orig = ip)) as [<-|E]; [by rewrite lookup_insert_eq|].
    by rewrite lookup_insert_ne. }
  constructor; simpl; [by intros x; apply (claim_map i)| | | | | |done].
  - intros ip. rewrite <- Hd. destruct (decide (IO.getAddrIP orig = ip)) as [<-|Hne].
    + rewrite lookup_insert_eq, Hinfo. split; by eexists.
    + by rewrite lookup_insert_ne.
  - intros ip. rewrite Hai. destruct (decide (IO.getAddrIP orig = ip)); [exact Hcn|apply Hn].
  - intros x ip. rewrite Hai, (take_snoc_elem i id) by done.
    destruct (decide (IO.getAddrIP orig = ip)) as [<-|E].
    + assert (agent_ids (reg_agents r) (IO.getAddrIP orig) = map containerId (containers info)) as Ha
        by (unfold agent_ids, slots_of; by rewrite Hinfo).
      rewrite Hcs, <- Ha, Hids. naive_solver.
    + rewrite Hids. split; [|naive_solver]. intros [Hx Hx']. split; [done|]. intros [?| ->]; [done|].
      apply E. apply (agents_disjoint s id); [done| |done]. apply (rg_mapped _ Hs). by exists orig.
  - intros ip Hne Hal. destruct (decide (IO.getAddrIP orig = ip)) as [<-|E]; [|rewrite lookup_insert_ne; auto].
    exfalso. by destruct Hdown as [->|?].
  - intros ip. unfold slots_of. destruct (decide (IO.getAddrIP orig = ip)) as [<-|E].
    + rewrite lookup_insert_eq. cbn. etrans; [exact Hcl|]. specialize (Hsm (IO.getAddrIP orig)). unfold slots_of in Hsm.
      by rewrite Hinfo in Hsm.
    + rewrite lookup_insert_ne by done. apply Hsm.
Qed.

Definition small (s : t) : Prop := forall ip, (length (slots_of (_agents s) ip) <= 9)%nat.

(** A container is refused when it is in conflict; the step is defined when no agent has
    more than nine containers. *)
Lemma claim_step i id r : NoDup ids -> ids !! i = Some id -> claimed i r ->
  (forall x, claim s e id r = Ok x -> match x with
   | None => conflict id = true
   | Some r' => conflict id = false /\ reg_slots r' = reg_slots r /\
       forall slots u, map containerId slots = take (i + 1) ids ->
       claimed (i + 1) (mk_reg (reg_map r') (reg_agents r') slots u)
   end) /\ (small s -> exists x, claim s e id r = Ok x).
Proof using Hs.
  intros Hnd Hi Hr. pose proof (fresh_id i id Hnd Hi) as Hfresh.
  unfold claim, conflict. rewrite (cl_map _ _ Hr), decide_False by done.
  destruct (_containerToAgentMap s !! id) as [orig|] eqn:Hid.
  2:{ split; [|by eexists]. intros x [= <-]. split; [done|]. split; [done|]. intros slots u Hslots. by apply (claimed_new i id r). }
  assert (id ∈ agent_ids (_agents s) (IO.getAddrIP orig)) as Horig.
  { apply (rg_mapped _ Hs). by exists orig. }
  assert (is_Some (_agents s !! IO.getAddrIP orig)) as Hag.
  { unfold agent_ids, slots_of in Horig. destruct (_agents s !! _); [by eexists|by apply elem_of_nil in Horig]. }
  apply (rg_known _ Hs) in Hag as Hst. destruct Hst as [b Hb]. rewrite Hb.
  assert ((if bool_decide (orig = addr) then Ok false else Ok b) =
    Ok (negb (bool_decide (orig = addr)) && bool_decide (Some b = Some true))) as ->.
  { case_bool_decide; [done|]. by destruct b. }
  cbn [obind]. destruct (_ && _) eqn:Hconf; [split; [by intros x [= <-]|by eexists]|].
  apply (cl_dom _ _ Hr) in Hag as [info Hinfo]. rewrite Hinfo.
  assert (slots_of (reg_agents r) (IO.getAddrIP orig) = containers info) as Hsi
    by (unfold slots_of; by rewrite Hinfo).
  split.
  2:{ intros Hsm. destruct (remove_container_ok (containers info) id) as [cs ->]; [|by eexists].
      rewrite <- Hsi. etrans; [apply (cl_fewer _ _ Hr)|apply Hsm]. }
  destruct (remove_container _ _) as [| |cs] eqn:Hrm; [done..|]. cbn [obind]. intros x [= <-].
  destruct (remove_container_spec (containers info) id cs) as (Hcl & Hcn & Hcs); [| |exact Hrm|].
  { rewrite <- Hsi. apply (cl_nodup _ _ Hr). }
  { rewrite <- Hsi. by apply (cl_ids _ _ Hr). }
  split; [done|]. split; [done|]. intros slots u Hslots. apply (claimed_taken i id r orig info cs); try done.
  apply andb_false_iff in Hconf as [Hc|Hc]; [left|right; rewrite Hb; by apply bool_decide_eq_false in Hc].
  by apply negb_false_iff, bool_decide_eq_true in Hc.
Qed.

(** The arrays of the event hold as many entries as it says. *)
Definition event_fits : Prop :=
  let num := Z.to_nat (CoordinatorEvent.numContainers e) in
  (num <= NUM_MAX_CONTAINER_PER_AGENT)%nat /\ (num <= length (CoordinatorEvent.containerIds e))%nat /\
  (num <= length (CoordinatorEvent.containerUsage e))%nat /\
  (num <= length (CoordinatorEvent.containerCapacity e))%nat /\
  (num <= length (CoordinatorEvent.containerType e))%nat.

Lemma add_slot_spec i id r : ids !! i = Some id -> map containerId (reg_slots r) = take i ids ->
  (forall r', add_slot e i r = Ok r' -> exists slots u,
     r' = mk_reg (reg_map r) (reg_agents r) slots u /\ map containerId slots = take (i + 1) ids) /\
  (event_fits -> exists r', add_slot e i r = Ok r').
Proof using.
  intros Hi Hsl. apply lookup_take_Some in Hi as Hi'. destruct Hi' as [Hid Hlt].
  assert (forall x, containerId x = id -> map containerId (reg_slots r ++ [x]) = take (i + 1) ids) as Hmap.
  { intros x <-. rewrite map_app, Hsl. simpl. by rewrite Nat.add_1_r, (take_S_r _ _ _ Hi). }
  unfold add_slot. rewrite Hid. split.
  - intros r'. destruct (_ <=? _)%nat; [done|]. cbn [access obind].
    destruct (CoordinatorEvent.containerUsage e !! i), (CoordinatorEvent.containerCapacity e !! i),
      (CoordinatorEvent.containerType e !! i); cbn [access obind]; try done. intros [= <-]. eexists _, _. split; [done|]. by apply Hmap.
  - intros (Hmax & Hl1 & Hl2 & Hl3 & Hl4).
    assert (length (reg_slots r) = i) as Hlen by (rewrite <- (length_map containerId), Hsl, !length_take; lia).
    rewrite Hlen, (proj2 (Nat.leb_gt _ _)) by lia. cbn [access obind].
    destruct (lookup_lt_is_Some_2 (CoordinatorEvent.containerUsage e) i) as [u ->]; [lia|].
    destruct (lookup_lt_is_Some_2 (CoordinatorEvent.containerCapacity e) i) as [c ->]; [lia|].
    destruct (lookup_lt_is_Some_2 (CoordinatorEvent.containerType e) i) as [ty ->]; [lia|]. by eexists.
Qed.

Lemma claimed_all i r : (length ids <= i)%nat -> claimed i r -> claimed (length ids) r.
Proof using.
  intros Hi [H1 H2 H3 H4 H5 H6 H7]. rewrite take_ge in H7 by done.
  constructor; rewrite ?firstn_all; try done.
  - intros id. rewrite H1. by rewrite (take_ge ids i) by done.
  - intros id ip. rewrite H4. by rewrite (take_ge ids i) by done.
Qed.

(** The loop stops at the first container another live agent has. *)
Lemma register_loop_spec i n r : NoDup ids -> claimed i r ->
  (i + n)%nat = Z.to_nat (CoordinatorEvent.numContainers e) ->
  (forall ok r', register_loop s e i n r = Ok (ok, r') ->
   if ok then claimed (length ids) r' /\ Forall (fun id => conflict id = false) (drop i ids)
   else (exists j r0, claimed j r0 /\ r' = mk_reg (unmap (take j ids) (reg_map r0)) (reg_agents r0)
           (reg_slots r0) (reg_util r0)) /\
        Exists (fun id => conflict id = true) (drop i ids)) /\
  (event_fits -> small s -> exists ok r', register_loop s e i n r = Ok (ok, r')).
Proof using Hs.
  intros Hnd. revert i r. induction n as [|n IH]; intros i r Hr Hlen; simpl.
  { assert (length ids <= i)%nat as Hle by (rewrite length_take; lia). split; [|by eexists _, _].
    intros ok r' [= <- <-]. split; [by apply (claimed_all i)|]. by rewrite drop_ge. }
  destruct (CoordinatorEvent.containerIds e !! i) as [id|] eqn:Hid'; cbn [access obind].
  2:{ split; [done|]. intros (_ & Hl & _). apply lookup_ge_None in Hid'. lia. }
  assert (ids !! i = Some id) as Hid by (rewrite lookup_take_lt by lia; done).
  rewrite (drop_S _ _ _ Hid). destruct (claim_step i id r Hnd Hid Hr) as [Hclaim Hdef].
  destruct (claim s e id r) as [| |[r1|]] eqn:Hc; cbn [obind];
    [split; [done|]; intros _ Hsm; by destruct (Hdef Hsm)..| |].
  - destruct (Hclaim _ eq_refl) as (Hnc & Hsl & Hnext).
    destruct (add_slot_spec i id r1 Hid) as [Hadd Hadef]; [by rewrite Hsl; apply (cl_slots _ _ Hr)|].
    destruct (add_slot e i r1) as [| |r2]; cbn [obind];
      [split; [done|]; intros Hfit _; by destruct (Hadef Hfit)..|].
    destruct (Hadd _ eq_refl) as (slots & u & -> & Hslots).
    destruct (IH (i + 1)%nat _ (Hnext slots u Hslots) ltac:(lia)) as [Hres Hdone]. split; [|done].
    intros ok r' Hr'. specialize (Hres ok r' Hr'). rewrite Nat.add_1_r in Hres. destruct ok; destruct Hres as [? ?].
    + split; [done|]. by constructor.
    + split; [done|]. by apply Exists_cons_tl.
  - split; [|by eexists _, _]. intros ok r' [= <- <-]. split; [|constructor; by apply (Hclaim _ eq_refl)].
    exists i, r. split; [done|]. f_equal. f_equal. rewrite take_take. f_equal. lia.
Qed.

(** * The tables after a registration *)

(** Refused: the containers looked at so far belong to nobody. *)
Lemma refused_registry i r : claimed i r ->
  registry (set_maps s (unmap (take i ids) (reg_map r)) (reg_agents r)).
Proof using Hs.
  intros [Hm Hd Hn Hids _ _ _]. constructor; simpl; [exact (rg_alive _ Hs)| |done|].
  - intros ip. by rewrite Hd, (rg_known _ Hs).
  - intros id ip. rewrite Hids, (rg_mapped _ Hs), unmap_lookup, Hm.
    destruct (decide (id ∈ take i ids)); naive_solver.
Qed.

(** Accepted: the agent has exactly the containers of the event. *)
Definition accepted (r : registration) (info : AgentInfo) : t :=
  set_maps (setAgentAlive (set_maps s (reg_map r) (reg_agents r)) ip0)
    (match reg_agents r !! ip0 with
     | Some old => unmap (map containerId (containers old)) (reg_map r)
     | None => reg_map r
     end) (<[ip0 := info]> (reg_agents r)).

Lemma accepted_ids r info ip : containers info = reg_slots r ->
  claimed (length ids) r ->
  agent_ids (_agents (accepted r info)) ip = if decide (ip0 = ip) then ids else agent_ids (reg_agents r) ip.
Proof using.
  intros Hinfo Hr. unfold agent_ids, slots_of, accepted. simpl.
  destruct (decide (ip0 = ip)) as [<-|Hne].
  - rewrite lookup_insert_eq, Hinfo, (cl_slots _ _ Hr). by rewrite firstn_all.
  - by rewrite lookup_insert_ne.
Qed.

Lemma accepted_map r info id : claimed (length ids) r ->
  _containerToAgentMap (accepted r info) !! id =
  if decide (id ∈ ids) then Some addr
  else if decide (id ∈ agent_ids (_agents s) ip0) then None else _containerToAgentMap s !! id.
Proof using.
  intros Hr. pose proof (cl_map _ _ Hr id) as Hm. pose proof (cl_ids _ _ Hr id ip0) as Hi.
  rewrite firstn_all in Hm, Hi.
  change (agent_ids (reg_agents r) ip0) with (map containerId (slots_of (reg_agents r) ip0)) in Hi.
  unfold slots_of in Hi. unfold accepted. simpl.
  destruct (reg_agents r !! ip0) as [old|].
  - rewrite unmap_lookup, Hm. destruct (decide (id ∈ ids)), (decide (id ∈ agent_ids (_agents s) ip0));
      destruct (decide (id ∈ map containerId (containers old))); naive_solver.
  - rewrite Hm. destruct (decide (id ∈ ids)); [done|].
    destruct (decide (id ∈ agent_ids (_agents s) ip0)) as [Hin|]; [|done].
    exfalso. apply (not_elem_of_nil id), Hi. by split.
Qed.

Lemma accepted_registry r info : containers info = reg_slots r -> NoDup ids -> claimed (length ids) r ->
  registry (accepted r info).
Proof using Hs.
  intros Hinfo Hnd Hr. constructor.
  - intros ip. simpl. rewrite elem_of_union, elem_of_singleton, (rg_alive _ Hs ip).
    destruct (decide (ip0 = ip)) as [<-|Hne]; [rewrite lookup_insert_eq|rewrite lookup_insert_ne by done];
      naive_solver.
  - intros ip. simpl. destruct (decide (ip0 = ip)) as [<-|Hne].
    + rewrite !lookup_insert_eq. split; by eexists.
    + rewrite !lookup_insert_ne by done. by rewrite (cl_dom _ _ Hr), (rg_known _ Hs).
  - intros ip. rewrite (accepted_ids r info) by done.
    destruct (decide (ip0 = ip)); [done|apply (cl_nodup _ _ Hr)].
  - intros id ip. rewrite (accepted_ids r info), (accepted_map r info) by done.
    pose proof (rg_mapped _ Hs id) as Hmap. pose proof (cl_ids _ _ Hr id ip) as Hi. rewrite firstn_all in Hi.
    destruct (decide (ip0 = ip)) as [<-|Hne]; destruct (decide (id ∈ ids)) as [Hin|Hin].
    + naive_solver.
    + split; [done|]. intros (a & Ha & Hip). destruct (decide (id ∈ _)) as [|Hn]; [done|].
      destruct Hn. apply Hmap. by exists a.
    + split; [naive_solver|]. intros (a & [= <-] & Hip). done.
    + rewrite Hi, Hmap. destruct (decide (id ∈ agent_ids (_agents s) ip0)) as [Hin'|]; [|naive_solver].
      apply Hmap in Hin' as (a & Ha & Hip0). split; [|naive_solver].
      intros [(a' & Ha' & Hip) _]. congruence.
Qed.

Lemma accepted_starts r info : containers info = reg_slots r -> startingContainerIndex info = 0%nat ->
  claimed (length ids) r -> starts_ok s -> starts_ok (accepted r info).
Proof using Hs.
  intros Hinfo Hst Hr Hok ip i Hal. simpl. destruct (decide (ip0 = ip)) as [<-|Hne].
  - rewrite lookup_insert_eq. intros [= <-]. unfold start_ok. rewrite Hst.
    destruct (containers info); [by left|right; simpl; lia].
  - rewrite lookup_insert_ne by done. simpl in Hal.
    assert (ip ∈ _aliveAgents s) as Hal' by set_solver.
    rewrite (cl_live _ _ Hr) by (done || by apply (rg_alive _ Hs)). by apply Hok.
Qed.

Lemma accepted_small r info ip : containers info = reg_slots r -> (length ids <= 9)%nat -> small s ->
  claimed (length ids) r -> (length (slots_of (_agents (accepted r info)) ip) <= 9)%nat.
Proof using.
  intros Hinfo Hl Hsm Hr. rewrite <- (length_map containerId). fold (agent_ids (_agents (accepted r info)) ip).
  rewrite accepted_ids by done. destruct (decide (ip0 = ip)); [done|]. unfold agent_ids.
  rewrite length_map. etrans; [apply (cl_fewer _ _ Hr)|apply Hsm].
Qed.

Lemma claimed_start : claimed 0 (mk_reg (_containerToAgentMap s) (_agents s) [] []).
Proof using Hs.
  constructor; cbn [reg_map reg_agents reg_slots take]; [|done|apply (rg_ids _ Hs)| |done|done|done].
  - intros id. by rewrite decide_False by apply not_elem_of_nil.
  - intros id ip. pose proof (not_elem_of_nil id). naive_solver.
Qed.

Lemma registerAgent_defined w : event_fits -> NoDup ids -> small s -> exists ok s', registerAgent w s e = Ok (ok, s').
Proof using Hs.
  intros Hfit Hnd Hsm. unfold registerAgent.
  destruct (register_loop_spec 0 (Z.to_nat (CoordinatorEvent.numContainers e)) _ Hnd claimed_start) as [_ Hdef]; [lia|].
  destruct (Hdef Hfit Hsm) as (ok & r & ->). cbn [obind]. destruct ok; by eexists _, _.
Qed.

Lemma registerAgent_spec w ok s' : NoDup ids -> registerAgent w s e = Ok (ok, s') ->
  registry s' /\ ok = forallb (fun id => negb (conflict id)) ids /\
  ((length ids <= 9)%nat -> small s -> small s') /\
  (ok = true -> (starts_ok s -> starts_ok s') /\ ip0 ∈ _aliveAgents s' /\
     agent_ids (_agents s') ip0 = ids /\
     forall id, id ∈ ids -> _containerToAgentMap s' !! id = Some addr).
Proof using Hs.
  intros Hnd. unfold registerAgent.
  destruct (register_loop_spec 0 (Z.to_nat (CoordinatorEvent.numContainers e)) _ Hnd claimed_start) as [Hres _]; [lia|].
  destruct (register_loop _ _ _ _ _) as [| |[ok' r]]; cbn [obind]; [done..|]. specialize (Hres ok' r eq_refl).
  rewrite drop_0 in Hres. destruct ok'.
  - destruct Hres as [Hr Hall].
    set (info := mk_info (connects w (IO.genAddr ip0 (CoordinatorEvent.cport e)))
      (CoordinatorEvent.agentHostType e) (isAgentNear w ip0) 0 (reg_slots r) (reg_util r) SysInfo.init).
    intros E. assert (ok = true /\ s' = accepted r info) as [-> ->] by (by injection E as <- <-).
    split; [by apply accepted_registry|]. split_and!.
    + symmetry. apply forallb_forall. intros id Hid%list_elem_of_In. rewrite Forall_forall in Hall.
      by rewrite Hall.
    + intros Hl Hsm ip. by apply accepted_small.
    + intros _. split; [by apply accepted_starts|]. split; [simpl; set_solver|].
      split; [rewrite accepted_ids by done; by rewrite decide_True|].
      intros id Hid. rewrite accepted_map by done. by rewrite decide_True.
  - destruct Hres as [(j & r0 & Hr0 & ->) Hex]. intros [= <- <-].
    split; [by apply (refused_registry j r0)|]. split_and!; [|intros _ Hsm ip; etrans; [apply (cl_fewer _ _ Hr0)|apply Hsm]|done].
    symmetry. apply not_true_iff_false. intros Hall. rewrite forallb_forall in Hall.
    apply Exists_exists in Hex as (id & Hid & Hc). apply list_elem_of_In, Hall in Hid.
    by rewrite Hc in Hid.
Qed.
End loop.

(** C33: The registration of an agent that lists each of its containers once keeps the
    tables consistent.  It is accepted exactly when none of the containers belongs to
    another agent that is alive; then the agent is alive, has exactly the containers of
    the event, and they are mapped to its address.  This holds for every registration
    that stays within its arrays; those of up to 16 containers do as long as no agent had
    more than nine, and [remove_beyond_arrays] is one that does not. *)
Theorem register_keeps_registry s e w :
  let ids := take (Z.to_nat (CoordinatorEvent.numContainers e)) (CoordinatorEvent.containerIds e) in
  let ip := IO.getAddrIP (CoordinatorEvent.agentAddr e) in
  registry s -> NoDup ids ->
  (forall ok s', registerAgent w s e = Ok (ok, s') -> registry s' /\
   ok = forallb (fun id => negb (conflict s e id)) ids /\
   (ok = true -> ip ∈ _aliveAgents s' /\ agent_ids (_agents s') ip = ids /\
      forall id, id ∈ ids -> _containerToAgentMap s' !! id = Some (CoordinatorEvent.agentAddr e))) /\
  (event_fits e -> small s -> exists ok s', registerAgent w s e = Ok (ok, s')).
Proof.
  intros ids ip Hs Hnd. split; [|intros Hfit Hsm; by apply registerAgent_defined].
  intros ok s' Hreg. destruct (registerAgent_spec s e Hs w ok s' Hnd Hreg) as (Hr & Hok & _ & Hacc).
  split_and!; [done|done|]. intros Ht. by destruct (Hacc Ht) as [_ ?].
Qed.

(** * Reachable states *)

(** Placement only moves the indices where searches start. *)
Lemma screen_agents_slots p ips cnt sel skip ag sel' skip' ag' ip :
  screen_agents p ips cnt sel skip ag = Ok (sel', skip', ag') ->
  (containers <$> ag' !! ip) = (containers <$> ag !! ip).
Proof.
  revert cnt sel skip ag. induction ips as [|a ips IH]; intros cnt sel skip ag; simpl; [by intros [= _ _ <-]|].
  destruct (ag !! a) as [info|] eqn:Hi; [|done].
  destruct (screen_agent _ _ _ _ _ _) as [| |[sc|]]; [done|done| |apply IH]. cbn [obind].
  assert (containers <$> <[a := set_start info (start sc)]> ag !! ip = containers <$> ag !! ip) as Hins.
  { destruct (decide (a = ip)) as [<-|Hne]; [by rewrite lookup_insert_eq, Hi|by rewrite lookup_insert_ne]. }
  destruct (_ <=? _)%nat; [by intros [= _ _ <-]|]. intros H%IH. by rewrite H.
Qed.

Lemma same_slots_registry s s' :
  _containerToAgentMap s' = _containerToAgentMap s -> _agentStatus s' = _agentStatus s ->
  _aliveAgents s' = _aliveAgents s ->
  (forall ip, containers <$> _agents s' !! ip = containers <$> _agents s !! ip) ->
  registry s -> registry s'.
Proof.
  intros Hm Hst Hal Hag [H1 H2 H3 H4].
  assert (forall ip, slots_of (_agents s') ip = slots_of (_agents s) ip) as Hsl.
  { intros ip. specialize (Hag ip). unfold slots_of.
    destruct (_agents s' !! ip), (_agents s !! ip); simpl in Hag; congruence. }
  constructor.
  - intros ip. rewrite Hal, Hst. apply H1.
  - intros ip. rewrite Hst, H2. specialize (Hag ip).
    destruct (_agents s' !! ip), (_agents s !! ip); simplify_eq/=; split; intros [? ?]; by eexists.
  - intros ip. unfold agent_ids. rewrite Hsl. apply H3.
  - intros id ip. unfold agent_ids. rewrite Hsl, Hm. apply H4.
Qed.

(** One operation of the coordinator on its tables.  Agents list each of their
    containers once. *)
Inductive coordinator_step : t -> t -> Prop :=
  | step_register w s e ok s' :
      NoDup (take (Z.to_nat (CoordinatorEvent.numContainers e)) (CoordinatorEvent.containerIds e)) ->
      registerAgent w s e = Ok (ok, s') -> coordinator_step s s'
  | step_ping w s : coordinator_step s (pingAgents w s)
  | step_update w s s' : updateAgentStatus w s = Ok s' -> coordinator_step s s'
  | step_check w s ids status upd all unused n status' s' :
      checkContainerLiveness w s ids status upd all unused = Ok (n, status', s') -> coordinator_step s s'
  | step_place w s ids status num size m spare s' :
      findSpareContainers w s ids status num size m = Ok (spare, s') -> coordinator_step s s'.

Definition init : t := mk ∅ ∅ ∅ ∅ 0 0.

Lemma refresh_invariant w s s' : refresh w s = Ok s' -> registry s -> registry s'.
Proof. intros Hu%refresh_updated Hr. by eapply updated_registry. Qed.

Lemma step_invariant s s' : coordinator_step s s' -> registry s -> registry s'.
Proof.
  intros Hstep Hr. destruct Hstep as
    [w s e ok s' Hnd Hreg|w s|w s s' Hup|w s ids status upd all unused n status' s' Hchk
    |w s ids status num size m spare s' Hpl].
  - by destruct (registerAgent_spec s e Hr w ok s' Hnd Hreg) as [? _].
  - eapply updated_registry; [apply (pingAgents_updated w s)|done].
  - apply updateAgentStatus_updated in Hup. by eapply updated_registry.
  - unfold checkContainerLiveness in Hchk. destruct upd.
    + destruct (refresh w s) as [| |s1] eqn:Href; [done|done|]. cbn [obind] in Hchk.
      destruct (step_state _) in Hchk. injection Hchk as _ _ <-. by eapply refresh_invariant.
    + cbn [obind] in Hchk. destruct (step_state _) in Hchk. by injection Hchk as _ _ <-.
  - unfold findSpareContainers in Hpl. destruct (num <=? 0); [by injection Hpl as _ <-|].
    destruct (refresh w s) as [| |s1] eqn:Href; [done|done|]. cbn [obind] in Hpl.
    destruct (screen_agents _ _ _ _ _ _) as [| |[[sel skip] ag]] eqn:Hsc; [done|done|].
    cbn [obind] in Hpl. injection Hpl as _ <-. apply (refresh_invariant _ _ _ Href) in Hr.
    apply (same_slots_registry s1); [done|done|done| |done].
    intros ip. simpl. by eapply screen_agents_slots.
Qed.

(** The coordinator starts without agents. *)
Lemma init_registry : registry init.
Proof.
  constructor.
  - intros ip. simpl. rewrite lookup_empty. set_solver.
  - intros ip. simpl. by rewrite !lookup_empty.
  - intros ip. simpl. unfold agent_ids, slots_of. rewrite lookup_empty. constructor.
  - intros id ip. simpl. unfold agent_ids, slots_of. rewrite !lookup_empty. split.
    + by intros ?%elem_of_nil.
    + by intros (? & ? & _).
Qed.

(** C16: In every state the coordinator can reach from its start, by registrations of
    agents that list each of their containers once, pings, status updates, liveness
    checks and placements in any order, the tables are consistent: an agent counts as
    alive exactly when its status says so, and a container is mapped to an address
    exactly when the agent there has it.  There is no bound on the containers of an
    agent; a step that would go beyond the arrays has no result and ends the run. *)
Theorem reachable_registry s : rtc coordinator_step init s -> registry s.
Proof.
  intros Hreach. cut (registry init -> registry s); [intros Hc; apply Hc, init_registry|].
  induction Hreach as [s|s1 s2 s3 Hstep _ IH]; [done|]. intros Hinv. by apply IH, (step_invariant s1).
Qed.

(** * Two agents *)

Module ProxySample.

Definition world (pol : DistributionPolicy) : world :=
  mk_world 5 10 (fun _ => true) (fun _ => NoAnswer) (fun _ => NoAnswer) (fun _ => true)
    (fun _ => true) pol.

(** The registration of an agent at host [ip] with containers that have the given
    ids, usages and capacities. *)
Definition event (ip : string) (cs : list (Z * Z * Z)) : CoordinatorEvent.t :=
  CoordinatorEvent.mk REG_AGENT_REQ 0 0 (IO.genAddr ip 1) 2 (Z.of_nat (length cs))
    (map (fun c => fst (fst c)) cs) (map (fun c => snd (fst c)) cs) (map snd cs)
    (map (fun _ => 0) cs) SysInfo.init.

Definition register (s : t) (e : CoordinatorEvent.t) : t :=
  match registerAgent (world STATIC) s e with Ok (_, s) => s | _ => s end.

Definition event_a : CoordinatorEvent.t := event "a" [(1, 0, 100); (2, 0, 100)].
Definition event_b : CoordinatorEvent.t := event "b" [(3, 0, 100); (4, 0, 100)].
Definition alone : t := register init event_a.
Definition both : t := register alone event_b.

Definition good (s : t) : Prop := registry s /\ small s /\ starts_ok s.

Lemma init_good : good init.
Proof.
  split_and!; [apply init_registry| |].
  - intros ip. unfold slots_of. simpl. rewrite lookup_empty. simpl. lia.
  - intros ip info Hal. simpl in Hal. set_solver.
Qed.

Lemma register_good s e : good s -> event_fits e -> CoordinatorEvent.numContainers e <= 9 ->
  NoDup (take (Z.to_nat (CoordinatorEvent.numContainers e)) (CoordinatorEvent.containerIds e)) ->
  fst (default (false, s) (match registerAgent (world STATIC) s e with Ok x => Some x | _ => None end)) = true ->
  good (register s e).
Proof.
  intros (Hr & Hs & Hst) Hfit Hnum Hnd Hok.
  destruct (registerAgent_defined s e Hr (world STATIC) Hfit Hnd Hs) as (ok & s' & Hreg).
  destruct (registerAgent_spec s e Hr (world STATIC) ok s' Hnd Hreg) as (Hr' & _ & Hsm & Hacc).
  unfold register. rewrite Hreg in Hok |- *. simpl in Hok. subst ok.
  split_and!; [done|apply Hsm; [rewrite length_take; lia|done]|by apply Hacc].
Qed.

Lemma event_fits_a : event_fits event_a.
Proof. vm_compute. repeat split; repeat constructor. Qed.

Lemma event_fits_b : event_fits event_b.
Proof. vm_compute. repeat split; repeat constructor. Qed.

Lemma alone_good : good alone.
Proof.
  apply register_good; [apply init_good|apply event_fits_a|vm_compute; discriminate| |vm_compute; reflexivity].
  vm_compute. repeat constructor; set_solver.
Qed.

Lemma both_good : good both.
Proof.
  apply register_good; [apply alone_good|apply event_fits_b|vm_compute; discriminate| |vm_compute; reflexivity].
  vm_compute. repeat constructor; set_solver.
Qed.

(** Stripes of 4 chunks, any 2 of which suffice; one agent may fail. *)
Definition coding : CodingMeta.t := CodingMeta.mk RS None 4 2 1 0 0.

Lemma sample_refresh pol : refresh (world pol) both = Ok both.
Proof. vm_compute. reflexivity. Qed.

Lemma spare_sound_witness :
  exists spare s', findSpareContainers (world STATIC) both [1] [true] 4 10 coding = Ok (spare, s') /\
  NoDup spare /\ 1 ∉ spare.
Proof.
  destruct both_good as (Hr & _ & Hst).
  destruct (spare_sound (world STATIC) both both [1] [true] 4 10 coding)
    as (spare & s' & Hf & _ & Hnd & Huse & _).
  - exact Hr.
  - exact Hst.
  - discriminate.
  - simpl. lia.
  - lia.
  - apply sample_refresh.
  - exists spare, s'. split; [exact Hf|]. split; [exact Hnd|]. apply (Huse 0%nat); [simpl; lia|reflexivity].
Defined.

Lemma spare_tolerates_failures_witness :
  let lost id := Exists (fun ip => id ∈ agent_ids (_agents both) ip) ["a"] in
  exists spare s', findSpareContainers (world STATIC) both [] [] 4 10 coding = Ok (spare, s') /\ length spare = 4%nat /\
  (2 <= length (filter (fun id => ~ lost id) spare))%nat.
Proof.
  intros lost. destruct both_good as (Hr & _ & Hst).
  destruct (spare_tolerates_failures (world STATIC) both both [] [] 4 10 coding ["a"]) as (spare & s' & Hf & _ & Hleft).
  - exact Hr.
  - exact Hst.
  - discriminate.
  - simpl. lia.
  - lia.
  - apply sample_refresh.
  - simpl. lia.
  - simpl. lia.
  - simpl. lia.
  - assert (length spare = 4%nat) as Hl.
    { assert (match findSpareContainers (world STATIC) both [] [] 4 10 coding with Ok (l, _) => length l | _ => 0%nat end = 4%nat)
        as Hv by (vm_compute; reflexivity). by rewrite Hf in Hv. }
    exists spare, s'. split; [exact Hf|]. split; [exact Hl|]. rewrite Hl in Hleft.
    change (CodingMeta.n coding) with 4 in Hleft. change (CodingMeta.k coding) with 2 in Hleft.
    specialize (Hleft eq_refl). apply Nat2Z.inj_le. exact Hleft.
Defined.

Lemma liveness_exact_witness :
  exists n status', checkContainerLiveness (world STATIC) both [1; 9; UNUSED_CONTAINER_ID]
    [false; false; true] true true false = Ok (n, status', both) /\ n = 1 /\
  status' !!! 0%nat = true /\ status' !!! 1%nat = false /\ status' !!! 2%nat = true.
Proof.
  destruct (liveness_exact (world STATIC) both both [1; 9; UNUSED_CONTAINER_ID] [false; false; true]
    true true false) as (n & status' & Hc & _ & Hall).
  - reflexivity.
  - apply sample_refresh.
  - destruct (Hall eq_refl) as [Hn Hst]. exists n, status'. split; [exact Hc|].
    split; [rewrite Hn; vm_compute; reflexivity|].
    split; [|split]; (rewrite Hst by (simpl; lia); vm_compute; reflexivity).
Defined.

Lemma chunk_groups_by_agent_witness :
  exists ags cg', findChunkGroups both [1; 3; 2] [true; true; true] (replicate 12 0) =
    Ok (length ags, cg') /\ NoDup (ags : list string) /\ length cg' = 12%nat.
Proof.
  destruct (chunk_groups_by_agent both [1; 3; 2] [true; true; true] (replicate 12 0) eq_refl)
    as (ags & cg' & Hf & Hl & Hnd & _).
  exists ags, cg'. split; [exact Hf|]. split; [exact Hnd|exact Hl].
Defined.

Lemma register_keeps_registry_witness :
  exists ok s', registerAgent (world STATIC) alone event_b = Ok (ok, s') /\ registry s' /\
  ok = true /\ agent_ids (_agents s') "b" = [3; 4].
Proof.
  destruct alone_good as (Hr & Hs & _).
  destruct (register_keeps_registry alone event_b (world STATIC) Hr) as [Hspec Hdef].
  - vm_compute. repeat constructor; set_solver.
  - destruct (Hdef event_fits_b Hs) as (ok & s' & Hreg). destruct (Hspec ok s' Hreg) as (Hr' & Hok & Hacc).
    assert (ok = true) as Ht by (rewrite Hok; vm_compute; reflexivity).
    destruct (Hacc Ht) as (_ & Hids & _). exists ok, s'.
    split; [exact Hreg|]. split; [exact Hr'|]. split; [exact Ht|]. exact Hids.
Defined.

Lemma reachable_registry_witness : registry alone.
Proof.
  apply (reachable_registry alone).
  apply (rtc_l _ _ alone); [|apply rtc_refl].
  apply (step_register (world STATIC) init event_a true alone).
  - vm_compute. repeat constructor; set_solver.
  - vm_compute. reflexivity.
Defined.

(** ** Where the code falls short *)

(** The containers of a placement. *)
Definition placed {A} (r : outcome (list Z * A)) : option (list Z) :=
  match r with Ok (l, _) => Some l | _ => None end.

(** A container that is too full hides the containers after it: the first
    container of the agent has no room, the second is empty, and none is found. *)
Definition crowded : t := register init (event "a" [(1, 100, 100); (2, 0, 100)]).

Theorem full_container_blocks :
  placed (findSpareContainers (world STATIC) crowded [] [] 1 10 coding) = Some [] /\
  exists c, c ∈ slots_of (_agents crowded) "a" /\ too_full c ((10 + 2 * 2) / 2) = false.
Proof.
  split; [vm_compute; reflexivity|]. exists (mk_slot 2 0 100 0). split; [|reflexivity].
  vm_compute. right. left.
Qed.

(** With the least-used policy a container can be chosen twice. *)
Definition uneven : t := register init (event "a" [(1, 10, 100); (2, 0, 100); (3, 5, 100)]).

Theorem least_used_chooses_twice :
  placed (findSpareContainers (world POLICY_LU) uneven [2] [true] 2 10
            (CodingMeta.mk RS None 4 2 0 0 0)) = Some [3; 3].
Proof. vm_compute. reflexivity. Qed.

(** The limit per agent does not count the containers in use that come after the
    ones taken: one of the four chunks is on the agent already, at most two may be
    lost, and two more are put there. *)
Theorem limit_ignores_containers_in_use :
  placed (findSpareContainers (world STATIC) uneven [3] [true] 2 10 coding) = Some [1; 2].
Proof. vm_compute. reflexivity. Qed.

(** A status report that lists the containers in another order than the
    registration exchanges their usages: container 2 uses 7 and is recorded with 9. *)
Theorem status_report_order :
  match update_info (mk_info true 0 true 0 [mk_slot 1 0 100 0; mk_slot 2 0 100 0] [] SysInfo.init)
          (event "a" [(2, 7, 100); (1, 9, 100)]) with
  | Ok info => containers info = [mk_slot 1 7 100 0; mk_slot 2 9 100 0]
  | _ => False
  end.
Proof. vm_compute. reflexivity. Qed.

(** A registration that is refused because of its second container has already
    taken the first one from the agent, which had it before. *)
Theorem refused_registration_unmaps :
  match registerAgent (world STATIC) both (event "a" [(1, 0, 100); (3, 0, 100)]) with
  | Ok (ok, s) => ok = false /\ _containerToAgentMap both !! 1 = Some "tcp://a:1" /\
                  _containerToAgentMap s !! 1 = None
  | _ => False
  end.
Proof. vm_compute. auto. Qed.

(** The check of the number of containers does not stop a registration with more
    containers than the arrays hold. *)
Theorem too_many_containers :
  handle_event (world STATIC) init (event "a" (map (fun i => (Z.of_nat i, 0, 100)) (seq 1 17))) = Undef.
Proof. vm_compute. reflexivity. Qed.

(** A registration that lists a container twice removes another container of the agent,
    which stays mapped to it. *)
Theorem repeated_container_breaks :
  match registerAgent (world STATIC) alone (event "a" [(1, 0, 100); (1, 0, 100)]) with
  | Ok (true, s) => agent_ids (_agents s) "a" = [1; 1] /\ _containerToAgentMap s !! 2 = Some (IO.genAddr "a" 1)
  | _ => False
  end.
Proof. vm_compute. auto. Qed.

(** From ten containers on, removing one can move memory beyond the arrays. *)
Theorem remove_beyond_arrays :
  remove_container (map (fun i => mk_slot (Z.of_nat i) 0 100 0) (seq 1 10)) 9 = Undef.
Proof. vm_compute. reflexivity. Qed.
End ProxySample.
