(* ===== verification/File.v ===== *)
(** Files ([src/ds/file.hh], [src/ds/file.cc]): the metadata of an object, where
    its chunks are, and the range an operation works on.

    The name generator of boost is a parameter.  The constructor does not set the
    deletion mark, which is [None] until something is stored there.  The benchmark
    ids, the commit ids of the deduplication module and the memory-mapping flag are
    left out. *)

From S2P Require Import Prelude DS.

(** [boost::uuids::name_generator] over the namespace of the system. *)
Class UuidGenerator := name_uuid : string -> Z.

Definition PATH_MAX_NAME : Z := 4096.

(** [enum FileStatus]. *)
Inductive FileStatus := NONE | BG_TASK_PENDING | PART_BG_TASK_COMPLETED | ALL_BG_TASKS_COMPLETED.

(** [BlockLocation::InObjectLocation]: where a block of the deduplication module
    starts, and its length.  The bytes of a fingerprint are a string. *)
Record InObjectLocation := mk_location { _offset : Z; _length : Z }.

Module File.

(** What is staged of a file. *)
Record staged_info := mk_staged {
  staged_size : Z;                   (* unsigned long int *)
  staged_codingMeta : CodingMeta.t;
  staged_storageClass : string;
  staged_mtime : Z                   (* time_t *)
}.

Record t := mk {
  namespaceId : Z;                   (* unsigned char *)
  uuid : Z;
  name : option string;              (* char *, with nameLength *)
  size : Z;                          (* unsigned long int *)
  version : Z;                       (* int *)
  ctime : Z; atime : Z; mtime : Z; tctime : Z;
  md5 : list Z;
  numStripes : Z;                    (* int *)
  numChunks : Z;                     (* int *)
  containerIds : option (list Z);    (* int * *)
  chunks : option (list Chunk.t);
  chunksCorrupted : option (list bool);
  codingMeta : CodingMeta.t;
  storageClass : string;
  staged : staged_info;
  offset : Z; length : Z;            (* unsigned long int *)
  data : option (list Z);            (* unsigned char * *)
  status : FileStatus;
  isDeleted : option bool;           (* None as long as it is not set *)
  uniqueBlocks : list (InObjectLocation * (string * Z));   (* in the order of the map *)
  duplicateBlocks : list (InObjectLocation * string)
}.

Definition reset : t :=
  mk INVALID_NAMESPACE_ID 0 None 0 (-1) 0 0 0 0 Chunk.zeroMD5 0 0 None None None CodingMeta.reset ""
     (mk_staged INVALID_FILE_OFFSET CodingMeta.reset "" 0) INVALID_FILE_OFFSET INVALID_FILE_LENGTH None
     NONE None [] [].

(** ** Setters of one field *)

Definition set_ids (f : t) (ns u : Z) (nm : option string) : t :=
  mk ns u nm (size f) (version f) (ctime f) (atime f) (mtime f) (tctime f) (md5 f) (numStripes f)
     (numChunks f) (containerIds f) (chunks f) (chunksCorrupted f) (codingMeta f) (storageClass f)
     (staged f) (offset f) (length f) (data f) (status f) (isDeleted f) (uniqueBlocks f)
     (duplicateBlocks f).

Definition set_size (f : t) (n : Z) : t :=
  mk (namespaceId f) (uuid f) (name f) n (version f) (ctime f) (atime f) (mtime f) (tctime f) (md5 f)
     (numStripes f) (numChunks f) (containerIds f) (chunks f) (chunksCorrupted f) (codingMeta f)
     (storageClass f) (staged f) (offset f) (length f) (data f) (status f) (isDeleted f) (uniqueBlocks f)
     (duplicateBlocks f).

Definition setTimeStamps (f : t) (ct mt at_ tct : Z) : t :=
  mk (namespaceId f) (uuid f) (name f) (size f) (version f) ct at_ mt tct (md5 f)
     (numStripes f) (numChunks f) (containerIds f) (chunks f) (chunksCorrupted f) (codingMeta f)
     (storageClass f) (staged f) (offset f) (length f) (data f) (status f) (isDeleted f) (uniqueBlocks f)
     (duplicateBlocks f).

Definition setVersion (f : t) (ver : Z) : t :=
  mk (namespaceId f) (uuid f) (name f) (size f) ver (ctime f) (atime f) (mtime f) (tctime f) (md5 f)
     (numStripes f) (numChunks f) (containerIds f) (chunks f) (chunksCorrupted f) (codingMeta f)
     (storageClass f) (staged f) (offset f) (length f) (data f) (status f) (isDeleted f) (uniqueBlocks f)
     (duplicateBlocks f).

Definition set_md5 (f : t) (m : list Z) : t :=
  mk (namespaceId f) (uuid f) (name f) (size f) (version f) (ctime f) (atime f) (mtime f) (tctime f) m
     (numStripes f) (numChunks f) (containerIds f) (chunks f) (chunksCorrupted f) (codingMeta f)
     (storageClass f) (staged f) (offset f) (length f) (data f) (status f) (isDeleted f) (uniqueBlocks f)
     (duplicateBlocks f).

Definition set_chunk_info (f : t) (num : Z) (ids : option (list Z)) (cs : option (list Chunk.t))
    (bad : option (list bool)) : t :=
  mk (namespaceId f) (uuid f) (name f) (size f) (version f) (ctime f) (atime f) (mtime f) (tctime f)
     (md5 f) (numStripes f) num ids cs bad (codingMeta f) (storageClass f) (staged f) (offset f)
     (length f) (data f) (status f) (isDeleted f) (uniqueBlocks f)
     (duplicateBlocks f).

Definition set_policy (f : t) (m : CodingMeta.t) (sc : string) : t :=
  mk (namespaceId f) (uuid f) (name f) (size f) (version f) (ctime f) (atime f) (mtime f) (tctime f)
     (md5 f) (numStripes f) (numChunks f) (containerIds f) (chunks f) (chunksCorrupted f) m sc
     (staged f) (offset f) (length f) (data f) (status f) (isDeleted f) (uniqueBlocks f)
     (duplicateBlocks f).

Definition set_staged (f : t) (s : staged_info) : t :=
  mk (namespaceId f) (uuid f) (name f) (size f) (version f) (ctime f) (atime f) (mtime f) (tctime f)
     (md5 f) (numStripes f) (numChunks f) (containerIds f) (chunks f) (chunksCorrupted f) (codingMeta f)
     (storageClass f) s (offset f) (length f) (data f) (status f) (isDeleted f) (uniqueBlocks f)
     (duplicateBlocks f).

Definition set_range (f : t) (o l : Z) (d : option (list Z)) : t :=
  mk (namespaceId f) (uuid f) (name f) (size f) (version f) (ctime f) (atime f) (mtime f) (tctime f)
     (md5 f) (numStripes f) (numChunks f) (containerIds f) (chunks f) (chunksCorrupted f) (codingMeta f)
     (storageClass f) (staged f) o l d (status f) (isDeleted f) (uniqueBlocks f)
     (duplicateBlocks f).

Definition set_numStripes (f : t) (n : Z) : t :=
  mk (namespaceId f) (uuid f) (name f) (size f) (version f) (ctime f) (atime f) (mtime f) (tctime f)
     (md5 f) n (numChunks f) (containerIds f) (chunks f) (chunksCorrupted f) (codingMeta f)
     (storageClass f) (staged f) (offset f) (length f) (data f) (status f) (isDeleted f) (uniqueBlocks f)
     (duplicateBlocks f).

Definition set_status (f : t) (s : FileStatus) : t :=
  mk (namespaceId f) (uuid f) (name f) (size f) (version f) (ctime f) (atime f) (mtime f) (tctime f)
     (md5 f) (numStripes f) (numChunks f) (containerIds f) (chunks f) (chunksCorrupted f) (codingMeta f)
     (storageClass f) (staged f) (offset f) (length f) (data f) s (isDeleted f) (uniqueBlocks f) (duplicateBlocks f).

Definition set_isDeleted (f : t) (b : bool) : t :=
  mk (namespaceId f) (uuid f) (name f) (size f) (version f) (ctime f) (atime f) (mtime f) (tctime f)
     (md5 f) (numStripes f) (numChunks f) (containerIds f) (chunks f) (chunksCorrupted f) (codingMeta f)
     (storageClass f) (staged f) (offset f) (length f) (data f) (status f) (Some b) (uniqueBlocks f)
     (duplicateBlocks f).

Definition set_blocks (f : t) (u : list (InObjectLocation * (string * Z))) (d : list (InObjectLocation * string)) : t :=
  mk (namespaceId f) (uuid f) (name f) (size f) (version f) (ctime f) (atime f) (mtime f) (tctime f)
     (md5 f) (numStripes f) (numChunks f) (containerIds f) (chunks f) (chunksCorrupted f) (codingMeta f)
     (storageClass f) (staged f) (offset f) (length f) (data f) (status f) (isDeleted f) u d.

(** ** Operations *)

Section ops.
Context `{UuidGenerator}.

(** A name that is empty or too long is refused. *)
Definition setName (f : t) (fn : string) : bool * t :=
  let nlen := Z.of_nat (String.length fn) in
  if (nlen <=? 0) || (PATH_MAX_NAME <? nlen) then (false, f)
  else (true, set_ids f (namespaceId f) (uuid f) (Some fn)).

Definition genUUID (f : t) : t :=
  set_ids f (namespaceId f) (name_uuid (default "" (name f))) (name f).

Definition setStagedInfo (f : t) (sz : Z) (m : CodingMeta.t) (sc : string) (ts : Z) : t :=
  set_staged f (mk_staged sz (snd (CodingMeta.copyMeta (staged_codingMeta (staged f)) m false)) sc ts).

Definition copyName (f src : t) : t := genUUID (set_ids f (namespaceId src) (uuid f) (name src)).

Definition copySize (f src : t) : t := set_size f (size src).

Definition copyTimeStamps (f src : t) : t :=
  setTimeStamps f (ctime src) (mtime src) (atime src) (tctime src).

Definition copyFileChecksum (f src : t) : t := set_md5 f (md5 src).

Definition copyVersionControlInfo (f src : t) : t := setVersion f (version src).

Definition copyStoragePolicy (f src : t) : t :=
  set_policy f (snd (CodingMeta.copyMeta (codingMeta f) (codingMeta src) true)) (storageClass src).

(** Allocates the arrays for [num] chunks, or for the stated number when it is
    -1.  A negative number is refused. *)
Definition initChunksAndContainerIds (f : t) (num : Z) : bool * t :=
  let num := if num =? -1 then numChunks f else num in
  if num <? 0 then (false, f)
  else
    let n := Z.to_nat num in
    let some {A} (l : list A) := if 0 <? num then Some l else None in
    (true, set_chunk_info f num (some (replicate n 0)) (some (replicate n Chunk.reset))
             (some (replicate n false))).

(** Each chunk of a deep copy has the metadata of the original. *)
Definition copyChunkInfo (f src : t) (shadow : bool) : t :=
  if shadow then
    set_chunk_info f (numChunks src) (containerIds src) (chunks src) (chunksCorrupted src)
  else
    let (ok, f) := initChunksAndContainerIds f (numChunks src) in
    if 0 <? numChunks src then
      let n := Z.to_nat (numChunks src) in
      set_chunk_info f (numChunks src) (take n <$> containerIds src)
        ((fun cs => map (fun c => Chunk.copyMeta Chunk.reset c true) (take n cs)) <$> chunks src)
        (take n <$> chunksCorrupted src)
    else set_chunk_info f (numChunks src) (containerIds f) (chunks f) (chunksCorrupted f).

Definition copyStagedInfo (f src : t) : t := set_staged f (staged src).

Definition copyOperationDataRange (f src : t) : t := set_range f (offset src) (length src) (data f).

Definition copyNameAndSize (f src : t) : bool * t :=
  (true, copyFileChecksum (copyTimeStamps (copySize (copyName f src) src) src) src).

Definition copyAllMeta (f src : t) : bool * t :=
  let f := copyFileChecksum (copySize (copyName f src) src) src in
  let f := copyVersionControlInfo (copyTimeStamps f src) src in
  let f := copyStoragePolicy (copyChunkInfo f src false) src in
  let f := set_policy f (snd (CodingMeta.copyMeta (codingMeta f) (codingMeta src) false)) (storageClass f) in
  (true, copyOperationDataRange (copyStagedInfo f src) src).

Definition resetStagingStoragePolicy (f : t) : t :=
  let s := staged f in set_staged f (mk_staged (staged_size s) CodingMeta.reset "" (staged_mtime s)).

End ops.
End File.
