(* ===== verification/ChunkManager.v ===== *)
(** The chunk manager of the proxy ([src/proxy/chunk_manager.cc]): files are cut
    into stripes, a stripe is encoded into chunks, and the chunks are written to,
    read from, checked on, removed from and repaired at the agents.

    The only code of the system is Reed-Solomon with one chunk per node, so the
    node-based loops of the source are loops over chunks.  The agents are a
    function that answers a request, given its event id and the address it goes
    to; requests that are sent in parallel have distinct ids.  Benchmarking,
    logging and the disabled journal are not modelled. *)

From stdpp Require Import pretty.
From S2P Require Import Prelude DS Isal RSCode File.

#[local] Open Scope outcome_scope.

#[export] Instance event_inhabited : Inhabited ChunkEvent.t := populate ChunkEvent.reset.

Module StorageClass.
Section class.
Context `{Isal}.

Record t := mk {
  _name : string;
  _codingMeta : CodingMeta.t;
  _codingInstance : RSCode.t
}.

(** The parameters of the code are those of the instance. *)
Definition init (name : string) (f maxChunkSize coding : Z) (code : RSCode.t) : t :=
  mk name (CodingMeta.init coding (Z.of_nat (RSCode.n code)) (Z.of_nat (RSCode.k code)) maxChunkSize f)
    code.

End class.
End StorageClass.

Module ChunkManager.
Section manager.
Context `{Isal, Md5}.

Record t := mk {
  _storageClasses : gmap string StorageClass.t;
  _codings : gmap string (option RSCode.t);   (* a null pointer is None *)
  _containerToAgentMap : gmap Z string;
  _eventCount : Z;                            (* std::atomic<int> *)
  _sent : list ChunkEvent.t                   (* ghost: the requests given to the I/O so far *)
}.

(** The configuration, the allocator, the local arrays and the agents. *)
Record world := mk_world {
  default_options : CodingOptions.t;
  verifyChunkChecksum : bool;
  ackRedundancyInBackground : bool;
  writeRedundancyInBackground : bool;
  default_n : nat;                            (* n of the default storage class *)
  mem : nat -> option (list Z);               (* the blocks for the chunks of a stripe *)
  malloc : nat -> option (list Z);            (* the block for a buffer, by its size *)
  local : list Z;                             (* uninitialised arrays of a code *)
  net : Z -> string -> ChunkEvent.t -> option ChunkEvent.t
}.

(** The requests [reqs] are sent; [ids] event ids were drawn for them. *)
Definition issue (m : t) (ids : nat) (reqs : list ChunkEvent.t) : t :=
  mk (_storageClasses m) (_codings m) (_containerToAgentMap m) (i32 (_eventCount m + Z.of_nat ids))
     (_sent m ++ reqs).

(** The [j]-th event id drawn from now on. *)
Definition event_id (m : t) (j : nat) : Z := u32 (_eventCount m + Z.of_nat j).

Context (w : world).
Implicit Types m : t.

(** ** Coding instances *)

Definition isValidCoding (coding : Z) : bool := (0 <=? coding) && (coding <? UNKNOWN_CODE).

(** [Fail] is [std::invalid_argument]. *)
Definition genCodingInstanceKey (codingScheme n k : Z) : outcome string :=
  if isValidCoding codingScheme then Ok ("RS" +:+ "_" +:+ pretty n +:+ "_" +:+ pretty k) else Fail.

(** The options for a code: the setters take one byte and refuse 0. *)
Definition options_for (n k : Z) : CodingOptions.t :=
  snd (CodingOptions.setK (snd (CodingOptions.setN (default_options w) (u8 n))) (u8 k)).

(** The factory: [None] for a null pointer. *)
Definition make_coding (codingScheme : Z) (o : CodingOptions.t) : outcome (option RSCode.t) :=
  match genCoding codingScheme o with
  | Undef => Undef
  | Fail => Ok None
  | Ok rs => Ok (Some rs)
  end.

Definition getCodingInstance m (codingScheme n k : Z) : outcome (option RSCode.t * t) :=
  if negb (isValidCoding codingScheme) then Ok (None, m)
  else
    let* key := genCodingInstanceKey codingScheme n k in
    match _codings m !! key with
    | Some code => Ok (code, m)
    | None =>
        let* code := make_coding codingScheme (options_for n k) in
        Ok (code, mk (_storageClasses m) (<[key := code]> (_codings m)) (_containerToAgentMap m)
                    (_eventCount m) (_sent m))
    end.

Definition class_instance m (className : string) : option RSCode.t :=
  StorageClass._codingInstance <$> _storageClasses m !! className.

Definition getCodingScheme m (className : string) : Z :=
  match _storageClasses m !! className with
  | Some sc => CodingMeta.coding (StorageClass._codingMeta sc)
  | None => UNKNOWN_CODE
  end.

(** One storage class of the constructor: name, n, k, f, maximum chunk size and
    scheme.  A null instance is dereferenced. *)
Definition add_class (m : t) (c : string * Z * Z * Z * Z * Z) : outcome t :=
  let '(name, n, k, f, maxChunkSize, coding) := c in
  let o := options_for n k in
  let* code := make_coding coding o in
  let* key := genCodingInstanceKey coding (CodingOptions.n o) (CodingOptions.k o) in
  let codings := match _codings m !! key with
                 | Some _ => _codings m
                 | None => <[key := code]> (_codings m)
                 end in
  let* code := access code in
  let sc := StorageClass.init name f maxChunkSize coding code in
  Ok (mk (match _storageClasses m !! name with
          | Some _ => _storageClasses m
          | None => <[name := sc]> (_storageClasses m)
          end) codings (_containerToAgentMap m) (_eventCount m) (_sent m)).

Fixpoint init (m : t) (classes : list (string * Z * Z * Z * Z * Z)) : outcome t :=
  match classes with
  | [] => Ok m
  | c :: classes => let* m := add_class m c in init m classes
  end.

Definition setCodingMeta m (className : string) (cm : CodingMeta.t) : bool * CodingMeta.t :=
  match _storageClasses m !! className with
  | Some sc => (true, snd (CodingMeta.copyMeta cm (StorageClass._codingMeta sc) true))
  | None => (false, cm)
  end.

(** ** Sizes *)

Definition required_containers (rs : RSCode.t) : nat :=
  if RSCode.storeCodeChunksOnly rs then RSCode.getNumCodeChunks rs / RSCode.getNumChunksPerNode rs
  else (RSCode.getNumDataChunks rs + RSCode.getNumCodeChunks rs) / RSCode.getNumChunksPerNode rs.

Definition getNumRequiredContainers m (className : string) : Z :=
  match class_instance m className with Some rs => Z.of_nat (required_containers rs) | None => -1 end.

Definition getMinNumRequiredContainers m (className : string) : Z :=
  match class_instance m className with
  | Some rs => Z.of_nat (RSCode.getNumDataChunks rs / RSCode.getNumChunksPerNode rs)
  | None => -1
  end.

Definition getNumChunksPerContainer m (className : string) : Z :=
  match class_instance m className with
  | Some rs => Z.of_nat (RSCode.getNumChunksPerNode rs)
  | None => -1
  end.

(** The same for the parameters of a code. *)
Definition coding_required_containers m (codingScheme n k : Z) : outcome (Z * t) :=
  let* (code, m) := getCodingInstance m codingScheme n k in
  Ok (match code with Some rs => Z.of_nat (required_containers rs) | None => -1 end, m).

Definition coding_chunks_per_container m (codingScheme n k : Z) : outcome (Z * t) :=
  let* (code, m) := getCodingInstance m codingScheme n k in
  Ok (match code with Some rs => Z.of_nat (RSCode.getNumChunksPerNode rs) | None => -1 end, m).

Definition willModifyDataBuffer m (className : string) : bool :=
  default false (RSCode.modifyDataBuffer <$> class_instance m className).

Definition getPerStripeExtraDataSize m (className : string) : Z :=
  default 0 (RSCode.getExtraDataSize <$> class_instance m className).

(** [while (getChunkSize(size) * numChunksPerNode > chunkSize) size--;]  The
    argument of [getChunkSize] is converted to 32 bits. *)
Fixpoint shrink (rs : RSCode.t) (chunkSize size : Z) (fuel : nat) : option Z :=
  match fuel with
  | O => None
  | S fuel =>
      if u32 chunkSize <? u32 (RSCode.getChunkSize rs (u32 size) * Z.of_nat (RSCode.getNumChunksPerNode rs))
      then shrink rs chunkSize (u64 (size - 1)) fuel
      else Some size
  end.

(** The size is computed in 32 bits.  One test of the loop condition is enough
    (lemma [shrink_stops]). *)
Definition max_stripe_size (rs : RSCode.t) (chunkSize : Z) : outcome Z :=
  let size := u32 (Z.quot chunkSize (Z.of_nat (RSCode.getNumChunksPerNode rs))
                   * Z.of_nat (RSCode.getNumDataChunks rs) - RSCode.getExtraDataSize rs) in
  access (shrink rs chunkSize size 1).

Definition getMaxDataSizePerStripe m (codingScheme n k chunkSize : Z) (isFullChunkSize : bool)
    : outcome (Z * t) :=
  let* (code, m) := getCodingInstance m codingScheme n k in
  match code with
  | None => Ok (INVALID_FILE_OFFSET, m)
  | Some rs =>
      let per := if isFullChunkSize then 1 else Z.of_nat (RSCode.getNumChunksPerNode rs) in
      let* size := max_stripe_size rs (i32 (chunkSize * per)) in
      Ok (size, m)
  end.

Definition class_stripe_size m (storageClass : string) : outcome Z :=
  match class_instance m storageClass with
  | None => Ok INVALID_FILE_OFFSET
  | Some rs =>
      max_stripe_size rs (CodingMeta.maxChunkSize (snd (setCodingMeta m storageClass CodingMeta.reset)))
  end.

Definition getDataStripeSize m (codingScheme n k size : Z) : outcome (Z * t) :=
  let* (code, m) := getCodingInstance m codingScheme n k in
  Ok (match code with
      | None => INVALID_FILE_OFFSET
      | Some rs => u64 (i32 (RSCode.getChunkSize rs (u32 size)) * Z.of_nat (RSCode.getNumDataChunks rs))
      end, m).

(** ** Talking to the agents *)

(** [ProxyIO::sendChunkRequestToAgent]: a request goes to the agent of its first
    container; [None] when the container has no agent,
    or the request or its reply is lost. *)
Definition send m (r : ChunkEvent.t) : option ChunkEvent.t :=
  match _containerToAgentMap m !! (default [] (ChunkEvent.containerIds r) !!! 0%nat) with
  | Some addr => net w (ChunkEvent.id r) addr r
  | None => None
  end.

(** A request for one chunk; the data stays with its owner. *)
Definition chunk_request (id : Z) (op : Opcode) (c : Chunk.t) (containerId : Z) : ChunkEvent.t :=
  ChunkEvent.mk id op 1 (Some [containerId]) [Chunk.set_freeData c false] CodingMeta.reset
    false 0 0 [] [] "" zero_tag zero_tag zero_tag.

(** The reply to a request about chunk [c], when it is the expected one; a chunk
    that was read must have the size and, if checked, the checksum of [c]. *)
Definition check_reply (reqOp expectedOpRep : Opcode) (c : Chunk.t) (rep : option ChunkEvent.t)
    : option ChunkEvent.t :=
  match rep with
  | Some r =>
      if bool_decide (ChunkEvent.opcode r = expectedOpRep) then
        match reqOp with
        | GET_CHUNK_REQ =>
            let rc := ChunkEvent.chunks r !!! 0%nat in
            let rc := if verifyChunkChecksum w then Chunk.copyMD5 rc c else rc in
            if (negb (verifyChunkChecksum w) || Chunk.verifyMD5 rc) && (Chunk.size c =? Chunk.size rc)
            then Some (ChunkEvent.set_chunks r (ChunkEvent.numChunks r)
                         (<[0%nat := rc]> (ChunkEvent.chunks r)))
            else None
        | _ => Some r
        end
      else None
  | None => None
  end.

(** The state of [accessChunks]. *)
Record access_state := mk_access {
  indices : list nat;                (* chunkIndices *)
  isize : nat;                       (* chunkIndicesSize *)
  got : nat;                         (* numSuccess *)
  replies : list (option ChunkEvent.t);
  allsuccess : bool;
  indicator : list bool;             (* chunkIndicator *)
  ind_idx : nat                      (* chunkIndicatorIdx *)
}.

Section access.
Context (ids : list Z) (cs : list Chunk.t) (numChunks : nat) (reqOp expectedOpRep : Opcode).
Context (useIdx marks : bool).

Definition chunk_at (st : access_state) (i : nat) : nat := if useIdx then indices st !!! i else i.

(** [chunkIndicator[chunkIndicatorIdx++] = b], when there is an indicator and no
    chunk to spare. *)
Definition mark (st : access_state) (b : bool) : list bool * nat :=
  if marks && (isize st <=? numChunks)%nat
  then (<[ind_idx st := b]> (indicator st), (ind_idx st + 1)%nat) else (indicator st, ind_idx st).

(** The check of the replies from [i] on, [fuel] of them.  After a failure the
    index, the request and the reply are moved behind the ones not yet checked. *)
Fixpoint check_replies (fuel i : nat) (st : access_state) : access_state :=
  match fuel with
  | O => st
  | Datatypes.S fuel =>
      match check_reply reqOp expectedOpRep (cs !!! chunk_at st i) (replies st !!! i) with
      | None =>
          let (ind, ii) := mark st false in
          let others := delete i (replies st) in
          check_replies fuel i
            (mk_access (if useIdx && (i + 1 <? isize st)%nat then delete i (indices st) else indices st)
               (isize st - 1) (got st) (take (i + fuel) others ++ None :: drop (i + fuel) others)
               false ind ii)
      | Some r =>
          let (ind, ii) := mark st true in
          check_replies fuel (i + 1)
            (mk_access (indices st) (isize st) (got st + 1) (<[i := Some r]> (replies st))
               (allsuccess st) ind ii)
      end
  end.

(** The requests for the chunks still missing. *)
Definition access_requests m (st : access_state) : list ChunkEvent.t :=
  map (fun j => let x := chunk_at st (got st + j) in
                chunk_request (event_id m j) reqOp (cs !!! x) (ids !!! x))
      (seq 0 (numChunks - got st)).

(** One round: the requests, and the check of their replies. *)
Definition access_round m (st : access_state) : access_state * t :=
  let reqs := access_requests m st in
  (check_replies (numChunks - got st) (got st)
     (mk_access (indices st) (isize st) (got st) (take (got st) (replies st) ++ map (send m) reqs)
        true (indicator st) 0),
   issue m (length reqs) reqs).

(** The rounds; only reads are retried. *)
Fixpoint access_rounds (fuel : nat) m (st : access_state) : option (access_state * t) :=
  match fuel with
  | O => None
  | Datatypes.S fuel =>
      if (got st <? numChunks)%nat && (numChunks <=? isize st)%nat then
        let (st, m) := access_round m st in
        if bool_decide (reqOp = GET_CHUNK_REQ) then access_rounds fuel m st else Some (st, m)
      else Some (st, m)
  end.
End access.

(** [accessChunks] on the chunks [cs] in the containers [ids]: the first
    [numChunks] of the chunks with the given indices, or of all chunks.  Returns
    the verdict, the replies, the indices and the indicator.  An index outside
    the arrays is undefined. *)
Definition accessChunks m (ids : list Z) (cs : list Chunk.t) (numChunks : nat)
    (reqOp expectedOpRep : Opcode) (chunkIndices : option (list nat)) (ind : option (list bool))
    : outcome (bool * list (option ChunkEvent.t) * list nat * list bool * t) :=
  let idx := default [] chunkIndices in
  let useIdx := bool_decide (is_Some chunkIndices) in
  let room := (length ids `min` length cs)%nat in
  let* _ := access (if if useIdx then forallb (fun x => x <? room)%nat idx else (numChunks <=? room)%nat
                    then Some tt else None) in
  let st := mk_access idx (if useIdx then length idx else numChunks) 0 [] false (default [] ind) 0 in
  match access_rounds ids cs numChunks reqOp expectedOpRep useIdx (bool_decide (is_Some ind))
          (isize st + 2) m st with
  | Some (st, m) => Ok (allsuccess st, replies st, indices st, indicator st, m)
  | None => Undef
  end.

(** ** Reading *)

Definition file_instance m (f : File.t) : outcome (option RSCode.t * t) :=
  let cm := File.codingMeta f in
  getCodingInstance m (CodingMeta.coding cm) (CodingMeta.n cm) (CodingMeta.k cm).

Definition file_chunks (f : File.t) : list Chunk.t := default [] (File.chunks f).
Definition file_ids (f : File.t) : list Z := default [] (File.containerIds f).

(** The chunk of a reply as an input of the decoder. *)
Definition input_chunk (rs : RSCode.t) (rep : option ChunkEvent.t) : Chunk.t :=
  let c := fst (Chunk.move Chunk.reset (ChunkEvent.chunks (default ChunkEvent.reset rep) !!! 0%nat)) in
  Chunk.setChunkId c (Z.modulo (u32 (Chunk.chunkId c)) (Z.of_nat (RSCode.getNumChunks rs))).

(** The buffer the data goes to: that of the file, or a new one. *)
Definition read_buffer (rs : RSCode.t) (f : File.t) : option (list Z) :=
  match File.data f with
  | Some d => Some d
  | None => malloc w (Z.to_nat (u32 (RSCode.getChunkSize rs (u32 (File.size f))
                                     * Z.of_nat (RSCode.getNumDataChunks rs))))
  end.

(** [decodeFile] on the first [k] replies; [first] is the chunk of the first
    request.  The code writes to the buffer. *)
Definition decodeFile m (f : File.t) (first : Chunk.t) (reps : list (option ChunkEvent.t))
    : outcome (bool * File.t * t) :=
  let* (code, m) := file_instance m f in
  match code with
  | None => Ok (false, f, m)
  | Some rs =>
      let chunkSize := Chunk.size first in
      let k := RSCode.getNumDataChunks rs in
      match read_buffer rs f with
      | None => Ok (false, f, m)
      | Some d =>
          let inputs := map (input_chunk rs) (take k reps) in
          if forallb (fun c => chunkSize =? Chunk.size c) inputs then
            let len := u32 (Z.of_nat k * u32 chunkSize) in
            match RSCode.decode rs (local w) (Some (length d)) true inputs false [] with
            | Undef => Undef
            | Fail => Ok (false, File.set_range f (File.offset f) len (Some d), m)
            | Ok (out, len) =>
                Ok (true, File.set_range f (File.offset f) len (Some (list_inserts 0 out d)), m)
            end
          else Ok (false, File.set_range f (File.offset f) (File.length f) (Some d), m)
      end
  end.

(** The chunks the indicator marks as lost. *)
Definition failed_chunks (f : File.t) (ind : list bool) : list nat :=
  filter (fun i => ind !! i <> Some true) (seq 0 (Z.to_nat (File.numChunks f))).

(** [readFile] with decoding. *)
Definition readFileStripe m (f : File.t) (chunkIndicator : list bool) : outcome (bool * File.t * t) :=
  let* (code, m) := file_instance m f in
  match code with
  | None => Ok (false, f, m)
  | Some rs =>
      let (decodable, plan) := RSCode.preDecode rs (local w) (local w) true (failed_chunks f chunkIndicator)
                                 (DecodingPlan.init 0) false in
      let selected := DecodingPlan.getNumInputChunks plan in
      (* nodeIndices has numChunks entries *)
      let* _ := access (if Z.of_nat selected <=? File.numChunks f then Some tt else None) in
      if (selected <? RSCode.getNumDataChunks rs)%nat || negb decodable then Ok (false, f, m)
      else
        let* (ok, reps, idx, _, m) :=
          accessChunks m (file_ids f) (file_chunks f) (DecodingPlan.minNumChunksToRetrieve plan)
            GET_CHUNK_REQ GET_CHUNK_REP_SUCCESS (Some (DecodingPlan.inputChunkIds plan)) None in
        if ok then decodeFile m f (file_chunks f !!! (idx !!! 0%nat)) reps else Ok (false, f, m)
  end.

(** ** Operations on the chunks that are alive *)

Fixpoint batches (fuel size : nat) (l : list nat) : list (list nat) :=
  match fuel with
  | O => []
  | Datatypes.S fuel => match l with [] => [] | _ => take size l :: batches fuel size (drop size l) end
  end.

(** The requests are sent in batches of the default [n]; with a default of 0 the
    loop does not advance. *)
Fixpoint operate_batches m (f : File.t) (reqOp expectedOpRep : Opcode) (bs : list (list nat)) (okay : bool)
    : outcome (bool * t) :=
  match bs with
  | [] => Ok (okay, m)
  | b :: bs =>
      let* (ok, _, _, _, m) := accessChunks m (file_ids f) (file_chunks f) (length b) reqOp expectedOpRep
                                 (Some b) None in
      operate_batches m f reqOp expectedOpRep bs (okay && ok)
  end.

(** The chunks to operate on: all of them without an indicator. *)
Definition alive_chunks (f : File.t) (chunkIndicator : option (list bool)) : list nat :=
  filter (fun i => default true ((fun ind => bool_decide (ind !! i = Some true)) <$> chunkIndicator) = true)
    (seq 0 (Z.to_nat (File.numChunks f))).

Definition operateOnAliveChunks m (f : File.t) (chunkIndicator : option (list bool))
    (reqOp expectedOpRep : Opcode) : outcome (bool * t) :=
  if File.numChunks f <? 0 then Ok (false, m)
  else if File.numChunks f =? 0 then Ok (true, m)
  else
    let* (_, m) := file_instance m f in
    let alive := alive_chunks f chunkIndicator in
    let* _ := access (if (0 <? default_n w)%nat || bool_decide (alive = []) then Some tt else None) in
    operate_batches m f reqOp expectedOpRep (batches (length alive) (default_n w) alive) true.

Definition deleteFile m (f : File.t) (chunkIndicator : option (list bool)) : outcome (bool * t) :=
  operateOnAliveChunks m f chunkIndicator DEL_CHUNK_REQ DEL_CHUNK_REP_SUCCESS.

Definition revertFile m (f : File.t) (chunkIndicator : option (list bool)) : outcome (bool * t) :=
  operateOnAliveChunks m f chunkIndicator RVT_CHUNK_REQ RVT_CHUNK_REP_SUCCESS.

(** ** Checks *)

(** [checkFile] returns its number and the indicator. *)
Definition checkFile m (f : File.t) (chunkIndicator : list bool) : outcome (Z * list bool * t) :=
  let* (code, m) := file_instance m f in
  match code with
  | None => Ok (0, chunkIndicator, m)
  | Some _ =>
      let num := Z.to_nat (File.numChunks f) in
      let* (ok, _, _, ind, m) := accessChunks m (file_ids f) (file_chunks f) num CHK_CHUNK_REQ
                                   CHK_CHUNK_REP_SUCCESS None (Some chunkIndicator) in
      Ok (if ok then 0 else Z.of_nat (length (filter (fun b => b = true) (take num ind))), ind, m)
  end.

(** The chunks of a file that a reply names, in order. *)
Fixpoint mark_corrupted `{UuidPrinter} (cs bad : list Chunk.t) : list bool :=
  match cs with
  | [] => []
  | c :: cs =>
      match bad with
      | b :: bad' =>
          if bool_decide (Chunk.getChunkName c = Chunk.getChunkName b)
          then true :: mark_corrupted cs bad' else false :: mark_corrupted cs bad
      | [] => false :: mark_corrupted cs []
      end
  end.

(** One request for all chunks, which are in the first container. *)
Definition verify_request m (f : File.t) (first : Z) : ChunkEvent.t :=
  let num := Z.to_nat (File.numChunks f) in
  ChunkEvent.mk (event_id m 0) VRF_CHUNK_REQ (File.numChunks f) (Some (replicate num first))
    (map (fun c => Chunk.set_freeData c false) (take num (file_chunks f))) CodingMeta.reset false 0 0
    [] [] "" zero_tag zero_tag zero_tag.

Definition verifyFileChecksums `{UuidPrinter} m (f : File.t) : outcome (Z * list bool * t) :=
  let num := Z.to_nat (File.numChunks f) in
  let cs := take num (file_chunks f) in
  let* first := access (file_ids f !! 0%nat) in
  let* _ := access (if (num <=? length (file_chunks f))%nat then Some tt else None) in
  let r := verify_request m f first in
  let m' := issue m 1 [r] in
  match send m r with
  | Some rep =>
      if bool_decide (ChunkEvent.opcode rep = VRF_CHUNK_REP_SUCCESS) then
        Ok (ChunkEvent.numChunks rep,
            mark_corrupted cs (take (Z.to_nat (ChunkEvent.numChunks rep)) (ChunkEvent.chunks rep)), m')
      else Ok (-1, replicate num false, m')
  | None => Ok (-1, replicate num false, m')
  end.

(** ** Writing *)

(** The data, extended with zeros to full chunks when [alignDataBuf] asks for it. *)
Definition align_data (rs : RSCode.t) (f : File.t) (alignDataBuf : bool) : outcome (option (list Z)) :=
  let chunkSize := i32 (RSCode.getChunkSize rs (u32 (File.length f))) in
  let full := u32 (chunkSize * Z.of_nat (RSCode.getNumDataChunks rs)) in
  if alignDataBuf && (File.length f <? full) then
    let* d := access (block_read (default [] (File.data f)) 0 (Z.to_nat (File.length f))) in
    Ok (match malloc w (Z.to_nat full) with
        | None => None
        | Some _ => Some (d ++ replicate (Z.to_nat (full - File.length f)) 0)
        end)
  else Ok (Some (default [] (File.data f))).

(** Chunk [i] of the stripe as a chunk of the file. *)
Definition place_chunk (f : File.t) (chunkIdOffset : Z) (i : nat) (c : Chunk.t) : Chunk.t :=
  let c := fst (Chunk.move Chunk.reset c) in
  let c := Chunk.setId c (File.namespaceId f) (File.uuid f) (i32 (Z.of_nat i + chunkIdOffset)) in
  Chunk.set_fileVersion c (File.version f).

(** [encodeFile] with a code buffer of the caller. *)
Definition encodeFile m (f : File.t) (alignDataBuf : bool) : outcome (bool * File.t * t) :=
  let* (code, m) := file_instance m f in
  match code with
  | None => Ok (false, f, m)
  | Some rs =>
      let* d := align_data rs f alignDataBuf in
      match d with
      | None => Ok (false, f, m)
      | Some d =>
          let cm := File.codingMeta f in
          let cm := CodingMeta.mk (CodingMeta.coding cm) (CodingMeta.codingState cm) (CodingMeta.n cm)
                      (CodingMeta.k cm) (CodingMeta.f cm) (RSCode.getCodingStateSize rs)
                      (CodingMeta.maxChunkSize cm) in
          let f := File.set_policy (File.set_range f (File.offset f) (File.length f) (Some d)) cm
                     (File.storageClass f) in
          match RSCode.encode rs (mem w) d (u32 (File.length f)) with
          | Undef => Undef
          | Fail => Ok (false, f, m)
          | Ok stripe =>
              let* (max, m) := getMaxDataSizePerStripe m (CodingMeta.coding cm) (Z.of_nat (RSCode.n rs))
                                 (Z.of_nat (RSCode.k rs)) (CodingMeta.maxChunkSize cm) true in
              let* _ := access (if max =? 0 then None else Some tt) in
              let off := i32 (u64 (File.offset f / max * Z.of_nat (length stripe))) in
              Ok (true, File.set_chunk_info f (Z.of_nat (length stripe)) (File.containerIds f)
                          (Some (imap (place_chunk f off) stripe)) (File.chunksCorrupted f), m)
          end
      end
  end.

(** The state of the loop over the replies. *)
Record write_state := mk_write {
  wgot : nat;                        (* numSuccess *)
  wbg : Z;                           (* numBgReqs *)
  wall : bool;                       (* allsuccess *)
  wids : list Z;                     (* file.containerIds *)
  wchunks : list Chunk.t;            (* file.chunks *)
  wind : list bool;                  (* chunkIndicator *)
  wman : t
}.

Section write.
Context (numDataChunks numFgReqs : nat) (spare : list Z) (reqs : list ChunkEvent.t).

(** A chunk in the background, or acknowledged in the foreground, or refused. *)
Definition record_reply (i : nat) (r : ChunkEvent.t) (st : write_state) : write_state :=
  let cid := spare !!! i in
  let c := wchunks st !!! i in
  let rc := ChunkEvent.chunks r !!! 0%nat in
  let stored := bool_decide (ChunkEvent.opcode r = PUT_CHUNK_REP_SUCCESS) in
  let passed := negb (verifyChunkChecksum w) || stored && bool_decide (Chunk.md5 c = Chunk.md5 rc) in
  let background := Z.of_nat (length spare) - wbg st <=? Z.of_nat i in
  let ind := <[i := background || stored]> (wind st) in
  if background then
    mk_write (wgot st) (wbg st) (wall st) (<[i := cid]> (wids st)) (wchunks st) ind (wman st)
  else if stored && passed then
    mk_write (wgot st + 1) (wbg st) (wall st)
      (<[i := default [] (ChunkEvent.containerIds r) !!! 0%nat]> (wids st))
      (<[i := Chunk.set_chunkVersion c (Chunk.chunkVersion rc)]> (wchunks st)) ind (wman st)
  else
    mk_write (wgot st) (wbg st) (wall st && (cid =? INVALID_CONTAINER_ID))
      (<[i := INVALID_CONTAINER_ID]> (wids st)) (wchunks st) ind (wman st).

(** Iteration [i] of the loop over the replies.  The reply of a request that is
    not waited for is not there yet; to wait for a request that was not sent is
    undefined. *)
Definition write_step (i : nat) (st : write_state) : outcome write_state :=
  if (i <? length spare)%nat then
    let r := reqs !!! i in
    if (wgot st <? numDataChunks)%nat || (i <? numFgReqs)%nat then
      let bg := if (numDataChunks <? i)%nat then wbg st - 1 else wbg st in
      let late := writeRedundancyInBackground w && (numFgReqs <? i)%nat in
      let* _ := access (if writeRedundancyInBackground w && (numFgReqs =? i)%nat
                        then None else Some tt) in
      let st := mk_write (wgot st) bg (wall st) (wids st) (wchunks st) (wind st)
                  (issue (wman st) 0 (if late then [r] else [])) in
      match send (wman st) r with
      | None =>
          let lost := spare !!! i =? INVALID_CONTAINER_ID in
          Ok (mk_write (wgot st) bg (wall st && lost)
                (if lost then wids st else <[i := INVALID_CONTAINER_ID]> (wids st)) (wchunks st)
                (wind st) (wman st))
      | Some rep => Ok (record_reply i rep st)
      end
    else Ok (record_reply i ChunkEvent.reset st)
  else
    Ok (mk_write (wgot st) (wbg st) (wall st) (<[i := INVALID_CONTAINER_ID]> (wids st)) (wchunks st)
          (<[i := false]> (wind st)) (wman st)).
End write.

(** The requests of [writeFileStripe]. *)
Definition put_request m (spare : list Z) (j : nat) (c : Chunk.t) : ChunkEvent.t :=
  chunk_request (event_id m j) PUT_CHUNK_REQ c (default INVALID_CONTAINER_ID (spare !! j)).

(** [writeFileStripe] after the encoding: the verdict, the file and the number of
    requests left to the background. *)
Definition write_chunks m (rs : RSCode.t) (f : File.t) (spare : list Z) (isOverwrite : bool)
    : outcome (bool * File.t * Z * t) :=
  let k := RSCode.getNumDataChunks rs in
  let numReqs := required_containers rs in
  let numFg := if ackRedundancyInBackground w then k else numReqs in
  let* _ := access (if (numReqs <=? length (file_chunks f))%nat then Some tt else None) in
  let cs := imap (fun i c => if (i <? numReqs)%nat then snd (Chunk.computeMD5 c) else c) (file_chunks f) in
  let reqs := imap (put_request m spare) (take numReqs cs) in
  let sent := take (if writeRedundancyInBackground w then numFg `min` length spare else length spare) reqs in
  let numAll := (RSCode.getNumDataChunks rs + RSCode.getNumCodeChunks rs)%nat in
  let* st := for_outcome (write_step k numFg spare reqs) 0 numReqs
               (mk_write 0 (Z.of_nat (length spare) - Z.of_nat numFg) true
                  (replicate numAll INVALID_CONTAINER_ID) cs (replicate numAll false)
                  (issue m numReqs sent)) in
  let f := File.set_chunk_info f (File.numChunks f) (Some (wids st)) (Some (wchunks st))
             (File.chunksCorrupted f) in
  if isOverwrite && negb (wall st) then
    let* (_, m) := revertFile (wman st) f (Some (wind st)) in Ok (false, f, wbg st, m)
  else if negb (wall st) && (wgot st <? k)%nat then
    let* (_, m) := deleteFile (wman st) f (Some (wind st)) in Ok (false, f, wbg st, m)
  else Ok (true, f, wbg st, wman st).

(** [writeFileStripe] with encoding.  The code comes from the storage class, the
    one for encoding from the coding parameters of the file. *)
Definition writeFileStripe m (f : File.t) (spare : list Z) (alignDataBuf isOverwrite : bool)
    : outcome (bool * File.t * Z * t) :=
  match class_instance m (File.storageClass f) with
  | None => Ok (false, f, 0, m)
  | Some rs =>
      let codeSize := i32 (RSCode.getChunkSize rs (u32 (File.length f))) * Z.of_nat (RSCode.getNumCodeChunks rs) in
      match malloc w (Z.to_nat (u32 codeSize)) with
      | None => Ok (false, f, 0, m)
      | Some _ =>
          let* (ok, f, m) := encodeFile m f alignDataBuf in
          if ok then write_chunks m rs f spare isOverwrite else Ok (false, f, 0, m)
      end
  end.

End manager.
End ChunkManager.
