(* ===== verification/AccessTheorems.v ===== *)
(** How the chunk manager talks to the agents (theorems on
    [ChunkManager.accessChunks]): a read ends with the first good replies in the
    order of the candidates, other operations make one round. *)

From S2P Require Import Prelude DS Isal RSCode File ChunkManager.

Import ChunkManager.
#[local] Open Scope outcome_scope.

Lemma event_id_issue `{Isal} m a reqs j : event_id (issue m a reqs) j = event_id m (a + j).
Proof.
  unfold event_id, issue, u32, i32. cbn [_eventCount].
  rewrite (Z.mod_eq (_ + 2147483648)) by lia.
  match goal with |- context [4294967296 * ?q] => set (d := q) end.
  rewrite <- (Z.mod_add _ d 4294967296) by lia. f_equal. lia.
Qed.

(** [m'] is [m] after the requests [reqs] were sent. *)
Definition after `{Isal} m (reqs : list ChunkEvent.t) m' : Prop :=
  _storageClasses m' = _storageClasses m /\ _codings m' = _codings m /\
  _containerToAgentMap m' = _containerToAgentMap m /\ _sent m' = _sent m ++ reqs /\
  forall j, event_id m' j = event_id m (length reqs + j).

Lemma after_refl `{Isal} m : after m [] m.
Proof. unfold after. by rewrite app_nil_r. Qed.

Lemma after_issue `{Isal} m a reqs : length reqs = a -> after m reqs (issue m a reqs).
Proof. intros <-. unfold after. split_and!; try done. intros. apply event_id_issue. Qed.

Lemma after_trans `{Isal} m m1 m2 r1 r2 : after m r1 m1 -> after m1 r2 m2 -> after m (r1 ++ r2) m2.
Proof.
  intros (? & ? & ? & Hs1 & He1) (? & ? & ? & Hs2 & He2). unfold after. split_and!; try congruence.
  - by rewrite Hs2, Hs1, app_assoc.
  - intros j. rewrite He2, He1, length_app. f_equal. lia.
Qed.

Section access.
Context `{Isal, Md5} (w : world).
Context (ids : list Z) (cs : list Chunk.t) (num : nat) (reqOp expected : Opcode).
Implicit Types m : ChunkManager.t.
Implicit Types st : access_state.

Notation checked x := (check_reply w reqOp expected (cs !!! x)).

(** The pairs of a list of candidates and a list of replies that are good. *)
Definition good_pairs (B : list nat) (R : list (option ChunkEvent.t)) : list (nat * ChunkEvent.t) :=
  omap (fun '(x, r) => (x,.) <$> checked x r) (zip B R).

Lemma good_pairs_le B R : (length (good_pairs B R) <= length B)%nat.
Proof.
  unfold good_pairs. revert R. induction B as [|x B IH]; intros [|r R]; csimpl; try lia.
  specialize (IH R). destruct (checked x r); csimpl; lia.
Qed.

Lemma check_replies_spec marks fuel i st A B C rest RA RB RD :
  indices st = A ++ B ++ C ++ rest -> length A = i -> length B = fuel ->
  isize st = (length A + length B + length C)%nat ->
  replies st = RA ++ RB ++ RD -> length RA = i -> length RB = fuel ->
  let st' := check_replies w cs num reqOp expected true marks fuel i st in
  let gs := good_pairs B RB in
  (exists rest', indices st' = A ++ map fst gs ++ C ++ rest') /\
  isize st' = (length A + length gs + length C)%nat /\
  got st' = (got st + length gs)%nat /\
  replies st' = RA ++ map (Some ∘ snd) gs ++ replicate (fuel - length gs) None ++ RD /\
  allsuccess st' = allsuccess st && (length gs =? fuel)%nat.
Proof.
  revert i st A B C rest RA RB RD. induction fuel as [|fuel IH];
    intros i st A B C rest RA RB RD Hi HA HB Hs Hr HRA HRB.
  { destruct B, RB; try done. simpl in *. rewrite andb_true_r. split_and!; eauto; lia. }
  destruct B as [|x B], RB as [|r RB]; try done. simpl in HB, HRB, Hs.
  assert (chunk_at true st i = x) as Hx.
  { unfold chunk_at. rewrite Hi. apply list_lookup_total_correct.
    by rewrite lookup_app_r, HA, Nat.sub_diag by lia. }
  assert (replies st !!! i = r) as Hri.
  { rewrite Hr. apply list_lookup_total_correct.
    by rewrite lookup_app_r, HRA, Nat.sub_diag by lia. }
  cbn [check_replies]. rewrite Hx, Hri. unfold good_pairs. csimpl.
  pose proof (good_pairs_le B RB) as Hle. fold (good_pairs B RB) in *.
  destruct (checked x r) as [r'|] eqn:Hc; csimpl; destruct (mark _ _ _ _) as [ind ii].
  - destruct (IH (i + 1)%nat (mk_access (indices st) (isize st) (got st + 1)
        (<[i := Some r']> (replies st)) (allsuccess st) ind ii)
        (A ++ [x]) B C rest (RA ++ [Some r']) RB RD) as ([rest' H1] & H2 & H3 & H4 & H5);
      cbn [indices isize got replies allsuccess] in *; try rewrite length_app; simpl; try lia.
    + by rewrite Hi, <- app_assoc.
    + rewrite Hr, insert_app_r_alt, HRA, Nat.sub_diag by lia. by rewrite <- app_assoc.
    + rewrite length_app in H2. simpl in H2.
      rewrite H1, H2, H3, H4, H5, <- !app_assoc. split_and!; eauto; lia.
  - set (idx' := if (i + 1 <? isize st)%nat then delete i (indices st) else indices st).
    assert (exists rest', idx' = A ++ B ++ C ++ rest') as [rest' Hi'].
    { unfold idx'. destruct (Nat.ltb_spec (i + 1) (isize st)) as [Hlt|Hge].
      - exists rest. rewrite Hi, <- HA. apply delete_middle.
      - exists (x :: rest). destruct B, C; simpl in *; try lia. by rewrite Hi. }
    assert (delete i (replies st) = RA ++ RB ++ RD) as Hd
      by (rewrite Hr, <- HRA; apply delete_middle).
    destruct (IH i (mk_access idx' (isize st - 1) (got st)
        (take (i + fuel) (delete i (replies st)) ++ None :: drop (i + fuel) (delete i (replies st)))
        false ind ii) A B C rest' RA RB (None :: RD)) as ([rest'' H1] & H2 & H3 & H4 & H5);
      cbn [indices isize got replies allsuccess] in *; simpl in *; try lia; try done.
    + rewrite Hd, app_assoc, take_app_length', drop_app_length', <- app_assoc
        by (rewrite length_app; lia). done.
    + rewrite H1, H2, H3, H4, H5. split_and!; eauto.
      * replace (S fuel - length (good_pairs B RB))%nat
          with (S (fuel - length (good_pairs B RB))) by lia.
        by rewrite replicate_S_end, <- app_assoc.
      * destruct (Nat.eqb_spec (length (good_pairs B RB)) (S fuel)); [lia|]. by rewrite andb_false_r.
Qed.

(** The request for candidate number [j], and the good replies of a list of
    candidates that are asked one after the other. *)
Definition request m (j x : nat) : ChunkEvent.t :=
  chunk_request (event_id m j) reqOp (cs !!! x) (ids !!! x).

Definition goods m (U : list nat) : list (nat * ChunkEvent.t) :=
  good_pairs U (imap (fun j x => send w m (request m j x)) U).

Lemma request_after m m' reqs j x :
  after m reqs m' -> request m' j x = request m (length reqs + j) x.
Proof. intros (_ & _ & _ & _ & He). unfold request. by rewrite He. Qed.

Lemma goods_app m m' reqs U V :
  after m reqs m' -> length reqs = length U -> goods m (U ++ V) = goods m U ++ goods m' V.
Proof.
  intros Ha Hl. unfold goods, good_pairs. rewrite imap_app, zip_with_app by (by rewrite length_imap).
  rewrite omap_app. f_equal. do 2 f_equal. apply imap_ext. intros j x _. simpl.
  rewrite (request_after _ _ _ _ _ Ha), Hl. destruct Ha as (_ & _ & Hm & _).
  unfold send. by rewrite Hm.
Qed.

Lemma goods_le m U : (length (goods m U) <= length U)%nat.
Proof. apply good_pairs_le. Qed.

Lemma goods_sublist m U : map fst (goods m U) `sublist_of` U.
Proof.
  unfold goods, good_pairs. generalize (imap (fun j x => send w m (request m j x)) U). intros R.
  revert R. induction U as [|x U IH]; intros [|r R]; csimpl; try apply sublist_nil_l.
  destruct (checked x r); csimpl; [by apply sublist_skip|by apply sublist_cons].
Qed.

Lemma elem_of_goods m U x r :
  (x, r) ∈ goods m U -> x ∈ U /\ exists j, checked x (send w m (request m j x)) = Some r.
Proof.
  unfold goods, good_pairs. intros ([x' r'] & Hin & Hc)%list_elem_of_omap.
  apply list_elem_of_lookup in Hin as [j Hj]. apply lookup_zip_with_Some in Hj as (? & ? & ? & Hx & Hr).
  simplify_eq. rewrite list_lookup_imap, Hx in Hr. simplify_eq/=.
  destruct (check_reply _ _ _ _ _) as [r''|] eqn:E; simplify_eq/=. split; [by eapply list_elem_of_lookup_2|]. eauto.
Qed.

Lemma goods_count m (P : nat -> bool) U :
  (forall x j, x ∈ U -> P x = true -> is_Some (checked x (send w m (request m j x)))) ->
  (length (filter (fun x => P x = true) U) <= length (goods m U))%nat.
Proof.
  intros HP. unfold goods, good_pairs.
  set (R := imap (fun j x => send w m (request m j x)) U).
  assert (Forall2 (fun x r => P x = true -> is_Some (checked x r)) U R) as HF.
  { apply Forall2_same_length_lookup_2; [by unfold R; rewrite length_imap|].
    intros i x r Hx Hr. unfold R in Hr. rewrite list_lookup_imap, Hx in Hr. simplify_eq/=.
    apply HP. by eapply list_elem_of_lookup_2. }
  clearbody R. clear HP. induction HF as [|x r U R Hx HF IH]; [done|].
  rewrite filter_cons. destruct (decide (P x = true)) as [Hp|Hp].
  - destruct (Hx Hp) as [r' Hr]. csimpl. rewrite Hr. csimpl. lia.
  - csimpl. destruct (checked x r); csimpl; lia.
Qed.

(** The state between two rounds: the good pairs so far, and the candidates that
    were not asked. *)
Definition between (P : list (nat * ChunkEvent.t)) (U : list nat) st : Prop :=
  (exists rest, indices st = map fst P ++ U ++ rest) /\
  isize st = (length P + length U)%nat /\ got st = length P /\ (length P <= num)%nat /\
  (exists tail, replies st = map (Some ∘ snd) P ++ tail /\ (length P + length tail <= num)%nat) /\
  allsuccess st = (num <=? length P)%nat.

Lemma access_round_spec marks m st P U :
  between P U st -> (length P < num <= length P + length U)%nat ->
  let missing := (num - length P)%nat in
  let reqs := imap (request m) (take missing U) in
  exists st', access_round w ids cs num reqOp expected true marks m st
              = (st', issue m missing reqs) /\
    between (P ++ goods m (take missing U)) (drop missing U) st'.
Proof.
  intros ([rest Hi] & Hs & Hg & Hle & (tail & Hr & Htail) & Ha) Hnum missing reqs.
  assert (length (take missing U) = missing) as Hlen by (rewrite length_take; lia).
  assert (access_requests ids cs num reqOp true m st = reqs) as Hreqs.
  { unfold access_requests. rewrite Hg. fold missing.
    apply list_eq_same_length with missing;
      [by unfold reqs; rewrite length_imap|by rewrite length_map, length_seq|].
    intros j x y Hj Hx Hy. rewrite list_lookup_fmap, lookup_seq_lt in Hx by done.
    unfold reqs in Hy. rewrite list_lookup_imap in Hy.
    rewrite lookup_take_lt in Hy by done. destruct (lookup_lt_is_Some_2 U j) as [u Hu]; [lia|].
    rewrite Hu in Hy. simplify_eq/=. unfold chunk_at. rewrite Hi.
    assert ((map fst P ++ U ++ rest) !!! (length P + j)%nat = u) as ->; [|done].
    apply list_lookup_total_correct. rewrite lookup_app_r; rewrite length_map; [|lia].
    rewrite Nat.add_comm, Nat.add_sub. by apply lookup_app_l_Some. }
  unfold access_round. rewrite Hreqs. eexists. split.
  { unfold reqs at 2. by rewrite length_imap, Hlen. }
  rewrite Hg, Hr, take_app_length' by (by rewrite length_map). fold missing.
  assert (map (send w m) reqs = imap (fun j x => send w m (request m j x)) (take missing U)) as ->.
  { unfold reqs. by rewrite fmap_imap. }
  match goal with |- between _ _ (check_replies _ _ _ _ _ _ _ _ _ ?s) =>
    destruct (check_replies_spec marks missing (length P) s (map fst P) (take missing U)
      (drop missing U) rest (map (Some ∘ snd) P)
      (imap (fun j x => send w m (request m j x)) (take missing U)) [])
      as ([rest' H1] & H2 & H3 & H4 & H5)
  end; cbn [indices isize replies]; rewrite ?length_map, ?length_imap; try done.
  { by rewrite Hi, (app_assoc (take _ _)), take_drop. }
  { rewrite Hs, length_drop. lia. }
  { by rewrite app_nil_r. }
  fold (goods m (take missing U)) in *. pose proof (good_pairs_le (take missing U)
    (imap (fun j x => send w m (request m j x)) (take missing U))) as Hgle.
  fold (goods m (take missing U)) in Hgle. cbn [got allsuccess] in H3, H5.
  rewrite length_map in H2. unfold between. rewrite !length_app, map_app, H2, H3, H5.
  split_and!; try lia.
  - exists rest'. by rewrite H1, <- app_assoc.
  - eexists. split.
    + rewrite H4. rewrite app_nil_r, map_app, <- app_assoc. done.
    + rewrite length_replicate. lia.
  - destruct (Nat.eqb_spec (length (goods m (take missing U))) missing),
      (Nat.leb_spec num (length P + length (goods m (take missing U)))); try done; lia.
Qed.

(** The outcome of a read: the candidates asked so far are a prefix of the list,
    and the result is the first good ones. *)
Definition access_result m (P : list (nat * ChunkEvent.t)) (U : list nat) st' m' : Prop :=
  (exists t, (t <= length U)%nat /\ after m (imap (request m) (take t U)) m') /\
  allsuccess st' = (num <=? length (P ++ goods m U))%nat /\
  (allsuccess st' = true -> exists rest,
     indices st' = map fst (take num (P ++ goods m U)) ++ rest /\
     replies st' = map (Some ∘ snd) (take num (P ++ goods m U))).

Lemma between_done m P U st : between P U st -> (num <= length P \/ length P + length U < num)%nat ->
  access_result m P U st m.
Proof.
  intros ([rest Hi] & Hs & Hg & Hle & (tail & Hr & Htail) & Ha) Hn.
  pose proof (goods_le m U). unfold access_result. rewrite Ha, length_app. split_and!.
  - exists 0%nat. split; [lia|]. apply after_refl.
  - destruct (Nat.leb_spec num (length P)), (Nat.leb_spec num (length P + length (goods m U)));
      done || lia.
  - intros ?%Nat.leb_le. rewrite take_app_length' by lia. destruct tail; [|simpl in *; lia].
    rewrite Hr, Hi, app_nil_r. eauto.
Qed.

Lemma access_rounds_get marks fuel m st P U :
  reqOp = GET_CHUNK_REQ -> between P U st ->
  (S (length P + length U) - num + 1 <= fuel)%nat ->
  exists st' m', access_rounds w ids cs num reqOp expected true marks fuel m st = Some (st', m') /\
    access_result m P U st' m'.
Proof.
  intros Hop. revert m st P U. induction fuel as [|fuel IH]; intros m st P U Hb Hf; [lia|].
  pose proof Hb as (_ & Hs & Hg & Hle & _). cbn [access_rounds]. rewrite Hg, Hs.
  destruct (Nat.ltb_spec (length P) num), (Nat.leb_spec num (length P + length U)); cbn [andb];
    try (exists st, m; split; [done|]; apply between_done; [done|lia]).
  destruct (access_round_spec marks m st P U Hb) as (st1 & -> & Hb1); [lia|].
  rewrite bool_decide_eq_true_2 by done.
  set (missing := (num - length P)%nat) in *.
  assert (after m (imap (request m) (take missing U)) (issue m missing (imap (request m) (take missing U))))
    as Haf by (apply after_issue; rewrite length_imap, length_take; lia).
  set (m1 := issue m missing _) in *. set (P1 := P ++ goods m (take missing U)) in *.
  assert (P1 ++ goods m1 (drop missing U) = P ++ goods m U) as HP.
  { unfold P1. rewrite <- app_assoc. f_equal. rewrite <- (take_drop missing U) at 3. symmetry.
    apply (goods_app _ _ _ _ _ Haf). by rewrite length_imap. }
  assert (forall st' m', access_result m1 P1 (drop missing U) st' m' -> access_result m P U st' m') as Hlift.
  { intros st' m' ((t & Ht & Hat) & Hall & Hres). rewrite HP in *. split_and!; try done.
    exists (missing + t)%nat. rewrite length_drop in Ht. split; [lia|].
    rewrite <- take_take_drop, imap_app. eapply after_trans; [exact Haf|].
    erewrite imap_ext; [exact Hat|]. intros j x _. simpl. rewrite (request_after _ _ _ _ _ Haf).
    by rewrite length_imap. }
  destruct (decide (num <= length P1)%nat) as [Hd|Hd].
  - exists st1, m1. split; [|by apply Hlift, between_done; [|left]].
    destruct Hb1 as (_ & _ & Hg1 & _). destruct fuel; [lia|]. cbn [access_rounds]. rewrite Hg1.
    by destruct (Nat.ltb_spec (length P1) num); [lia|].
  - destruct (IH m1 st1 P1 (drop missing U) Hb1) as (st' & m' & Heq & Hr).
    { rewrite length_drop. pose proof (goods_le m (take missing U)). unfold P1 in *.
      rewrite length_app in *. lia. }
    exists st', m'. split; [done|]. by apply Hlift.
Qed.

(** Everything but a read makes one round. *)
Lemma access_rounds_once marks fuel m st U :
  reqOp <> GET_CHUNK_REQ -> between [] U st -> length U = num -> (0 < num)%nat ->
  exists st', access_rounds w ids cs num reqOp expected true marks (S fuel) m st
              = Some (st', issue m num (imap (request m) U)) /\
    allsuccess st' = (num <=? length (goods m U))%nat.
Proof.
  intros Hop Hb Hl Hn. pose proof Hb as (_ & Hs & Hg & Hle & _). cbn [access_rounds].
  rewrite Hg, Hs. cbn [length]. rewrite Hl, Nat.leb_refl.
  destruct (Nat.ltb_spec 0 num); [cbn [andb]|lia].
  destruct (access_round_spec marks m st [] U Hb) as (st1 & -> & Hb1); [simpl; lia|].
  rewrite bool_decide_eq_false_2 by done. simpl length in *. rewrite Nat.sub_0_r in *.
  rewrite take_ge in * by lia. exists st1. split; [done|]. by destruct Hb1 as (_ & _ & _ & _ & _ & ->).
Qed.

(** The verdict on a reply that carries no chunk. *)
Definition confirmed (r : option ChunkEvent.t) : bool :=
  bool_decide (ChunkEvent.opcode <$> r = Some expected).

Lemma check_plain c r : reqOp <> GET_CHUNK_REQ ->
  check_reply w reqOp expected c r = if confirmed r then r else None.
Proof.
  intros Hop. unfold check_reply, confirmed. destruct r as [r|]; [|done]. csimpl.
  destruct (decide (ChunkEvent.opcode r = expected)) as [He|He].
  - rewrite !bool_decide_eq_true_2 by congruence. by destruct reqOp.
  - by rewrite !bool_decide_eq_false_2 by congruence.
Qed.

(** The indicator gets the verdicts in the order of the chunks. *)
Lemma check_marks useIdx fuel i st RA RB RD :
  reqOp <> GET_CHUNK_REQ -> replies st = RA ++ RB ++ RD -> length RA = i -> length RB = fuel ->
  (isize st <= num)%nat -> (ind_idx st + fuel <= length (indicator st))%nat ->
  let st' := check_replies w cs num reqOp expected useIdx true fuel i st in
  indicator st' = take (ind_idx st) (indicator st) ++ map confirmed RB
                  ++ drop (ind_idx st + fuel) (indicator st) /\
  allsuccess st' = allsuccess st && forallb confirmed RB.
Proof.
  intros Hop. revert i st RA RB RD.
  induction fuel as [|fuel IH]; intros i st RA RB RD Hr HRA HRB Hs Hi.
  { destruct RB; [|done]. simpl. by rewrite Nat.add_0_r, take_drop, andb_true_r. }
  destruct RB as [|r RB]; [done|]. simpl in HRB. injection HRB as HRB.
  assert (replies st !!! i = r) as Hri.
  { rewrite Hr. apply list_lookup_total_correct.
    by rewrite lookup_app_r, HRA, Nat.sub_diag by lia. }
  assert (forall b, mark num true st b = (<[ind_idx st := b]> (indicator st), (ind_idx st + 1)%nat)) as Hmark.
  { intros b. unfold mark. by destruct (Nat.leb_spec (isize st) num); [|lia]. }
  assert (forall b (l : list bool), take (ind_idx st + 1) (<[ind_idx st := b]> (indicator st)) ++ l =
    take (ind_idx st) (indicator st) ++ b :: l) as Htake.
  { intros b l. rewrite Nat.add_1_r, (take_S_r _ _ b) by (apply list_lookup_insert_eq; lia).
    by rewrite take_insert_ge, <- app_assoc by lia. }
  cbn [check_replies]. rewrite Hri, check_plain, !Hmark by done. cbn [map forallb].
  destruct (confirmed r) eqn:Hc; [destruct r as [r|]; [|done]|].
  - edestruct (IH (i + 1)%nat (mk_access (indices st) (isize st) (got st + 1)
      (<[i := Some r]> (replies st)) (allsuccess st) (<[ind_idx st := true]> (indicator st))
      (ind_idx st + 1)) (RA ++ [Some r]) RB RD) as [H1 H2];
      cbn [replies isize indicator ind_idx allsuccess] in *; try done; try lia.
    + rewrite Hr, insert_app_r_alt, HRA, Nat.sub_diag by lia. by rewrite <- app_assoc.
    + rewrite length_app. simpl. lia.
    + rewrite length_insert. lia.
    + rewrite H1, H2. split; [|done]. rewrite Htake, drop_insert_lt by lia.
      by replace (ind_idx st + 1 + fuel)%nat with (ind_idx st + S fuel)%nat by lia.
  - match goal with |- context [check_replies _ _ _ _ _ _ _ _ _ ?s] =>
      edestruct (IH i s RA RB (None :: RD)) as [H1 H2]
    end; cbn [replies isize indicator ind_idx allsuccess] in *; try done; try lia.
    + assert (delete i (replies st) = RA ++ RB ++ RD) as -> by (rewrite Hr, <- HRA; apply delete_middle).
      rewrite app_assoc, take_app_length', drop_app_length', <- app_assoc by (rewrite length_app; lia). done.
    + rewrite length_insert. lia.
    + destruct r; cbn [map forallb] in *; rewrite H1, H2, andb_false_r; (split; [|done]);
        rewrite Htake, drop_insert_lt by lia;
        by replace (ind_idx st + 1 + fuel)%nat with (ind_idx st + S fuel)%nat by lia.
Qed.
End access.

(** * The arrays of a file *)

Section file.
Context `{Isal, Md5} (w : world).
Implicit Types m : ChunkManager.t.

(** The containers and chunks of a file are listed. *)
Definition in_arrays (ids : list Z) (cs : list Chunk.t) (x : nat) : bool :=
  (x <? length ids `min` length cs)%nat.

Lemma start_between num (idx : list nat) :
  (0 < num)%nat -> between num [] idx (mk_access idx (length idx) 0 [] false [] 0).
Proof.
  intros Hn. unfold between. cbn. split_and!; try lia.
  - exists []. by rewrite app_nil_r.
  - exists []. split; [done|simpl; lia].
  - destruct num; [lia|done].
Qed.

Lemma accessChunks_get m ids cs num idx :
  (0 < num)%nat -> forallb (in_arrays ids cs) idx = true ->
  let gs := goods w ids cs GET_CHUNK_REQ GET_CHUNK_REP_SUCCESS m idx in
  exists reps idx' ind m',
    accessChunks w m ids cs num GET_CHUNK_REQ GET_CHUNK_REP_SUCCESS (Some idx) None
    = Ok ((num <=? length gs)%nat, reps, idx', ind, m') /\
    (exists t, (t <= length idx)%nat /\ after m (imap (request ids cs GET_CHUNK_REQ m) (take t idx)) m') /\
    ((num <= length gs)%nat ->
     reps = map (Some ∘ snd) (take num gs) /\ take num idx' = map fst (take num gs)).
Proof.
  intros Hn Hin gs. unfold accessChunks. rewrite bool_decide_eq_true_2 by (by eexists).
  cbn [default isize id]. unfold in_arrays in Hin. rewrite Hin. cbn [access obind].
  destruct (access_rounds_get w ids cs num GET_CHUNK_REQ GET_CHUNK_REP_SUCCESS
    (bool_decide (is_Some (None : option (list bool)))) (length idx + 2) m _ [] idx eq_refl
    (start_between num idx Hn)) as (st' & m' & -> & Ht & Hall & Hres); [simpl; lia|].
  rewrite Hall. exists (replies st'), (indices st'), (indicator st'), m'. split; [done|].
  split; [done|]. intros Hle. destruct Hres as (rest & -> & ->).
  { rewrite Hall. by apply Nat.leb_le. }
  split; [done|]. simpl app. fold gs. rewrite take_app_length'; [done|].
  rewrite length_map, length_take. lia.
Qed.

(** Requests to the chunks [idx], one each. *)
Lemma accessChunks_once m ids cs op expected idx :
  op <> GET_CHUNK_REQ -> idx <> [] -> forallb (in_arrays ids cs) idx = true ->
  exists reps idx' ind,
    accessChunks w m ids cs (length idx) op expected (Some idx) None
    = Ok (forallb (confirmed expected) (imap (fun j x => send w m (request ids cs op m j x)) idx),
          reps, idx', ind, issue m (length idx) (imap (request ids cs op m) idx)).
Proof.
  intros Hop Hne Hin. unfold accessChunks. rewrite bool_decide_eq_true_2 by (by eexists).
  cbn [default isize id]. unfold in_arrays in Hin. rewrite Hin. cbn [access obind].
  assert (0 < length idx)%nat as Hn by (destruct idx; [done|simpl; lia]).
  replace (length idx + 2)%nat with (S (length idx + 1)) by lia.
  destruct (access_rounds_once w ids cs (length idx) op expected
    (bool_decide (is_Some (None : option (list bool)))) (length idx + 1) m _ idx Hop
    (start_between _ idx Hn)) as (st' & -> & ->); [done..|].
  do 3 eexists. do 5 f_equal. unfold goods, good_pairs.
  set (R := imap _ _). assert (length R = length idx) as HR by apply length_imap.
  clearbody R. clear Hne Hin Hn. revert R HR. induction idx as [|x idx IH]; intros [|r R] HR; try done.
  csimpl. rewrite check_plain by done. injection HR as HR. specialize (IH R HR).
  pose proof (good_pairs_le w cs op expected idx R) as Hle. unfold good_pairs in Hle.
  destruct (confirmed expected r) eqn:Hc; [destruct r; [|done]; csimpl; exact IH|].
  csimpl. destruct (length (omap _ _)); [done|]. apply Nat.leb_gt. lia.
Qed.

Lemma concat_batches fuel size (l : list nat) :
  (0 < size)%nat -> (length l <= fuel)%nat -> concat (batches fuel size l) = l.
Proof.
  intros Hs. revert l. induction fuel as [|fuel IH]; intros [|x l] Hl; simpl in *; try done; try lia.
  rewrite IH; [apply (take_drop size (x :: l))|]. rewrite length_drop. simpl. lia.
Qed.

Lemma batches_ne fuel size (l : list nat) : (0 < size)%nat -> Forall (fun b => b <> []) (batches fuel size l).
Proof.
  intros Hs. revert l. induction fuel as [|fuel IH]; intros [|x l]; simpl; constructor; try done.
  by destruct size; [lia|].
Qed.

(** The verdicts on the requests to the chunks [idx], one after the other. *)
Definition answers m ids cs op expected (idx : list nat) : list bool :=
  map (confirmed expected) (imap (fun j x => send w m (request ids cs op m j x)) idx).

Lemma answers_app m m' reqs ids cs op expected U V :
  after m reqs m' -> length reqs = length U ->
  answers m ids cs op expected (U ++ V) =
  answers m ids cs op expected U ++ answers m' ids cs op expected V.
Proof.
  intros Ha Hl. unfold answers. rewrite imap_app, map_app. do 2 f_equal. apply imap_ext.
  intros j x _. simpl. rewrite (request_after _ _ _ _ _ _ _ _ Ha), Hl.
  destruct Ha as (_ & _ & Hm & _). unfold send. by rewrite Hm.
Qed.

Lemma operate_batches_spec m f op expected bs okay :
  op <> GET_CHUNK_REQ -> Forall (fun b => b <> []) bs ->
  forallb (in_arrays (file_ids f) (file_chunks f)) (concat bs) = true ->
  exists m', operate_batches w m f op expected bs okay
             = Ok (okay && forallb id (answers m (file_ids f) (file_chunks f) op expected (concat bs)), m') /\
    after m (imap (request (file_ids f) (file_chunks f) op m) (concat bs)) m'.
Proof.
  intros Hop. revert m okay. induction bs as [|b bs IH]; intros m okay Hne Hin.
  { exists m. cbn. rewrite andb_true_r. split; [done|apply after_refl]. }
  apply Forall_cons in Hne as [Hb Hne]. cbn [concat] in *. rewrite forallb_app, andb_true_iff in Hin.
  destruct Hin as [Hinb Hin]. cbn [operate_batches].
  destruct (accessChunks_once m (file_ids f) (file_chunks f) op expected b Hop Hb Hinb)
    as (reps & idx' & ind & ->). cbn [obind].
  set (reqs := imap (request (file_ids f) (file_chunks f) op m) b).
  assert (after m reqs (issue m (length b) reqs)) as Haf by (apply after_issue, length_imap).
  edestruct (IH (issue m (length b) reqs)) as (m' & -> & Ham); [done..|].
  assert (length reqs = length b) as Hl by apply length_imap.
  rewrite (answers_app _ _ _ _ _ _ _ _ _ Haf Hl), forallb_app, andb_assoc. exists m'. split.
  - do 4 f_equal. unfold answers. generalize (imap (fun j x => send w m (request (file_ids f)
      (file_chunks f) op m j x)) b). intros l. induction l; simpl; [done|]. by f_equal.
  - rewrite imap_app. eapply after_trans; [exact Haf|]. erewrite imap_ext; [exact Ham|].
    intros j x _. simpl. by rewrite (request_after _ _ _ _ _ _ _ _ Haf), Hl.
Qed.
End file.

Lemma operateOnAliveChunks_spec `{Isal, Md5} w m f ind op expected code m0 :
  op <> GET_CHUNK_REQ -> 0 < File.numChunks f -> (0 < default_n w)%nat ->
  (Z.to_nat (File.numChunks f) <= length (file_ids f) `min` length (file_chunks f))%nat ->
  file_instance w m f = Ok (code, m0) ->
  exists m', operateOnAliveChunks w m f ind op expected
    = Ok (forallb id (answers w m0 (file_ids f) (file_chunks f) op expected (alive_chunks f ind)), m') /\
    after m0 (imap (request (file_ids f) (file_chunks f) op m0) (alive_chunks f ind)) m'.
Proof.
  intros Hop Hn Hd Hlen Hi. unfold operateOnAliveChunks.
  destruct (Z.ltb_spec (File.numChunks f) 0), (Z.eqb_spec (File.numChunks f) 0); try lia.
  rewrite Hi. cbn [obind]. destruct (Nat.ltb_spec 0 (default_n w)); [|lia]. cbn [orb access obind].
  edestruct (operate_batches_spec w m0 f op expected
    (batches (length (alive_chunks f ind)) (default_n w) (alive_chunks f ind)) true Hop) as (m' & -> & Ha).
  - by apply batches_ne.
  - rewrite concat_batches by lia. apply forallb_forall. intros x Hx%list_elem_of_In.
    apply list_elem_of_filter in Hx as [_ [_ Hx]%elem_of_seq]. apply Nat.ltb_lt. lia.
  - rewrite concat_batches in * by lia. by exists m'.
Qed.

Lemma forallb_map {A} (p : A -> bool) l : forallb p l = forallb id (map p l).
Proof. induction l as [|x l IH]; cbn; [done|]. by rewrite IH. Qed.

(** C35: Removing the chunks of a file ([ChunkManager::deleteFile]) sends exactly one
    request for every chunk whose indicator is true, as documented for this function, and
    for all chunks when there is no indicator: in order, with the name and the container of
    the chunk, whatever the size of the batches.  It succeeds iff all of them are
    confirmed. *)
Theorem delete_every_alive_chunk `{Isal, Md5} w m f ind code m0 :
  0 < File.numChunks f -> (0 < default_n w)%nat ->
  (Z.to_nat (File.numChunks f) <= length (file_ids f) `min` length (file_chunks f))%nat ->
  file_instance w m f = Ok (code, m0) ->
  let alive := filter (fun i => match ind with None => true | Some l => bool_decide (l !! i = Some true) end = true)
                 (seq 0 (Z.to_nat (File.numChunks f))) in
  let reqs := imap (fun j i => chunk_request (event_id m0 j) DEL_CHUNK_REQ (file_chunks f !!! i) (file_ids f !!! i)) alive in
  exists m', deleteFile w m f ind =
    Ok (forallb (fun r => bool_decide (ChunkEvent.opcode <$> send w m0 r = Some DEL_CHUNK_REP_SUCCESS)) reqs, m') /\
  after m0 reqs m'.
Proof.
  intros Hn Hd Hlen Hi alive reqs. unfold deleteFile.
  destruct (operateOnAliveChunks_spec w m f ind DEL_CHUNK_REQ DEL_CHUNK_REP_SUCCESS code m0) as (m' & -> & Ha); try done.
  assert (alive_chunks f ind = alive) as Heq.
  { unfold alive_chunks, alive. destruct ind; [done|]. by apply list_filter_iff. }
  rewrite Heq in Ha |- *. exists m'. split; [|exact Ha]. do 2 f_equal. unfold answers, reqs.
  etrans; [|symmetry; apply forallb_map]. f_equal. etrans; [apply fmap_imap|]. symmetry. etrans; [apply fmap_imap|]. done.
Qed.

(** The check of all chunks, without indices. *)
Lemma accessChunks_check `{Isal, Md5} w m ids cs num op expected ind :
  op <> GET_CHUNK_REQ -> (0 < num <= length ids `min` length cs)%nat -> length ind = num ->
  let vs := answers w m ids cs op expected (seq 0 num) in
  exists reps idx' m',
    accessChunks w m ids cs num op expected None (Some ind) = Ok (forallb id vs, reps, idx', vs, m') /\
    after m (imap (request ids cs op m) (seq 0 num)) m'.
Proof.
  intros Hop Hn Hl vs. unfold accessChunks. rewrite bool_decide_eq_false_2 by (by intros []).
  cbn [default id]. destruct (Nat.leb_spec num (length ids `min` length cs)); [|lia].
  cbn [access obind isize]. replace (num + 2)%nat with (S (num + 1)) by lia. cbn [access_rounds got isize].
  destruct (Nat.ltb_spec 0 num); [|lia]. rewrite Nat.leb_refl. cbn [andb].
  unfold access_round. cbn [got indices isize replies indicator take app]. rewrite Nat.sub_0_r.
  set (reqs := access_requests _ _ _ _ _ _ _).
  assert (reqs = imap (request ids cs op m) (seq 0 num)) as Hreqs.
  { unfold reqs, access_requests. cbn [got]. rewrite Nat.sub_0_r.
    apply list_eq. intros i. rewrite list_lookup_fmap, list_lookup_imap.
    destruct (decide (i < num)%nat); [by rewrite lookup_seq_lt|].
    by rewrite lookup_ge_None_2 by (rewrite length_seq; lia). }
  rewrite bool_decide_eq_false_2 by done.
  match goal with |- context [check_replies _ _ _ _ _ _ ?b _ _ ?s] =>
    replace b with true by (symmetry; apply bool_decide_eq_true_2; by eexists);
    destruct (check_marks w cs num op expected false num 0 s [] (map (send w m) reqs) [] Hop)
      as [Hm1 Hm2]
  end; cbn [replies isize ind_idx indicator allsuccess app] in *; try lia; try done.
  { by rewrite app_nil_r. }
  { by rewrite length_map, Hreqs, length_imap, length_seq. }
  assert (map (confirmed expected) (map (send w m) reqs) = vs) as Hvs.
  { unfold vs, answers. f_equal. rewrite Hreqs. by rewrite fmap_imap. }
  rewrite Hm1, Hm2, Hvs. rewrite drop_ge, app_nil_r by lia. cbn [take app andb].
  assert (forallb (confirmed expected) (map (send w m) reqs) = forallb id vs) as ->.
  { rewrite <- Hvs. generalize (map (send w m) reqs). intros l. induction l; simpl; [done|]. by f_equal. }
  do 3 eexists. split; [done|]. rewrite <- Hreqs. by apply after_issue.
Qed.

(** [checkFile] asks for every chunk once and leaves in the indicator which
    chunks are confirmed present; the number it returns is 0 when all are, and
    the number of chunks that are {e present} otherwise.  The documentation says that
    the indicator marks the failed chunks and that their number is returned. *)
Theorem check_file_marks `{Isal, Md5} w m f ind code m0 :
  0 < File.numChunks f ->
  (Z.to_nat (File.numChunks f) <= length (file_ids f) `min` length (file_chunks f))%nat ->
  Z.of_nat (length ind) = File.numChunks f -> file_instance w m f = Ok (Some code, m0) ->
  let vs := answers w m0 (file_ids f) (file_chunks f) CHK_CHUNK_REQ CHK_CHUNK_REP_SUCCESS
              (seq 0 (Z.to_nat (File.numChunks f))) in
  exists m', checkFile w m f ind
    = Ok (if forallb id vs then 0 else Z.of_nat (length (filter (fun b => b = true) vs)), vs, m') /\
    after m0 (imap (request (file_ids f) (file_chunks f) CHK_CHUNK_REQ m0) (seq 0 (Z.to_nat (File.numChunks f)))) m'.
Proof.
  intros Hn Hlen Hind Hi vs. unfold checkFile. rewrite Hi. cbn [obind].
  destruct (accessChunks_check w m0 (file_ids f) (file_chunks f) (Z.to_nat (File.numChunks f))
    CHK_CHUNK_REQ CHK_CHUNK_REP_SUCCESS ind) as (reps & idx' & m' & -> & Ha); [done|lia|lia|].
  cbn [obind]. fold vs. exists m'. split; [|exact Ha]. rewrite take_ge; [done|].
  unfold vs, answers. rewrite length_map, length_imap, length_seq. lia.
Qed.

(** When every chunk is lost, the number of failed chunks is reported as 0. *)
Lemma check_file_all_lost (vs : list bool) :
  Forall (fun v => v = false) vs -> length (filter (fun b => b = true) vs) = 0%nat.
Proof. induction 1 as [|v vs -> _ IH]; [done|]. by rewrite filter_cons_False. Qed.

(** The report of an agent names some of the chunks, in their order. *)
Lemma mark_corrupted_spec `{UuidPrinter} cs bad :
  NoDup (map Chunk.getChunkName cs) ->
  map Chunk.getChunkName bad `sublist_of` map Chunk.getChunkName cs ->
  mark_corrupted cs bad =
  map (fun c => bool_decide (Chunk.getChunkName c ∈ map Chunk.getChunkName bad)) cs.
Proof.
  revert bad. induction cs as [|c cs IH]; intros bad Hnd Hsub; [done|].
  cbn [map] in *. apply NoDup_cons in Hnd as [Hc Hnd]. cbn [mark_corrupted].
  destruct bad as [|b bad].
  { rewrite IH by (done || apply sublist_nil_l). f_equal. }
  cbn [map] in *. destruct (decide (Chunk.getChunkName c = Chunk.getChunkName b)) as [He|He].
  - rewrite bool_decide_eq_true_2, (bool_decide_eq_true_2 (_ ∈ _)) by (rewrite ?He; done || left).
    f_equal.
    rewrite He in Hsub. apply sublist_cons_r in Hsub as [Hsub|(l & Heq & Hsub)].
    { exfalso. apply Hc. rewrite He. eapply elem_of_sublist; [|exact Hsub]. left. }
    injection Heq as Heq. rewrite <- Heq in Hsub. rewrite IH by done. apply map_ext_in. intros c' Hin.
    apply bool_decide_ext. rewrite elem_of_cons. split; [by right|intros [Hcb|]; [|done]].
    exfalso. apply Hc. rewrite He, <- Hcb. by apply list_elem_of_In, in_map.
  - apply sublist_cons_r in Hsub as [Hsub|(l & Heq & Hsub)]; [|congruence].
    rewrite !bool_decide_eq_false_2; [|intros Hin..].
    + f_equal. by apply (IH (b :: bad)).
    + apply Hc. eapply elem_of_sublist; [exact Hin|exact Hsub].
    + done.
Qed.

(** The reply that reports the corrupted chunks, if it came. *)
Definition verify_reply `{Isal} w m f first : option ChunkEvent.t :=
  match send w m (verify_request m f first) with
  | Some rep => if bool_decide (ChunkEvent.opcode rep = VRF_CHUNK_REP_SUCCESS) then Some rep else None
  | None => None
  end.

Definition reported (rep : ChunkEvent.t) : list Chunk.t :=
  take (Z.to_nat (ChunkEvent.numChunks rep)) (ChunkEvent.chunks rep).

(** [verifyFileChecksums] asks the container of the file once.  If the agent
    reports some of the chunks in their order, exactly these are marked as
    corrupted and their number is returned; without a report no chunk is marked
    and -1 is returned. *)
Theorem verify_file_marks `{Isal, UuidPrinter} w m f first :
  let cs := take (Z.to_nat (File.numChunks f)) (file_chunks f) in
  file_ids f !! 0%nat = Some first ->
  (Z.to_nat (File.numChunks f) <= length (file_chunks f))%nat ->
  NoDup (map Chunk.getChunkName cs) ->
  (forall rep, verify_reply w m f first = Some rep ->
     map Chunk.getChunkName (reported rep) `sublist_of` map Chunk.getChunkName cs) ->
  verifyFileChecksums w m f =
  Ok (match verify_reply w m f first with Some rep => ChunkEvent.numChunks rep | None => -1 end,
      match verify_reply w m f first with
      | Some rep => map (fun c => bool_decide (Chunk.getChunkName c ∈ map Chunk.getChunkName (reported rep))) cs
      | None => map (fun _ => false) cs
      end, issue m 1 [verify_request m f first]).
Proof.
  intros cs Hf Hl Hnd Hrep. unfold verifyFileChecksums. rewrite Hf. cbn [access obind].
  destruct (Nat.leb_spec (Z.to_nat (File.numChunks f)) (length (file_chunks f))); [|lia].
  cbn [access obind]. fold cs. unfold verify_reply in *.
  assert (replicate (Z.to_nat (File.numChunks f)) false = map (fun _ => false) cs) as ->.
  { apply list_eq_same_length with (length cs); [by rewrite length_map| |].
    - rewrite length_replicate. unfold cs. rewrite length_take. lia.
    - intros i x y Hi [-> _]%lookup_replicate Hy. rewrite list_lookup_fmap in Hy.
      by destruct (cs !! i); simplify_eq/=. }
  destruct (send w m _) as [rep|]; [|done].
  case_bool_decide; [|done]. by rewrite <- mark_corrupted_spec by auto.
Qed.
