(* ===== verification/StripeTheorems.v ===== *)
(** Stripes through the chunk manager: what a read returns (theorems on
    [ChunkManager.readFileStripe]), what a write records and stores (theorems on
    [ChunkManager.writeFileStripe]), and that what was written is read back. *)

From stdpp Require Import pretty.
From S2P Require Import Prelude DS Isal RSCode RSDecode RSTheorems File ChunkManager AccessTheorems.

Import ChunkManager.
#[local] Open Scope outcome_scope.

(** * Ascending lists *)

Lemma ascending_seq i len : ascending (seq i len).
Proof.
  revert i. induction len as [|len IH]; intros i; constructor; [apply IH|].
  apply Forall_forall. intros x [Hx _]%elem_of_seq. lia.
Qed.

Lemma ascending_sublist l l' : l `sublist_of` l' -> ascending l' -> ascending l.
Proof.
  induction 1 as [|x l l' Hs IH|x l l' Hs IH]; intros Ha; [done| |].
  - inversion Ha as [|? ? Ha' HF]; subst. constructor; [by apply IH|].
    apply Forall_forall. intros y Hy. rewrite Forall_forall in HF. apply HF.
    by eapply elem_of_sublist.
  - inversion Ha; subst. by apply IH.
Qed.

Lemma ascending_filter (P : nat -> Prop) `{forall x, Decision (P x)} l :
  ascending l -> ascending (filter P l).
Proof.
  apply ascending_sublist. induction l as [|x l IH]; [done|]. rewrite filter_cons.
  destruct (decide (P x)); [by apply sublist_skip|by apply sublist_cons].
Qed.

Lemma sublist_map_take {A B} (g : A -> B) i l : map g (take i l) `sublist_of` map g l.
Proof. rewrite <- (take_drop i l) at 2. rewrite map_app. by apply sublist_inserts_r. Qed.

(** * Coding instances *)

(** An instance stays in the table. *)
Lemma file_instance_cached `{Isal} w w' m m0 m1 f rs :
  file_instance w m f = Ok (Some rs, m0) -> _codings m1 = _codings m0 ->
  file_instance w' m1 f = Ok (Some rs, m1).
Proof.
  unfold file_instance, getCodingInstance. destruct (isValidCoding _); [cbn [negb]|done].
  destruct (genCodingInstanceKey _ _ _) as [| |key]; cbn [obind]; [done..|].
  destruct (_codings m !! key) eqn:E.
  - intros [= -> ->] ->. by rewrite E.
  - destruct (make_coding _ _) as [| |code]; cbn [obind]; [done..|].
    intros [= -> <-]. cbn [_codings]. intros ->. by rewrite lookup_insert_eq.
Qed.

(** The key of a code. *)
Definition coding_key (n k : Z) : string := "RS" +:+ "_" +:+ pretty n +:+ "_" +:+ pretty k.

Lemma coding_key_inj n k n' k' : coding_key n k = coding_key n' k' -> n = n' /\ k = k'.
Proof.
  unfold coding_key. intros E. do 2 apply (inj (String.append _)) in E.
  apply sep_append_inj in E as [E1 E2]; [|apply plain_pretty_Z..].
  by apply (inj pretty) in E1, E2.
Qed.

Section codings.
Context `{Hisal : Isal} `{Hlaws : !IsalLaws} (w : world).
Implicit Types m : ChunkManager.t.

(** Every entry of the table is what the factory makes for the parameters in its
    key. *)
Definition codings_ok m : Prop :=
  forall key code, _codings m !! key = Some code ->
    exists n k, key = coding_key n k /\ make_coding RS (options_for w n k) = Ok code.

Definition same_but_codings m m' : Prop :=
  _storageClasses m' = _storageClasses m /\ _containerToAgentMap m' = _containerToAgentMap m /\
  _eventCount m' = _eventCount m /\ _sent m' = _sent m.

Lemma getCodingInstance_spec m n k code m' :
  codings_ok m -> getCodingInstance w m RS n k = Ok (code, m') ->
  codings_ok m' /\ make_coding RS (options_for w n k) = Ok code /\ same_but_codings m m' /\
  _codings m' !! coding_key n k = Some code.
Proof.
  intros Hok. unfold getCodingInstance. cbn [negb isValidCoding RS UNKNOWN_CODE andb Z.leb Z.ltb Z.compare].
  cbn [genCodingInstanceKey isValidCoding RS UNKNOWN_CODE andb Z.leb Z.ltb Z.compare obind].
  fold (coding_key n k). destruct (_codings m !! coding_key n k) as [c|] eqn:E.
  - intros [= <- <-]. split; [done|]. split; [|done].
    destruct (Hok _ _ E) as (n' & k' & [<- <-]%coding_key_inj & Hm). done.
  - destruct (make_coding RS (options_for w n k)) as [| |c] eqn:Hm; [done..|].
    cbn [obind]. intros [= <- <-]. cbn. split; [|by rewrite lookup_insert_eq].
    intros key c'. cbn. intros [[<- <-]|[_ Hk]]%lookup_insert_Some; eauto.
Qed.

(** The configured default parameters are non-zero bytes. *)
Definition defaults_ok : Prop :=
  0 < CodingOptions.n (default_options w) < 256 /\ 0 < CodingOptions.k (default_options w) < 256.

(** A byte, or the default for 0. *)
Definition param (z dflt : Z) : Z := if u8 z =? 0 then dflt else u8 z.

Lemma options_for_eq n k :
  options_for w n k = CodingOptions.mk (param n (CodingOptions.n (default_options w)))
    (param k (CodingOptions.k (default_options w))) (CodingOptions.useCarRepair (default_options w)).
Proof.
  unfold options_for, CodingOptions.setK, CodingOptions.setN, param.
  destruct (default_options w). by destruct (u8 n =? 0), (u8 k =? 0).
Qed.

Lemma param_idem z dflt : 0 < dflt < 256 -> param (param z dflt) dflt = param z dflt.
Proof.
  intros Hd. pose proof (Z.mod_pos_bound z 256 ltac:(lia)) as Hb. fold (u8 z) in Hb.
  unfold param. destruct (Z.eqb_spec (u8 z) 0) as [Hz|Hz]; [set (b := dflt) in *|set (b := u8 z) in *];
    rewrite (u8_small b) by lia; by destruct (Z.eqb_spec b 0); [lia|].
Qed.

Lemma options_for_idem n k : defaults_ok ->
  let o := options_for w n k in options_for w (CodingOptions.n o) (CodingOptions.k o) = o.
Proof. intros [Hn Hk]. cbn zeta. rewrite !options_for_eq. cbn. by rewrite !param_idem. Qed.

(** The instance of every storage class is a code with the parameters of the
    class, and the one the table has for these parameters. *)
Definition class_ok (codings : gmap string (option RSCode.t)) (sc : StorageClass.t) : Prop :=
  let rs := StorageClass._codingInstance sc in
  rs_ok rs /\ CodingMeta.coding (StorageClass._codingMeta sc) = RS /\
  CodingMeta.n (StorageClass._codingMeta sc) = Z.of_nat (RSCode.n rs) /\
  CodingMeta.k (StorageClass._codingMeta sc) = Z.of_nat (RSCode.k rs) /\
  codings !! coding_key (Z.of_nat (RSCode.n rs)) (Z.of_nat (RSCode.k rs)) = Some (Some rs).

Definition classes_ok m : Prop :=
  forall name sc, _storageClasses m !! name = Some sc -> class_ok (_codings m) sc.

Lemma make_coding_inv scheme o rs : make_coding scheme o = Ok (Some rs) ->
  scheme = RS /\ RSCode.init o = Ok rs /\ Z.of_nat (RSCode.n rs) = CodingOptions.n o /\
  Z.of_nat (RSCode.k rs) = CodingOptions.k o.
Proof.
  unfold make_coding, genCoding. destruct (Z.eqb_spec scheme RS) as [->|]; [|done].
  destruct (RSCode.init o) as [| |rs'] eqn:E; [done..|]. intros [= ->]. split; [done|]. split; [done|].
  unfold RSCode.init in E. destruct (_ || _) eqn:Hb in E; [done|]. rewrite !orb_false_iff, !Z.leb_gt in Hb.
  destruct (RSCode.write_member _ _) in E; cbn [access obind] in E; [|done]. injection E as <-. cbn. lia.
Qed.

Lemma add_class_ok m c m' : defaults_ok -> codings_ok m -> classes_ok m ->
  add_class w m c = Ok m' -> codings_ok m' /\ classes_ok m'.
Proof.
  intros Hdef Hok Hcl. destruct c as [[[[[name n] k] f] mcs] coding]. unfold add_class.
  pose proof (options_for_idem n k Hdef) as Hidem. set (o := options_for w n k) in *. cbn zeta in Hidem.
  destruct (make_coding coding o) as [| |code] eqn:Hm; cbn [obind]; [done..|].
  unfold genCodingInstanceKey. destruct (isValidCoding coding) eqn:Hv; cbn [obind]; [|done].
  fold (coding_key (CodingOptions.n o) (CodingOptions.k o)).
  destruct code as [rs|]; cbn [access obind]; [|done].
  destruct (make_coding_inv _ _ _ Hm) as (-> & Hinit & Hn & Hk).
  set (key := coding_key (CodingOptions.n o) (CodingOptions.k o)).
  set (codings := match _codings m !! key with Some _ => _codings m | None => _ end).
  assert (codings !! key = Some (Some rs)) as Hkey.
  { unfold codings. destruct (_codings m !! key) as [c|] eqn:E; [|by rewrite lookup_insert_eq].
    destruct (Hok _ _ E) as (n' & k' & [<- <-]%coding_key_inj & Hm'). rewrite Hidem, Hm in Hm'. congruence. }
  assert (forall key' c, _codings m !! key' = Some c -> codings !! key' = Some c) as Hmono.
  { intros key' c Hc. unfold codings. destruct (_codings m !! key) eqn:E; [done|].
    rewrite lookup_insert_ne; [done|]. congruence. }
  intros [= <-]. split.
  - intros key' c. cbn. unfold codings. destruct (_codings m !! key) eqn:E; [apply Hok|].
    intros [[<- <-]|[_ Hc]]%lookup_insert_Some; [|by apply Hok].
    exists (CodingOptions.n o), (CodingOptions.k o). by rewrite Hidem.
  - intros nm sc. cbn [_storageClasses _codings].
    assert (_storageClasses m !! nm = Some sc -> class_ok codings sc) as Hold.
    { intros Hsc. destruct (Hcl _ _ Hsc) as (? & ? & ? & ? & ?). split_and!; try done. by apply Hmono. }
    destruct (_storageClasses m !! name) eqn:E; [done|].
    intros [[<- <-]|[_ Hsc]]%lookup_insert_Some; [|by apply Hold].
    unfold class_ok. cbn. rewrite Hn, Hk. split_and!; try done. by eapply init_ok.
Qed.

Lemma init_classes_ok classes m m' : defaults_ok -> codings_ok m -> classes_ok m ->
  init w m classes = Ok m' -> codings_ok m' /\ classes_ok m'.
Proof.
  intros Hdef. revert m. induction classes as [|c classes IH]; intros m Hok Hcl; cbn [init].
  { intros [= <-]. done. }
  destruct (add_class w m c) as [| |m1] eqn:E; cbn [obind]; [done..|].
  destruct (add_class_ok _ _ _ Hdef Hok Hcl E). by apply IH.
Qed.
End codings.

(** After the constructor, every storage class has a working code with the
    parameters in its metadata, and a file with these parameters gets that very
    code from the table. *)
Theorem storage_class_codes `{IsalLaws} w addrs c sent classes m name sc :
  defaults_ok w -> init w (mk ∅ ∅ addrs c sent) classes = Ok m -> _storageClasses m !! name = Some sc ->
  let rs := StorageClass._codingInstance sc in
  let cm := StorageClass._codingMeta sc in
  rs_ok rs /\ CodingMeta.n cm = Z.of_nat (RSCode.n rs) /\ CodingMeta.k cm = Z.of_nat (RSCode.k rs) /\
  class_instance m name = Some rs /\
  getCodingInstance w m (CodingMeta.coding cm) (CodingMeta.n cm) (CodingMeta.k cm) = Ok (Some rs, m).
Proof.
  intros Hdef Hi Hsc rs cm. destruct (init_classes_ok w classes (mk ∅ ∅ addrs c sent) m Hdef) as [_ Hcl]; [..|exact Hi|].
  { intros key code. cbn. by rewrite lookup_empty. }
  { intros nm sc'. cbn. by rewrite lookup_empty. }
  destruct (Hcl _ _ Hsc) as (Hrs & Hc & Hn & Hk & Hkey). fold rs cm in Hrs, Hc, Hn, Hk, Hkey.
  split_and!; try done.
  - unfold class_instance. by rewrite Hsc.
  - rewrite Hc, Hn, Hk. unfold getCodingInstance. cbn. unfold coding_key in Hkey. cbn in Hkey. by rewrite Hkey.
Qed.

(** The table of codes.  For parameters that fit one byte and the matrix of a
    code, [getCodingInstance] always returns a code with exactly these
    parameters, adds at most an entry to the table, which stays correct, and
    returns the same code from then on. *)
Theorem coding_instance_exact `{IsalLaws} w m n k :
  codings_ok w m -> 0 < k <= n -> n < 256 -> n * k <= 16384 ->
  exists rs m', getCodingInstance w m RS n k = Ok (Some rs, m') /\
    Z.of_nat (RSCode.n rs) = n /\ Z.of_nat (RSCode.k rs) = k /\ rs_ok rs /\
    codings_ok w m' /\ same_but_codings m m' /\
    forall w1 m1, _codings m1 = _codings m' -> getCodingInstance w1 m1 RS n k = Ok (Some rs, m1).
Proof.
  intros Hok Hkn Hn Hnk. assert (exists rs, make_coding RS (options_for w n k) = Ok (Some rs)) as [rs Hm].
  { rewrite options_for_eq. unfold param. rewrite !u8_small by lia.
    destruct (Z.eqb_spec n 0), (Z.eqb_spec k 0); try lia. unfold make_coding, genCoding. cbn [Z.eqb RS].
    unfold RSCode.init. cbn [CodingOptions.n CodingOptions.k].
    destruct (Z.leb_spec n 0), (Z.leb_spec k 0), (Z.ltb_spec n k); try lia. cbn [orb].
    unfold RSCode.write_member. rewrite length_gen_matrix by lia.
    destruct (Nat.leb_spec (Z.to_nat n * Z.to_nat k) (CODING_MAX_N * CODING_MAX_N)) as [Hl|Hl].
    - cbn [access obind]. by eexists.
    - unfold CODING_MAX_N in Hl. nia. }
  assert (exists m', getCodingInstance w m RS n k = Ok (Some rs, m')) as [m' Hg].
  { unfold getCodingInstance. cbn [isValidCoding negb]. cbn [RS UNKNOWN_CODE Z.leb Z.ltb Z.compare andb negb].
    cbn [genCodingInstanceKey isValidCoding RS UNKNOWN_CODE andb Z.leb Z.ltb Z.compare obind].
    fold (coding_key n k). destruct (_codings m !! coding_key n k) as [c|] eqn:E; [|rewrite Hm; by eexists].
    destruct (Hok _ _ E) as (n' & k' & [<- <-]%coding_key_inj & Hm'). rewrite Hm in Hm'. simplify_eq. by eexists. }
  destruct (getCodingInstance_spec w m n k _ _ Hok Hg) as (Hok' & _ & Hsame & Hkey).
  destruct (make_coding_inv _ _ _ Hm) as (_ & Hinit & Hrn & Hrk).
  rewrite options_for_eq in Hrn, Hrk. cbn in Hrn, Hrk. unfold param in Hrn, Hrk. rewrite u8_small in Hrn, Hrk by lia.
  destruct (Z.eqb_spec n 0), (Z.eqb_spec k 0); try lia.
  exists rs, m'. split_and!; try done; [by eapply init_ok|].
  intros w1 m1 Hc. unfold getCodingInstance. unfold coding_key in Hkey. cbn in Hkey |- *. by rewrite Hc, Hkey.
Qed.

(** * Reading *)

(** The decoder looks at the id, the data and the size of its inputs. *)
Definition view (c : Chunk.t) : Z * option (list Z) * Z := (Chunk.chunkId c, Chunk.data c, Chunk.size c).

Lemma decode_view `{Isal} rs uninit buffer mem inputs inputs' isRepair tgts :
  map view inputs = map view inputs' ->
  RSCode.decode rs uninit buffer mem inputs isRepair tgts =
  RSCode.decode rs uninit buffer mem inputs' isRepair tgts.
Proof.
  intros Hv. assert (length inputs = length inputs') as Hl.
  { by rewrite <- (length_map view inputs), Hv, length_map. }
  assert (match inputs with [] => 0 | c :: _ => u32 (Chunk.size c) end =
          match inputs' with [] => 0 | c :: _ => u32 (Chunk.size c) end) as Hs.
  { destruct inputs, inputs'; simplify_eq/=; try done. unfold view in *. congruence. }
  assert (map (fun c => default [] (Chunk.data c)) inputs = map (fun c => default [] (Chunk.data c)) inputs') as Hd.
  { transitivity (map (fun v => default [] v.1.2) (map view inputs)); [by rewrite map_map|].
    by rewrite Hv, map_map. }
  unfold RSCode.decode. rewrite Hs, Hd, Hl.
  rewrite (for_loop_ext (RSCode.scan_chunk rs inputs isRepair (bool_decide (tgts <> [])))
    (RSCode.scan_chunk rs inputs' isRepair (bool_decide (tgts <> [])))); [done|].
  intros i s _. unfold RSCode.scan_chunk.
  assert (match inputs !! RSCode.inputIdx s with Some c => u16 (Chunk.chunkId c) =? Z.of_nat i | None => false end =
          match inputs' !! RSCode.inputIdx s with Some c => u16 (Chunk.chunkId c) =? Z.of_nat i | None => false end)
    as ->; [|done].
  apply (f_equal (fun l => l !! RSCode.inputIdx s)) in Hv. rewrite !list_lookup_fmap in Hv.
  destruct (inputs !! _), (inputs' !! _); simplify_eq/=; try done. unfold view in *. congruence.
Qed.

Section read.
Context `{IsalLaws, Md5} (w : world).
Context {rs : RSCode.t} (Hrs : rs_ok rs) {data : list Z} {cs : nat} (Hd : data_ok rs data cs).
Notation k := (RSCode.k rs).
Notation n := (RSCode.n rs).
Notation alive f ind := (@alive_ids _ rs (failed_chunks f ind)).
Implicit Types m : ChunkManager.t.

(** The chunks of [f] are those of the stripe of [data]. *)
Definition stripe_file (f : File.t) : Prop :=
  File.numChunks f = Z.of_nat n /\ length (file_ids f) = n /\ length (file_chunks f) = n /\
  forall x, (x < n)%nat ->
    let c := file_chunks f !!! x in
    Chunk.size c = Z.of_nat cs /\ Chunk.md5 c = MD5 (chunk_bytes rs data cs x) /\
    0 <= Chunk.chunkId c < 4294967296 /\ Chunk.chunkId c mod Z.of_nat n = Z.of_nat x.

(** Chunk [rc] may be taken for chunk [x] of the stripe only if it is. *)
Definition honest_chunk (f : File.t) (x : nat) (rc : Chunk.t) : Prop :=
  Chunk.chunkId rc = Chunk.chunkId (file_chunks f !!! x) /\ Chunk.wf rc /\ is_Some (Chunk.data rc) /\
  (if verifyChunkChecksum w
   then MD5 (Chunk.bytes rc) = MD5 (chunk_bytes rs data cs x) -> Chunk.bytes rc = chunk_bytes rs data cs x
   else Chunk.bytes rc = chunk_bytes rs data cs x).

(** What the agents reply to reads: with checksums, chunks that may be corrupted
    but do not collide; without, the chunks that were asked for. *)
Definition honest m (f : File.t) : Prop :=
  forall j x r, (x < n)%nat ->
    send w m (request (file_ids f) (file_chunks f) GET_CHUNK_REQ m j x) = Some r ->
    ChunkEvent.opcode r = GET_CHUNK_REP_SUCCESS ->
    ChunkEvent.chunks r <> [] /\ honest_chunk f x (ChunkEvent.chunks r !!! 0%nat).

Lemma accepted_view f x r r' :
  stripe_file f -> (x < n)%nat ->
  (ChunkEvent.opcode r = GET_CHUNK_REP_SUCCESS ->
   ChunkEvent.chunks r <> [] /\ honest_chunk f x (ChunkEvent.chunks r !!! 0%nat)) ->
  check_reply w GET_CHUNK_REQ GET_CHUNK_REP_SUCCESS (file_chunks f !!! x) (Some r) = Some r' ->
  view (input_chunk rs (Some r')) = view (stripe_chunk rs data cs x).
Proof.
  intros (_ & _ & _ & Hc) Hx Hh. unfold check_reply. case_bool_decide as Hop; [|done].
  destruct (Hh Hop) as (Hne & Hid & [Hsz Hwf] & [b Hb] & Hbytes). destruct (Hc x Hx) as (Hs & Hm & Hcid & Hmod).
  set (rc := ChunkEvent.chunks r !!! 0%nat) in *.
  set (rc' := if verifyChunkChecksum w then Chunk.copyMD5 rc (file_chunks f !!! x) else rc).
  destruct (_ && _) eqn:Hok; [|done]. intros [= <-].
  apply andb_true_iff in Hok as [Hv He%Z.eqb_eq].
  assert (Chunk.chunkId rc' = Chunk.chunkId rc /\ Chunk.data rc' = Chunk.data rc /\ Chunk.size rc' = Chunk.size rc)
    as (Hr1 & Hr2 & Hr3) by (unfold rc'; by destruct (verifyChunkChecksum w)).
  assert (Chunk.bytes rc = chunk_bytes rs data cs x) as Hbs.
  { unfold rc' in Hv. destruct (verifyChunkChecksum w); [|done]. apply Hbytes.
    apply bool_decide_eq_true in Hv. cbn in Hv. change (Chunk.bytes (Chunk.copyMD5 rc _)) with (Chunk.bytes rc) in Hv.
    congruence. }
  unfold input_chunk, view. cbn [default ChunkEvent.chunks ChunkEvent.set_chunks].
  rewrite (list_lookup_total_correct _ 0 rc') by
    (destruct (ChunkEvent.chunks r); [done|]; reflexivity).
  cbn. rewrite Hr1, Hr2, Hr3, Hid. f_equal; [f_equal|].
  - rewrite u32_small by lia. unfold RSCode.getNumChunks. done.
  - rewrite Hb, <- Hbs. unfold Chunk.bytes. rewrite Hb. cbn. f_equal. symmetry. apply take_ge.
    by rewrite (Hwf _ Hb).
  - congruence.
Qed.

Lemma failed_chunks_ok (f : File.t) ind : File.numChunks f = Z.of_nat n ->
  ascending (failed_chunks f ind) /\ Forall (fun x => (x < n)%nat) (failed_chunks f ind).
Proof using.
  intros Hn. unfold failed_chunks. rewrite Hn, Nat2Z.id. split.
  - apply ascending_filter, ascending_seq.
  - apply Forall_forall. intros x [_ [_ ?]%elem_of_seq]%list_elem_of_filter. lia.
Qed.

(** The buffer of the file has room for the stripe. *)
Definition buffer_ok (f : File.t) : Prop :=
  exists d, read_buffer w rs f = Some d /\ (k * cs <= length d)%nat.

(** The result of the decoder in the buffer of the file. *)
Definition holds (f' : File.t) : Prop :=
  File.length f' = Z.of_nat (k * cs) /\
  exists d, File.data f' = Some d /\ take (k * cs) d = take (k * cs) data.

(** The file with the data at the start of its buffer. *)
Definition filled (f f' : File.t) : Prop :=
  exists d, read_buffer w rs f = Some d /\
    f' = File.set_range f (File.offset f) (Z.of_nat (k * cs)) (Some (take (k * cs) data ++ drop (k * cs) d)).

Lemma filled_holds f f' : filled f f' -> holds f'.
Proof using Hd.
  intros (d & _ & ->). split; [done|]. eexists. split; [done|]. apply take_app_length'.
  destruct Hd as (_ & _ & _ & ? & _). rewrite length_take. lia.
Qed.

Definition invertible (used : list nat) : bool :=
  bool_decide (is_Some (gf_invert_matrix (sub_rows rs used) k)).

Lemma decodeFile_spec m f first used reps :
  file_instance w m f = Ok (Some rs, m) -> Chunk.size first = Z.of_nat cs -> buffer_ok f ->
  length (local w) = (n * n)%nat -> ascending used -> Forall (fun x => (x < n)%nat) used ->
  length used = k -> map view (map (input_chunk rs) reps) = map view (map (stripe_chunk rs data cs) used) ->
  exists f', decodeFile w m f first reps = Ok (invertible used, f', m) /\
    (invertible used = true -> filled f f').
Proof using Hrs Hd H0.
  intros Hi Hf Hb Hl Hasc Hids Hlen Hv. unfold decodeFile. rewrite Hi. cbn [obind].
  destruct Hb as (d & Ed & Hb). rewrite Ed. unfold RSCode.getNumDataChunks.
  assert (length reps = k) as Hreps.
  { apply (f_equal length) in Hv. rewrite !length_map in Hv. congruence. }
  rewrite take_ge by lia.
  assert (forallb (fun c => Chunk.size first =? Chunk.size c) (map (input_chunk rs) reps) = true) as ->.
  { apply forallb_forall. intros c Hc%(in_map view). rewrite Hv in Hc.
    apply in_map_iff in Hc as (c' & Hcv & Hc').
    apply in_map_iff in Hc' as (x & <- & _). unfold view in Hcv. injection Hcv as _ _ Hsz.
    apply Z.eqb_eq. rewrite Hf, <- Hsz. done. }
  rewrite (decode_view _ _ _ _ _ _ _ _ Hv).
  rewrite (decode_data Hrs Hd Hasc Hids) by (done || lia). unfold invertible.
  destruct (gf_invert_matrix _ _) eqn:E.
  - rewrite bool_decide_eq_true_2 by (by eexists). eexists. split; [done|]. intros _.
    assert (length (take (k * cs) data) = (k * cs)%nat) as Hlt.
    { destruct Hd as (_ & _ & _ & ? & _). rewrite length_take. lia. }
    exists d. split; [done|]. rewrite list_inserts_splice by lia. by rewrite take_0, app_nil_l, Hlt.
  - rewrite bool_decide_eq_false_2 by (by intros []). eexists. split; [done|]. done.
Qed.

(** The good replies of a read that starts in [m]. *)
Definition read_goods m (f : File.t) (ind : list bool) : list (nat * ChunkEvent.t) :=
  goods w (file_ids f) (file_chunks f) GET_CHUNK_REQ GET_CHUNK_REP_SUCCESS m
    (alive f ind).

Lemma goods_inputs m f ind l :
  stripe_file f -> honest m f -> l `sublist_of` read_goods m f ind ->
  map view (map (input_chunk rs) (map (Some ∘ snd) l)) =
  map view (map (stripe_chunk rs data cs) (map fst l)).
Proof using Hrs.
  intros Hs Hh Hsub. rewrite !map_map. apply map_ext_in. intros [x r] Hin%list_elem_of_In.
  eapply elem_of_sublist in Hsub; [|exact Hin]. apply elem_of_goods in Hsub as [Hx [j Hj]].
  apply list_elem_of_filter in Hx as [_ [_ Hx]%elem_of_seq]. simpl.
  destruct (send w m _) as [r0|] eqn:E; [|done].
  eapply (accepted_view f x r0); eauto.
Qed.

Lemma readFileStripe_full m m0 f ind :
  file_instance w m f = Ok (Some rs, m0) -> stripe_file f -> honest m0 f -> buffer_ok f ->
  length (local w) = (n * n)%nat ->
  let gs := read_goods m0 f ind in
  let ok := (k <=? length gs)%nat && invertible (map fst (take k gs)) in
  exists f' m', readFileStripe w m f ind = Ok (ok, f', m') /\ (ok = true -> filled f f') /\ exists reqs, after m0 reqs m'.
Proof using Hrs Hd H0.
  intros Hi Hs Hh Hb Hl gs ok. unfold readFileStripe. rewrite Hi. cbn [obind].
  pose proof Hs as (Hn & Hli & Hlc & Hcs). destruct (failed_chunks_ok f ind Hn) as [Hasc Hf].
  pose proof (alive_length Hasc Hf) as Hal. assert (ascending (alive f ind) /\ Forall (fun x => (x < n)%nat) (alive f ind)) as [Haa Haf] by apply alive_ok.
  pose proof (goods_le w (file_ids f) (file_chunks f) GET_CHUNK_REQ GET_CHUNK_REP_SUCCESS m0
    (alive f ind)) as Hgl.
  pose proof (proj1 Hrs) as Hkn. unfold RSCode.getNumDataChunks.
  destruct (decide (length (failed_chunks f ind) <= n - k)%nat) as [Hfl|Hfl].
  2:{ unfold RSCode.preDecode. destruct (Nat.ltb_spec (n - k) (length (failed_chunks f ind))); [|lia].
      cbn. rewrite Hn. destruct (Z.leb_spec (Z.of_nat 0) (Z.of_nat n)); [|lia]. cbn [access obind].
      rewrite orb_true_r. exists f, m0. unfold ok.
      destruct (Nat.leb_spec k (length gs)); [unfold gs, read_goods in *; lia|]. cbn [andb].
      split_and!; [done|done|]. exists []. apply after_refl. }
  rewrite (preDecode_result Hrs Hasc Hf) by (done || nia). cbn [negb].
  unfold DecodingPlan.getNumInputChunks. cbn [DecodingPlan.inputChunkIds DecodingPlan.minNumChunksToRetrieve].
  rewrite Hn. destruct (Z.leb_spec (Z.of_nat (length (alive f ind)))
    (Z.of_nat n)); [|lia]. cbn [access obind].
  destruct (Nat.ltb_spec (length (alive f ind)) k); [lia|].
  cbn [orb]. edestruct (accessChunks_get w m0 (file_ids f) (file_chunks f) k) as
    (reps & idx' & ind' & m' & -> & (t & Ht & Haft) & Hres); [lia| |].
  { apply forallb_forall. intros x Hx%list_elem_of_In. rewrite Forall_forall in Haf.
    apply Nat.ltb_lt. rewrite Hli, Hlc, Nat.min_id. by apply Haf. }
  fold (read_goods m0 f ind) in *. fold gs in Hres |- *. cbn [obind].
  destruct (Nat.leb_spec k (length gs)) as [Hk|Hk]; [|exists f, m'; split_and!; [done|done|by eexists]].
  destruct (Hres Hk) as [-> Hidx].
  assert (map fst (take k gs) `sublist_of` alive f ind) as Hsub.
  { etrans; [|apply goods_sublist]. apply (sublist_map_take fst k gs). }
  assert (forall x, x ∈ map fst (take k gs) -> (x < n)%nat) as Hlt.
  { intros x Hx. rewrite Forall_forall in Haf. by eapply Haf, elem_of_sublist. }
  assert (idx' !!! 0%nat ∈ map fst (take k gs)) as Hfirst.
  { rewrite <- Hidx. destruct idx' as [|i idx']; [|destruct k; [lia|left]].
    apply (f_equal length) in Hidx. rewrite length_map, !length_take in Hidx. simpl in Hidx. lia. }
  pose proof Haft as (_ & Hcod & _). cbn [andb] in ok.
  edestruct (decodeFile_spec m' f (file_chunks f !!! (idx' !!! 0%nat)) (map fst (take k gs)))
    as (f' & -> & Hf'); [..|exists f', m'; split_and!; [done|done|by eexists]].
  - by eapply file_instance_cached.
  - by apply Hcs, Hlt.
  - done.
  - done.
  - by eapply ascending_sublist.
  - by apply Forall_forall.
  - rewrite length_map, length_take. lia.
  - eapply goods_inputs; [done..|]. apply sublist_take.
Qed.

Lemma readFileStripe_spec m m0 f ind :
  file_instance w m f = Ok (Some rs, m0) -> stripe_file f -> honest m0 f -> buffer_ok f ->
  length (local w) = (n * n)%nat ->
  let gs := read_goods m0 f ind in
  let ok := (k <=? length gs)%nat && invertible (map fst (take k gs)) in
  exists f' m', readFileStripe w m f ind = Ok (ok, f', m') /\ (ok = true -> holds f').
Proof using Hrs Hd H0.
  intros Hi Hs Hh Hb Hl gs ok. destruct (readFileStripe_full m m0 f ind Hi Hs Hh Hb Hl) as (f' & m' & E & Hf & _).
  exists f', m'. split; [done|]. intros Hok. eapply filled_holds, Hf, Hok.
Qed.
End read.

(** C5: Reading a stripe, also in degraded mode.  Of the chunks that are not
    marked as lost, in order, the first [k] good replies are used; replies that
    fail the checksum or the size are replaced by those of further chunks.  The
    read succeeds iff there are [k] good replies and the library can invert their
    rows, and then the file has exactly the data of the stripe. *)
Theorem read_stripe `{IsalLaws, Md5} w rs data cs m m0 f ind :
  rs_ok rs -> data_ok rs data cs -> file_instance w m f = Ok (Some rs, m0) ->
  stripe_file (rs := rs) (data := data) (cs := cs) f -> honest w (rs := rs) (data := data) (cs := cs) m0 f ->
  buffer_ok w (rs := rs) (cs := cs) f -> length (local w) = (RSCode.n rs * RSCode.n rs)%nat ->
  let gs := read_goods w (rs := rs) m0 f ind in
  let ok := (RSCode.k rs <=? length gs)%nat && invertible (rs := rs) (map fst (take (RSCode.k rs) gs)) in
  exists f' m', readFileStripe w m f ind = Ok (ok, f', m') /\
    (ok = true -> holds (rs := rs) (data := data) (cs := cs) f').
Proof. intros. by apply readFileStripe_spec. Qed.
