(* ===== verification/WriteTheorems.v ===== *)
(** What a write of the chunk manager records and stores (theorems on
    [ChunkManager.writeFileStripe]). *)

From S2P Require Import Prelude DS Isal RSCode RSDecode RSTheorems File ChunkManager AccessTheorems StripeTheorems.

Import ChunkManager.
#[local] Open Scope outcome_scope.

(** Lists that are filled from the left. *)
Lemma fill_next {A} (g : nat -> A) (i : nat) (x y : A) (rest : list A) :
  y = g i -> <[i := y]> (map g (seq 0 i) ++ x :: rest) = map g (seq 0 (S i)) ++ rest.
Proof.
  intros ->. rewrite insert_app_r_alt by (by rewrite length_map, length_seq).
  rewrite length_map, length_seq, Nat.sub_diag, seq_S, map_app, <- app_assoc. done.
Qed.

Lemma filter_iff_in {A} (P Q : A -> Prop) `{forall x, Decision (P x), forall x, Decision (Q x)} (l : list A) :
  (forall x, x ∈ l -> P x <-> Q x) -> filter P l = filter Q l.
Proof.
  induction l as [|x l IH]; intros Hiff; [done|]. rewrite !filter_cons.
  rewrite IH by (intros; apply Hiff; by right).
  destruct (decide (P x)) as [Hp|Hp], (decide (Q x)) as [Hq|Hq]; try done;
    exfalso; [apply Hq|apply Hp]; apply Hiff; try done; left.
Qed.

Section write.
Context `{Isal, Md5} (w : world).
Implicit Types m : ChunkManager.t.

(** Foreground writes. *)
Context (Hbg : ackRedundancyInBackground w = false).
Context (k n : nat) (spare : list Z) (reqs : list ChunkEvent.t) (cs0 : list Chunk.t) (m1 : ChunkManager.t).
Context (Hspare : (length spare <= n)%nat) (Hcs : length cs0 = n).

(** The reply to the request for chunk [i]; without a container there is none. *)
Definition reply (i : nat) : option ChunkEvent.t :=
  if (i <? length spare)%nat then send w m1 (reqs !!! i) else None.

Definition stored (i : nat) : bool :=
  bool_decide (ChunkEvent.opcode <$> reply i = Some PUT_CHUNK_REP_SUCCESS).

(** The agent stored the chunk and, if this is checked, has the checksum. *)
Definition acked (i : nat) : bool :=
  match reply i with
  | Some r => stored i && (negb (verifyChunkChecksum w)
                || bool_decide (Chunk.md5 (cs0 !!! i) = Chunk.md5 (ChunkEvent.chunks r !!! 0%nat)))
  | None => false
  end.

Definition final_id (i : nat) : Z :=
  match reply i with
  | Some r => if acked i then default [] (ChunkEvent.containerIds r) !!! 0%nat else INVALID_CONTAINER_ID
  | None => INVALID_CONTAINER_ID
  end.

Definition final_chunk (i : nat) : Chunk.t :=
  match reply i with
  | Some r => if acked i then Chunk.set_chunkVersion (cs0 !!! i)
                                (Chunk.chunkVersion (ChunkEvent.chunks r !!! 0%nat))
              else cs0 !!! i
  | None => cs0 !!! i
  end.

(** A container was chosen for the chunk, but the chunk is not there. *)
Definition lost (i : nat) : bool :=
  (i <? length spare)%nat && negb (acked i) && negb (spare !!! i =? INVALID_CONTAINER_ID).

(** The state of the loop before iteration [i]. *)
Definition written (i : nat) (st : write_state) : Prop :=
  wgot st = length (filter (fun j => acked j = true) (seq 0 i)) /\ wbg st <= 0 /\
  wall st = forallb (fun j => negb (lost j)) (seq 0 i) /\
  wids st = map final_id (seq 0 i) ++ replicate (n - i) INVALID_CONTAINER_ID /\
  wchunks st = map final_chunk (seq 0 i) ++ drop i cs0 /\
  wind st = map stored (seq 0 i) ++ replicate (n - i) false /\ after m1 [] (wman st).

Lemma written_next i st st' :
  (i < n)%nat -> written i st ->
  wgot st' = (wgot st + if acked i then 1 else 0)%nat -> wbg st' <= 0 ->
  wall st' = wall st && negb (lost i) -> wids st' = <[i := final_id i]> (wids st) ->
  wchunks st' = <[i := final_chunk i]> (wchunks st) -> wind st' = <[i := stored i]> (wind st) ->
  after m1 [] (wman st') -> written (S i) st'.
Proof.
  intros Hi (Hg & _ & Hw & Hid & Hc & Hind & _) Hg' Hb' Hw' Hid' Hc' Hind' Ha'. unfold written.
  rewrite Hg', Hw', Hid', Hc', Hind', Hg, Hw, Hid, Hc, Hind.
  destruct (lookup_lt_is_Some_2 cs0 i) as [c Hci]; [lia|].
  replace (n - i)%nat with (S (n - S i)) by lia. cbn [replicate].
  rewrite (drop_S _ c) by done. rewrite !(fill_next _ _ _ _ _ eq_refl).
  split_and!; try done.
  - rewrite seq_S, filter_app, length_app. cbn [filter]. f_equal. unfold filter; simpl.
    destruct (acked i) eqn:E; by case_decide.
  - rewrite seq_S, forallb_app. simpl. by rewrite andb_true_r.
Qed.

Lemma record_foreground i r st : wbg st <= 0 -> (i < length spare)%nat ->
  let c := wchunks st !!! i in
  let rc := ChunkEvent.chunks r !!! 0%nat in
  let ok := bool_decide (ChunkEvent.opcode r = PUT_CHUNK_REP_SUCCESS) in
  record_reply w spare i r st =
  if ok && (negb (verifyChunkChecksum w) || bool_decide (Chunk.md5 c = Chunk.md5 rc)) then
    mk_write (wgot st + 1) (wbg st) (wall st)
      (<[i := default [] (ChunkEvent.containerIds r) !!! 0%nat]> (wids st))
      (<[i := Chunk.set_chunkVersion c (Chunk.chunkVersion rc)]> (wchunks st)) (<[i := ok]> (wind st)) (wman st)
  else
    mk_write (wgot st) (wbg st) (wall st && (spare !!! i =? INVALID_CONTAINER_ID))
      (<[i := INVALID_CONTAINER_ID]> (wids st)) (wchunks st) (<[i := ok]> (wind st)) (wman st).
Proof.
  intros Hb Hi. unfold record_reply.
  destruct (Z.leb_spec (Z.of_nat (length spare) - wbg st) (Z.of_nat i)); [lia|]. cbn [orb].
  by destruct (bool_decide _), (verifyChunkChecksum w).
Qed.

Lemma insert_same_invalid i st : written i st -> (i < n)%nat ->
  <[i := INVALID_CONTAINER_ID]> (wids st) = wids st /\ <[i := cs0 !!! i]> (wchunks st) = wchunks st /\
  <[i := false]> (wind st) = wind st /\ wchunks st !!! i = cs0 !!! i.
Proof.
  intros (_ & _ & _ & -> & -> & -> & _) Hi.
  destruct (lookup_lt_is_Some_2 cs0 i) as [c Hci]; [lia|].
  rewrite (drop_S _ c) by done. replace (n - i)%nat with (S (n - S i)) by lia.
  rewrite (list_lookup_total_correct _ _ _ Hci).
  assert (forall A (g : nat -> A) x rest, (map g (seq 0 i) ++ x :: rest) !! i = Some x) as Hl.
  { intros. rewrite lookup_app_r; rewrite length_map, length_seq; [|lia]. by rewrite Nat.sub_diag. }
  split_and!; try (apply list_insert_id; apply Hl). by apply list_lookup_total_correct, Hl.
Qed.

Lemma send_after m m' r : after m [] m' -> send w m' r = send w m r.
Proof. intros (_ & _ & Hm & _). unfold send. by rewrite Hm. Qed.

Lemma write_step_spec i st : written i st -> (i < n)%nat ->
  exists st', write_step w k n spare reqs i st = Ok st' /\ written (S i) st'.
Proof using Hcs Hspare.
  intros Hw Hi. pose proof Hw as (Hg & Hb & _ & _ & _ & _ & Ha).
  destruct (insert_same_invalid i st Hw Hi) as (Hid & Hch & Hind & Hci).
  unfold write_step. destruct (Nat.ltb_spec i (length spare)) as [Hs|Hs].
  2:{ assert (reply i = None) as Hr by (unfold reply; by rewrite (proj2 (Nat.ltb_ge _ _) Hs)).
      eexists. split; [done|]. eapply written_next; [done|exact Hw|..]; cbn;
        unfold lost, acked, final_id, final_chunk, stored; rewrite ?Hr, ?(proj2 (Nat.ltb_ge _ _) Hs);
        cbn; rewrite ?andb_true_r; try done; lia. }
  rewrite (proj2 (Nat.ltb_lt i n) Hi), orb_true_r.
  destruct (Nat.eqb_spec n i); [lia|]. rewrite andb_false_r. cbn [access obind].
  rewrite (proj2 (Nat.ltb_ge n i)), andb_false_r by lia.
  set (bg := if (k <? i)%nat then wbg st - 1 else wbg st).
  assert (bg <= 0) as Hbg' by (unfold bg; destruct (k <? i)%nat; lia).
  set (st1 := mk_write _ bg _ _ _ _ _). assert (after m1 [] (wman st1)) as Ha1.
  { apply (after_trans m1 (wman st) _ [] []); [done|]. by apply after_issue. }
  assert (reply i = send w m1 (reqs !!! i)) as Hr by (unfold reply; by rewrite (proj2 (Nat.ltb_lt _ _) Hs)).
  change (wman {| wgot := _ |}) with (wman st1). rewrite (send_after m1) by done. rewrite <- Hr.
  destruct (reply i) as [r|] eqn:Hri.
  - rewrite record_foreground by done. eexists. split; [done|].
    cbn [st1 wgot wbg wall wids wchunks wind wman] in *. rewrite Hci.
    set (ok := bool_decide (ChunkEvent.opcode r = PUT_CHUNK_REP_SUCCESS)).
    assert (stored i = ok) as Hst.
    { unfold stored, ok. rewrite Hri. csimpl. apply bool_decide_ext. split; congruence. }
    assert (acked i = ok && (negb (verifyChunkChecksum w) || bool_decide (Chunk.md5 (cs0 !!! i) =
      Chunk.md5 (ChunkEvent.chunks r !!! 0%nat)))) as Hack by (unfold acked; by rewrite Hri, Hst).
    rewrite <- Hack. eapply written_next; [done|exact Hw|..];
      unfold final_id, final_chunk, lost; rewrite ?Hri, ?Hst, ?(proj2 (Nat.ltb_lt _ _) Hs);
      destruct (acked i); cbn; try done; try lia.
    + by rewrite andb_true_r.
    + by rewrite negb_involutive.
  - eexists. split; [done|]. cbn [st1 wgot wbg wall wids wchunks wind wman] in *.
    eapply written_next; [done|exact Hw|..];
      unfold lost, acked, final_id, final_chunk, stored; rewrite ?Hri, ?(proj2 (Nat.ltb_lt _ _) Hs);
      cbn; try done; try lia.
    + by rewrite negb_involutive.
    + rewrite Hid. by destruct (_ =? _).
Qed.

(** The whole loop. *)
Lemma replies_loop st : written 0 st ->
  exists st', for_outcome (write_step w k n spare reqs) 0 n st = Ok st' /\ written n st'.
Proof using Hcs Hspare.
  intros Hst. apply (for_outcome_ok (fun i st => written i st)); [done|].
  intros j st1 Hj Hw. apply write_step_spec; [done|lia].
Qed.
End write.

(** * The chunks of a file *)

Section chunks.
Context `{Isal, Md5} (w : world) (Hbg : ackRedundancyInBackground w = false).
Context (rs : RSCode.t) (Hkn : (0 < RSCode.k rs <= RSCode.n rs)%nat).
Context (m : ChunkManager.t) (f : File.t) (spare : list Z).
Context (Hf : length (file_chunks f) = RSCode.n rs) (Hspare : (length spare <= RSCode.n rs)%nat).
Notation k := (RSCode.k rs).
Notation n := (RSCode.n rs).

(** The chunks with their checksums, the requests, and the manager after these
    were sent. *)
Definition summed : list Chunk.t := map (fun c => snd (Chunk.computeMD5 c)) (file_chunks f).
Definition put_requests : list ChunkEvent.t := imap (put_request m spare) summed.
Definition sent_manager : ChunkManager.t := issue m n (take (length spare) put_requests).

Definition ack (i : nat) : bool := acked w spare put_requests summed sent_manager i.
Definition kept (i : nat) : bool := stored w spare put_requests sent_manager i.
Definition num_acked : nat := length (filter (fun i => ack i = true) (seq 0 n)).
Definition none_lost : bool :=
  forallb (fun i => negb (lost w spare put_requests summed sent_manager i)) (seq 0 n).

(** The file as it is after the write. *)
Definition written_file : File.t :=
  File.set_chunk_info f (File.numChunks f)
    (Some (map (final_id w spare put_requests summed sent_manager) (seq 0 n)))
    (Some (map (final_chunk w spare put_requests summed sent_manager) (seq 0 n)))
    (File.chunksCorrupted f).

Lemma required_all : required_containers rs = n.
Proof using Hkn.
  unfold required_containers. cbn [RSCode.storeCodeChunksOnly]. unfold RSCode.getNumDataChunks,
    RSCode.getNumCodeChunks, RSCode.getNumChunksPerNode. rewrite Nat.div_1_r. clear -Hkn. lia.
Qed.

(** What is left to do after the loop. *)
Definition after_loop (isOverwrite : bool) (bg : Z) (m2 : ChunkManager.t) : outcome (bool * File.t * Z * ChunkManager.t) :=
  let undo := if isOverwrite then revertFile w m2 written_file (Some (map kept (seq 0 n)))
              else deleteFile w m2 written_file (Some (map kept (seq 0 n))) in
  if none_lost || negb isOverwrite && (k <=? num_acked)%nat then Ok (true, written_file, bg, m2)
  else let* (_, m3) := undo in Ok (false, written_file, bg, m3).

Lemma write_chunks_loop isOverwrite :
  exists bg m2, write_chunks w m rs f spare isOverwrite = after_loop isOverwrite bg m2 /\
    bg <= 0 /\ after sent_manager [] m2.
Proof using Hbg Hkn Hf Hspare.
  unfold write_chunks. rewrite required_all, Hbg, Hf, Nat.leb_refl. cbn [access obind].
  assert (imap (fun i c => if (i <? n)%nat then snd (Chunk.computeMD5 c) else c) (file_chunks f) = summed) as ->.
  { unfold summed. apply list_eq. intros i. rewrite list_lookup_imap, list_lookup_fmap.
    destruct (file_chunks f !! i) eqn:E; [|done]. apply lookup_lt_Some in E. csimpl.
    destruct (Nat.ltb_spec i n); [done|lia]. }
  assert (length summed = n) as Hs by (unfold summed; by rewrite length_map).
  rewrite take_ge by lia. fold put_requests.
  assert ((if writeRedundancyInBackground w then n `min` length spare else length spare)%nat
    = length spare) as -> by (destruct (writeRedundancyInBackground w); lia).
  fold sent_manager. unfold RSCode.getNumDataChunks, RSCode.getNumCodeChunks.
  replace (k + (n - k))%nat with n by lia.
  edestruct (replies_loop w k n spare put_requests summed sent_manager) as (st & -> & Hst); [done..| |].
  { unfold written. cbn. rewrite Nat.sub_0_r. split_and!; try done; try lia. apply after_refl. }
  destruct Hst as (Hg & Hb & Hw & Hid & Hc & Hind & Ha).
  rewrite Nat.sub_diag, app_nil_r in Hid, Hind. rewrite drop_ge, app_nil_r in Hc by lia.
  cbn [obind]. rewrite Hw, Hid, Hc, Hind, Hg. fold none_lost. fold written_file.
  change (length (filter (fun j => acked w spare put_requests summed sent_manager j = true) (seq 0 n)))
    with num_acked.
  exists (wbg st), (wman st). split; [|done]. unfold after_loop. fold (kept).
  destruct none_lost; cbn [negb orb andb]; rewrite ?andb_false_r, ?andb_true_r; [done|].
  destruct isOverwrite; cbn [negb andb]; [done|].
  by destruct (Nat.ltb_spec num_acked k), (Nat.leb_spec k num_acked); try lia.
Qed.
End chunks.

(** * Sizes *)

Lemma getChunkSize_le `{Isal} rs c : (0 < RSCode.k rs)%nat ->
  RSCode.getChunkSize rs (u32 (c * Z.of_nat (RSCode.k rs))) <= u32 c.
Proof.
  intros Hk. unfold RSCode.getChunkSize, u32. set (K := Z.of_nat (RSCode.k rs)).
  assert (0 < K) as HK by lia. rewrite <- (Z.mul_mod_idemp_l c) by lia.
  pose proof (Z.mod_pos_bound c 4294967296 ltac:(lia)) as Hc. set (c' := c mod 4294967296) in *.
  pose proof (Z.mod_pos_bound ((c' * K) mod 4294967296 + K - 1) 4294967296 ltac:(lia)) as Hb.
  destruct (decide (c' * K < 4294967296)) as [Hs|Hs].
  - rewrite (Z.mod_small (c' * K)) in * by nia.
    apply Z.lt_succ_r, Z.div_lt_upper_bound; [done|].
    pose proof (Z.mod_le (c' * K + K - 1) 4294967296 ltac:(nia) ltac:(lia)). nia.
  - apply Z.lt_succ_r, Z.div_lt_upper_bound; [done|]. nia.
Qed.

Lemma max_stripe_size_spec `{Isal} rs c : (0 < RSCode.k rs)%nat ->
  max_stripe_size rs c = Ok (u32 (c * Z.of_nat (RSCode.k rs))).
Proof.
  intros Hk. unfold max_stripe_size, RSCode.getNumChunksPerNode, RSCode.getNumDataChunks, RSCode.getExtraDataSize.
  rewrite Z.quot_1_r, Z.sub_0_r. cbn [shrink]. unfold RSCode.getNumChunksPerNode. rewrite Z.mul_1_r.
  pose proof (getChunkSize_le rs c Hk) as Hle.
  assert (u32 (u32 (c * Z.of_nat (RSCode.k rs))) = u32 (c * Z.of_nat (RSCode.k rs))) as ->
    by (unfold u32; apply Z.mod_mod; lia).
  assert (0 <= RSCode.getChunkSize rs (u32 (c * Z.of_nat (RSCode.k rs)))) as Hge.
  { unfold RSCode.getChunkSize. apply Z.div_pos; [|lia]. apply Z.mod_pos_bound. lia. }
  pose proof (Z.mod_pos_bound c 4294967296 ltac:(lia)) as Hc. fold (u32 c) in Hc.
  rewrite (u32_small (RSCode.getChunkSize _ _)) by lia.
  destruct (Z.ltb_spec (u32 c) (RSCode.getChunkSize rs (u32 (c * Z.of_nat (RSCode.k rs))))); [lia|done].
Qed.

(** * Encoding a file *)

Section encode.
Context `{IsalLaws} (w : world) (rs : RSCode.t) (Hrs : rs_ok rs).
Context (m m0 : ChunkManager.t) (f : File.t).
Context (Hinst : file_instance w m f = Ok (Some rs, m0)).
Context (Hn : CodingMeta.n (File.codingMeta f) = Z.of_nat (RSCode.n rs)).
Context (Hk : CodingMeta.k (File.codingMeta f) = Z.of_nat (RSCode.k rs)).
Notation k := (RSCode.k rs).
Notation n := (RSCode.n rs).

(** The size of a full stripe, and the id of the first chunk of the stripe at
    the offset of the file. *)
Definition full_stripe : Z := u32 (i32 (CodingMeta.maxChunkSize (File.codingMeta f)) * Z.of_nat k).
Definition first_id : Z := i32 (u64 (File.offset f / full_stripe * Z.of_nat n)).

Definition encoded_chunk (d : list Z) (cs i : nat) : Chunk.t :=
  place_chunk f first_id i (stripe_chunk rs d cs i).

Lemma encodeFile_spec align d cs :
  align_data w rs f align = Ok (Some d) -> data_ok rs d cs ->
  RSCode.getChunkSize rs (u32 (File.length f)) = Z.of_nat cs ->
  (forall i, (i < n)%nat -> is_Some (mem w i)) -> full_stripe <> 0 ->
  exists f1, encodeFile w m f align = Ok (true, f1, m0) /\
    File.chunks f1 = Some (map (encoded_chunk d cs) (seq 0 n)) /\ File.numChunks f1 = Z.of_nat n /\
    File.codingMeta f1 = CodingMeta.mk (CodingMeta.coding (File.codingMeta f))
      (CodingMeta.codingState (File.codingMeta f)) (CodingMeta.n (File.codingMeta f))
      (CodingMeta.k (File.codingMeta f)) (CodingMeta.f (File.codingMeta f)) 0
      (CodingMeta.maxChunkSize (File.codingMeta f)).
Proof using Hrs H0 Hinst Hn Hk.
  intros Hal Hd Hsz Hmem Hfull. unfold encodeFile. rewrite Hinst. cbn [obind]. rewrite Hal. cbn [obind].
  cbn [File.length File.set_range File.set_policy]. rewrite (encode_stripe Hrs Hd) by done.
  unfold getMaxDataSizePerStripe. cbn [CodingMeta.coding CodingMeta.maxChunkSize].
  assert (getCodingInstance w m0 (CodingMeta.coding (File.codingMeta f)) (Z.of_nat n) (Z.of_nat k)
    = Ok (Some rs, m0)) as ->.
  { rewrite <- Hn, <- Hk. apply (file_instance_cached w w m m0 m0 f rs Hinst eq_refl). }
  cbn [obind]. rewrite Z.mul_1_r, max_stripe_size_spec by (destruct Hrs; lia). cbn [obind].
  fold full_stripe. rewrite (proj2 (Z.eqb_neq full_stripe 0) Hfull). cbn [access obind].
  eexists. split; [done|]. cbn. rewrite length_map, length_seq. split_and!; try done. f_equal.
  apply list_eq. intros i. rewrite list_lookup_imap, !list_lookup_fmap.
  destruct (seq 0 n !! i) as [x|] eqn:E; [|done]. apply lookup_seq in E as [-> _]. done.
Qed.
End encode.

(** * Writing a stripe *)

Section stripe.
Context `{IsalLaws, Md5} (w : world) (rs : RSCode.t) (m m0 : ChunkManager.t) (f : File.t) (spare : list Z)
  (align : bool) (d : list Z) (cs : nat).
Notation k := (RSCode.k rs).
Notation n := (RSCode.n rs).

(** The stripe [d] of the file [f] can be encoded and sent in the foreground: the
    code is that of the storage class and of the file, memory is available, and
    at most one container per chunk was chosen. *)
Record can_write : Prop := {
  cw_code : rs_ok rs;
  cw_class : class_instance m (File.storageClass f) = Some rs;
  cw_instance : file_instance w m f = Ok (Some rs, m0);
  cw_n : CodingMeta.n (File.codingMeta f) = Z.of_nat n;
  cw_k : CodingMeta.k (File.codingMeta f) = Z.of_nat k;
  cw_foreground : ackRedundancyInBackground w = false;
  cw_malloc : forall z, is_Some (malloc w z);
  cw_mem : forall i, (i < n)%nat -> is_Some (mem w i);
  cw_align : align_data w rs f align = Ok (Some d);
  cw_data : data_ok rs d cs;
  cw_size : RSCode.getChunkSize rs (u32 (File.length f)) = Z.of_nat cs;
  cw_full : full_stripe rs f <> 0;
  cw_batch : (0 < default_n w)%nat;
  cw_spare : (length spare <= n)%nat
}.

(** The operation that undoes a failed write. *)
Definition undo_op (isOverwrite : bool) : Opcode := if isOverwrite then RVT_CHUNK_REQ else DEL_CHUNK_REQ.
Definition undo_rep (isOverwrite : bool) : Opcode :=
  if isOverwrite then RVT_CHUNK_REP_SUCCESS else DEL_CHUNK_REP_SUCCESS.

Lemma after_loop_spec f1 isOverwrite bg m2 :
  can_write -> File.numChunks f1 = Z.of_nat n -> length (file_chunks f1) = n ->
  file_instance w m2 f1 = Ok (Some rs, m2) ->
  let f' := written_file w rs m0 f1 spare in
  let ok := none_lost w rs m0 f1 spare || negb isOverwrite && (k <=? num_acked w rs m0 f1 spare)%nat in
  exists m', after_loop w rs m0 f1 spare isOverwrite bg m2 = Ok (ok, f', bg, m') /\
    after m2 (if ok then [] else imap (request (file_ids f') (file_chunks f') (undo_op isOverwrite) m2)
                (filter (fun i => kept w rs m0 f1 spare i = true) (seq 0 n))) m'.
Proof.
  intros Hcw Hn Hl Hi f' ok. unfold after_loop. fold f' ok. destruct ok.
  { exists m2. split; [done|apply after_refl]. }
  destruct (operateOnAliveChunks_spec w m2 f' (Some (map (kept w rs m0 f1 spare) (seq 0 n)))
    (undo_op isOverwrite) (undo_rep isOverwrite) (Some rs) m2) as (m' & Heq & Ha).
  - by destruct isOverwrite.
  - unfold f'. cbn. rewrite Hn. destruct (cw_code Hcw). lia.
  - apply (cw_batch Hcw).
  - unfold f'. cbn. rewrite !length_map, length_seq, Hn. lia.
  - done.
  - exists m'. assert (alive_chunks f' (Some (map (kept w rs m0 f1 spare) (seq 0 n))) =
      filter (fun i => kept w rs m0 f1 spare i = true) (seq 0 n)) as Hal.
    { unfold alive_chunks, f'. cbn [File.numChunks written_file File.set_chunk_info]. rewrite Hn, Nat2Z.id.
      apply filter_iff_in. intros i [_ Hlt]%elem_of_seq. csimpl.
      rewrite list_lookup_fmap, lookup_seq_lt by lia. csimpl. rewrite bool_decide_eq_true. split; congruence. }
    rewrite Hal in *. split; [|done].
    destruct isOverwrite; unfold revertFile, deleteFile, undo_op, undo_rep in *; by rewrite Heq.
Qed.

Lemma writeFileStripe_spec isOverwrite :
  can_write ->
  exists f1 bg m2 m',
    encodeFile w m f align = Ok (true, f1, m0) /\
    File.chunks f1 = Some (map (encoded_chunk rs f d cs) (seq 0 n)) /\
    File.numChunks f1 = Z.of_nat n /\
    file_instance w m' f1 = Ok (Some rs, m') /\
    after (sent_manager rs m0 f1 spare) [] m2 /\
    let f' := written_file w rs m0 f1 spare in
    let ok := none_lost w rs m0 f1 spare || negb isOverwrite && (k <=? num_acked w rs m0 f1 spare)%nat in
    writeFileStripe w m f spare align isOverwrite = Ok (ok, f', bg, m') /\
    after m2 (if ok then [] else imap (request (file_ids f') (file_chunks f') (undo_op isOverwrite) m2)
                (filter (fun i => kept w rs m0 f1 spare i = true) (seq 0 n))) m'.
Proof.
  intros Hcw. destruct (encodeFile_spec w rs (cw_code Hcw) m m0 f (cw_instance Hcw) (cw_n Hcw) (cw_k Hcw)
    align d cs (cw_align Hcw) (cw_data Hcw) (cw_size Hcw) (cw_mem Hcw) (cw_full Hcw)) as (f1 & Henc & Hch & Hnum & Hcm).
  assert (forall mx, _codings mx = _codings m0 -> file_instance w mx f1 = Ok (Some rs, mx)) as Hcache.
  { intros mx Hx. unfold file_instance. rewrite Hcm. cbn [CodingMeta.coding CodingMeta.n CodingMeta.k].
    apply (file_instance_cached w w m m0 mx f rs (cw_instance Hcw) Hx). }
  assert (length (file_chunks f1) = n) as Hl.
  { unfold file_chunks. rewrite Hch. cbn. by rewrite length_map, length_seq. }
  destruct (write_chunks_loop w (cw_foreground Hcw) rs (proj1 (cw_code Hcw)) m0 f1 spare Hl (cw_spare Hcw)
    isOverwrite) as (bg & m2 & Hloop & _ & Ha).
  pose proof Ha as (_ & Hc2 & _).
  destruct (after_loop_spec f1 isOverwrite bg m2 Hcw Hnum Hl (Hcache m2 Hc2)) as (m' & Heq & Ham).
  exists f1, bg, m2, m'. pose proof Ham as (_ & Hc' & _). cbn zeta. split_and!; try done.
  - apply Hcache. by rewrite Hc', Hc2.
  - unfold writeFileStripe. rewrite (cw_class Hcw).
    destruct (malloc w _) eqn:Em; [|destruct (cw_malloc Hcw (Z.to_nat (u32 (i32 (RSCode.getChunkSize rs
      (u32 (File.length f))) * Z.of_nat (RSCode.getNumCodeChunks rs))))); congruence].
    rewrite Henc. cbn [obind]. by rewrite Hloop.
Qed.
End stripe.

(** * Reading back what was written *)

Section readback.
Context `{IsalLaws, Md5} (w : world) (rs : RSCode.t) (m m0 : ChunkManager.t) (f : File.t) (spare : list Z)
  (align : bool) (d : list Z) (cs : nat) (Hcw : can_write w rs m m0 f spare align d cs).
Notation k := (RSCode.k rs).
Notation n := (RSCode.n rs).

(** The chunk ids of the stripe are [int]s. *)
Definition ids_fit : Prop :=
  0 <= File.offset f /\ File.offset f / full_stripe rs f * Z.of_nat n + Z.of_nat n < 2147483648.

Lemma full_stripe_pos : 0 < full_stripe rs f.
Proof using Hcw.
  pose proof (cw_full _ _ _ _ _ _ _ _ _ Hcw). unfold full_stripe, u32 in *.
  pose proof (Z.mod_pos_bound (i32 (CodingMeta.maxChunkSize (File.codingMeta f)) * Z.of_nat k)
    4294967296 ltac:(lia)). lia.
Qed.

Lemma first_id_spec : ids_fit -> first_id rs f = File.offset f / full_stripe rs f * Z.of_nat n.
Proof using Hcw.
  intros [Ho Hf]. unfold first_id. pose proof full_stripe_pos as Hp.
  pose proof (Z.div_pos _ _ Ho Hp). rewrite u64_small, i32_small by nia. done.
Qed.

Lemma written_chunk f1 i :
  File.chunks f1 = Some (map (encoded_chunk rs f d cs) (seq 0 n)) -> (i < n)%nat ->
  let c := file_chunks (written_file w rs m0 f1 spare) !!! i in
  Chunk.size c = Z.of_nat cs /\ Chunk.md5 c = MD5 (chunk_bytes rs d cs i) /\
  Chunk.chunkId c = i32 (Z.of_nat i + first_id rs f).
Proof using Hcw.
  intros Hch Hi c.
  assert (c = final_chunk w spare (put_requests m0 f1 spare) (summed f1) (sent_manager rs m0 f1 spare) i) as ->.
  { unfold c, file_chunks. cbn. apply list_lookup_total_correct. by rewrite list_lookup_fmap, lookup_seq_lt. }
  assert (summed f1 !!! i = snd (Chunk.computeMD5 (encoded_chunk rs f d cs i))) as Hs.
  { unfold summed, file_chunks. rewrite Hch. cbn [default id]. rewrite map_map. apply list_lookup_total_correct.
    by rewrite list_lookup_fmap, lookup_seq_lt. }
  destruct (cw_data _ _ _ _ _ _ _ _ _ Hcw) as (Hcs & _).
  assert (Chunk.bytes (encoded_chunk rs f d cs i) = chunk_bytes rs d cs i) as Hb.
  { unfold Chunk.bytes, encoded_chunk. cbn. apply take_ge.
    unfold chunk_bytes. rewrite length_map, length_seq. lia. }
  assert (snd (Chunk.computeMD5 (encoded_chunk rs f d cs i)) =
    Chunk.mk (File.namespaceId f) (File.uuid f) (i32 (Z.of_nat i + first_id rs f))
      (Some (chunk_bytes rs d cs i)) (Z.of_nat cs) true (File.version f) "" (MD5 (chunk_bytes rs d cs i))) as He.
  { unfold Chunk.computeMD5. destruct (Z.leb_spec (Chunk.size (encoded_chunk rs f d cs i)) 0) as [Hle|Hle];
      [cbn in Hle; lia|]. rewrite Hb. done. }
  unfold final_chunk. rewrite Hs, He.
  destruct (reply _ _ _ _ _) as [r|]; [destruct (acked _ _ _ _ _ _)|]; done.
Qed.

Lemma written_stripe_file f1 :
  ids_fit -> File.chunks f1 = Some (map (encoded_chunk rs f d cs) (seq 0 n)) ->
  File.numChunks f1 = Z.of_nat n ->
  stripe_file (rs := rs) (data := d) (cs := cs) (written_file w rs m0 f1 spare).
Proof using Hcw.
  intros Hfit Hch Hnum. unfold stripe_file. split; [done|]. split; [cbn; by rewrite length_map, length_seq|].
  split; [cbn; by rewrite length_map, length_seq|]. intros i Hi.
  destruct (written_chunk f1 i Hch Hi) as (-> & -> & ->). split; [done|]. split; [done|].
  rewrite (first_id_spec Hfit). destruct Hfit as [Ho Hf].
  pose proof full_stripe_pos as Hp.
  pose proof (Z.div_pos _ _ Ho Hp). rewrite i32_small by nia. split; [nia|].
  rewrite Z.mod_add by lia. apply Z.mod_small. lia.
Qed.

(** A chunk that is listed is acknowledged. *)
Lemma count_prefix (P : nat -> bool) (a b : nat) :
  (a <= b)%nat -> (forall i, (i < a)%nat -> P i = true) ->
  (a <= length (filter (fun i => P i = true) (seq 0 b)))%nat.
Proof using.
  clear. intros Hab HP. replace b with (a + (b - a))%nat by lia. rewrite seq_app, filter_app, length_app.
  rewrite (filter_all _ (seq 0 a)); [rewrite length_seq; lia|].
  apply Forall_forall. intros i [_ Hi]%elem_of_seq. apply HP. lia.
Qed.

Lemma enough_acked f1 isOverwrite :
  (k <= length spare)%nat -> Forall (fun c => c <> INVALID_CONTAINER_ID) spare ->
  none_lost w rs m0 f1 spare || negb isOverwrite && (k <=? num_acked w rs m0 f1 spare)%nat = true ->
  (k <= num_acked w rs m0 f1 spare)%nat.
Proof using Hcw.
  intros Hk Hv [Hok|Hok]%orb_true_iff; [|by apply andb_true_iff in Hok as [_ ?%Nat.leb_le]].
  pose proof (cw_spare _ _ _ _ _ _ _ _ _ Hcw). etrans; [exact Hk|]. apply count_prefix; [done|].
  intros i Hi. unfold none_lost in Hok. rewrite forallb_forall in Hok.
  specialize (Hok i ltac:(apply in_seq; lia)). unfold lost, ack in *.
  rewrite (proj2 (Nat.ltb_lt _ _) Hi) in Hok.
  destruct (acked _ _ _ _ _ _); [done|]. cbn in Hok. rewrite negb_involutive in Hok.
  apply Z.eqb_eq in Hok. rewrite Forall_forall in Hv. exfalso. eapply Hv; [|exact Hok].
  by apply list_elem_of_lookup_total_2.
Qed.

(** The agents name in a reply to a write the container of the request. *)
Definition echoes : Prop :=
  forall id addr r rep, net w id addr r = Some rep -> ChunkEvent.opcode r = PUT_CHUNK_REQ ->
    ChunkEvent.containerIds rep = ChunkEvent.containerIds r.

Lemma acked_listed f1 i :
  echoes -> Forall (fun c => c <> INVALID_CONTAINER_ID) spare -> length (file_chunks f1) = n ->
  ack w rs m0 f1 spare i = true -> (i < n)%nat ->
  file_ids (written_file w rs m0 f1 spare) !!! i = spare !!! i /\ (i < length spare)%nat.
Proof using.
  intros Hecho Hv Hl Hack Hi.
  assert (file_ids (written_file w rs m0 f1 spare) !!! i =
    final_id w spare (put_requests m0 f1 spare) (summed f1) (sent_manager rs m0 f1 spare) i) as ->.
  { cbn. apply list_lookup_total_correct. by rewrite list_lookup_fmap, lookup_seq_lt. }
  unfold ack, final_id in *. rewrite Hack. unfold acked, reply in Hack |- *.
  destruct (Nat.ltb_spec i (length spare)) as [Hs|Hs]; [|done]. split; [|done].
  destruct (send w _ _) as [r|] eqn:E; [|done]. unfold send in E.
  destruct (_ !! _) as [addr|]; [|done].
  assert (put_requests m0 f1 spare !!! i = put_request m0 spare i (summed f1 !!! i)) as Hreq.
  { apply list_lookup_total_correct. unfold put_requests. rewrite list_lookup_imap.
    rewrite (list_lookup_lookup_total_lt (summed f1)); [done|]. unfold summed. rewrite length_map. lia. }
  rewrite (Hecho _ _ _ _ E) by (by rewrite Hreq). rewrite Hreq. cbn.
  by rewrite (list_lookup_lookup_total_lt spare).
Qed.
End readback.


(** A chunk that an agent stored with another checksum is not listed, so the
    request that should remove it names no container and is not sent. *)
Lemma mismatch_not_removed `{Isal, Md5} w rs m f1 spare op m2 j i :
  (i < RSCode.n rs)%nat -> kept w rs m f1 spare i = true -> ack w rs m f1 spare i = false ->
  _containerToAgentMap m2 !! INVALID_CONTAINER_ID = None ->
  let f' := written_file w rs m f1 spare in
  send w m2 (request (file_ids f') (file_chunks f') op m2 j i) = None.
Proof.
  intros Hi Hk Ha Hm f'. unfold send, request, chunk_request. cbn [ChunkEvent.containerIds default id].
  assert (file_ids f' !!! i = INVALID_CONTAINER_ID) as ->.
  { unfold f', file_ids. cbn. apply list_lookup_total_correct. rewrite list_lookup_fmap, lookup_seq_lt by done.
    cbn. f_equal. unfold final_id. unfold ack in Ha. rewrite Ha. by destruct (reply _ _ _ _ _). }
  change ([INVALID_CONTAINER_ID] !!! 0%nat) with INVALID_CONTAINER_ID. by rewrite Hm.
Qed.

