(* ===== verification/ChunkSample.v ===== *)
(** Concrete runs of the chunk manager: a (4, 2) code, four containers, a file
    whose second stripe is written and read.  They show that the hypotheses of
    the theorems can be met and record what happens in some corner cases. *)

From stdpp Require Import pretty.
From S2P Require Import Prelude DS Isal Gf256 RSCode RSDecode RSTheorems File ChunkManager AccessTheorems.
From S2P Require Import StripeTheorems WriteTheorems.

Import ChunkManager.
#[local] Open Scope outcome_scope.

Module ChunkSample.

(** Equal sums mean equal data. *)
#[local] Instance sum_md5 : Md5 := fun l => l.
#[local] Instance decimal_uuid : UuidPrinter := pretty.
#[local] Existing Instances Gf256.isal Gf256.isal_laws.

Definition rs : RSCode.t := sample_code false.
Definition bytes_of (x : nat) : list Z := chunk_bytes rs sample_data 3 x.

Definition class : StorageClass.t := StorageClass.init "c" 1 3 RS rs.

Definition manager : t :=
  mk {["c" := class]} {["RS_4_2" := Some rs]}
     (<[10 := "a"]> (<[11 := "b"]> (<[12 := "c"]> {[13 := "d"]}))) 0 [].

Definition container (r : ChunkEvent.t) : Z := default [] (ChunkEvent.containerIds r) !!! 0%nat.

(** Agents that store what they are given and return the stripe; [down] names the
    containers that do not answer and [corrupt] those with damaged chunks. *)
Definition agents (down corrupt : list Z) (_ : Z) (_ : string) (r : ChunkEvent.t) : option ChunkEvent.t :=
  if bool_decide (container r ∈ down) then None
  else
    let c := ChunkEvent.chunks r !!! 0%nat in
    match ChunkEvent.opcode r with
    | GET_CHUNK_REQ =>
        let b := if bool_decide (container r ∈ corrupt) then [1; 1; 1]
                 else bytes_of (Z.to_nat (Chunk.chunkId c mod 4)) in
        Some (ChunkEvent.set_chunks (ChunkEvent.set_opcode r GET_CHUNK_REP_SUCCESS) 1
                [Chunk.set_buffer c (Some b) 3 true])
    | PUT_CHUNK_REQ => Some (ChunkEvent.set_opcode r PUT_CHUNK_REP_SUCCESS)
    | DEL_CHUNK_REQ => Some (ChunkEvent.set_opcode r DEL_CHUNK_REP_SUCCESS)
    | CHK_CHUNK_REQ => Some (ChunkEvent.set_opcode r CHK_CHUNK_REP_SUCCESS)
    | VRF_CHUNK_REQ => Some (ChunkEvent.set_chunks (ChunkEvent.set_opcode r VRF_CHUNK_REP_SUCCESS) 1
                               [ChunkEvent.chunks r !!! 1%nat])
    | _ => None
    end.

Definition world (down corrupt : list Z) (bgack bgwrite : bool) : ChunkManager.world :=
  mk_world (sample_options false) true bgack bgwrite 3 (fun _ => Some []) (fun z => Some (replicate z 0))
    (replicate 16 0) (agents down corrupt).

(** The second stripe of a file. *)
Definition meta : CodingMeta.t := CodingMeta.init RS 4 2 3 1.
Definition file : File.t :=
  File.set_range (File.set_size (File.set_policy (File.set_ids File.reset 1 77 (Some "f")) meta "c") 12)
    6 6 (Some sample_data).

(** The same after it was stored in the four containers. *)
Definition stored_chunk (x : nat) : Chunk.t :=
  Chunk.mk 1 77 (4 + Z.of_nat x) None 3 true (-1) "" (bytes_of x).
Definition stored_file : File.t :=
  File.set_range (File.set_chunk_info file 4 (Some [10; 11; 12; 13]) (Some (map stored_chunk (seq 0 4))) None)
    6 6 None.

Lemma instance m w : _codings m = _codings manager -> file_instance w m stored_file = Ok (Some rs, m).
Proof. intros E. unfold file_instance, getCodingInstance. cbn -[lookup]. by rewrite E. Qed.

Lemma code_ok : rs_ok rs.
Proof. exact (init_ok _ _ (sample_init false)). Qed.

Lemma stored_stripe : stripe_file (rs := rs) (data := sample_data) (cs := 3) stored_file.
Proof.
  split; [done|]. split; [done|]. split; [done|]. intros x Hx. cbn in Hx.
  do 4 (destruct x as [|x]; [by repeat split|]). lia.
Qed.

Lemma length_bytes_of x : length (bytes_of x) = 3%nat.
Proof. done. Qed.

(** Whatever is down or corrupted, the agents are honest. *)
Lemma agents_honest down corrupt m f :
  (forall x, (x < 4)%nat -> Chunk.chunkId (file_chunks f !!! x) = 4 + Z.of_nat x) ->
  honest (world down corrupt false false) (rs := rs) (data := sample_data) (cs := 3) m f.
Proof.
  intros Hch j x r Hx Hs Hop. unfold send, request, chunk_request in Hs.
  cbn [ChunkEvent.containerIds default id] in Hs.
  destruct (_containerToAgentMap m !! _); [|done]. cbn [net world] in Hs. unfold agents in Hs.
  destruct (bool_decide _); [done|]. cbn [ChunkEvent.opcode] in Hs. injection Hs as <-.
  cbn [ChunkEvent.chunks ChunkEvent.set_chunks ChunkEvent.set_opcode]. split; [done|].
  unfold honest_chunk. cbn. split; [done|]. split; [|split; [by eexists|done]].
  split; [cbn; lia|]. cbn. intros b [= <-]. by destruct (bool_decide _).
Qed.

(** One container is down, one is corrupted, and the file is read. *)
Lemma read_stripe_witness :
  exists f' m', readFileStripe (world [12] [11] false false) manager stored_file [true; true; true; true]
                = Ok (true, f', m') /\
    exists d, File.data f' = Some d /\ take 6 d = sample_data.
Proof.
  destruct (read_stripe (world [12] [11] false false) rs sample_data 3 manager manager stored_file
    [true; true; true; true]) as (f' & m' & Hr & Hh).
  - exact code_ok.
  - apply sample_data_ok.
  - by apply instance.
  - apply stored_stripe.
  - apply agents_honest. intros x Hx. by do 4 (destruct x as [|x]; [done|]); lia.
  - exists (replicate 12 0). split; [reflexivity|]. cbn. lia.
  - reflexivity.
  - match type of Hr with _ = Ok (?b, _, _) => assert (b = true) as Hok by (vm_compute; reflexivity) end.
    rewrite Hok in Hr. exists f', m'. split; [exact Hr|]. destruct (Hh Hok) as (_ & d & Hd & Ht).
    exists d. split; [exact Hd|exact Ht].
Defined.

Lemma can_write_sample down bgwrite spare : (length spare <= 4)%nat ->
  can_write (world down [] false bgwrite) rs manager manager file spare false sample_data 3.
Proof.
  intros Hs. constructor; [exact code_ok|reflexivity|exact (instance manager (world down [] false bgwrite) eq_refl)|reflexivity|reflexivity|reflexivity| | |
    reflexivity|apply sample_data_ok|reflexivity|done|cbn; lia|done].
  - intros z. by eexists.
  - intros i _. by eexists.
Qed.

(** Three containers answer, one is down: the append succeeds without chunk 2. *)
Definition write_world : ChunkManager.world := world [12] [] false false.
Definition outcome_of_write : outcome (bool * File.t * Z * t) :=
  writeFileStripe write_world manager file [10; 11; 12; 13] false false.
Definition written : File.t := match outcome_of_write with Ok (_, f, _, _) => f | _ => file end.
Definition manager_after : t := match outcome_of_write with Ok (_, _, _, m) => m | _ => manager end.

Lemma written_ids : file_ids written = [10; 11; -1; 13].
Proof. vm_compute. reflexivity. Qed.

Lemma written_chunk_ids : map Chunk.chunkId (file_chunks written) = [4; 5; 6; 7].
Proof. vm_compute. reflexivity. Qed.

Lemma addresses_after : _containerToAgentMap manager_after = _containerToAgentMap manager.
Proof. vm_compute. reflexivity. Qed.

Lemma written_sums :
  map (fun c => (Chunk.size c, Chunk.md5 c)) (file_chunks written) = map (fun x => (3, bytes_of x)) [0; 1; 2; 3]%nat.
Proof. vm_compute. reflexivity. Qed.

Lemma lookup_sums (cs : list Chunk.t) (l : list (Z * list Z)) x :
  map (fun c => (Chunk.size c, Chunk.md5 c)) cs = l -> (x < length l)%nat ->
  (Chunk.size (cs !!! x), Chunk.md5 (cs !!! x)) = l !!! x.
Proof.
  intros <- Hx. rewrite length_map in Hx. symmetry. apply list_lookup_total_correct.
  by rewrite list_lookup_fmap, (list_lookup_lookup_total_lt cs).
Qed.

(** A container that is up returns a good chunk. *)
Lemma agents_answer m ids cs j x addr :
  _containerToAgentMap m !! (ids !!! x) = Some addr -> Chunk.size (cs !!! x) = 3 ->
  Chunk.md5 (cs !!! x) = bytes_of (Z.to_nat (Chunk.chunkId (cs !!! x) mod 4)) ->
  is_Some (check_reply (world [] [] false false) GET_CHUNK_REQ GET_CHUNK_REP_SUCCESS (cs !!! x)
    (send (world [] [] false false) m (request ids cs GET_CHUNK_REQ m j x))).
Proof.
  intros Ha Hs Hm. unfold send, request, chunk_request. cbn [ChunkEvent.containerIds default id].
  change ([ids !!! x] !!! 0%nat) with (ids !!! x). rewrite Ha. cbn [net world]. unfold agents.
  rewrite bool_decide_eq_false_2 by apply not_elem_of_nil. cbn [ChunkEvent.opcode ChunkEvent.chunks].
  unfold check_reply.
  cbn [ChunkEvent.opcode ChunkEvent.set_chunks ChunkEvent.set_opcode verifyChunkChecksum world].
  rewrite bool_decide_eq_true_2 by done. cbn [ChunkEvent.chunks negb orb].
  match goal with |- context [Chunk.verifyMD5 ?c] => assert (Chunk.verifyMD5 c = true) as -> end.
  { unfold Chunk.verifyMD5. apply bool_decide_eq_true_2. exact Hm. }
  match goal with |- context [Chunk.size _ =? ?z] => change z with 3 end.
  rewrite Hs. cbn. by eexists.
Qed.

Lemma chunks_set_range f o l d : file_chunks (File.set_range f o l d) = file_chunks f.
Proof. done. Qed.

Lemma lookup_chunk_ids (cs : list Chunk.t) ids x :
  map Chunk.chunkId cs = ids -> (x < length ids)%nat -> Chunk.chunkId (cs !!! x) = ids !!! x.
Proof.
  intros <- Hx. rewrite length_map in Hx. symmetry. apply list_lookup_total_correct.
  by rewrite list_lookup_fmap, (list_lookup_lookup_total_lt cs).
Qed.

Lemma write_succeeds :
  writeFileStripe write_world manager file [10; 11; 12; 13] false false = Ok (true, written, -1, manager_after).
Proof.
  change (outcome_of_write = Ok (true, written, -1, manager_after)).
  assert (match outcome_of_write with Ok (true, _, -1, _) => true | _ => false end = true) as Hok
    by (vm_compute; reflexivity).
  unfold written, manager_after. destruct outcome_of_write as [| |[[[ok f] bg] m]]; try done.
  destruct ok; [|done]. by destruct bg as [|p|[p|p|]].
Qed.

#[local] Opaque written manager_after outcome_of_write bytes_of.



(** Removal of three of four chunks. *)
Lemma delete_every_alive_chunk_witness :
  exists m', deleteFile (world [] [] false false) manager stored_file (Some [true; false; true; true]) = Ok (true, m') /\
    map container (_sent m') = [10; 12; 13].
Proof.
  destruct (delete_every_alive_chunk (world [] [] false false) manager stored_file (Some [true; false; true; true])
    (Some rs) manager) as (m' & Heq & (_ & _ & _ & Hs & _));
    [reflexivity|cbn; lia|cbn; lia|by apply instance|].
  exists m'. split; [rewrite Heq; do 2 f_equal; vm_compute; reflexivity|].
  rewrite Hs. vm_compute. reflexivity.
Defined.

(** One of four chunks is missing: the others are counted. *)
Lemma check_file_marks_witness :
  exists m', checkFile (world [11] [] false false) manager stored_file [false; false; false; false]
             = Ok (3, [true; false; true; true], m').
Proof.
  destruct (check_file_marks (world [11] [] false false) manager stored_file [false; false; false; false] rs manager)
    as (m' & Heq & _); [reflexivity|cbn; lia|reflexivity|by apply instance|].
  exists m'. rewrite Heq. do 2 f_equal; vm_compute; reflexivity.
Defined.

(** All chunks are missing: the number of failed chunks is reported as 0. *)
Lemma check_file_none_left :
  match checkFile (world [10; 11; 12; 13] [] false false) manager stored_file [false; false; false; false] with
  | Ok (num, ind, _) => num = 0 /\ ind = [false; false; false; false]
  | _ => False
  end.
Proof. vm_compute. split; reflexivity. Qed.

Lemma verify_file_marks_witness :
  exists m', verifyFileChecksums (world [] [] false false) manager stored_file
             = Ok (1, [false; true; false; false], m').
Proof.
  rewrite (verify_file_marks (world [] [] false false) manager stored_file 10);
    [|reflexivity|cbn; lia| |].
  - exists (issue manager 1 [verify_request manager stored_file 10]). do 2 f_equal; vm_compute; reflexivity.
  - vm_compute. repeat constructor; set_solver.
  - intros rep Hrep. vm_compute in Hrep. injection Hrep as <-. vm_compute.
    apply sublist_cons, sublist_skip. apply sublist_nil_l.
Defined.

Lemma sample_factory down corrupt bgack bgwrite :
  make_coding RS (options_for (world down corrupt bgack bgwrite) 4 2) = Ok (Some rs).
Proof.
  unfold make_coding, genCoding. cbn [Z.eqb RS].
  change (options_for (world down corrupt bgack bgwrite) 4 2) with (sample_options false). by rewrite sample_init.
Qed.

Lemma storage_class_codes_witness :
  exists m sc, init (world [] [] false false) (mk ∅ ∅ ∅ 0 []) [("c", 4, 2, 1, 3, RS)] = Ok m /\
    _storageClasses m !! "c" = Some sc /\ RSCode.n (StorageClass._codingInstance sc) = 4%nat /\
    class_instance m "c" = Some (StorageClass._codingInstance sc).
Proof.
  assert (init (world [] [] false false) (mk ∅ ∅ ∅ 0 []) [("c", 4, 2, 1, 3, RS)]
          = Ok (mk {["c" := class]} {["RS_4_2" := Some rs]} ∅ 0 [])) as E.
  { cbn [init]. unfold add_class. rewrite sample_factory. reflexivity. }
  assert (defaults_ok (world [] [] false false)) as Hd by (split; cbn; lia).
  destruct (storage_class_codes (world [] [] false false) ∅ 0 [] _ _ "c" class Hd E
    (lookup_singleton_eq _ _)) as (_ & _ & _ & Hc & _).
  do 2 eexists. split; [exact E|]. split; [apply lookup_singleton_eq|]. split; [reflexivity|exact Hc].
Defined.

Lemma coding_instance_exact_witness :
  exists code m', getCodingInstance (world [] [] false false) manager RS 6 4 = Ok (Some code, m') /\
    Z.of_nat (RSCode.n code) = 6 /\ Z.of_nat (RSCode.k code) = 4.
Proof.
  destruct (coding_instance_exact (world [] [] false false) manager 6 4) as (code & m' & Hg & Hn & Hk & _);
    [|lia|lia|lia|by exists code, m'].
  intros key c Hkey. cbn in Hkey. apply lookup_singleton_Some in Hkey as [<- <-].
  exists 4, 2. split; [reflexivity|apply sample_factory].
Defined.

(** ** Corner cases *)

(** Without any container the append of a stripe is reported as successful. *)
Lemma write_without_containers :
  match writeFileStripe (world [] [] false false) manager file [] false false with
  | Ok (ok, f, _, m) => ok = true /\ file_ids f = [-1; -1; -1; -1] /\ _sent m = []
  | _ => False
  end.
Proof. vm_compute. repeat split. Qed.

(** Redundancy in the background: three of four chunks are stored, one more than
    the data needs, but a request that is moved to the foreground is not counted,
    and the append fails. *)
Lemma background_not_counted :
  match writeFileStripe (world [10] [] true false) manager file [10; 11; 12; 13] false false with
  | Ok (ok, f, _, _) => ok = false /\ file_ids f = [-1; 11; 12; 13]
  | _ => False
  end.
Proof. vm_compute. split; reflexivity. Qed.

(** When the redundancy is also written in the background, the first request that
    is moved to the foreground was never sent, and its thread does not exist. *)
Lemma background_write_undefined :
  match writeFileStripe (world [10] [] true true) manager file [10; 11; 12; 13] false false with
  | Undef => True
  | _ => False
  end.
Proof. vm_compute. exact I. Qed.
End ChunkSample.
