(* ===== verification/ChunkRepair.v ===== *)
(** Repair of a stripe by the chunk manager ([ChunkManager::repairFile] and
    [accessGroupedChunks] in [src/proxy/chunk_manager.cc]): at the proxy, which
    reads chunks (or partially encoded groups of chunks, with CAR), decodes and
    stores the lost ones, or at the agent of the first spare container, which gets
    the repair plan in one request. *)

From S2P Require Import Prelude DS Isal RSCode File ChunkManager.

Import ChunkManager.
#[local] Open Scope outcome_scope.

Module ChunkRepair.

(** The configuration of repair. *)
Record config := mk_config { isRepairAtProxy : bool; isRepairUsingCAR : bool }.

Section repair.
Context `{Isal, Md5} (w : world).
Implicit Types m : t.

(** ** Groups of chunks *)

(** Group [i] in an array with rows of [num + 1] entries: the size of the group,
    then its chunks. *)
Definition group_row (num : nat) (chunkGroups : list Z) (i : nat) : list nat :=
  map (fun j => Z.to_nat (chunkGroups !!! (i * (num + 1) + j + 1)%nat))
      (seq 0 (Z.to_nat (chunkGroups !!! (i * (num + 1))%nat))).

(** The groups cut down to the input chunks [ids], without empty ones; the scan
    ends when all inputs were found.  [found] counts the chunks so far. *)
Fixpoint sub_groups (ids : list nat) (groups : list (list nat)) (found : nat) : list (list nat) :=
  match groups with
  | [] => []
  | g :: groups =>
      if (found <? length ids)%nat then
        let sel := filter (fun c => c ∈ ids) g in
        match sel with
        | [] => sub_groups ids groups found
        | _ => sel :: sub_groups ids groups (found + length sel)
        end
      else []
  end.

(** The coefficient of chunk [c] in the repair matrix: its position among the
    inputs. *)
Definition coefficient (ids : list nat) (matrix : list Z) (c : nat) : Z :=
  matrix !!! default 0%nat (fst <$> list_find (fun x => x = c) ids).

(** [accessGroupedChunks]: one encoding request per group, sent to the agent of
    its first chunk. *)
Fixpoint grouped_requests m (f : File.t) (base : Z) (groups : list (list nat)) (matrix : list Z) (j : nat)
    : list ChunkEvent.t :=
  match groups with
  | [] => []
  | g :: groups =>
      let n := length g in
      ChunkEvent.mk (event_id m j) ENC_CHUNK_REQ (Z.of_nat n) (Some (map (fun c => file_ids f !!! c) g))
        (map (fun c => Chunk.set_freeData (Chunk.setId Chunk.reset (File.namespaceId f) (File.uuid f)
                                             (i32 (Z.of_nat c + base))) false) g)
        (CodingMeta.mk UNKNOWN_CODE (Some (take n matrix)) 0 0 0 (Z.of_nat n) 0)
        false 0 0 [] [] "" zero_tag zero_tag zero_tag
      :: grouped_requests m f base groups (drop n matrix) (j + 1)
  end.

Definition accessGroupedChunks m (f : File.t) (base : Z) (groups : list (list nat)) (matrix : list Z)
    : bool * list (option ChunkEvent.t) * t :=
  let reqs := grouped_requests m f base groups matrix 0 in
  let reps := map (send w m) reqs in
  (forallb (fun r => bool_decide (ChunkEvent.opcode <$> r = Some ENC_CHUNK_REP_SUCCESS)) reps, reps,
   issue m (length reqs) reqs).

(** ** Repair at the agent *)

(** The addresses of the agents of [cids], each followed by a semicolon. *)
Fixpoint address_list m (cids : list Z) : option string :=
  match cids with
  | [] => Some ""
  | c :: cids =>
      match _containerToAgentMap m !! c, address_list m cids with
      | Some a, Some rest => Some (a +:+ ";" +:+ rest)
      | _, _ => None
      end
  end.

(** The chunk to rebuild as the request names it. *)
Definition target_chunk (f : File.t) (base : Z) (x : nat) : Chunk.t :=
  Chunk.set_fileVersion
    (Chunk.set_buffer (Chunk.setId Chunk.reset (File.namespaceId f) (File.uuid f) (i32 (base + Z.of_nat x)))
       None 0 true) (File.version f).

Definition repair_request m (f : File.t) (base : Z) (failed : list nat) (spare : list Z) (car : bool)
    (groups : list (list nat)) (numInput : nat) (matrix : list Z) (addrs : string) : ChunkEvent.t :=
  let ids := concat groups in
  ChunkEvent.mk (event_id m 0) RPR_CHUNK_REQ (Z.of_nat (length failed)) (Some (take (length failed) spare))
    (map (target_chunk f base) failed)
    (CodingMeta.mk (CodingMeta.coding (File.codingMeta f)) (Some matrix) 0 0 0 (Z.of_nat (length matrix)) 0)
    car (Z.of_nat (length groups)) (Z.of_nat numInput)
    (concat (map (fun g => Z.of_nat (length g) :: map (fun c => Chunk.chunkId (file_chunks f !!! c)) g) groups))
    (map (fun c => file_ids f !!! c) ids) addrs zero_tag zero_tag zero_tag.

(** The lost chunks are in the containers of the reply, and nothing is corrupted. *)
Fixpoint relocate (failed : list nat) (cids ids : list Z) : list Z :=
  match failed, cids with
  | x :: failed, c :: cids => relocate failed cids (<[x := c]> ids)
  | _, _ => ids
  end.

Definition clear_corrupted (f : File.t) : File.t :=
  File.set_chunk_info f (File.numChunks f) (File.containerIds f) (File.chunks f)
    ((fun l => replicate (Z.to_nat (File.numChunks f)) false ++ drop (Z.to_nat (File.numChunks f)) l)
       <$> File.chunksCorrupted f).

Definition repair_at_agent m (f : File.t) (failed : list nat) (spare : list Z) (car : bool)
    (groups : list (list nat)) (numInput : nat) (matrix : list Z) (addrs : string)
    : outcome (bool * File.t * t) :=
  let base := Chunk.chunkId (file_chunks f !!! 0%nat) in
  let r := repair_request m f base failed spare car groups numInput matrix addrs in
  let m' := issue m 1 [r] in
  match send w m r with
  | Some rep =>
      if bool_decide (ChunkEvent.opcode rep = RPR_CHUNK_REP_SUCCESS) then
        (* the reply has a container id for every chunk *)
        let cids := default [] (ChunkEvent.containerIds rep) in
        let* _ := access (if (length failed <=? length cids)%nat then Some tt else None) in
        let ids := relocate failed cids (file_ids f) in
        Ok (true, clear_corrupted (File.set_chunk_info f (File.numChunks f) (Some ids) (File.chunks f)
                                     (File.chunksCorrupted f)), m')
      else Ok (false, f, m')
  | None => Ok (false, f, m')
  end.

(** ** Repair at the proxy *)

(** The request that stores the [i]-th rebuilt chunk, chunk [x] of the file. *)
Definition rebuilt_chunk (f : File.t) (chunkSize : Z) (out : list Z) (i x : nat) : Chunk.t :=
  let len := Z.to_nat chunkSize in
  snd (Chunk.computeMD5 (Chunk.set_buffer (Chunk.copyMeta Chunk.reset (file_chunks f !!! x) true)
                           (Some (slice (i * len) len out)) chunkSize true)).

Definition store_requests m (f : File.t) (failed : list nat) (spare : list Z) (chunkSize : Z) (out : list Z)
    : list ChunkEvent.t :=
  imap (fun i x => chunk_request (event_id m i) PUT_CHUNK_REQ (rebuilt_chunk f chunkSize out i x) (spare !!! i))
    failed.

(** The replies: metadata and container of every chunk that was stored. *)
Fixpoint record_stored (failed : list nat) (reqs : list ChunkEvent.t) (f : File.t) (ok : bool) m
    : bool * File.t :=
  match failed, reqs with
  | x :: failed, r :: reqs =>
      match send w m r with
      | Some rep =>
          if bool_decide (ChunkEvent.opcode rep = PUT_CHUNK_REP_SUCCESS) then
            let c := Chunk.copyMeta (file_chunks f !!! x) (ChunkEvent.chunks r !!! 0%nat) true in
            record_stored failed reqs
              (File.set_chunk_info f (File.numChunks f)
                 (Some (<[x := default [] (ChunkEvent.containerIds rep) !!! 0%nat]> (file_ids f)))
                 (Some (<[x := c]> (file_chunks f))) (File.chunksCorrupted f)) ok m
          else record_stored failed reqs f false m
      | None => record_stored failed reqs f false m
      end
  | _, _ => (ok, f)
  end.

(** Decoding the inputs and storing the lost chunks.  The replies are received in
    entries [2 * numInput] and up of the array that holds the requests; with more
    lost chunks than that, requests and replies overlap. *)
Definition rebuild m (rs : RSCode.t) (f : File.t) (failed : list nat) (spare : list Z) (numInput : nat)
    (reps : list (option ChunkEvent.t)) : outcome (bool * File.t * t) :=
  let* first := access (reps !! 0%nat) in
  let chunkSize := Chunk.size (ChunkEvent.chunks (default ChunkEvent.reset first) !!! 0%nat) in
  let inputs := map (input_chunk rs) (take numInput reps) in
  let buffer := malloc w (Z.to_nat (u64 (i32 (chunkSize * Z.of_nat (length failed))))) in
  match RSCode.decode rs (local w) (length <$> buffer) true inputs true failed with
  | Undef => Undef
  | Fail => Ok (false, f, m)
  | Ok (out, _) =>
      let* _ := access (if (length failed <=? 2 * numInput)%nat then Some tt else None) in
      let reqs := store_requests m f failed spare chunkSize out in
      let (ok, f) := record_stored failed reqs f true m in
      Ok (ok, if ok then clear_corrupted f else f, issue m (length reqs) reqs)
  end.

(** ** [repairFile] *)

Definition repairFile (cfg : config) m (f : File.t) (chunkIndicator : list bool) (spare chunkGroups : list Z)
    (numChunkGroups : nat) : outcome (bool * File.t * t) :=
  let* (code, m) := file_instance w m f in
  match code with
  | None => Ok (false, f, m)
  | Some rs =>
      let failed := failed_chunks f chunkIndicator in
      (* failedNodes has n entries, a container is given for every lost chunk *)
      let* _ := access (if (length failed <=? RSCode.n rs)%nat then Some tt else None) in
      if bool_decide (failed = []) then Ok (true, f, m)
      else
        let (ok, plan) := RSCode.preDecode rs (local w) (local w) true failed (DecodingPlan.init 0) true in
        if negb ok then Ok (false, f, m)
        else
          let* _ := access (if (length failed <=? length spare)%nat then Some tt else None) in
          let numInput := DecodingPlan.minNumChunksToRetrieve plan in
          let ids := take numInput (DecodingPlan.inputChunkIds plan) in
          let matrix := default [] (DecodingPlan.repairMatrix plan) in
          let car := isRepairUsingCAR cfg && (length failed =? 1)%nat in
          let groups :=
            if car then sub_groups ids (map (group_row (Z.to_nat (File.numChunks f)) chunkGroups)
                                          (seq 0 numChunkGroups)) 0
            else [ids] in
          let submatrix := if car then map (coefficient ids matrix) (concat groups) else matrix in
          (* a row has numInput + 1 entries; at the agent, numInput entries hold the containers *)
          let* _ := access (if negb car || (if isRepairAtProxy cfg
                                            then forallb (fun g => length g <=? numInput)%nat groups
                                            else length (concat groups) <=? numInput)%nat
                            then Some tt else None) in
          if isRepairAtProxy cfg then
            if car then
              let '(ok, reps, m) := accessGroupedChunks m f (Chunk.chunkId (file_chunks f !!! 0%nat)) groups submatrix in
              if ok then rebuild m rs f failed spare (length groups) reps else Ok (false, f, m)
            else
              let* (ok, reps, _, _, m) := accessChunks w m (file_ids f) (file_chunks f) numInput GET_CHUNK_REQ
                                            GET_CHUNK_REP_SUCCESS (Some ids) None in
              if ok then rebuild m rs f failed spare numInput reps else Ok (false, f, m)
          else
            let cids := if car then map (fun g => file_ids f !!! (g !!! 0%nat)) groups
                        else map (fun x => file_ids f !!! x) ids ++ take (length failed - 1) (drop 1 spare) in
            match address_list m cids with
            | None => Ok (false, f, m)
            | Some addrs => repair_at_agent m f failed spare car groups numInput submatrix addrs
            end
  end.
End repair.
End ChunkRepair.
