(* ===== verification/RepairTheorems.v ===== *)
(** Correctness of the repair of a stripe (theorems on [ChunkRepair.repairFile]):
    at the agent, together with the agent's handler, and at the proxy. *)

From Stdlib Require Import Ascii.
From S2P Require Import Prelude DS Isal RSCode RSDecode RSTheorems File ChunkManager ChunkRepair AccessTheorems.
From S2P Require Import StripeTheorems WriteTheorems Container ContainerManager ManagerTheorems Agent AgentTheorems.

Import ChunkManager ChunkRepair.
#[local] Open Scope outcome_scope.

Section repair.
Context `{Hisal : Isal, Hlaws : !IsalLaws, Hmd5 : Md5} (w : world).
Implicit Types m : ChunkManager.t.

(** The chunks of a file carry its identity and are numbered in order. *)
Definition named (f : File.t) : Prop :=
  let base := Chunk.chunkId (file_chunks f !!! 0%nat) in
  forall x, (x < length (file_chunks f))%nat ->
    let c := file_chunks f !!! x in
    Chunk.namespaceId c = File.namespaceId f /\ Chunk.fuuid c = File.uuid f /\
    Chunk.fileVersion c = File.version f /\ Chunk.chunkId c = base + Z.of_nat x /\
    -2147483648 <= Chunk.chunkId c < 2147483648.

(** A stripe that can be repaired: at most [n - k] chunks are lost, the library
    inverts the rows of the others, and there is a container for each. *)
Record can_repair (rs : RSCode.t) m m0 (f : File.t) (ind : list bool) (spare : list Z) (data : list Z) (cs : nat)
    : Prop := {
  cr_code : rs_ok rs;
  cr_data : data_ok rs data cs;
  cr_instance : file_instance w m f = Ok (Some rs, m0);
  cr_stripe : stripe_file (rs := rs) (data := data) (cs := cs) f;
  cr_local : length (local w) = (RSCode.n rs * RSCode.n rs)%nat;
  cr_few : (0 < length (failed_chunks f ind) <= RSCode.n rs - RSCode.k rs)%nat;
  cr_spare : (length (failed_chunks f ind) <= length spare)%nat;
  cr_invertible : invertible (rs := rs) (alive_ids rs (failed_chunks f ind)) = true
}.

Section stripe.
Context {rs : RSCode.t} {m m0 : ChunkManager.t} {f : File.t} {ind : list bool} {spare data : list Z} {cs : nat}.
Context (Hcr : can_repair rs m m0 f ind spare data cs).
Notation k := (RSCode.k rs).
Notation n := (RSCode.n rs).
Notation failed := (failed_chunks f ind).
Notation inputs := (take k (alive_ids rs failed)).

Lemma failed_ok : ascending failed /\ Forall (fun x => (x < n)%nat) failed.
Proof using Hcr. apply failed_chunks_ok. apply (cr_stripe _ _ _ _ _ _ _ _ Hcr). Qed.

Lemma length_inputs : length inputs = k.
Proof using Hcr.
  destruct failed_ok as [Ha Hf]. pose proof (alive_length (rs := rs) Ha Hf).
  pose proof (cr_few _ _ _ _ _ _ _ _ Hcr). destruct (cr_code _ _ _ _ _ _ _ _ Hcr) as [? _].
  rewrite length_take. lia.
Qed.

Lemma inputs_lt : Forall (fun x => (x < n)%nat) inputs.
Proof using. apply Forall_take. by destruct (alive_ok (rs := rs) (failed := failed)). Qed.

(** The plan of the repair. *)
Lemma repair_plan : exists inv,
  gf_invert_matrix (sub_rows rs (alive_ids rs failed)) k = Some inv /\
  RSCode.preDecode rs (local w) (local w) true failed (DecodingPlan.init 0) true =
  (true, DecodingPlan.mk (Some (concat (repair_row_list rs inv failed))) (alive_ids rs failed) k).
Proof using Hcr Hlaws.
  destruct failed_ok as [Ha Hf]. pose proof Hcr as [Hrs _ _ _ Hl Hfew _ Hinv].
  unfold invertible in Hinv. apply bool_decide_eq_true in Hinv as [inv Hinv]. exists inv. split; [done|].
  rewrite (preDecode_result Hrs Ha Hf) by (done || (destruct (proj1 Hrs); nia)). by rewrite Hinv.
Qed.

(** Without CAR, [repairFile] reads the inputs or sends the plan. *)
Lemma repairFile_plain cfg groups num :
  isRepairUsingCAR cfg = false \/ length failed <> 1%nat -> exists inv,
  gf_invert_matrix (sub_rows rs (alive_ids rs failed)) k = Some inv /\
  let matrix := concat (repair_row_list rs inv failed) in
  repairFile w cfg m f ind spare groups num =
  if isRepairAtProxy cfg then
    let* (ok, reps, _, _, m') := accessChunks w m0 (file_ids f) (file_chunks f) k GET_CHUNK_REQ
                                   GET_CHUNK_REP_SUCCESS (Some inputs) None in
    if ok then rebuild w m' rs f failed spare k reps else Ok (false, f, m')
  else
    match address_list m0 (map (fun x => file_ids f !!! x) inputs ++ take (length failed - 1) (drop 1 spare)) with
    | None => Ok (false, f, m0)
    | Some addrs => repair_at_agent w m0 f failed spare false [inputs] k matrix addrs
    end.
Proof using Hcr Hlaws.
  intros Hcar. destruct repair_plan as (inv & Hinv & Hplan). exists inv. split; [done|].
  pose proof Hcr as [Hrs _ Hi _ _ Hfew Hsp _]. unfold repairFile. rewrite Hi. cbn [obind].
  destruct (Nat.leb_spec (length failed) n); [|lia]. cbn [access obind].
  rewrite bool_decide_eq_false_2 by (intros Hn; rewrite Hn in Hfew; simpl in Hfew; lia).
  rewrite Hplan. cbn [negb]. destruct (Nat.leb_spec (length failed) (length spare)); [|lia]. cbn [access obind].
  cbn [DecodingPlan.minNumChunksToRetrieve DecodingPlan.inputChunkIds DecodingPlan.repairMatrix default].
  assert (isRepairUsingCAR cfg && (length failed =? 1)%nat = false) as ->; [|done].
  destruct Hcar as [->|Hne%Nat.eqb_neq]; [done|]. by rewrite Hne, andb_false_r.
Qed.
End stripe.
End repair.

(** * The file after a repair *)

Lemma length_relocate failed cids ids : length (relocate failed cids ids) = length ids.
Proof.
  revert cids ids. induction failed as [|x failed IH]; intros [|c cids] ids; cbn [relocate]; try done.
  by rewrite IH, length_insert.
Qed.

Lemma stripe_file_same `{Isal, Md5} rs data cs f f' :
  stripe_file (rs := rs) (data := data) (cs := cs) f ->
  File.numChunks f' = File.numChunks f -> length (file_ids f') = length (file_ids f) ->
  file_chunks f' = file_chunks f -> stripe_file (rs := rs) (data := data) (cs := cs) f'.
Proof. intros (? & ? & ? & ?) Hn Hi Hc. unfold stripe_file. by rewrite Hn, Hi, Hc. Qed.

(** * Repair at the agent *)

Section agent.
Context {St E : Type} `{ContainerLaws St E, Md5, IsalLaws} (w : world).
Implicit Types m : ChunkManager.t.

(** The chunk that is asked for has the name of the lost chunk. *)
Lemma target_chunk_name f x :
  named f -> (x < length (file_chunks f))%nat ->
  Chunk.getChunkName (target_chunk f (Chunk.chunkId (file_chunks f !!! 0%nat)) x) =
  Chunk.getChunkName (file_chunks f !!! x).
Proof using.
  intros Hn Hx. destruct (Hn x Hx) as (Hns & Hu & Hv & Hid & Hr). unfold Chunk.getChunkName, target_chunk. cbn.
  rewrite Hns, Hu, Hv. rewrite i32_small by lia. by rewrite Hid.
Qed.

Lemma relocate_take failed cids ids : relocate failed (take (length failed) cids) ids = relocate failed cids ids.
Proof using.
  revert cids ids. induction failed as [|x failed IH]; intros [|c cids] ids; cbn [relocate length take]; try done.
Qed.

(** The addresses the request lists. *)
Lemma address_list_joined m cids addrs : address_list m cids = Some addrs ->
  addrs = joined (map (fun c => default "" (_containerToAgentMap m !! c)) cids).
Proof using.
  revert addrs. induction cids as [|c cids IH]; intros addrs Ha; cbn in Ha; [by injection Ha|].
  destruct (_containerToAgentMap m !! c) as [x|] eqn:Hx; [|done].
  destruct (address_list m cids) as [rest|]; [|done]. injection Ha as <-. cbn. by rewrite Hx, (IH rest).
Qed.

Lemma listed_addresses m cids cids' addrs :
  address_list m (cids ++ cids') = Some addrs ->
  (forall c a, _containerToAgentMap m !! c = Some a -> free_of ";"%char a) ->
  map (fun i => fst (nth_addr addrs (length cids + i) 0)) (seq 0 (length cids')) =
  map (fun c => default "" (_containerToAgentMap m !! c)) cids'.
Proof using.
  intros ->%address_list_joined Hfree. apply list_eq. intros i. rewrite !list_lookup_fmap.
  destruct (cids' !! i) as [c|] eqn:Hc; cbn.
  - rewrite (lookup_seq_lt _ _ _ (lookup_lt_Some _ _ _ Hc)). cbn. f_equal. apply nth_addr_joined.
    + apply Forall_fmap, Forall_true. intros x. cbn. destruct (_containerToAgentMap m !! x) eqn:Hx; [by eapply Hfree|constructor].
    + etrans; [apply list_lookup_fmap|]. rewrite lookup_app_r by lia. rewrite Nat.add_comm, Nat.add_sub. by rewrite Hc.
  - rewrite lookup_seq_ge; [done|]. by apply lookup_ge_None.
Qed.

(** The file after a repair at the agent. *)
Definition relocated (f : File.t) (failed : list nat) (spare : list Z) : File.t :=
  clear_corrupted (File.set_chunk_info f (File.numChunks f) (Some (relocate failed spare (file_ids f)))
                     (File.chunks f) (File.chunksCorrupted f)).

Section stripe.
Context {rs : RSCode.t} {m m0 : ChunkManager.t} {f : File.t} {ind : list bool} {spare data : list Z} {cs : nat}.
Context (Hcr : can_repair w rs m m0 f ind spare data cs) (Hnamed : named f).
Notation k := (RSCode.k rs).
Notation n := (RSCode.n rs).
Notation failed := (failed_chunks f ind).
Notation inputs := (take k (alive_ids rs failed)).
Notation base := (Chunk.chunkId (file_chunks f !!! 0%nat)).

Lemma relocated_stripe : stripe_file (rs := rs) (data := data) (cs := cs) (relocated f failed spare).
Proof using Hcr.
  eapply stripe_file_same; [apply (cr_stripe _ _ _ _ _ _ _ _ _ Hcr)|done| |done].
  unfold relocated. cbn. apply length_relocate.
Qed.

Lemma failed_lookup i : (i < length failed)%nat -> (failed !!! i < n)%nat.
Proof using Hcr.
  intros Hi. destruct (failed_ok w Hcr) as [_ Hf]. rewrite Forall_forall in Hf.
  by apply Hf, list_elem_of_lookup_total_2.
Qed.

(** Peers with the chunks of the stripe have the inputs the request names. *)
Lemma request_inputs_held (aw : Agent.world E) matrix addrs first : peers_hold aw rs data cs ->
  inputs_held aw (repair_request m0 f base failed spare false [inputs] k matrix addrs) first rs data cs inputs.
Proof using Hcr.
  intros Hpeers i x Hx ev r Hop _ Hc. destruct (Hpeers ev (fst (nth_addr addrs i 0)) r Hop) as (rep & Hn & Ho & Hd & Hs).
  exists rep. rewrite length_chunk_bytes. split; [done|]. split; [done|]. split; [|done]. rewrite Hd, Hc. cbn.
  pose proof (inputs_lt (rs := rs) (f := f) (ind := ind)) as Hlt. rewrite Forall_lookup in Hlt.
  pose proof Hcr as [_ _ _ (_ & _ & _ & Hcs) _ _ _ _]. destruct (Hcs x (Hlt i x Hx)) as (_ & _ & _ & Hid).
  rewrite app_nil_r, Nat.add_1_r, list_lookup_total_alt. cbn.
  pose proof (list_lookup_fmap (fun c => Chunk.chunkId (file_chunks f !!! c)) inputs i) as Hl. rewrite Hx in Hl.
  cbn in Hl. setoid_rewrite Hl. cbn. by rewrite Hid, Nat2Z.id.
Qed.

(** What an agent makes of the request. *)
Lemma repair_request_handled (aw : Agent.world E) (a : Agent.t St) inv addrs :
  CodingMeta.coding (File.codingMeta f) = RS ->
  gf_invert_matrix (sub_rows rs (alive_ids rs failed)) k = Some inv ->
  Agent.mem aw = true -> peers_hold aw rs data cs ->
  let r := repair_request m0 f base failed spare false [inputs] k (concat (repair_row_list rs inv failed)) addrs in
  exists a' e' puts, Agent.handle_rpr aw a r = Ok (a', e', puts) /\
  Agent.ids_of e' = take (length failed) spare /\
  map put_view puts =
    map (fun i => ([spare !!! i], Chunk.getChunkName (file_chunks f !!! (failed !!! i)),
                   Some (chunk_bytes rs data cs (failed !!! i)))) (seq 1 (length failed - 1)) /\
  map snd puts = map (fun i => fst (nth_addr addrs (k + i) 0)) (seq 0 (length failed - 1)) /\
  (ChunkEvent.opcode e' = RPR_CHUNK_REP_SUCCESS ->
   stored (Agent._containerManager a') (spare !!! 0%nat) (file_chunks f !!! (failed !!! 0%nat)) =
     Some (chunk_bytes rs data cs (failed !!! 0%nat)) /\
   Forall (fun q => exists rep, Agent.send aw q = Some rep /\
             ChunkEvent.opcode rep = PUT_CHUNK_REP_SUCCESS) puts).
Proof using Hcr Hnamed H1 H4.
  intros Hrs Hinv Hmem Hpeers r. destruct (failed_ok w Hcr) as [Ha Hf].
  pose proof Hcr as [Hok Hd _ (_ & _ & Hlc & Hcs) Hl Hfew Hsp _].
  assert (forall i, (i < length failed)%nat -> take (length failed) spare !!! i = spare !!! i /\
    Chunk.getChunkName (map (target_chunk f base) failed !!! i) = Chunk.getChunkName (file_chunks f !!! (failed !!! i)))
    as Hat.
  { intros i Hi. split; [by rewrite !list_lookup_total_alt, lookup_take_lt|]. rewrite lookup_total_map by done.
    apply target_chunk_name; [done|]. rewrite Hlc. by apply failed_lookup. }
  edestruct (agent_repair_spec aw a r rs data cs failed (local w) (local w) (DecodingPlan.init 0)
    (DecodingPlan.mk (Some (concat (repair_row_list rs inv failed))) (alive_ids rs failed) k))
    as (a' & e' & puts & Hh & Hids & _ & Hputs & Hto & Hst); try done.
  - destruct (proj1 Hok). nia.
  - rewrite (preDecode_result Hok Ha Hf) by (done || (destruct (proj1 Hok); nia)). by rewrite Hinv.
  - cbn. by rewrite (length_inputs w Hcr).
  - cbn. by rewrite length_map.
  - by apply request_inputs_held.
  - exists a', e', puts. split_and!; [done|done| |done|].
    + rewrite Hputs. apply map_ext_in. intros i [_ Hi]%in_seq. destruct (Hat i ltac:(lia)) as [Hs Hn].
      unfold Agent.ids_of. cbn. by rewrite Hs, Hn.
    + intros Hop. destruct (Hst Hop) as [Hs ?]. split; [|done]. rewrite <- Hs.
      destruct (Hat 0%nat ltac:(lia)) as [Hs0 Hn0]. unfold Agent.ids_of. cbn. rewrite Hs0.
      by apply stored_name.
Qed.
End stripe.
End agent.


(** * Repair at the proxy *)

(** Chunk [i] of the output of the decoder. *)
Lemma slice_concat {A B} (g : A -> list B) len (l : list A) i x :
  (forall a, length (g a) = len) -> l !! i = Some x -> slice (i * len) len (concat (map g l)) = g x.
Proof.
  intros Hg. revert i. induction l as [|a l IH]; intros [|i] Hi; simplify_eq/=.
  - unfold slice. rewrite drop_0. by rewrite take_app_length'.
  - rewrite <- (IH i Hi). unfold slice. rewrite drop_app_ge by (rewrite Hg; lia). f_equal. f_equal. rewrite Hg. lia.
Qed.

Lemma sublist_full {A} (l1 l2 : list A) : l1 `sublist_of` l2 -> (length l2 <= length l1)%nat -> l1 = l2.
Proof.
  induction 1 as [|x l1 l2 Hs IH|x l1 l2 Hs IH]; simpl; intros Hl; [done| |].
  - rewrite IH by lia. done.
  - apply sublist_length in Hs. lia.
Qed.

Section proxy.
Context `{Hisal : Isal, Hlaws : !IsalLaws, Hmd5 : Md5} (w : world).
Implicit Types m : ChunkManager.t.

(** The agent stored the chunk. *)
Definition put_ok m (r : ChunkEvent.t) : bool :=
  match send w m r with
  | Some rep => bool_decide (ChunkEvent.opcode rep = PUT_CHUNK_REP_SUCCESS)
  | None => false
  end.

Section stripe.
Context {rs : RSCode.t} {m m0 : ChunkManager.t} {f : File.t} {ind : list bool} {spare data : list Z} {cs : nat}.
Context (Hcr : can_repair w rs m m0 f ind spare data cs).
Notation k := (RSCode.k rs).
Notation n := (RSCode.n rs).
Notation failed := (failed_chunks f ind).
Notation inputs := (take k (alive_ids rs failed)).
Notation out := (concat (map (chunk_bytes rs data cs) failed)).
Notation stripe := (stripe_file (rs := rs) (data := data) (cs := cs)).

(** The good replies for [inputs] in order. *)
Notation good m0 := (goods w (file_ids f) (file_chunks f) GET_CHUNK_REQ GET_CHUNK_REP_SUCCESS m0 inputs).

Lemma inputs_good : honest w (rs := rs) (data := data) (cs := cs) m0 f -> length (good m0) = k ->
  map view (map (input_chunk rs) (map (Some ∘ snd) (good m0))) = map view (map (stripe_chunk rs data cs) inputs).
Proof using Hcr.
  intros Hh Hl. rewrite (goods_inputs w (cr_code _ _ _ _ _ _ _ _ _ Hcr) (data := data) (cs := cs) m0 f ind);
    [|apply (cr_stripe _ _ _ _ _ _ _ _ _ Hcr)|done|].
  - do 2 f_equal. apply sublist_full; [apply goods_sublist|].
    by rewrite length_map, Hl, (length_inputs w Hcr).
  - unfold read_goods. rewrite <- (take_drop k (alive_ids rs failed)) at 2.
    erewrite goods_app; [|apply (after_issue m0 (length inputs) (replicate (length inputs) (ChunkEvent.reset))), length_replicate|].
    + apply sublist_inserts_r. done.
    + by rewrite length_replicate.
Qed.

(** The decoder on them. *)
Lemma rebuild_decodes m1 reps :
  length reps = k -> map view (map (input_chunk rs) reps) = map view (map (stripe_chunk rs data cs) inputs) ->
  RSCode.useCAR rs = false \/ length failed <> 1%nat -> (length failed <= 2 * k)%nat ->
  Z.of_nat (n * cs) < 2147483648 -> (forall size b, malloc w size = Some b -> length b = size) ->
  rebuild w m1 rs f failed spare k reps =
  let reqs := store_requests m1 f failed spare (Z.of_nat cs) out in
  let (ok, f') := record_stored w failed reqs f true m1 in
  Ok (ok, if ok then clear_corrupted f' else f', issue m1 (length reqs) reqs).
Proof using Hcr Hlaws.
  intros Hl Hv Hcar H2k Hsz Hmalloc. pose proof Hcr as [Hrs Hd _ _ Hlo Hfew _ Hinv].
  destruct (failed_ok w Hcr) as [_ Hf]. pose proof (proj1 Hrs) as Hkn.
  unfold rebuild. destruct reps as [|first reps]; [simpl in Hl; lia|]. cbn [access obind lookup list_lookup].
  assert (Chunk.size (ChunkEvent.chunks (default ChunkEvent.reset first) !!! 0%nat) = Z.of_nat cs) as Hs.
  { apply (f_equal (fun l => l !! 0%nat)) in Hv. rewrite !list_lookup_fmap in Hv.
    destruct inputs as [|x ids]; [done|]. cbn in Hv. unfold view in Hv. by injection Hv as _ _ Hs. }
  rewrite Hs, (take_ge (first :: reps)) by lia. rewrite (decode_view _ _ _ _ _ _ _ _ Hv).
  rewrite (u64_small (i32 _)), i32_small by (rewrite ?i32_small; nia).
  assert (repaired rs inputs failed = failed) as Hrep by (unfold repaired; destruct failed; simpl in *; [lia|done]).
  erewrite (repair_chunks Hrs Hd (ids := inputs)); rewrite ?Hrep; try done; try lia.
  - unfold invertible in Hinv. apply bool_decide_eq_true in Hinv as [inv Hinv].
    assert (sub_rows rs inputs = sub_rows rs (alive_ids rs failed)) as ->
      by (unfold sub_rows; by rewrite take_take, Nat.min_id).
    rewrite Hinv. destruct (Nat.leb_spec (length failed) (2 * k)); [|lia]. done.
  - eapply ascending_sublist; [apply sublist_take|]. apply alive_ok.
  - apply inputs_lt.
  - by rewrite (length_inputs w Hcr).
  - unfold room. destruct (malloc w _) as [b|] eqn:Eb; [|done]. simpl. apply Hmalloc in Eb. lia.
Qed.

(** A request that stores chunk [x] of the stripe. *)
Definition stores (x : nat) (r : ChunkEvent.t) : Prop :=
  let c := ChunkEvent.chunks r !!! 0%nat in
  (x < n)%nat /\ Chunk.size c = Z.of_nat cs /\ Chunk.md5 c = MD5 (chunk_bytes rs data cs x) /\
  0 <= Chunk.chunkId c < 4294967296 /\ Chunk.chunkId c mod Z.of_nat n = Z.of_nat x.

Lemma stripe_record g x cid r : stripe g -> stores x r ->
  stripe (File.set_chunk_info g (File.numChunks g) (Some (<[x := cid]> (file_ids g)))
            (Some (<[x := Chunk.copyMeta (file_chunks g !!! x) (ChunkEvent.chunks r !!! 0%nat) true]> (file_chunks g)))
            (File.chunksCorrupted g)).
Proof using.
  intros (Hn & Hi & Hc & Hx) (Hlt & Hs). unfold stripe_file. cbn. rewrite !length_insert.
  split_and!; [done..|]. intros y Hy. destruct (decide (x = y)) as [<-|Hne].
  - rewrite list_lookup_total_insert_eq by lia. exact Hs.
  - rewrite list_lookup_total_insert_ne by done. by apply Hx.
Qed.

(** The replies: the file stays a stripe, and when all chunks are stored it has
    their containers. *)
Lemma record_stored_spec tgts reqs g ok m1 :
  Forall2 stores tgts reqs -> Forall (fun r => ChunkEvent.opcode r = PUT_CHUNK_REQ) reqs -> echoes w -> stripe g ->
  exists g', record_stored w tgts reqs g ok m1 = (ok && forallb (put_ok m1) reqs, g') /\ stripe g' /\
    (forallb (put_ok m1) reqs = true ->
     file_ids g' = relocate tgts (map (fun r => default [] (ChunkEvent.containerIds r) !!! 0%nat) reqs) (file_ids g)).
Proof using.
  intros HF Hop Hecho. revert g ok. induction HF as [|x r tgts reqs Hs HF IH]; intros g ok Hg.
  { exists g. cbn. by rewrite andb_true_r. }
  apply Forall_cons in Hop as [Hop1 Hop]. specialize (IH Hop). cbn [record_stored forallb map].
  destruct (put_ok m1 r) eqn:Hput; unfold put_ok in Hput.
  - destruct (send w m1 r) as [rep|] eqn:Hsend; [|done]. rewrite Hput. cbn [andb].
    edestruct (IH _ ok (stripe_record g x (default [] (ChunkEvent.containerIds rep) !!! 0%nat) r Hg Hs))
      as (g' & -> & Hg' & Hids). exists g'. split_and!; [done..|]. intros Hall. rewrite (Hids Hall). cbn.
    unfold send in Hsend. destruct (_ !! _) as [addr|]; [|done]. by rewrite (Hecho _ _ _ _ Hsend Hop1).
  - destruct (IH g false Hg) as (g' & Heq & Hg' & _). exists g'. rewrite andb_false_l, andb_false_r in *.
    split_and!; [|done|done]. destruct (send w m1 r) as [rep|]; [rewrite Hput|]; exact Heq.
Qed.

(** The requests store the lost chunks in the spare containers. *)
Lemma store_requests_ok m1 : let reqs := store_requests m1 f failed spare (Z.of_nat cs) out in
  Forall2 stores failed reqs /\ Forall (fun r => ChunkEvent.opcode r = PUT_CHUNK_REQ) reqs /\
  forall i r, reqs !! i = Some r ->
    let c := ChunkEvent.chunks r !!! 0%nat in let c0 := file_chunks f !!! (failed !!! i) in
    ChunkEvent.containerIds r = Some [spare !!! i] /\ Chunk.data c = Some (chunk_bytes rs data cs (failed !!! i)) /\
    Chunk.namespaceId c = Chunk.namespaceId c0 /\ Chunk.fuuid c = Chunk.fuuid c0 /\
    Chunk.fileVersion c = Chunk.fileVersion c0 /\ Chunk.chunkId c = Chunk.chunkId c0.
Proof using Hcr.
  intros reqs. pose proof Hcr as [_ (Hcs & _) _ (_ & _ & _ & Hch) _ _ _ _].
  destruct (failed_ok w Hcr) as [_ Hf].
  assert (forall i x, failed !! i = Some x -> exists c, reqs !! i = Some (chunk_request (event_id m1 i) PUT_CHUNK_REQ c (spare !!! i)) /\
    (let c0 := file_chunks f !!! x in Chunk.data c = Some (chunk_bytes rs data cs x) /\
     Chunk.size c = Z.of_nat cs /\ Chunk.md5 c = MD5 (chunk_bytes rs data cs x) /\
     Chunk.namespaceId c = Chunk.namespaceId c0 /\ Chunk.fuuid c = Chunk.fuuid c0 /\
     Chunk.fileVersion c = Chunk.fileVersion c0 /\ Chunk.chunkId c = Chunk.chunkId c0)) as Hreq.
  { intros i x Hi. eexists. unfold reqs, store_requests. rewrite list_lookup_imap, Hi. split; [done|].
    unfold rebuilt_chunk. rewrite Nat2Z.id, (slice_concat _ _ _ i x) by (done || apply length_chunk_bytes).
    unfold Chunk.computeMD5. cbn. destruct (Z.leb_spec (Z.of_nat cs) 0); [lia|]. cbn.
    unfold Chunk.bytes. cbn. by rewrite Nat2Z.id, take_ge by (rewrite length_chunk_bytes; lia). }
  assert (length reqs = length failed) as Hl by apply length_imap. split_and!.
  - apply Forall2_same_length_lookup_2; [done|]. intros i x r Hx Hr.
    destruct (Hreq i x Hx) as (c & Hc & _ & Hsz & Hm & _ & _ & _ & Hid). rewrite Hr in Hc. simplify_eq.
    assert (x < n)%nat as Hlt by (rewrite Forall_forall in Hf; by eapply Hf, list_elem_of_lookup_2).
    destruct (Hch x Hlt) as (_ & _ & Hb & Hmod). unfold stores. cbn. by rewrite Hsz, Hm, Hid.
  - apply Forall_lookup. intros i r Hr. destruct (lookup_lt_is_Some_2 failed i) as [x Hx].
    { rewrite <- Hl. by eapply lookup_lt_Some. }
    destruct (Hreq i x Hx) as (c & Hc & _). rewrite Hr in Hc. by simplify_eq.
  - intros i r Hr. destruct (lookup_lt_is_Some_2 failed i) as [x Hx].
    { rewrite <- Hl. by eapply lookup_lt_Some. }
    destruct (Hreq i x Hx) as (c & Hc & Hd & _ & _ & ? & ? & ? & ?). rewrite Hr in Hc. simplify_eq.
    rewrite (list_lookup_total_correct _ _ _ Hx). cbn. by split_and!.
Qed.

Lemma store_requests_ids m1 :
  map (fun r => default [] (ChunkEvent.containerIds r) !!! 0%nat)
    (store_requests m1 f failed spare (Z.of_nat cs) out) = take (length failed) spare.
Proof using Hcr.
  pose proof (cr_spare _ _ _ _ _ _ _ _ _ Hcr). apply list_eq_same_length with (length failed).
  { rewrite length_take. lia. }
  { unfold store_requests. by rewrite length_map, length_imap. }
  intros i x y Hi Hx Hy. apply list_lookup_fmap_Some in Hx as (r & -> & Hr).
  unfold store_requests in Hr. rewrite list_lookup_imap in Hr. destruct (failed !! i); simplify_eq/=.
  rewrite lookup_take_lt in Hy by lia. by apply list_lookup_total_correct in Hy.
Qed.
End stripe.
End proxy.


(** * Faults *)

(** With more lost chunks than twice the inputs, replies are received in the
    requests of other threads. *)
Theorem repair_replies_overlap `{Isal, Md5} w m1 rs f failed spare numInput rep reps out :
  let chunkSize := Chunk.size (ChunkEvent.chunks (default ChunkEvent.reset rep) !!! 0%nat) in
  RSCode.decode rs (local w) (length <$> malloc w (Z.to_nat (u64 (i32 (chunkSize * Z.of_nat (length failed))))))
    true (map (input_chunk rs) (take numInput (rep :: reps))) true failed = Ok out ->
  (2 * numInput < length failed)%nat ->
  match rebuild w m1 rs f failed spare numInput (rep :: reps) with Undef => True | _ => False end.
Proof.
  intros chunkSize Hd Hl. unfold rebuild. cbn [access obind lookup list_lookup]. fold chunkSize. rewrite Hd.
  destruct out. destruct (Nat.leb_spec (length failed) (2 * numInput)); [lia|]. done.
Qed.

(** The requests for groups of chunks leave out the version of the file: what they
    ask for is never a chunk of a file with a version other than 0. *)
Theorem grouped_requests_version `{Isal, Md5, UuidPrinterLaws} m f base groups matrix j r c x :
  named f -> File.version f <> 0 -> (x < length (file_chunks f))%nat ->
  r ∈ grouped_requests m f base groups matrix j -> c ∈ ChunkEvent.chunks r ->
  Chunk.getChunkName c <> Chunk.getChunkName (file_chunks f !!! x).
Proof.
  intros Hn Hv Hx. destruct (Hn x Hx) as (_ & _ & Hver & _). revert matrix j.
  induction groups as [|g groups IH]; intros matrix j Hr Hc; [by apply not_elem_of_nil in Hr|].
  cbn [grouped_requests] in Hr. apply elem_of_cons in Hr as [->|Hr]; [|by eapply IH].
  cbn in Hc. apply list_elem_of_fmap in Hc as (y & -> & _). intros (_ & _ & Hf & _)%getChunkName_inj.
  rewrite Hver in Hf. by apply Hv.
Qed.
