(* ===== verification/RepairSample.v ===== *)
(** Concrete repairs: the theorems on the repair of a stripe applied to a (4, 2)
    code over the bytes of [Gf256], with file system containers at the agent. *)

From S2P Require Import Prelude DS Isal Gf256 RSCode RSDecode RSTheorems File ChunkManager ChunkRepair.
From S2P Require Import AccessTheorems StripeTheorems WriteTheorems ChunkSample RepairTheorems.
From S2P Require Import Container ContainerManager FsContainer FsTheorems FsInstance ManagerTheorems Agent AgentTheorems.

Import ChunkManager ChunkRepair.
#[local] Open Scope outcome_scope.

(** * At the agent *)

Module AgentRepairSample.
#[local] Existing Instances FsSample.sum_md5 decimal_uuid decimal_uuid_laws.
#[local] Existing Instances ManagerSample.files_container ManagerSample.files_container_laws.
#[local] Existing Instances Gf256.isal Gf256.isal_laws.

Definition rs : RSCode.t := sample_code false.

Definition manager : t :=
  mk ∅ {["RS_4_2" := Some rs]} (<[7 := "d"]> (<[8 := "a"]> (<[9 := "c"]> {[10 := "b"]}))) 0 [].

(** The second stripe of a file; the agent of container 7 runs the handler. *)
Definition stored_chunk (x : nat) : Chunk.t :=
  Chunk.mk 1 5 (4 + Z.of_nat x) None 3 true (-1) "" (MD5 (chunk_bytes rs sample_data 3 x)).
Definition file : File.t :=
  File.set_chunk_info (File.set_policy (File.set_ids File.reset 1 5 (Some "f"))
    (CodingMeta.init RS 4 2 3 1) "c") 4 (Some [5; 8; 6; 10]) (Some (map stored_chunk (seq 0 4))) None.

(** The agents have the chunks of the stripe and store what they are given. *)
Definition peers (_ : Z) (_ : string) (r : ChunkEvent.t) : option ChunkEvent.t :=
  match ChunkEvent.opcode r with
  | GET_CHUNK_REQ =>
      let c := ChunkEvent.chunks r !!! 0%nat in
      Some (ChunkEvent.set_chunks (ChunkEvent.set_opcode r GET_CHUNK_REP_SUCCESS) 1
              [Chunk.set_buffer c (Some (chunk_bytes rs sample_data 3 (Z.to_nat (Chunk.chunkId c mod 4)))) (Z.of_nat 3) true])
  | _ => Some (ChunkEvent.set_opcode r PUT_CHUNK_REP_SUCCESS)
  end.
Definition agents : Agent.world lossless_os := Agent.mk_world true ManagerSample.env true peers.

Definition world : ChunkManager.world :=
  mk_world (sample_options false) true false false 3 (fun _ => Some []) (fun z => Some (replicate z 0))
    (replicate 16 0)
    (fun _ _ r => match Agent.handle_rpr agents AgentSample.agent r with
                  | Ok (_, e, _) => Some e | _ => None end).

Lemma sample_named : named file.
Proof. intros x Hx. cbn in Hx. do 4 (destruct x as [|x]; [cbn; lia|]). lia. Qed.

Lemma sample_stripe : stripe_file (rs := rs) (data := sample_data) (cs := 3) file.
Proof.
  split; [done|]. split; [done|]. split; [done|]. intros x Hx. cbn in Hx.
  do 4 (destruct x as [|x]; [by repeat split|]). lia.
Qed.

(** Chunks 0 and 2 are lost and go to containers 7 and 9. *)
Lemma sample_can_repair : can_repair world rs manager manager file [false; true; false; true] [7; 9] sample_data 3.
Proof.
  constructor; [exact (init_ok _ _ (sample_init false))|apply sample_data_ok| |apply sample_stripe|reflexivity| | |].
  - unfold file_instance, getCodingInstance. cbn -[lookup]. done.
  - split; vm_compute; repeat constructor.
  - vm_compute. repeat constructor.
  - vm_compute. reflexivity.
Qed.

Definition repair_result : outcome (bool * File.t * t) :=
  repairFile world (mk_config false false) manager file [false; true; false; true] [7; 9] [] 0.

Lemma sample_succeeds : match repair_result with Ok (ok, _, _) => ok | _ => false end = true.
Proof. vm_compute. reflexivity. Qed.

End AgentRepairSample.

(** * At the proxy *)

Module ProxyRepairSample.
Import ChunkSample.
#[local] Existing Instances ChunkSample.sum_md5 Gf256.isal Gf256.isal_laws.

(** Chunk 1 is lost and goes to container 12, next to chunk 2. *)
Definition healthy : ChunkManager.world := world [] [] false false.
Definition lost : list bool := [true; false; true; true].

Lemma proxy_can_repair : can_repair healthy rs manager manager stored_file lost [12] sample_data 3.
Proof.
  constructor; [exact code_ok|apply sample_data_ok|by apply instance|apply stored_stripe|reflexivity| | |].
  - split; vm_compute; repeat constructor.
  - vm_compute. repeat constructor.
  - vm_compute. reflexivity.
Qed.

Definition proxy_result : outcome (bool * File.t * t) :=
  repairFile healthy (mk_config true false) manager stored_file lost [12] [] 0.

Lemma proxy_succeeds : match proxy_result with Ok (ok, _, _) => ok | _ => false end = true.
Proof. vm_compute. reflexivity. Qed.

Lemma agents_echo : echoes healthy.
Proof.
  intros i addr r rep Hn Hop. unfold healthy, world in Hn. cbn [net] in Hn. unfold agents in Hn. rewrite Hop in Hn.
  destruct (bool_decide _); [done|]. by injection Hn as <-.
Qed.

End ProxyRepairSample.
