(* ===== verification/ChunkModify.v ===== *)
(** Copying and moving a file ([ChunkManager::copyFile], [moveFile] and
    [fullFileModify] in [src/proxy/chunk_manager.cc]): one request per chunk of
    the stripes in range, counted stripe by stripe. *)

From S2P Require Import Prelude DS Isal RSCode File ChunkManager AccessTheorems.

Import ChunkManager.
#[local] Open Scope outcome_scope.

Module ChunkModify.

Section modify.
Context `{Isal, Md5} (w : world).
Implicit Types m : t.

(** What the loop over the requests changes: the chunks and containers of the
    destination, the indicator, the count of the stripe and the verdict. *)
Record state := mk_state {
  dst_chunks : list Chunk.t; dst_ids : list Z; indicator : list bool; numSuccess : nat; okay : bool
}.

(** The destination of chunk [idx]. *)
Definition new_chunk (src dst : File.t) (idx : nat) : Chunk.t :=
  let c := file_chunks src !!! idx in
  Chunk.set_fileVersion
    (Chunk.set_size (Chunk.setId Chunk.reset (File.namespaceId dst) (File.uuid dst) (Chunk.chunkId c)) (Chunk.size c))
    (File.version dst).

(** Request [i], for chunk [idx]. *)
Definition modify_request m (src dst : File.t) (isCopy : bool) (i idx : nat) : ChunkEvent.t :=
  ChunkEvent.mk (event_id m i) (if isCopy then CPY_CHUNK_REQ else MOV_CHUNK_REQ) 1
    (Some [file_ids src !!! idx]) [file_chunks src !!! idx; new_chunk src dst idx] CodingMeta.reset
    false 0 0 [] [] "" zero_tag zero_tag zero_tag.

(** The reply about chunk [idx].  Only a reported failure, or none, is skipped. *)
Definition modify_reply (src : File.t) (isCopy : bool) (idx : nat) (rep : option ChunkEvent.t) (st : state) : state :=
  let expected := if isCopy then CPY_CHUNK_REP_SUCCESS else MOV_CHUNK_REP_SUCCESS in
  let failedOp := if isCopy then CPY_CHUNK_REP_FAIL else MOV_CHUNK_REP_FAIL in
  let ok := bool_decide (ChunkEvent.opcode <$> rep = Some expected) in
  let cid := if ok then default [] (ChunkEvent.containerIds (default ChunkEvent.reset rep)) !!! 0%nat
             else INVALID_CONTAINER_ID in
  let ids := <[idx := cid]> (dst_ids st) in
  let ind := <[idx := ok]> (indicator st) in
  match rep with
  | Some r =>
      let rc := ChunkEvent.chunks r !!! 0%nat in
      if bool_decide (ChunkEvent.opcode r = failedOp)
         || verifyChunkChecksum w && negb (bool_decide (Chunk.md5 rc = Chunk.md5 (file_chunks src !!! idx)))
      then mk_state (dst_chunks st) ids ind (numSuccess st) (okay st)
      else mk_state (<[idx := Chunk.copyMD5 (dst_chunks st !!! idx) rc]> (dst_chunks st)) ids ind
             (numSuccess st + 1) (okay st)
  | None => mk_state (dst_chunks st) ids ind (numSuccess st) (okay st)
  end.

(** The chunks of one stripe: the requests, then their replies, then the verdict. *)
Definition modify_stripe m (src dst : File.t) (isCopy : bool) (startIdx per s : nat) (st : state) : state :=
  let idxs := seq ((startIdx + s) * per) per in
  let st := mk_state (foldl (fun cs idx => <[idx := new_chunk src dst idx]> cs) (dst_chunks st) idxs)
              (dst_ids st) (indicator st) (numSuccess st) (okay st) in
  let st := foldl (fun st idx =>
                     modify_reply src isCopy idx
                       (send w m (modify_request m src dst isCopy (idx - startIdx * per) idx)) st) st idxs in
  mk_state (dst_chunks st) (dst_ids st) (indicator st) 0
    (okay st && (CodingMeta.k (File.codingMeta src) <=? Z.of_nat (numSuccess st))).

(** The file without anything to copy. *)
Definition copy_layout (src dst : File.t) (numChunks size numStripes : Z) : File.t :=
  File.set_numStripes
    (File.set_size
       (File.set_policy
          (File.set_chunk_info dst numChunks (File.containerIds dst) (File.chunks dst) (File.chunksCorrupted dst))
          (snd (CodingMeta.copyMeta (File.codingMeta dst) (File.codingMeta src) false)) (File.storageClass dst)) size)
    numStripes.

Definition set_class (f : File.t) (c : string) : File.t := File.set_policy f (File.codingMeta f) c.

(** The range of stripes that are touched, as [int]s. *)
Definition stripe_range (src : File.t) (stripeSize : Z) : Z * Z :=
  (i32 (u64 (File.offset src) / stripeSize),
   i32 (u64 (File.offset src + File.length src + stripeSize - 1) / stripeSize)).

(** [newIds] and [newInd] are the contents of the fresh arrays of containers and
    of the indicator.  An index past the chunks of the source is undefined, so is
    a stripe size of 0. *)
Definition fullFileModify m (src dst : File.t) (isCopy : bool) (newIds : list Z) (newInd : list bool)
    : outcome (bool * File.t * option (Z * Z) * t) :=
  if (File.numChunks src <=? 0) || (File.numStripes src <=? 0) then
    Ok (true, copy_layout src dst (File.numChunks src) (File.size src) (File.numStripes src), None, m)
  else
    let num := Z.to_nat (File.numChunks src) in
    let dst := set_class dst (File.storageClass src) in
    let fresh := File.set_chunk_info dst (File.numChunks dst) (Some newIds) (Some (replicate num Chunk.reset))
                   (File.chunksCorrupted dst) in
    let* (code, m) := file_instance w m src in
    match code with
    | None => Ok (false, fresh, None, m)
    | Some _ =>
        let cm := File.codingMeta src in
        let* (stripeSize, m) := getMaxDataSizePerStripe w m (CodingMeta.coding cm) (CodingMeta.n cm) (CodingMeta.k cm)
                                  (CodingMeta.maxChunkSize cm) true in
        let* _ := access (if 0 <? stripeSize then Some tt else None) in
        let (startIdx, endIdx) := stripe_range src stripeSize in
        let per := Z.to_nat (File.numChunks src / File.numStripes src) in
        let* _ := access (if (0 <=? startIdx) && (startIdx <=? endIdx)
                             && (endIdx * Z.of_nat per <=? File.numChunks src) then Some tt else None) in
        let stripes := Z.to_nat (endIdx - startIdx) in
        let from := Z.to_nat startIdx in
        let st := for_loop (modify_stripe m src fresh isCopy from per) 0 stripes
                    (mk_state (file_chunks fresh) newIds newInd 0 true) in
        let reqs := map (fun i => modify_request m src fresh isCopy i (from * per + i)) (seq 0 (stripes * per)) in
        let m := issue m (length reqs) reqs in
        let done := File.set_chunk_info fresh (File.numChunks fresh) (Some (dst_ids st)) (Some (dst_chunks st))
                      (File.chunksCorrupted fresh) in
        if okay st then
          Ok (true,
              copy_layout src done
                (if endIdx =? File.numStripes src then File.numChunks src
                 else Z.quot (i32 (endIdx * File.numChunks src)) (File.numStripes src))
                (if endIdx =? File.numStripes src then File.size src
                 else u64 (u64 (File.offset src + File.length src + stripeSize - 1) / stripeSize * stripeSize))
                endIdx, Some (startIdx, endIdx), m)
        else
          let* (_, m) := deleteFile w m done (Some (indicator st)) in
          Ok (false, File.set_chunk_info done (File.numChunks done) None None (File.chunksCorrupted done),
              Some (startIdx, endIdx), m)
    end.

Definition copyFile m (src dst : File.t) := fullFileModify m src dst true.
Definition moveFile m (src dst : File.t) := fullFileModify m src dst false.
End modify.
End ChunkModify.
