(* ===== verification/ModifyTheorems.v ===== *)
(** What copying and moving a file do (theorems on [ChunkModify.fullFileModify]). *)

From S2P Require Import Prelude DS Isal Gf256 RSCode RSTheorems File ChunkManager AccessTheorems StripeTheorems ChunkModify ChunkSample.

Import ChunkManager ChunkModify.
#[local] Open Scope outcome_scope.

(** Updates at consecutive positions. *)
Lemma foldl_insert_seq {A} (g : nat -> A) a n (l : list A) :
  let l' := foldl (fun l i => <[i := g i]> l) l (seq a n) in
  length l' = length l /\
  (forall j, (a <= j < a + n)%nat -> (j < length l)%nat -> l' !! j = Some (g j)) /\
  (forall j, ~ (a <= j < a + n)%nat -> l' !! j = l !! j).
Proof.
  revert a l. induction n as [|n IH]; intros a l; simpl.
  { split_and!; [done|lia|done]. }
  destruct (IH (S a) (<[a := g a]> l)) as (Hl & Hin & Hout). rewrite length_insert in Hl, Hin.
  split_and!; [done| |].
  - intros j Hj Hlt. destruct (decide (j = a)) as [->|]; [|apply Hin; lia].
    rewrite Hout by lia. by apply list_lookup_insert_eq.
  - intros j Hj. rewrite Hout by lia. apply list_lookup_insert_ne. lia.
Qed.

Section modify.
Context `{Isal, Md5} (w : world) (m : ChunkManager.t) (src dst : File.t) (isCopy : bool) (from per : nat).
Implicit Types st : state.

Definition reply (idx : nat) : option ChunkEvent.t :=
  send w m (modify_request m src dst isCopy (idx - from * per) idx).

Definition success : Opcode := if isCopy then CPY_CHUNK_REP_SUCCESS else MOV_CHUNK_REP_SUCCESS.
Definition failure : Opcode := if isCopy then CPY_CHUNK_REP_FAIL else MOV_CHUNK_REP_FAIL.

(** The chunk counts: an answer that is not a failure, with the checksum of the
    source if that is checked. *)
Definition counted (idx : nat) : bool :=
  match reply idx with
  | Some r => negb (bool_decide (ChunkEvent.opcode r = failure))
              && (negb (verifyChunkChecksum w)
                  || bool_decide (Chunk.md5 (ChunkEvent.chunks r !!! 0%nat) = Chunk.md5 (file_chunks src !!! idx)))
  | None => false
  end.

Definition final_chunk (idx : nat) : Chunk.t :=
  if counted idx
  then Chunk.copyMD5 (new_chunk src dst idx) (ChunkEvent.chunks (default ChunkEvent.reset (reply idx)) !!! 0%nat)
  else new_chunk src dst idx.

Definition confirmed_at (idx : nat) : bool := bool_decide (ChunkEvent.opcode <$> reply idx = Some success).

Definition final_id (idx : nat) : Z :=
  if confirmed_at idx
  then default [] (ChunkEvent.containerIds (default ChunkEvent.reset (reply idx))) !!! 0%nat
  else INVALID_CONTAINER_ID.

Definition num_counted (idxs : list nat) : nat := length (filter (fun i => counted i = true) idxs).

Definition stripe_ok (s : nat) : bool :=
  CodingMeta.k (File.codingMeta src) <=? Z.of_nat (num_counted (seq ((from + s) * per) per)).

(** One reply, with the record written out. *)
Lemma modify_reply_spec idx st :
  modify_reply w src isCopy idx (reply idx) st =
  mk_state (if counted idx
            then <[idx := Chunk.copyMD5 (dst_chunks st !!! idx)
                            (ChunkEvent.chunks (default ChunkEvent.reset (reply idx)) !!! 0%nat)]> (dst_chunks st)
            else dst_chunks st)
    (<[idx := final_id idx]> (dst_ids st)) (<[idx := confirmed_at idx]> (indicator st))
    (numSuccess st + (if counted idx then 1 else 0)) (okay st).
Proof using.
  unfold modify_reply, final_id, confirmed_at, counted. fold success failure.
  destruct (reply idx) as [r|]; [|by rewrite Nat.add_0_r]. cbn [default].
  destruct (bool_decide (ChunkEvent.opcode r = failure)); cbn [orb negb andb]; [by rewrite Nat.add_0_r|].
  destruct (verifyChunkChecksum w); cbn [andb negb orb]; [|done].
  destruct (bool_decide (Chunk.md5 _ = _)); cbn [negb]; [done|by rewrite Nat.add_0_r].
Qed.

(** The replies of consecutive chunks. *)
Lemma replies_spec a n st :
  (forall i, (a <= i < a + n)%nat -> dst_chunks st !! i = Some (new_chunk src dst i)) ->
  let st' := foldl (fun st idx => modify_reply w src isCopy idx (reply idx) st) st (seq a n) in
  length (dst_chunks st') = length (dst_chunks st) /\
  (forall i, (a <= i < a + n)%nat -> dst_chunks st' !! i = Some (final_chunk i)) /\
  (forall i, ~ (a <= i < a + n)%nat -> dst_chunks st' !! i = dst_chunks st !! i) /\
  dst_ids st' = foldl (fun l i => <[i := final_id i]> l) (dst_ids st) (seq a n) /\
  indicator st' = foldl (fun l i => <[i := confirmed_at i]> l) (indicator st) (seq a n) /\
  numSuccess st' = (numSuccess st + num_counted (seq a n))%nat /\ okay st' = okay st.
Proof using.
  revert a st. induction n as [|n IH]; intros a st Hnew.
  { cbn. split_and!; try done; unfold num_counted; cbn; lia. }
  cbn [seq foldl]. rewrite modify_reply_spec.
  match goal with |- context [foldl _ (mk_state ?c ?i ?d ?k ?o) _] => set (st1 := mk_state c i d k o) end.
  assert (dst_chunks st1 !! a = Some (final_chunk a) /\ length (dst_chunks st1) = length (dst_chunks st) /\
    forall i, i <> a -> dst_chunks st1 !! i = dst_chunks st !! i) as (Ha & Hl & Hne).
  { pose proof (Hnew a ltac:(lia)) as Hold. pose proof (lookup_lt_Some _ _ _ Hold). unfold st1, final_chunk. cbn.
    destruct (counted a); [|by split_and!]. rewrite list_lookup_insert_eq, length_insert by done.
    rewrite (list_lookup_total_correct _ _ _ Hold). split_and!; [done..|]. intros i Hi. by apply list_lookup_insert_ne. }
  destruct (IH (S a) st1) as (Hl' & Hin & Hout & Hids & Hind & Hnum & Hok).
  { intros i Hi. rewrite Hne by lia. apply Hnew. lia. }
  cbn zeta in *. split_and!; try done.
  - by rewrite Hl', Hl.
  - intros i Hi. destruct (decide (i = a)) as [->|]; [|apply Hin; lia]. by rewrite Hout by lia.
  - intros i Hi. rewrite Hout by lia. apply Hne. lia.
  - rewrite Hnum. unfold st1, num_counted. cbn [numSuccess]. rewrite filter_cons.
    destruct (counted a); [rewrite decide_True by done|rewrite decide_False by done]; cbn [length]; lia.
Qed.

(** After [s] stripes. *)
Definition modified (num : nat) (s : nat) st : Prop :=
  length (dst_chunks st) = num /\ length (dst_ids st) = num /\ length (indicator st) = num /\
  (forall i, (from * per <= i < (from + s) * per)%nat ->
     dst_chunks st !! i = Some (final_chunk i) /\ dst_ids st !! i = Some (final_id i) /\
     indicator st !! i = Some (confirmed_at i)) /\
  numSuccess st = 0%nat /\ okay st = forallb stripe_ok (seq 0 s).

Lemma modify_stripe_spec num s st :
  ((from + s + 1) * per <= num)%nat -> modified num s st ->
  modified num (s + 1) (modify_stripe w m src dst isCopy from per s st).
Proof using.
  intros Hfit (Hc & Hi & Hd & Hin & Hn & Ho). unfold modify_stripe.
  set (a := ((from + s) * per)%nat). assert (a + per = (from + (s + 1)) * per)%nat as Hend by (unfold a; lia).
  destruct (foldl_insert_seq (new_chunk src dst) a per (dst_chunks st)) as (Hcl & Hcin & Hcout).
  match goal with |- context [foldl _ (mk_state ?c ?i ?d ?k ?o) _] => set (st1 := mk_state c i d k o) end.
  destruct (replies_spec a per st1) as (Hl & Hin' & Hout & Hids & Hind & Hnum & Hok).
  { intros i Hr. unfold st1. cbn [dst_chunks]. apply Hcin; lia. }
  cbn zeta in *. set (st2 := foldl _ st1 _) in *. unfold modified. cbn [dst_chunks dst_ids indicator numSuccess okay].
  destruct (foldl_insert_seq final_id a per (dst_ids st)) as (Hil & Hiin & Hiout).
  destruct (foldl_insert_seq confirmed_at a per (indicator st)) as (Hdl & Hdin & Hdout).
  change (dst_ids st1) with (dst_ids st) in Hids. change (indicator st1) with (indicator st) in Hind.
  change (okay st1) with (okay st) in Hok. change (numSuccess st1) with (numSuccess st) in Hnum.
  rewrite Hids, Hind. split_and!.
  - rewrite Hl. unfold st1. cbn [dst_chunks]. by rewrite Hcl.
  - by rewrite Hil.
  - by rewrite Hdl.
  - intros i Hr. destruct (decide (a <= i)%nat).
    + rewrite Hin', Hiin, Hdin by lia. done.
    + rewrite Hout, Hiout, Hdout by lia. unfold st1. cbn [dst_chunks]. rewrite Hcout by lia. apply Hin. lia.
  - done.
  - rewrite Hok, Hnum, Hn, Ho, Nat.add_0_l, seq_app, forallb_app. cbn [seq forallb]. by rewrite andb_true_r.
Qed.

Lemma modify_loop num stripes st :
  ((from + stripes) * per <= num)%nat -> modified num 0 st ->
  modified num stripes (for_loop (modify_stripe w m src dst isCopy from per) 0 stripes st).
Proof using.
  intros Hfit H0'. apply (for_loop_inv (modified num)); [done|]. intros s st' Hs Hm.
  replace (S s) with (s + 1)%nat by lia. apply modify_stripe_spec; [nia|done].
Qed.
End modify.

(** A file whose stripes [a] to [b - 1] hold the range to copy, and a new file to
    copy to. *)
Record can_modify `{Isal, Md5} (w : world) (rs : RSCode.t) m m0 (src dst : File.t) (stripeSize : Z) (per a b : nat)
    (newIds : list Z) (newInd : list bool) : Prop := {
  cm_instance : file_instance w m src = Ok (Some rs, m0);
  cm_size : max_stripe_size rs (i32 (CodingMeta.maxChunkSize (File.codingMeta src))) = Ok stripeSize;
  cm_pos : 0 < stripeSize;
  cm_stripes : 0 < File.numStripes src < 2147483648;
  cm_chunks : File.numChunks src = Z.of_nat per * File.numStripes src /\ 0 < File.numChunks src < 2147483648;
  cm_offset : 0 <= File.offset src /\ 0 < File.length src /\ File.offset src / stripeSize = Z.of_nat a;
  cm_end : (File.offset src + File.length src + stripeSize - 1) / stripeSize = Z.of_nat b;
  cm_fits : Z.of_nat b <= File.numStripes src /\ File.offset src + File.length src + stripeSize < 18446744073709551616;
  cm_product : Z.of_nat b = File.numStripes src \/ Z.of_nat b * File.numChunks src < 2147483648;
  cm_new : File.numChunks dst = 0;
  cm_ids : Z.of_nat (length newIds) = File.numChunks src;
  cm_ind : Z.of_nat (length newInd) = File.numChunks src
}.

Section whole.
Context `{Isal, Md5} {w : world} {rs : RSCode.t} {m m0 : ChunkManager.t} {src dst : File.t} {stripeSize : Z}
  {per a b : nat} {newIds : list Z} {newInd : list bool} (isCopy : bool).
Context (Hcm : can_modify w rs m m0 src dst stripeSize per a b newIds newInd).

Definition modify_requests : list ChunkEvent.t :=
  map (fun i => modify_request m0 src dst isCopy i (a * per + i)) (seq 0 ((b - a) * per)).

Definition modify_ok : bool := forallb (stripe_ok w m0 src dst isCopy a per) (seq 0 (b - a)).

Lemma range_ok : stripe_range src stripeSize = (Z.of_nat a, Z.of_nat b) /\ (a <= b)%nat.
Proof using Hcm.
  pose proof Hcm as [_ _ Hp Hs _ (Ho & Hl & Ha) Hb (Hf & Hf') _ _ _ _].
  assert (Z.of_nat a <= Z.of_nat b) by (rewrite <- Ha, <- Hb; apply Z.div_le_mono; lia).
  split; [|lia]. unfold stripe_range. rewrite (u64_small (File.offset src)), u64_small by lia. rewrite Ha, Hb.
  rewrite !i32_small by lia. done.
Qed.

Lemma getCodingInstance_cached : let cm := File.codingMeta src in
  getCodingInstance w m0 (CodingMeta.coding cm) (CodingMeta.n cm) (CodingMeta.k cm) = Ok (Some rs, m0).
Proof using Hcm. apply (file_instance_cached w w m m0 m0 src rs (cm_instance _ _ _ _ _ _ _ _ _ _ _ _ Hcm) eq_refl). Qed.

Lemma fullFileModify_spec : exists f',
  fullFileModify w m src dst isCopy newIds newInd =
    Ok (modify_ok, f', Some (Z.of_nat a, Z.of_nat b), issue m0 (length modify_requests) modify_requests) /\
  if modify_ok then
    File.numStripes f' = Z.of_nat b /\ File.numChunks f' = Z.of_nat (b * per) /\
    File.size f' = (if Z.of_nat b =? File.numStripes src then File.size src else Z.of_nat b * stripeSize) /\
    forall i, (a * per <= i < b * per)%nat ->
      file_chunks f' !! i = Some (final_chunk w m0 src dst isCopy a per i) /\
      file_ids f' !! i = Some (final_id w m0 src dst isCopy a per i)
  else File.chunks f' = None /\ File.containerIds f' = None.
Proof using Hcm.
  destruct range_ok as [Hrange Hab]. pose proof Hcm as [Hi Hms Hp Hs [Hnc Hnc0] (Ho & Hl & Ha) Hb (Hf & Hf') Hprod Hn Hni Hnd].
  unfold fullFileModify. destruct (Z.leb_spec (File.numChunks src) 0), (Z.leb_spec (File.numStripes src) 0); try lia.
  cbn [orb]. rewrite Hi. cbn [obind]. unfold getMaxDataSizePerStripe. rewrite getCodingInstance_cached. cbn [obind].
  rewrite Z.mul_1_r, Hms. cbn [obind]. destruct (Z.ltb_spec 0 stripeSize); [|lia]. cbn [access obind].
  rewrite Hrange. rewrite Hnc, Z.div_mul, Nat2Z.id by lia.
  destruct (Z.leb_spec 0 (Z.of_nat a)), (Z.leb_spec (Z.of_nat a) (Z.of_nat b)); try lia. cbn [andb].
  destruct (Z.leb_spec (Z.of_nat b * Z.of_nat per) (Z.of_nat per * File.numStripes src)); [|nia]. cbn [access obind].
  rewrite <- Nat2Z.inj_sub, !Nat2Z.id by lia.
  match goal with |- context [for_loop (modify_stripe _ _ _ ?g _ _ _) _ _ _] => set (fresh := g) end.
  match goal with |- context [for_loop _ _ _ ?s] => set (st0 := s) end.
  pose proof (modify_loop w m0 src fresh isCopy a per (Z.to_nat (Z.of_nat per * File.numStripes src)) (b - a) st0)
    as (_ & _ & _ & Hat & _ & Hok); [nia| |].
  { unfold modified, st0, fresh, file_chunks.
    cbn [dst_chunks dst_ids indicator numSuccess okay File.chunks File.set_chunk_info default id].
    rewrite length_replicate. split_and!; try done; try lia. }
  set (st := for_loop _ _ _ st0) in *.
  change (forallb (stripe_ok w m0 src fresh isCopy a per) (seq 0 (b - a))) with modify_ok in Hok. rewrite Hok.
  change (map (fun i => modify_request m0 src fresh isCopy i (a * per + i)) (seq 0 ((b - a) * per))) with modify_requests.
  destruct modify_ok.
  - eexists. split; [done|]. cbn [copy_layout File.numStripes File.numChunks File.size File.set_numStripes File.set_size
      File.set_policy File.set_chunk_info]. split_and!; [done| | |].
    + destruct (Z.eqb_spec (Z.of_nat b) (File.numStripes src)) as [He|He]; [lia|].
      rewrite i32_small by (rewrite Hnc in Hprod; nia). replace (Z.of_nat b * (Z.of_nat per * File.numStripes src))
        with (Z.of_nat (b * per) * File.numStripes src) by lia. rewrite Z.quot_mul by lia. done.
    + rewrite (u64_small (_ + _ - 1)) by lia. rewrite Hb. destruct (Z.of_nat b =? File.numStripes src); [done|]. apply u64_small.
      pose proof (Z.mul_div_le (File.offset src + File.length src + stripeSize - 1) stripeSize). nia.
    + intros i Hr. replace (a + (b - a))%nat with b in Hat by lia. destruct (Hat i Hr) as (Hc & Hd & _).
      exact (conj Hc Hd).
  - unfold deleteFile, operateOnAliveChunks, fresh. cbn [File.numChunks File.set_chunk_info set_class File.set_policy].
    rewrite Hn. cbn [Z.ltb Z.eqb Z.compare obind]. eexists. split; [done|]. done.
Qed.
End whole.

(** C20: Copying or moving the stripes [a] to [b - 1] of a file to a new file sends
    exactly one request per chunk of these stripes, in order.  It succeeds iff in
    each of the stripes at least [k] chunks count: a chunk counts when there is a
    reply for it that is not the failure of the operation and, if checksums are
    verified, has the checksum of the source.  Then every chunk of the new file has the identity and version of the
    new file, the number and size of the source chunk and, when it counts and
    checksums are verified, the checksum of the source; it is in the container the
    agent named; and the new file ends after stripe [b - 1]. *)
Theorem modify_file `{Isal, Md5} w rs m m0 src dst stripeSize per a b newIds newInd isCopy :
  can_modify w rs m m0 src dst stripeSize per a b newIds newInd ->
  let reqs := modify_requests (m0 := m0) (src := src) (dst := dst) (per := per) (a := a) (b := b) isCopy in
  let ok := modify_ok (w := w) (m0 := m0) (src := src) (dst := dst) (per := per) (a := a) (b := b) isCopy in
  exists f', fullFileModify w m src dst isCopy newIds newInd =
    Ok (ok, f', Some (Z.of_nat a, Z.of_nat b), issue m0 (length reqs) reqs) /\
  (ok = true ->
   File.numStripes f' = Z.of_nat b /\ File.numChunks f' = Z.of_nat (b * per) /\
   File.size f' = (if Z.of_nat b =? File.numStripes src then File.size src else Z.of_nat b * stripeSize) /\
   forall i, (a * per <= i < b * per)%nat -> exists c, file_chunks f' !! i = Some c /\
     Chunk.namespaceId c = File.namespaceId dst /\ Chunk.fuuid c = File.uuid dst /\
     Chunk.fileVersion c = File.version dst /\ Chunk.chunkId c = Chunk.chunkId (file_chunks src !!! i) /\
     Chunk.size c = Chunk.size (file_chunks src !!! i) /\
     (counted w m0 src dst isCopy a per i = true -> verifyChunkChecksum w = true ->
      Chunk.md5 c = Chunk.md5 (file_chunks src !!! i)) /\
     file_ids f' !! i = Some (final_id w m0 src dst isCopy a per i)).
Proof.
  intros Hcm reqs ok. destruct (fullFileModify_spec isCopy Hcm) as (f' & Heq & Hif). exists f'. split; [exact Heq|].
  fold ok in Hif. intros Hok. rewrite Hok in Hif. destruct Hif as (? & ? & ? & Hat). split_and!; try done.
  intros i Hi. destruct (Hat i Hi) as [Hc Hd]. exists (final_chunk w m0 src dst isCopy a per i). split; [done|].
  unfold final_chunk, counted. destruct (reply w m0 src dst isCopy a per i) as [r|] eqn:Hr; [|by split_and!].
  destruct (bool_decide (ChunkEvent.opcode r = failure isCopy)); cbn [negb andb]; [by split_and!|].
  destruct (negb _ || _) eqn:Hv; [|by split_and!]. split_and!; try done. intros _ Hver. rewrite Hver in Hv.
  by apply bool_decide_eq_true in Hv.
Qed.

(** A copy that fails leaves the chunks it made: the number of chunks of the new
    file is still 0, so the removal asks for nothing. *)
Theorem failed_copy_not_removed `{Isal, Md5} w rs m m0 src dst stripeSize per a b newIds newInd f' range m' :
  can_modify w rs m m0 src dst stripeSize per a b newIds newInd ->
  fullFileModify w m src dst true newIds newInd = Ok (false, f', range, m') ->
  File.chunks f' = None /\ Forall (fun r => ChunkEvent.opcode r = CPY_CHUNK_REQ) (drop (length (_sent m0)) (_sent m')).
Proof.
  intros Hcm Heq. destruct (fullFileModify_spec true Hcm) as (g & Heq' & Hif). rewrite Heq in Heq'.
  injection Heq' as Hok <- _ ->. rewrite <- Hok in Hif. split; [apply Hif|]. cbn [_sent issue].
  rewrite drop_app_length. unfold modify_requests. apply Forall_forall. intros r (i & -> & _)%list_elem_of_fmap. done.
Qed.

Module ModifySample.
Import ChunkSample.
#[local] Existing Instances ChunkSample.sum_md5 Gf256.isal Gf256.isal_laws.

(** Agents that copy, except for the container [down]. *)
Definition copiers (down : list Z) (_ : Z) (_ : string) (r : ChunkEvent.t) : option ChunkEvent.t :=
  if bool_decide (container r ∈ down) then None
  else Some (ChunkEvent.set_chunks (ChunkEvent.set_opcode r CPY_CHUNK_REP_SUCCESS) 1
               [Chunk.copyMD5 (ChunkEvent.chunks r !!! 1%nat) (ChunkEvent.chunks r !!! 0%nat)]).

Definition copy_world (down : list Z) : ChunkManager.world :=
  mk_world (sample_options false) true false false 3 (fun _ => Some []) (fun z => Some (replicate z 0))
    (replicate 16 0) (copiers down).

(** The second of two stripes is copied. *)
Definition source : File.t :=
  File.set_numStripes (File.set_chunk_info (File.set_range (File.set_size file 12) 6 6 None) 8
    (Some [10; 11; 12; 13; 10; 11; 12; 13])
    (Some (map (fun x => Chunk.mk 1 77 (Z.of_nat x) None 3 true (-1) "" (bytes_of (x mod 4))) (seq 0 8))) None) 2.
Definition target : File.t := File.setVersion (File.set_ids File.reset 1 78 (Some "g")) 0.

Lemma sample_can_modify down : can_modify (copy_world down) rs manager manager source target 6 4 1 2
  (replicate 8 0) (replicate 8 false).
Proof.
  constructor; try reflexivity; try (cbn; lia).
  cbn. split; [lia|]. split; [lia|reflexivity].
Qed.

Definition copy_result : outcome (bool * File.t * option (Z * Z) * t) :=
  fullFileModify (copy_world [11]) manager source target true (replicate 8 0) (replicate 8 false).

Lemma copy_succeeds : match copy_result with Ok (ok, _, _, _) => ok | _ => false end = true.
Proof. vm_compute. reflexivity. Qed.

Lemma modify_file_witness :
  exists f' m', copy_result = Ok (true, f', Some (1, 2), m') /\ File.size f' = 12 /\
    file_ids f' !! 4%nat = Some 10 /\ file_ids f' !! 5%nat = Some INVALID_CONTAINER_ID.
Proof.
  destruct (modify_file (copy_world [11]) rs manager manager source target 6 4 1 2 (replicate 8 0) (replicate 8 false) true)
    as (f' & Hr & Hok); [apply sample_can_modify|].
  pose proof copy_succeeds as Hs. fold copy_result in Hr. rewrite Hr in Hs. rewrite Hs in Hr.
  eexists f', _. split; [exact Hr|]. destruct (Hok Hs) as (_ & _ & Hsz & Hat).
  split; [exact Hsz|]. split.
  - destruct (Hat 4%nat ltac:(lia)) as (c & _ & _ & _ & _ & _ & _ & _ & ->). vm_compute. reflexivity.
  - destruct (Hat 5%nat ltac:(lia)) as (c & _ & _ & _ & _ & _ & _ & _ & ->). vm_compute. reflexivity.
Defined.

(** With three of four containers down the copy fails and the first chunk stays. *)
Lemma failed_copy_not_removed_witness :
  match fullFileModify (copy_world [11; 12; 13]) manager source target true (replicate 8 0) (replicate 8 false) with
  | Ok (ok, f', _, m') => ok = false /\ File.chunks f' = None /\
      Forall (fun r => ChunkEvent.opcode r = CPY_CHUNK_REQ) (_sent m')
  | _ => False
  end.
Proof.
  assert (match fullFileModify (copy_world [11; 12; 13]) manager source target true (replicate 8 0) (replicate 8 false) with
          | Ok (ok, _, _, _) => negb ok | _ => false end = true) as Hok by (vm_compute; reflexivity).
  destruct (fullFileModify _ _ _ _ _ _ _) as [| |[[[ok f'] range] m']] eqn:Heq; try discriminate Hok.
  destruct ok; [discriminate Hok|]. split; [reflexivity|].
  exact (failed_copy_not_removed _ _ _ _ _ _ _ _ _ _ _ _ _ _ _ (sample_can_modify [11; 12; 13]) Heq).
Defined.
End ModifySample.
