(* ===== verification/Redis.v ===== *)
(** The key-value service ([hiredis] and the Redis server), of which the sources
    only hold the calls.  The hash commands are a class of operations on the state
    of the server with the laws of their documentation, and a map of maps is an
    instance.  A call may also find the connection broken, before or after the
    server has run the command. *)

From S2P Require Import Prelude.
From Stdlib Require Import DecimalString DecimalZ.

(** * Numbers as text *)

(** ["%i"], and a Lua number passed to a command. *)
Definition show_number (z : Z) : string := NilZero.string_of_int (Z.to_int z).

(** [tonumber] of Lua on what was written so. *)
Definition tonumber (s : string) : option Z := Z.of_int <$> NilZero.int_of_string s.

(** [strtoul] with base 10; text that is not a number counts as 0. *)
Definition strtoul (s : string) : Z := default 0 (tonumber s).

Lemma tonumber_show z : tonumber (show_number z) = Some z.
Proof.
  unfold tonumber, show_number. rewrite NilZero.isi; [cbn; by rewrite of_to|..].
  - intros E. apply (f_equal Z.of_int) in E as E'. rewrite of_to in E'. cbn in E'. by subst z.
  - intros E. apply (f_equal Z.of_int) in E as E'. rewrite of_to in E'. cbn in E'. by subst z.
Qed.

Lemma strtoul_show z : strtoul (show_number z) = z.
Proof. unfold strtoul. by rewrite tonumber_show. Qed.

(** * Hash commands *)

(** [hget] stands for one field of [HMGET].  [rename] is the error "no such key"
    or the new state. *)
Class Redis (D : Type) := {
  hget : D -> string -> string -> option string;
  hmset : D -> string -> list (string * string) -> D;
  del : D -> string -> D;
  rename : D -> string -> string -> option D
}.

(** The value a list of assignments gives to a field. *)
Definition assigned (l : list (string * string)) (f : string) : option string :=
  foldl (fun v p => if decide (fst p = f) then Some (snd p) else v) None l.

Class RedisLaws (D : Type) `{Redis D} := {
  hget_hmset d k l f : hget (hmset d k l) k f = match assigned l f with Some v => Some v | None => hget d k f end;
  hget_hmset_ne d k k' l f : k <> k' -> hget (hmset d k l) k' f = hget d k' f;
  hget_del d k f : hget (del d k) k f = None;
  hget_del_ne d k k' f : k <> k' -> hget (del d k) k' f = hget d k' f;
  rename_some d k k' d' f : rename d k k' = Some d' -> k <> k' ->
    hget d' k' f = hget d k f /\ hget d' k f = None;
  rename_ne d k k' d' i f : rename d k k' = Some d' -> i <> k -> i <> k' -> hget d' i f = hget d i f;
  rename_exists d k k' f v : hget d k f = Some v -> is_Some (rename d k k');
  rename_missing d k k' : (forall f, hget d k f = None) -> rename d k k' = None
}.

(** What a call finds: the reply, a reply that got lost, or no server. *)
Inductive connection := Connected | ReplyLost | Down.

(** A command that returns [a] and leaves the state [d'], with the reply if any. *)
Definition call {D A} (c : connection) (d : D) (r : A * D) : option A * D :=
  match c with
  | Connected => (Some (fst r), snd r)
  | ReplyLost => (None, snd r)
  | Down => (None, d)
  end.

(** * An instance *)

Module HashStore.

(** Every key has a non-empty hash. *)
Notation t := (gmap string (gmap string string)).

#[global] Instance redis : Redis t := {|
  hget d k f := d !! k ≫= (.!! f);
  hmset d k l := match l with
                 | [] => d
                 | _ => <[k := foldl (fun h p => <[fst p := snd p]> h) (default ∅ (d !! k)) l]> d
                 end;
  del d k := delete k d;
  rename d k k' := match d !! k with
                   | Some h => if decide (h = ∅) then None else Some (<[k' := h]> (delete k d))
                   | None => None
                   end
|}.

Lemma lookup_foldl (l : list (string * string)) (h : gmap string string) f :
  foldl (fun h p => <[fst p := snd p]> h) h l !! f =
  match assigned l f with Some v => Some v | None => h !! f end.
Proof.
  unfold assigned. induction l as [|[g x] l IH] using rev_ind; [done|]. rewrite !foldl_app. cbn.
  destruct (decide (g = f)) as [->|]; [apply lookup_insert_eq|]. by rewrite lookup_insert_ne.
Qed.

#[global] Instance redis_laws : RedisLaws t.
Proof.
  constructor; unfold hget, hmset, del, rename, redis.
  - intros d k [|p l] f; [done|]. lazy beta iota. rewrite lookup_insert_eq. cbn [option_bind mbind]. rewrite lookup_foldl.
    by destruct (assigned _ f), (d !! k).
  - intros d k k' [|p l] f Hne; [done|]. lazy beta iota. by rewrite lookup_insert_ne.
  - intros d k f. by rewrite lookup_delete_eq.
  - intros d k k' f Hne. by rewrite lookup_delete_ne.
  - intros d k k' d' f Hr Hne. destruct (d !! k) as [h|]; [|done]. case_decide; [done|]. injection Hr as <-.
    rewrite lookup_insert_eq, lookup_insert_ne, lookup_delete_eq by done. done.
  - intros d k k' d' i f Hr H1 H2. destruct (d !! k) as [h|]; [|done]. case_decide; [done|]. injection Hr as <-.
    by rewrite lookup_insert_ne, lookup_delete_ne.
  - intros d k k' f v Hv. destruct (d !! k) as [h|]; [|done]. case_decide as He; [|by eexists].
    subst h. cbn in Hv. by rewrite lookup_empty in Hv.
  - intros d k k' Hf. destruct (d !! k) as [h|]; [|done]. case_decide as He; [done|]. exfalso. apply He.
    apply map_eq. intros f. rewrite lookup_empty. apply Hf.
Qed.

End HashStore.
