(* ===== verification/MetaKeys.v ===== *)
(** The keys under which the metadata store keeps its records
    ([src/proxy/metastore/redis_metastore.cc]): how they are printed into buffers of
    fixed size, and how names are read back from them.

    The theorems: keys of different files, versions and kinds differ, and a name is
    read back from its key. *)

From Stdlib Require Import Ascii.
From Stdlib Require String.
From stdpp Require Import pretty.
From S2P Require Import Prelude DS.

#[local] Open Scope Z_scope.

(** * Text *)

Definition NUL : ascii := Ascii.zero.
Definition newline : ascii := "010"%char.

Fixpoint c_str (s : string) : string :=
  match s with
  | EmptyString => EmptyString
  | String a s => if decide (a = NUL) then EmptyString else String a (c_str s)
  end.

(** ["%*s"] with the length of the name as the width. *)
Definition print_name (s : string) : string :=
  String.string_of_list_ascii (replicate (String.length s - String.length (c_str s)) " "%char) +:+ c_str s.

(** [snprintf] into a buffer of [size] bytes, of which as many bytes are then used
    as the whole text has. *)
Definition key_buffer (size : nat) (s : string) : outcome string :=
  if (String.length s <? size)%nat then Ok s
  else if (String.length s =? size)%nat then Ok (String.substring 0 (size - 1) s +:+ String NUL EmptyString)
  else Undef.

Definition digit (a : ascii) : option Z :=
  let n := Z.of_nat (nat_of_ascii a) in if (48 <=? n) && (n <=? 57) then Some (n - 48) else None.

Fixpoint digits (l : list ascii) (acc : Z) : Z :=
  match l with
  | a :: l => match digit a with Some v => digits l (acc * 10 + v) | None => acc end
  | [] => acc
  end.

Definition isspace (a : ascii) : bool :=
  let n := nat_of_ascii a in (Nat.eqb n 32 || (Nat.leb 9 n && Nat.leb n 13)).

(** [atoi] and [strtol]; values that do not fit are left out. *)
Fixpoint atoi_list (l : list ascii) : Z :=
  match l with
  | a :: l' =>
      if isspace a then atoi_list l'
      else if decide (a = "-"%char) then - digits l' 0
      else if decide (a = "+"%char) then digits l' 0
      else digits l 0
  | [] => 0
  end.
Definition atoi (s : string) : Z := atoi_list (chars s).

Definition first_index (a : ascii) (s : string) : option nat := fst <$> list_find (eq a) (chars s).
Definition last_index (a : ascii) (s : string) : option nat :=
  (fun i => (String.length s - 1 - i)%nat) <$> (fst <$> list_find (eq a) (reverse (chars s))).

Definition string_take (n : nat) (s : string) : string := String.substring 0 n s.
Definition string_drop (n : nat) (s : string) : string := String.substring n (String.length s - n) s.

(** * Keys *)

Definition MAX_KEY_SIZE : nat := 64.
Definition PATH_MAX : nat := 4096.

Definition FILE_LOCK_KEY : string := "//snccFLock".
Definition FILE_PIN_STAGED_KEY : string := "//snccFPinStaged".
Definition FILE_REPAIR_KEY : string := "//snccFRepair".
Definition FILE_PENDING_WRITE_KEY : string := "//snccFPendingWrite".
Definition FILE_PENDING_WRITE_COMP_KEY : string := "//snccFPendingWriteComp".
Definition BG_TASK_PENDING_KEY : string := "//snccFBgTask".
Definition DIR_LIST_KEY : string := "//snccDirList".
Definition JL_LIST_KEY : string := "//snccJournalFSet".

(** The texts of the keys, for a name as it is printed. *)
Definition genFileKey (namespaceId : Z) (name : string) : string := pretty namespaceId +:+ "_" +:+ name.

Definition genVersionedFileKey (namespaceId : Z) (name : string) (version : Z) : string :=
  "/" +:+ pretty namespaceId +:+ "_" +:+ name +:+ String newline (pretty version).

Definition genFileVersionListKey (namespaceId : Z) (name : string) : string :=
  "//vl" +:+ pretty namespaceId +:+ "_" +:+ name.

(** [None] for a text that is too long. *)
Definition genFileUuidKey `{UuidPrinter} (namespaceId uuid : Z) : option string :=
  let key := "//fu" +:+ pretty namespaceId +:+ "-" +:+ uuid_to_string uuid in
  if (String.length key <=? MAX_KEY_SIZE)%nat then Some key else None.

Definition genChunkKeyPrefix (chunkId : Z) : string := "c" +:+ pretty chunkId.

Definition genFileJournalKeyPrefix (namespaceId : Z) : string :=
  if namespaceId =? 0 then "//jl" else "//jl_" +:+ pretty namespaceId.

Definition genFileJournalKey (namespaceId : Z) (name : string) (version : Z) : string :=
  genFileJournalKeyPrefix namespaceId +:+ "_" +:+ name +:+ "_" +:+ pretty version.

Definition getBlockKeyPrefix (unique : bool) : string := if unique then "ub" else "db".
Definition genBlockKey (blockId : Z) (unique : bool) : string := getBlockKeyPrefix unique +:+ pretty blockId.

Definition isSystemKey (key : string) : bool := String.prefix "//" key.
Definition isVersionedFileKey (key : string) : bool := String.prefix "/" key.

(** The set of files of a directory: what comes before the last slash.  Without an
    underscore the pointers are not comparable. *)
Definition getFilePrefix (name : string) (noEndingSlash : bool) : outcome string :=
  match first_index "_" name, last_index "/" name with
  | Some us, Some slash =>
      if (slash =? us + 1)%nat
      then Ok ("//pf_" +:+ string_take (us + 1) name +:+ if noEndingSlash then "" else "/")
      else Ok ("//pf_" +:+ string_take slash name)
  | Some us, None => Ok ("//pf_" +:+ string_take (us + 1) name +:+ if noEndingSlash then "" else "/")
  | None, _ => Undef
  end.

(** The name, its namespace and, where the key has one, the version.  [Fail] is the
    return value [false].  The key is followed by a zero byte. *)
Definition getNameFromFileKey (str : string) : outcome (string * Z * option Z) :=
  let ofs := if isVersionedFileKey str then 1%nat else O in
  let fullname := string_drop ofs str in
  match first_index "_" fullname with
  | None => Fail
  | Some dpos =>
      let epos := default (String.length str) (first_index newline fullname) in
      let version := (fun e => atoi (string_drop (e + 1) fullname)) <$> first_index newline fullname in
      let namespaceId := u8 (atoi (string_take dpos fullname)) in
      if (epos <=? dpos)%nat then Undef
      else Ok (String.substring (dpos + 1) (epos - dpos - 1) (fullname +:+ String NUL EmptyString), namespaceId, version)
  end.

(** * Texts as lists of characters *)

Lemma chars_substring s n m : chars (String.substring n m s) = take m (drop n (chars s)).
Proof.
  revert n m. induction s as [|a s IH]; intros n m; [by destruct n, m|].
  destruct n as [|n]; [destruct m as [|m]; [done|]|]; cbn; [|apply IH]. f_equal. rewrite IH. by rewrite drop_0.
Qed.

Lemma chars_drop n s : chars (string_drop n s) = drop n (chars s).
Proof.
  unfold string_drop. rewrite chars_substring. apply take_ge. by rewrite length_drop, length_chars.
Qed.

Lemma chars_take n s : chars (string_take n s) = take n (chars s).
Proof. unfold string_take. by rewrite chars_substring. Qed.

Lemma c_str_id s : free_of NUL s -> c_str s = s.
Proof.
  induction s as [|a s IH]; intros Hf; [done|]. inv Hf. cbn. rewrite decide_False by done. f_equal. by apply IH.
Qed.

Lemma print_name_id s : free_of NUL s -> print_name s = s.
Proof. intros Hf. unfold print_name. by rewrite c_str_id, Nat.sub_diag. Qed.

Lemma key_buffer_ok size s : (String.length s < size)%nat -> key_buffer size s = Ok s.
Proof. intros Hl. unfold key_buffer. by destruct (Nat.ltb_spec (String.length s) size); [|lia]. Qed.

Lemma first_index_app a s t : free_of a s -> first_index a (s +:+ String a t) = Some (String.length s).
Proof.
  intros Hf. unfold first_index. rewrite chars_app, <- length_chars. induction Hf as [|b l Hb _ IH]; cbn.
  - by rewrite decide_True.
  - rewrite decide_False by congruence. destruct (list_find _ _) as [[i x]|]; [|done]. cbn in *. congruence.
Qed.

Lemma first_index_none a s : free_of a s -> first_index a s = None.
Proof.
  unfold first_index, free_of. induction 1 as [|b l Hb _ IH]; [done|]. cbn. rewrite decide_False by congruence.
  by destruct (list_find _ _) as [[i x]|].
Qed.

(** ** Numerals *)

Lemma digit_pretty x : (x < 10)%N -> digit (pretty_N_char x) = Some (Z.of_N x).
Proof.
  intros Hx. assert (x = 0 \/ x = 1 \/ x = 2 \/ x = 3 \/ x = 4 \/ x = 5 \/ x = 6 \/ x = 7 \/ x = 8 \/ x = 9)%N as Hc by lia.
  by destruct_or!; subst.
Qed.

Lemma digits_pretty_go x s :
  exists k, 0 <= k /\ forall l acc, digits (chars (pretty_N_go x s) ++ l) acc =
    digits (chars s ++ l) (acc * 10 ^ k + Z.of_N x).
Proof.
  revert s. induction (N.lt_wf_0 x) as [x _ IH]; intros s. destruct (decide (0 < x)%N) as [Hx|Hx].
  - rewrite pretty_N_go_step by done. destruct (IH (x / 10)%N (N.div_lt x 10 Hx eq_refl) (String (pretty_N_char (x mod 10)) s))
      as (k & Hk & E).
    exists (k + 1). split; [lia|]. intros l acc. rewrite E. cbn [chars app String.list_ascii_of_string digits].
    rewrite digit_pretty by (apply N.mod_lt; lia). f_equal. rewrite Z.pow_add_r by lia.
    assert (Z.of_N x = 10 * Z.of_N (x / 10) + Z.of_N (x mod 10)) as -> by (pose proof (N.div_mod x 10 ltac:(lia)); lia).
    change (10 ^ 1) with 10. ring.
  - exists 0. split; [lia|]. intros l acc. replace x with 0%N by lia. cbn. f_equal. lia.
Qed.

Definition no_digit (l : list ascii) : Prop := match l with a :: _ => digit a = None | [] => True end.

Lemma digits_pretty_N (x : N) l acc : no_digit l -> exists k, 0 <= k /\
  digits (chars (pretty x) ++ l) acc = acc * 10 ^ k + Z.of_N x.
Proof.
  intros Hl. assert (forall acc, digits l acc = acc) as Hstop.
  { intros a0. destruct l as [|b l]; [done|]. cbn in *. by rewrite Hl. }
  unfold pretty, pretty_N. case_decide as Hx.
  - subst x. exists 1. split; [lia|]. transitivity (digits l (acc * 10 + 0)); [done|]. rewrite Hstop. lia.
  - destruct (digits_pretty_go x "") as (k & Hk & E). exists k. split; [done|]. rewrite E. apply Hstop.
Qed.

Lemma plain_cons_pretty_N (x : N) : exists a l, chars (pretty x) = a :: l /\ is_Some (digit a).
Proof.
  pose proof (plain_pretty_N x) as Hp. unfold pretty, pretty_N in *. case_decide as Hx; [subst x; by repeat eexists|].
  assert (forall n s, (0 < n)%N -> exists a l, chars (pretty_N_go n s) = a :: l /\ is_Some (digit a)) as Hgo; [|apply Hgo; lia].
  clear. intros n. induction (N.lt_wf_0 n) as [n _ IH]; intros s Hn. rewrite pretty_N_go_step by done.
  destruct (decide (0 < n / 10)%N) as [Hd|Hd]; [by apply IH; [apply N.div_lt; lia|]|].
  assert (n / 10 = 0)%N as -> by (by apply N.le_0_r, N.nlt_ge). exists (pretty_N_char (n mod 10)), (chars s). split; [done|].
  rewrite digit_pretty by (apply N.mod_lt; lia). by eexists.
Qed.

(** A number is read back, whatever follows it that is not a digit. *)
Lemma atoi_pretty (z : Z) t : no_digit (chars t) -> atoi (pretty z +:+ t) = z.
Proof.
  intros Ht. unfold atoi. rewrite chars_app.
  assert (forall x : N, atoi_list (chars (pretty x) ++ chars t) = Z.of_N x) as Hpos.
  { intros x. destruct (digits_pretty_N x (chars t) 0 Ht) as (k & _ & E).
    destruct (plain_cons_pretty_N x) as (a & l & El & Ha). rewrite El in *. cbn [app atoi_list] in *.
    assert (isspace a = false /\ a <> "-"%char /\ a <> "+"%char) as (-> & Hm & Hp).
    { destruct a as [[] [] [] [] [] [] [] []]; cbn in Ha; try (by destruct Ha); done. }
    rewrite !decide_False by done. rewrite E. lia. }
  destruct z as [|p|p]; [apply (Hpos 0%N)|apply (Hpos (N.pos p))|].
  destruct (digits_pretty_N (N.pos p) (chars t) 0 Ht) as (k & _ & E).
  transitivity (- digits (chars (pretty (N.pos p)) ++ chars t) 0); [done|]. rewrite E. lia.
Qed.

Lemma atoi_pretty_all (z : Z) : atoi (pretty z) = z.
Proof.
  pose proof (atoi_pretty z "" I) as E. replace (pretty z +:+ "") with (pretty z) in E; [done|].
  apply chars_inj. by rewrite chars_app, app_nil_r.
Qed.

(** * Distinct keys *)

Lemma genFileKey_inj ns1 ns2 n1 n2 : genFileKey ns1 n1 = genFileKey ns2 n2 -> ns1 = ns2 /\ n1 = n2.
Proof.
  unfold genFileKey. intros E. by apply sep_append_inj in E as [->%(inj pretty) ->]; [|apply plain_pretty_Z..].
Qed.

Lemma genFileVersionListKey_inj ns1 ns2 n1 n2 :
  genFileVersionListKey ns1 n1 = genFileVersionListKey ns2 n2 -> ns1 = ns2 /\ n1 = n2.
Proof. unfold genFileVersionListKey. intros [= E]. by apply genFileKey_inj. Qed.

(** The last separator splits a list in one way, too. *)
Lemma sep_split_last (x : ascii) (s1 s2 t1 t2 : list ascii) :
  Forall (fun a => a <> x) t1 -> Forall (fun a => a <> x) t2 -> s1 ++ x :: t1 = s2 ++ x :: t2 -> s1 = s2 /\ t1 = t2.
Proof.
  intros H1 H2 E%(f_equal reverse). rewrite !reverse_app, !reverse_cons, <- !app_assoc in E.
  apply sep_split in E as [E1 E2]; [|by apply Forall_reverse..].
  apply (inj reverse) in E1, E2. done.
Qed.

Lemma genVersionedFileKey_inj ns1 ns2 n1 n2 v1 v2 :
  genVersionedFileKey ns1 n1 v1 = genVersionedFileKey ns2 n2 v2 -> ns1 = ns2 /\ n1 = n2 /\ v1 = v2.
Proof.
  unfold genVersionedFileKey. intros [= E].
  apply sep_append_inj in E as [->%(inj pretty) E]; [|apply plain_pretty_Z..]. apply (f_equal chars) in E.
  rewrite !chars_app in E. cbn [chars String.list_ascii_of_string] in E.
  apply sep_split_last in E as [->%chars_inj ->%chars_inj%(inj pretty)]; [done|..];
    apply (plain_free_of newline); try done; apply plain_pretty_Z.
Qed.

Lemma pretty_not_slash (z : Z) : exists a s, pretty z = String a s /\ a <> "/"%char.
Proof.
  pose proof (plain_pretty_Z z) as Hp. destruct (pretty z) as [|a s] eqn:E.
  - exfalso. pose proof (atoi_pretty_all z) as Ez. rewrite E in Ez. cbn in Ez. subst z. done.
  - exists a, s. split; [done|]. inv Hp. intros ->. done.
Qed.

Lemma file_key_not_slash ns name s : genFileKey ns name <> String "/" s.
Proof. unfold genFileKey. destruct (pretty_not_slash ns) as (a & p & -> & Ha). intros E. by injection E. Qed.

Lemma versioned_key_not_system ns name v s : genVersionedFileKey ns name v <> String "/" (String "/" s).
Proof. unfold genVersionedFileKey. destruct (pretty_not_slash ns) as (a & p & -> & Ha). intros E. by injection E. Qed.

Lemma file_not_versioned ns n ns' n' v : genFileKey ns n <> genVersionedFileKey ns' n' v.
Proof. apply file_key_not_slash. Qed.

(** * Names from keys *)

Lemma drop_own_length {A} (l k : list A) n : n = length l -> drop n (l ++ k) = k.
Proof. intros ->. apply drop_app_length. Qed.

Lemma take_own_length {A} (l k : list A) n : n = length l -> take n (l ++ k) = l.
Proof. intros ->. apply take_app_length. Qed.

(** What both kinds of keys have in common: the namespace, an underscore, the name
    and the rest. *)
Lemma name_of_key ns name t :
  0 <= ns < 256 ->
  String.substring (String.length (pretty ns) + 1) (String.length name) (pretty ns +:+ "_" +:+ name +:+ t) = name /\
  u8 (atoi (string_take (String.length (pretty ns)) (pretty ns +:+ "_" +:+ name +:+ t))) = ns.
Proof.
  intros Hns. split.
  - apply chars_inj. rewrite chars_substring, !chars_app, app_assoc, drop_own_length; [|by len; rewrite length_chars].
    apply take_own_length. by rewrite length_chars.
  - replace (string_take _ _) with (pretty ns); [by rewrite atoi_pretty_all, u8_small|].
    apply chars_inj. rewrite chars_take, !chars_app. symmetry. apply take_own_length. by rewrite length_chars.
Qed.

Lemma string_app_assoc s t u : (s +:+ t) +:+ u = s +:+ t +:+ u.
Proof. apply chars_inj. by rewrite !chars_app, app_assoc. Qed.

Lemma versioned_slash s : isVersionedFileKey ("/" +:+ s) = true.
Proof. by destruct s. Qed.

Lemma versioned_key_slash s : isVersionedFileKey s = true -> exists t, s = String "/" t.
Proof.
  destruct s as [|a s]; [done|]. unfold isVersionedFileKey. cbn [String.prefix]. case_match; [subst; by exists s|done].
Qed.

Lemma getName_versioned ns name v :
  0 <= ns < 256 -> free_of newline name -> getNameFromFileKey (genVersionedFileKey ns name v) = Ok (name, ns, Some v).
Proof.
  intros Hns Hn. unfold getNameFromFileKey, genVersionedFileKey.
  set (full := pretty ns +:+ "_" +:+ name +:+ String newline (pretty v)).
  rewrite versioned_slash.
  assert (string_drop 1 ("/" +:+ full) = full) as ->.
  { apply chars_inj. by rewrite chars_drop. }
  assert (first_index "_" full = Some (String.length (pretty ns))) as ->.
  { apply first_index_app. apply plain_free_of; [done|apply plain_pretty_Z]. }
  set (pos := (String.length (pretty ns) + 1 + String.length name)%nat).
  assert (full = (pretty ns +:+ "_" +:+ name) +:+ String newline (pretty v)) as Hfull by (by rewrite !string_app_assoc).
  assert (first_index newline full = Some pos) as ->.
  { rewrite Hfull, first_index_app; [f_equal; rewrite !string_length_app; cbn; unfold pos; lia|].
    unfold free_of. rewrite !chars_app. apply Forall_app_2; [apply plain_free_of; [done|apply plain_pretty_Z]|].
    by constructor. }
  assert (atoi (string_drop (pos + 1) full) = v) as Ev.
  { etransitivity; [|apply atoi_pretty_all]. f_equal. apply chars_inj. rewrite chars_drop, Hfull, chars_app.
    cbn [chars String.list_ascii_of_string]. rewrite cons_middle, app_assoc, drop_own_length; [done|].
    len. rewrite length_chars, !string_length_app. cbn. unfold pos. lia. }
  unfold default, fmap, option_fmap, option_map, id. destruct (Nat.leb_spec pos (String.length (pretty ns))); [unfold pos in *; lia|].
  replace (pos - String.length (pretty ns) - 1)%nat with (String.length name) by (unfold pos; lia).
  unfold full at 1 2. rewrite !string_app_assoc.
  destruct (name_of_key ns name (String newline (pretty v) +:+ String NUL "")) as [-> _]; [done|].
  destruct (name_of_key ns name (String newline (pretty v))) as [_ ->]; [done|]. by rewrite Ev.
Qed.

Lemma getName_current ns name :
  0 <= ns < 256 -> free_of newline name -> getNameFromFileKey (genFileKey ns name) = Ok (name, ns, None).
Proof.
  intros Hns Hn. unfold getNameFromFileKey.
  assert (isVersionedFileKey (genFileKey ns name) = false) as ->.
  { destruct (isVersionedFileKey _) eqn:E; [|done]. apply versioned_key_slash in E as [t E]. by apply file_key_not_slash in E. }
  assert (string_drop 0 (genFileKey ns name) = genFileKey ns name) as -> by (apply chars_inj; by rewrite chars_drop, drop_0).
  unfold genFileKey. assert (first_index "_" (pretty ns +:+ "_" +:+ name) = Some (String.length (pretty ns))) as ->.
  { apply first_index_app. apply plain_free_of; [done|apply plain_pretty_Z]. }
  rewrite first_index_none. 2:{ unfold free_of. rewrite !chars_app. apply Forall_app_2; [apply plain_free_of; [done|apply plain_pretty_Z]|].
    by constructor. }
  unfold default, fmap, option_fmap, option_map, id. rewrite !string_length_app. cbn [String.length].
  destruct (Nat.leb_spec (String.length (pretty ns) + (1 + String.length name)) (String.length (pretty ns))); [lia|].
  replace (_ + _ - _ - 1)%nat with (String.length name) by lia. rewrite !string_app_assoc.
  destruct (name_of_key ns name (String NUL "")) as [-> _]; [done|].
  destruct (name_of_key ns name "") as [_ Hns']; [done|].
  replace (name +:+ "") with name in Hns' by (apply chars_inj; by rewrite chars_app, app_nil_r). by rewrite Hns'.
Qed.

(** * Faults *)

(** A name with a line break is cut there, and the rest is taken for the version. *)
Theorem name_with_newline_cut :
  getNameFromFileKey (genVersionedFileKey 1 ("a" +:+ String newline "7b") 3) = Ok ("a", 1, Some 7).
Proof. vm_compute. reflexivity. Qed.

(** The journals of different files share a key when one is in the namespace 0. *)
Theorem journal_keys_clash : genFileJournalKey 0 "5_a" 1 = genFileJournalKey 5 "a" 1.
Proof. vm_compute. reflexivity. Qed.

(** A name of more than 64 characters does not fit the buffer for the key of its
    journal, of which more bytes are used than it has. *)
Theorem journal_key_overruns ns name v :
  (64 <= String.length name)%nat -> key_buffer MAX_KEY_SIZE (genFileJournalKey ns name v) = Undef.
Proof.
  intros Hn. unfold key_buffer, genFileJournalKey. rewrite !string_length_app. cbn [String.length]. unfold MAX_KEY_SIZE.
  destruct (Nat.ltb_spec (String.length (genFileJournalKeyPrefix ns) +
    (1 + (String.length name + (1 + String.length (pretty v))))) 64); [lia|].
  destruct (Nat.eqb_spec (String.length (genFileJournalKeyPrefix ns) +
    (1 + (String.length name + (1 + String.length (pretty v))))) 64); [lia|]. done.
Qed.
