(* ===== verification/RedisServer.v ===== *)
(** The key-value server of the metadata store, and the connection to it
    ([hiredis]), of which the sources only hold the calls.

    A server is a state with a function that executes one command; what the
    documentation of Redis says about the commands in use is a relation on the keys
    and values of the server, and a map is an instance.  Replies come back in the
    order of the commands, and the ones that nobody has fetched are still there for
    the next command.  Every command may be refused, lose its reply, or not reach
    the server: the link decides, command by command. *)

From Stdlib Require Import Ascii.
From stdpp Require Import pretty sorting.
From S2P Require Import Prelude.

#[local] Open Scope Z_scope.

(** * Commands *)

Inductive value :=
| VString (s : string)
| VHash (h : gmap string string)
| VSet (s : gset string)
| VZSet (z : gmap string Z).

Inductive command :=
| HGET (k f : string) | HMGET (k : string) (fs : list string) | HMSET (k : string) (l : list (string * string))
| HSET (k f v : string) | HDEL (k : string) (fs : list string) | HLEN (k : string) | HEXISTS (k f : string) | HGETALL (k : string)
| DEL (k : string) | RENAME (k k' : string) | RENAMENX (k k' : string)
| GET (k : string) | SET (k v : string)
| SADD (k x : string) | SREM (k x : string) | SISMEMBER (k x : string) | SCARD (k : string)
| SMEMBERS (k : string) | SPOP (k : string) | SPOPN (k : string) (n : nat) | SMOVE (k k' x : string) | SDIFFSTORE (k k1 k2 : string)
| ZADD (k : string) (score : Z) (x : string) | ZCARD (k : string) | ZRANGEBYSCORE (k : string) (lo hi : Z)
| ZREVRANGE_FIRST (k : string) | ZREMRANGEBYSCORE (k : string) (lo hi : Z)
| ZINCRBY (k : string) (n : Z) (x : string) | ZREM (k x : string)
| ZRANGE (k : string) (first last : nat) | KEYS (p : string) | DBSIZE
| HSCAN (k cursor p : string) | SSCAN (k cursor p : string) | ZSCAN (k cursor : string).

(** [None] in an array is a nil.  The reply to a scan is an array of the next cursor
    and the array of what was found. *)
Inductive reply :=
| RStatus (s : string) | RError | RInteger (z : Z) | RNil | RString (s : string) | RArray (l : list (option string))
| RScan (cursor : string) (l : list string).

#[global] Instance value_eq_dec : EqDecision value.
Proof. solve_decision. Defined.
#[global] Instance reply_eq_dec : EqDecision reply.
Proof. solve_decision. Defined.

Definition OK : reply := RStatus "OK".

(** * What the documentation says *)

Notation keyspace := (gmap string value).

(** The collection under a key: empty when there is none, [None] when the key holds
    something of another type, which is an error. *)
Definition hash (m : keyspace) (k : string) : option (gmap string string) :=
  match m !! k with None => Some ∅ | Some (VHash h) => Some h | _ => None end.
Definition members (m : keyspace) (k : string) : option (gset string) :=
  match m !! k with None => Some ∅ | Some (VSet s) => Some s | _ => None end.
Definition scores (m : keyspace) (k : string) : option (gmap string Z) :=
  match m !! k with None => Some ∅ | Some (VZSet z) => Some z | _ => None end.

(** A collection that becomes empty is removed. *)
Definition put_hash (m : keyspace) (k : string) (h : gmap string string) : keyspace :=
  if decide (h = ∅) then delete k m else <[k := VHash h]> m.
Definition put_set (m : keyspace) (k : string) (s : gset string) : keyspace :=
  if decide (s = ∅) then delete k m else <[k := VSet s]> m.
Definition put_zset (m : keyspace) (k : string) (z : gmap string Z) : keyspace :=
  if decide (z = ∅) then delete k m else <[k := VZSet z]> m.

Definition set_fields (h : gmap string string) (l : list (string * string)) : gmap string string :=
  foldl (fun h p => <[fst p := snd p]> h) h l.

(** The members of a sorted set by their scores, and the entries of a map one after
    the other. *)
Definition score_le (p q : string * Z) : Prop := snd p <= snd q.
#[global] Instance score_le_dec : RelDecision score_le.
Proof. intros p q. unfold score_le. apply _. Defined.
#[global] Instance score_le_trans : Transitive score_le.
Proof. intros p q r. unfold score_le. lia. Qed.
#[global] Instance score_le_total : Total score_le.
Proof. intros p q. unfold score_le. lia. Qed.

Definition flat (l : list (string * string)) : list string := concat (map (fun p => [fst p; snd p]) l).

(** A pattern is a text followed by a star; the text is not a pattern itself. *)
Definition plain_pattern (p : string) : Prop :=
  Forall (fun a => a <> "*"%char /\ a <> "?"%char /\ a <> "["%char /\ a <> "]"%char /\ a <> "\"%char) (String.list_ascii_of_string p).
Definition matching (p k : string) : Prop := String.prefix p k = true.
#[global] Instance matching_dec p k : Decision (matching p k).
Proof. unfold matching. apply _. Defined.

(** A hash that is kept in one piece, and scanned at once. *)
Definition small_hash (h : gmap string string) : Prop :=
  (size h <= 128)%nat /\ map_Forall (fun f v => (String.length f <= 64 /\ String.length v <= 64)%nat) h.

Definition bulk (o : option string) : reply := match o with Some s => RString s | None => RNil end.
Definition count (b : bool) : reply := RInteger (if b then 1 else 0).

(** The commands with one possible result; the sets of the others are given in some
    order.  A rename onto itself is left to the server. *)
Definition run (m : keyspace) (c : command) : reply * keyspace :=
  match c with
  | HGET k f => (match hash m k with Some h => bulk (h !! f) | None => RError end, m)
  | HMGET k fs => (match hash m k with Some h => RArray (map (fun f => h !! f) fs) | None => RError end, m)
  | HMSET k l => match hash m k with Some h => (OK, put_hash m k (set_fields h l)) | None => (RError, m) end
  | HSET k f v => match hash m k with
                  | Some h => (count (bool_decide (h !! f = None)), put_hash m k (<[f := v]> h))
                  | None => (RError, m)
                  end
  | HDEL k fs => match hash m k with
                 | Some h => let h' := foldr delete h fs in
                             (RInteger (Z.of_nat (size h) - Z.of_nat (size h')), put_hash m k h')
                 | None => (RError, m)
                 end
  | HLEN k => (match hash m k with Some h => RInteger (Z.of_nat (size h)) | None => RError end, m)
  | HEXISTS k f => (match hash m k with Some h => count (bool_decide (is_Some (h !! f))) | None => RError end, m)
  | HGETALL k => (match hash m k with
                  | Some h => RArray (concat (map (fun p => [Some (fst p); Some (snd p)]) (map_to_list h)))
                  | None => RError
                  end, m)
  | DEL k => (count (bool_decide (is_Some (m !! k))), delete k m)
  | RENAME k k' => match m !! k with Some v => (OK, <[k' := v]> (delete k m)) | None => (RError, m) end
  | RENAMENX k k' => match m !! k with
                     | Some v => if decide (is_Some (m !! k')) then (RInteger 0, m)
                                 else (RInteger 1, <[k' := v]> (delete k m))
                     | None => (RError, m)
                     end
  | GET k => (match m !! k with None => RNil | Some (VString s) => RString s | _ => RError end, m)
  | SET k v => (OK, <[k := VString v]> m)
  | SADD k x => match members m k with
                | Some s => (count (bool_decide (x ∉ s)), put_set m k ({[x]} ∪ s))
                | None => (RError, m)
                end
  | SREM k x => match members m k with
                | Some s => (count (bool_decide (x ∈ s)), put_set m k (s ∖ {[x]}))
                | None => (RError, m)
                end
  | SISMEMBER k x => (match members m k with Some s => count (bool_decide (x ∈ s)) | None => RError end, m)
  | SCARD k => (match members m k with Some s => RInteger (Z.of_nat (size s)) | None => RError end, m)
  | SMEMBERS k => (match members m k with Some s => RArray (map Some (elements s)) | None => RError end, m)
  | SPOP k => match members m k with
              | Some s => match elements s with
                          | [] => (RNil, m)
                          | x :: _ => (RString x, put_set m k (s ∖ {[x]}))
                          end
              | None => (RError, m)
              end
  | SPOPN k n => match members m k with
                 | Some s => let l := take n (elements s) in (RArray (map Some l), put_set m k (s ∖ list_to_set l))
                 | None => (RError, m)
                 end
  | SMOVE k k' x => match members m k, members m k' with
                    | Some s, Some s' =>
                        if decide (x ∈ s) then
                          let m := put_set m k (s ∖ {[x]}) in (RInteger 1, put_set m k' ({[x]} ∪ default ∅ (members m k')))
                        else (RInteger 0, m)
                    | _, _ => (RError, m)
                    end
  | SDIFFSTORE k k1 k2 => match members m k1, members m k2 with
                          | Some s1, Some s2 => (RInteger (Z.of_nat (size (s1 ∖ s2))), put_set m k (s1 ∖ s2))
                          | _, _ => (RError, m)
                          end
  | ZADD k n x => match scores m k with
                  | Some z => (count (bool_decide (z !! x = None)), put_zset m k (<[x := n]> z))
                  | None => (RError, m)
                  end
  | ZCARD k => (match scores m k with Some z => RInteger (Z.of_nat (size z)) | None => RError end, m)
  | ZRANGEBYSCORE k lo hi =>
      (match scores m k with
       | Some z => RArray (map (fun p => Some (fst p)) (filter (fun p => lo <= snd p <= hi) (map_to_list z)))
       | None => RError
       end, m)
  | ZREVRANGE_FIRST k =>
      (match scores m k with
       | Some z => match foldr (fun p b => match b with
                                           | Some q => if snd q <=? snd p then Some p else b
                                           | None => Some p
                                           end) None (map_to_list z) with
                   | Some (x, n) => RArray [Some x; Some (pretty n)]
                   | None => RArray []
                   end
       | None => RError
       end, m)
  | ZREMRANGEBYSCORE k lo hi =>
      match scores m k with
      | Some z => let z' := filter (fun p => ~ (lo <= snd p <= hi)) z in
                  (RInteger (Z.of_nat (size z) - Z.of_nat (size z')), put_zset m k z')
      | None => (RError, m)
      end
  | ZINCRBY k n x => match scores m k with
                     | Some z => let v := default 0 (z !! x) + n in (RString (pretty v), put_zset m k (<[x := v]> z))
                     | None => (RError, m)
                     end
  | ZREM k x => match scores m k with
                | Some z => (count (bool_decide (is_Some (z !! x))), put_zset m k (delete x z))
                | None => (RError, m)
                end
  | ZRANGE k first last =>
      (match scores m k with
       | Some z => RArray (map (fun p => Some (fst p)) (take (S last - first) (drop first (merge_sort score_le (map_to_list z)))))
       | None => RError
       end, m)
  | KEYS p => (RArray (map Some (filter (matching p) (elements (dom m)))), m)
  | DBSIZE => (RInteger (Z.of_nat (size m)), m)
  | HSCAN k _ p =>
      (match hash m k with
       | Some h => RScan "0" (flat (filter (fun x => matching p (fst x)) (map_to_list h)))
       | None => RError
       end, m)
  | SSCAN k _ p =>
      (match members m k with Some s => RScan "0" (filter (matching p) (elements s)) | None => RError end, m)
  | ZSCAN k _ =>
      (match scores m k with
       | Some z => RScan "0" (flat (map (fun x => (fst x, pretty (snd x))) (map_to_list z)))
       | None => RError
       end, m)
  end.

(** What a server may do: lists come in any order, any member may be popped, and
    any member with the highest score is the first in reverse order.  A scan returns
    some of the entries that match; a scan that begins and ends with the cursor 0 has
    returned all of them, and that of a small hash does, each one once. *)
Definition serves (m : keyspace) (c : command) (r : reply) (m' : keyspace) : Prop :=
  match c with
  | SMEMBERS k =>
      m' = m /\ match members m k with Some s => exists l, l ≡ₚ elements s /\ r = RArray (map Some l) | None => r = RError end
  | HGETALL k =>
      m' = m /\ match hash m k with
                | Some h => exists l, l ≡ₚ map_to_list h /\ r = RArray (concat (map (fun p => [Some (fst p); Some (snd p)]) l))
                | None => r = RError
                end
  | SPOP k =>
      match members m k with
      | Some s => (s = ∅ /\ r = RNil /\ m' = m) \/ (exists x, x ∈ s /\ r = RString x /\ m' = put_set m k (s ∖ {[x]}))
      | None => r = RError /\ m' = m
      end
  | SPOPN k n =>
      match members m k with
      | Some s => exists l l', l ++ l' ≡ₚ elements s /\ length l = Nat.min n (size s) /\
                               r = RArray (map Some l) /\ m' = put_set m k (s ∖ list_to_set l)
      | None => r = RError /\ m' = m
      end
  | ZRANGEBYSCORE k lo hi =>
      m' = m /\ match scores m k with
                | Some z => exists l, l ≡ₚ filter (fun p => lo <= snd p <= hi) (map_to_list z) /\
                                      r = RArray (map (fun p => Some (fst p)) l)
                | None => r = RError
                end
  | ZREVRANGE_FIRST k =>
      m' = m /\ match scores m k with
                | Some z => (z = ∅ /\ r = RArray []) \/
                            (exists x n, z !! x = Some n /\ map_Forall (fun _ n' => n' <= n) z /\
                                         r = RArray [Some x; Some (pretty n)])
                | None => r = RError
                end
  | ZRANGE k first last =>
      m' = m /\ match scores m k with
                | Some z => exists l, l ≡ₚ map_to_list z /\ StronglySorted score_le l /\
                                      r = RArray (map (fun p => Some (fst p)) (take (S last - first) (drop first l)))
                | None => r = RError
                end
  | KEYS p =>
      m' = m /\ exists l, r = RArray (map Some l) /\ NoDup l /\ (forall k, k ∈ l -> is_Some (m !! k)) /\
                          (plain_pattern p -> forall k, k ∈ l <-> is_Some (m !! k) /\ matching p k)
  | HSCAN k cursor p =>
      m' = m /\ match hash m k with
                | Some h => exists c l, r = RScan c (flat l) /\
                              (forall x, x ∈ l -> h !! fst x = Some (snd x) /\ (plain_pattern p -> matching p (fst x))) /\
                              (plain_pattern p -> small_hash h -> cursor = "0" ->
                                 c = "0" /\ l ≡ₚ filter (fun x => matching p (fst x)) (map_to_list h))
                | None => r = RError
                end
  | SSCAN k cursor p =>
      m' = m /\ match members m k with
                | Some s => exists c l, r = RScan c l /\ (forall x, x ∈ l -> x ∈ s /\ (plain_pattern p -> matching p x)) /\
                              (plain_pattern p -> cursor = "0" -> c = "0" -> forall x, x ∈ s -> matching p x -> x ∈ l)
                | None => r = RError
                end
  | ZSCAN k cursor =>
      m' = m /\ match scores m k with
                | Some z => exists c l, r = RScan c (flat (map (fun x => (fst x, pretty (snd x))) l)) /\
                                        (forall x, x ∈ l -> z !! fst x = Some (snd x))
                | None => r = RError
                end
  | _ => (r, m') = run m c
  end.

Class Server (D : Type) := { exec : D -> command -> reply * D; contents : D -> keyspace }.

Class ServerLaws (D : Type) `{Server D} :=
  exec_serves d c : serves (contents d) c (fst (exec d c)) (contents (snd (exec d c))).

Module Keyspace.

#[global] Instance server : Server keyspace := {| exec := run; contents m := m |}.

Lemma first_in_reverse (l : list (string * Z)) :
  match foldr (fun p b => match b with Some q => if snd q <=? snd p then Some p else b | None => Some p end) None l with
  | Some p => p ∈ l /\ forall q, q ∈ l -> snd q <= snd p
  | None => l = []
  end.
Proof.
  induction l as [|p l IH]; [done|]. cbn [foldr]. destruct (foldr _ None l) as [q|] eqn:E.
  - destruct IH as [Hq Hmax]. destruct (Z.leb_spec (snd q) (snd p)).
    + split; [apply elem_of_cons; by left|]. intros q' [->|Hq']%elem_of_cons; [done|]. specialize (Hmax q' Hq'). lia.
    + split; [apply elem_of_cons; by right|]. intros q' [->|Hq']%elem_of_cons; [lia|]. by apply Hmax.
  - subst l. split; [apply elem_of_cons; by left|]. intros q' [->|Hq']%elem_of_cons; [done|]. by apply elem_of_nil in Hq'.
Qed.

#[global] Instance server_laws : ServerLaws keyspace.
Proof.
  intros m c. unfold exec, contents, server. destruct c; cbn [serves]; try (symmetry; apply surjective_pairing); cbn [run].
  - split; [done|]. cbn [fst]. destruct (hash m k) as [h|]; [|done]. by eexists.
  - split; [done|]. cbn [fst]. destruct (members m k) as [s|]; [|done]. by eexists.
  - destruct (members m k) as [s|]; [|done]. destruct (elements s) as [|x l] eqn:E.
    + left. split_and!; try done. by apply elements_empty_inv, leibniz_equiv in E.
    + right. exists x. split_and!; try done. apply elem_of_elements. rewrite E. apply elem_of_cons. by left.
  - destruct (members m k) as [s|]; [|done]. exists (take n (elements s)), (drop n (elements s)).
    rewrite take_drop. split_and!; try done. by rewrite length_take.
  - split; [done|]. cbn [fst]. destruct (scores m k) as [z|]; [|done]. by eexists.
  - split; [done|]. cbn [fst]. destruct (scores m k) as [z|]; [|done]. pose proof (first_in_reverse (map_to_list z)) as Hf.
    destruct (foldr _ None (map_to_list z)) as [[x n]|].
    + destruct Hf as [Hx Hmax]. right. exists x, n. rewrite elem_of_map_to_list in Hx. split_and!; try done.
      intros y n' Hy. apply (Hmax (y, n')). by apply elem_of_map_to_list.
    + left. split; [|done]. by apply map_to_list_empty_iff.
  - split; [done|]. cbn [fst]. destruct (scores m k) as [z|]; [|done]. eexists. split_and!; [apply (merge_sort_Permutation score_le)| |done].
    apply (StronglySorted_merge_sort score_le).
  - split; [done|]. eexists. split_and!; [done|apply NoDup_filter, NoDup_elements|..].
    + intros k [_ Hk]%list_elem_of_filter. by apply elem_of_elements, elem_of_dom in Hk.
    + intros _ k. rewrite list_elem_of_filter, elem_of_elements, elem_of_dom. tauto.
  - split; [done|]. cbn [fst]. destruct (hash m k) as [h|]; [|done]. do 2 eexists. split_and!; [done|..|done].
    intros x [Hx Hin]%list_elem_of_filter. split; [by apply elem_of_map_to_list; destruct x|done].
  - split; [done|]. cbn [fst]. destruct (members m k) as [s|]; [|done]. do 2 eexists. split_and!; [done|..].
    + intros x [Hx Hin]%list_elem_of_filter. split; [by apply elem_of_elements|done].
    + intros _ _ _ x Hx Hm. apply list_elem_of_filter. split; [done|by apply elem_of_elements].
  - split; [done|]. cbn [fst]. destruct (scores m k) as [z|]; [|done]. do 2 eexists. split; [done|].
    intros [x n] Hx. by apply elem_of_map_to_list in Hx.
Qed.

End Keyspace.

(** * The connection *)

(** What happens to one command.  A refused command has no effect and an error as
    its reply. *)
Inductive link := Answered | Refused | Unanswered | Down.

(** A reply that is not yet fetched: it will arrive or not.  Once one could not be
    fetched the connection is [Closed], and nothing is sent on it until the store
    connects again. *)
Inductive slot := Arrives (r : reply) | Lost | Closed.

(** The state of the server, the number of commands so far, and the replies not yet
    fetched. *)
Record session (D : Type) := mk_session { db : D; sent : nat; pending : list slot }.
Arguments mk_session {D} _ _ _.
Arguments db {D} _.
Arguments sent {D} _.
Arguments pending {D} _.

Definition M (D A : Type) : Type := session D -> outcome (A * session D).

Definition ret {D A} (a : A) : M D A := fun s => Ok (a, s).

Definition bind {D A B} (m : M D A) (f : A -> M D B) : M D B := fun s =>
  match m s with Undef => Undef | Fail => Fail | Ok (a, s) => f a s end.

Declare Scope session_scope.
Delimit Scope session_scope with session.
Notation "'let!' x ':=' c1 'in' c2" := (bind c1 (fun x => c2))
  (at level 200, x pattern, c1 at level 100, c2 at level 200) : session_scope.
#[local] Open Scope session_scope.

(** Code that does not use the connection. *)
Definition lift {D A} (o : outcome A) : M D A := fun s => obind o (fun a => Ok (a, s)).

Section connection.
Context {D : Type} `{Server D} (net : nat -> link).

(** [redisAppendCommand]; a script is a function on the server. *)
Definition append (f : D -> reply * D) : M D unit := fun s =>
  match pending s with
  | Closed :: _ => Ok (tt, s)
  | _ =>
      let '(r, d) := f (db s) in
      let '(x, d) := match net (sent s) with
                     | Answered => (Arrives r, d)
                     | Refused => (Arrives RError, db s)
                     | Unanswered => (Lost, d)
                     | Down => (Lost, db s)
                     end in
      Ok (tt, mk_session d (S (sent s)) (pending s ++ [x]))
  end.

(** [redisGetReply] alone. *)
Definition fetchReply : M D (option reply) := fun s =>
  match pending s with
  | Arrives r :: q => Ok (Some r, mk_session (db s) (sent s) q)
  | _ => Ok (None, mk_session (db s) (sent s) [Closed])
  end.

(** A new connection: what was pending is gone.  (The process ends when the server then
    refuses the password; this is left out.) *)
Definition reconnect : M D unit := fun s => Ok (tt, mk_session (db s) (sent s) []).

(** [redisGetReply] where the code connects again after a failure. *)
Definition getReply : M D (option reply) :=
  let! r := fetchReply in
  match r with None => let! _ := reconnect in ret None | Some _ => ret r end.

(** [redisCommand], and [EVAL] with a script, without a new connection after a
    failure. *)
Definition tryEval (f : D -> reply * D) : M D (option reply) := let! _ := append f in fetchReply.
Definition tryCommand (c : command) : M D (option reply) := tryEval (fun d => exec d c).

(** The same where the code connects again. *)
Definition evalCommand (f : D -> reply * D) : M D (option reply) := let! _ := append f in getReply.
Definition redisCommand (c : command) : M D (option reply) := evalCommand (fun d => exec d c).

Fixpoint appendCommands (cs : list command) : M D unit :=
  match cs with
  | [] => ret tt
  | c :: cs => let! _ := append (fun d => exec d c) in appendCommands cs
  end.

End connection.
