(* ===== verification/MetaStore.v ===== *)
(** The metadata store ([src/proxy/metastore/redis_metastore.cc]): the record of a
    file is a hash with fields of raw bytes, older versions are kept under keys of
    their own with a sorted list of summaries, and sets hold the locks, the files of
    a directory and the files that wait for repair or for a background write.

    Every operation is a program over the connection of [RedisServer]; the mutex
    that makes the operations atomic is not part of the model.  Listings are in
    [MetaList], journals in [MetaJournal]. *)

From Stdlib Require Import Ascii.
From stdpp Require Import pretty.
From S2P Require Import Prelude DS Wire File MetaKeys RedisServer.

#[local] Open Scope Z_scope.
#[local] Open Scope outcome_scope.
#[local] Open Scope session_scope.

(** [boost::uuids::string_generator]; [None] for the exception. *)
Class UuidParser := uuid_of_string : string -> option Z.

Class UuidParserLaws `{UuidPrinter} `{UuidParser} : Prop :=
  uuid_parse_print u : uuid_of_string (uuid_to_string u) = Some u.

(** * Values *)

Definition raw_int (z : Z) : string := bytes_string (le 4 z).
Definition raw_long (z : Z) : string := bytes_string (le 8 z).
Definition get_int (l : list Z) : Z := i32 (unle l).

(** The first [n] bytes of a string, as [memcpy] reads them. *)
Definition copy_bytes (n : nat) (s : string) : outcome (list Z) := access (block_read (string_bytes s) 0 n).

Fixpoint sequence {A} (l : list (outcome A)) : outcome (list A) :=
  match l with
  | [] => Ok []
  | o :: l => let* a := o in let* l := sequence l in Ok (a :: l)
  end.

Section store.
Context {D : Type} `{Server D} `{UuidPrinter} `{UuidParser} `{UuidGenerator}.
Context (net : nat -> link) (overwriteFiles : bool).

Notation M := (M D).
Notation redisCommand := (redisCommand net).
Notation evalCommand := (evalCommand net).
Notation tryCommand := (tryCommand net).
Notation tryEval := (tryEval net).

(** ** Keys of a file *)

Definition the_name (f : File.t) : outcome string := access (File.name f).

Definition file_key (f : File.t) : outcome string :=
  let* n := the_name f in key_buffer PATH_MAX (genFileKey (File.namespaceId f) (print_name n)).
Definition versioned_key (f : File.t) (v : Z) : outcome string :=
  let* n := the_name f in key_buffer PATH_MAX (genVersionedFileKey (File.namespaceId f) (print_name n) v).
Definition list_key (f : File.t) : outcome string :=
  let* n := the_name f in key_buffer PATH_MAX (genFileVersionListKey (File.namespaceId f) (print_name n)).
Definition journal_key (f : File.t) : outcome string :=
  let* n := the_name f in
  key_buffer MAX_KEY_SIZE (genFileJournalKey (File.namespaceId f) (print_name n) (File.version f)).

(** ** Writing a record *)

(** The empty string stands for a missing state, however long it is said to be. *)
Definition coding_state (f : File.t) : outcome (list Z) :=
  let m := File.codingMeta f in
  let state := match CodingMeta.codingState m with
               | Some b => if File.size f =? 0 then [0] else b
               | None => [0]
               end in
  if CodingMeta.codingStateSize m <? 0 then Undef
  else access (block_read state 0 (Z.to_nat (CodingMeta.codingStateSize m))).

Definition deletion_mark (f : File.t) : outcome bool :=
  if File.size f =? 0 then access (File.isDeleted f) else Ok false.

Definition flag_text (b : bool) : string := if b then "1" else "0".

Definition main_fields (f : File.t) (name : string) (state : list Z) (deleted : bool) : list (string * string) :=
  let m := File.codingMeta f in
  let sg := File.staged f in
  let sgm := File.staged_codingMeta sg in
  [("name", name); ("uuid", uuid_to_string (File.uuid f)); ("size", raw_long (File.size f)); ("numC", raw_int (File.numChunks f));
   ("sc", c_str (File.storageClass f)); ("cs", bytes_string (le 1 (CodingMeta.coding m))); ("n", raw_int (CodingMeta.n m));
   ("k", raw_int (CodingMeta.k m)); ("f", raw_int (CodingMeta.f m)); ("maxCS", raw_int (CodingMeta.maxChunkSize m));
   ("codingStateS", raw_int (CodingMeta.codingStateSize m)); ("codingState", bytes_string state);
   ("numS", raw_int (File.numStripes f)); ("ver", raw_int (File.version f));
   ("ctime", raw_long (File.ctime f)); ("atime", raw_long (File.atime f)); ("mtime", raw_long (File.mtime f));
   ("tctime", raw_long (File.tctime f)); ("md5", bytes_string (File.md5 f));
   ("sg_size", raw_long (File.staged_size sg)); ("sg_sc", c_str (File.staged_storageClass sg));
   ("sg_cs", bytes_string (le 1 (CodingMeta.coding sgm))); ("sg_n", raw_int (CodingMeta.n sgm));
   ("sg_k", raw_int (CodingMeta.k sgm)); ("sg_f", raw_int (CodingMeta.f sgm));
   ("sg_maxCS", raw_int (CodingMeta.maxChunkSize sgm)); ("sg_mtime", raw_long (File.staged_mtime sg));
   ("dm", flag_text deleted);
   ("numUB", raw_long (Z.of_nat (length (File.uniqueBlocks f)))); ("numDB", raw_long (Z.of_nat (length (File.duplicateBlocks f))))].

Definition chunk_names (i : Z) : list string :=
  let cname := genChunkKeyPrefix i in [cname +:+ "-cid"; cname +:+ "-size"; cname +:+ "-md5"; cname +:+ "-bad"].

Definition chunk_fields (f : File.t) (i : nat) : outcome (list (string * string)) :=
  let* c := access (File.chunks f ≫= (.!! i)) in
  let* cid := access (File.containerIds f ≫= (.!! i)) in
  let* bad := match File.chunksCorrupted f with Some l => access (l !! i) | None => Ok false end in
  Ok (zip (chunk_names (Chunk.chunkId c))
          [raw_int cid; raw_int (Chunk.size c); bytes_string (Chunk.md5 c); flag_text bad]).

Definition raw_location (l : InObjectLocation) : list Z := le 8 (_offset l) ++ le 4 (_length l).

(** The position of a block in its map is part of the name of its field. *)
Definition unique_field (i : nat) (b : InObjectLocation * (string * Z)) : string * string :=
  let '(l, (fp, ofs)) := b in
  (genBlockKey (Z.of_nat i) true, bytes_string (raw_location l ++ string_bytes fp ++ le 4 ofs)).

Definition duplicate_field (i : nat) (b : InObjectLocation * string) : string * string :=
  let '(l, fp) := b in (genBlockKey (Z.of_nat i) false, bytes_string (raw_location l ++ string_bytes fp)).

(** The fields of a record, in the groups in which they are sent. *)
Definition record (f : File.t) (name : string) : outcome (list (list (string * string))) :=
  let* state := coding_state f in
  let* deleted := deletion_mark f in
  let* chunks := sequence (map (chunk_fields f) (seq 0 (Z.to_nat (File.numChunks f)))) in
  Ok (main_fields f name state deleted :: chunks ++ map (fun p => [p]) (imap unique_field (File.uniqueBlocks f))
      ++ map (fun p => [p]) (imap duplicate_field (File.duplicateBlocks f))).

(** The commands that store a record: its fields, the mapping from the identifier to
    the name, and the directory. *)
Definition put_commands (f : File.t) (name key prefix : string) : outcome (list command) :=
  let* groups := record f name in
  Ok (map (HMSET key) groups
      ++ match genFileUuidKey (File.namespaceId f) (File.uuid f) with Some k => [SET k name] | None => [] end
      ++ [SADD prefix key; SADD DIR_LIST_KEY prefix]).

(** One reply for every command; only a connection error counts. *)
Fixpoint get_replies (n : nat) : M bool :=
  match n with
  | O => ret true
  | S n => let! r := getReply in match r with Some _ => get_replies n | None => ret false end
  end.

(** The summary of a version: fields that are missing are dashes. *)
Definition summary (v : Z) (r : option reply) : string :=
  pretty v +:+ " " +:+
  match r with
  | Some (RArray l) => String.concat " " (map (fun i => default "-" (mjoin (l !! i))) (seq 0 5))
  | _ => ""
  end.

(** The current record becomes that of the version before the new one. *)
Definition backup (f : File.t) (filename : string) : M bool :=
  let v := i32 (File.version f - 1) in
  let! vfilename := lift (versioned_key f v) in
  let! r := redisCommand (RENAME filename vfilename) in
  if bool_decide (r = Some OK) then
    let! r := tryCommand (HMGET vfilename ["size"; "mtime"; "md5"; "dm"; "numC"]) in
    let! vlname := lift (list_key f) in
    let! _ := tryCommand (ZADD vlname v (summary v r)) in
    ret true
  else ret false.

(** The key for a version before the current one, if it is listed.  The log message
    for a lost reply reads the reply. *)
Definition previous (f : File.t) : M (option string) :=
  let! vlname := lift (list_key f) in
  let! r := redisCommand (ZRANGEBYSCORE vlname (File.version f) (File.version f)) in
  match r with
  | None => lift Undef
  | Some (RArray (_ :: _)) => let! k := lift (versioned_key f (File.version f)) in ret (Some k)
  | Some _ => ret None
  end.

Definition current_version (r : reply) : Z :=
  match r with
  | RString s => if (String.length s =? 4)%nat then get_int (string_bytes s) else -1
  | _ => -1
  end.

(** The record is stored under the key of the file or that of an older version. *)
Definition put_version (f : File.t) (filename name prefix : string) (curVersion : Z) : M bool :=
  let keepVersion := negb overwriteFiles && negb (curVersion =? -1) in
  let! ok := (if keepVersion && (curVersion <? File.version f) then backup f filename else ret true) in
  if negb ok then ret false
  else
    let! key := (if keepVersion && (File.version f <? curVersion) then previous f else ret (Some filename)) in
    match key with
    | None => ret false
    | Some key =>
        let! cs := lift (put_commands f name key (c_str prefix)) in
        let! _ := appendCommands net cs in
        get_replies (length cs)
    end.

Definition putMeta (f : File.t) : M bool :=
  let! filename := lift (file_key f) in
  let! name := lift (the_name f) in
  let! prefix := lift (getFilePrefix (c_str filename) false) in
  let! vr := redisCommand (HGET filename "ver") in
  match vr with
  | None => ret false
  | Some vr => put_version f filename name prefix (current_version vr)
  end.

(** ** Reading a record *)

(** A step takes the replies to the fields and the file as it is so far; [None] ends
    the operation. *)
Definition field_step : Type := list (option string) -> File.t -> option File.t.

Definition check_and_copy_field (idx : nat) (len : File.t -> nat) (set : list Z -> File.t -> File.t) : field_step :=
  fun r f => match r !! idx with
             | Some (Some s) => if (len f <=? String.length s)%nat then Some (set (take (len f) (string_bytes s)) f) else None
             | _ => None
             end.

Definition check_and_copy_or_set_field (idx len : nat) (set : list Z -> File.t -> File.t) (dflt : File.t -> File.t)
    : field_step :=
  fun r f => Some match r !! idx with
                  | Some (Some s) => if (len <=? String.length s)%nat then set (take len (string_bytes s)) f else dflt f
                  | _ => dflt f
                  end.

Definition check_and_copy_string (idx : nat) (set : string -> File.t -> File.t) : field_step :=
  fun r f => Some (set (default "" (mjoin (r !! idx))) f).

Definition upd_coding (g : CodingMeta.t -> CodingMeta.t) (f : File.t) : File.t :=
  File.set_policy f (g (File.codingMeta f)) (File.storageClass f).

Definition upd_staged (g : CodingMeta.t -> CodingMeta.t) (f : File.t) : File.t :=
  let s := File.staged f in
  File.set_staged f (File.mk_staged (File.staged_size s) (g (File.staged_codingMeta s)) (File.staged_storageClass s)
                                    (File.staged_mtime s)).

Definition set_numC (f : File.t) (n : Z) : File.t :=
  File.set_chunk_info f n (File.containerIds f) (File.chunks f) (File.chunksCorrupted f).

(** The setters of one field of the coding parameters. *)
Definition with_cs (z : Z) (m : CodingMeta.t) := CodingMeta.mk z (CodingMeta.codingState m) (CodingMeta.n m)
  (CodingMeta.k m) (CodingMeta.f m) (CodingMeta.codingStateSize m) (CodingMeta.maxChunkSize m).
Definition with_n (z : Z) (m : CodingMeta.t) := CodingMeta.mk (CodingMeta.coding m) (CodingMeta.codingState m) z
  (CodingMeta.k m) (CodingMeta.f m) (CodingMeta.codingStateSize m) (CodingMeta.maxChunkSize m).
Definition with_k (z : Z) (m : CodingMeta.t) := CodingMeta.mk (CodingMeta.coding m) (CodingMeta.codingState m) (CodingMeta.n m)
  z (CodingMeta.f m) (CodingMeta.codingStateSize m) (CodingMeta.maxChunkSize m).
Definition with_f (z : Z) (m : CodingMeta.t) := CodingMeta.mk (CodingMeta.coding m) (CodingMeta.codingState m) (CodingMeta.n m)
  (CodingMeta.k m) z (CodingMeta.codingStateSize m) (CodingMeta.maxChunkSize m).
Definition with_maxCS (z : Z) (m : CodingMeta.t) := CodingMeta.mk (CodingMeta.coding m) (CodingMeta.codingState m)
  (CodingMeta.n m) (CodingMeta.k m) (CodingMeta.f m) (CodingMeta.codingStateSize m) z.
Definition with_stateS (z : Z) (m : CodingMeta.t) := CodingMeta.mk (CodingMeta.coding m) (CodingMeta.codingState m)
  (CodingMeta.n m) (CodingMeta.k m) (CodingMeta.f m) z (CodingMeta.maxChunkSize m).
Definition with_state (b : list Z) (m : CodingMeta.t) := CodingMeta.mk (CodingMeta.coding m) (Some b)
  (CodingMeta.n m) (CodingMeta.k m) (CodingMeta.f m) (CodingMeta.codingStateSize m) (CodingMeta.maxChunkSize m).

Definition with_time (set : Z -> File.t -> File.t) (idx : nat) : field_step :=
  check_and_copy_or_set_field idx 8 (fun b => set (i64 (unle b))) (set 0).

(** The names of the fields, and what is done with the reply to each. *)
Definition main_names : list string :=
  ["size"; "numC"; "numS"; "uuid"; "sc"; "cs"; "n"; "k"; "f"; "maxCS"; "codingStateS"; "codingState"; "ver"; "ctime"; "atime";
   "mtime"; "tctime"; "md5"; "sg_size"; "sg_sc"; "sg_cs"; "sg_n"; "sg_k"; "sg_f"; "sg_maxCS"; "sg_mtime"; "dm"; "numUB"; "numDB"].

Definition set_time (ct mt at_ tct : option Z) (f : File.t) : File.t :=
  File.setTimeStamps f (default (File.ctime f) ct) (default (File.mtime f) mt) (default (File.atime f) at_)
                     (default (File.tctime f) tct).

Definition set_staged_size (n : Z) (f : File.t) : File.t :=
  let s := File.staged f in
  File.set_staged f (File.mk_staged n (File.staged_codingMeta s) (File.staged_storageClass s) (File.staged_mtime s)).
Definition set_staged_sc (sc : string) (f : File.t) : File.t :=
  let s := File.staged f in
  File.set_staged f (File.mk_staged (File.staged_size s) (File.staged_codingMeta s) sc (File.staged_mtime s)).
Definition set_staged_mtime (z : Z) (f : File.t) : File.t :=
  let s := File.staged f in
  File.set_staged f (File.mk_staged (File.staged_size s) (File.staged_codingMeta s) (File.staged_storageClass s) z).

(** Without a reply to the field of the identifier an empty text is parsed. *)
Definition uuid_step : field_step := fun r f =>
  (fun u => File.set_ids f (File.namespaceId f) u (File.name f)) <$> uuid_of_string (default "" (mjoin (r !! 3%nat))).

(** The state is read only when there is one. *)
Definition state_step : field_step := fun r f =>
  let n := CodingMeta.codingStateSize (File.codingMeta f) in
  if 0 <? n then check_and_copy_field 11 (fun _ => Z.to_nat n) (fun b => upd_coding (with_state b)) r f else Some f.

Definition main_steps : list field_step :=
  [ check_and_copy_field 0 (fun _ => 8%nat) (fun b f => File.set_size f (unle b));
    check_and_copy_field 1 (fun _ => 4%nat) (fun b f => set_numC f (get_int b));
    check_and_copy_field 2 (fun _ => 4%nat) (fun b f => File.set_numStripes f (get_int b));
    uuid_step;
    check_and_copy_string 4 (fun s f => File.set_policy f (File.codingMeta f) s);
    check_and_copy_field 5 (fun _ => 1%nat) (fun b => upd_coding (with_cs (unle b)));
    check_and_copy_field 6 (fun _ => 4%nat) (fun b => upd_coding (with_n (get_int b)));
    check_and_copy_field 7 (fun _ => 4%nat) (fun b => upd_coding (with_k (get_int b)));
    check_and_copy_field 8 (fun _ => 4%nat) (fun b => upd_coding (with_f (get_int b)));
    check_and_copy_field 9 (fun _ => 4%nat) (fun b => upd_coding (with_maxCS (get_int b)));
    check_and_copy_field 10 (fun _ => 4%nat) (fun b => upd_coding (with_stateS (get_int b)));
    state_step;
    check_and_copy_field 12 (fun _ => 4%nat) (fun b f => File.setVersion f (get_int b));
    with_time (fun z => set_time (Some z) None None None) 13;
    with_time (fun z => set_time None None (Some z) None) 14;
    with_time (fun z => set_time None (Some z) None None) 15;
    with_time (fun z => set_time None None None (Some z)) 16;
    check_and_copy_or_set_field 17 MD5_DIGEST_LENGTH (fun b f => File.set_md5 f b) (fun f => File.set_md5 f (<[0%nat := 0]> (File.md5 f)));
    check_and_copy_or_set_field 18 8 (fun b => set_staged_size (unle b)) (set_staged_size INVALID_FILE_OFFSET);
    check_and_copy_string 19 set_staged_sc;
    check_and_copy_field 20 (fun _ => 1%nat) (fun b => upd_staged (with_cs (unle b)));
    check_and_copy_field 21 (fun _ => 4%nat) (fun b => upd_staged (with_n (get_int b)));
    check_and_copy_field 22 (fun _ => 4%nat) (fun b => upd_staged (with_k (get_int b)));
    check_and_copy_field 23 (fun _ => 4%nat) (fun b => upd_staged (with_f (get_int b)));
    check_and_copy_field 24 (fun _ => 4%nat) (fun b => upd_staged (with_maxCS (get_int b)));
    with_time set_staged_mtime 25;
    fun r f => Some (File.set_isDeleted f match r !! 26%nat with
                                          | Some (Some s) => if (1 <=? String.length s)%nat then negb (atoi s =? 0) else false
                                          | _ => false
                                          end) ].

Fixpoint run_steps (l : list field_step) (r : list (option string)) (f : File.t) : bool * File.t :=
  match l with
  | [] => (true, f)
  | s :: l => match s r f with Some f => run_steps l r f | None => (false, f) end
  end.

(** The number of blocks, of which 0 is assumed without a reply. *)
Definition block_count (idx : nat) (r : list (option string)) : nat :=
  match r !! idx with
  | Some (Some s) => if (8 <=? String.length s)%nat then Z.to_nat (unle (take 8 (string_bytes s))) else O
  | _ => O
  end.

Definition set_cid (f : File.t) (i : nat) (cid : Z) : File.t :=
  File.set_chunk_info f (File.numChunks f) ((<[i := cid]>) <$> File.containerIds f) (File.chunks f) (File.chunksCorrupted f).

Definition set_chunk (f : File.t) (i : nat) (c : Chunk.t) (bad : bool) : File.t :=
  File.set_chunk_info f (File.numChunks f) (File.containerIds f) ((<[i := c]>) <$> File.chunks f)
    ((<[i := bad]>) <$> File.chunksCorrupted f).

Definition zero_first (l : list Z) : list Z := <[0%nat := 0]> l.

(** What one reply says about the chunk [i]: the container, the size, the checksum
    and the mark of a corrupted chunk.  Without the mark a null pointer is read. *)
Definition chunk_reply (f : File.t) (i : nat) (l : list (option string)) : outcome (bool * File.t) :=
  let* c := access (File.chunks f ≫= (.!! i)) in
  match l with
  | Some cid :: rest =>
      if (String.length cid <? 4)%nat then Ok (false, f)
      else
        let f := set_cid f i (get_int (take 4 (string_bytes cid))) in
        match rest with
        | Some sz :: rest =>
            if (String.length sz <? 4)%nat then Ok (false, f)
            else
              let* bad := match rest !! 1%nat with None => Ok false | Some b => let* b := access b in Ok (negb (atoi b =? 0)) end in
              let sum := match mjoin (head rest) with
                         | Some s => if (MD5_DIGEST_LENGTH <=? String.length s)%nat
                                     then take MD5_DIGEST_LENGTH (string_bytes s)
                                     else zero_first (Chunk.md5 c)
                         | None => zero_first (Chunk.md5 c)
                         end in
              Ok (true, set_chunk f i (Chunk.mk (File.namespaceId f) (File.uuid f) (Z.of_nat i) None
                                                (get_int (take 4 (string_bytes sz))) true (File.version f)
                                                (Chunk.chunkVersion c) sum) bad)
        | _ => Ok (false, f)
        end
  | _ => Ok (false, f)
  end.

(** A failure leaves the replies to the remaining chunks unread; the log message for
    a reply that is no array of two fields reads through a null pointer. *)
Fixpoint chunk_replies (n i : nat) (f : File.t) : M (bool * File.t) :=
  match n with
  | O => ret (true, f)
  | S n =>
      let! r := getReply in
      match r with
      | None => ret (false, f)
      | Some (RArray l) =>
          let! o := lift (if (length l <? 2)%nat then Undef else chunk_reply f i l) in
          if fst o then chunk_replies n (S i) (snd o) else ret o
      | Some _ => lift Undef
      end
  end.

(** [emplace_hint] into a map that is ordered by the offset: an offset that is there
    already is not replaced. *)
Fixpoint emplace {A} (l : InObjectLocation) (a : A) (m : list (InObjectLocation * A)) : list (InObjectLocation * A) :=
  match m with
  | [] => [(l, a)]
  | (l', a') :: m' =>
      if _offset l <? _offset l' then (l, a) :: m
      else if _offset l =? _offset l' then m
      else (l', a') :: emplace l a m'
  end.

Definition SHA256_DIGEST_LENGTH : nat := 32.

Definition parse_location (b : list Z) : InObjectLocation :=
  mk_location (unle (take 8 b)) (unle (take 4 (drop 8 b))).

(** A block with the fingerprint found last, which stays when there is none. *)
Definition unique_reply (fp : string) (l : list (option string)) : option (InObjectLocation * (string * Z)) :=
  match l with
  | [Some s] =>
      let b := string_bytes s in
      if (12 <=? length b)%nat then
        if (48 <=? length b)%nat
        then Some (parse_location b, (bytes_string (take SHA256_DIGEST_LENGTH (drop 12 b)), get_int (take 4 (drop 44 b))))
        else if (16 <=? length b)%nat then Some (parse_location b, (fp, get_int (take 4 (drop 12 b)))) else None
      else None
  | _ => None
  end.

Definition duplicate_reply (fp : string) (l : list (option string)) : option (InObjectLocation * string) :=
  match l with
  | [Some s] =>
      let b := string_bytes s in
      if (12 <=? length b)%nat
      then Some (parse_location b, if (44 <=? length b)%nat then bytes_string (take SHA256_DIGEST_LENGTH (drop 12 b)) else fp)
      else None
  | _ => None
  end.

Fixpoint unique_replies (n : nat) (fp : string) (f : File.t) : M (bool * string * File.t) :=
  match n with
  | O => ret (true, fp, f)
  | S n =>
      let! r := getReply in
      match r with
      | Some (RArray l) =>
          match unique_reply fp l with
          | Some (loc, (fp, ofs)) =>
              unique_replies n fp (File.set_blocks f (emplace loc (fp, ofs) (File.uniqueBlocks f)) (File.duplicateBlocks f))
          | None => ret (false, fp, f)
          end
      | _ => ret (false, fp, f)
      end
  end.

Fixpoint duplicate_replies (n : nat) (fp : string) (f : File.t) : M (bool * File.t) :=
  match n with
  | O => ret (true, f)
  | S n =>
      let! r := getReply in
      match r with
      | Some (RArray l) =>
          match duplicate_reply fp l with
          | Some (loc, fp) =>
              duplicate_replies n fp (File.set_blocks f (File.uniqueBlocks f) (emplace loc fp (File.duplicateBlocks f)))
          | None => ret (false, f)
          end
      | _ => ret (false, f)
      end
  end.

(** The record of the current version or of the one that is asked for. *)
Definition record_key (f : File.t) : M string :=
  let! filename := lift (file_key f) in
  if File.version f =? -1 then ret filename
  else
    let! r := tryCommand (HGET filename "ver") in
    let! version := lift match r with
                   | Some (RString s) => let* b := copy_bytes 4 s in Ok (get_int b)
                   | _ => Ok (-1)
                   end in
    if version =? File.version f then ret filename else lift (versioned_key f (File.version f)).

(** The containers and attributes of the chunks. *)
Definition get_chunks (filename : string) (f : File.t) : M (bool * File.t) :=
  let '(ok, f) := File.initChunksAndContainerIds f (-1) in
  if negb ok then ret (false, f)
  else
    let numChunks := Z.to_nat (File.numChunks f) in
    let! _ := appendCommands net (map (fun i => HMGET filename (chunk_names (Z.of_nat i))) (seq 0 numChunks)) in
    chunk_replies numChunks 0 f.

Definition get_unique (filename : string) (n : nat) (f : File.t) : M (bool * string * File.t) :=
  let! _ := appendCommands net (map (fun i => HMGET filename [genBlockKey (Z.of_nat i) true]) (seq 0 n)) in
  unique_replies n "" f.

Definition get_duplicates (filename : string) (n : nat) (fp : string) (f : File.t) : M (bool * File.t) :=
  let! _ := appendCommands net (map (fun i => HMGET filename [genBlockKey (Z.of_nat i) false]) (seq 0 n)) in
  duplicate_replies n fp f.

Definition NUM_REQ_FIELDS : nat := 10.

(** A reply with fewer fields than the code reads without looking at their number. *)
Definition short_reply (l : list (option string)) : bool := (length l <? 25)%nat.

(** Which blocks are read: none (0), the unique ones (1), the duplicates (2) or all
    (3).  The last fingerprint of the unique blocks is still there for the
    duplicates. *)
Definition getMeta (f : File.t) (getBlocks : Z) : M (bool * File.t) :=
  let! filename := record_key f in
  let! r := redisCommand (HMGET filename main_names) in
  match r with
  | Some (RArray l) =>
      if (length l <=? NUM_REQ_FIELDS)%nat then ret (false, f)
      else if short_reply l then lift Undef
      else
        let '(ok, f) := run_steps main_steps l f in
        if negb ok then ret (false, f)
        else
          let! (ok, f) := get_chunks filename f in
          if negb ok then ret (false, f)
          else
            let! (ok, fp, f) := if (getBlocks =? 1) || (getBlocks =? 3) then get_unique filename (block_count 27 l) f
                                 else ret (true, "", f) in
            if negb ok then ret (false, f)
            else if (getBlocks =? 2) || (getBlocks =? 3) then get_duplicates filename (block_count 28 l) fp f
            else ret (true, f)
  | _ => ret (false, f)
  end.

(** ** Deleting a record *)

Definition positive (r : option reply) : bool := match r with Some (RInteger z) => 0 <? z | _ => false end.

(** The script that removes a file from its directory, and a directory without files
    from the list of directories. *)
Definition leave_directory (prefix filename : string) (d : D) : reply * D :=
  let (ret, d) := exec d (SREM prefix filename) in
  match ret with
  | RError => (RError, d)
  | _ =>
      let (val, d) := exec d (SCARD prefix) in
      match val with
      | RError => (RError, d)
      | RInteger 0 => exec d (SREM DIR_LIST_KEY prefix)
      | _ => (ret, d)
      end
  end.

(** The deletion mark is the record of a new, empty version. *)
Definition as_deleted (f : File.t) (now : Z) : File.t :=
  let f := File.setVersion (File.set_size (File.set_isDeleted f true) 0) (i32 (File.version f + 1)) in
  let f := File.set_numStripes (set_numC f 0) 0 in
  File.set_md5 (File.setTimeStamps f (File.ctime f) now (File.atime f) (File.tctime f)) (replicate MD5_DIGEST_LENGTH 0).

(** The version that takes the place of the current one, or [None] after an error. *)
Definition promote (f : File.t) (filename vlname : string) : M (option Z) :=
  let! vr := redisCommand (ZREVRANGE_FIRST vlname) in
  match vr with
  | Some (RArray (Some s :: _ :: _)) =>
      let v := atoi s in
      let! vfilename := lift (versioned_key f v) in
      let! vr := redisCommand (RENAME vfilename filename) in
      ret (if bool_decide (vr = Some OK) then Some v else None)
  | _ => ret None
  end.

(** What is left to do after a version was deleted. *)
Inductive deletion := Done (ok : bool) | DeleteAll.

Definition unlist (f : File.t) (vlname : string) (curVersion versionToRemove : Z) : M deletion :=
  if versionToRemove =? -1 then ret DeleteAll
  else
    let! _ := tryCommand (ZREMRANGEBYSCORE vlname versionToRemove versionToRemove) in
    if curVersion =? File.version f then ret (Done true)
    else
      let! vfilename := lift (versioned_key f (File.version f)) in
      let! _ := tryCommand (DEL vfilename) in
      ret (Done true).

(** [f] is the record of the version to delete. *)
Definition delete_version (f : File.t) (filename vlname : string) : M deletion :=
  let! vr := redisCommand (HGET filename "ver") in
  match vr with
  | Some (RString s) =>
      let! b := lift (copy_bytes 4 s) in
      let curVersion := get_int b in
      let! vr := tryCommand (ZCARD vlname) in
      let numVersions := match vr with Some (RInteger z) => z | _ => 0 end in
      if curVersion =? File.version f then
        if 0 <? numVersions then
          let! v := promote f filename vlname in
          match v with Some v => unlist f vlname curVersion v | None => ret (Done false) end
        else ret DeleteAll
      else if numVersions =? 0 then ret (Done false)
      else unlist f vlname curVersion (File.version f)
  | _ => ret (Done false)
  end.

Definition delete_all (f : File.t) (filename prefix : string) : M (bool * File.t) :=
  let! r := redisCommand (DEL filename) in
  if negb (positive r) then ret (false, f)
  else
    let f := File.genUUID f in
    let! _ := match genFileUuidKey (File.namespaceId f) (File.uuid f) with
              | Some k => let! _ := redisCommand (DEL k) in ret tt
              | None => ret tt
              end in
    let! _ := evalCommand (leave_directory (c_str prefix) filename) in
    ret (true, f).

Definition deleteMeta (f : File.t) (now : Z) : M (bool * File.t) :=
  let! filename := lift (file_key f) in
  let! vlname := lift (list_key f) in
  let versionToDelete := File.version f in
  let! prefix := lift (getFilePrefix (c_str filename) false) in
  let! (ok, f) := getMeta f 3 in
  if negb ok then ret (false, f)
  else if negb overwriteFiles && (versionToDelete =? -1) then
    let f := as_deleted f now in
    let! ok := putMeta f in
    ret (ok, File.setVersion f (-1))
  else
    let! next := if negb overwriteFiles then delete_version f filename vlname else ret DeleteAll in
    match next with
    | Done ok => ret (ok, f)
    | DeleteAll => delete_all f filename prefix
    end.

(** ** Renaming *)

(** The keys of the older versions are not renamed.  Returns the result and the two
    files with the identifiers of their names. *)
Definition renameMeta (sf df : File.t) : M (bool * File.t * File.t) :=
  let! sfname := lift (file_key sf) in
  let! dfname := lift (file_key df) in
  let! sprefix := lift (getFilePrefix (c_str sfname) false) in
  let! dprefix := lift (getFilePrefix (c_str dfname) false) in
  let sf := File.genUUID sf in
  let df := File.genUUID df in
  match genFileUuidKey (File.namespaceId sf) (File.uuid sf), genFileUuidKey (File.namespaceId df) (File.uuid df) with
  | Some sfidKey, Some dfidKey =>
      let! r := redisCommand (RENAMENX sfname dfname) in
      if negb (bool_decide (r = Some (RInteger 1))) then ret (false, sf, df)
      else
        let! r := tryCommand (SET dfidKey dfname) in
        if bool_decide (r = None \/ r = Some RError) then
          let! _ := redisCommand (RENAME dfname sfname) in ret (false, sf, df)
        else
          let! _ := tryCommand (DEL sfidKey) in
          let! r := redisCommand (HSET dfname "uuid" (uuid_to_string (File.uuid df))) in
          if bool_decide (r = None \/ r = Some RError) then
            let! _ := tryCommand (RENAME dfname sfname) in ret (false, sf, df)
          else
            let! _ := redisCommand (SREM (c_str sprefix) sfname) in
            let! _ := redisCommand (SADD (c_str dprefix) dfname) in
            ret (true, sf, df)
  | _, _ => ret (false, sf, df)
  end.

(** ** Parts of a record *)

Definition updateTimestamps (f : File.t) : M bool :=
  let! fname := lift (file_key f) in
  let! r := redisCommand (HMSET fname [("atime", raw_long (File.atime f)); ("mtime", raw_long (File.mtime f));
                                      ("tctime", raw_long (File.tctime f))]) in
  ret (bool_decide (r = Some OK)).

(** A text that stays one literal of a script. *)
Definition quotable (s : string) : bool :=
  forallb (fun a => negb (bool_decide (a = "'"%char \/ a = "\"%char \/ a = newline \/ a = "013"%char))) (chars s).

(** The script: the chunks are set when the version is that of the file. *)
Definition update_script (fname : string) (version : Z) (fields : list (string * string)) (d : D) : reply * D :=
  match fst (exec d (HGET fname "ver")) with
  | RString s =>
      if (String.length s <? 4)%nat then (RError, d)
      else if unle (take 4 (string_bytes s)) =? version then
        match fields with [] => (RError, d) | _ => exec d (HMSET fname fields) end
      else (RInteger 1, d)
  | _ => (RError, d)
  end.

(** The version is the one of the file, not the parameter.  A name with a quote makes
    another script. *)
Definition updateChunks (f : File.t) (version : Z) : M Z :=
  let! key := lift (file_key f) in
  let fname := c_str key in
  let! fields := lift (sequence (map (chunk_fields f) (seq 0 (Z.to_nat (File.numChunks f))))) in
  if negb (quotable fname) then lift Undef
  else
    let! r := tryEval (update_script fname (File.version f) (concat (map (take 2) fields))) in
    ret match r with
        | Some (RStatus _) => 0
        | Some (RInteger z) => z
        | _ => 2
        end.

(** [strncpy] fills the rest with zero bytes. *)
Definition strncpy (s : string) : string :=
  c_str s +:+ String.string_of_list_ascii (replicate (String.length s - String.length (c_str s)) NUL).

Definition getFileName (fuuid : Z) (f : File.t) : M (bool * File.t) :=
  match genFileUuidKey (File.namespaceId f) fuuid with
  | None => ret (false, f)
  | Some fidKey =>
      let! r := redisCommand (GET fidKey) in
      ret match r with
          | Some (RString s) => (true, File.set_ids f (File.namespaceId f) (File.uuid f) (Some (strncpy s)))
          | _ => (false, f)
          end
  end.

(** ** Sets of files *)

(** The files that wait for repair or for a background write are listed with their
    version; any integer is a success. *)
Definition markFileStatus (f : File.t) (listName : string) (set : bool) : M bool :=
  let! filename := lift (versioned_key f (File.version f)) in
  let! r := redisCommand (if set then SADD listName filename else SREM listName filename) in
  ret match r with Some (RInteger _) => true | _ => false end.

Definition markFileRepairStatus (f : File.t) (needsRepair : bool) : M bool := markFileStatus f FILE_REPAIR_KEY needsRepair.
Definition markFileAsRepaired (f : File.t) : M bool := markFileRepairStatus f false.
Definition markFileAsNeedsRepair (f : File.t) : M bool := markFileRepairStatus f true.
Definition markFileAsPendingWriteToCloud (f : File.t) : M bool := markFileStatus f FILE_PENDING_WRITE_KEY true.

Definition markFileAsWrittenToCloud (f : File.t) (removePending : bool) : M bool :=
  let! ok := markFileStatus f FILE_PENDING_WRITE_COMP_KEY false in
  if ok then if removePending then markFileStatus f FILE_PENDING_WRITE_KEY false else ret true
  else ret false.

Definition getNumFilesToRepair : M Z :=
  let! r := redisCommand (SCARD FILE_REPAIR_KEY) in
  ret match r with Some (RInteger z) => u64 z | Some RNil => 0 | _ => u64 (-1) end.

(** The names that are taken from the queue, up to one that has no name; the call
    that puts the rest back has one argument too few. *)
Fixpoint repair_names (l : list (option string)) : outcome (list (string * Z * option Z)) :=
  match l with
  | [] => Ok []
  | None :: l => repair_names l
  | Some s :: l =>
      match getNameFromFileKey s with
      | Undef | Fail => Undef
      | Ok n => let* ns := repair_names l in Ok (n :: ns)
      end
  end.

(** Servers that do not know the count give one name at a time. *)
Definition getFilesToRepair (numFiles : nat) : M (list (string * Z * option Z)) :=
  let! r := redisCommand (SPOPN FILE_REPAIR_KEY numFiles) in
  let! r := match r with Some RError => redisCommand (SPOP FILE_REPAIR_KEY) | _ => ret r end in
  match r with
  | Some (RArray l) =>
      if (numFiles <? length l)%nat then lift Undef else lift (repair_names l)
  | Some (RString s) => lift (repair_names [Some s])
  | _ => ret []
  end.

Definition copy_of (k : string) : string := k +:+ "_copy".
Definition not_exists_of (k : string) : string := k +:+ "_not_exists".

(** The set is scanned through a copy; [endOfSet] is the flag [_endOfPendingWriteSet],
    which is returned with the name of a file, if there is one.  The store connects again
    whenever no name was taken from the copy. *)
Definition getFilesPendingWriteToCloud (endOfSet : bool) : M (option (string * Z * option Z) * bool) :=
  let! r := tryCommand (SCARD (copy_of FILE_PENDING_WRITE_KEY)) in
  let empty := bool_decide (r = Some (RInteger 0)) in
  if empty && negb endOfSet then ret (None, true)
  else
    let! refilled :=
      if empty then
        let! r := tryCommand (SDIFFSTORE (copy_of FILE_PENDING_WRITE_KEY) FILE_PENDING_WRITE_KEY
                                           (not_exists_of FILE_PENDING_WRITE_KEY)) in
        ret match r with Some (RInteger z) => negb (z =? 0) | _ => false end
      else ret true in
    if negb refilled then ret (None, endOfSet)
    else
      let! r := tryCommand (SPOP (copy_of FILE_PENDING_WRITE_KEY)) in
      match r with
      | Some (RString key) =>
          let! r := redisCommand (SMOVE FILE_PENDING_WRITE_KEY FILE_PENDING_WRITE_COMP_KEY (c_str key)) in
          if bool_decide (r = Some (RInteger 1)) then
            match getNameFromFileKey key with
            | Ok n => ret (Some n, false)
            | Fail => ret (None, false)
            | Undef => lift Undef
            end
          else ret (None, false)
      | _ => let! _ := reconnect in ret (None, false)
      end.

(** ** Background tasks *)

(** The script that counts one task less. *)
Definition task_done (filename : string) (d : D) : reply * D :=
  let (v, d) := exec d (ZINCRBY BG_TASK_PENDING_KEY (-1) filename) in
  match v with
  | RString s => if bool_decide (s = "0") then (RInteger 1, snd (exec d (ZREM BG_TASK_PENDING_KEY filename))) else (RInteger 1, d)
  | _ => (RError, d)
  end.

Definition updateFileStatus (f : File.t) (now : Z) : M bool :=
  let! filename := lift (file_key f) in
  let! ok := match File.status f with
             | PART_BG_TASK_COMPLETED =>
                 let! r := tryEval (task_done (c_str filename)) in ret (bool_decide (r = Some (RInteger 1)))
             | BG_TASK_PENDING =>
                 let! r := tryCommand (ZINCRBY BG_TASK_PENDING_KEY 1 filename) in
                 ret match r with Some (RString _) => true | _ => false end
             | ALL_BG_TASKS_COMPLETED =>
                 let! r := tryCommand (ZREM BG_TASK_PENDING_KEY filename) in ret (bool_decide (r = Some (RInteger 1)))
             | NONE => ret false
             end in
  let! _ := (if ok then tryCommand else redisCommand) (HSET filename "tctime" (raw_long now)) in
  ret ok.

(** ** Locks *)

(** A lock is the membership in a set: who adds the file has it. *)
Definition lock_in (type : string) (f : File.t) (lock : bool) : M bool :=
  let! filename := lift (file_key f) in
  let! r := redisCommand (if lock then SADD type filename else SREM type filename) in
  ret (bool_decide (r = Some (RInteger 1))).

Definition getLockOnFile (f : File.t) (lock : bool) : M bool := lock_in FILE_LOCK_KEY f lock.
Definition lockFile (f : File.t) : M bool := getLockOnFile f true.
Definition unlockFile (f : File.t) : M bool := getLockOnFile f false.
Definition pinStagedFile (f : File.t) (lock : bool) : M bool := lock_in FILE_PIN_STAGED_KEY f lock.

End store.

(** [(1 << 31)] is a negative [int]. *)
Definition getMaxNumKeysSupported : Z := u64 (u64 (i32 (2 ^ 31)) - 8 / 2 - 8 mod 2).
