(* ===== verification/MetaList.v ===== *)
(** Listings of the metadata store ([src/proxy/metastore/redis_metastore.cc]): the files
    of a namespace with their sizes, times and versions, the folders, and the number of
    files.

    The programs read the server and never write to it.  The entries of the list are
    filled one after the other; an entry that is left out is filled again with the next
    file, over what it already holds. *)

From Stdlib Require Import Ascii.
From stdpp Require Import pretty.
From S2P Require Import Prelude DS FileInfo Wire File MetaKeys RedisServer MetaStore.

#[local] Open Scope Z_scope.
#[local] Open Scope outcome_scope.
#[local] Open Scope session_scope.

Module MetaList.

(** * The fields of an entry *)

(** A field of [w] bytes. *)
Definition field (l : list (option string)) (i w : nat) : option (list Z) :=
  match l !! i with
  | Some (Some s) => if (String.length s =? w)%nat then Some (string_bytes s) else None
  | _ => None
  end.

Definition list_names : list string :=
  ["size"; "ctime"; "atime"; "mtime"; "ver"; "dm"; "md5"; "numC"; "sg_size"; "sg_mtime"; "sc"].

(** What the fields of the record say; a staged file that is newer takes over. *)
Definition with_record (cur : FileInfo.t) (l : list (option string)) : FileInfo.t :=
  let time i := match field l i 8 with Some b => i64 (unle b) | None => 0 end in
  let size := match field l 0 8 with Some b => unle b | None => 0 end in
  let mtime := time 3%nat in
  let stagedSize := match field l 8 8 with Some b => unle b | None => 0 end in
  let '(size, atime, mtime) :=
    match field l 9 8 with
    | Some b => if mtime <? i64 (unle b) then (stagedSize, i64 (unle b), i64 (unle b)) else (size, time 2%nat, mtime)
    | None => (size, time 2%nat, mtime)
    end in
  FileInfo.mk (FileInfo.name cur) size (time 1%nat) atime mtime
    (match field l 7 4 with Some b => get_int b | None => FileInfo.numChunks cur end)
    (Some (match field l 4 4 with Some b => get_int b | None => 0 end))
    (FileInfo.versions cur)
    (match field l 6 MD5_DIGEST_LENGTH with Some b => b | None => FileInfo.md5 cur end)
    (FileInfo.namespaceId cur)
    (match field l 5 1 with Some b => negb (atoi (bytes_string b) =? 0) | None => false end)
    (match l !! 10%nat with Some (Some s) => s | _ => FileInfo.storageClass cur end).

Definition with_name (cur : FileInfo.t) (name : string) (ns : Z) : FileInfo.t :=
  FileInfo.mk (Some name) (FileInfo.size cur) (FileInfo.ctime cur) (FileInfo.atime cur) (FileInfo.mtime cur)
    (FileInfo.numChunks cur) (FileInfo.version cur) (FileInfo.versions cur) (FileInfo.md5 cur) ns
    (FileInfo.isDeleted cur) (FileInfo.storageClass cur).

Definition with_versions (cur : FileInfo.t) (vs : list VersionInfo.t) : FileInfo.t :=
  FileInfo.mk (FileInfo.name cur) (FileInfo.size cur) (FileInfo.ctime cur) (FileInfo.atime cur) (FileInfo.mtime cur)
    (FileInfo.numChunks cur) (FileInfo.version cur) vs (FileInfo.md5 cur) (FileInfo.namespaceId cur)
    (FileInfo.isDeleted cur) (FileInfo.storageClass cur).

(** * The summary of a version *)

(** Field [j] of a summary at position [ofs] of the text, which a zero byte follows.  A
    dash is a field that is missing. *)
Definition summary_field (text : list Z) (ofs j : nat) (v : VersionInfo.t) : outcome VersionInfo.t :=
  let b := text ++ [0] in
  let read w := access (block_read b ofs w) in
  let number := atoi (bytes_string (drop ofs text)) in
  if bool_decide (text !! ofs = Some 45) then Ok v
  else match j with
       | 0%nat => Ok (VersionInfo.mk (Some number) (VersionInfo.numChunks v) (VersionInfo.size v) (VersionInfo.mtime v)
                        (VersionInfo.md5 v) (VersionInfo.isDeleted v))
       | 1%nat => let* x := read 8%nat in
                  Ok (VersionInfo.mk (VersionInfo.version v) (VersionInfo.numChunks v) (unle x) (VersionInfo.mtime v)
                        (VersionInfo.md5 v) (VersionInfo.isDeleted v))
       | 2%nat => let* x := read 8%nat in
                  Ok (VersionInfo.mk (VersionInfo.version v) (VersionInfo.numChunks v) (VersionInfo.size v) (i64 (unle x))
                        (VersionInfo.md5 v) (VersionInfo.isDeleted v))
       | 3%nat => let* x := read MD5_DIGEST_LENGTH in
                  Ok (VersionInfo.mk (VersionInfo.version v) (VersionInfo.numChunks v) (VersionInfo.size v) (VersionInfo.mtime v)
                        x (VersionInfo.isDeleted v))
       | 4%nat => Ok (VersionInfo.mk (VersionInfo.version v) (VersionInfo.numChunks v) (VersionInfo.size v) (VersionInfo.mtime v)
                        (VersionInfo.md5 v) (negb (number =? 0)))
       | _ => let* x := read 4%nat in
              Ok (VersionInfo.mk (VersionInfo.version v) (get_int x) (VersionInfo.size v) (VersionInfo.mtime v)
                    (VersionInfo.md5 v) (VersionInfo.isDeleted v))
       end.

(** The fields from [j] on, separated by blanks.  The length that [memchr] may search
    grows with the position, so that without another blank it reads beyond the text. *)
Fixpoint summary_fields (text : list Z) (js : list nat) (ofs : nat) (v : VersionInfo.t) : outcome VersionInfo.t :=
  match js with
  | [] => Ok v
  | j :: js =>
      if (length text <=? ofs)%nat then Ok v
      else
        let* v := summary_field text ofs j v in
        if (j =? 5)%nat then Ok v
        else match list_find (eq 32) (drop ofs text) with
             | Some (i, _) => summary_fields text js (ofs + i + 1) v
             | None => if (ofs =? 0)%nat then Ok v else Undef
             end
  end.

Definition version_info (o : option string) : outcome VersionInfo.t :=
  match o with
  | Some s => summary_fields (string_bytes s) (seq 0 6) 0 VersionInfo.reset
  | None => Ok VersionInfo.reset
  end.

(** * Listings *)

Section listing.
Context {D : Type} `{Server D} (net : nat -> link).

Notation M := (M D).
Notation redisCommand := (redisCommand net).
Notation tryCommand := (tryCommand net).

(** The record of a file, if it can be read. *)
Definition get_record (key : string) (cur : FileInfo.t) : M (option FileInfo.t) :=
  let! r := tryCommand (HMGET (c_str key) list_names) in
  ret match r with Some (RArray (x :: l)) => Some (with_record cur (x :: l)) | _ => None end.

(** The versions before the current one. *)
Definition get_versions (cur : FileInfo.t) : M FileInfo.t :=
  let! key := lift (key_buffer PATH_MAX (genFileVersionListKey (FileInfo.namespaceId cur)
                                           (print_name (default EmptyString (FileInfo.name cur))))) in
  let! r := redisCommand (ZRANGE key 0 (Z.to_nat (default 0 (FileInfo.version cur)))) in
  match r with
  | Some (RArray (x :: l)) => let! vs := lift (sequence (map version_info (x :: l))) in ret (with_versions cur vs)
  | _ => ret cur
  end.

(** One key.  The entry is [cur]; the result is whether it is now in the list. *)
Definition list_key (withMeta withVersions : bool) (key : string) (cur : FileInfo.t) : M (bool * FileInfo.t) :=
  if isSystemKey key then ret (false, cur)
  else match getNameFromFileKey key with
       | Undef => lift Undef
       | Fail => ret (false, cur)
       | Ok (name, ns, _) =>
           let cur := with_name cur name ns in
           let! meta := (if withMeta then get_record key cur else ret (Some cur)) in
           match meta with
           | None => ret (false, cur)
           | Some cur =>
               if negb withVersions && FileInfo.isDeleted cur then ret (false, cur)
               else
                 let! cur := (if withVersions && (0 <? default 0 (FileInfo.version cur)) then get_versions cur else ret cur) in
                 ret (true, cur)
           end
       end.

Fixpoint list_keys (withMeta withVersions : bool) (keys : list (option string)) (cur : FileInfo.t) : M (list FileInfo.t) :=
  match keys with
  | [] => ret []
  | None :: keys => list_keys withMeta withVersions keys cur
  | Some key :: keys =>
      let! (listed, cur) := list_key withMeta withVersions key cur in
      if listed then let! l := list_keys withMeta withVersions keys FileInfo.reset in ret (cur :: l)
      else list_keys withMeta withVersions keys cur
  end.

(** Files whose names begin with [prefix], or those of the directory [prefix]. *)
Definition getFileList (proxyNamespaceId namespaceId : Z) (withSize withTime withVersions : bool) (pre : string)
    : M (list FileInfo.t) :=
  let namespaceId := if namespaceId =? INVALID_NAMESPACE_ID then proxyNamespaceId else namespaceId in
  let! directory := lift (getFilePrefix (c_str (genFileKey namespaceId pre)) false) in
  let! r := redisCommand (if bool_decide (last (chars pre) = Some "/"%char) then SMEMBERS (c_str directory)
                          else KEYS (genFileKey namespaceId (c_str pre))) in
  match r with
  | Some (RArray l) => list_keys (withSize || withTime || withVersions) withVersions l FileInfo.reset
  | _ => ret []
  end.

(** The folders that a scan has returned, without the text of the pattern. *)
Definition folder_names (pattern : string) (skipSubfolders : bool) (l : list string) : list string :=
  omap (fun x =>
    if (String.length x <? String.length pattern)%nat then None
    else
      let rest := string_drop (String.length pattern) x in
      if skipSubfolders && bool_decide (is_Some (first_index "/" (c_str rest))) then None else Some rest) l.

(** [None] when [fuel] scans were not enough. *)
Fixpoint scan_folders (pattern : string) (skipSubfolders : bool) (cursor : string) (fuel : nat) : M (option (list string)) :=
  match fuel with
  | O => ret None
  | S fuel =>
      let! r := redisCommand (SSCAN DIR_LIST_KEY cursor (c_str pattern)) in
      match r with
      | Some (RScan cursor l) =>
          let found := folder_names pattern skipSubfolders l in
          if bool_decide (cursor = "0"%string) then ret (Some found)
          else let! rest := scan_folders pattern skipSubfolders cursor fuel in ret (app found <$> rest)
      | _ => ret (Some [])
      end
  end.

(** The pattern is the directory of some file with the prefix. *)
Definition getFolderList (namespaceId : Z) (pre : string) (skipSubfolders : bool) (fuel : nat) : M (option (list string)) :=
  let! filename := lift (key_buffer PATH_MAX (genFileKey namespaceId (print_name (pre +:+ "a")))) in
  let! pattern := lift (getFilePrefix (c_str filename) true) in
  scan_folders pattern skipSubfolders "0" fuel.

(** Two keys per file are expected, besides those of directories and of the system. *)
Definition getNumFiles : M Z :=
  let! r := redisCommand DBSIZE in
  match r with
  | Some (RInteger z) =>
      let! d := tryCommand (SCARD DIR_LIST_KEY) in
      let count := match d with Some (RInteger x) => u64 (z - x) | _ => u64 z end in
      let! k := tryCommand (KEYS "//sncc") in
      let count := match k with Some (RArray l) => u64 (count - Z.of_nat (length l)) | _ => count end in
      ret (count / 2)
  | _ => ret 0
  end.

End listing.
End MetaList.
