(* ===== verification/MetaTheorems.v ===== *)
(** What the metadata store guarantees: a record that was stored is read back, and
    the records of the older versions stay readable. *)

From Stdlib Require Import Ascii.
From stdpp Require Import pretty.
From S2P Require Import Prelude DS Wire File MetaKeys RedisServer MetaStore.

#[local] Open Scope Z_scope.
#[local] Open Scope outcome_scope.
#[local] Open Scope session_scope.

(** * Programs over the connection *)

Lemma open_append q x : Closed ∉ q -> x <> Closed -> Closed ∉ q ++ [x].
Proof. intros Hq Hx [?|?%list_elem_of_singleton]%elem_of_app; [done|congruence]. Qed.

Section programs.
Context {D : Type} `{ServerLaws D} (net : nat -> link).
Implicit Types (s : session D) (d : D).

(** Every command is answered. *)
Definition answered : Prop := forall n, net n = Answered.

(** No command is refused with an error. *)
Definition never_refused : Prop := forall n, net n <> Refused.

Definition run_all d (cs : list command) : D := foldl (fun d c => snd (exec d c)) d cs.

Lemma append_open f s : Closed ∉ pending s ->
  append net f s =
  let '(r, d) := f (db s) in
  let '(x, d) := match net (sent s) with
                 | Answered => (Arrives r, d) | Refused => (Arrives RError, db s) | Unanswered => (Lost, d) | Down => (Lost, db s)
                 end in
  Ok (tt, mk_session d (S (sent s)) (pending s ++ [x])).
Proof using. intros Hs. unfold append. destruct (pending s) as [|[] q]; [done..|]. by destruct Hs; left. Qed.

Lemma command_answered c s :
  net (sent s) = Answered -> pending s = [] ->
  redisCommand net c s = Ok (Some (fst (exec (db s) c)), mk_session (snd (exec (db s) c)) (S (sent s)) []).
Proof using.
  intros Hn Hp. unfold redisCommand, evalCommand, append, getReply, fetchReply, reconnect, ret, bind. rewrite Hp. destruct (exec (db s) c) as [r d]. by rewrite Hn.
Qed.

(** A command that was not refused has a reply only when it was executed. *)
Lemma command_reply c s r s' :
  never_refused -> pending s = [] \/ pending s = [Closed] -> redisCommand net c s = Ok (r, s') ->
  pending s' = [] /\
  match r with
  | Some r => r = fst (exec (db s) c) /\ db s' = snd (exec (db s) c)
  | None => db s' = db s \/ db s' = snd (exec (db s) c)
  end.
Proof using.
  intros Hn Hp. unfold redisCommand, evalCommand, append, getReply, fetchReply, reconnect, ret, bind.
  destruct Hp as [Hp|Hp]; rewrite Hp; [|rewrite Hp; intros; simplify_eq/=; eauto]. destruct (exec (db s) c) as [r0 d].
  specialize (Hn (sent s)). destruct (net (sent s)); [|done|..]; cbn; intros; simplify_eq/=; eauto.
Qed.

(** A command whose reply arrives needs no new connection. *)
Lemma try_answered c s :
  net (sent s) = Answered -> pending s = [] -> tryCommand net c s = redisCommand net c s.
Proof using.
  intros Hn Hp. unfold tryCommand, redisCommand, tryEval, evalCommand, append, bind, getReply, fetchReply, bind.
  rewrite Hp. destruct (exec (db s) c) as [r d]. by rewrite Hn.
Qed.

Lemma try_eval_answered f s :
  net (sent s) = Answered -> pending s = [] -> tryEval net f s = evalCommand net f s.
Proof using.
  intros Hn Hp. unfold tryEval, evalCommand, append, bind, getReply, fetchReply, bind.
  rewrite Hp. destruct (f (db s)) as [r d]. by rewrite Hn.
Qed.

Definition arrives (x : slot) : Prop := exists r, x = Arrives r.

Lemma get_replies_spec d n q : exists ok,
  get_replies (length q) (mk_session d n q) = Ok (ok, mk_session d n []) /\ (ok = true <-> Forall arrives q).
Proof using.
  induction q as [|[r| |] q IH]; cbn.
  - exists true. by split.
  - destruct IH as (ok & -> & Hok). exists ok. split; [done|]. rewrite Hok. split; [constructor; [by eexists|done]|by inversion 1].
  - exists false. split; [done|]. split; [done|]. inversion 1 as [|? ? Hx]. by destruct Hx.
  - exists false. split; [done|]. split; [done|]. inversion 1 as [|? ? Hx]. by destruct Hx.
Qed.

End programs.

(** * Stored records *)

Definition in_int (z : Z) : Prop := -2147483648 <= z < 2147483648.
Definition in_long (z : Z) : Prop := -9223372036854775808 <= z < 9223372036854775808.
Definition in_ulong (z : Z) : Prop := 0 <= z < 18446744073709551616.
Definition in_bytes (l : list Z) : Prop := Forall (fun b => 0 <= b < 256) l.

Definition meta_ok (m : CodingMeta.t) : Prop :=
  0 <= CodingMeta.coding m < 256 /\ in_int (CodingMeta.n m) /\ in_int (CodingMeta.k m) /\ in_int (CodingMeta.f m) /\
  in_int (CodingMeta.maxChunkSize m) /\ in_int (CodingMeta.codingStateSize m).

(** The coding state is absent, or a buffer of the stated length in a file that is
    not empty. *)
Definition state_ok (f : File.t) : Prop :=
  let m := File.codingMeta f in
  CodingMeta.codingStateSize m = 0 \/
  (File.size f <> 0 /\ 0 < CodingMeta.codingStateSize m /\
   exists b, CodingMeta.codingState m = Some b /\ in_bytes b /\ length b = Z.to_nat (CodingMeta.codingStateSize m)).

Definition chunk_ok (i : nat) (c : Chunk.t) : Prop :=
  Chunk.chunkId c = Z.of_nat i /\ in_int (Chunk.size c) /\ in_bytes (Chunk.md5 c) /\ length (Chunk.md5 c) = MD5_DIGEST_LENGTH.

(** The arrays of a file with [n] chunks. *)
Definition chunks_ok (f : File.t) (ids : list Z) (cs : list Chunk.t) (bad : list bool) : Prop :=
  let n := length cs in
  File.numChunks f = Z.of_nat n /\ length ids = n /\ length bad = n /\ Forall in_int ids /\
  (forall i c, cs !! i = Some c -> chunk_ok i c) /\ in_int (Z.of_nat n) /\
  (n <> O -> File.containerIds f = Some ids /\ File.chunks f = Some cs /\ File.chunksCorrupted f = Some bad).

Definition location_ok (l : InObjectLocation) : Prop := in_ulong (_offset l) /\ 0 <= _length l < 4294967296.

(** Blocks in the order of their offsets, either all with a fingerprint or none. *)
Definition blocks_ok (f : File.t) : Prop :=
  let u := File.uniqueBlocks f in let d := File.duplicateBlocks f in
  (exists len, (len = O \/ len = SHA256_DIGEST_LENGTH) /\
     Forall (fun b => String.length (fst (snd b)) = len) u /\ Forall (fun b => String.length (snd b) = len) d) /\
  Forall (fun b => location_ok (fst b) /\ in_int (snd (snd b))) u /\ Forall (fun b => location_ok (fst b)) d /\
  StronglySorted Z.lt (map (fun b => _offset (fst b)) u) /\ StronglySorted Z.lt (map (fun b => _offset (fst b)) d) /\
  Z.of_nat (length u) < 2 ^ 32 /\ Z.of_nat (length d) < 2 ^ 32.

Record storable (f : File.t) (n : string) (ids : list Z) (cs : list Chunk.t) (bad : list bool) : Prop := {
  ok_name : File.name f = Some n;
  ok_text : free_of NUL n;
  ok_len : (String.length n + 32 <= PATH_MAX)%nat;
  ok_ns : 0 <= File.namespaceId f < 256;
  ok_size : in_ulong (File.size f);
  ok_version : in_int (File.version f) /\ File.version f <> -1;
  ok_times : in_long (File.ctime f) /\ in_long (File.atime f) /\ in_long (File.mtime f) /\ in_long (File.tctime f);
  ok_md5 : in_bytes (File.md5 f) /\ length (File.md5 f) = MD5_DIGEST_LENGTH;
  ok_stripes : in_int (File.numStripes f);
  ok_coding : meta_ok (File.codingMeta f);
  ok_state : state_ok f;
  ok_class : free_of NUL (File.storageClass f) /\ free_of NUL (File.staged_storageClass (File.staged f));
  ok_staged : in_ulong (File.staged_size (File.staged f)) /\ meta_ok (File.staged_codingMeta (File.staged f)) /\
              in_long (File.staged_mtime (File.staged f));
  ok_mark : File.size f = 0 -> is_Some (File.isDeleted f);
  ok_chunks : chunks_ok f ids cs bad;
  ok_blocks : blocks_ok f
}.

(** ** The fields of a record *)

Lemma sequence_ok {A B} (f : A -> outcome B) (g : A -> B) l :
  (forall a, a ∈ l -> f a = Ok (g a)) -> sequence (map f l) = Ok (map g l).
Proof.
  intros Hf. induction l as [|a l IH]; [done|]. cbn [map sequence]. rewrite Hf by (apply elem_of_cons; by left).
  cbn [obind]. rewrite IH; [done|]. intros b Hb. apply Hf, elem_of_cons. by right.
Qed.

Lemma String_app_inj s t u : s +:+ t = s +:+ u -> t = u.
Proof.
  intros E%(f_equal chars). rewrite !chars_app in E. by apply app_inv_head, chars_inj in E.
Qed.

Section record.
Context `{UuidPrinterLaws} `{!UuidParser} `{!UuidParserLaws}.

Definition state_of (f : File.t) : list Z :=
  if CodingMeta.codingStateSize (File.codingMeta f) =? 0 then [] else default [] (CodingMeta.codingState (File.codingMeta f)).
Definition mark_of (f : File.t) : bool := if File.size f =? 0 then default false (File.isDeleted f) else false.

Definition chunk_values (ids : list Z) (cs : list Chunk.t) (bad : list bool) (i : nat) : list string :=
  [raw_int (ids !!! i); raw_int (Chunk.size (cs !!! i)); bytes_string (Chunk.md5 (cs !!! i)); flag_text (bad !!! i)].
Definition chunk_group ids cs bad (i : nat) : list (string * string) :=
  zip (chunk_names (Z.of_nat i)) (chunk_values ids cs bad i).

Definition groups (f : File.t) (n : string) ids cs bad : list (list (string * string)) :=
  main_fields f n (state_of f) (mark_of f) :: map (chunk_group ids cs bad) (seq 0 (length cs))
  ++ map (fun p => [p]) (imap unique_field (File.uniqueBlocks f))
  ++ map (fun p => [p]) (imap duplicate_field (File.duplicateBlocks f)).

Lemma coding_state_ok f : state_ok f -> coding_state f = Ok (state_of f).
Proof using.
  unfold state_ok, coding_state, state_of. intros [E|(Hs & Hpos & b & Hb & _ & Hl)].
  - rewrite E. cbn [Z.ltb]. rewrite block_read_in by (cbn; lia). done.
  - rewrite Hb. destruct (Z.eqb_spec (File.size f) 0); [done|]. destruct (Z.ltb_spec (CodingMeta.codingStateSize (File.codingMeta f)) 0);
      [lia|]. destruct (Z.eqb_spec (CodingMeta.codingStateSize (File.codingMeta f)) 0); [lia|].
    rewrite block_read_in by lia. cbn. by rewrite <- Hl, slice_all.
Qed.

Lemma deletion_mark_ok f : (File.size f = 0 -> is_Some (File.isDeleted f)) -> deletion_mark f = Ok (mark_of f).
Proof using.
  unfold deletion_mark, mark_of. destruct (Z.eqb_spec (File.size f) 0) as [E|]; [|done]. intros Hm. by destruct (Hm E) as [b ->].
Qed.

Lemma chunk_fields_ok f ids cs bad i :
  chunks_ok f ids cs bad -> (i < length cs)%nat -> chunk_fields f i = Ok (chunk_group ids cs bad i).
Proof using.
  intros (Hnum & Hi & Hb & _ & Hc & _ & Ha) Hlt. destruct Ha as (Ei & Ec & Eb); [lia|]. unfold chunk_fields.
  rewrite Ec, Ei, Eb. cbn [mbind option_bind]. rewrite !lookup_total_lt by lia. cbn [access obind].
  unfold chunk_group. by rewrite (proj1 (Hc i _ (lookup_total_lt cs i Hlt))).
Qed.

Lemma record_ok f n ids cs bad : storable f n ids cs bad -> record f n = Ok (groups f n ids cs bad).
Proof using.
  intros Hf. unfold record. rewrite coding_state_ok by apply Hf. rewrite deletion_mark_ok by apply Hf. cbn [obind].
  pose proof (ok_chunks _ _ _ _ _ Hf) as Hc. pose proof Hc as (-> & _). rewrite Nat2Z.id.
  rewrite (sequence_ok _ (chunk_group ids cs bad)); [done|]. intros i Hi%elem_of_seq. apply chunk_fields_ok; [done|lia].
Qed.

(** ** Names of fields *)

Definition chunk_name (s : string) : bool :=
  match s with String a (String b _) => bool_decide (a = "c"%char) && bool_decide (is_Some (digit b)) | _ => false end.
Definition block_name (unique : bool) (s : string) : bool := String.prefix (getBlockKeyPrefix unique) s.

Lemma main_names_plain f n st b :
  NoDup (main_fields f n st b).*1 /\ Forall (fun s => chunk_name s = false /\ block_name true s = false /\ block_name false s = false) (main_fields f n st b).*1.
Proof using.
  cbn [main_fields fmap list_fmap fst]. split.
  - apply (bool_decide_unpack _). vm_compute. exact I.
  - repeat constructor.
Qed.

Lemma pretty_nat_digit (i : nat) : exists a s, pretty (Z.of_nat i) = String a s /\ is_Some (digit a).
Proof using.
  replace (pretty (Z.of_nat i)) with (pretty (N.of_nat i)) by (by destruct i).
  destruct (plain_cons_pretty_N (N.of_nat i)) as (a & l & E & Ha). destruct (pretty (N.of_nat i)) as [|b s]; [done|].
  exists b, s. cbn in E. by simplify_eq.
Qed.

Lemma chunk_name_true i s : s ∈ chunk_names (Z.of_nat i) ->
  chunk_name s = true /\ block_name true s = false /\ block_name false s = false.
Proof using.
  intros Hs. destruct (pretty_nat_digit i) as (a & t & E & Ha). unfold chunk_names, genChunkKeyPrefix in Hs. rewrite E in Hs.
  assert (exists u, s = String "c" (String a u)) as [u ->].
  { repeat (apply elem_of_cons in Hs as [->|Hs]; [by eexists|]). by apply elem_of_nil in Hs. }
  split; [|done]. unfold chunk_name. by rewrite !bool_decide_true.
Qed.

Lemma chunk_names_inj i j s : s ∈ chunk_names (Z.of_nat i) -> s ∈ chunk_names (Z.of_nat j) -> i = j.
Proof using.
  assert (forall i, s ∈ chunk_names (Z.of_nat i) -> atoi (string_drop 1 s) = Z.of_nat i) as Ha.
  { clear. intros i Hs. unfold chunk_names, genChunkKeyPrefix in Hs.
    assert (exists t, no_digit (chars t) /\ s = "c" +:+ pretty (Z.of_nat i) +:+ t) as (t & Ht & ->).
    { repeat (apply elem_of_cons in Hs as [->|Hs]; [rewrite string_app_assoc; eexists; split; [|reflexivity]; done|]). by apply elem_of_nil in Hs. }
    etransitivity; [|apply (atoi_pretty _ t Ht)]. f_equal. apply chars_inj. by rewrite chars_drop. }
  intros Hi%Ha Hj%Ha. lia.
Qed.

Lemma chunk_names_nodup i : NoDup (chunk_names (Z.of_nat i)).
Proof using.
  unfold chunk_names. repeat constructor; rewrite ?elem_of_cons, elem_of_nil; intros Hs.
  all: repeat match type of Hs with _ \/ _ => destruct Hs as [Hs|Hs] end; try done.
  all: by apply String_app_inj in Hs.
Qed.

Lemma block_names_nodup k l : NoDup (map (fun i => genBlockKey (Z.of_nat i) k) l) <-> NoDup l.
Proof using.
  split; [apply NoDup_fmap_1|]. apply NoDup_fmap_2. intros i j E%String_app_inj%(inj pretty). lia.
Qed.

Lemma block_name_true k i : block_name k (genBlockKey (Z.of_nat i) k) = true /\
  block_name (negb k) (genBlockKey (Z.of_nat i) k) = false /\ chunk_name (genBlockKey (Z.of_nat i) k) = false.
Proof using.
  unfold genBlockKey. destruct (pretty_nat_digit i) as (a & t & -> & _). by destruct k.
Qed.

(** The names of the fields of a record are distinct. *)
Definition names (f : File.t) (n : nat) : list string :=
  concat (map (fun i => chunk_names (Z.of_nat i)) (seq 0 n))
  ++ map (fun i => genBlockKey (Z.of_nat i) true) (seq 0 (length (File.uniqueBlocks f)))
  ++ map (fun i => genBlockKey (Z.of_nat i) false) (seq 0 (length (File.duplicateBlocks f))).

Lemma imap_names {A} (fld : nat -> A -> string * string) (key : nat -> string) (l : list A) :
  (forall i a, fst (fld i a) = key i) ->
  (concat (map (fun p => [p]) (imap fld l))).*1 = map key (seq 0 (length l)).
Proof using.
  intros Hf. revert fld key Hf. induction l as [|a l IH]; intros fld key Hf; [done|]. cbn. rewrite Hf. f_equal.
  specialize (IH (fld ∘ S) (key ∘ S)). rewrite IH by (intros i b; apply Hf). by rewrite <- seq_shift, map_map.
Qed.

Lemma chunk_group_names ids cs bad l :
  (concat (map (chunk_group ids cs bad) l)).*1 = concat (map (fun i => chunk_names (Z.of_nat i)) l).
Proof using. induction l as [|i l IH]; [done|]. cbn [map concat]. by rewrite fmap_app, IH. Qed.

Lemma groups_names f n ids cs bad :
  (concat (groups f n ids cs bad)).*1 = (main_fields f n (state_of f) (mark_of f)).*1 ++ names f (length cs).
Proof using.
  unfold groups, names. cbn [concat]. rewrite !concat_app, !fmap_app, chunk_group_names. f_equal. f_equal.
  f_equal; apply imap_names; [by intros i [l [fp o]]|by intros i [l fp]].
Qed.

Lemma concat_nodup {A} (g : nat -> list A) l :
  NoDup l -> (forall i, NoDup (g i)) -> (forall i j x, x ∈ g i -> x ∈ g j -> i = j) -> NoDup (concat (map g l)).
Proof using.
  intros Hl Hg Hinj. induction Hl as [|i l Hi Hl IH]; [constructor|]. cbn [map concat]. apply NoDup_app.
  split_and!; [done| |done]. intros x Hx (l' & Hl' & Hx')%list_elem_of_In%in_concat.
  apply in_map_iff in Hl' as (j & <- & Hj%list_elem_of_In). apply list_elem_of_In in Hx'. by rewrite (Hinj i j x) in Hi.
Qed.

Lemma names_nodup f n ids cs bad : NoDup (concat (groups f n ids cs bad)).*1.
Proof using.
  rewrite groups_names. destruct (main_names_plain f n (state_of f) (mark_of f)) as [Hnd Hpl].
  rewrite Forall_forall in Hpl.
  assert (forall x, x ∈ concat (map (fun i => chunk_names (Z.of_nat i)) (seq 0 (length cs))) ->
    chunk_name x = true /\ block_name true x = false /\ block_name false x = false) as Hc.
  { intros x (l' & Hl' & Hx)%list_elem_of_In%in_concat. apply in_map_iff in Hl' as (i & <- & _).
    by apply (chunk_name_true i), list_elem_of_In. }
  assert (forall k m x, x ∈ map (fun i => genBlockKey (Z.of_nat i) k) (seq 0 m) ->
    block_name k x = true /\ block_name (negb k) x = false /\ chunk_name x = false) as Hb.
  { intros k m x (i & <- & _)%list_elem_of_In%in_map_iff. apply block_name_true. }
  unfold names. apply NoDup_app. split; [done|]. split.
  - intros x Hx. destruct (Hpl x Hx) as (? & ? & ?). rewrite !elem_of_app. intros [Hy|[Hy|Hy]].
    + apply Hc in Hy as [? _]. congruence.
    + apply Hb in Hy as [? _]. congruence.
    + apply Hb in Hy as [? _]. congruence.
  - apply NoDup_app. split; [|split].
    + apply concat_nodup; [apply NoDup_seq|apply chunk_names_nodup|apply chunk_names_inj].
    + intros x (? & ? & ?)%Hc. rewrite elem_of_app. intros [[? _]%Hb|[? _]%Hb]; congruence.
    + apply NoDup_app. split; [by apply block_names_nodup, NoDup_seq|]. split; [|by apply block_names_nodup, NoDup_seq].
      intros x [? _]%Hb (_ & ? & _)%Hb. cbn in *. congruence.
Qed.

Lemma set_fields_app h l l' : set_fields h (l ++ l') = set_fields (set_fields h l) l'.
Proof using. apply foldl_app. Qed.

Lemma set_fields_lookup h l k v : NoDup l.*1 -> (k, v) ∈ l -> set_fields h l !! k = Some v.
Proof using.
  revert h. induction l as [|[k' v'] l IH]; intros h Hnd Hin; [by apply elem_of_nil in Hin|]. cbn in Hnd. inversion Hnd as [|? ? Hni Hnd']; subst.
  apply elem_of_cons in Hin as [[= <- <-]|Hin]; [|by apply IH]. cbn [set_fields foldl fst snd].
  assert (forall h, h !! k = Some v -> set_fields h l !! k = Some v) as Hkeep; [|apply Hkeep, lookup_insert_eq].
  clear -Hni. intros h Hh. revert h Hh. induction l as [|[k' v'] l IH]; intros h Hh; [done|]. cbn in Hni.
  apply not_elem_of_cons in Hni as [Hne Hni]. apply IH; [done|]. by rewrite lookup_insert_ne.
Qed.
End record.

(** * Reading a record back *)

Lemma string_bytes_string l : in_bytes l -> string_bytes (bytes_string l) = l.
Proof.
  unfold string_bytes, bytes_string. rewrite String.list_ascii_of_string_of_list_ascii, map_map.
  induction 1 as [|b l Hb _ IH]; [done|]. cbn [map]. rewrite IH, nat_ascii_embedding by lia. f_equal. lia.
Qed.

Lemma length_bytes_string l : String.length (bytes_string l) = length l.
Proof. unfold bytes_string. by rewrite <- length_chars, String.list_ascii_of_string_of_list_ascii, length_map. Qed.

Lemma le_in_bytes w z : in_bytes (le w z).
Proof. revert z. induction w as [|w IH]; intros z; [constructor|]. constructor; [apply Z.mod_pos_bound; lia|apply IH]. Qed.

Lemma string_bytes_le w z : string_bytes (bytes_string (le w z)) = le w z.
Proof. apply string_bytes_string, le_in_bytes. Qed.

Lemma take_le w z : take w (le w z) = le w z.
Proof. apply take_ge. by rewrite length_le. Qed.

Section reading.
Context `{UuidPrinterLaws} `{!UuidParser} `{!UuidParserLaws}.

Definition stored (h : gmap string string) (f : File.t) (n : string) ids cs bad : Prop :=
  forall k v, (k, v) ∈ concat (groups f n ids cs bad) -> h !! k = Some v.

Lemma stored_set_of h f n ids cs bad : stored (set_fields h (concat (groups f n ids cs bad))) f n ids cs bad.
Proof using. intros k v Hin. apply set_fields_lookup; [apply names_nodup|done]. Qed.

(** The values of the fields that are read first. *)
Definition main_values (f : File.t) : list string :=
  let m := File.codingMeta f in
  let sg := File.staged f in
  let sgm := File.staged_codingMeta sg in
  [raw_long (File.size f); raw_int (File.numChunks f); raw_int (File.numStripes f); uuid_to_string (File.uuid f);
   c_str (File.storageClass f); bytes_string (le 1 (CodingMeta.coding m)); raw_int (CodingMeta.n m); raw_int (CodingMeta.k m);
   raw_int (CodingMeta.f m); raw_int (CodingMeta.maxChunkSize m); raw_int (CodingMeta.codingStateSize m);
   bytes_string (state_of f); raw_int (File.version f); raw_long (File.ctime f); raw_long (File.atime f);
   raw_long (File.mtime f); raw_long (File.tctime f); bytes_string (File.md5 f); raw_long (File.staged_size sg);
   c_str (File.staged_storageClass sg); bytes_string (le 1 (CodingMeta.coding sgm)); raw_int (CodingMeta.n sgm);
   raw_int (CodingMeta.k sgm); raw_int (CodingMeta.f sgm); raw_int (CodingMeta.maxChunkSize sgm);
   raw_long (File.staged_mtime sg); flag_text (mark_of f);
   raw_long (Z.of_nat (length (File.uniqueBlocks f))); raw_long (Z.of_nat (length (File.duplicateBlocks f)))].

Lemma stored_main h f n ids cs bad :
  stored h f n ids cs bad -> map (fun k => h !! k) main_names = map Some (main_values f).
Proof using.
  intros Hs. assert (forall k v, (k, v) ∈ main_fields f n (state_of f) (mark_of f) -> h !! k = Some v) as Hm.
  { intros k v Hin. apply Hs. cbn [groups concat]. apply elem_of_app. by left. }
  unfold main_names, main_values. cbn [map]. clear Hs.
  repeat (f_equal; [apply Hm; unfold main_fields; repeat (apply elem_of_cons; first [left; reflexivity|right])|]).
  f_equal. apply Hm. unfold main_fields. repeat (apply elem_of_cons; first [left; reflexivity|right]).
Qed.

(** ** One step *)

Lemma field_copy_step idx w (set : list Z -> File.t -> File.t) r f z :
  r !! idx = Some (Some (bytes_string (le w z))) ->
  check_and_copy_field idx (fun _ => w) set r f = Some (set (le w z) f).
Proof using.
  intros E. unfold check_and_copy_field. rewrite E, length_bytes_string, length_le, Nat.leb_refl. by rewrite string_bytes_le, take_le.
Qed.

Lemma copy_or_set_step idx (set : list Z -> File.t -> File.t) dflt r f b :
  r !! idx = Some (Some (bytes_string b)) -> in_bytes b ->
  check_and_copy_or_set_field idx (length b) set dflt r f = Some (set b f).
Proof using.
  intros E Hb. unfold check_and_copy_or_set_field. rewrite E, length_bytes_string, Nat.leb_refl.
  by rewrite string_bytes_string, take_ge.
Qed.

Lemma time_step (set : Z -> File.t -> File.t) idx r f z :
  r !! idx = Some (Some (raw_long z)) -> in_long z -> with_time set idx r f = Some (set z f).
Proof using.
  intros E Hz. unfold with_time. rewrite (copy_or_set_step idx _ _ r f (le 8 z)) by (done || apply le_in_bytes).
  by rewrite unle_le_i64.
Qed.

Definition read_coding (m0 m : CodingMeta.t) : CodingMeta.t :=
  CodingMeta.mk (CodingMeta.coding m)
    (if CodingMeta.codingStateSize m =? 0 then CodingMeta.codingState m0 else CodingMeta.codingState m)
    (CodingMeta.n m) (CodingMeta.k m) (CodingMeta.f m) (CodingMeta.codingStateSize m) (CodingMeta.maxChunkSize m).

Definition read_staged (s0 s : File.staged_info) : File.staged_info :=
  let m0 := File.staged_codingMeta s0 in let m := File.staged_codingMeta s in
  File.mk_staged (File.staged_size s)
    (CodingMeta.mk (CodingMeta.coding m) (CodingMeta.codingState m0) (CodingMeta.n m) (CodingMeta.k m) (CodingMeta.f m)
       (CodingMeta.codingStateSize m0) (CodingMeta.maxChunkSize m))
    (File.staged_storageClass s) (File.staged_mtime s).

(** What [getMeta] makes of [f0] before the chunks are read. *)
Definition read_main (f0 f : File.t) : File.t :=
  File.mk (File.namespaceId f0) (File.uuid f) (File.name f0) (File.size f) (File.version f) (File.ctime f) (File.atime f)
    (File.mtime f) (File.tctime f) (File.md5 f) (File.numStripes f) (File.numChunks f) (File.containerIds f0)
    (File.chunks f0) (File.chunksCorrupted f0) (read_coding (File.codingMeta f0) (File.codingMeta f)) (File.storageClass f)
    (read_staged (File.staged f0) (File.staged f)) (File.offset f0) (File.length f0) (File.data f0) (File.status f0)
    (Some (mark_of f)) (File.uniqueBlocks f0) (File.duplicateBlocks f0).

Lemma run_step l r f s f' : s r f = Some f' -> run_steps (s :: l) r f = run_steps l r f'.
Proof using. cbn. by intros ->. Qed.

Lemma state_step_ok f r m0 :
  state_ok f -> CodingMeta.codingStateSize (File.codingMeta m0) = CodingMeta.codingStateSize (File.codingMeta f) ->
  r !! 11%nat = Some (Some (bytes_string (state_of f))) ->
  state_step r m0 = Some (if CodingMeta.codingStateSize (File.codingMeta f) =? 0 then m0
                          else upd_coding (with_state (default [] (CodingMeta.codingState (File.codingMeta f)))) m0).
Proof using.
  intros Hs En Er. unfold state_step. rewrite En. unfold state_of in Er.
  destruct Hs as [E|(_ & Hpos & b & Hb & Hin & Hl)]; [by rewrite E|].
  destruct (Z.ltb_spec 0 (CodingMeta.codingStateSize (File.codingMeta f))); [|lia].
  destruct (Z.eqb_spec (CodingMeta.codingStateSize (File.codingMeta f)) 0); [lia|]. rewrite Hb in *. change (default [] (Some b)) with b in *.
  unfold check_and_copy_field. rewrite Er. cbv beta iota. rewrite length_bytes_string, Hl, Nat.leb_refl.
  by rewrite string_bytes_string, take_ge by (done || lia).
Qed.

Lemma get_int_raw z : in_int z -> MetaStore.get_int (le 4 z) = z.
Proof using. apply unle_le_i32. Qed.

Lemma unle_le_u64 z : in_ulong z -> unle (le 8 z) = z.
Proof using. intros Hz. rewrite unle_le. by apply Z.mod_small. Qed.

Lemma uuid_step_ok r f u : r !! 3%nat = Some (Some (uuid_to_string u)) ->
  uuid_step r f = Some (File.set_ids f (File.namespaceId f) u (File.name f)).
Proof using H2. intros E. unfold uuid_step. rewrite E. cbn [mjoin option_join default from_option id]. by rewrite uuid_parse_print. Qed.

Lemma string_step idx set r f s : r !! idx = Some (Some s) -> check_and_copy_string idx set r f = Some (set s f).
Proof using. intros E. unfold check_and_copy_string. by rewrite E. Qed.

Ltac main_step lem := erewrite run_step; [|eapply lem; reflexivity].
Ltac main_step_by lem tac := erewrite run_step; [|eapply lem; [reflexivity|tac]].

Lemma read_main_ok f n ids cs bad f0 :
  storable f n ids cs bad -> run_steps main_steps (map Some (main_values f)) f0 = (true, read_main f0 f).
Proof using H2.
  intros Hf. destruct (ok_times _ _ _ _ _ Hf) as (Ht1 & Ht2 & Ht3 & Ht4). destruct (ok_staged _ _ _ _ _ Hf) as (Hg1 & Hg2 & Hg3).
  destruct (ok_md5 _ _ _ _ _ Hf) as [Hm1 Hm2]. destruct (ok_class _ _ _ _ _ Hf) as [Hc1 Hc2].
  destruct (ok_version _ _ _ _ _ Hf) as [Hv _]. destruct (ok_chunks _ _ _ _ _ Hf) as (Hn & _ & _ & _ & _ & Hn' & _).
  rewrite <- Hn in Hn'. unfold main_steps.
  do 3 main_step field_copy_step. main_step uuid_step_ok. main_step string_step. do 6 main_step field_copy_step.
  erewrite run_step; [|apply (state_step_ok f); [apply Hf| |reflexivity]; apply get_int_raw, Hf].
  main_step field_copy_step. do 4 main_step_by time_step done.
  erewrite run_step; [|rewrite <- Hm2; apply copy_or_set_step; [reflexivity|done]].
  erewrite run_step; [|apply (copy_or_set_step 18 _ _ _ _ (le 8 (File.staged_size (File.staged f)))); [reflexivity|apply le_in_bytes]].
  main_step string_step. do 5 main_step field_copy_step. main_step_by time_step done.
  erewrite run_step; [|reflexivity]. cbn [run_steps]. f_equal.
  destruct (ok_coding _ _ _ _ _ Hf) as (Hk1 & Hk2 & Hk3 & Hk4 & Hk5 & Hk6). destruct Hg2 as (Hj1 & Hj2 & Hj3 & Hj4 & Hj5 & _).
  unfold read_main, read_coding. pose proof (ok_state _ _ _ _ _ Hf) as Hst. unfold state_ok in Hst.
  assert (Some match map Some (main_values f) !! 26%nat with
               | Some (Some s) => if (1 <=? String.length s)%nat then negb (atoi s =? 0) else false
               | _ => false
               end = Some (mark_of f)) as Em.
  { cbn [main_values map lookup list_lookup]. by destruct (mark_of f). }
  rewrite !get_int_raw, !unle_le_u64, !unle_le_u8, !c_str_id by (done || apply Hf).
  destruct (Z.eqb_spec (CodingMeta.codingStateSize (File.codingMeta f)) 0) as [E0|E0].
  - destruct f0. unfold File.set_isDeleted. f_equal. exact Em.
  - destruct Hst as [?|(_ & _ & b & Hb & _)]; [done|]. rewrite Hb. destruct f0. unfold File.set_isDeleted. f_equal. exact Em.
Qed.
(** ** Chunks *)

Lemma stored_group h f n ids cs bad i :
  stored h f n ids cs bad -> (i < length cs)%nat ->
  map (fun k => h !! k) (chunk_names (Z.of_nat i)) = map Some (chunk_values ids cs bad i).
Proof using.
  intros Hs Hi. assert (forall k v, (k, v) ∈ chunk_group ids cs bad i -> h !! k = Some v) as Hg.
  { intros k v Hin. apply Hs. unfold groups. cbn [concat]. rewrite !concat_app, !elem_of_app. right. left.
    apply list_elem_of_In, in_concat. exists (chunk_group ids cs bad i). split; [|by apply list_elem_of_In].
    apply in_map, list_elem_of_In, elem_of_seq. lia. }
  unfold chunk_group, chunk_names, chunk_values in *. cbn [map zip zip_with] in *.
  repeat (f_equal; [apply Hg; repeat (apply elem_of_cons; first [left; reflexivity|right])|]).
  f_equal. apply Hg. repeat (apply elem_of_cons; first [left; reflexivity|right]).
Qed.

Definition read_chunk (f : File.t) (i : nat) (c : Chunk.t) : Chunk.t :=
  Chunk.mk (File.namespaceId f) (File.uuid f) (Z.of_nat i) None (Chunk.size c) true (File.version f) "" (Chunk.md5 c).

(** The arrays when the first [i] chunks are filled in. *)
Definition partly_read (f : File.t) (ids : list Z) (cs : list Chunk.t) (bad : list bool) (i : nat) : File.t :=
  let n := length cs in
  File.set_chunk_info f (Z.of_nat n) (Some (take i ids ++ replicate (n - i) 0))
    (Some (take i (imap (read_chunk f) cs) ++ replicate (n - i) Chunk.reset)) (Some (take i bad ++ replicate (n - i) false)).

Lemma fill_slot {A} (l : list A) i x y m :
  l !! i = Some x -> <[i := x]> (take i l ++ replicate (S m) y) = take (S i) l ++ replicate m y.
Proof using.
  intros Hx. pose proof (lookup_lt_Some _ _ _ Hx) as Hi. rewrite insert_app_r_alt by (rewrite length_take; lia).
  rewrite length_take, Nat.min_l by lia. rewrite Nat.sub_diag. cbn [replicate]. rewrite (take_S_r _ _ x) by done.
  by rewrite <- app_assoc.
Qed.

Lemma chunk_reply_ok f ids cs bad i :
  length ids = length cs -> length bad = length cs -> Forall in_int ids -> (forall i c, cs !! i = Some c -> chunk_ok i c) ->
  (i < length cs)%nat ->
  chunk_reply (partly_read f ids cs bad i) i (map Some (chunk_values ids cs bad i)) = Ok (true, partly_read f ids cs bad (S i)).
Proof using.
  intros Hi Hb Hids Hcs Hlt. pose proof (lookup_total_lt cs i Hlt) as Hc. destruct (Hcs i _ Hc) as (_ & Hsz & Hmd & Hml).
  assert (in_int (ids !!! i)) as Hid by (eapply Forall_lookup_1; [exact Hids|apply lookup_total_lt; lia]).
  unfold chunk_reply. cbn [partly_read File.chunks File.set_chunk_info mbind option_bind].
  rewrite lookup_app_r by (rewrite length_take, length_imap; lia). rewrite length_take, length_imap, Nat.min_l, Nat.sub_diag by lia.
  replace (length cs - i)%nat with (S (length cs - S i)) by lia. cbn [replicate lookup list_lookup access obind].
  unfold chunk_values. cbn [map]. unfold raw_int. rewrite !length_bytes_string, !length_le. cbn [Nat.ltb Nat.leb].
  rewrite !string_bytes_le, !take_le, !get_int_raw by done. cbn [access obind lookup list_lookup head mjoin option_join].
  rewrite length_bytes_string, Hml. cbn [Nat.leb]. rewrite string_bytes_string, take_ge by (done || lia).
  replace (negb (atoi (flag_text (bad !!! i)) =? 0)) with (bad !!! i) by (by destruct (bad !!! i)).
  do 2 f_equal. unfold partly_read, set_cid, set_chunk.
  cbn [File.set_chunk_info File.numChunks File.containerIds File.chunks File.chunksCorrupted fmap option_fmap option_map
       File.namespaceId File.uuid File.version].
  replace (length cs - i)%nat with (S (length cs - S i)) by lia.
  rewrite (fill_slot ids i (ids !!! i)) by (apply lookup_total_lt; lia).
  rewrite (fill_slot bad i (bad !!! i)) by (apply lookup_total_lt; lia).
  match goal with |- context [Chunk.mk ?a ?b ?c ?d ?e ?g ?h ?k ?l] =>
    change (Chunk.mk a b c d e g h k l) with (read_chunk f i (cs !!! i)) end.
  rewrite (fill_slot (imap (read_chunk f) cs) i (read_chunk f i (cs !!! i))) by (by rewrite list_lookup_imap, Hc).
  reflexivity.
Qed.

(** ** The session of a reader *)

Section session.
Context {D : Type} `{ServerLaws D} (net : nat -> link).

(** The replies to commands that only read. *)
Lemma append_reads (k : string) (l : list (list string)) (s : session D) :
  answered net -> Closed ∉ pending s -> exists d, contents d = contents (db s) /\
  appendCommands net (map (HMGET k) l) s =
    Ok (tt, mk_session d (sent s + length l) (pending s ++ map (fun fs => Arrives (fst (run (contents (db s)) (HMGET k fs)))) l)).
Proof using H4.
  intros Hn. revert s. induction l as [|fs l IH]; intros s Hs.
  { exists (db s). split; [done|]. destruct s. cbn. by rewrite app_nil_r, Nat.add_0_r. }
  pose proof (exec_serves (db s) (HMGET k fs)) as Hx. cbn [serves] in Hx. cbn [map appendCommands]. unfold bind. rewrite append_open by done.
  destruct (exec (db s) (HMGET k fs)) as [r d]. cbn [fst snd] in Hx. rewrite Hn. injection Hx as Hr Hd.
  match goal with |- context [appendCommands net _ ?t] => destruct (IH t) as (d' & Hd' & ->); [by apply open_append|] end. cbn [db sent pending length] in *.
  exists d'. split; [congruence|]. do 3 f_equal; [lia|]. rewrite <- app_assoc. cbn [app]. rewrite Hd, Hr. done.
Qed.

Lemma chunk_replies_ok f ids cs bad (d : D) m q n i :
  length ids = length cs -> length bad = length cs -> Forall in_int ids -> (forall i c, cs !! i = Some c -> chunk_ok i c) ->
  (i + n = length cs)%nat ->
  chunk_replies n i (partly_read f ids cs bad i)
    (mk_session d m (map (fun i => Arrives (RArray (map Some (chunk_values ids cs bad i)))) (seq i n) ++ q)) =
  Ok ((true, partly_read f ids cs bad (length cs)), mk_session d m q).
Proof using.
  intros Hi Hb Hids Hcs. revert i. induction n as [|n IH]; intros i Hin.
  { by replace (length cs) with i by lia. }
  cbn [chunk_replies seq map app]. unfold getReply, fetchReply, lift, bind at 1 2. cbn [pending]. unfold ret, bind.
  change (length _ <? 2)%nat with false. rewrite chunk_reply_ok by (done || lia). cbn [obind fst snd]. apply IH. lia.
Qed.

Definition read_arrays (f : File.t) (ids : list Z) (cs : list Chunk.t) (bad : list bool) : File.t :=
  let some {A} (l : list A) := match cs with [] => None | _ => Some l end in
  File.set_chunk_info f (Z.of_nat (length cs)) (some ids) (some (imap (read_chunk f) cs)) (some bad).

(** The hash under a key, as the server sees it. *)
Definition holds (d : D) (k : string) (h : gmap string string) : Prop := contents d !! k = Some (VHash h).

Lemma hmget_reply m k h fs : m !! k = Some (VHash h) -> fst (run m (HMGET k fs)) = RArray (map (fun x => h !! x) fs).
Proof using. intros E. cbn. unfold hash. by rewrite E. Qed.

Lemma get_chunks_ok f0 f n ids cs bad k h (s : session D) :
  answered net -> storable f n ids cs bad -> stored h f n ids cs bad -> holds (db s) k h -> pending s = [] ->
  File.numChunks f0 = Z.of_nat (length cs) ->
  exists s', get_chunks net k f0 s = Ok ((true, read_arrays f0 ids cs bad), s') /\ contents (db s') = contents (db s) /\
             pending s' = [].
Proof using H4.
  intros Hn Hf Hst Hh Hp Hnum. destruct (ok_chunks _ _ _ _ _ Hf) as (_ & Hi & Hb & Hids & Hcs & _ & _).
  unfold get_chunks, File.initChunksAndContainerIds. rewrite Hnum, Z.eqb_refl.
  destruct (Z.ltb_spec (Z.of_nat (length cs)) 0); [lia|]. cbn [negb File.numChunks File.set_chunk_info].
  rewrite !Nat2Z.id, <- (map_map (fun i => chunk_names (Z.of_nat i)) (HMGET k)).
  destruct (append_reads k (map (fun i => chunk_names (Z.of_nat i)) (seq 0 (length cs))) s Hn) as (d & Hd & Ha); [rewrite Hp; apply not_elem_of_nil|].
  unfold bind. rewrite Ha, Hp, app_nil_l, map_map.
  rewrite (map_ext_in _ (fun i => Arrives (RArray (map Some (chunk_values ids cs bad i))))).
  2:{ intros i Hi'%list_elem_of_In%elem_of_seq. rewrite (hmget_reply _ _ _ _ Hh). by rewrite (stored_group h f n ids cs bad) by (done || lia). }
  destruct cs as [|c cs'] eqn:Ecs; [eexists; split; [reflexivity|by split]|]. rewrite <- Ecs in *.
  destruct (Z.ltb_spec 0 (Z.of_nat (length cs))); [|subst cs; cbn in *; lia].
  pose proof (chunk_replies_ok f0 ids cs bad d (sent s + length (map (fun i => chunk_names (Z.of_nat i)) (seq 0 (length cs)))) []
    (length cs) 0 Hi Hb Hids Hcs eq_refl) as Hr.
  unfold partly_read in Hr at 1. rewrite !take_0, !app_nil_l, Nat.sub_0_r, app_nil_r in Hr. rewrite Hr.
  eexists (mk_session d _ []). split; [|by split]. do 3 f_equal. unfold partly_read, read_arrays. rewrite !take_ge by (rewrite ?length_imap; lia).
  rewrite Nat.sub_diag. cbn [replicate]. rewrite !app_nil_r. by rewrite Ecs.
Qed.

(** ** Blocks *)

Definition raw_unique (b : InObjectLocation * (string * Z)) : string :=
  bytes_string (raw_location (fst b) ++ string_bytes (fst (snd b)) ++ le 4 (snd (snd b))).
Definition raw_duplicate (b : InObjectLocation * string) : string :=
  bytes_string (raw_location (fst b) ++ string_bytes (snd b)).

Lemma string_in_bytes t : in_bytes (string_bytes t).
Proof using.
  unfold string_bytes, in_bytes. apply Forall_map, Forall_forall. intros a _. cbn. pose proof (nat_ascii_bounded a). lia.
Qed.

Lemma raw_location_parse l t : location_ok l -> parse_location (raw_location l ++ t) = l.
Proof using.
  intros [Ho Hl]. unfold parse_location, raw_location. rewrite <- app_assoc.
  rewrite take_app_length', drop_app_length', take_app_length' by (by rewrite length_le).
  rewrite unle_le_u64, unle_le_u32 by done. by destruct l.
Qed.

Lemma length_raw_location l : length (raw_location l) = 12%nat.
Proof using. unfold raw_location. by rewrite length_app, !length_le. Qed.

Lemma raw_location_bytes l : in_bytes (raw_location l).
Proof using. apply Forall_app_2; apply le_in_bytes. Qed.

(** A block is read back with its fingerprint; where it has none, the last one is
    empty, too. *)
Lemma unique_reply_ok fp b len :
  len = O \/ len = SHA256_DIGEST_LENGTH -> String.length (fst (snd b)) = len -> location_ok (fst b) -> in_int (snd (snd b)) ->
  (len = O -> fp = "") -> unique_reply fp [Some (raw_unique b)] = Some b.
Proof using.
  destruct b as [l [t o]]. unfold raw_unique. cbn [fst snd]. intros Hlen Ht Hl Ho Hfp. unfold unique_reply.
  assert (in_bytes (raw_location l ++ string_bytes t ++ le 4 o)) as Hin.
  { apply Forall_app_2; [apply raw_location_bytes|]. apply Forall_app_2; [apply string_in_bytes|apply le_in_bytes]. }
  rewrite string_bytes_string by done. rewrite !length_app, length_raw_location, length_string_bytes, length_le, Ht.
  rewrite raw_location_parse by done.
  destruct Hlen as [->| ->]; cbn [Nat.leb Nat.add].
  - destruct t; [|done]. rewrite Hfp by done. rewrite drop_app_length' by (by rewrite length_raw_location).
    cbn [string_bytes chars String.list_ascii_of_string map app]. by rewrite take_le, get_int_raw.
  - rewrite drop_app_length' by (by rewrite length_raw_location). unfold SHA256_DIGEST_LENGTH in *. cbn [Nat.leb Nat.add].
    rewrite take_app_length' by (by rewrite length_string_bytes). rewrite bytes_string_bytes.
    rewrite app_assoc, drop_app_length' by (by rewrite length_app, length_raw_location, length_string_bytes, Ht).
    by rewrite take_le, get_int_raw.
Qed.

Lemma duplicate_reply_ok fp b len :
  len = O \/ len = SHA256_DIGEST_LENGTH -> String.length (snd b) = len -> location_ok (fst b) ->
  (len = O -> fp = "") -> duplicate_reply fp [Some (raw_duplicate b)] = Some b.
Proof using.
  destruct b as [l t]. unfold raw_duplicate. cbn [fst snd]. intros Hlen Ht Hl Hfp. unfold duplicate_reply.
  rewrite string_bytes_string by (apply Forall_app_2; [apply raw_location_bytes|apply string_in_bytes]).
  rewrite !length_app, length_raw_location, length_string_bytes, Ht. rewrite raw_location_parse by done.
  destruct Hlen as [->| ->]; cbn [Nat.leb Nat.add].
  - destruct t; [|done]. by rewrite Hfp.
  - rewrite drop_app_length' by (by rewrite length_raw_location). unfold SHA256_DIGEST_LENGTH in *. cbn [Nat.leb Nat.add].
    by rewrite take_ge, bytes_string_bytes by (rewrite length_string_bytes; lia).
Qed.

Lemma emplace_last {A} l (a : A) m : Forall (fun b => _offset (fst b) < _offset l) m -> emplace l a m = m ++ [(l, a)].
Proof using.
  induction 1 as [|[l' a'] m Hl _ IH]; [done|]. cbn [emplace fst] in *.
  destruct (Z.ltb_spec (_offset l) (_offset l')); [lia|]. destruct (Z.eqb_spec (_offset l) (_offset l')); [lia|].
  by rewrite IH.
Qed.

Definition with_unique (f : File.t) (u : list (InObjectLocation * (string * Z))) : File.t := File.set_blocks f u (File.duplicateBlocks f).
Definition with_duplicates (f : File.t) (u : list (InObjectLocation * string)) : File.t := File.set_blocks f (File.uniqueBlocks f) u.

(** Blocks with larger offsets than those that are there. *)
Lemma sorted_after {A} (done_ : list (InObjectLocation * A)) b rest :
  StronglySorted Z.lt (map (fun b => _offset (fst b)) (done_ ++ b :: rest)) ->
  Forall (fun x => _offset (fst x) < _offset (fst b)) done_.
Proof using.
  intros Hs. apply Forall_forall. intros x Hx. induction done_ as [|y l IH]; [by apply elem_of_nil in Hx|].
  cbn in Hs. apply StronglySorted_inv in Hs as [Hs Hall]. apply elem_of_cons in Hx as [->|Hx]; [|by apply IH].
  rewrite Forall_forall in Hall. apply Hall. rewrite map_app. apply elem_of_app. right. apply elem_of_cons. by left.
Qed.

Lemma unique_replies_ok len (d : D) m q f rest : len = O \/ len = SHA256_DIGEST_LENGTH ->
  forall done_ fp, Forall (fun b => String.length (fst (snd b)) = len /\ location_ok (fst b) /\ in_int (snd (snd b))) rest ->
  StronglySorted Z.lt (map (fun b => _offset (fst b)) (done_ ++ rest)) -> (len = O -> fp = "") ->
  exists fp', unique_replies (length rest) fp (with_unique f done_)
      (mk_session d m (map (fun b => Arrives (RArray [Some (raw_unique b)])) rest ++ q)) =
    Ok ((true, fp', with_unique f (done_ ++ rest)), mk_session d m q) /\ (len = O -> fp' = "").
Proof using.
  intros Hlen. induction rest as [|b rest IH]; intros done_ fp HF Hs Hfp.
  { exists fp. by rewrite app_nil_r. }
  inversion HF as [|? ? (Hl & Hloc & Ho) HF']; subst. cbn [length unique_replies map app]. unfold getReply, fetchReply, bind, ret. cbn [pending].
  rewrite (unique_reply_ok fp b _ Hlen eq_refl Hloc Ho Hfp). destruct b as [l [t o]]. cbn [fst snd] in *.
  cbn [db sent]. unfold with_unique at 1 2. cbn [File.set_blocks File.uniqueBlocks File.duplicateBlocks].
  rewrite emplace_last by (apply (sorted_after done_ (l, (t, o)) rest); done).
  replace (done_ ++ (l, (t, o)) :: rest) with ((done_ ++ [(l, (t, o))]) ++ rest) in * by (by rewrite <- app_assoc).
  destruct (IH (done_ ++ [(l, (t, o))]) t HF' Hs) as (fp' & E & Hfp'); [by destruct t|]. exists fp'. by split.
Qed.

Lemma duplicate_replies_ok len (d : D) m q f rest : len = O \/ len = SHA256_DIGEST_LENGTH ->
  forall done_ fp, Forall (fun b => String.length (snd b) = len /\ location_ok (fst b)) rest ->
  StronglySorted Z.lt (map (fun b => _offset (fst b)) (done_ ++ rest)) -> (len = O -> fp = "") ->
  duplicate_replies (length rest) fp (with_duplicates f done_)
      (mk_session d m (map (fun b => Arrives (RArray [Some (raw_duplicate b)])) rest ++ q)) =
    Ok ((true, with_duplicates f (done_ ++ rest)), mk_session d m q).
Proof using.
  intros Hlen. induction rest as [|b rest IH]; intros done_ fp HF Hs Hfp.
  { by rewrite app_nil_r. }
  inversion HF as [|? ? (Hl & Hloc) HF']; subst. cbn [length duplicate_replies map app]. unfold getReply, fetchReply, bind, ret. cbn [pending].
  rewrite (duplicate_reply_ok fp b _ Hlen eq_refl Hloc Hfp). destruct b as [l t]. cbn [fst snd] in *.
  cbn [db sent]. unfold with_duplicates at 1 2. cbn [File.set_blocks File.uniqueBlocks File.duplicateBlocks].
  rewrite emplace_last by (apply (sorted_after done_ (l, t) rest); done).
  replace (done_ ++ (l, t) :: rest) with ((done_ ++ [(l, t)]) ++ rest) in * by (by rewrite <- app_assoc).
  apply (IH (done_ ++ [(l, t)]) t HF' Hs). by destruct t.
Qed.

(** The replies to the names of blocks are the blocks. *)
Lemma stored_blocks {A} (h : gmap string string) (fld : nat -> A -> string * string) (raw : A -> string) kind (l : list A) :
  (forall i b, fld i b = (genBlockKey (Z.of_nat i) kind, raw b)) ->
  (forall k v, (k, v) ∈ imap fld l -> h !! k = Some v) ->
  map (fun i => map (fun x => h !! x) [genBlockKey (Z.of_nat i) kind]) (seq 0 (length l)) = map (fun b => [Some (raw b)]) l.
Proof using.
  intros Hfld Hh. apply list_eq. intros i. rewrite !list_lookup_fmap.
  destruct (l !! i) as [b|] eqn:E.
  - rewrite lookup_seq_lt by (by eapply lookup_lt_Some). cbn. do 2 f_equal. apply Hh. rewrite <- Hfld.
    apply list_elem_of_lookup. exists i. by rewrite list_lookup_imap, E.
  - rewrite lookup_seq_ge by (by apply lookup_ge_None). done.
Qed.

(** * A whole record *)

(** What [getMeta] returns for [f0]: the metadata of [f], whatever else [f0] has. *)
Definition view (f0 f : File.t) (ids : list Z) (cs : list Chunk.t) (bad : list bool) : File.t :=
  with_duplicates (with_unique (read_arrays (read_main f0 f) ids cs bad) (File.uniqueBlocks f)) (File.duplicateBlocks f).

Lemma block_count_ok idx r n :
  r !! idx = Some (Some (raw_long (Z.of_nat n))) -> Z.of_nat n < 2 ^ 32 -> block_count idx r = n.
Proof using.
  intros E Hn. unfold block_count. rewrite E. unfold raw_long. rewrite length_bytes_string, length_le, string_bytes_le, take_le.
  cbn [Nat.leb]. rewrite unle_le_u64 by (unfold in_ulong; lia). lia.
Qed.

Lemma hmget_session k fs h (s : session D) :
  answered net -> pending s = [] -> holds (db s) k h -> exists s',
  redisCommand net (HMGET k fs) s = Ok (Some (RArray (map (fun x => h !! x) fs)), s') /\
  contents (db s') = contents (db s) /\ pending s' = [].
Proof using H4.
  intros Hn Hp Hh. rewrite command_answered by done. pose proof (exec_serves (db s) (HMGET k fs)) as Hx. cbn [serves] in Hx.
  injection Hx as Hr Hd. pose proof (hmget_reply _ _ _ fs Hh) as He. cbn [run fst] in He. rewrite He in Hr.
  eexists. split; [by rewrite Hr|]. by split.
Qed.

(** The replies to a list of blocks. *)
Lemma block_session {A} (h : gmap string string) k kind (fld : nat -> A -> string * string) (raw : A -> string) (l : list A) (s : session D) :
  answered net -> pending s = [] -> holds (db s) k h -> (forall i b, fld i b = (genBlockKey (Z.of_nat i) kind, raw b)) ->
  (forall k v, (k, v) ∈ imap fld l -> h !! k = Some v) ->
  exists d m, contents d = contents (db s) /\
    appendCommands net (map (fun i => HMGET k [genBlockKey (Z.of_nat i) kind]) (seq 0 (length l))) s =
    Ok (tt, mk_session d m (map (fun b => Arrives (RArray [Some (raw b)])) l)).
Proof using H4.
  intros Hn Hp Hh Hfld Hst.
  destruct (append_reads k (map (fun i => [genBlockKey (Z.of_nat i) kind]) (seq 0 (length l))) s Hn) as (d & Hd & Ha); [rewrite Hp; apply not_elem_of_nil|].
  rewrite map_map in Ha. exists d. eexists. split; [exact Hd|]. rewrite Ha, Hp, app_nil_l, map_map. do 3 f_equal.
  transitivity (map (fun r => Arrives (RArray r)) (map (fun i => map (fun x => h !! x) [genBlockKey (Z.of_nat i) kind]) (seq 0 (length l)))).
  - rewrite map_map. apply map_ext. intros i. by rewrite (hmget_reply _ _ _ _ Hh).
  - rewrite (stored_blocks h fld raw kind l) by done. by rewrite map_map.
Qed.

Lemma stored_fields h f n ids cs bad :
  stored h f n ids cs bad ->
  (forall k v, (k, v) ∈ imap unique_field (File.uniqueBlocks f) -> h !! k = Some v) /\
  (forall k v, (k, v) ∈ imap duplicate_field (File.duplicateBlocks f) -> h !! k = Some v).
Proof using.
  intros Hs.
  assert (forall (l : list (string * string)) p, p ∈ l -> p ∈ concat (map (fun p => [p]) l)) as Hin.
  { intros l p Hp. induction l as [|q l IH]; [done|]. cbn. apply elem_of_cons in Hp as [->|Hp]; apply elem_of_cons; eauto. }
  split; intros k v Hk; apply Hs; unfold groups; cbn [concat]; rewrite !concat_app, !elem_of_app.
  - right. right. left. by apply Hin.
  - right. right. right. by apply Hin.
Qed.

Lemma get_unique_ok f0 f n ids cs bad k h len (s : session D) :
  answered net -> stored h f n ids cs bad -> holds (db s) k h -> pending s = [] -> File.uniqueBlocks f0 = [] ->
  len = O \/ len = SHA256_DIGEST_LENGTH ->
  Forall (fun b => String.length (fst (snd b)) = len /\ location_ok (fst b) /\ in_int (snd (snd b))) (File.uniqueBlocks f) ->
  StronglySorted Z.lt (map (fun b => _offset (fst b)) (File.uniqueBlocks f)) ->
  exists fp s', get_unique net k (length (File.uniqueBlocks f)) f0 s = Ok ((true, fp, with_unique f0 (File.uniqueBlocks f)), s') /\
    contents (db s') = contents (db s) /\ pending s' = [] /\ (len = O -> fp = "").
Proof using H4.
  intros Hn Hst Hh Hp Hu0 Hlen HF Hs. unfold get_unique, bind. destruct (stored_fields _ _ _ _ _ _ Hst) as [Hsu _].
  destruct (block_session h k true unique_field raw_unique (File.uniqueBlocks f) s) as (d & m & Hc & ->);
    [done|done|done|by intros i [? [? ?]]|done|].
  destruct (unique_replies_ok len d m [] f0 (File.uniqueBlocks f) Hlen [] "") as (fp & Hr & Hfp); [done|done|done|].
  assert (with_unique f0 [] = f0) as E0 by (unfold with_unique; rewrite <- Hu0; by destruct f0).
  rewrite E0, app_nil_r in Hr. exists fp, (mk_session d m []). by split_and!.
Qed.

Lemma get_duplicates_ok f0 f n ids cs bad k h len fp (s : session D) :
  answered net -> stored h f n ids cs bad -> holds (db s) k h -> pending s = [] -> File.duplicateBlocks f0 = [] ->
  len = O \/ len = SHA256_DIGEST_LENGTH -> (len = O -> fp = "") ->
  Forall (fun b => String.length (snd b) = len /\ location_ok (fst b)) (File.duplicateBlocks f) ->
  StronglySorted Z.lt (map (fun b => _offset (fst b)) (File.duplicateBlocks f)) ->
  exists s', get_duplicates net k (length (File.duplicateBlocks f)) fp f0 s = Ok ((true, with_duplicates f0 (File.duplicateBlocks f)), s') /\
    contents (db s') = contents (db s) /\ pending s' = [].
Proof using H4.
  intros Hn Hst Hh Hp Hd0 Hlen Hfp HF Hs. unfold get_duplicates, bind. destruct (stored_fields _ _ _ _ _ _ Hst) as [_ Hsd].
  destruct (block_session h k false duplicate_field raw_duplicate (File.duplicateBlocks f) s) as (d & m & Hc & ->);
    [done|done|done|by intros i [? ?]|done|].
  pose proof (duplicate_replies_ok len d m [] f0 (File.duplicateBlocks f) Hlen [] fp HF Hs Hfp) as Hr.
  assert (with_duplicates f0 [] = f0) as E0 by (unfold with_duplicates; rewrite <- Hd0; by destruct f0).
  rewrite E0, app_nil_r in Hr. exists (mk_session d m []). by split_and!.
Qed.

Lemma getMeta_record f0 f n ids cs bad k h (s s1 : session D) :
  answered net -> storable f n ids cs bad -> stored h f n ids cs bad ->
  File.uniqueBlocks f0 = [] -> File.duplicateBlocks f0 = [] ->
  record_key net f0 s = Ok (k, s1) -> pending s1 = [] -> holds (db s1) k h ->
  exists s', getMeta net f0 3 s = Ok ((true, view f0 f ids cs bad), s') /\ contents (db s') = contents (db s1) /\ pending s' = [].
Proof using H2 H4.
  intros Hn Hf Hst Hu0 Hd0 Hkey Hp1 Hh. unfold getMeta. unfold bind at 1. rewrite Hkey. unfold bind at 1.
  destruct (hmget_session k main_names h s1 Hn Hp1 Hh) as (s2 & -> & Hc2 & Hp2).
  rewrite (stored_main h f n ids cs bad Hst).
  change (length _ <=? NUM_REQ_FIELDS)%nat with false. change (short_reply _) with false.
  rewrite (read_main_ok f n ids cs bad f0 Hf).
  destruct (ok_blocks _ _ _ _ _ Hf) as ((len & Hlen & Hul & Hdl) & Huo & Hdo & Hus & Hds & Hun & Hdn).
  rewrite (block_count_ok 27 _ (length (File.uniqueBlocks f))), (block_count_ok 28 _ (length (File.duplicateBlocks f))) by done.
  change ((3 =? 1) || (3 =? 3)) with true. change ((3 =? 2) || (3 =? 3)) with true. cbn [negb]. unfold bind at 1.
  destruct (get_chunks_ok (read_main f0 f) f n ids cs bad k h s2) as (s3 & -> & Hc3 & Hp3);
    [done|done|done|unfold holds; by rewrite Hc2|done|apply (ok_chunks _ _ _ _ _ Hf)|]. cbn [negb]. unfold bind at 1.
  destruct (get_unique_ok (read_arrays (read_main f0 f) ids cs bad) f n ids cs bad k h len s3) as (fp & s4 & -> & Hc4 & Hp4 & Hfp);
    [done|done|unfold holds; by rewrite Hc3, Hc2|done|done|done| |done|].
  { apply Forall_forall. intros b Hb. rewrite Forall_forall in Hul, Huo. destruct (Huo b Hb). by split; [apply Hul|]. }
  cbn [negb].
  destruct (get_duplicates_ok (with_unique (read_arrays (read_main f0 f) ids cs bad) (File.uniqueBlocks f)) f n ids cs bad k h len fp s4)
    as (s5 & -> & Hc5 & Hp5); [done|done|unfold holds; by rewrite Hc4, Hc3, Hc2|done|done|done|done| |done|].
  { apply Forall_forall. intros b Hb. rewrite Forall_forall in Hdl, Hdo. by split; [apply Hdl|apply Hdo]. }
  exists s5. split_and!; [done|congruence|done].
Qed.
End session.
End reading.
