(* ===== verification/MetaVersions.v ===== *)
(** The metadata store as a history of versions: what the keys and values of the
    server have to do with the versions of a file, and that storing, reading and
    deleting records act on the history. *)

From Stdlib Require Import Ascii.
From stdpp Require Import pretty.
From S2P Require Import Prelude DS Wire File MetaKeys RedisServer MetaStore MetaTheorems.

#[local] Open Scope Z_scope.
#[local] Open Scope outcome_scope.
#[local] Open Scope session_scope.

(** * Keys of a file *)

Section keys.
Context (ns : Z) (n : string).

(** A file with the name [n] of the namespace [ns]. *)
Definition named (f : File.t) : Prop := File.name f = Some n /\ File.namespaceId f = ns.

Definition name_ok : Prop := free_of NUL n /\ (String.length n + 32 <= PATH_MAX)%nat /\ 0 <= ns < 256.

Context (Hok : name_ok).

Lemma length_ns : (String.length (pretty ns) <= 11)%nat.
Proof using Hok. destruct Hok as (_ & _ & Hns). apply length_pretty. unfold in_int. lia. Qed.

Lemma file_key_ok f : named f -> file_key f = Ok (genFileKey ns n).
Proof using Hok.
  pose proof length_ns as Hl. destruct Hok as (Ht & Hlen & _). intros [Hn Hns]. unfold file_key, the_name. rewrite Hn, Hns. cbn [access obind].
  rewrite print_name_id by done. apply key_buffer_ok. unfold genFileKey. rewrite !string_length_app. cbn. unfold PATH_MAX in *. lia.
Qed.

Lemma versioned_key_ok f v : named f -> in_int v -> versioned_key f v = Ok (genVersionedFileKey ns n v).
Proof using Hok.
  pose proof length_ns as Hl. destruct Hok as (Ht & Hlen & _). intros [Hn Hns] Hv. unfold versioned_key, the_name. rewrite Hn, Hns. cbn [access obind].
  rewrite print_name_id by done. apply key_buffer_ok. unfold genVersionedFileKey. rewrite !string_length_app. cbn [String.length].
  pose proof (length_pretty v Hv). unfold PATH_MAX in *. lia.
Qed.

Lemma list_key_ok f : named f -> list_key f = Ok (genFileVersionListKey ns n).
Proof using Hok.
  pose proof length_ns as Hl. destruct Hok as (Ht & Hlen & _). intros [Hn Hns]. unfold list_key, the_name. rewrite Hn, Hns. cbn [access obind].
  rewrite print_name_id by done. apply key_buffer_ok. unfold genFileVersionListKey. rewrite !string_length_app. cbn. unfold PATH_MAX in *. lia.
Qed.

(** The key of a file has no zero byte, and its directory is a key of its own kind. *)
Lemma c_str_file_key : c_str (genFileKey ns n) = genFileKey ns n.
Proof using Hok.
  destruct Hok as (Ht & _ & _). apply c_str_id. unfold genFileKey, free_of. rewrite !chars_app.
  apply Forall_app_2; [apply plain_free_of; [done|apply plain_pretty_Z]|]. by constructor.
Qed.

Lemma prefix_ok : exists t, getFilePrefix (genFileKey ns n) false = Ok ("//pf_" +:+ t).
Proof using.
  unfold getFilePrefix, genFileKey. 
  assert (first_index "_" (pretty ns +:+ "_" +:+ n) = Some (String.length (pretty ns))) as ->.
  { apply first_index_app, plain_free_of; [done|apply plain_pretty_Z]. }
  destruct (last_index "/" _) as [slash|]; [|by eexists]. case_match; by eexists.
Qed.
End keys.

(** The keys that a store operation changes besides the record: the mapping from the
    identifier, the directory and the list of directories. *)
Definition side_key (k : string) : Prop :=
  (exists t, k = "//fu" +:+ t) \/ (exists t, k = "//pf_" +:+ t) \/ k = DIR_LIST_KEY.

Lemma file_key_not_side ns n : ~ side_key (genFileKey ns n).
Proof. intros [[t E]|[[t E]|E]]; by apply file_key_not_slash in E. Qed.

Lemma versioned_key_not_side ns n v : ~ side_key (genVersionedFileKey ns n v).
Proof. intros [[t E]|[[t E]|E]]; by apply versioned_key_not_system in E. Qed.

Lemma list_key_not_side ns n : ~ side_key (genFileVersionListKey ns n).
Proof. intros [[t E]|[[t E]|E]]; discriminate E. Qed.

Lemma list_key_not_file ns n ns' n' : genFileVersionListKey ns n <> genFileKey ns' n'.
Proof. intros E. symmetry in E. by apply file_key_not_slash in E. Qed.

Lemma list_key_not_versioned ns n ns' n' v : genFileVersionListKey ns n <> genVersionedFileKey ns' n' v.
Proof. intros E. symmetry in E. by apply versioned_key_not_system in E. Qed.

(** * Effects on the keys *)

Definition deterministic (c : command) : bool :=
  match c with
  | SMEMBERS _ | HGETALL _ | SPOP _ | SPOPN _ _ | ZRANGEBYSCORE _ _ _ | ZREVRANGE_FIRST _ | ZRANGE _ _ _ | KEYS _
  | HSCAN _ _ _ | SSCAN _ _ _ | ZSCAN _ _ => false
  | _ => true
  end.

Definition apply_all (m : keyspace) (cs : list command) : keyspace := foldl (fun m c => snd (run m c)) m cs.

Lemma apply_all_app m cs cs' : apply_all m (cs ++ cs') = apply_all (apply_all m cs) cs'.
Proof. apply foldl_app. Qed.

Lemma set_fields_nonempty h l : l <> [] -> set_fields h l <> ∅.
Proof.
  induction l as [|[k v] l IH] using rev_ind; [done|]. intros _. rewrite set_fields_app. cbn. apply insert_non_empty.
Qed.

Lemma hmset_effect m k h l :
  hash m k = Some h -> l <> [] -> run m (HMSET k l) = (OK, <[k := VHash (set_fields h l)]> m).
Proof. intros Hh Hl. cbn. rewrite Hh. unfold put_hash. rewrite decide_False by (by apply set_fields_nonempty). done. Qed.

Lemma hmsets_effect m k h ls :
  hash m k = Some h -> Forall (fun l => l <> []) ls -> ls <> [] ->
  apply_all m (map (HMSET k) ls) = <[k := VHash (set_fields h (concat ls))]> m.
Proof.
  intros Hh HF. revert m h Hh. induction HF as [|l ls Hl HF IH]; intros m h Hh Hne; [done|].
  cbn [map apply_all foldl]. rewrite (hmset_effect _ _ _ _ Hh Hl). cbn [snd]. destruct ls as [|l' ls].
  - cbn. by rewrite app_nil_r.
  - fold (apply_all (<[k := VHash (set_fields h l)]> m) (map (HMSET k) (l' :: ls))).
    rewrite (IH _ (set_fields h l)); [|unfold hash; by rewrite lookup_insert_eq|done].
    rewrite insert_insert_eq. do 2 f_equal. cbn [concat]. by rewrite !set_fields_app.
Qed.

(** The commands that follow the record change only keys on the side. *)
Lemma set_effect m k v k' : k <> k' -> snd (run m (SET k v)) !! k' = m !! k'.
Proof. intros Hne. cbn. by rewrite lookup_insert_ne. Qed.

Lemma put_set_ne m k s k' : k <> k' -> put_set m k s !! k' = m !! k'.
Proof. intros Hne. unfold put_set. case_decide; [by rewrite lookup_delete_ne|by rewrite lookup_insert_ne]. Qed.

Lemma sadd_effect m k x k' : k <> k' -> snd (run m (SADD k x)) !! k' = m !! k'.
Proof. intros Hne. cbn. destruct (members m k); [|done]. by apply put_set_ne. Qed.

Section versions.
Context {D : Type} `{ServerLaws D} `{UuidPrinterLaws} `{!UuidParser} `{!UuidParserLaws} `{!UuidGenerator}.
Context (net : nat -> link) (Hnet : answered net).
Implicit Types (s : session D) (m : keyspace).

Lemma exec_run (d : D) c : deterministic c = true ->
  fst (exec d c) = fst (run (contents d) c) /\ contents (snd (exec d c)) = snd (run (contents d) c).
Proof using H0.
  intros Hc. pose proof (exec_serves d c) as Hx. destruct c; try done; unfold serves in Hx;
    rewrite (surjective_pairing (run (contents d) _)) in Hx; by injection Hx.
Qed.

Lemma run_all_contents cs (d : D) :
  forallb deterministic cs = true -> contents (run_all d cs) = apply_all (contents d) cs.
Proof using H0.
  revert d. induction cs as [|c cs IH]; intros d Hc; [done|]. cbn in Hc. apply andb_true_iff in Hc as [H1' H2'].
  cbn [run_all apply_all foldl]. rewrite <- (proj2 (exec_run d c H1')). by apply IH.
Qed.

(** A command over a connection that works. *)
Lemma command_det c s :
  deterministic c = true -> pending s = [] -> exists s',
  redisCommand net c s = Ok (Some (fst (run (contents (db s)) c)), s') /\ contents (db s') = snd (run (contents (db s)) c) /\
  pending s' = [].
Proof using H0 Hnet.
  intros Hc Hp. rewrite command_answered by done. destruct (exec_run (db s) c Hc) as [-> Hd]. eexists. by split.
Qed.

Lemma command_any c s : pending s = [] -> exists r s',
  redisCommand net c s = Ok (Some r, s') /\ serves (contents (db s)) c r (contents (db s')) /\ pending s' = [].
Proof using H0 Hnet.
  intros Hp. rewrite command_answered by done. do 2 eexists. split; [reflexivity|]. split; [apply exec_serves|done].
Qed.

Lemma append_answered cs s : Closed ∉ pending s -> exists q,
  appendCommands net cs s = Ok (tt, mk_session (run_all (db s) cs) (sent s + length cs) (pending s ++ q)) /\
  length q = length cs /\ Forall arrives q.
Proof using Hnet.
  revert s. induction cs as [|c l IH]; intros s Hs.
  { exists []. destruct s. cbn. rewrite app_nil_r, Nat.add_0_r. by split_and!. }
  cbn [appendCommands run_all foldl]. unfold bind. rewrite append_open by done. destruct (exec (db s) c) as [r d] eqn:E. rewrite Hnet.
  match goal with |- context [appendCommands _ _ ?t] => destruct (IH t) as (q & -> & Hl & Hq); [by apply open_append|] end.
  cbn [sent length db pending snd] in *. exists (Arrives r :: q). rewrite <- app_assoc. cbn [app length].
  split; [do 3 f_equal; lia|]. split; [by rewrite Hl|]. constructor; [by eexists|done].
Qed.

Lemma pipeline_answered cs s :
  pending s = [] -> forallb deterministic cs = true -> exists s',
  (let! _ := appendCommands net cs in get_replies (length cs)) s = Ok (true, s') /\
  contents (db s') = apply_all (contents (db s)) cs /\ pending s' = [].
Proof using H0 Hnet.
  intros Hp Hc. unfold bind. destruct (append_answered cs s) as (q & -> & Hl & Hq); [rewrite Hp; apply not_elem_of_nil|]. rewrite Hp, app_nil_l, <- Hl.
  destruct (get_replies_spec (run_all (db s) cs) (sent s + length q) q) as (ok & -> & Hok).
  rewrite (proj2 Hok Hq). eexists. split; [reflexivity|]. split; [|done]. by apply run_all_contents.
Qed.

(** * Histories *)

Record entry := mk_entry { e_file : File.t; e_ids : list Z; e_cs : list Chunk.t; e_bad : list bool }.

Definition version (e : entry) : Z := File.version (e_file e).

Section file.
Context (ns : Z) (n : string) (Hok : name_ok ns n).

Notation fkey := (genFileKey ns n).
Notation vkey := (genVersionedFileKey ns n).
Notation lkey := (genFileVersionListKey ns n).

Definition entry_ok (e : entry) : Prop :=
  storable (e_file e) n (e_ids e) (e_cs e) (e_bad e) /\ File.namespaceId (e_file e) = ns /\ 0 <= version e.

(** The record [e] is stored under a key. *)
Definition saved m (k : string) (e : entry) : Prop :=
  exists h, m !! k = Some (VHash h) /\ stored h (e_file e) n (e_ids e) (e_cs e) (e_bad e).

(** The members of the sorted set start with the version that is their score. *)
Definition listed m (vs : list Z) : Prop :=
  exists z, scores m lkey = Some z /\ map_Forall (fun x v => atoi x = v) z /\ (forall v, v ∈ vs <-> exists x, z !! x = Some v).

(** A history, the newest version first. *)
Definition represents m (hist : list entry) : Prop :=
  Forall entry_ok hist /\ StronglySorted Z.gt (map version hist) /\
  match hist with
  | [] => m !! fkey = None /\ listed m []
  | e :: old => saved m fkey e /\ Forall (fun e => saved m (vkey (version e)) e) old /\ listed m (map version old)
  end /\
  (forall v, v ∉ tail (map version hist) -> m !! vkey v = None).

Lemma entry_named e : entry_ok e -> named ns n (e_file e).
Proof using. intros (Hs & Hns & _). by split; [apply (ok_name _ _ _ _ _ Hs)|]. Qed.

(** ** What the commands of [putMeta] do *)

Lemma put_commands_ok e key t : entry_ok e -> exists side,
  put_commands (e_file e) n key ("//pf_" +:+ t) = Ok (map (HMSET key) (groups (e_file e) n (e_ids e) (e_cs e) (e_bad e)) ++ side) /\
  forallb deterministic side = true /\ (forall m k, ~ side_key k -> apply_all m side !! k = m !! k).
Proof using.
  intros (Hs & _ & _). unfold put_commands. rewrite (record_ok _ _ _ _ _ Hs). cbn [obind]. eexists. split; [reflexivity|].
  assert (forall m k, ~ side_key k -> apply_all m [SADD ("//pf_" +:+ t) key; SADD DIR_LIST_KEY ("//pf_" +:+ t)] !! k = m !! k) as Htail.
  { intros m k Hk. cbn [apply_all foldl]. rewrite sadd_effect by (intros <-; apply Hk; by right; right).
    apply sadd_effect. intros <-. apply Hk. right. left. by exists t. }
  destruct (genFileUuidKey _ _) as [uk|] eqn:E; [|by split]. split; [done|]. intros m k Hk.
  transitivity (apply_all (snd (run m (SET uk n))) [SADD ("//pf_" +:+ t) key; SADD DIR_LIST_KEY ("//pf_" +:+ t)] !! k); [reflexivity|].
  rewrite Htail by done. apply set_effect. intros <-. apply Hk. left. unfold genFileUuidKey in E. case_match; [|done].
  injection E as <-. by eexists.
Qed.

Lemma groups_nonempty f ids cs bad : Forall (fun l => l <> []) (groups f n ids cs bad) /\ groups f n ids cs bad <> [].
Proof using.
  split; [|done]. unfold groups. constructor; [done|]. rewrite !Forall_app. split_and!; apply Forall_map, Forall_forall; done.
Qed.

(** Storing a record under a key that has a record or nothing. *)
Lemma store_effect e key t s m :
  entry_ok e -> ~ side_key key -> is_Some (hash m key) -> contents (db s) = m -> pending s = [] ->
  exists s' cs, put_commands (e_file e) n key ("//pf_" +:+ t) = Ok cs /\
    (let! _ := appendCommands net cs in get_replies (length cs)) s = Ok (true, s') /\ pending s' = [] /\
    saved (contents (db s')) key e /\ (forall k, k <> key -> ~ side_key k -> contents (db s') !! k = m !! k).
Proof using H0 Hnet.
  intros He Hk [h Hh] Hm Hp. destruct (put_commands_ok e key t He) as (side & -> & Hdet & Hside).
  destruct (groups_nonempty (e_file e) (e_ids e) (e_cs e) (e_bad e)) as [Hne Hne'].
  edestruct (pipeline_answered (map (HMSET key) (groups (e_file e) n (e_ids e) (e_cs e) (e_bad e)) ++ side) s) as (s' & Hrun & Hc & Hp');
    [done| |].
  { rewrite forallb_app, Hdet, andb_true_r. by apply forallb_forall; intros c (l & <- & _)%in_map_iff. }
  exists s'. eexists. split; [reflexivity|]. split; [exact Hrun|]. split; [done|].
  rewrite apply_all_app, Hm, (hmsets_effect _ _ _ _ Hh Hne Hne') in Hc.
  rewrite Hc. split.
  - eexists. split; [rewrite Hside by done; apply lookup_insert_eq|]. apply stored_set_of.
  - intros k Hne2 Hk2. rewrite Hside by done. by rewrite lookup_insert_ne.
Qed.

(** ** Reading a version *)

Lemma saved_version m k e : saved m k e -> run m (HGET k "ver") = (RString (raw_int (version e)), m).
Proof using.
  intros (h & Hh & Hst). cbn [run]. unfold hash. rewrite Hh. f_equal. rewrite (Hst "ver" (raw_int (version e))); [done|].
  unfold groups. cbn [concat]. apply elem_of_app. left. unfold main_fields. repeat (apply elem_of_cons; first [left; reflexivity|right]).
Qed.

Lemma missing_version m k : m !! k = None -> run m (HGET k "ver") = (RNil, m).
Proof using. intros E. cbn [run]. unfold hash. by rewrite E. Qed.

Lemma copy_int z : in_int z -> (let* b := copy_bytes 4 (raw_int z) in Ok (MetaStore.get_int b)) = Ok z.
Proof using.
  intros Hz. unfold copy_bytes, raw_int. rewrite string_bytes_le, block_read_in by (by rewrite length_le). cbn [access obind].
  rewrite <- (length_le 4 z) at 1. by rewrite slice_all, get_int_raw.
Qed.

Lemma entry_in_int e : entry_ok e -> in_int (version e).
Proof using. intros (Hs & _). by destruct (ok_version _ _ _ _ _ Hs). Qed.

Definition find_version (v : Z) (hist : list entry) : option entry := list_find (fun e => version e = v) hist ≫= (fun p => Some (snd p)).

(** The entry that is asked for, and the key of its record. *)
Definition asked (v : Z) (hist : list entry) : option entry := if v =? -1 then head hist else find_version v hist.
Definition asked_key (v : Z) (hist : list entry) : string :=
  if (v =? -1) || bool_decide (head (map version hist) = Some v) then fkey else vkey v.

Lemma record_key_ok f0 hist s :
  named ns n f0 -> in_int (File.version f0) -> represents (contents (db s)) hist -> pending s = [] -> exists s',
  record_key net f0 s = Ok (asked_key (File.version f0) hist, s') /\ contents (db s') = contents (db s) /\ pending s' = [].
Proof using H0 Hnet Hok.
  intros Hf Hv (Hes & _ & Hm & _) Hp. unfold record_key, bind, lift, asked_key. rewrite (file_key_ok ns n Hok f0 Hf). cbn [obind].
  destruct (Z.eqb_spec (File.version f0) (-1)) as [|Hne]; [by exists s|]. cbn [orb].
  rewrite try_answered by done. destruct (command_det (HGET fkey "ver") s eq_refl Hp) as (s' & -> & Hc & Hp').
  assert (contents (db s') = contents (db s)) as Hc'.
  { rewrite Hc. destruct hist as [|e old]; [by rewrite (missing_version _ _ (proj1 Hm))|].
    by rewrite (saved_version _ _ _ (proj1 Hm)). }
  exists s'. split; [|by split]. destruct hist as [|e old].
  - rewrite (missing_version _ _ (proj1 Hm)). cbn [fst obind]. rewrite bool_decide_eq_false_2 by done.
    destruct (Z.eqb_spec (-1) (File.version f0)); [congruence|]. by rewrite (versioned_key_ok ns n Hok f0 _ Hf Hv).
  - rewrite (saved_version _ _ _ (proj1 Hm)). cbn [fst]. rewrite copy_int by (apply entry_in_int; by inv Hes). cbn [obind map head].
    destruct (Z.eqb_spec (version e) (File.version f0)) as [E|E].
    + by rewrite bool_decide_eq_true_2 by (by f_equal).
    + rewrite bool_decide_eq_false_2 by congruence. by rewrite (versioned_key_ok ns n Hok f0 _ Hf Hv).
Qed.

Lemma find_version_some v hist e : find_version v hist = Some e -> e ∈ hist /\ version e = v.
Proof using.
  unfold find_version. intros ([i e'] & E & [= <-])%bind_Some. apply list_find_Some in E as (Hi & Hv & _).
  split; [|done]. by apply list_elem_of_lookup; exists i.
Qed.

Lemma find_version_none v hist : find_version v hist = None -> v ∉ map version hist.
Proof using.
  unfold find_version. intros E (e & Ev & He)%list_elem_of_fmap. destruct (list_find (fun e => version e = v) hist) as [[i e']|] eqn:Ef; [done|].
  apply list_find_None in Ef. rewrite Forall_forall in Ef. by apply (Ef e He).
Qed.

(** Where the record of an entry is. *)
Lemma asked_saved m v hist e : represents m hist -> asked v hist = Some e -> entry_ok e /\ saved m (asked_key v hist) e.
Proof using.
  intros (Hes & Hsorted & Hm & _) Ha. rewrite Forall_forall in Hes. unfold asked, asked_key in *.
  destruct (Z.eqb_spec v (-1)) as [->|Hv].
  - destruct hist as [|e' old]; [done|]. cbn in Ha. simplify_eq/=. split; [apply Hes, elem_of_cons; by left|apply Hm].
  - cbn [orb]. destruct (find_version_some _ _ _ Ha) as [He <-]. split; [by apply Hes|].
    destruct hist as [|e' old]; [by apply elem_of_nil in He|]. cbn [map head].
    destruct (bool_decide_reflect (Some (version e') = Some (version e))) as [[= E]|E].
    + apply elem_of_cons in He as [->|He]; [apply Hm|]. cbn in Hsorted. apply StronglySorted_inv in Hsorted as [_ Hall].
      rewrite Forall_forall in Hall. specialize (Hall (version e)). rewrite E in Hall.
      assert (version e ∈ map version old) as Hin by (apply list_elem_of_fmap; by exists e). specialize (Hall Hin). lia.
    + apply elem_of_cons in He as [->|He]; [done|]. destruct Hm as (_ & Hold & _). rewrite Forall_forall in Hold. by apply Hold.
Qed.

Lemma asked_missing m v hist : represents m hist -> asked v hist = None -> m !! asked_key v hist = None.
Proof using.
  intros (_ & _ & Hm & Hno) Ha. unfold asked, asked_key in *. destruct (Z.eqb_spec v (-1)) as [->|Hv].
  - destruct hist; [apply Hm|done].
  - cbn [orb]. apply find_version_none in Ha. destruct hist as [|e old]; [by apply Hno|]. cbn [map head tail] in *.
    apply not_elem_of_cons in Ha as [Hne Hni]. rewrite bool_decide_eq_false_2 by congruence. by apply Hno.
Qed.

Lemma getMeta_history f0 hist s :
  named ns n f0 -> in_int (File.version f0) -> File.uniqueBlocks f0 = [] -> File.duplicateBlocks f0 = [] ->
  represents (contents (db s)) hist -> pending s = [] -> exists s',
  getMeta net f0 3 s = Ok (match asked (File.version f0) hist with
                           | Some e => (true, view f0 (e_file e) (e_ids e) (e_cs e) (e_bad e))
                           | None => (false, f0)
                           end, s') /\ contents (db s') = contents (db s) /\ pending s' = [].
Proof using H0 H4 Hnet Hok.
  intros Hf Hv Hu Hd Hr Hp. destruct (record_key_ok f0 hist s Hf Hv Hr Hp) as (s1 & Hkey & Hc1 & Hp1).
  destruct (asked (File.version f0) hist) as [e|] eqn:Ea.
  - destruct (asked_saved _ _ _ _ Hr Ea) as ((Hs & _) & h & Hh & Hst).
    destruct (getMeta_record net f0 (e_file e) n (e_ids e) (e_cs e) (e_bad e) _ h s s1 Hnet Hs Hst Hu Hd Hkey Hp1)
      as (s' & Hget & Hc & Hp'); [unfold holds; by rewrite Hc1|]. exists s'. split_and!; [done|congruence|done].
  - pose proof (asked_missing _ _ _ Hr Ea) as Hmiss. unfold getMeta. unfold bind at 1. rewrite Hkey. unfold bind at 1.
    destruct (command_det (HMGET (asked_key (File.version f0) hist) main_names) s1 eq_refl Hp1) as (s2 & -> & Hc2 & Hp2).
    rewrite Hc1 in *. cbn [run fst snd] in *. unfold hash. rewrite Hmiss. exists s2. split_and!; [done|congruence|done].
Qed.

(** ** Keys that belong to the file *)

Definition own_key (k : string) : Prop := k = fkey \/ (exists v, k = vkey v) \/ k = lkey.

(** What else changes: keys on the side. *)
Definition touched m m' : Prop := forall k, ~ own_key k -> ~ side_key k -> m' !! k = m !! k.

Lemma saved_ext m m' k e : m' !! k = m !! k -> saved m k e -> saved m' k e.
Proof using. intros E (h & Hh & Hst). exists h. by rewrite E. Qed.

Lemma listed_ext m m' vs : m' !! lkey = m !! lkey -> listed m vs -> listed m' vs.
Proof using. unfold listed, scores. by intros ->. Qed.

Lemma own_not_side k : own_key k -> ~ side_key k.
Proof using.
  intros [->|[[v ->]| ->]]; [apply file_key_not_side|apply versioned_key_not_side|apply list_key_not_side].
Qed.

(** The record of a new or of the current version. *)
Lemma represents_current m m' e old :
  entry_ok e -> saved m' fkey e -> StronglySorted Z.gt (map version (e :: old)) -> Forall entry_ok old ->
  Forall (fun e => saved m (vkey (version e)) e) old -> listed m (map version old) ->
  (forall v, v ∉ map version old -> m !! vkey v = None) ->
  (forall k, k <> fkey -> ~ side_key k -> m' !! k = m !! k) ->
  represents m' (e :: old).
Proof using.
  intros He Hs Hsort Hes Hold Hl Hno Hkeep. split; [by constructor|]. split; [done|].
  assert (forall v, m' !! vkey v = m !! vkey v) as Hv.
  { intros v. apply Hkeep; [intros E; symmetry in E; by apply file_not_versioned in E|apply versioned_key_not_side]. }
  split; [split_and!|].
  - done.
  - eapply Forall_impl; [exact Hold|]. intros e' He'. cbn in *. eapply saved_ext; [apply Hv|exact He'].
  - eapply listed_ext; [|done]. apply Hkeep; [apply list_key_not_file|apply list_key_not_side].
  - intros v Hv'. rewrite Hv. by apply Hno.
Qed.

Lemma touched_current m m' : (forall k, k <> fkey -> ~ side_key k -> m' !! k = m !! k) -> touched m m'.
Proof using. intros Hk k Ho Hs. apply Hk; [|done]. intros ->. apply Ho. by left. Qed.

(** ** The version that is backed up *)

Lemma summary_atoi v r : atoi (summary v r) = v.
Proof using. unfold summary. apply atoi_pretty. reflexivity. Qed.

Lemma listed_add m vs v x : listed m vs -> atoi x = v ->
  exists z', snd (run m (ZADD lkey v x)) = <[lkey := VZSet z']> m /\ listed (<[lkey := VZSet z']> m) (v :: vs).
Proof using.
  intros (z & Hz & Ha & Hvs) Hx. cbn [run]. rewrite Hz. exists (<[x := v]> z). cbn [snd]. split.
  - unfold put_zset. rewrite decide_False by apply insert_non_empty. done.
  - exists (<[x := v]> z). unfold scores. rewrite lookup_insert_eq. split; [done|]. split.
    + intros y w. rewrite lookup_insert_Some. intros [[<- <-]|[_ Hy]]; [done|]. by apply (Ha y w).
    + intros w. rewrite elem_of_cons, Hvs. split.
      * intros [->|[y Hy]]; [exists x; apply lookup_insert_eq|]. exists y. destruct (decide (x = y)) as [<-|Hne].
        -- rewrite lookup_insert_eq. f_equal. rewrite <- Hx. by rewrite (Ha x w Hy).
        -- by rewrite lookup_insert_ne.
      * intros [y Hy]. rewrite lookup_insert_Some in Hy. destruct Hy as [[_ <-]|[_ Hy]]; [by left|right; by exists y].
Qed.

Lemma backup_ok e e0 old s :
  entry_ok e -> represents (contents (db s)) (e0 :: old) -> version e = version e0 + 1 -> pending s = [] -> exists s',
  backup net (e_file e) fkey s = Ok (true, s') /\ pending s' = [] /\ contents (db s') !! fkey = None /\
  Forall (fun e => saved (contents (db s')) (vkey (version e)) e) (e0 :: old) /\ listed (contents (db s')) (map version (e0 :: old)) /\
  (forall v, v ∉ map version (e0 :: old) -> contents (db s') !! vkey v = None) /\ touched (contents (db s)) (contents (db s')).
Proof using H0 Hnet Hok.
  intros He (Hes & Hsort & (Hcur & Hold & Hl) & Hno) Hv Hp. inversion Hes as [|? ? He0 Hes']; subst.
  pose proof (entry_in_int _ He) as Hi. pose proof (entry_in_int _ He0) as Hi0. unfold backup.
  assert (i32 (File.version (e_file e) - 1) = version e0) as -> by (unfold version in *; rewrite i32_small; unfold in_int in *; lia).
  set (v0 := version e0) in *. unfold bind at 1. unfold lift at 1.
  rewrite (versioned_key_ok ns n Hok _ v0 (entry_named _ He)) by done. cbn [obind].
  destruct Hcur as (h & Hh & Hst). unfold bind at 1.
  destruct (command_det (RENAME fkey (vkey v0)) s eq_refl Hp) as (s1 & -> & Hc1 & Hp1).
  cbn [run] in *. rewrite Hh in *. cbn [fst snd] in *. rewrite bool_decide_eq_true_2 by done.
  unfold bind at 1. rewrite try_answered by done. destruct (command_det (HMGET (vkey v0) ["size"; "mtime"; "md5"; "dm"; "numC"]) s1 eq_refl Hp1) as (s2 & -> & Hc2 & Hp2).
  cbn [run fst snd] in *. unfold bind at 1. unfold lift at 1. rewrite (list_key_ok ns n Hok _ (entry_named _ He)). cbn [obind].
  unfold bind at 1. match goal with |- context [summary v0 ?r] => pose proof (summary_atoi v0 r) as Hsum; set (x := summary v0 r) in * end.
  rewrite try_answered by done. destruct (command_det (ZADD lkey v0 x) s2 eq_refl Hp2) as (s3 & -> & Hc3 & Hp3). rewrite Hc2, Hc1 in Hc3.
  assert (listed (<[vkey v0 := VHash h]> (delete fkey (contents (db s)))) (map version old)) as Hl1.
  { eapply listed_ext; [|exact Hl]. rewrite lookup_insert_ne by (intros E; symmetry in E; by apply list_key_not_versioned in E).
    apply lookup_delete_ne. intros E; symmetry in E; by apply list_key_not_file in E. }
  destruct (listed_add _ _ v0 x Hl1 Hsum) as (z' & Ez & Hl'). rewrite Ez in Hc3. exists s3. split; [done|]. split; [done|].
  rewrite Hc3.
  assert (forall k, k <> lkey -> k <> fkey -> k <> vkey v0 ->
    (<[lkey := VZSet z']> (<[vkey v0 := VHash h]> (delete fkey (contents (db s))))) !! k = contents (db s) !! k) as Hkeep.
  { intros k H1' H2' H3'. by rewrite !lookup_insert_ne, lookup_delete_ne by congruence. }
  assert (forall v, v <> v0 -> (<[lkey := VZSet z']> (<[vkey v0 := VHash h]> (delete fkey (contents (db s))))) !! vkey v =
    contents (db s) !! vkey v) as Hkeepv.
  { intros v Hne. apply Hkeep.
    - intros E; symmetry in E; by apply list_key_not_versioned in E.
    - intros E; symmetry in E; by apply file_not_versioned in E.
    - by intros (_ & _ & ?)%genVersionedFileKey_inj. }
  split_and!.
  - rewrite lookup_insert_ne by apply list_key_not_file. rewrite lookup_insert_ne by (intros E; symmetry in E; by apply file_not_versioned in E).
    apply lookup_delete_eq.
  - constructor.
    + exists h. split; [|done]. rewrite lookup_insert_ne by apply list_key_not_versioned. apply lookup_insert_eq.
    + apply Forall_forall. intros e' He'. rewrite Forall_forall in Hold. eapply saved_ext; [|by apply Hold]. apply Hkeepv.
      cbn in Hsort. apply StronglySorted_inv in Hsort as [_ Hall]. rewrite Forall_forall in Hall.
      assert (version e' ∈ map version old) as Hin by (apply list_elem_of_fmap; by exists e'). specialize (Hall _ Hin). unfold v0. lia.
  - done.
  - intros v Hv'. cbn [map] in Hv'. apply not_elem_of_cons in Hv' as [Hne Hni]. rewrite Hkeepv by done. by apply Hno.
  - intros k Hk1 Hk2. apply Hkeep; intros ->; apply Hk1; [by right; right|by left|right; left; by exists v0].
Qed.

(** ** Storing a version *)

(** Storing a newer version adds it, storing one that is there replaces it, and
    there is no storing of an older one that is not. *)
Definition spec_put (e : entry) (hist : list entry) : option (list entry) :=
  match hist with
  | [] => Some [e]
  | e0 :: old =>
      if version e0 <? version e then Some (e :: hist)
      else if version e =? version e0 then Some (e :: old)
      else if bool_decide (version e ∈ map version old)
      then Some (e0 :: map (fun x => if version x =? version e then e else x) old)
      else None
  end.

Definition current (hist : list entry) : Z := match hist with [] => -1 | e :: _ => version e end.

Lemma put_begin ow e hist s :
  entry_ok e -> represents (contents (db s)) hist -> pending s = [] -> exists t s1,
  putMeta net ow (e_file e) s = put_version net ow (e_file e) fkey n ("//pf_" +:+ t) (current hist) s1 /\
  contents (db s1) = contents (db s) /\ pending s1 = [].
Proof using H0 Hnet Hok.
  intros He (Hes & _ & Hm & _) Hp. destruct (prefix_ok ns n) as [t Ht]. pose proof (entry_named _ He) as Hn. exists t.
  unfold putMeta. unfold bind, lift at 1. rewrite (file_key_ok ns n Hok _ Hn). cbn [obind]. unfold lift, the_name. rewrite (proj1 Hn).
  cbn [access obind]. rewrite (c_str_file_key ns n Hok), Ht. cbn [obind].
  destruct (command_det (HGET fkey "ver") s eq_refl Hp) as (s1 & -> & Hc & Hp1). exists s1.
  destruct hist as [|e0 old]; cbn [current].
  - rewrite (missing_version _ _ (proj1 Hm)) in *. by split_and!.
  - rewrite (saved_version _ _ _ (proj1 Hm)) in *. split_and!; try done. cbn [fst]. f_equal. unfold current_version, raw_int.
    rewrite length_bytes_string, length_le. cbn [Nat.eqb]. rewrite string_bytes_le. apply get_int_raw, entry_in_int. by inv Hes.
Qed.

(** The end of every case. *)
Lemma put_end e key t s :
  entry_ok e -> ~ side_key key -> is_Some (hash (contents (db s)) key) -> pending s = [] -> exists s',
  (let! cs := lift (put_commands (e_file e) n key (c_str ("//pf_" +:+ t))) in
   let! _ := appendCommands net cs in get_replies (length cs)) s = Ok (true, s') /\ pending s' = [] /\
  saved (contents (db s')) key e /\ (forall k, k <> key -> ~ side_key k -> contents (db s') !! k = contents (db s) !! k).
Proof using H0 Hnet.
  intros He Hk Hh Hp. change (c_str ("//pf_" +:+ t)) with ("//pf_" +:+ c_str t).
  destruct (store_effect e key (c_str t) s _ He Hk Hh eq_refl Hp) as (s' & cs & Ecs & Hrun & Hp' & Hs & Hkeep).
  exists s'. unfold bind at 1, lift. rewrite Ecs. cbn [obind]. by split_and!.
Qed.

Lemma put_first e s ow :
  entry_ok e -> represents (contents (db s)) [] -> pending s = [] -> exists s',
  putMeta net ow (e_file e) s = Ok (true, s') /\ pending s' = [] /\ represents (contents (db s')) [e] /\
  touched (contents (db s)) (contents (db s')).
Proof using H0 Hnet Hok.
  intros He Hr Hp. destruct (put_begin ow e [] s He Hr Hp) as (t & s1 & -> & Hc1 & Hp1). destruct Hr as (_ & _ & (Hno & Hl) & Hnv).
  unfold put_version. cbn [current]. change (negb (-1 =? -1)) with false. rewrite andb_false_r. cbn [andb negb].
  unfold bind at 1, ret at 1. cbn [negb]. unfold bind at 1, ret at 1.
  destruct (put_end e fkey t s1 He (file_key_not_side ns n)) as (s' & -> & Hp' & Hs & Hkeep);
    [unfold hash; by rewrite Hc1, Hno|done|]. rewrite Hc1 in Hkeep. exists s'. split_and!; try done; [|by apply touched_current].
  eapply (represents_current (contents (db s))); try done; by repeat constructor.
Qed.

Lemma put_newer e e0 old s :
  entry_ok e -> represents (contents (db s)) (e0 :: old) -> version e = version e0 + 1 -> pending s = [] -> exists s',
  putMeta net false (e_file e) s = Ok (true, s') /\ pending s' = [] /\ represents (contents (db s')) (e :: e0 :: old) /\
  touched (contents (db s)) (contents (db s')).
Proof using H0 Hnet Hok.
  intros He Hr Hv Hp. destruct (put_begin false e _ s He Hr Hp) as (t & s1 & -> & Hc1 & Hp1). rewrite <- Hc1 in Hr.
  pose proof Hr as (Hes & Hsort & _ & _). inversion Hes as [|? ? He0 _]; subst. destruct He0 as (_ & _ & Hpos).
  unfold put_version. cbn [current]. destruct (Z.eqb_spec (version e0) (-1)); [lia|]. cbn [negb andb].
  change (File.version (e_file e)) with (version e). destruct (Z.ltb_spec (version e0) (version e)); [|lia].
  destruct (Z.ltb_spec (version e) (version e0)); [lia|]. unfold bind at 1.
  destruct (backup_ok e e0 old s1 He Hr Hv Hp1) as (s2 & -> & Hp2 & Hno & Hold & Hl & Hnv & Ht2). cbn [negb].
  unfold bind at 1, ret at 1. destruct (put_end e fkey t s2 He (file_key_not_side ns n)) as (s' & -> & Hp' & Hs & Hkeep);
    [unfold hash; by rewrite Hno|done|]. exists s'. split_and!; try done.
  - eapply (represents_current (contents (db s2))); try done. cbn [map]. constructor; [exact Hsort|]. cbn in Hsort.
    apply StronglySorted_inv in Hsort as [_ Hall]. constructor; [lia|]. eapply Forall_impl; [exact Hall|]. cbn. lia.
  - intros k Ho Hsd. rewrite Hkeep, (Ht2 k Ho Hsd), Hc1; [done| |done]. intros ->. apply Ho. by left.
Qed.

Lemma put_same e e0 old s :
  entry_ok e -> represents (contents (db s)) (e0 :: old) -> version e = version e0 -> pending s = [] -> exists s',
  putMeta net false (e_file e) s = Ok (true, s') /\ pending s' = [] /\ represents (contents (db s')) (e :: old) /\
  touched (contents (db s)) (contents (db s')).
Proof using H0 Hnet Hok.
  intros He Hr Hv Hp. destruct (put_begin false e _ s He Hr Hp) as (t & s1 & -> & Hc1 & Hp1).
  destruct Hr as (Hes & Hsort & (Hcur & Hold & Hl) & Hno). inversion Hes as [|? ? He0 Hes']; subst.
  unfold put_version. cbn [current]. change (File.version (e_file e)) with (version e).
  destruct (Z.ltb_spec (version e0) (version e)); [lia|]. destruct (Z.ltb_spec (version e) (version e0)); [lia|].
  rewrite !andb_false_r. unfold bind at 1, ret at 1. cbn [negb]. unfold bind at 1, ret at 1.
  destruct (put_end e fkey t s1 He (file_key_not_side ns n)) as (s' & -> & Hp' & Hs & Hkeep);
    [destruct Hcur as (h & Hh & _); unfold hash; by rewrite Hc1, Hh|done|]. rewrite Hc1 in Hkeep.
  exists s'. split_and!; try done; [|by apply touched_current].
  eapply (represents_current (contents (db s))); try done. cbn [map] in *. by rewrite Hv.
Qed.

(** The list tells whether there is an older version. *)
Lemma previous_ok e vs s :
  entry_ok e -> listed (contents (db s)) vs -> pending s = [] -> exists s',
  previous net (e_file e) s = Ok (if bool_decide (version e ∈ vs) then Some (vkey (version e)) else None, s') /\
  contents (db s') = contents (db s) /\ pending s' = [].
Proof using H0 Hnet Hok.
  intros He (z & Hz & _ & Hvs) Hp. pose proof (entry_named _ He) as Hn. unfold previous. unfold bind at 1, lift at 1.
  rewrite (list_key_ok ns n Hok _ Hn). cbn [obind]. change (File.version (e_file e)) with (version e). unfold bind at 1.
  destruct (command_any (ZRANGEBYSCORE lkey (version e) (version e)) s Hp) as (r & s' & -> & (Hc & Hr) & Hp').
  rewrite Hz in Hr. destruct Hr as (l & Hl & ->). exists s'. destruct (bool_decide_reflect (version e ∈ vs)) as [Hin|Hni].
  - apply Hvs in Hin as [x Hx]. destruct l as [|p l].
    { apply Permutation_nil_l, eq_sym in Hl. exfalso. eapply (not_elem_of_nil (x, version e)). rewrite <- Hl.
      apply list_elem_of_filter. split; [cbn; lia|]. by apply elem_of_map_to_list. }
    cbn [map]. unfold bind, lift. rewrite (versioned_key_ok ns n Hok _ _ Hn) by (by apply entry_in_int). by split_and!.
  - destruct l as [|[x v] l]; [by split_and!|]. exfalso. apply Hni, Hvs. exists x.
    assert ((x, v) ∈ filter (fun p : string * Z => version e <= snd p <= version e) (map_to_list z)) as Hx.
    { rewrite <- Hl. apply elem_of_cons. by left. }
    apply list_elem_of_filter in Hx as [Hv Hx%elem_of_map_to_list]. cbn in Hv. by replace (version e) with v by lia.
Qed.

(** Replacing the record of an older version. *)
Lemma represents_replaced m m' e e0 old :
  entry_ok e -> represents m (e0 :: old) -> version e < version e0 -> saved m' (vkey (version e)) e ->
  (forall k, k <> vkey (version e) -> ~ side_key k -> m' !! k = m !! k) -> version e ∈ map version old ->
  represents m' (e0 :: map (fun x => if version x =? version e then e else x) old).
Proof using.
  intros He (Hes & Hsort & (Hcur & Hold & Hl) & Hno) Hlt Hs Hkeep Hin. inversion Hes as [|? ? He0 Hes']; subst.
  set (g := fun x => if version x =? version e then e else x).
  assert (map version (map g old) = map version old) as Hvs.
  { rewrite map_map. apply map_ext. intros x. unfold g. by destruct (Z.eqb_spec (version x) (version e)). }
  assert (forall v, v <> version e -> m' !! vkey v = m !! vkey v) as Hv.
  { intros v Hne. apply Hkeep; [by intros (_ & _ & ?)%genVersionedFileKey_inj|apply versioned_key_not_side]. }
  split; [|split; [|split; [split_and!|]]].
  - constructor; [done|]. apply Forall_map. eapply Forall_impl; [exact Hes'|]. intros x Hx. cbn. unfold g. by case_match.
  - cbn [map]. by rewrite Hvs.
  - eapply saved_ext; [|exact Hcur]. apply Hkeep; [apply file_not_versioned|apply file_key_not_side].
  - apply Forall_map. eapply Forall_impl; [exact Hold|]. intros x Hx. cbn in *. unfold g.
    destruct (Z.eqb_spec (version x) (version e)) as [E|E]; [exact Hs|]. eapply saved_ext; [by apply Hv|exact Hx].
  - rewrite Hvs. eapply listed_ext; [|exact Hl]. apply Hkeep; [apply list_key_not_versioned|apply list_key_not_side].
  - cbn [map tail]. rewrite Hvs. intros v Hni. rewrite Hv by (by intros ->). by apply Hno.
Qed.

Lemma put_older e e0 old s :
  entry_ok e -> represents (contents (db s)) (e0 :: old) -> version e < version e0 -> pending s = [] -> exists s',
  putMeta net false (e_file e) s = Ok (bool_decide (version e ∈ map version old), s') /\ pending s' = [] /\
  represents (contents (db s')) (if bool_decide (version e ∈ map version old)
    then e0 :: map (fun x => if version x =? version e then e else x) old else e0 :: old) /\
  touched (contents (db s)) (contents (db s')).
Proof using H0 Hnet Hok.
  intros He Hr Hlt Hp. destruct (put_begin false e _ s He Hr Hp) as (t & s1 & -> & Hc1 & Hp1). rewrite <- Hc1 in Hr.
  pose proof Hr as (Hes & _ & (_ & Hold & Hl) & _). inversion Hes as [|? ? (_ & _ & Hpos) _]; subst.
  unfold put_version. cbn [current]. change (File.version (e_file e)) with (version e).
  destruct (Z.eqb_spec (version e0) (-1)); [lia|]. destruct (Z.ltb_spec (version e0) (version e)); [lia|].
  destruct (Z.ltb_spec (version e) (version e0)); [|lia]. cbn [negb andb]. unfold bind at 1, ret at 1. cbn [negb]. unfold bind at 1.
  destruct (previous_ok e (map version old) s1 He Hl Hp1) as (s2 & -> & Hc2 & Hp2). rewrite <- Hc2, <- Hc1 in *.
  destruct (bool_decide_reflect (version e ∈ map version old)) as [Hin|Hni].
  - pose proof Hin as (e' & Ev & He')%list_elem_of_fmap.
    destruct (put_end e (vkey (version e)) t s2 He (versioned_key_not_side ns n _)) as (s' & -> & Hp' & Hs & Hkeep).
    { rewrite Forall_forall in Hold. destruct (Hold e' He') as (h & Hh & _). rewrite <- Ev in Hh. unfold hash. by rewrite Hh. }
    { done. }
    exists s'. split_and!; try done; [by eapply represents_replaced|]. intros k Ho Hsd. apply Hkeep; [|done]. intros ->. apply Ho.
    right. left. by eexists.
  - exists s2. by split_and!.
Qed.

(** Every case together. *)
Lemma putMeta_history e hist s :
  entry_ok e -> represents (contents (db s)) hist -> pending s = [] -> hist = [] \/ version e <= current hist + 1 -> exists s',
  putMeta net false (e_file e) s = Ok (bool_decide (is_Some (spec_put e hist)), s') /\ pending s' = [] /\
  represents (contents (db s')) (default hist (spec_put e hist)) /\ touched (contents (db s)) (contents (db s')).
Proof using H0 Hnet Hok.
  intros He Hr Hp Hv. destruct hist as [|e0 old].
  { destruct (put_first e s false He Hr Hp) as (s' & -> & ?). by exists s'. }
  destruct Hv as [|Hv]; [done|]. cbn [current spec_put] in *. destruct (Z.ltb_spec (version e0) (version e)).
  { destruct (put_newer e e0 old s He Hr ltac:(lia) Hp) as (s' & -> & ?). by exists s'. }
  destruct (Z.eqb_spec (version e) (version e0)).
  { destruct (put_same e e0 old s He Hr ltac:(lia) Hp) as (s' & -> & ?). by exists s'. }
  destruct (put_older e e0 old s He Hr ltac:(lia) Hp) as (s' & -> & Hs'). exists s'. by destruct (bool_decide (version e ∈ map version old)).
Qed.

(** ** Deleting a version *)

Lemma scores_put_zset m k z : scores (put_zset m k z) k = Some z.
Proof using.
  unfold scores, put_zset. case_decide as E; [by rewrite lookup_delete_eq, E|by rewrite lookup_insert_eq].
Qed.

Lemma put_zset_ne m k z k' : k <> k' -> put_zset m k z !! k' = m !! k'.
Proof using. intros Hne. unfold put_zset. case_decide; [by rewrite lookup_delete_ne|by rewrite lookup_insert_ne]. Qed.

(** Taking one version off the list. *)
Lemma listed_remove m vs v : listed m vs ->
  listed (snd (run m (ZREMRANGEBYSCORE lkey v v))) (filter (fun w => w <> v) vs) /\
  (forall k, k <> lkey -> snd (run m (ZREMRANGEBYSCORE lkey v v)) !! k = m !! k).
Proof using.
  intros (z & Hz & Ha & Hvs). cbn [run]. rewrite Hz. cbn [snd]. split; [|intros k Hk; by apply put_zset_ne].
  exists (filter (fun p => ~ (v <= snd p <= v)) z). split; [apply scores_put_zset|]. split.
  - intros x w [Hx _]%map_lookup_filter_Some. by apply (Ha x w).
  - intros w. rewrite list_elem_of_filter, Hvs. split.
    + intros [Hne [x Hx]]. exists x. apply map_lookup_filter_Some. split; [done|]. cbn. lia.
    + intros [x [Hx Hn]%map_lookup_filter_Some]. cbn in Hn. split; [lia|by exists x].
Qed.

Lemma listed_card m vs : listed m vs -> exists z : gmap string Z,
  run m (ZCARD lkey) = (RInteger (Z.of_nat (size z)), m) /\ (Z.of_nat (size z) = 0 <-> vs = []).
Proof using.
  intros (z & Hz & _ & Hvs). exists z. cbn [run]. rewrite Hz. split; [done|].
  split; intros E.
  - assert (z = ∅) as -> by (apply map_size_empty_iff; lia). destruct vs as [|v vs]; [done|].
    assert (exists x, (∅ : gmap string Z) !! x = Some v) as [x Hx] by (apply Hvs, elem_of_cons; by left). by rewrite lookup_empty in Hx.
  - subst vs. assert (z = ∅) as ->; [|by rewrite map_size_empty]. apply map_eq. intros x. rewrite lookup_empty.
    destruct (z !! x) as [v|] eqn:E; [|done]. exfalso. apply (not_elem_of_nil v), Hvs. by exists x.
Qed.

(** The first member in reverse order is that of the newest of the older versions. *)
Lemma listed_first m v vs r m' :
  listed m (v :: vs) -> Forall (fun w => w < v) vs -> serves m (ZREVRANGE_FIRST lkey) r m' ->
  m' = m /\ exists x y, r = RArray [Some x; Some y] /\ atoi x = v.
Proof using.
  intros (z & Hz & Ha & Hvs) Hall [-> Hr]. split; [done|]. rewrite Hz in Hr.
  assert (exists x, z !! x = Some v) as [x0 Hx0] by (apply Hvs, elem_of_cons; by left).
  destruct Hr as [[-> _]|(x & w & Hx & Hmax & ->)]; [by rewrite lookup_empty in Hx0|].
  exists x, (pretty w). split; [done|]. rewrite (Ha x w Hx). pose proof (Hmax x0 v Hx0) as Hge. cbn in Hge.
  assert (w ∈ v :: vs) as [->|Hw]%elem_of_cons by (apply Hvs; by exists x); [done|].
  rewrite Forall_forall in Hall. specialize (Hall w Hw). lia.
Qed.

Lemma sorted_head e old : StronglySorted Z.gt (map version (e :: old)) -> Forall (fun w => w < version e) (map version old).
Proof using. cbn. intros [_ Hall]%StronglySorted_inv. eapply Forall_impl; [exact Hall|]. cbn. lia. Qed.

Lemma filter_versions v l : map version (filter (fun e => version e <> v) l) = filter (fun w => w <> v) (map version l).
Proof using.
  induction l as [|e l IH]; [done|]. cbn [map]. destruct (decide (version e = v)) as [E|E].
  - rewrite !filter_cons_False by (cbn; tauto). done.
  - rewrite !filter_cons_True by done. cbn [map]. by rewrite IH.
Qed.

Lemma filter_newer v l : Forall (fun w => w < v) (map version l) -> filter (fun e => version e <> v) l = l.
Proof using.
  intros HF. apply filter_all. apply Forall_map in HF. eapply Forall_impl; [exact HF|]. cbn. lia.
Qed.

Lemma sorted_filter (P : Z -> Prop) `{forall z, Decision (P z)} l : StronglySorted Z.gt l -> StronglySorted Z.gt (filter P l).
Proof using.
  induction 1 as [|z l Hs IH Hall]; [constructor|]. destruct (decide (P z)).
  - rewrite filter_cons_True by done. constructor; [done|]. apply Forall_forall. intros x [_ Hx]%list_elem_of_filter. rewrite Forall_forall in Hall. by apply Hall.
  - by rewrite filter_cons_False.
Qed.

(** What is left of the history when a version is deleted. *)
Definition spec_delete (v : Z) (hist : list entry) : list entry := filter (fun e => version e <> v) hist.

(** The current version is replaced by the one before. *)
Lemma represents_promoted m e e1 old h :
  represents m (e :: e1 :: old) -> m !! vkey (version e1) = Some (VHash h) ->
  let m1 := <[fkey := VHash h]> (delete (vkey (version e1)) m) in
  let m2 := snd (run m1 (ZREMRANGEBYSCORE lkey (version e1) (version e1))) in
  represents m2 (e1 :: old) /\ touched m m2.
Proof using.
  intros (Hes & Hsort & (_ & Hold & Hl) & Hno) Hh m1 m2. inversion Hes as [|? ? _ Hes1]; subst. inversion Hes1 as [|? ? He1 Hes']; subst.
  inversion Hold as [|? ? (h' & Hh' & Hst) Hold']; subst. rewrite Hh in Hh'. injection Hh' as <-.
  cbn [map] in Hsort. apply StronglySorted_inv in Hsort as [Hsort _]. pose proof (sorted_head e1 old Hsort) as Hnew.
  assert (forall k, k <> fkey -> k <> vkey (version e1) -> m1 !! k = m !! k) as Hm1.
  { intros k Hk1 Hk2. unfold m1. by rewrite lookup_insert_ne, lookup_delete_ne by congruence. }
  assert (listed m1 (map version (e1 :: old))) as Hl1.
  { eapply listed_ext; [|exact Hl]. apply Hm1; [apply list_key_not_file|apply list_key_not_versioned]. }
  destruct (listed_remove _ _ (version e1) Hl1) as [Hl2 Hkeep2]. fold m2 in Hl2, Hkeep2.
  rewrite <- filter_versions, filter_cons_False, filter_newer in Hl2 by (done || (cbn; tauto)).
  assert (forall v, v <> version e1 -> m2 !! vkey v = m !! vkey v) as Hv.
  { intros v Hne. rewrite Hkeep2 by (intros E; symmetry in E; by apply list_key_not_versioned in E).
    apply Hm1; [intros E; symmetry in E; by apply file_not_versioned in E|by intros (_ & _ & ?)%genVersionedFileKey_inj]. }
  split; [split; [done|]; split; [done|]; split; [split_and!|]|].
  - exists h. split; [|done]. rewrite Hkeep2 by (intros E; symmetry in E; by apply list_key_not_file in E). apply lookup_insert_eq.
  - apply Forall_forall. intros e' He'. rewrite Forall_forall in Hold'. rewrite Forall_forall in Hnew. eapply saved_ext; [|by apply Hold']. apply Hv.
    assert (version e' ∈ map version old) as Hin by (apply list_elem_of_fmap; by exists e'). specialize (Hnew _ Hin). lia.
  - done.
  - cbn [map tail]. intros v Hni. destruct (decide (v = version e1)) as [->|Hne]; [|rewrite Hv by done; apply Hno; cbn [map tail]; by apply not_elem_of_cons].
    rewrite Hkeep2 by (intros E; symmetry in E; by apply list_key_not_versioned in E). unfold m1.
    rewrite lookup_insert_ne by apply file_not_versioned. apply lookup_delete_eq.
  - intros k Ho Hs. rewrite Hkeep2 by (intros ->; apply Ho; by right; right). apply Hm1; intros ->; apply Ho; [by left|right; left; by eexists].
Qed.

(** An older version is removed. *)
Lemma represents_removed m e0 old v :
  represents m (e0 :: old) -> v <> version e0 ->
  let m1 := snd (run m (ZREMRANGEBYSCORE lkey v v)) in
  let m2 := delete (vkey v) m1 in
  represents m2 (spec_delete v (e0 :: old)) /\ touched m m2.
Proof using.
  intros (Hes & Hsort & (Hcur & Hold & Hl) & Hno) Hne m1 m2. inversion Hes as [|? ? He0 Hes']; subst.
  destruct (listed_remove _ _ v Hl) as [Hl1 Hkeep1]. fold m1 in Hl1, Hkeep1.
  assert (forall k, k <> lkey -> k <> vkey v -> m2 !! k = m !! k) as Hkeep.
  { intros k Hk1 Hk2. unfold m2. rewrite lookup_delete_ne by congruence. by apply Hkeep1. }
  assert (spec_delete v (e0 :: old) = e0 :: filter (fun e => version e <> v) old) as ->.
  { unfold spec_delete. by rewrite filter_cons_True by congruence. }
  assert (forall w, w <> v -> m2 !! vkey w = m !! vkey w) as Hv.
  { intros w Hw. apply Hkeep; [intros E; symmetry in E; by apply list_key_not_versioned in E|by intros (_ & _ & ?)%genVersionedFileKey_inj]. }
  split; [split; [|split; [|split; [split_and!|]]]|].
  - constructor; [done|]. apply Forall_forall. intros x [_ Hx]%list_elem_of_filter. rewrite Forall_forall in Hes'. by apply Hes'.
  - cbn [map] in *. rewrite filter_versions. apply StronglySorted_inv in Hsort as [Hs Hall]. constructor; [by apply sorted_filter|].
    apply Forall_forall. intros x [_ Hx]%list_elem_of_filter. rewrite Forall_forall in Hall. by apply Hall.
  - eapply saved_ext; [|exact Hcur]. apply Hkeep; [intros E; symmetry in E; by apply list_key_not_file in E|apply file_not_versioned].
  - apply Forall_forall. intros x [Hx1 Hx2]%list_elem_of_filter. rewrite Forall_forall in Hold. eapply saved_ext; [by apply Hv|by apply Hold].
  - rewrite filter_versions. eapply listed_ext; [|exact Hl1]. unfold m2. apply lookup_delete_ne. intros E. symmetry in E.
    by apply list_key_not_versioned in E.
  - cbn [map tail]. intros w Hni. rewrite filter_versions in Hni. destruct (decide (w = v)) as [->|Hw]; [apply lookup_delete_eq|].
    rewrite Hv by done. apply Hno. intros Hin. apply Hni, list_elem_of_filter. by split.
  - intros k Ho Hs. apply Hkeep; intros ->; apply Ho; [by right; right|right; left; by eexists].
Qed.

(** ** The last version *)

Lemma srem_effect m k x k' : k <> k' -> snd (run m (SREM k x)) !! k' = m !! k'.
Proof using. intros Hne. cbn. destruct (members m k); [|done]. by apply put_set_ne. Qed.

Lemma leave_directory_effect p x (d : D) k :
  k <> p -> k <> DIR_LIST_KEY -> contents (snd (leave_directory p x d)) !! k = contents d !! k.
Proof using H0.
  intros Hp Hd. unfold leave_directory.
  assert (contents (snd (exec d (SREM p x))) !! k = contents d !! k) as E1.
  { rewrite (proj2 (exec_run d (SREM p x) eq_refl)). by apply srem_effect. }
  destruct (exec d (SREM p x)) as [r d1]. cbn [snd] in E1.
  assert (contents (snd (exec d1 (SCARD p))) = contents d1) as E2 by (by rewrite (proj2 (exec_run d1 (SCARD p) eq_refl))).
  destruct (exec d1 (SCARD p)) as [v d2]. cbn [snd] in E2.
  assert (contents (snd (exec d2 (SREM DIR_LIST_KEY p))) !! k = contents d2 !! k) as E3.
  { rewrite (proj2 (exec_run d2 (SREM DIR_LIST_KEY p) eq_refl)). by apply srem_effect. }
  destruct r; cbn [snd]; try done; destruct v as [| |[]| | | |]; cbn [snd]; congruence.
Qed.

Lemma eval_answered f s : pending s = [] ->
  evalCommand net f s = Ok (Some (fst (f (db s))), mk_session (snd (f (db s))) (S (sent s)) []).
Proof using Hnet.
  intros Hp. unfold evalCommand, append, getReply, fetchReply, bind. rewrite Hp. destruct (f (db s)) as [r d]. by rewrite Hnet.
Qed.

Lemma delete_all_ok f t s :
  is_Some (contents (db s) !! fkey) -> pending s = [] -> exists f' s',
  delete_all net f fkey ("//pf_" +:+ t) s = Ok ((true, f'), s') /\ pending s' = [] /\ contents (db s') !! fkey = None /\
  (forall k, k <> fkey -> ~ side_key k -> contents (db s') !! k = contents (db s) !! k).
Proof using H0 Hnet.
  intros Hf Hp. unfold delete_all. unfold bind at 1.
  destruct (command_det (DEL fkey) s eq_refl Hp) as (s1 & -> & Hc1 & Hp1). cbn [run fst snd] in *.
  rewrite bool_decide_eq_true_2 by done. cbn [count positive Z.ltb Z.compare negb]. unfold bind at 1.
  assert (exists s2, (match genFileUuidKey (File.namespaceId (File.genUUID f)) (File.uuid (File.genUUID f)) with
    | Some k => let! _ := redisCommand net (DEL k) in ret tt | None => ret tt end) s1 = Ok (tt, s2) /\ pending s2 = [] /\
    (forall k, ~ side_key k -> contents (db s2) !! k = contents (db s1) !! k)) as (s2 & -> & Hp2 & Hk2).
  { destruct (genFileUuidKey _ _) as [k|] eqn:E; [|by exists s1].
    destruct (command_det (DEL k) s1 eq_refl Hp1) as (s2 & Hrun & Hc2 & Hp2). exists s2. unfold bind. rewrite Hrun. split; [done|].
    split; [done|]. intros k' Hk'. rewrite Hc2. cbn. apply lookup_delete_ne. intros <-. apply Hk'. left.
    unfold genFileUuidKey in E. case_match; [|done]. injection E as <-. by eexists. }
  unfold bind. change (c_str ("//pf_" +:+ t)) with ("//pf_" +:+ c_str t). rewrite eval_answered by done. do 2 eexists. split; [reflexivity|].
  split; [done|]. cbn [db].
  assert (forall k, ~ side_key k -> contents (snd (leave_directory ("//pf_" +:+ c_str t) fkey (db s2))) !! k = contents (db s1) !! k) as Hk3.
  { intros k Hk. rewrite leave_directory_effect; [by apply Hk2| |]; intros ->; apply Hk; [right; left; by eexists|by right; right]. }
  split.
  - rewrite Hk3 by apply file_key_not_side. rewrite Hc1. apply lookup_delete_eq.
  - intros k Hk Hs. rewrite Hk3, Hc1 by done. by apply lookup_delete_ne.
Qed.

(** The version before takes the place of the current one. *)
Lemma promote_ok f0 e e1 old s :
  named ns n f0 -> represents (contents (db s)) (e :: e1 :: old) -> pending s = [] -> File.version f0 = version e -> exists s',
  (let! v := promote net f0 fkey lkey in
   match v with Some v => unlist net f0 lkey (version e) v | None => ret (Done false) end) s = Ok (Done true, s') /\
  pending s' = [] /\ represents (contents (db s')) (e1 :: old) /\ touched (contents (db s)) (contents (db s')).
Proof using H0 Hnet Hok.
  intros Hf Hr Hp Hv. pose proof Hr as (Hes & Hsort & (_ & Hold & Hl) & _).
  inversion Hes as [|? ? _ Hes1]; subst. inversion Hes1 as [|? ? He1 _]; subst. inversion Hold as [|? ? (h & Hh & _) _]; subst.
  cbn [map] in Hsort. apply StronglySorted_inv in Hsort as [Hsort1 _]. pose proof (sorted_head e1 old Hsort1) as Hnew.
  unfold bind at 1. unfold promote. unfold bind at 1.
  destruct (command_any (ZREVRANGE_FIRST lkey) s Hp) as (r & s1 & -> & Hserv & Hp1).
  destruct (listed_first _ _ _ _ _ Hl Hnew Hserv) as [Hc1 (x & y & -> & Hx)]. rewrite Hx. unfold bind at 1. unfold lift.
  rewrite (versioned_key_ok ns n Hok _ _ Hf) by (by apply entry_in_int). cbn [obind]. unfold bind at 1.
  destruct (command_det (RENAME (vkey (version e1)) fkey) s1 eq_refl Hp1) as (s2 & -> & Hc2 & Hp2). rewrite Hc1 in *.
  cbn [run] in Hc2. rewrite Hh in Hc2. cbn [run]. rewrite Hh. cbn [fst snd] in *. rewrite bool_decide_eq_true_2 by done.
  unfold ret at 1. unfold unlist. destruct (Z.eqb_spec (version e1) (-1)) as [E|_]; [destruct He1 as (_ & _ & ?); lia|].
  unfold bind at 1. rewrite try_answered by done. destruct (command_det (ZREMRANGEBYSCORE lkey (version e1) (version e1)) s2 eq_refl Hp2) as (s3 & -> & Hc3 & Hp3).
  rewrite Hv, Z.eqb_refl. rewrite Hc2 in Hc3. exists s3. split; [done|]. split; [done|]. rewrite Hc3. by apply (represents_promoted _ e).
Qed.

Lemma unlist_ok f0 e0 old v s :
  named ns n f0 -> represents (contents (db s)) (e0 :: old) -> pending s = [] -> File.version f0 = v -> v <> version e0 ->
  0 <= v -> in_int v -> exists s',
  unlist net f0 lkey (version e0) v s = Ok (Done true, s') /\
  pending s' = [] /\ represents (contents (db s')) (spec_delete v (e0 :: old)) /\ touched (contents (db s)) (contents (db s')).
Proof using H0 Hnet Hok.
  intros Hf Hr Hp Hv Hne Hpos Hi. unfold unlist. destruct (Z.eqb_spec v (-1)); [lia|]. unfold bind at 1.
  rewrite try_answered by done. destruct (command_det (ZREMRANGEBYSCORE lkey v v) s eq_refl Hp) as (s1 & -> & Hc1 & Hp1). rewrite Hv.
  destruct (Z.eqb_spec (version e0) v); [congruence|]. unfold bind at 1. unfold lift.
  rewrite (versioned_key_ok ns n Hok _ _ Hf) by done. cbn [obind]. unfold bind at 1.
  rewrite try_answered by done. destruct (command_det (DEL (vkey v)) s1 eq_refl Hp1) as (s2 & -> & Hc2 & Hp2). exists s2. split; [done|]. split; [done|].
  rewrite Hc2, Hc1. by apply represents_removed.
Qed.

Lemma same_version e0 old e :
  StronglySorted Z.gt (map version (e0 :: old)) -> e ∈ e0 :: old -> version e0 = version e -> e = e0.
Proof using.
  intros Hs [->|He]%elem_of_cons E; [done|]. apply sorted_head in Hs. rewrite Forall_forall in Hs.
  assert (version e ∈ map version old) as Hin by (apply list_elem_of_fmap; by exists e). specialize (Hs _ Hin). lia.
Qed.

(** What follows when a version is deleted, and what is left then. *)
Lemma delete_version_ok f0 hist e s :
  named ns n f0 -> represents (contents (db s)) hist -> pending s = [] -> File.version f0 = version e -> e ∈ hist ->
  exists next s', delete_version net f0 fkey lkey s = Ok (next, s') /\ pending s' = [] /\
  match next with
  | Done ok => ok = true /\ represents (contents (db s')) (spec_delete (version e) hist) /\ touched (contents (db s)) (contents (db s'))
  | DeleteAll => hist = [e] /\ contents (db s') = contents (db s)
  end.
Proof using H0 Hnet Hok.
  intros Hf Hr Hp Hv He. pose proof Hr as (Hes & Hsort & Hm & Hno). destruct hist as [|e0 old]; [by apply elem_of_nil in He|].
  destruct Hm as (Hcur & Hold & Hl). assert (entry_ok e) as Hee by (rewrite Forall_forall in Hes; by apply Hes).
  inversion Hes as [|? ? He0 Hes']; subst. unfold delete_version. unfold bind at 1.
  destruct (command_det (HGET fkey "ver") s eq_refl Hp) as (s1 & -> & Hc1 & Hp1). rewrite (saved_version _ _ _ Hcur) in *. cbn [fst snd] in *.
  pose proof (copy_int (version e0) (entry_in_int _ He0)) as Hcp. unfold bind at 1. unfold lift at 1.
  destruct (copy_bytes 4 (raw_int (version e0))) as [| |b]; [done..|]. cbn [obind] in *. injection Hcp as ->. unfold bind at 1.
  rewrite try_answered by done. destruct (command_det (ZCARD lkey) s1 eq_refl Hp1) as (s2 & -> & Hc2 & Hp2). rewrite Hc1 in *.
  destruct (listed_card _ _ Hl) as (z & Ecard & Hz). rewrite Ecard in *. cbn [fst snd] in *. rewrite Hv.
  rewrite <- Hc2 in Hr. destruct (Z.eqb_spec (version e0) (version e)) as [E|E].
  - rewrite (same_version e0 old e Hsort He E) in *. destruct (Z.ltb_spec 0 (Z.of_nat (size z))) as [Hpos|Hzero].
    + destruct old as [|e1 old]; [by rewrite (proj2 Hz eq_refl) in Hpos|].
      destruct (promote_ok f0 e0 e1 old s2 Hf Hr Hp2 Hv) as (s3 & -> & Hp3 & Hr3 & Ht3). do 2 eexists. split; [reflexivity|].
      split; [done|]. split; [done|]. rewrite <- Hc2. split; [|done]. unfold spec_delete.
      rewrite filter_cons_False, filter_newer; [done|by apply sorted_head|cbn; tauto].
    + do 2 eexists. split; [reflexivity|]. split; [done|]. split; [|done]. f_equal.
      destruct old as [|e1 old]; [done|]. assert (Z.of_nat (size z) = 0) as E0 by lia. apply Hz in E0. done.
  - destruct (Z.eqb_spec (Z.of_nat (size z)) 0) as [E0|E0].
    { apply Hz in E0. destruct old; [|done]. apply elem_of_cons in He as [->|He]; [done|by apply elem_of_nil in He]. }
    destruct (unlist_ok f0 e0 old (version e) s2 Hf Hr Hp2 Hv) as (s3 & -> & Hp3 & Hr3 & Ht3);
      [congruence|apply Hee|by apply entry_in_int|]. do 2 eexists. split; [reflexivity|]. rewrite <- Hc2. by split_and!.
Qed.

(** What is read is of the same file and version. *)
Lemma view_named f0 e : named ns n f0 -> named ns n (view f0 (e_file e) (e_ids e) (e_cs e) (e_bad e)) /\
  File.version (view f0 (e_file e) (e_ids e) (e_cs e) (e_bad e)) = version e.
Proof using. intros [Hn Hns]. done. Qed.

Lemma asked_none_delete v hist : 0 <= v -> asked v hist = None -> spec_delete v hist = hist.
Proof using.
  intros Hv Ha. unfold asked in Ha. destruct (Z.eqb_spec v (-1)); [lia|]. apply find_version_none in Ha.
  apply filter_all. apply Forall_forall. intros e He E. apply Ha, list_elem_of_fmap. by exists e.
Qed.

Lemma touched_trans m1 m2 m3 : touched m1 m2 -> touched m2 m3 -> touched m1 m3.
Proof using. intros H12 H23 k Ho Hs. by rewrite H23, H12. Qed.

Lemma represents_gone m m' e :
  represents m [e] -> m' !! fkey = None -> (forall k, k <> fkey -> ~ side_key k -> m' !! k = m !! k) -> represents m' [].
Proof using.
  intros (_ & _ & (_ & _ & Hl) & Hno) Hf Hkeep. split; [done|]. split; [constructor|]. split; [split; [done|]|].
  - eapply listed_ext; [|exact Hl]. apply Hkeep; [apply list_key_not_file|apply list_key_not_side].
  - intros v Hv. rewrite Hkeep; [by apply Hno|intros E; symmetry in E; by apply file_not_versioned in E|apply versioned_key_not_side].
Qed.

(** Deleting one version. *)
Lemma deleteMeta_version f0 hist now s :
  named ns n f0 -> in_int (File.version f0) -> 0 <= File.version f0 -> File.uniqueBlocks f0 = [] -> File.duplicateBlocks f0 = [] ->
  represents (contents (db s)) hist -> pending s = [] -> exists f' s',
  deleteMeta net false f0 now s = Ok ((bool_decide (is_Some (asked (File.version f0) hist)), f'), s') /\ pending s' = [] /\
  represents (contents (db s')) (spec_delete (File.version f0) hist) /\ touched (contents (db s)) (contents (db s')).
Proof using H0 H4 Hnet Hok.
  intros Hf Hi Hpos Hu Hd Hr Hp. destruct (prefix_ok ns n) as [t Ht]. unfold deleteMeta. unfold bind at 1. unfold lift at 1.
  rewrite (file_key_ok ns n Hok _ Hf). cbn [obind]. unfold bind at 1. unfold lift at 1. rewrite (list_key_ok ns n Hok _ Hf). cbn [obind].
  unfold bind at 1. unfold lift at 1. rewrite (c_str_file_key ns n Hok), Ht. cbn [obind]. unfold bind at 1.
  destruct (getMeta_history f0 hist s Hf Hi Hu Hd Hr Hp) as (s1 & -> & Hc1 & Hp1). rewrite <- Hc1 in *.
  destruct (asked (File.version f0) hist) as [e|] eqn:Ea.
  2:{ do 2 eexists. split; [reflexivity|]. rewrite (asked_none_delete _ _ Hpos Ea). by split_and!. }
  cbn [negb]. destruct (Z.eqb_spec (File.version f0) (-1)) as [|_]; [lia|]. cbn [negb andb]. rewrite bool_decide_eq_true_2 by done.
  destruct (view_named f0 e Hf) as [Hvn Hvv]. set (f1 := view f0 (e_file e) (e_ids e) (e_cs e) (e_bad e)) in *.
  assert (e ∈ hist /\ version e = File.version f0) as [He Hve].
  { unfold asked in Ea. destruct (Z.eqb_spec (File.version f0) (-1)); [lia|]. by apply find_version_some. }
  unfold bind at 1. destruct (delete_version_ok f1 hist e s1 Hvn Hr Hp1 Hvv He) as (next & s2 & -> & Hp2 & Hnext). rewrite <- Hve.
  destruct next as [ok|].
  - destruct Hnext as (-> & Hr2 & Ht2). do 2 eexists. split; [reflexivity|]. by split_and!.
  - destruct Hnext as [-> Hc2]. rewrite <- Hc2 in *.
    destruct (delete_all_ok f1 t s2) as (f' & s3 & -> & Hp3 & Hgone & Hkeep); [|done|].
    { destruct Hr as (_ & _ & ((h & Hh & _) & _) & _). by eexists. }
    do 2 eexists. split; [reflexivity|]. split; [done|]. split; [|by apply touched_current].
    unfold spec_delete. rewrite filter_cons_False by (cbn; tauto). by eapply represents_gone.
Qed.

(** ** The deletion mark *)

Definition marker (f0 : File.t) (e : entry) (now : Z) : entry :=
  mk_entry (as_deleted (view f0 (e_file e) (e_ids e) (e_cs e) (e_bad e)) now) [] [] [].

(** Files without a coding state can be marked, as long as there is a next version. *)
Lemma marker_ok f0 e now :
  named ns n f0 -> entry_ok e -> in_long now -> version e < 2147483647 ->
  CodingMeta.codingStateSize (File.codingMeta (e_file e)) = 0 ->
  in_int (CodingMeta.codingStateSize (File.staged_codingMeta (File.staged f0))) ->
  entry_ok (marker f0 e now) /\ version (marker f0 e now) = version e + 1.
Proof using.
  intros Hf (Hs & Hns & Hpos) Hnow Hv Hcss Hsg. pose proof (ok_version _ _ _ _ _ Hs) as [Hvi _].
  assert (version (marker f0 e now) = version e + 1) as Hver.
  { unfold version in *. cbn. apply i32_small. unfold in_int in *. lia. }
  split; [|done]. split; [|split; [apply Hf|rewrite Hver; lia]].
  destruct (ok_staged _ _ _ _ _ Hs) as (Hg1 & (Hg2 & Hg3 & Hg4 & Hg5 & Hg6 & _) & Hg7).
  destruct (ok_coding _ _ _ _ _ Hs) as (Hc1 & Hc2 & Hc3 & Hc4 & Hc5 & Hc6). destruct (ok_times _ _ _ _ _ Hs) as (Ht1 & Ht2 & Ht3 & Ht4).
  constructor.
  - apply Hf.
  - apply Hs.
  - apply Hs.
  - rewrite (proj2 Hf : File.namespaceId (e_file (marker f0 e now)) = ns). by rewrite <- Hns; apply Hs.
  - unfold in_ulong. cbn. lia.
  - change (File.version (e_file (marker f0 e now))) with (version (marker f0 e now)). rewrite Hver. unfold in_int, version in *. lia.
  - by split_and!.
  - split; [|done]. apply Forall_replicate. lia.
  - unfold in_int. cbn. lia.
  - exact (conj Hc1 (conj Hc2 (conj Hc3 (conj Hc4 (conj Hc5 Hc6))))).
  - by left.
  - apply Hs.
  - exact (conj Hg1 (conj (conj Hg2 (conj Hg3 (conj Hg4 (conj Hg5 (conj Hg6 Hsg))))) Hg7)).
  - done.
  - unfold chunks_ok. cbn. split_and!; try done; unfold in_int; lia.
  - apply Hs.
Qed.

Lemma deleteMeta_mark f0 hist now s :
  named ns n f0 -> File.version f0 = -1 -> File.uniqueBlocks f0 = [] -> File.duplicateBlocks f0 = [] -> in_long now ->
  in_int (CodingMeta.codingStateSize (File.staged_codingMeta (File.staged f0))) ->
  (forall e, head hist = Some e -> version e < 2147483647 /\ CodingMeta.codingStateSize (File.codingMeta (e_file e)) = 0) ->
  represents (contents (db s)) hist -> pending s = [] -> exists f' s',
  deleteMeta net false f0 now s = Ok ((bool_decide (hist <> []), f'), s') /\ pending s' = [] /\
  represents (contents (db s')) (match hist with [] => [] | e :: _ => marker f0 e now :: hist end) /\
  touched (contents (db s)) (contents (db s')).
Proof using H0 H4 Hnet Hok.
  intros Hf Hv Hu Hd Hnow Hsg Hhead Hr Hp. destruct (prefix_ok ns n) as [t Ht]. unfold deleteMeta. unfold bind at 1. unfold lift at 1.
  rewrite (file_key_ok ns n Hok _ Hf). cbn [obind]. unfold bind at 1. unfold lift at 1. rewrite (list_key_ok ns n Hok _ Hf). cbn [obind].
  unfold bind at 1. unfold lift at 1. rewrite (c_str_file_key ns n Hok), Ht. cbn [obind]. unfold bind at 1.
  destruct (getMeta_history f0 hist s Hf ltac:(rewrite Hv; unfold in_int; lia) Hu Hd Hr Hp) as (s1 & -> & Hc1 & Hp1).
  rewrite Hv. unfold asked. cbn [Z.eqb Pos.eqb]. rewrite <- Hc1 in *. destruct hist as [|e old]; cbn [head].
  { exists f0, s1. by split_and!. }
  destruct (Hhead e eq_refl) as [Hlt Hcss]. pose proof (proj1 Hr) as Hes. inversion Hes as [|? ? He _]; subst.
  destruct (marker_ok f0 e now Hf He Hnow Hlt Hcss Hsg) as [Hm Hmv]. cbn [negb andb]. unfold bind at 1.
  destruct (put_newer (marker f0 e now) e old s1 Hm Hr Hmv Hp1) as (s2 & Hput & Hp2 & Hr2 & Ht2). cbn [marker e_file] in Hput. rewrite Hput.
  do 2 eexists. split; [reflexivity|]. by split_and!.
Qed.

(** * The store as a history *)

(** Storing a record, and deleting the current version or a given one. *)
Inductive op := Put (e : entry) | Delete (f0 : File.t) (now : Z).

Definition perform (o : op) : M D bool :=
  match o with
  | Put e => putMeta net false (e_file e)
  | Delete f0 now => let! (ok, _) := deleteMeta net false f0 now in ret ok
  end.

Definition spec_op (o : op) (hist : list entry) : bool * list entry :=
  match o with
  | Put e => (bool_decide (is_Some (spec_put e hist)), default hist (spec_put e hist))
  | Delete f0 now =>
      if File.version f0 =? -1 then (bool_decide (hist <> []), match hist with [] => [] | e :: _ => marker f0 e now :: hist end)
      else (bool_decide (is_Some (asked (File.version f0) hist)), spec_delete (File.version f0) hist)
  end.

(** A file with its name and the version that is asked for, or -1 for the newest. *)
Definition request (f0 : File.t) : Prop :=
  named ns n f0 /\ in_int (File.version f0) /\ -1 <= File.version f0 /\ File.uniqueBlocks f0 = [] /\ File.duplicateBlocks f0 = [].

Definition op_ok (hist : list entry) (o : op) : Prop :=
  match o with
  | Put e => entry_ok e /\ (hist = [] \/ version e <= current hist + 1)
  | Delete f0 now =>
      request f0 /\ in_long now /\ in_int (CodingMeta.codingStateSize (File.staged_codingMeta (File.staged f0))) /\
      (forall e, head hist = Some e -> version e < 2147483647 /\ CodingMeta.codingStateSize (File.codingMeta (e_file e)) = 0)
  end.

Lemma op_refines o hist s :
  op_ok hist o -> represents (contents (db s)) hist -> pending s = [] -> exists s',
  perform o s = Ok (fst (spec_op o hist), s') /\ pending s' = [] /\ represents (contents (db s')) (snd (spec_op o hist)) /\
  touched (contents (db s)) (contents (db s')).
Proof using H0 H4 Hnet Hok.
  intros Ho Hr Hp. destruct o as [e|f0 now]; cbn [perform spec_op op_ok fst snd] in *.
  { destruct Ho as [He Hv]. by apply putMeta_history. }
  destruct Ho as ((Hf & Hi & Hge & Hu & Hd) & Hnow & Hsg & Hhead). unfold bind. destruct (Z.eqb_spec (File.version f0) (-1)) as [E|E].
  - destruct (deleteMeta_mark f0 hist now s Hf E Hu Hd Hnow Hsg Hhead Hr Hp) as (f' & s' & -> & ? & ? & ?). exists s'. by split_and!.
  - destruct (deleteMeta_version f0 hist now s Hf Hi ltac:(lia) Hu Hd Hr Hp) as (f' & s' & -> & ? & ? & ?). exists s'. by split_and!.
Qed.

(** Sequences of operations, with their results. *)
Fixpoint perform_all (l : list op) : M D (list bool) :=
  match l with
  | [] => ret []
  | o :: l => let! r := perform o in let! rs := perform_all l in ret (r :: rs)
  end.

Fixpoint spec_all (l : list op) (hist : list entry) : list bool * list entry :=
  match l with
  | [] => ([], hist)
  | o :: l => let '(rs, h) := spec_all l (snd (spec_op o hist)) in (fst (spec_op o hist) :: rs, h)
  end.

Fixpoint ops_ok (hist : list entry) (l : list op) : Prop :=
  match l with [] => True | o :: l => op_ok hist o /\ ops_ok (snd (spec_op o hist)) l end.

Lemma ops_refine l hist s :
  ops_ok hist l -> represents (contents (db s)) hist -> pending s = [] -> exists s',
  perform_all l s = Ok (fst (spec_all l hist), s') /\ pending s' = [] /\ represents (contents (db s')) (snd (spec_all l hist)) /\
  touched (contents (db s)) (contents (db s')).
Proof using H0 H4 Hnet Hok.
  revert hist s. induction l as [|o l IH]; intros hist s Hl Hr Hp; [by exists s|]. destruct Hl as [Ho Hl]. cbn [perform_all spec_all].
  unfold bind at 1. destruct (op_refines o hist s Ho Hr Hp) as (s1 & -> & Hp1 & Hr1 & Ht1).
  destruct (IH _ s1 Hl Hr1 Hp1) as (s2 & E & Hp2 & Hr2 & Ht2). unfold bind. rewrite E. exists s2.
  destruct (spec_all l (snd (spec_op o hist))) as [rs h]. split_and!; try done. by eapply touched_trans.
Qed.
End file.

Lemma represents_empty ns n : represents ns n ∅ [].
Proof using.
  split; [constructor|]. split; [constructor|]. split; [split; [apply lookup_empty|]|intros v _; apply lookup_empty].
  exists ∅. unfold scores. rewrite lookup_empty. split; [done|]. split; [apply map_Forall_empty|].
  intros v. split; [by intros ?%elem_of_nil|]. intros [x Hx]. by rewrite lookup_empty in Hx.
Qed.

(** A history is a matter of the keys of the file. *)
Lemma represents_ext ns n m m' hist :
  (forall k, own_key ns n k -> m' !! k = m !! k) -> represents ns n m hist -> represents ns n m' hist.
Proof using.
  intros Hk (Hes & Hsort & Hm & Hno). split; [done|]. split; [done|]. split.
  - destruct hist as [|e old]; [destruct Hm as [Hf Hl]; split; [|eapply listed_ext; [|exact Hl]]|].
    + rewrite Hk; [done|by left].
    + apply Hk. by right; right.
    + destruct Hm as (Hc & Ho & Hl). split_and!.
      * eapply saved_ext; [apply Hk; by left|done].
      * eapply Forall_impl; [exact Ho|]. intros x Hx. cbn in *. eapply saved_ext; [apply Hk; right; left; by eexists|done].
      * eapply listed_ext; [apply Hk; by right; right|done].
  - intros v Hv. rewrite Hk by (right; left; by eexists). by apply Hno.
Qed.

Lemma own_keys_differ ns n ns' n' k : (ns, n) <> (ns', n') -> own_key ns' n' k -> ~ own_key ns n k.
Proof using.
  intros Hne Hk Ho. apply Hne. destruct Ho as [->|[[v ->]| ->]], Hk as [E|[[v' E]|E]];
    try (by apply file_not_versioned in E); try (by symmetry in E; apply file_not_versioned in E);
    try (by apply list_key_not_file in E); try (by symmetry in E; apply list_key_not_file in E);
    try (by apply list_key_not_versioned in E); try (by symmetry in E; apply list_key_not_versioned in E).
  - by apply genFileKey_inj in E as [-> ->].
  - by apply genVersionedFileKey_inj in E as (-> & -> & _).
  - by apply genFileVersionListKey_inj in E as [-> ->].
Qed.

(** The histories of other files stay as they are. *)
Lemma represents_other ns n ns' n' m m' hist :
  (ns, n) <> (ns', n') -> touched ns n m m' -> represents ns' n' m hist -> represents ns' n' m' hist.
Proof using.
  intros Hne Ht. apply represents_ext. intros k Hk. apply Ht; [by eapply own_keys_differ|by eapply own_not_side].
Qed.
End versions.

(** C8: The metadata store implements a history of versions.  After any sequence of
    calls that store new versions, replace stored ones, mark a file as deleted or
    delete a version, over a connection that works, every call has returned what the
    history prescribes, reading a version or the newest one returns exactly the
    metadata stored last for it or fails if there is none, and the histories of all
    other files are unchanged. *)
Theorem meta_refines_history {D} `{ServerLaws D} `{UuidPrinterLaws} `{!UuidParser} `{!UuidParserLaws} `{!UuidGenerator}
    net ns n (s : session D) hist ops f0 :
  answered net -> name_ok ns n -> pending s = [] -> represents ns n (contents (db s)) hist -> ops_ok ns n hist ops -> request ns n f0 ->
  exists s', (let! rs := perform_all net ops in let! r := getMeta net f0 3 in ret (rs, r)) s =
    Ok ((fst (spec_all ops hist),
         match asked (File.version f0) (snd (spec_all ops hist)) with
         | Some e => (true, view f0 (e_file e) (e_ids e) (e_cs e) (e_bad e))
         | None => (false, f0)
         end), s') /\
    represents ns n (contents (db s')) (snd (spec_all ops hist)) /\
    (forall ns' n' hist', (ns, n) <> (ns', n') -> represents ns' n' (contents (db s)) hist' ->
       represents ns' n' (contents (db s')) hist').
Proof.
  intros Hnet Hok Hp Hr Hops (Hf & Hi & _ & Hu & Hd).
  destruct (ops_refine net Hnet ns n Hok ops hist s Hops Hr Hp) as (s1 & E1 & Hp1 & Hr1 & Ht1).
  destruct (getMeta_history net Hnet ns n Hok f0 _ s1 Hf Hi Hu Hd Hr1 Hp1) as (s2 & E2 & Hc2 & Hp2).
  exists s2. unfold bind. rewrite E1, E2. rewrite Hc2. split_and!; [done|done|]. intros ns' n' hist' Hne Hr'.
  by eapply represents_other.
Qed.
