(* ===== verification/ListTheorems.v ===== *)
(** The listing of a namespace names exactly the files that are there, each one once,
    with what their records say. *)

From Stdlib Require Import Ascii.
From stdpp Require Import pretty.
From S2P Require Import Prelude DS FileInfo Wire File MetaKeys RedisServer MetaStore MetaTheorems MetaVersions MetaList.

#[local] Open Scope Z_scope.
#[local] Open Scope outcome_scope.
#[local] Open Scope session_scope.

Import MetaList.

Section listing.
Context {D : Type} `{ServerLaws D, UuidPrinter}.
Implicit Types s : session D.

(** The entry for a file: a staged copy that is newer tells the size and the times. *)
Definition listed (ns : Z) (name : string) (f : File.t) : FileInfo.t :=
  let sg := File.staged f in
  let newer := File.mtime f <? File.staged_mtime sg in
  FileInfo.mk (Some name) (if newer then File.staged_size sg else File.size f) (File.ctime f)
    (if newer then File.staged_mtime sg else File.atime f) (if newer then File.staged_mtime sg else File.mtime f)
    (File.numChunks f) (Some (File.version f)) [] (File.md5 f) ns (mark_of f) (File.storageClass f).

Lemma field_raw l i w z : l !! i = Some (Some (bytes_string (le w z))) -> field l i w = Some (le w z).
Proof. unfold field. intros ->. by rewrite length_bytes_string, length_le, Nat.eqb_refl, string_bytes_le. Qed.

Lemma field_bytes l i w b : l !! i = Some (Some (bytes_string b)) -> in_bytes b -> length b = w -> field l i w = Some b.
Proof. unfold field. intros -> Hb <-. by rewrite length_bytes_string, Nat.eqb_refl, string_bytes_string. Qed.

(** The record of a file is read into any entry as this entry. *)
Lemma with_record_listed h f n ids cs bad cur ns :
  stored h f n ids cs bad -> storable f n ids cs bad -> FileInfo.versions cur = [] ->
  with_record (with_name cur n ns) (map (fun x => h !! x) list_names) = listed ns n f.
Proof.
  intros Hs [_ _ _ _ Hsize [Hver _] (Hc & Ha & Hm & _) [Hmd Hml] _ _ _ [Hcl _] (Hsz & _ & Hsm) _ (Hnum & _ & _ & _ & _ & Hlen & _) _] Hv.
  assert (forall k v, (k, v) ∈ main_fields f n (state_of f) (mark_of f) -> h !! k = Some v) as Hf.
  { intros k v Hin. apply Hs. cbn [groups concat]. apply elem_of_app. by left. }
  assert (map (fun x => h !! x) list_names = [Some (raw_long (File.size f)); Some (raw_long (File.ctime f)); Some (raw_long (File.atime f));
    Some (raw_long (File.mtime f)); Some (raw_int (File.version f)); Some (flag_text (mark_of f)); Some (bytes_string (File.md5 f));
    Some (raw_int (File.numChunks f)); Some (raw_long (File.staged_size (File.staged f))); Some (raw_long (File.staged_mtime (File.staged f)));
    Some (c_str (File.storageClass f))]) as ->.
  { unfold list_names. cbn [map].
    repeat (f_equal; [apply Hf; unfold main_fields; repeat (apply elem_of_cons; first [left; reflexivity|right])|]).
    f_equal. apply Hf. unfold main_fields. repeat (apply elem_of_cons; first [left; reflexivity|right]). }
  unfold with_record, raw_long, raw_int.
  do 6 (erewrite (field_raw _ _ 8) by reflexivity). do 2 (erewrite (field_raw _ _ 4) by reflexivity).
  erewrite (field_bytes _ 6) by done. rewrite !unle_le_i64, !unle_le_u64, !get_int_raw by (rewrite ?Hnum; done).
  rewrite c_str_id by done. unfold listed. cbn [FileInfo.name FileInfo.versions FileInfo.namespaceId with_name].
  rewrite Hv. destruct (File.mtime f <? _); destruct (mark_of f); reflexivity.
Qed.

Context (net : nat -> link) (Hnet : answered net).

(** A directory of files that the server holds in namespace [ns]. *)
Record catalogue (ns : Z) (m : keyspace) (files : gmap string File.t) : Prop := {
  ca_ns : 0 <= ns < 256;
  ca_held : forall n f, files !! n = Some f -> free_of newline n /\
    exists h ids cs bad, m !! genFileKey ns n = Some (VHash h) /\ stored h f n ids cs bad /\ storable f n ids cs bad;
  ca_all : forall k, is_Some (m !! k) -> matching (genFileKey ns "") k -> exists n, k = genFileKey ns n /\ is_Some (files !! n)
}.

Lemma genFileKey_plain ns n : free_of NUL n -> free_of NUL (genFileKey ns n).
Proof.
  intros Hn. unfold genFileKey, free_of. rewrite !chars_app. apply Forall_app_2; [apply plain_free_of; [done|apply plain_pretty_Z]|].
  by constructor.
Qed.

(** A file that is there: it is listed unless it is marked as deleted. *)
Lemma list_key_file ns m files n f cur s :
  catalogue ns m files -> files !! n = Some f -> contents (db s) = m -> pending s = [] -> FileInfo.versions cur = [] ->
  exists s', list_key net true false (genFileKey ns n) cur s = Ok ((negb (mark_of f), listed ns n f), s') /\
    contents (db s') = m /\ pending s' = [].
Proof.
  intros [Hns Hheld _] Hf Em Hp Hv. destruct (Hheld n f Hf) as (Hnl & h & ids & cs & bad & Hk & Hst & Hok). unfold list_key.
  assert (isSystemKey (genFileKey ns n) = false) as ->.
  { unfold isSystemKey. destruct (String.prefix "//" (genFileKey ns n)) eqn:E; [|done]. exfalso.
    apply String.prefix_correct in E. destruct (genFileKey ns n) as [|a t] eqn:Ek; [done|].
    destruct (ascii_dec "/" a) as [<-|Ha]; [|by cbn in E; injection E]. by apply file_key_not_slash in Ek. }
  rewrite getName_current by done. unfold get_record.
  rewrite c_str_id by (apply genFileKey_plain, Hok). unfold bind.
  rewrite try_answered, command_answered by done. pose proof (exec_run (db s) (HMGET (genFileKey ns n) list_names) eq_refl) as Er.
  destruct Er as [Er1 Er2]. rewrite Er1, Em, (hmget_reply m _ h) by done.
  pose proof (with_record_listed h f n ids cs bad cur ns Hst Hok Hv) as Ew. unfold list_names in Ew |- *. cbn [map] in Ew |- *. rewrite Ew.
  rewrite Em in Er2. exists (mk_session (snd (exec (db s) (HMGET (genFileKey ns n) list_names))) (S (sent s)) []).
  split; [|split; [exact Er2|reflexivity]]. unfold ret. cbn [negb andb]. change (FileInfo.isDeleted (listed ns n f)) with (mark_of f). by destruct (mark_of f).
Qed.

(** The entries of the files that are not marked as deleted. *)
Definition entries (ns : Z) (files : gmap string File.t) (names : list string) : list FileInfo.t :=
  omap (fun n => f ← files !! n; if mark_of f then None else Some (listed ns n f)) names.

Lemma list_keys_files ns m files names cur s :
  catalogue ns m files -> Forall (fun n => is_Some (files !! n)) names -> contents (db s) = m -> pending s = [] ->
  FileInfo.versions cur = [] ->
  exists s', list_keys net true false (map (fun n => Some (genFileKey ns n)) names) cur s = Ok (entries ns files names, s') /\
    contents (db s') = m /\ pending s' = [].
Proof.
  intros Hcat Hn. revert cur s. induction Hn as [|n names [f Hf] _ IH]; intros cur s Em Hp Hv; [by exists s|].
  cbn [map list_keys]. destruct (list_key_file ns m files n f cur s Hcat Hf Em Hp Hv) as (s1 & E1 & Em1 & Hp1).
  unfold bind. rewrite E1. unfold entries. cbn [omap list_omap]. rewrite Hf. cbn [mbind option_bind].
  destruct (mark_of f); cbn [negb].
  - destruct (IH (listed ns n f) s1 Em1 Hp1 eq_refl) as (s2 & E2 & Hrest). exists s2. by rewrite E2.
  - destruct (IH FileInfo.reset s1 Em1 Hp1 eq_refl) as (s2 & E2 & Hrest). exists s2. by rewrite E2.
Qed.

Lemma matching_split p k : matching p k <-> exists t, k = p +:+ t.
Proof.
  unfold matching. revert k. induction p as [|c p IH]; intros k; [split; [by exists k|by destruct k]|]. destruct k as [|c' k]; cbn.
  - split; [done|]. by intros [t ?].
  - destruct (ascii_dec c c') as [<-|Hne]; [|split; [done|]; intros [t [= ? _]]; done]. rewrite IH.
    split; intros [t Ht]; exists t; [by rewrite Ht|by injection Ht].
Qed.

Lemma matching_key ns p n : matching (genFileKey ns p) (genFileKey ns n) <-> matching p n.
Proof.
  unfold genFileKey. rewrite !matching_split. split; intros [t Ht]; exists t.
  - rewrite !string_app_assoc in Ht. apply String_app_inj in Ht. by injection Ht.
  - by rewrite Ht, !string_app_assoc.
Qed.

Lemma matching_shorter ns p k : matching (genFileKey ns p) k -> matching (genFileKey ns "") k.
Proof. unfold genFileKey. rewrite !matching_split. intros [t ->]. exists (p +:+ t). by rewrite !string_app_assoc. Qed.

Lemma prefix_defined ns p b : exists d, getFilePrefix (genFileKey ns p) b = Ok d.
Proof.
  unfold getFilePrefix. assert (first_index "_" (genFileKey ns p) = Some (String.length (pretty ns))) as ->.
  { unfold genFileKey. apply first_index_app. apply plain_free_of; [done|apply plain_pretty_Z]. }
  destruct (last_index "/" (genFileKey ns p)) as [j|]; [destruct (j =? _)%nat|]; by eexists.
Qed.

Lemma plain_key ns p : plain_pattern p -> plain_pattern (genFileKey ns p).
Proof.
  intros Hp. unfold plain_pattern, genFileKey. change (String.list_ascii_of_string ?x) with (chars x). rewrite !chars_app.
  apply Forall_app_2; [|apply Forall_app_2; [by repeat constructor|done]].
  eapply Forall_impl; [apply (plain_pretty_Z ns)|]. intros a Ha. split_and!; intros ->; discriminate Ha.
Qed.

(** The names of the keys that are found. *)
Lemma keys_names ns m files p ks :
  catalogue ns m files -> NoDup ks -> (forall k, k ∈ ks <-> is_Some (m !! k) /\ matching (genFileKey ns p) k) ->
  exists names, ks = map (genFileKey ns) names /\ NoDup names /\
    forall n, n ∈ names <-> is_Some (files !! n) /\ matching p n.
Proof.
  intros [_ Hheld Hall] Hnd Hks.
  assert (exists names, ks = map (genFileKey ns) names) as [names ->].
  { assert (forall k, k ∈ ks -> exists n, k = genFileKey ns n) as Hk.
    { intros k [Hm Hmt]%Hks. destruct (Hall k Hm (matching_shorter _ _ _ Hmt)) as (n & -> & _). by exists n. }
    clear Hks Hnd. induction ks as [|k ks IH]; [by exists []|]. destruct IH as [names ->]; [set_solver|].
    destruct (Hk k ltac:(set_solver)) as [n ->]. by exists (n :: names). }
  exists names. split; [done|]. split; [by apply NoDup_fmap_1 in Hnd|]. intros n.
  assert (n ∈ names <-> genFileKey ns n ∈ map (genFileKey ns) names) as ->.
  { rewrite list_elem_of_fmap. split; [intros; by exists n|]. intros (n' & E & Hn'). by apply genFileKey_inj in E as [_ ->]. }
  rewrite Hks, matching_key. split; intros [Hm Hmt]; (split; [|done]).
  - destruct (Hall (genFileKey ns n) Hm) as (n' & E & Hn'); [by apply matching_key; destruct n|].
    by apply genFileKey_inj in E as [_ ->].
  - destruct Hm as [f Hf]. destruct (Hheld n f Hf) as (_ & h & _ & _ & _ & Hk & _). by exists (VHash h).
Qed.

Lemma entries_exact ns (files : gmap string File.t) p names :
  NoDup names -> (forall n, n ∈ names <-> is_Some (files !! n) /\ matching p n) ->
  entries ns files names ≡ₚ
  map (fun x => listed ns (fst x) (snd x)) (filter (fun x => matching p (fst x) /\ mark_of (snd x) = false) (map_to_list files)).
Proof.
  intros Hnd Hn.
  assert (exists l, names = l.*1 /\ NoDup l /\ forall n f, (n, f) ∈ l <-> files !! n = Some f /\ matching p n) as (l & -> & Hl & Hin).
  { assert (forall n, n ∈ names -> exists f, files !! n = Some f) as Hf by (intros n [[f ?] _]%Hn; by exists f).
    exists (omap (fun n => (fun f => (n, f)) <$> files !! n) names).
    assert ((omap (fun n => (fun f => (n, f)) <$> files !! n) names).*1 = names) as Efst.
    { clear Hn Hnd. induction names as [|n names IH]; [done|]. cbn [omap list_omap]. destruct (Hf n) as [f ->]; [set_solver|].
      cbn [fmap option_fmap option_map list_fmap fst]. f_equal. apply IH. set_solver. }
    split; [done|]. split; [apply (NoDup_fmap_1 fst); by rewrite Efst|]. intros n f. rewrite list_elem_of_omap. split.
    - intros (n' & [_ Hm]%Hn & E). destruct (files !! n') eqn:E'; [|done]. by injection E as <- <-.
    - intros [E Hm]. exists n. split; [by apply Hn; split; [exists f|]|]. by rewrite E. }
  assert (entries ns files l.*1 = map (fun x => listed ns (fst x) (snd x)) (filter (fun x => mark_of (snd x) = false) l)) as ->.
  { assert (forall n f, (n, f) ∈ l -> files !! n = Some f) as Hf by (intros n f Hx; by apply Hin). clear Hn Hnd Hl Hin.
    induction l as [|[n f] l IH]; [done|]. unfold entries. cbn [fmap list_fmap omap list_omap fst].
    rewrite (Hf n f) by set_solver. cbn [mbind option_bind]. rewrite filter_cons. cbn [snd].
    destruct (mark_of f); [rewrite decide_False by done|rewrite decide_True by done; cbn [map fst snd]; f_equal]; apply IH; set_solver. }
  apply fmap_Permutation, NoDup_Permutation; [by apply NoDup_filter|apply NoDup_filter, NoDup_map_to_list|].
  intros [n f]. rewrite !list_elem_of_filter, Hin, elem_of_map_to_list. cbn [fst snd]. tauto.
Qed.

(** C14: Listing the files of a namespace whose names begin with a prefix that does not end
    in a slash and has no character with a meaning in a pattern of the server (no glob
    character, line break or zero byte) returns, for every such file of the namespace that
    is not marked as deleted, exactly one entry, with its
    name, size, times, version, number of chunks, checksum and storage class, or with the
    size and times of its staged copy where that is newer; there are no other entries, and
    the server is not changed.  (A prefix that ends in a slash asks for the files directly in
    a directory, without those of its subdirectories.) *)
Theorem file_list_exact pns ns p files s :
  pending s = [] -> catalogue ns (contents (db s)) files -> ns <> INVALID_NAMESPACE_ID -> plain_pattern p -> free_of NUL p ->
  last (chars p) <> Some "/"%char ->
  exists l s', getFileList net pns ns true true false p s = Ok (l, s') /\ contents (db s') = contents (db s) /\
    l ≡ₚ map (fun x => listed ns (fst x) (snd x)) (filter (fun x => matching p (fst x) /\ mark_of (snd x) = false) (map_to_list files)).
Proof.
  intros Hp Hcat Hns Hpl Hnul Hlast. unfold getFileList. rewrite (proj2 (Z.eqb_neq _ _) Hns).
  rewrite !c_str_id by (try apply genFileKey_plain; done). destruct (prefix_defined ns p false) as [dir ->].
  rewrite bool_decide_eq_false_2 by done. unfold bind at 1, lift. cbn [obind]. unfold bind at 1. rewrite command_answered by done.
  pose proof (exec_serves (db s) (KEYS (genFileKey ns p))) as (Em & ks & Er & Hnd & _ & Hks). rewrite Er.
  destruct (keys_names ns (contents (db s)) files p ks Hcat Hnd (Hks (plain_key ns p Hpl))) as (names & -> & Hnn & Hn).
  rewrite map_map. cbn [orb].
  destruct (list_keys_files ns (contents (db s)) files names FileInfo.reset
    (mk_session (snd (exec (db s) (KEYS (genFileKey ns p)))) (S (sent s)) []) Hcat) as (s' & E & Es & _); try done.
  { apply Forall_forall. intros n Hx. by apply Hn. }
  exists (entries ns files names), s'. split; [exact E|]. split; [done|]. by apply entries_exact.
Qed.
End listing.
