(* ===== verification/MetaSample.v ===== *)
(** The metadata store on a concrete server, where the hypotheses of the theorems
    hold, and runs that show its faults. *)

From Stdlib Require Import Ascii.
From stdpp Require Import pretty.
From S2P Require Import Prelude DS Wire File MetaKeys RedisServer MetaStore MetaTheorems MetaVersions.

#[local] Open Scope Z_scope.
#[local] Open Scope outcome_scope.
#[local] Open Scope session_scope.

Module MetaSample.

#[local] Existing Instance decimal_uuid.
#[local] Existing Instance decimal_uuid_laws.
#[local] Instance parser : UuidParser := fun s => Some (atoi s).
#[local] Instance parser_laws : UuidParserLaws.
Proof. intros u. unfold uuid_of_string, parser, uuid_to_string, decimal_uuid. by rewrite atoi_pretty_all. Qed.
#[local] Instance generator : UuidGenerator := fun s => match s with String a _ => Z.of_nat (nat_of_ascii a) | _ => 0 end.

Definition working : nat -> link := fun _ => Answered.

Lemma working_answered : answered working.
Proof. done. Qed.

(** The connection breaks after [k] commands. *)
Definition breaking (k : nat) : nat -> link := fun n => if (n <? k)%nat then Answered else Down.

Definition start (m : keyspace) : session keyspace := mk_session m 0 [].

Definition digest (b : Z) : list Z := replicate MD5_DIGEST_LENGTH b.
Definition chunk (i : Z) : Chunk.t := Chunk.mk 1 5 i None (10 + i) false 0 "" (digest i).
Definition coding : CodingMeta.t := CodingMeta.mk RS None 2 1 1 0 1024.

Definition block (o : Z) : InObjectLocation * (string * Z) := (mk_location o 8, ("", o)).

(** A file of two chunks; the fields that only operations use are those of a new
    file. *)
Definition stored_file (v sz : Z) : File.t :=
  File.mk 1 5 (Some "f") sz v 100 200 300 400 (digest 9) 1 2 (Some [20; 21]) (Some [chunk 0; chunk 1]) (Some [false; true])
    coding "gold" (File.mk_staged 0 CodingMeta.reset "" 0) INVALID_FILE_OFFSET INVALID_FILE_LENGTH None NONE None
    [block 0; block 8] [].

Definition stored_entry (v sz : Z) : entry := mk_entry (stored_file v sz) [20; 21] [chunk 0; chunk 1] [false; true].

Lemma sample_name : name_ok 1 "f".
Proof. split; [by repeat constructor|]. split; [vm_compute; lia|lia]. Qed.

Lemma stored_entry_ok v sz : 0 <= v < 1000 -> 0 < sz < 1000 -> entry_ok 1 "f" (stored_entry v sz).
Proof.
  intros Hv Hs. split; [|split; [done|unfold version; cbn; lia]]. constructor; cbn.
  - done.
  - by repeat constructor.
  - unfold PATH_MAX. lia.
  - lia.
  - unfold in_ulong. lia.
  - unfold in_int. lia.
  - unfold in_long. lia.
  - split; [|done]. repeat constructor; lia.
  - unfold in_int. lia.
  - unfold meta_ok, in_int, coding, RS. cbn. lia.
  - by left.
  - split; by repeat constructor.
  - unfold meta_ok, in_int, in_long, in_ulong, UNKNOWN_CODE. cbn. unfold UNKNOWN_CODE. lia.
  - lia.
  - unfold chunks_ok. cbn. split_and!; try done; try (unfold in_int; lia).
    + repeat constructor; lia.
    + intros [|[|i]] c Hc; cbn in Hc; simplify_eq; (split; [done|]; split; [unfold in_int; cbn; lia|]; split; [|done]); repeat constructor; lia.
  - unfold blocks_ok. cbn. split; [exists O; split; [by left|]; split; by repeat constructor|].
    split; [repeat constructor; unfold location_ok, in_ulong, in_int; cbn; lia|]. split; [constructor|].
    split; [repeat constructor; lia|]. split; [constructor|]. lia.
Qed.

Definition ask (v : Z) : File.t := File.setVersion (File.set_ids File.reset 1 0 (Some "f")) v.

Lemma ask_request v : -1 <= v < 1000 -> request 1 "f" (ask v).
Proof. intros Hv. split; [done|]. cbn. unfold in_int. split_and!; try done; lia. Qed.

(** Two versions are stored and the file is marked as deleted; then the newer version
    is deleted, and the older one is still there. *)
Definition sample_ops : list op :=
  [Put (stored_entry 0 3); Put (stored_entry 1 4); Delete (ask (-1)) 500; Delete (ask 1) 600].

Lemma sample_ops_ok : ops_ok 1 "f" [] sample_ops.
Proof.
  assert (forall v, -1 <= v < 1000 -> request 1 "f" (ask v)) as Ha by (intros; by apply ask_request).
  cbn [ops_ok sample_ops]. split; [|split; [|split; [|split]]]; try done.
  - split; [apply stored_entry_ok; lia|by left].
  - split; [apply stored_entry_ok; lia|right; vm_compute; done].
  - split; [apply Ha; lia|]. unfold in_long, in_int. cbn. split; [lia|]. split; [lia|]. intros e [= <-]. done.
  - split; [apply Ha; lia|]. unfold in_long, in_int. cbn. split; [lia|]. split; [lia|]. intros e [= <-]. done.
Qed.

Lemma meta_refines_history_witness : exists s',
  (let! rs := perform_all working sample_ops in let! r := getMeta working (ask 0) 3 in ret (rs, r)) (start ∅) =
    Ok (([true; true; true; true], (true, view (ask 0) (stored_file 0 3) [20; 21] [chunk 0; chunk 1] [false; true])), s') /\
  represents 1 "f" (contents (db s')) (snd (spec_all sample_ops [])) /\
  (forall ns' n' hist', (1, "f") <> (ns', n') -> represents ns' n' (∅ : keyspace) hist' -> represents ns' n' (contents (db s')) hist').
Proof.
  assert (fst (spec_all sample_ops []) = [true; true; true; true]) as E1 by (vm_compute; reflexivity).
  assert (asked (File.version (ask 0)) (snd (spec_all sample_ops [])) = Some (stored_entry 0 3)) as E2 by (vm_compute; reflexivity).
  pose proof (meta_refines_history working 1 "f" (start ∅) [] sample_ops (ask 0) working_answered sample_name eq_refl
    (represents_empty 1 "f") sample_ops_ok (ask_request 0 ltac:(lia))) as Hw.
  rewrite E1, E2 in Hw. exact Hw.
Defined.

(** ** Faults *)

Definition result {A} (o : outcome (A * session keyspace)) : option A := match o with Ok (a, _) => Some a | _ => None end.
Definition after {A} (o : outcome (A * session keyspace)) (s : session keyspace) : session keyspace :=
  match o with Ok (_, s') => s' | _ => s end.

(** What is on the server after one version, and after two. *)
Definition one_version : keyspace := db (after (putMeta working false (stored_file 0 3) (start ∅)) (start ∅)).
Definition two_versions : keyspace := db (after (putMeta working false (stored_file 1 4) (start one_version)) (start one_version)).

(** The mark of a file that was just created is not set: storing an empty file reads
    it all the same. *)
Theorem empty_file_mark_undefined :
  putMeta working false (File.set_size (File.set_ids File.reset 1 5 (Some "f")) 0) (start ∅) = Undef.
Proof. vm_compute. reflexivity. Qed.

(** Between the backup of the current version and the new record there is none: when
    the connection breaks there, the file is gone. *)
Theorem interrupted_store_loses_current :
  let s := after (putMeta (breaking 2) false (stored_file 1 4) (start one_version)) (start one_version) in
  result (putMeta (breaking 2) false (stored_file 1 4) (start one_version)) = Some false /\
  fst <$> result (getMeta working (ask (-1)) 3 (start one_version)) = Some true /\
  fst <$> result (getMeta working (ask (-1)) 3 (start (db s))) = Some false.
Proof. vm_compute. split_and!; reflexivity. Qed.

(** The script of [updateChunks] does not connect again when its reply is lost: the
    next operation finds the connection closed and fails, although the server answers. *)
Theorem closed_connection_stays :
  let s := after (updateChunks (breaking 0) (stored_file 0 3) 0 (start one_version)) (start one_version) in
  pending s = [Closed] /\ fst <$> result (getMeta working (ask (-1)) 3 s) = Some false /\
  fst <$> result (getMeta working (ask (-1)) 3 (start (db s))) = Some true.
Proof. vm_compute. split_and!; reflexivity. Qed.

(** A record without all of its chunks: the replies that [getMeta] leaves unread are
    taken for those to the next commands.  The lock is taken, and reported as not. *)
Theorem unread_replies_shift :
  let m := db (after (putMeta (breaking 2) false (stored_file 0 3) (start ∅)) (start ∅)) in
  let s := after (getMeta working (ask (-1)) 3 (start m)) (start m) in
  fst <$> result (getMeta working (ask (-1)) 3 (start m)) = Some false /\
  result (lockFile working (ask (-1)) (start m)) = Some true /\
  result (lockFile working (ask (-1)) s) = Some false /\
  fst (run (db (after (lockFile working (ask (-1)) s) s)) (SISMEMBER FILE_LOCK_KEY "1_f")) = RInteger 1.
Proof. vm_compute. split_and!; reflexivity. Qed.

(** Error replies to the commands that store a record count as success. *)
Definition refusing : nat -> link := fun n => match n with O => Answered | _ => Refused end.

Theorem refused_store_succeeds :
  result (putMeta refusing false (stored_file 0 3) (start ∅)) = Some true /\
  fst <$> result (getMeta working (ask (-1)) 3 (after (putMeta refusing false (stored_file 0 3) (start ∅)) (start ∅))) = Some false.
Proof. vm_compute. split_and!; reflexivity. Qed.

Definition renamed : File.t := File.set_ids File.reset 1 0 (Some "g").
Definition after_rename (m : keyspace) : session keyspace := after (renameMeta working (ask (-1)) renamed (start m)) (start m).

(** After a rename the identifier leads to the key of the file instead of its name,
    and the older versions are not found under the new name. *)
Theorem rename_breaks_mapping :
  (fun r => File.name (snd r)) <$> result (getFileName working 5 (File.set_ids File.reset 1 0 None) (start one_version)) = Some (Some "f") /\
  (fun r => File.name (snd r)) <$> result (getFileName working 103 (File.set_ids File.reset 1 0 None) (after_rename one_version)) =
    Some (Some "1_g").
Proof. vm_compute. split_and!; reflexivity. Qed.

Theorem rename_loses_versions :
  fst <$> result (getMeta working (ask 0) 3 (start two_versions)) = Some true /\
  fst <$> result (getMeta working (File.setVersion renamed (-1)) 3 (after_rename two_versions)) = Some true /\
  fst <$> result (getMeta working (File.setVersion renamed 0) 3 (after_rename two_versions)) = Some false.
Proof. vm_compute. split_and!; reflexivity. Qed.

(** A lost reply to the question for an older version is read. *)
Theorem lost_reply_is_read : putMeta (breaking 1) false (stored_file 0 3) (start two_versions) = Undef.
Proof. vm_compute. reflexivity. Qed.

(** Marking a file with a coding state as deleted reads past an empty string. *)
Theorem marking_overreads f now b :
  CodingMeta.codingState (File.codingMeta f) = Some b -> 2 <= CodingMeta.codingStateSize (File.codingMeta f) ->
  coding_state (as_deleted f now) = Undef.
Proof.
  intros Hb Hn. unfold coding_state. cbn. rewrite Hb. destruct (Z.ltb_spec (CodingMeta.codingStateSize (File.codingMeta f)) 0); [done|].
  unfold block_read. rewrite decide_False; [done|]. cbn. lia.
Qed.

(** A block without a fingerprint gets that of the block before. *)
Theorem stale_fingerprint (fp : string) :
  (fun b => fst (snd b)) <$> unique_reply fp [Some (raw_unique (block 8))] = Some fp.
Proof. vm_compute. reflexivity. Qed.

(** The number of keys is meant to be below 2^31. *)
Theorem max_keys_wraps : getMaxNumKeysSupported = 18446744071562067964.
Proof. vm_compute. reflexivity. Qed.
End MetaSample.
