(* ===== verification/ListSample.v ===== *)
(** Listings on a concrete server, and where they go wrong. *)

From Stdlib Require Import Ascii.
From stdpp Require Import pretty.
From S2P Require Import Prelude DS FileInfo Wire File MetaKeys RedisServer MetaStore MetaTheorems MetaVersions MetaList ListTheorems MetaSample.

#[local] Open Scope Z_scope.

Module ListSample.
Import MetaList MetaSample.

#[local] Existing Instance decimal_uuid.

Definition sample_hash : gmap string string :=
  set_fields ∅ (concat (groups (stored_file 0 3) "f" [20; 21] [chunk 0; chunk 1] [false; true])).
Definition sample_keys : keyspace := {["1_f" := VHash sample_hash]}.
Definition sample_files : gmap string File.t := {["f" := stored_file 0 3]}.

Lemma sample_catalogue : catalogue 1 sample_keys sample_files.
Proof.
  constructor; [lia|..].
  - intros n f Hf. unfold sample_files in Hf. apply lookup_singleton_Some in Hf as [<- <-]. split; [by repeat constructor|].
    exists sample_hash, [20; 21], [chunk 0; chunk 1], [false; true]. split; [apply lookup_singleton_eq|]. split; [apply stored_set_of|].
    exact (proj1 (stored_entry_ok 0 3 ltac:(lia) ltac:(lia))).
  - intros k [v Hk] _. unfold sample_keys in Hk. apply lookup_singleton_Some in Hk as [<- _]. exists "f"%string. split; [reflexivity|]. eexists. apply lookup_singleton_eq.
Qed.

Lemma file_list_exact_witness : exists l s',
  getFileList working 0 1 true true false "f" (start sample_keys) = Ok (l, s') /\
  map (fun i => (FileInfo.name i, FileInfo.size i, FileInfo.version i)) l = [(Some "f"%string, 3, Some 0)].
Proof.
  destruct (file_list_exact working working_answered 0 1 "f" sample_files (start sample_keys)) as (l & s' & E & _ & Hl).
  - reflexivity.
  - apply sample_catalogue.
  - discriminate.
  - repeat constructor; discriminate.
  - repeat constructor; discriminate.
  - discriminate.
  - exists l, s'. split; [exact E|].
    assert (map (fun x => listed 1 (fst x) (snd x))
      (filter (fun x => matching "f" (fst x) /\ mark_of (snd x) = false) (map_to_list sample_files)) = [listed 1 "f" (stored_file 0 3)]) as Ex
      by (vm_compute; reflexivity).
    rewrite Ex in Hl. symmetry in Hl. apply Permutation_length_1_inv in Hl. subst l. reflexivity.
Defined.

(** The summary of a version has raw numbers between blanks: a size whose lowest byte is
    that of a dash is taken for a missing one, and one with the byte of a blank shifts
    the fields after it. *)
Definition summary_of (sz mt : Z) : string :=
  summary 0 (Some (RArray [Some (raw_long sz); Some (raw_long mt); Some (bytes_string (digest 9)); Some "0"%string; Some (raw_int 2)])).

Theorem version_sizes_misread :
  (match version_info (Some (summary_of 44 7)) with Ok v => (VersionInfo.size v, VersionInfo.mtime v) | _ => (-1, -1) end = (44, 7)) /\
  (match version_info (Some (summary_of 45 7)) with Ok v => (VersionInfo.size v, VersionInfo.mtime v) | _ => (-1, -1) end = (0, 7)) /\
  (match version_info (Some (summary_of 32 7)) with Ok v => VersionInfo.mtime v =? 7 | _ => false end = false).
Proof. vm_compute. split_and!; reflexivity. Qed.

(** A file with an older version counts more than once. *)
Theorem versions_are_counted :
  result (getNumFiles working (start one_version)) = Some 1 /\ result (getNumFiles working (start two_versions)) = Some 2.
Proof. vm_compute. split; reflexivity. Qed.

End ListSample.
