(* ===== verification/MetaLocks.v ===== *)
(** The locks on files: a set on the server, to which a client adds the key of a
    file.  Clients come and go, lose replies and connections; a file never has two
    holders, and a lock that was released can be taken again. *)

From stdpp Require Import pretty.
From S2P Require Import Prelude DS File MetaKeys RedisServer MetaStore MetaTheorems MetaVersions.

#[local] Open Scope Z_scope.
#[local] Open Scope outcome_scope.
#[local] Open Scope session_scope.

Section locks.
Context {D : Type} `{ServerLaws D}.
Implicit Types d : D.

(** The keys in the set of locks. *)
Definition lock_set d : option (gset string) := members (contents d) FILE_LOCK_KEY.

(** Who holds the lock on which file. *)
Record holder := mk_holder { client : nat; file_ns : Z; file_name : string }.

Definition lock_key (h : holder) : string := genFileKey (file_ns h) (file_name h).

(** A client that has the lock on a file may release it, and whoever asks for one has
    it if the answer says so, over a connection that may be closed.  Nothing else changes
    the set. *)
Inductive lock_step : D * list holder -> D * list holder -> Prop :=
| step_lock net c f ns n d q hs ok s :
    name_ok ns n -> named ns n f -> never_refused net -> q = [] \/ q = [Closed] -> lockFile net f (mk_session d 0 q) = Ok (ok, s) ->
    lock_step (d, hs) (db s, if ok : bool then mk_holder c ns n :: hs else hs)
| step_unlock net f h d q hs1 hs2 ok s :
    name_ok (file_ns h) (file_name h) -> named (file_ns h) (file_name h) f -> never_refused net -> q = [] \/ q = [Closed] ->
    unlockFile net f (mk_session d 0 q) = Ok (ok, s) ->
    lock_step (d, hs1 ++ h :: hs2) (db s, hs1 ++ hs2)
| step_other d d' hs : contents d' !! FILE_LOCK_KEY = contents d !! FILE_LOCK_KEY -> lock_step (d, hs) (d', hs).

(** Every holder is in the set, once. *)
Definition locks_ok (st : D * list holder) : Prop :=
  NoDup (map lock_key (snd st)) /\
  Forall (fun h => exists ks, lock_set (fst st) = Some ks /\ lock_key h ∈ ks) (snd st).

Lemma members_put_set m k ks : members (put_set m k ks) k = Some ks.
Proof using.
  unfold members, put_set. case_decide as E; [by rewrite lookup_delete_eq, E|by rewrite lookup_insert_eq].
Qed.

(** What an operation on the set reports, and what it leaves. *)
Lemma lock_in_spec net f ns n (lock : bool) d q ok s :
  name_ok ns n -> named ns n f -> never_refused net -> q = [] \/ q = [Closed] ->
  lock_in net FILE_LOCK_KEY f lock (mk_session d 0 q) = Ok (ok, s) ->
  (lock_set (db s) = lock_set d /\ ok = false) \/
  exists ks, lock_set d = Some ks /\
    lock_set (db s) = Some (if lock then {[genFileKey ns n]} ∪ ks else ks ∖ {[genFileKey ns n]}) /\
    (ok = true -> (genFileKey ns n ∈ ks <-> lock = false)).
Proof using H0.
  intros Hok Hf Hn Hq. unfold lock_in, bind, lift. rewrite (file_key_ok ns n Hok f Hf). cbn [obind].
  set (c := if lock then _ else _). destruct (redisCommand net c (mk_session d 0 q)) as [| |[r s1]] eqn:E; [done..|].
  unfold ret. intros [= <- <-]. destruct (command_reply net c (mk_session d 0 q) r s1 Hn Hq E) as [_ Hr].
  assert (deterministic c = true) as Hdet by (by destruct lock).
  destruct (exec_run d c Hdet) as [Er Ed]. cbn [db] in Hr.
  assert (lock_set d = None -> contents (snd (exec d c)) = contents d /\ fst (exec d c) = RError) as Hbad.
  { rewrite Er, Ed. unfold lock_set. by destruct lock; cbn; intros ->. }
  assert (forall ks, lock_set d = Some ks -> fst (exec d c) = count (bool_decide (genFileKey ns n ∈ ks <-> lock = false)) /\
    lock_set (snd (exec d c)) = Some (if lock then {[genFileKey ns n]} ∪ ks else ks ∖ {[genFileKey ns n]})) as Hgood.
  { intros ks Hks. unfold lock_set in *. rewrite Er, Ed. destruct lock; cbn; rewrite Hks; cbn; rewrite members_put_set;
      (split; [|done]); f_equal; apply bool_decide_ext; intuition congruence. }
  destruct r as [r|].
  - destruct Hr as [-> Hdb]. unfold lock_set in *. rewrite Hdb. destruct (members (contents d) FILE_LOCK_KEY) as [ks|] eqn:Eks.
    + right. exists ks. destruct (Hgood ks eq_refl) as [-> ->]. split; [done|]. split; [done|].
      destruct (bool_decide_reflect (genFileKey ns n ∈ ks <-> lock = false)); [done|]. by intros ?%bool_decide_eq_true.
    + left. destruct (Hbad eq_refl) as [Hc ->]. by rewrite Hc, Eks.
  - destruct Hr as [-> | ->]; [by left|]. unfold lock_set in *. destruct (members (contents d) FILE_LOCK_KEY) as [ks|] eqn:Eks.
    + right. exists ks. destruct (Hgood ks eq_refl) as [_ ->]. by split_and!.
    + left. destruct (Hbad eq_refl) as [Hc _]. by rewrite Hc, Eks.
Qed.

Lemma step_keeps_locks st st' : locks_ok st -> lock_step st st' -> locks_ok st'.
Proof using H0.
  intros [Hnd HF] Hstep. destruct Hstep as [net c f ns n d q hs ok s Hok Hf Hn Hq Hrun|net f h d q hs1 hs2 ok s Hok Hf Hn Hq Hrun|d d' hs E];
    cbn [fst snd] in *.
  - destruct (lock_in_spec net f ns n true d q ok s Hok Hf Hn Hq Hrun) as [[E ->]|(ks & Hks & Hks' & Hin)].
    { split; [done|]. cbn. by rewrite E. }
    assert (Forall (fun h => exists ks, lock_set (db s) = Some ks /\ lock_key h ∈ ks) hs) as HF'.
    { eapply Forall_impl; [exact HF|]. intros h (ks0 & E0 & Hh). rewrite Hks in E0. injection E0 as <-. eexists. split; [exact Hks'|]. set_solver. }
    destruct ok; [|by split]. specialize (Hin eq_refl). split; cbn.
    + constructor; [|done]. intros (h & Eh & Hh)%list_elem_of_fmap. rewrite Forall_forall in HF. destruct (HF h Hh) as (ks0 & E0 & Hh').
      rewrite Hks in E0. injection E0 as <-. rewrite <- Eh in Hh'. unfold lock_key in Hh'. cbn in Hh'. by apply Hin in Hh'.
    + constructor; [|done]. eexists. split; [exact Hks'|]. unfold lock_key. cbn. set_solver.
  - rewrite map_app in Hnd. cbn in Hnd. rewrite <- Permutation_middle, <- map_app in Hnd. inversion Hnd as [|? ? Hni Hnd']; subst.
    split; [done|]. cbn. rewrite Forall_app in HF. destruct HF as [HF1 HF2]. inversion HF2 as [|? ? _ HF3]; subst.
    assert (Forall (fun h => exists ks, lock_set d = Some ks /\ lock_key h ∈ ks) (hs1 ++ hs2)) as HF by (by apply Forall_app).
    destruct (lock_in_spec net f _ _ false d q ok s Hok Hf Hn Hq Hrun) as [[E _]|(ks & Hks & Hks' & _)]; [by rewrite E|].
    apply Forall_forall. intros h' Hh'. rewrite Forall_forall in HF. destruct (HF h' Hh') as (ks0 & E0 & Hin).
    rewrite Hks in E0. injection E0 as <-. eexists. split; [exact Hks'|]. apply elem_of_difference. split; [done|].
    intros E%elem_of_singleton. apply Hni. apply list_elem_of_fmap. exists h'. by split.
  - split; [done|]. cbn. eapply Forall_impl; [exact HF|]. intros h (ks & Hks & Hh). exists ks. split; [|done].
    unfold lock_set, members in *. by rewrite E.
Qed.

Lemma reachable_locks st st' : locks_ok st -> rtc lock_step st st' -> locks_ok st'.
Proof using H0. intros Hok Hsteps. induction Hsteps as [|st1 st2 st3 Hstep _ IH]; [done|]. by eapply IH, step_keeps_locks. Qed.

Lemma nobody_ok d : locks_ok (d, []).
Proof using. by split; constructor. Qed.

(** The set after a command that reached the server. *)
Lemma lock_answered net f ns n (lock : bool) (s : session D) ks :
  name_ok ns n -> named ns n f -> answered net -> pending s = [] -> lock_set (db s) = Some ks -> exists s',
  lock_in net FILE_LOCK_KEY f lock s = Ok (bool_decide (genFileKey ns n ∈ ks <-> lock = false), s') /\
  lock_set (db s') = Some (if lock then {[genFileKey ns n]} ∪ ks else ks ∖ {[genFileKey ns n]}) /\
  pending s' = [] /\ forall k, k <> FILE_LOCK_KEY -> contents (db s') !! k = contents (db s) !! k.
Proof using H0.
  intros Hok Hf Hn Hp Hks. unfold lock_in, bind, lift. rewrite (file_key_ok ns n Hok f Hf). cbn [obind].
  set (c := if lock then _ else _). assert (deterministic c = true) as Hdet by (by destruct lock).
  destruct (command_det net Hn c s Hdet Hp) as (s' & -> & Hc & Hp'). exists s'. unfold ret, lock_set in *. rewrite Hc.
  destruct lock; cbn; rewrite Hks; cbn; rewrite members_put_set; (split_and!; [|done|done|intros k Hk; by apply put_set_ne]);
    do 3 f_equal; unfold count.
  - destruct (bool_decide_reflect (genFileKey ns n ∉ ks)); destruct (bool_decide_reflect (genFileKey ns n ∈ ks <-> true = false)); intuition congruence.
  - destruct (bool_decide_reflect (genFileKey ns n ∈ ks)); destruct (bool_decide_reflect (genFileKey ns n ∈ ks <-> false = false)); intuition congruence.
Qed.

(** A key of another type is in the way. *)
Lemma lock_wrong_type net f ns n (lock : bool) (s : session D) :
  name_ok ns n -> named ns n f -> answered net -> pending s = [] -> lock_set (db s) = None -> exists s',
  lock_in net FILE_LOCK_KEY f lock s = Ok (false, s') /\ contents (db s') = contents (db s) /\ pending s' = [].
Proof using H0.
  intros Hok Hf Hn Hp Hks. unfold lock_in, bind, lift. rewrite (file_key_ok ns n Hok f Hf). cbn [obind].
  set (c := if lock then _ else _). assert (deterministic c = true) as Hdet by (by destruct lock).
  destruct (command_det net Hn c s Hdet Hp) as (s' & -> & Hc & Hp'). exists s'. unfold ret, lock_set in *. rewrite Hc.
  by destruct lock; cbn; rewrite Hks.
Qed.

(** What a client sees that asks for the lock, and one that releases it. *)
Lemma lock_taken net f ns n (s : session D) :
  name_ok ns n -> named ns n f -> answered net -> pending s = [] -> exists ok s',
  lockFile net f s = Ok (ok, s') /\ pending s' = [] /\
  (forall k, k <> FILE_LOCK_KEY -> contents (db s') !! k = contents (db s) !! k) /\
  if ok then exists ks, lock_set (db s) = Some ks /\ genFileKey ns n ∉ ks /\ lock_set (db s') = Some ({[genFileKey ns n]} ∪ ks)
  else lock_set (db s') = lock_set (db s).
Proof using H0.
  intros Hok Hf Hn Hp. unfold lockFile, getLockOnFile. destruct (lock_set (db s)) as [ks|] eqn:Eks.
  - destruct (lock_answered net f ns n true s ks Hok Hf Hn Hp Eks) as (s' & -> & Hs & Hp' & Hk). eexists _, s'. split_and!; try done.
    case_bool_decide as E; [exists ks; split_and!; try done; intuition congruence|]. rewrite Hs. f_equal.
    assert (genFileKey ns n ∈ ks); [|set_solver]. destruct (decide (genFileKey ns n ∈ ks)); [done|]. intuition congruence.
  - destruct (lock_wrong_type net f ns n true s Hok Hf Hn Hp Eks) as (s' & -> & Hc & Hp'). eexists _, s'. split_and!; try done.
    + intros. by rewrite Hc.
    + unfold lock_set in *. by rewrite Hc.
Qed.

Lemma lock_released net f ns n (s : session D) ks :
  name_ok ns n -> named ns n f -> answered net -> pending s = [] -> lock_set (db s) = Some ({[genFileKey ns n]} ∪ ks) ->
  genFileKey ns n ∉ ks -> exists s',
  unlockFile net f s = Ok (true, s') /\ pending s' = [] /\
  (forall k, k <> FILE_LOCK_KEY -> contents (db s') !! k = contents (db s) !! k) /\ lock_set (db s') = Some ks.
Proof using H0.
  intros Hok Hf Hn Hp Eks Hni. unfold unlockFile, getLockOnFile.
  destruct (lock_answered net f ns n false s _ Hok Hf Hn Hp Eks) as (s' & -> & Hs & Hp' & Hk). exists s'. split_and!; try done.
  - rewrite bool_decide_eq_true_2; [done|]. set_solver.
  - rewrite Hs. f_equal. set_solver.
Qed.

(** The set of locks is none of the keys of a file, and no key on the side. *)
Lemma lock_key_apart ns n : ~ own_key ns n FILE_LOCK_KEY /\ ~ side_key FILE_LOCK_KEY.
Proof using.
  split.
  - intros [E|[[v E]|E]]; [symmetry in E; by apply file_key_not_slash in E| |discriminate E].
    symmetry in E. by apply versioned_key_not_system in E.
  - intros [[t E]|[[t E]|E]]; discriminate E.
Qed.
End locks.


Module LockSample.

Definition working : nat -> link := fun _ => Answered.
Definition wanted : File.t := File.set_ids File.reset 1 0 (Some "f").

Lemma wanted_named : named 1 "f" wanted.
Proof. done. Qed.

Lemma wanted_name : name_ok 1 "f".
Proof. split; [by repeat constructor|]. split; [cbn; unfold PATH_MAX; lia|lia]. Qed.

Definition locked : keyspace := {[FILE_LOCK_KEY := VSet {["1_f"]}]}.

Lemma locked_by_first : rtc lock_step (∅ : keyspace, []) (locked, [mk_holder 0 1 "f"]).
Proof.
  eapply rtc_once. apply (step_lock working 0 wanted 1 "f" ∅ [] [] true (mk_session locked 1 [])).
  - exact wanted_name.
  - exact wanted_named.
  - done.
  - by left.
  - vm_compute. reflexivity.
Qed.

(** The first client has the lock, which a second one does not get. *)
Lemma second_waits : match lockFile working wanted (mk_session locked 0 []) with Ok (ok, _) => ok = false | _ => False end.
Proof. vm_compute. reflexivity. Qed.

End LockSample.
