(* ===== verification/MetaJournal.v ===== *)
(** The journals of the metadata store ([src/proxy/metastore/redis_metastore.cc]): for
    every file and version a hash with four fields for each chunk and container of an
    operation in progress, and the set of files that have a journal. *)

From Stdlib Require Import Ascii.
From stdpp Require Import pretty.
From S2P Require Import Prelude DS Wire File MetaKeys RedisServer MetaStore.

#[local] Open Scope Z_scope.
#[local] Open Scope outcome_scope.
#[local] Open Scope session_scope.

(** ["%s-<type>-%d"]. *)
Definition journal_field (chunkId : Z) (type : string) (containerId : Z) : string :=
  genChunkKeyPrefix chunkId +:+ "-" +:+ type +:+ "-" +:+ pretty containerId.

(** The number of the chunk, the type of the field and the container. *)
Definition extractJournalFieldKeyParts (field : string) : Z * string * Z :=
  match first_index "-" field with
  | Some d1 =>
      let rest := string_drop (d1 + 1) field in
      match first_index "-" rest with
      | Some d2 =>
          let number := string_drop 1 (if (d1 =? 0)%nat then field else string_take d1 field) in
          (i32 (atoi number), string_take d2 rest, i32 (atoi (string_drop (d2 + 1) rest)))
      | None => (INVALID_CHUNK_ID, "", INVALID_CONTAINER_ID)
      end
  | None => (INVALID_CHUNK_ID, "", INVALID_CONTAINER_ID)
  end.

Definition op_text (isWrite : bool) : string := if isWrite then "w" else "d".

(** One record: the chunk, the container, and whether the operation is a write and
    has not been carried out yet. *)
Record journal_record := mk_record { r_chunk : Chunk.t; r_container : Z; r_isWrite : bool; r_isPre : bool }.

#[local] Existing Instance Chunk.t_eq_dec.
#[export] Instance journal_record_eq_dec : EqDecision journal_record.
Proof. solve_decision. Defined.

Section journal.
Context {D : Type} `{Server D} (net : nat -> link).

Notation M := (M D).
Notation redisCommand := (redisCommand net).
Notation evalCommand := (evalCommand net).

(** ** Adding a record *)

(** The fields of earlier writes among what a scan returned, field and value in turn,
    with the position of the one that the deletion in [containerId] supersedes. *)
Fixpoint superseded (containerId : Z) (isWrite : bool) (l : list string) (num : nat) (matched : option nat)
    : list string * option nat :=
  match l with
  | field :: value :: l =>
      if String.prefix "w" value then
        let extracted := (extractJournalFieldKeyParts field).2 in
        let matched := if (extracted =? containerId) && negb isWrite then Some num else matched in
        let '(fields, matched) := superseded containerId isWrite l (S num) matched in
        (field :: fields, matched)
      else superseded containerId isWrite l num matched
  | _ => ([], matched)
  end.

(** The replies to the changes: whether all have arrived, and whether the one at
    [matched] has.  If the first one does not arrive, the reply to the scan is freed a
    second time. *)
Fixpoint change_replies (n i : nat) (matched : option nat) (all skip : bool) : M (bool * bool) :=
  match n with
  | O => ret (all, skip)
  | S n =>
      let! r := fetchReply in
      let done := bool_decide (is_Some r) in
      let! _ := lift (if (i =? 0)%nat && negb done then Undef else Ok tt) in
      change_replies n (S i) matched (all && done) (skip || (bool_decide (matched = Some i) && done))
  end.

Definition supersede (key : string) (containerId : Z) (isWrite : bool) (l : list string) : M (bool * bool) :=
  let '(fields, matched) := superseded containerId isWrite l 0 None in
  let! _ := appendCommands net (map (fun f => HSET key f "d") fields) in
  change_replies (length fields) 0 matched true false.

(** The script that stores a record and lists the file. *)
Definition journal_script (key filename : string) (fields : list (string * string)) (d : D) : reply * D :=
  let (e2, d) := exec d (HMSET key fields) in
  match e2 with
  | RError => (RError, d)
  | RStatus s => if bool_decide (s = "OK") then exec d (SADD JL_LIST_KEY filename) else (RInteger (-1), d)
  | _ => (RInteger (-1), d)
  end.

(** Writes of the chunk that are in the journal become deletions.  The cursor in the
    reply is a text, of which the code reads the number, which is 0: the scan ends
    after one round. *)
Definition addChunkToJournal (f : File.t) (chunk : Chunk.t) (containerId : Z) (isWrite : bool) : M bool :=
  let! key := lift (journal_key f) in
  let! filename := lift (versioned_key f (File.version f)) in
  let id := Chunk.chunkId chunk in
  let! r := redisCommand (HSCAN key "0" (genChunkKeyPrefix id +:+ "-op")) in
  match r with
  | Some (RScan _ _) | Some (RArray (_ :: _)) =>
      let l := match r with Some (RScan _ l) => l | _ => [] end in
      let! (all, skip) := supersede key containerId isWrite l in
      if negb all then ret false
      else if skip then ret true
      else
        let! r := evalCommand (journal_script key filename
                    [(journal_field id "size" containerId, raw_int (Chunk.size chunk));
                     (journal_field id "md5" containerId, bytes_string (Chunk.md5 chunk));
                     (journal_field id "op" containerId, op_text isWrite);
                     (journal_field id "status" containerId, "pre")]) in
        ret match r with Some (RInteger z) => negb (z =? -1) | _ => false end
  | _ => ret false
  end.

(** ** Changing a record *)

(** The script that removes a record, and the file when there is none left. *)
Definition remove_script (key filename : string) (fields : list string) (d : D) : reply * D :=
  let (e1, d) := exec d (HDEL key fields) in
  match e1 with
  | RError => (RError, d)
  | _ =>
      let (e2, d) := exec d (HLEN key) in
      match e2 with
      | RError => (RError, d)
      | RInteger 0 => exec d (SREM JL_LIST_KEY filename)
      | _ => (RInteger 2, d)
      end
  end.

(** The script that changes a record; the empty text it was to return otherwise is no
    part of it, and nothing is returned. *)
Definition update_record_script (key op status : string) (opType : string) (d : D) : reply * D :=
  let (e1, d) := exec d (HEXISTS key op) in
  match e1 with
  | RError => (RError, d)
  | _ =>
      let (e2, d) := exec d (HEXISTS key status) in
      match e2 with
      | RError => (RError, d)
      | _ => if bool_decide (e1 = RInteger 1 /\ e2 = RInteger 1) then exec d (HMSET key [(op, opType); (status, "post")])
             else (RNil, d)
      end
  end.

(** The message that is logged reads the reply to a change, also when there is none. *)
Definition updateChunkInJournal (f : File.t) (chunk : Chunk.t) (isWrite deleteRecord : bool) (containerId : Z) : M bool :=
  let! key := lift (journal_key f) in
  let! filename := lift (versioned_key f (File.version f)) in
  let field type := journal_field (Chunk.chunkId chunk) type containerId in
  if deleteRecord then
    let! r := evalCommand (remove_script key filename (map field ["size"; "md5"; "op"; "status"])) in
    ret (positive r)
  else
    let! r := evalCommand (update_record_script key (field "op") (field "status") (op_text isWrite)) in
    match r with
    | None => lift Undef
    | Some r => ret (bool_decide (r = OK))
    end.

(** ** Reading the journal *)

(** Where the records of the chunks found so far are, the records, and the parts of
    the last field. *)
Record parse_state := mk_parse { p_index : gmap (Z * Z) nat; p_records : list journal_record; p_parts : Z * string * Z }.

Definition no_parts : Z * string * Z := (INVALID_CHUNK_ID, "", INVALID_CONTAINER_ID).

Definition valid_parts (p : Z * string * Z) : bool :=
  let '(c, t, x) := p in negb (c =? INVALID_CHUNK_ID) && negb (bool_decide (t = "")) && negb (x =? INVALID_CONTAINER_ID).

Definition parse_field (st : parse_state) (field : string) : parse_state :=
  let '(c, t, x) := extractJournalFieldKeyParts field in
  if negb (valid_parts (c, t, x)) then mk_parse (p_index st) (p_records st) (c, t, x)
  else
    match p_index st !! (c, x) with
    | Some _ => mk_parse (p_index st) (p_records st) (c, t, x)
    | None => mk_parse (<[(c, x) := length (p_records st)]> (p_index st))
                       (p_records st ++ [mk_record (Chunk.setChunkId Chunk.reset c) x false false]) (c, t, x)
    end.

Definition with_md5 (c : Chunk.t) (b : list Z) : Chunk.t :=
  Chunk.mk (Chunk.namespaceId c) (Chunk.fuuid c) (Chunk.chunkId c) (Chunk.data c) (Chunk.size c) (Chunk.freeData c)
           (Chunk.fileVersion c) (Chunk.chunkVersion c) b.

Definition set_record (type value : string) (r : journal_record) : outcome journal_record :=
  let c := r_chunk r in
  if bool_decide (type = "md5") then
    let* b := copy_bytes MD5_DIGEST_LENGTH value in
    Ok (mk_record (with_md5 c b) (r_container r) (r_isWrite r) (r_isPre r))
  else if bool_decide (type = "size") then
    let* b := copy_bytes 4 value in
    Ok (mk_record (Chunk.set_size c (get_int b)) (r_container r) (r_isWrite r) (r_isPre r))
  else if bool_decide (type = "status") then Ok (mk_record c (r_container r) (r_isWrite r) (String.prefix "pre" value))
  else if bool_decide (type = "op") then Ok (mk_record c (r_container r) (String.prefix "w" value) (r_isPre r))
  else Ok r.

Definition parse_value (st : parse_state) (value : string) : outcome parse_state :=
  if negb (valid_parts (p_parts st)) then Ok st
  else
    let '(c, t, x) := p_parts st in
    match p_index st !! (c, x) with
    | Some i =>
        let* r := access (p_records st !! i) in
        let* r := set_record t value r in
        Ok (mk_parse (p_index st) (<[i := r]> (p_records st)) no_parts)
    | None => Ok (mk_parse (p_index st) (p_records st) no_parts)
    end.

Fixpoint parse_journal (l : list (option string)) (st : parse_state) : outcome parse_state :=
  match l with
  | [] => Ok st
  | [field] => Ok match field with Some s => parse_field st s | None => st end
  | field :: value :: l =>
      let st := match field with Some s => parse_field st s | None => st end in
      let* st := match value with
                 | Some s => parse_value st s
                 | None => if valid_parts (p_parts st) then Undef else Ok st
                 end in
      parse_journal l st
  end.

(** The records of a file, in the order in which the server lists their fields; none
    without a reply. *)
Definition getFileJournal (f : File.t) : M (list journal_record) :=
  let! key := lift (journal_key f) in
  let! r := redisCommand (HGETALL key) in
  match r with
  | Some (RArray l) => let! st := lift (parse_journal l (mk_parse ∅ [] no_parts)) in ret (p_records st)
  | _ => ret []
  end.

Fixpoint names_of (l : list (option string)) : outcome (list (string * Z * option Z)) :=
  match l with
  | [] => Ok []
  | None :: l => names_of l
  | Some s :: l =>
      match getNameFromFileKey s with
      | Ok n => let* ns := names_of l in Ok (n :: ns)
      | Fail => names_of l
      | Undef => Undef
      end
  end.

(** [None] is the return value -1. *)
Definition getFilesWithJounal : M (option (list (string * Z * option Z))) :=
  let! r := redisCommand (SMEMBERS JL_LIST_KEY) in
  match r with
  | Some (RArray l) => let! ns := lift (names_of l) in ret (Some ns)
  | _ => ret None
  end.

Definition fileHasJournal (f : File.t) : M bool :=
  let! filename := lift (versioned_key f (File.version f)) in
  let! r := redisCommand (SISMEMBER JL_LIST_KEY filename) in
  ret (bool_decide (r = Some (RInteger 1))).

End journal.
