(* ===== verification/JournalTheorems.v ===== *)
(** What the journals guarantee: the hash of a file represents one entry for each
    chunk and container, every operation changes exactly the entries it is about, and
    reading the journal returns every entry once, in whatever order the server lists
    the fields. *)

From Stdlib Require Import Ascii.
From stdpp Require Import pretty.
From S2P Require Import Prelude DS Wire File MetaKeys RedisServer MetaStore MetaTheorems MetaVersions MetaJournal.

#[local] Open Scope Z_scope.
#[local] Open Scope outcome_scope.
#[local] Open Scope session_scope.

(** * Names of fields *)

Definition digits_only (s : string) : Prop := Forall (fun a => is_Some (digit a)) (chars s).

Lemma digits_only_N (x : N) : digits_only (pretty x).
Proof.
  unfold digits_only, pretty, pretty_N. case_decide; [by repeat constructor; eexists|].
  assert (forall s, digits_only s -> digits_only (pretty_N_go x s)) as Hgo; [|apply Hgo; constructor].
  unfold digits_only. clear. induction (N.lt_wf_0 x) as [x _ IH]; intros s Hs. destruct (decide (0 < x)%N) as [Hx|Hx].
  - rewrite pretty_N_go_step by done. apply IH; [by apply N.div_lt|]. constructor; [|done].
    rewrite digit_pretty by (apply N.mod_lt; lia). by eexists.
  - by replace x with 0%N by lia.
Qed.

Lemma digits_only_Z (z : Z) : 0 <= z -> digits_only (pretty z).
Proof. intros Hz. destruct z as [|p|p]; [by repeat constructor; eexists|apply (digits_only_N (N.pos p))|lia]. Qed.

Lemma digits_only_free a s : digit a = None -> digits_only s -> free_of a s.
Proof. intros Ha Hs. eapply Forall_impl; [exact Hs|]. intros b [v Hb] ->. congruence. Qed.

(** A chunk and a container that the code can name. *)
Definition in_nat (z : Z) : Prop := 0 <= z < 2147483648.
Definition place_ok (k : Z * Z) : Prop := in_nat (fst k) /\ in_nat (snd k).

Lemma i32_nat z : in_nat z -> i32 z = z.
Proof. intros Hz. unfold in_nat in Hz. apply i32_small. lia. Qed.

Lemma drop_separator a s t : string_drop (String.length s + 1) (s +:+ String a t) = t.
Proof.
  apply chars_inj. rewrite chars_drop, chars_app. cbn [String.list_ascii_of_string].
  rewrite cons_middle, app_assoc. apply drop_own_length. by rewrite length_app, length_chars.
Qed.

Lemma take_before s t : string_take (String.length s) (s +:+ t) = s.
Proof. apply chars_inj. rewrite chars_take, chars_app. apply take_own_length. by rewrite length_chars. Qed.

Lemma parts_of_field c t x :
  place_ok (c, x) -> free_of "-" t -> extractJournalFieldKeyParts (journal_field c t x) = (c, t, x).
Proof.
  intros [Hc Hx] Ht. cbn [fst snd] in *. unfold extractJournalFieldKeyParts.
  assert (journal_field c t x = genChunkKeyPrefix c +:+ String "-" (t +:+ String "-" (pretty x))) as -> by done.
  rewrite first_index_app.
  2:{ constructor; [done|]. apply digits_only_free; [done|]. apply digits_only_Z, Hc. }
  rewrite drop_separator, first_index_app, drop_separator, !take_before by done.
  change (String.length (genChunkKeyPrefix c)) with (S (String.length (pretty c))). cbn [Nat.eqb].
  assert (string_drop 1 (genChunkKeyPrefix c) = pretty c) as -> by (apply chars_inj; by rewrite chars_drop).
  by rewrite !atoi_pretty_all, !i32_nat.
Qed.

Lemma journal_field_inj c t x c' t' x' :
  place_ok (c, x) -> place_ok (c', x') -> free_of "-" t -> free_of "-" t' ->
  journal_field c t x = journal_field c' t' x' -> c = c' /\ t = t' /\ x = x'.
Proof.
  intros Hk Hk' Ht Ht' E%(f_equal extractJournalFieldKeyParts). rewrite !parts_of_field in E by done. by simplify_eq.
Qed.

(** A field belongs to a chunk when its name begins as the scan asks for. *)
Lemma prefix_chars p k : String.prefix p k = true <-> exists t, k = p +:+ t.
Proof.
  revert k. induction p as [|a p IH]; intros k.
  - split; [intros _; by exists k|]. by destruct k.
  - destruct k as [|b k]; cbn; [split; [done|intros [t [=]]]|]. destruct (ascii_dec a b) as [->|Hne].
    + rewrite IH. split; intros [t E]; exists t; [by rewrite E|by injection E].
    + split; [done|]. intros [t [= E _]]. by destruct Hne.
Qed.

Definition types : list string := ["size"; "md5"; "op"; "status"].

Lemma types_free t : t ∈ types -> free_of "-" t.
Proof. unfold types. rewrite !elem_of_cons, elem_of_nil. intros [->|[->|[->|[->|[]]]]]; by repeat constructor. Qed.

Lemma prefix_free c : in_nat c -> free_of "-" (genChunkKeyPrefix c).
Proof. intros Hc. constructor; [done|]. apply digits_only_free; [done|]. apply digits_only_Z, Hc. Qed.

Lemma matching_field c c' t x :
  in_nat c -> in_nat c' -> t ∈ types -> matching (genChunkKeyPrefix c' +:+ "-op") (journal_field c t x) <-> c = c' /\ t = "op".
Proof.
  intros Hc Hc' Ht. unfold matching. rewrite prefix_chars.
  assert (forall u, (genChunkKeyPrefix c' +:+ "-op") +:+ u = genChunkKeyPrefix c' +:+ String "-" ("op" +:+ u)) as Eu
    by (intros u; apply string_app_assoc).
  split.
  - intros [u E]. rewrite Eu in E.
    change (genChunkKeyPrefix c +:+ String "-" (t +:+ String "-" (pretty x)) = genChunkKeyPrefix c' +:+ String "-" ("op" +:+ u)) in E.
    apply (f_equal chars) in E. rewrite !chars_app in E.
    apply sep_split in E as [E1%chars_inj E2%chars_inj]; [|by apply prefix_free..]. split.
    + apply (f_equal (fun s => match s with String _ u => atoi u | _ => 0 end)) in E1. change (atoi (pretty c) = atoi (pretty c')) in E1.
      by rewrite !atoi_pretty_all in E1.
    + unfold types in Ht. rewrite !elem_of_cons, elem_of_nil in Ht. by destruct Ht as [->|[->|[->|[->|[]]]]].
  - intros [-> ->]. exists (String "-" (pretty x)). by rewrite Eu.
Qed.

Lemma scan_pattern c : in_nat c -> plain_pattern (genChunkKeyPrefix c +:+ "-op").
Proof.
  intros Hc. unfold plain_pattern. rewrite chars_app. apply Forall_app_2; [|by repeat constructor].
  constructor; [done|]. eapply Forall_impl; [apply digits_only_Z, Hc|]. intros a [v Ha]. split_and!; intros ->; discriminate Ha.
Qed.

(** * The hash of a journal *)

(** What the journal says about a chunk in a container. *)
Record jentry := mk_jentry { j_size : Z; j_md5 : list Z; j_write : bool; j_pre : bool }.

Definition jentry_ok (e : jentry) : Prop := in_int (j_size e) /\ in_bytes (j_md5 e) /\ length (j_md5 e) = MD5_DIGEST_LENGTH.

Notation journal := (gmap (Z * Z) jentry).

Definition journal_ok (J : journal) : Prop := map_Forall (fun k e => place_ok k /\ jentry_ok e) J.

Definition status_text (pre : bool) : string := if pre then "pre" else "post".

(** The value of a field. *)
Definition value_of (e : jentry) (t : string) : string :=
  if bool_decide (t = "size") then raw_int (j_size e)
  else if bool_decide (t = "md5") then bytes_string (j_md5 e)
  else if bool_decide (t = "op") then op_text (j_write e)
  else status_text (j_pre e).

Definition field_of (k : Z * Z) (t : string) : string := journal_field (fst k) t (snd k).

(** The hash has exactly the fields of the entries. *)
Definition encodes (h : gmap string string) (J : journal) : Prop :=
  forall f v, h !! f = Some v <-> exists k e t, J !! k = Some e /\ t ∈ types /\ f = field_of k t /\ v = value_of e t.

Lemma field_of_inj k k' t t' :
  place_ok k -> place_ok k' -> t ∈ types -> t' ∈ types -> field_of k t = field_of k' t' -> k = k' /\ t = t'.
Proof.
  destruct k as [c x], k' as [c' x']. intros Hk Hk' Ht Ht' E.
  destruct (journal_field_inj c t x c' t' x') as (-> & -> & ->); auto using types_free.
Qed.

Lemma encodes_lookup h J k e t : encodes h J -> J !! k = Some e -> t ∈ types -> h !! field_of k t = Some (value_of e t).
Proof. intros He HJ Ht. apply He. by exists k, e, t. Qed.

Lemma encodes_none h J k t : encodes h J -> journal_ok J -> place_ok k -> t ∈ types -> J !! k = None -> h !! field_of k t = None.
Proof.
  intros He HJ Hk Ht Hn. apply eq_None_not_Some. intros [v (k' & e & t' & HJ' & Ht' & E & _)%He].
  apply field_of_inj in E as [-> _]; [congruence|done| |done..]. by apply (HJ _ _ HJ').
Qed.

Lemma encodes_empty h J : encodes h J -> h = ∅ <-> J = ∅.
Proof.
  intros He. split; intros ->; apply map_empty; intros k; apply eq_None_not_Some.
  - intros [e Hk]. pose proof (encodes_lookup _ _ _ _ "op" He Hk) as Hl. rewrite lookup_empty in Hl.
    discriminate Hl. by do 2 right; left.
  - intros [v (k' & e & t & Hk & _)%He]. by rewrite lookup_empty in Hk.
Qed.

(** One field of an entry is changed. *)
Lemma encodes_set h J k e e' t :
  encodes h J -> journal_ok J -> J !! k = Some e -> t ∈ types -> (forall t', t' <> t -> t' ∈ types -> value_of e' t' = value_of e t') ->
  encodes (<[field_of k t := value_of e' t]> h) (<[k := e']> J).
Proof.
  intros He HJ Hk Ht Hv f v. pose proof (proj1 (HJ _ _ Hk)) as Hpk. rewrite lookup_insert_Some. split.
  - intros [[<- <-]|[Hne (k1 & e1 & t1 & Hk1 & Ht1 & -> & ->)%He]].
    { exists k, e', t. by rewrite lookup_insert_eq. }
    destruct (decide (k1 = k)) as [->|Hnk].
    + exists k, e', t1. rewrite lookup_insert_eq. split_and!; try done. rewrite Hv by (done || congruence). congruence.
    + exists k1, e1, t1. by rewrite lookup_insert_ne.
  - intros (k1 & e1 & t1 & Hk1 & Ht1 & -> & ->). apply lookup_insert_Some in Hk1 as [[<- <-]|[Hnk Hk1]].
    + destruct (decide (t1 = t)) as [->|Hnt]; [by left|right]. split.
      * intros E. by apply field_of_inj in E as [_ <-].
      * rewrite Hv by done. by apply encodes_lookup with J.
    + right. split; [|by apply encodes_lookup with J].
      intros E. apply field_of_inj in E as [E _]; [done|done|by apply (HJ _ _ Hk1)|done..].
Qed.

(** A new entry, or one that is replaced. *)
Definition entry_fields (k : Z * Z) (e : jentry) : list (string * string) := map (fun t => (field_of k t, value_of e t)) types.

Lemma types_nodup : NoDup types.
Proof. unfold types. repeat constructor; rewrite ?elem_of_cons, elem_of_nil; naive_solver. Qed.

Lemma entry_fields_nodup k e : place_ok k -> NoDup (entry_fields k e).*1.
Proof.
  intros Hk. unfold entry_fields. rewrite <- list_fmap_compose. apply NoDup_fmap_2_strong; [|apply types_nodup].
  intros t t' Ht Ht' E. cbn in E. by apply field_of_inj in E as [_ E].
Qed.

Lemma set_fields_other h l f : f ∉ l.*1 -> set_fields h l !! f = h !! f.
Proof.
  revert h. induction l as [|[g v] l IH]; intros h Hf; [done|]. cbn in Hf. apply not_elem_of_cons in Hf as [Hne Hf].
  cbn [set_fields foldl fst snd]. fold (set_fields (<[g := v]> h) l). rewrite IH by done. by apply lookup_insert_ne.
Qed.

Lemma encodes_put h J k e :
  encodes h J -> journal_ok J -> place_ok k -> encodes (set_fields h (entry_fields k e)) (<[k := e]> J).
Proof.
  intros He HJ Hk f v. destruct (decide (f ∈ (entry_fields k e).*1)) as [Hf|Hf].
  - apply list_elem_of_fmap in Hf as ([g w] & -> & Hin). pose proof Hin as (t & [= -> ->] & Ht)%list_elem_of_fmap.
    cbn [fst] in *. rewrite (set_fields_lookup h _ _ _ (entry_fields_nodup k e Hk) Hin). split.
    + intros [= <-]. exists k, e, t. by rewrite lookup_insert_eq.
    + intros (k1 & e1 & t1 & Hk1 & Ht1 & E & ->). apply lookup_insert_Some in Hk1 as [[<- <-]|[Hnk Hk1]].
      * by apply field_of_inj in E as [_ <-].
      * apply field_of_inj in E as [E _]; [done|done|by apply (HJ _ _ Hk1)|done..].
  - rewrite set_fields_other by done. rewrite (He f v). split.
    + intros (k1 & e1 & t1 & Hk1 & Ht1 & -> & ->). exists k1, e1, t1. destruct (decide (k1 = k)) as [->|Hnk].
      * destruct Hf. unfold entry_fields. rewrite <- list_fmap_compose. by apply list_elem_of_fmap; exists t1.
      * by rewrite lookup_insert_ne.
    + intros (k1 & e1 & t1 & Hk1 & Ht1 & -> & ->). apply lookup_insert_Some in Hk1 as [[<- <-]|[Hnk Hk1]].
      * destruct Hf. unfold entry_fields. rewrite <- list_fmap_compose. by apply list_elem_of_fmap; exists t1.
      * by exists k1, e1, t1.
Qed.

(** An entry is removed. *)
Lemma lookup_delete_all (h : gmap string string) l f v : foldr delete h l !! f = Some v <-> f ∉ l /\ h !! f = Some v.
Proof.
  induction l as [|g l IH]; cbn [foldr]; [split; [intros; split; [apply not_elem_of_nil|done]|by intros []]|].
  rewrite lookup_delete_Some, IH, not_elem_of_cons. naive_solver.
Qed.

Lemma encodes_delete h J k :
  encodes h J -> journal_ok J -> place_ok k -> encodes (foldr delete h (map (field_of k) types)) (delete k J).
Proof.
  intros He HJ Hk f v. rewrite lookup_delete_all, (He f v). split.
  - intros [Hf (k1 & e1 & t1 & Hk1 & Ht1 & -> & ->)]. exists k1, e1, t1. rewrite lookup_delete_ne; [done|].
    intros <-. destruct Hf. by apply list_elem_of_fmap; exists t1.
  - intros (k1 & e1 & t1 & Hk1 & Ht1 & -> & ->). apply lookup_delete_Some in Hk1 as [Hne Hk1].
    split; [|by exists k1, e1, t1]. intros (t & E & Ht)%list_elem_of_fmap.
    apply field_of_inj in E as [E _]; [done|by apply (HJ _ _ Hk1)|done..].
Qed.

(** A journal of up to 32 entries is scanned at once. *)
Lemma length_field k t : place_ok k -> t ∈ types -> (String.length (field_of k t) <= 64)%nat.
Proof.
  intros [Hc Hx] Ht. unfold field_of, journal_field, genChunkKeyPrefix. rewrite !string_length_app.
  pose proof (length_pretty (fst k) ltac:(unfold in_nat, in_int in *; lia)).
  pose proof (length_pretty (snd k) ltac:(unfold in_nat, in_int in *; lia)).
  assert (String.length t <= 6)%nat by (unfold types in Ht; rewrite !elem_of_cons, elem_of_nil in Ht;
    destruct Ht as [->|[->|[->|[->|[]]]]]; cbn; lia).
  cbn [String.length]. lia.
Qed.

Lemma length_value e t : jentry_ok e -> (String.length (value_of e t) <= 64)%nat.
Proof.
  intros (_ & _ & Hl). unfold value_of, raw_int. repeat case_bool_decide.
  - rewrite length_bytes_string, length_le. lia.
  - rewrite length_bytes_string, Hl. unfold MD5_DIGEST_LENGTH. lia.
  - destruct (j_write e); cbn; lia.
  - destruct (j_pre e); cbn; lia.
Qed.

Lemma encodes_small h J : encodes h J -> journal_ok J -> (size J <= 32)%nat -> small_hash h.
Proof.
  intros He HJ Hsz. split.
  - set (l := concat (map (fun k => map (field_of k) types) (map fst (map_to_list J)))).
    assert (length l = 4 * size J)%nat as Hl.
    { unfold l. rewrite <- length_map_to_list. induction (map_to_list J) as [|p ps IH]; [done|].
      cbn [map concat]. rewrite length_app, IH. cbn. lia. }
    transitivity (length l); [|lia]. rewrite <- length_map_to_list, <- (length_fmap fst).
    apply NoDup_incl_length; [apply NoDup_ListNoDup, NoDup_fst_map_to_list|].
    intros f ([f' v] & -> & Hf)%list_elem_of_In%list_elem_of_fmap. apply elem_of_map_to_list, He in Hf as (k & e & t & Hk & Ht & E & _).
    cbn [fst] in *. subst f'. apply in_concat. exists (map (field_of k) types). split; [|by apply in_map, list_elem_of_In].
    apply in_map_iff. exists k. split; [done|]. apply in_map_iff. exists (k, e). split; [done|]. by apply list_elem_of_In, elem_of_map_to_list.
  - intros f v (k & e & t & Hk & Ht & -> & ->)%He. destruct (HJ _ _ Hk). split; [by apply length_field|by apply length_value].
Qed.

(** * Superseded writes *)

Definition unwrite (e : jentry) : jentry := mk_jentry (j_size e) (j_md5 e) false (j_pre e).

(** Every write of the chunk [c] becomes a deletion. *)
Definition demote (c : Z) (J : journal) : journal :=
  map_imap (fun k e => Some (if decide (fst k = c) then unwrite e else e)) J.

Lemma demote_lookup c J k : demote c J !! k = (fun e => if decide (fst k = c) then unwrite e else e) <$> J !! k.
Proof. unfold demote. rewrite map_lookup_imap. by destruct (J !! k). Qed.

Lemma demote_ok c J : journal_ok J -> journal_ok (demote c J).
Proof.
  intros HJ k e'. rewrite demote_lookup. intros (e & Hk & ->)%fmap_Some. destruct (HJ _ _ Hk). by case_decide.
Qed.

Lemma demote_empty c J : demote c J = ∅ <-> J = ∅.
Proof.
  split.
  - intros E. apply map_empty. intros k. pose proof (demote_lookup c J k) as Hk. rewrite E, lookup_empty in Hk. by destruct (J !! k).
  - intros ->. apply map_empty. intros k. by rewrite demote_lookup, lookup_empty.
Qed.

Lemma unwrite_alter_ok J k : journal_ok J -> journal_ok (alter unwrite k J).
Proof.
  intros HJ k' e'. destruct (decide (k = k')) as [->|Hne].
  - rewrite lookup_alter_eq. intros (e & Hk & ->)%fmap_Some. by destruct (HJ _ _ Hk).
  - rewrite lookup_alter_ne by done. apply HJ.
Qed.

(** The changes of a list of fields. *)
Definition set_deleted (h : gmap string string) (fs : list string) : gmap string string := foldl (fun h f => <[f := "d"]> h) h fs.

Lemma encodes_unwrite h J k : encodes h J -> journal_ok J -> is_Some (J !! k) ->
  encodes (<[field_of k "op" := "d"]> h) (alter unwrite k J).
Proof.
  intros He HJ [e Hk]. pose proof (encodes_set h J k e (unwrite e) "op" He HJ Hk) as Hs.
  assert (alter unwrite k J = <[k := unwrite e]> J) as ->.
  { apply map_eq. intros k'. destruct (decide (k = k')) as [->|Hne]; [by rewrite lookup_alter_eq, lookup_insert_eq, Hk|].
    by rewrite lookup_alter_ne, lookup_insert_ne. }
  apply Hs; [by do 2 right; left|]. intros t Hne _. unfold value_of, unwrite. cbn. by repeat case_bool_decide.
Qed.

Lemma encodes_set_deleted ks h J : encodes h J -> journal_ok J -> (forall k, k ∈ ks -> is_Some (J !! k)) ->
  exists J', encodes (set_deleted h (map (fun k => field_of k "op") ks)) J' /\
    forall k, J' !! k = (fun e => if decide (k ∈ ks) then unwrite e else e) <$> J !! k.
Proof.
  revert h J. induction ks as [|k ks IH]; intros h J He HJ Hks.
  { exists J. split; [done|]. intros k. destruct (J !! k); [|done]. cbn. by rewrite decide_False by apply not_elem_of_nil. }
  destruct (IH (<[field_of k "op" := "d"]> h) (alter unwrite k J)) as (J' & He' & HJ').
  - apply encodes_unwrite; [done..|]. apply Hks, elem_of_cons. by left.
  - by apply unwrite_alter_ok.
  - intros k' Hk'. destruct (Hks k') as [e E]; [apply elem_of_cons; by right|]. rewrite lookup_alter. destruct (decide (k = k')) as [->|]; rewrite E; by eexists.
  - exists J'. split; [done|]. intros k'. rewrite HJ'. rewrite lookup_alter. destruct (decide (k = k')) as [<-|Hne].
    + destruct (J !! k); [|done]. cbn [fmap option_fmap option_map]. f_equal.
      rewrite (decide_True (P := k ∈ k :: ks)) by (apply elem_of_cons; by left). by case_decide.
    + destruct (J !! k') as [e|]; [|done]. cbn. f_equal. apply decide_ext. rewrite elem_of_cons. naive_solver.
Qed.

(** What the scan for the operations on a chunk finds. *)
Lemma scan_finds h J c l x :
  encodes h J -> journal_ok J -> in_nat c ->
  l ≡ₚ filter (fun x => matching (genChunkKeyPrefix c +:+ "-op") (fst x)) (map_to_list h) ->
  x ∈ l <-> exists k e, J !! k = Some e /\ fst k = c /\ x = (field_of k "op", op_text (j_write e)).
Proof.
  intros He HJ Hc ->. rewrite list_elem_of_filter. destruct x as [f v]. rewrite elem_of_map_to_list. cbn [fst]. split.
  - intros [Hm (k & e & t & Hk & Ht & -> & ->)%He]. apply matching_field in Hm as [Ek ->]; [|by apply (HJ _ _ Hk)|done..].
    by exists k, e.
  - intros (k & e & Hk & <- & [= -> ->]). split.
    + apply matching_field; [done..|by do 2 right; left|done].
    + by apply (encodes_lookup h J k e "op"); [..|do 2 right; left].
Qed.

Definition is_write (x : string * string) : Prop := String.prefix "w" (snd x) = true.
#[local] Instance is_write_dec x : Decision (is_write x).
Proof. unfold is_write. apply _. Defined.

Lemma superseded_spec cid w l num m0 : exists m,
  superseded cid w (flat l) num m0 = (map fst (filter is_write l), m) /\
  (is_Some m <-> is_Some m0 \/ (w = false /\ exists x, x ∈ filter is_write l /\ (extractJournalFieldKeyParts (fst x)).2 = cid)) /\
  (forall i, m = Some i -> m0 = Some i \/ (num <= i < num + length (filter is_write l))%nat).
Proof.
  revert num m0. induction l as [|[f v] l IH]; intros num m0.
  { exists m0. split; [done|]. split; [|by left]. split; [by left|]. intros [?|(_ & x & Hx & _)]; [done|by apply elem_of_nil in Hx]. }
  cbn [flat map concat app superseded fst snd]. rewrite filter_cons. fold (flat l).
  destruct (decide (is_write (f, v))) as [Hw|Hw]; unfold is_write in Hw; cbn [snd] in Hw;
    [rewrite Hw|rewrite (not_true_is_false _ Hw); apply IH].
  destruct (IH (S num) (if (((extractJournalFieldKeyParts f).2 =? cid) && negb w) then Some num else m0)) as (m & -> & Hm & Hb).
  exists m. split; [done|]. split.
  - rewrite Hm. destruct (Z.eqb_spec (extractJournalFieldKeyParts f).2 cid) as [Ec|Ec]; destruct w; cbn [andb negb].
    + split; [intros [?|[? _]]; [by left|done]|intros [?|[? _]]; [by left|done]].
    + split; [intros _; right; split; [done|]; exists (f, v); by split; [apply elem_of_cons; left|]|left; by eexists].
    + split; [intros [?|[? _]]; [by left|done]|intros [?|[? _]]; [by left|done]].
    + split; (intros [?|(_ & x & Hx & E)]; [by left|right; split; [done|]]).
      * exists x. split; [apply elem_of_cons; by right|done].
      * apply elem_of_cons in Hx as [->|Hx]; [by destruct Ec|]. by exists x.
  - intros i Hi. cbn [length]. destruct (Hb i Hi) as [E|?]; [|right; lia].
    destruct (_ && _); [injection E as <-; right; lia|by left].
Qed.

Lemma change_replies_spec {D} `{Server D} n i matched skip (d : D) m q :
  length q = n -> Forall arrives q ->
  change_replies n i matched true skip (mk_session d m q) =
    Ok ((true, skip || match matched with Some j => (i <=? j)%nat && (j <? i + n)%nat | None => false end), mk_session d m []).
Proof.
  intros <- Hq. revert i skip. induction Hq as [|r q [r' ->] _ IH]; intros i skip; cbn [length change_replies].
  { unfold ret. destruct matched as [j|]; rewrite ?orb_false_r; [|done]. do 3 f_equal. symmetry.
    destruct (Nat.leb_spec i j), (Nat.ltb_spec j (i + 0)); try lia; by rewrite orb_false_r. }
  unfold bind, fetchReply, lift. cbn [pending db sent]. rewrite (bool_decide_eq_true_2 (is_Some (Some r'))) by done. cbn [andb negb].
  rewrite andb_false_r. cbn [obind]. rewrite IH. do 3 f_equal. rewrite andb_true_r, <- orb_assoc. f_equal. destruct matched as [j|]; [|done].
  destruct (Nat.leb_spec i j), (Nat.leb_spec (S i) j), (Nat.ltb_spec j (S i + length q)), (Nat.ltb_spec j (i + S (length q)));
    case_bool_decide; simplify_eq; try lia; try done; exfalso; assert (j = i) by lia; congruence.
Qed.

(** What changing a record does, when there is one. *)
Definition spec_update (k : Z * Z) (w : bool) (J : journal) : journal :=
  match J !! k with Some e => <[k := mk_jentry (j_size e) (j_md5 e) w false]> J | None => J end.

Lemma op_type : "op" ∈ types.
Proof. by do 2 right; left. Qed.

Lemma status_type : "status" ∈ types.
Proof. by do 3 right; left. Qed.

Lemma encodes_update h J k e w :
  encodes h J -> journal_ok J -> J !! k = Some e ->
  encodes (set_fields h [(field_of k "op", op_text w); (field_of k "status", "post")]) (<[k := mk_jentry (j_size e) (j_md5 e) w false]> J).
Proof.
  intros He HJ Hk. set (e1 := mk_jentry (j_size e) (j_md5 e) w (j_pre e)). destruct (HJ _ _ Hk) as [Hpk Hek].
  assert (encodes (<[field_of k "op" := op_text w]> h) (<[k := e1]> J)) as He1.
  { apply (encodes_set h J k e e1 "op"); [done..|apply op_type|]. intros t Ht _. unfold value_of. cbn. by repeat case_bool_decide. }
  rewrite <- (insert_insert_eq J k _ e1).
  apply (encodes_set _ (<[k := e1]> J) k e1 (mk_jentry (j_size e) (j_md5 e) w false) "status"); [done|..].
  - intros k' e'. rewrite lookup_insert_Some. intros [[<- <-]|[_ Hk']]; [by split|by apply HJ].
  - apply lookup_insert_eq.
  - apply status_type.
  - intros t Ht Hin. unfold value_of. repeat case_bool_decide; try done. exfalso. unfold types in Hin. set_solver.
Qed.

(** * Reading the hash *)

(** The record of an entry of which the fields [fs] have been read. *)
Definition partial (fs : list string) (k : Z * Z) (e : jentry) : journal_record :=
  let has t := bool_decide (field_of k t ∈ fs) in
  mk_record (Chunk.mk INVALID_NAMESPACE_ID 0 (fst k) None (if has "size" then j_size e else 0) true 0 ""
                      (if has "md5" then j_md5 e else Chunk.zeroMD5))
            (snd k) (if has "op" then j_write e else false) (if has "status" then j_pre e else false).

(** The record of an entry. *)
Definition record_of (k : Z * Z) (e : jentry) : journal_record :=
  mk_record (Chunk.mk INVALID_NAMESPACE_ID 0 (fst k) None (j_size e) true 0 "" (j_md5 e)) (snd k) (j_write e) (j_pre e).

Lemma has_next fs k t t' : place_ok k -> t ∈ types -> t' ∈ types ->
  bool_decide (field_of k t' ∈ fs ++ [field_of k t]) = bool_decide (t' = t) || bool_decide (field_of k t' ∈ fs).
Proof.
  intros Hk Ht Ht'. apply eq_true_iff_eq. rewrite orb_true_iff, !bool_decide_eq_true, elem_of_app, list_elem_of_singleton. split.
  - intros [?|E]; [by right|left]. by apply field_of_inj in E as [_ ->].
  - intros [->|?]; [by right|by left].
Qed.

Lemma copy_md5 b : in_bytes b -> length b = MD5_DIGEST_LENGTH -> copy_bytes MD5_DIGEST_LENGTH (bytes_string b) = Ok b.
Proof.
  intros Hb Hl. unfold copy_bytes. rewrite string_bytes_string by done. rewrite <- Hl, block_read_in by lia. cbn [access].
  by rewrite slice_all.
Qed.

Lemma set_record_ok fs k e t :
  place_ok k -> jentry_ok e -> t ∈ types -> set_record t (value_of e t) (partial fs k e) = Ok (partial (fs ++ [field_of k t]) k e).
Proof.
  intros Hk (Hs & Hm & Hml) Ht. pose proof (fun t' => has_next fs k t t' Hk Ht) as Hn. unfold partial at 2.
  rewrite !Hn by (unfold types; set_solver). unfold types in Ht. rewrite !elem_of_cons, elem_of_nil in Ht. unfold set_record, value_of.
  destruct Ht as [->|[->|[->|[->|[]]]]];
    repeat ((rewrite bool_decide_eq_true_2 by done) || (rewrite (bool_decide_eq_false_2 (_ = _)) by done)); cbn [orb].
  - pose proof (copy_int (j_size e) Hs) as Hc. destruct (copy_bytes 4 (raw_int (j_size e))); try done. cbn [obind] in *. injection Hc as Hc.
    by rewrite Hc.
  - by rewrite copy_md5.
  - by destruct (j_write e).
  - by destruct (j_pre e).
Qed.

Lemma partial_other fs k k' e t : place_ok k -> place_ok k' -> t ∈ types -> k' <> k -> partial (fs ++ [field_of k t]) k' e = partial fs k' e.
Proof.
  intros Hk Hk' Ht Hne. assert (forall t', t' ∈ types -> bool_decide (field_of k' t' ∈ fs ++ [field_of k t]) = bool_decide (field_of k' t' ∈ fs)) as E.
  { intros t' Ht'. apply bool_decide_ext. rewrite elem_of_app, list_elem_of_singleton. split; [|by left].
    intros [?|E]; [done|]. by apply field_of_inj in E as [-> _]. }
  unfold partial. by rewrite !E by (unfold types; set_solver).
Qed.

Lemma partial_none fs k e : (forall t, t ∈ types -> field_of k t ∉ fs) ->
  partial fs k e = mk_record (Chunk.setChunkId Chunk.reset (fst k)) (snd k) false false.
Proof. intros Hn. unfold partial. by rewrite !bool_decide_eq_false_2 by (apply Hn; unfold types; set_solver). Qed.

Lemma partial_all fs k e : (forall t, t ∈ types -> field_of k t ∈ fs) -> partial fs k e = record_of k e.
Proof. intros Hn. unfold partial. by rewrite !bool_decide_eq_true_2 by (apply Hn; unfold types; set_solver). Qed.

Definition entry_at (J : journal) (k : Z * Z) : jentry := default (mk_jentry 0 [] false false) (J !! k).

(** After the fields [fs]: the places found so far, in order, with what is known of
    each. *)
Record parsed (J : journal) (fs : list string) (order : list (Z * Z)) (st : parse_state) : Prop := {
  parsed_nodup : NoDup order;
  parsed_index : forall k i, p_index st !! k = Some i <-> order !! i = Some k;
  parsed_records : p_records st = map (fun k => partial fs k (entry_at J k)) order;
  parsed_order : forall k, k ∈ order <-> is_Some (J !! k) /\ exists t, t ∈ types /\ field_of k t ∈ fs;
  parsed_parts : p_parts st = no_parts
}.

Lemma valid_place k t : place_ok k -> t ∈ types -> valid_parts (fst k, t, snd k) = true.
Proof.
  intros [Hc Hx] Ht. unfold in_nat, valid_parts, INVALID_CHUNK_ID, INVALID_CONTAINER_ID in *.
  rewrite bool_decide_eq_false_2 by (unfold types in Ht; set_solver).
  destruct (Z.eqb_spec (fst k) (-1)), (Z.eqb_spec (snd k) (-1)); try lia; done.
Qed.

Lemma field_found J fs order st k e t :
  journal_ok J -> parsed J fs order st -> J !! k = Some e -> t ∈ types -> exists order' i,
  let st' := parse_field st (field_of k t) in
  p_parts st' = (fst k, t, snd k) /\ NoDup order' /\ (forall k i, p_index st' !! k = Some i <-> order' !! i = Some k) /\
  p_records st' = map (fun k => partial fs k (entry_at J k)) order' /\ order' !! i = Some k /\
  (forall k', k' ∈ order' <-> k' ∈ order \/ k' = k).
Proof.
  intros HJ [Hnd Hidx Hrec Hord _] Hk Ht. destruct (HJ _ _ Hk) as [Hpk _]. unfold parse_field.
  assert (extractJournalFieldKeyParts (field_of k t) = (fst k, t, snd k)) as ->.
  { apply parts_of_field; [by destruct k|by apply types_free]. }
  rewrite valid_place by done. cbn [negb]. replace (fst k, snd k) with k by (by destruct k). destruct (p_index st !! k) as [i|] eqn:Ei; cbn [p_index p_records p_parts].
  - pose proof (proj1 (Hidx k i) Ei) as Hi. exists order, i. split_and!; try done.
    intros k'. split; [by left|]. intros [?| ->]; [done|by apply list_elem_of_lookup_2 in Hi].
  - assert (k ∉ order) as Hni.
    { intros [j Hj]%list_elem_of_lookup_1. apply Hidx in Hj. congruence. }
    assert (length (p_records st) = length order) as El by (by rewrite Hrec, length_map).
    exists (order ++ [k]), (length order). rewrite El. split_and!.
    + done.
    + apply NoDup_app. split; [done|]. split; [|apply NoDup_singleton]. intros x Hx ->%list_elem_of_singleton. done.
    + intros k' i. rewrite lookup_insert_Some, lookup_snoc_Some, Hidx. split.
      * intros [[<- <-]|[Hne Hi]]; [by right|left]. split; [by apply lookup_lt_Some in Hi|done].
      * intros [[_ Hi]|[-> <-]]; [right|by left]. split; [|done]. intros <-. by apply list_elem_of_lookup_2 in Hi.
    + rewrite map_app. f_equal; [done|]. cbn [map]. f_equal. symmetry. apply partial_none. intros t' Ht' Hf.
      apply Hni, Hord. split; [by eexists|]. by exists t'.
    + apply list_lookup_middle. done.
    + intros k'. by rewrite elem_of_app, list_elem_of_singleton.
Qed.

Lemma pair_parsed J fs order st k e t :
  journal_ok J -> parsed J fs order st -> J !! k = Some e -> t ∈ types -> exists order' st',
  parse_value (parse_field st (field_of k t)) (value_of e t) = Ok st' /\ parsed J (fs ++ [field_of k t]) order' st'.
Proof.
  intros HJ Hp Hk Ht. destruct (HJ _ _ Hk) as [Hpk Hek].
  destruct (field_found J fs order st k e t HJ Hp Hk Ht) as (order' & i & Hparts & Hnd & Hidx & Hrec & Hi & Hin).
  set (st1 := parse_field st (field_of k t)) in *. cbn zeta in *.
  assert (forall k', k' ∈ order' -> place_ok k') as Hplaces.
  { intros k' [Hk'| ->]%Hin; [|done]. apply (parsed_order _ _ _ _ Hp) in Hk' as [[e' He'] _]. by destruct (HJ _ _ He'). }
  exists order'. unfold parse_value. rewrite Hparts.
  rewrite valid_place by done. cbn [negb]. replace (fst k, snd k) with k by (by destruct k). rewrite (proj2 (Hidx k i) Hi).
  assert (entry_at J k = e) as He by (unfold entry_at; by rewrite Hk).
  assert (p_records st1 !! i = Some (partial fs k e)) as Hr by (rewrite Hrec; change (map ?g order') with (g <$> order'); by rewrite list_lookup_fmap, Hi; cbn; rewrite He).
  rewrite Hr. cbn [access obind]. rewrite set_record_ok by done. cbn [obind]. eexists. split; [done|]. constructor; cbn [p_index p_records p_parts]; try done.
  - apply list_eq. intros j. change (map ?g order') with (g <$> order'). rewrite list_lookup_fmap. destruct (decide (j = i)) as [->|Hne].
    + rewrite list_lookup_insert_eq by (by apply lookup_lt_Some in Hr). rewrite Hi. cbn. by rewrite He.
    + rewrite list_lookup_insert_ne by done. rewrite Hrec. change (map ?g order') with (g <$> order'). rewrite list_lookup_fmap.
      destruct (order' !! j) as [k'|] eqn:Ej; [|done]. cbn. f_equal. symmetry. apply partial_other; [done| |done|].
      * apply Hplaces. by apply list_elem_of_lookup_2 in Ej.
      * intros ->. apply Hne. by apply (NoDup_lookup order' j i k).
  - intros k'. rewrite Hin, (parsed_order _ _ _ _ Hp). setoid_rewrite elem_of_app. setoid_rewrite list_elem_of_singleton. split.
    + intros [[HJ' (t' & Ht' & Hf)]| ->]; [split; [done|]; by exists t'; split; [|left]|split; [by eexists|]; by exists t; split; [|right]].
    + intros [[e' He'] (t' & Ht' & [Hf|E])]; [left; split; [by eexists|by exists t']|right].
      apply field_of_inj in E as [-> _]; try done. by destruct (HJ _ _ He').
Qed.

Lemma journal_parsed J l : journal_ok J ->
  (forall x, x ∈ l -> exists k e t, J !! k = Some e /\ t ∈ types /\ x = (field_of k t, value_of e t)) ->
  forall fs order st, parsed J fs order st -> exists order' st',
  parse_journal (concat (map (fun p => [Some (fst p); Some (snd p)]) l)) st = Ok st' /\ parsed J (fs ++ map fst l) order' st'.
Proof.
  intros HJ. induction l as [|x l IH]; intros Hl fs order st Hp.
  { exists order, st. split; [done|]. by rewrite app_nil_r. }
  destruct (Hl x) as (k & e & t & Hk & Ht & ->); [apply elem_of_cons; by left|]. cbn [map concat app parse_journal fst snd].
  destruct (pair_parsed J fs order st k e t HJ Hp Hk Ht) as (order1 & st1 & -> & Hp1). cbn [obind].
  destruct (IH (fun x Hx => Hl x (list_elem_of_further x _ l Hx)) _ _ _ Hp1) as (order2 & st2 & E & Hp2).
  exists order2, st2. split; [done|]. by rewrite cons_middle, app_assoc.
Qed.

(** Every entry is returned once, whatever the order of the fields. *)
Lemma parse_complete h J l :
  encodes h J -> journal_ok J -> l ≡ₚ map_to_list h -> exists st,
  parse_journal (concat (map (fun p => [Some (fst p); Some (snd p)]) l)) (mk_parse ∅ [] no_parts) = Ok st /\
  p_records st ≡ₚ map (fun p => record_of (fst p) (snd p)) (map_to_list J).
Proof.
  intros He HJ Hl. assert (forall f w, (f, w) ∈ l <-> h !! f = Some w) as Hin by (intros f w; by rewrite Hl, elem_of_map_to_list).
  destruct (journal_parsed J l HJ) with (fs := @nil string) (order := @nil (Z * Z)) (st := mk_parse ∅ [] no_parts) as (order & st & E & [Hnd _ Hrec Hord _]).
  - intros [f w] (k & e & t & Hk & Ht & -> & ->)%Hin%He. by exists k, e, t.
  - constructor; cbn; try done; [constructor|..].
    + intros k. split; [by intros ?%elem_of_nil|]. intros [_ (t & _ & ?%elem_of_nil)]. done.
  - exists st. split; [done|]. rewrite app_nil_l in *. rewrite Hrec.
    assert (forall k e t, J !! k = Some e -> t ∈ types -> field_of k t ∈ map fst l) as Hall.
    { intros k e t Hk Ht. apply list_elem_of_In, in_map_iff. exists (field_of k t, value_of e t). split; [done|].
      apply list_elem_of_In, Hin. by apply (encodes_lookup h J). }
    assert (order ≡ₚ (map_to_list J).*1) as Ho.
    { apply NoDup_Permutation; [done|apply NoDup_fst_map_to_list|]. intros k. rewrite Hord. split.
      - intros [[e Hk] _]. apply list_elem_of_fmap. exists (k, e). split; [done|]. by apply elem_of_map_to_list.
      - intros ([k' e] & -> & Hk%elem_of_map_to_list)%list_elem_of_fmap. cbn. split; [by eexists|].
        exists "op". split; [apply op_type|]. by apply (Hall k' e); [|apply op_type]. }
    rewrite Ho. change ((map_to_list J).*1) with (map fst (map_to_list J)). rewrite map_map. apply Permutation_refl', map_ext_in.
    intros [k e] Hk%list_elem_of_In%elem_of_map_to_list. cbn. unfold entry_at. rewrite Hk. apply partial_all. intros t. by apply (Hall k e).
Qed.

(** * The operations *)

Section journal.
Context {D : Type} `{ServerLaws D} (net : nat -> link) (Hnet : answered net).
Context (ns : Z) (n : string) (v : Z) (Hok : name_ok ns n) (Hv : in_int v).
Implicit Types (s : session D) (m : keyspace) (J : journal).

Notation jkey := (genFileJournalKey ns n v).
Notation vkey := (genVersionedFileKey ns n v).

(** The key has to fit its buffer of 64 bytes. *)
Context (Hlen : (String.length jkey < MAX_KEY_SIZE)%nat).

(** The file and version whose journal this is. *)
Definition of_version (f : File.t) : Prop := named ns n f /\ File.version f = v.

Lemma journal_key_ok f : of_version f -> journal_key f = Ok jkey.
Proof using Hok Hlen.
  intros [[Hn Hns] Hver]. destruct Hok as (Ht & _ & _). unfold journal_key, the_name. rewrite Hn, Hns, Hver. cbn [access obind].
  rewrite print_name_id by done. by apply key_buffer_ok.
Qed.

Lemma journal_not_list : jkey <> JL_LIST_KEY.
Proof using. unfold genFileJournalKey, genFileJournalKeyPrefix. case_match; discriminate. Qed.

(** The hash of the journal and the set of files with one. *)
Definition keeps m J : Prop :=
  (exists h, hash m jkey = Some h /\ encodes h J) /\ (exists ks, members m JL_LIST_KEY = Some ks /\ (vkey ∈ ks <-> J <> ∅)).

(** Nothing else changes. *)
Definition others m m' : Prop :=
  (forall k, k <> jkey -> k <> JL_LIST_KEY -> m' !! k = m !! k) /\
  (forall ks, members m JL_LIST_KEY = Some ks -> exists ks', members m' JL_LIST_KEY = Some ks' /\ forall x, x <> vkey -> x ∈ ks' <-> x ∈ ks).

Lemma others_refl m : others m m.
Proof using. split; [done|]. intros ks Hks. by exists ks. Qed.

Lemma others_trans m1 m2 m3 : others m1 m2 -> others m2 m3 -> others m1 m3.
Proof using.
  intros [H1 L1] [H2 L2]. split; [intros k Hj Hl; rewrite H2 by done; by apply H1|].
  intros ks Hks. destruct (L1 ks Hks) as (ks' & Hks' & E1). destruct (L2 ks' Hks') as (ks2 & Hks2 & E2).
  exists ks2. split; [done|]. intros x Hx. by rewrite E2, E1.
Qed.

(** Commands on the hash alone. *)
Lemma hash_put_hash m k h : hash (put_hash m k h) k = Some h.
Proof using. unfold hash, put_hash. case_decide as E; [by rewrite lookup_delete_eq, E|by rewrite lookup_insert_eq]. Qed.

Lemma put_hash_ne m k h k' : k <> k' -> put_hash m k h !! k' = m !! k'.
Proof using. intros Hne. unfold put_hash. case_decide; [by rewrite lookup_delete_ne|by rewrite lookup_insert_ne]. Qed.

Lemma others_put_hash m h : others m (put_hash m jkey h).
Proof using.
  split; [intros k Hj _; by apply put_hash_ne|]. intros ks Hks. exists ks. split; [|done].
  unfold members in *. rewrite put_hash_ne; [done|apply journal_not_list].
Qed.

Lemma members_put_hash m h : members (put_hash m jkey h) JL_LIST_KEY = members m JL_LIST_KEY.
Proof using. unfold members. rewrite put_hash_ne; [done|apply journal_not_list]. Qed.

Lemma hsets_effect fs m h : hash m jkey = Some h -> let m' := apply_all m (map (fun f => HSET jkey f "d") fs) in
  hash m' jkey = Some (set_deleted h fs) /\ members m' JL_LIST_KEY = members m JL_LIST_KEY /\ others m m'.
Proof using.
  revert m h. induction fs as [|f fs IH]; intros m h Hh; [split_and!; [done..|apply others_refl]|].
  cbn [map apply_all foldl run]. rewrite Hh. cbn [snd].
  destruct (IH (put_hash m jkey (<[f := "d"]> h)) _ (hash_put_hash _ _ _)) as (E1 & E2 & E3). cbn zeta.
  split_and!; [done|etransitivity; [exact E2|apply members_put_hash]|]. eapply others_trans; [apply others_put_hash|done].
Qed.

(** The scan and the changes it leads to. *)
Lemma scan_ok c s h J : hash (contents (db s)) jkey = Some h -> encodes h J -> journal_ok J -> (size J <= 32)%nat -> in_nat c -> pending s = [] ->
  exists cur l s', redisCommand net (HSCAN jkey "0" (genChunkKeyPrefix c +:+ "-op")) s = Ok (Some (RScan cur (flat l)), s') /\
    (forall x, x ∈ l <-> exists k e, J !! k = Some e /\ fst k = c /\ x = (field_of k "op", op_text (j_write e))) /\
    contents (db s') = contents (db s) /\ pending s' = [].
Proof using H0 Hnet.
  intros Hh He HJ Hsz Hc Hp.
  destruct (command_any net Hnet (HSCAN jkey "0" (genChunkKeyPrefix c +:+ "-op")) s Hp) as (r & s' & E & Hs & Hp').
  cbn [serves] in Hs. rewrite Hh in Hs. destruct Hs as (Hm & cur & l & -> & _ & Hall).
  destruct Hall as [_ Hl]; [by apply scan_pattern|by apply (encodes_small h J)|done|].
  exists cur, l, s'. split_and!; try done. intros x. by apply (scan_finds h J c l x).
Qed.

(** The places of the writes among what was found. *)
Lemma writes_found c l J : journal_ok J ->
  (forall x, x ∈ l <-> exists k e, J !! k = Some e /\ fst k = c /\ x = (field_of k "op", op_text (j_write e))) ->
  exists ks, map fst (filter is_write l) = map (fun k => field_of k "op") ks /\
    (forall k, k ∈ ks <-> exists e, J !! k = Some e /\ fst k = c /\ j_write e = true) /\
    (forall cid, (exists x, x ∈ filter is_write l /\ (extractJournalFieldKeyParts (fst x)).2 = cid) <-> (c, cid) ∈ ks).
Proof using.
  intros HJ Hl. set (ws := filter is_write l).
  assert (forall x, x ∈ ws <-> exists k e, J !! k = Some e /\ fst k = c /\ j_write e = true /\ x = (field_of k "op", "w")) as Hws.
  { intros x. unfold ws. rewrite list_elem_of_filter, Hl. split.
    - intros [Hw (k & e & Hk & Ec & ->)]. exists k, e. unfold is_write in Hw. cbn in Hw. by destruct (j_write e).
    - intros (k & e & Hk & Ec & Hw & ->). split; [done|]. exists k, e. by rewrite Hw. }
  assert (forall k e, J !! k = Some e -> extractJournalFieldKeyParts (field_of k "op") = (fst k, "op", snd k)) as Hparts.
  { intros [c0 x0] e Hk. unfold field_of. apply parts_of_field; [by apply (HJ _ _ Hk)|by repeat constructor]. }
  set (place := fun f => let '(c, _, x) := extractJournalFieldKeyParts f in (c, x)).
  assert (forall k e, J !! k = Some e -> place (field_of k "op") = k) as Hplace.
  { intros k e Hk. unfold place. rewrite (Hparts k e Hk). by destruct k. }
  assert (forall k, k ∈ map (fun x => place (fst x)) ws <-> exists e, J !! k = Some e /\ fst k = c /\ j_write e = true) as Hks.
  { intros k. rewrite list_elem_of_In, in_map_iff. split.
    - intros (x & <- & Hx%list_elem_of_In). apply Hws in Hx as (k' & e & Hk & Ec & Hw & ->). cbn [fst]. rewrite (Hplace k' e) by done. by exists e.
    - intros (e & Hk & Ec & Hw). exists (field_of k "op", "w"). cbn [fst]. split; [by apply (Hplace k e)|].
      apply list_elem_of_In, Hws. by exists k, e. }
  exists (map (fun x => place (fst x)) ws). split_and!; [|done|].
  - rewrite map_map. apply map_ext_in. intros x Hx%list_elem_of_In. apply Hws in Hx as (k & e & Hk & _ & _ & ->).
    cbn [fst]. by rewrite (Hplace k e).
  - intros cid. rewrite Hks. split.
    + intros (x & (k & e & Hk & Ec & Hw & ->)%Hws & E). cbn [fst] in E. rewrite (Hparts k e Hk) in E. exists e. destruct k. by simplify_eq/=.
    + intros (e & Hk & _ & Hw). exists (field_of (c, cid) "op", "w"). cbn [fst]. rewrite (Hparts _ e Hk). split; [|done].
      apply Hws. by exists (c, cid), e.
Qed.

Lemma supersede_ok c cid w l s h J :
  hash (contents (db s)) jkey = Some h -> encodes h J -> journal_ok J -> pending s = [] ->
  (forall x, x ∈ l <-> exists k e, J !! k = Some e /\ fst k = c /\ x = (field_of k "op", op_text (j_write e))) ->
  exists skip s' h', supersede net jkey cid w (flat l) s = Ok ((true, skip), s') /\ pending s' = [] /\
    hash (contents (db s')) jkey = Some h' /\ encodes h' (demote c J) /\
    members (contents (db s')) JL_LIST_KEY = members (contents (db s)) JL_LIST_KEY /\ others (contents (db s)) (contents (db s')) /\
    (skip = true <-> w = false /\ exists e, J !! (c, cid) = Some e /\ j_write e = true).
Proof using H0 Hnet.
  clear Hlen. intros Hh He HJ Hp Hl. destruct (writes_found c l J HJ Hl) as (ks & Eks & Hks & Hcid). unfold supersede.
  destruct (superseded_spec cid w l 0 None) as (m & -> & Hm & Hb). unfold bind.
  destruct (append_answered net Hnet (map (fun f => HSET jkey f "d") (map fst (filter is_write l))) s) as (q & -> & Hq & HF); [rewrite Hp; apply not_elem_of_nil|].
  rewrite Hp, app_nil_l. rewrite length_map in Hq. rewrite change_replies_spec by done. cbn [orb].
  do 3 eexists. split; [reflexivity|]. split; [done|]. cbn [db].
  rewrite (run_all_contents (D := D)) by (apply forallb_forall; by intros ? (? & <- & _)%in_map_iff).
  destruct (hsets_effect (map fst (filter is_write l)) _ h Hh) as (E1 & E2 & E3). cbn zeta in *. rewrite Eks in E1 at 2.
  destruct (encodes_set_deleted ks h J He HJ) as (J' & He' & HJ'); [intros k (e & Hk & _)%Hks; by eexists|].
  assert (J' = demote c J) as ->.
  { apply map_eq. intros k. rewrite HJ', demote_lookup. destruct (J !! k) as [e|] eqn:Hk; [|done]. cbn. f_equal.
    destruct (decide (k ∈ ks)) as [(e' & Hk' & Ec & _)%Hks|Hn]; [by rewrite decide_True|].
    case_decide as Ec; [|done]. destruct (j_write e) eqn:Hw; [destruct Hn; apply Hks; by exists e|]. destruct e. cbn in *. by subst. }
  split; [exact E1|]. split_and!; [done..|]. rewrite Hcid, Hks in Hm. rewrite length_map in *.
  transitivity (is_Some m).
  - destruct m as [j|]; [|split; [done|by intros []]]. split; [done|]. intros _.
    destruct (Hb j eq_refl) as [?|?]; [done|]. apply andb_true_intro. split; [apply Nat.leb_le|apply Nat.ltb_lt]; lia.
  - rewrite Hm. split; [intros [[? [=]]|(-> & e & Hk & _ & Hw)]|intros (-> & e & Hk & Hw); right]; eauto 6.
Qed.

(** What adding a record does. *)
Definition spec_add (c cid : Z) (w : bool) (e : jentry) J : journal :=
  if negb w && match J !! (c, cid) with Some e => j_write e | None => false end then demote c J
  else <[(c, cid) := e]> (demote c J).

Lemma members_put m ks : members (put_set m JL_LIST_KEY ks) JL_LIST_KEY = Some ks.
Proof using. unfold members, put_set. case_decide as E; [by rewrite lookup_delete_eq, E|by rewrite lookup_insert_eq]. Qed.

Lemma hash_put_list m ks : hash (put_set m JL_LIST_KEY ks) jkey = hash m jkey.
Proof using. unfold hash. rewrite put_set_ne; [done|]. pose proof journal_not_list. congruence. Qed.

Lemma others_put_list m ks ks' :
  members m JL_LIST_KEY = Some ks -> (forall x, x <> vkey -> x ∈ ks' <-> x ∈ ks) -> others m (put_set m JL_LIST_KEY ks').
Proof using.
  intros Hks Hx. split; [intros k _ Hk; apply put_set_ne; congruence|]. intros ks0. rewrite Hks. intros [= <-].
  exists ks'. split; [apply members_put|done].
Qed.

(** The two commands of the script. *)
Lemma journal_script_ok c cid e (d : D) J :
  keeps (contents d) J -> journal_ok J -> place_ok (c, cid) -> exists z d',
  journal_script jkey vkey (entry_fields (c, cid) e) d = (RInteger z, d') /\ z <> -1 /\
  keeps (contents d') (<[(c, cid) := e]> J) /\ others (contents d) (contents d').
Proof using H0.
  clear Hnet Hok Hv Hlen net. intros [(h & Hh & He) (ks & Hks & Hin)] HJ Hk. unfold journal_script. set (fs := entry_fields (c, cid) e).
  destruct (exec_run d (HMSET jkey fs) eq_refl) as [Er Ed]. destruct (exec d (HMSET jkey fs)) as [r d1]. cbn [fst snd] in *.
  cbn [run] in Er, Ed. rewrite Hh in Er, Ed. cbn [fst snd] in Er, Ed. subst r. cbn [OK]. rewrite bool_decide_eq_true_2 by done.
  destruct (exec_run d1 (SADD JL_LIST_KEY vkey) eq_refl) as [Er' Ed']. destruct (exec d1 (SADD JL_LIST_KEY vkey)) as [r d2]. cbn [fst snd] in *.
  assert (members (contents d1) JL_LIST_KEY = Some ks) as Hks1 by (by rewrite Ed, members_put_hash).
  cbn [run] in Er', Ed'. rewrite Hks1 in Er', Ed'. cbn [fst snd] in Er', Ed'. subst r. do 2 eexists. split; [reflexivity|].
  split; [by case_bool_decide|]. split; [split|].
  - exists (set_fields h fs). rewrite Ed', hash_put_list, Ed, hash_put_hash. split; [done|]. by apply encodes_put.
  - exists ({[vkey]} ∪ ks). rewrite Ed', members_put. split; [done|]. split; [intros _; apply insert_non_empty|set_solver].
  - rewrite Ed'. apply (others_trans _ (contents d1)); [rewrite Ed; apply others_put_hash|]. apply others_put_list with ks; [done|set_solver].
Qed.

Lemma add_ok f chunk cid w s J :
  of_version f -> place_ok (Chunk.chunkId chunk, cid) -> keeps (contents (db s)) J -> journal_ok J -> (size J <= 32)%nat -> pending s = [] ->
  exists s', addChunkToJournal net f chunk cid w s = Ok (true, s') /\ pending s' = [] /\ others (contents (db s)) (contents (db s')) /\
    keeps (contents (db s')) (spec_add (Chunk.chunkId chunk) cid w (mk_jentry (Chunk.size chunk) (Chunk.md5 chunk) w true) J).
Proof using H0 Hnet Hok Hv Hlen.
  intros Hf Hk [(h & Hh & He) (ks & Hks & Hin)] HJ Hsz Hp. pose proof Hf as [Hn Hver]. unfold addChunkToJournal. unfold bind at 1, lift at 1.
  rewrite (journal_key_ok f Hf). cbn [obind]. unfold bind at 1, lift at 1. rewrite Hver, (versioned_key_ok ns n Hok f v Hn Hv). cbn [obind].
  set (c := Chunk.chunkId chunk) in *. unfold bind at 1.
  destruct (scan_ok c s h J Hh He HJ Hsz (proj1 Hk) Hp) as (cur & l & s1 & -> & Hl & Hc1 & Hp1). rewrite <- Hc1 in Hh, Hks.
  unfold bind at 1. destruct (supersede_ok c cid w l s1 h J Hh He HJ Hp1 Hl) as (skip & s2 & h2 & -> & Hp2 & Hh2 & He2 & Hm2 & Ho2 & Hskip).
  rewrite Hc1 in Ho2. cbn [negb]. assert (keeps (contents (db s2)) (demote c J)) as Hkeep.
  { split; [by exists h2|]. exists ks. rewrite Hm2. split; [done|]. by rewrite demote_empty. }
  unfold spec_add. destruct skip.
  - destruct (proj1 Hskip eq_refl) as (-> & e & HJe & Hw). rewrite HJe, Hw. cbn. exists s2. by split_and!.
  - assert (negb w && match J !! (c, cid) with Some e => j_write e | None => false end = false) as ->.
    { destruct w; [done|]. cbn. destruct (J !! (c, cid)) as [e|] eqn:E; [|done]. destruct (j_write e) eqn:Hw; [|done].
      discriminate (proj2 Hskip). by split; [|exists e]. }
    unfold bind. rewrite eval_answered by done.
    destruct (journal_script_ok c cid (mk_jentry (Chunk.size chunk) (Chunk.md5 chunk) w true) (db s2) _ Hkeep (demote_ok c J HJ) Hk)
      as (z & d & Hs & Hz & Hkd & Hod).
    match goal with |- context [journal_script jkey vkey ?l] => change (journal_script jkey vkey l) with
      (journal_script jkey vkey (entry_fields (c, cid) (mk_jentry (Chunk.size chunk) (Chunk.md5 chunk) w true)) : D -> _) end.
    rewrite Hs. unfold ret. cbn [fst snd]. rewrite (proj2 (Z.eqb_neq z (-1)) Hz).
    eexists. split; [done|]. split_and!; [done| |done]. cbn [db]. by apply (others_trans _ (contents (db s2))).
Qed.

Lemma update_script_ok k w (d : D) J :
  keeps (contents d) J -> journal_ok J -> place_ok k -> exists d',
  update_record_script jkey (field_of k "op") (field_of k "status") (op_text w) d = (if decide (is_Some (J !! k)) then OK else RNil, d') /\
  keeps (contents d') (spec_update k w J) /\ others (contents d) (contents d').
Proof using H0.
  intros [(h & Hh & He) Hlist] HJ Hk. unfold update_record_script.
  destruct (exec_run d (HEXISTS jkey (field_of k "op")) eq_refl) as [Er1 Ed1]. destruct (exec d _) as [r1 d1]. cbn [fst snd run] in *.
  destruct (exec_run d1 (HEXISTS jkey (field_of k "status")) eq_refl) as [Er2 Ed2]. destruct (exec d1 _) as [r2 d2]. cbn [fst snd run] in *.
  rewrite Ed1 in Er2, Ed2. rewrite Hh in Er1, Er2. subst r1 r2. unfold spec_update.
  destruct (J !! k) as [e|] eqn:HJk.
  - rewrite !(encodes_lookup h J k e) by (done || apply op_type || apply status_type). cbn [count].
    rewrite !bool_decide_eq_true_2, decide_True by (done || by eexists).
    set (fs := [(field_of k "op", op_text w); (field_of k "status", "post")]).
    destruct (exec_run d2 (HMSET jkey fs) eq_refl) as [Er3 Ed3]. destruct (exec d2 (HMSET jkey fs)) as [r3 d3]. cbn [fst snd run] in *.
    rewrite Ed2, Hh in Er3, Ed3. cbn [fst snd] in Er3, Ed3. subst r3. exists d3. split; [done|].
    rewrite Ed3. split; [split|apply others_put_hash].
    + eexists. split; [apply hash_put_hash|]. by apply encodes_update.
    + destruct Hlist as (ks & Hks & Hin). exists ks. rewrite members_put_hash. split; [done|].
      rewrite Hin. split; intros _; [apply insert_non_empty|]. intros ->. by rewrite lookup_empty in HJk.
  - rewrite !(encodes_none h J k) by (done || apply op_type || apply status_type).
    rewrite (bool_decide_eq_false_2 (is_Some None)), decide_False by (by intros []). cbn [count]. rewrite bool_decide_eq_false_2 by (by intros []).
    exists d2. split; [done|]. rewrite Ed2. split; [|apply others_refl]. split; [by exists h|done].
Qed.

(** Removing one leaves the file listed while there are others. *)
Lemma remove_script_ok k (d : D) J :
  keeps (contents d) J -> journal_ok J -> place_ok k -> exists z d',
  remove_script jkey vkey (map (field_of k) types) d = (RInteger z, d') /\ (0 < z <-> J <> ∅) /\
  keeps (contents d') (delete k J) /\ others (contents d) (contents d').
Proof using H0.
  clear Hnet Hok Hv Hlen net. intros [(h & Hh & He) (ks & Hks & Hin)] HJ Hk. unfold remove_script. set (fs := map (field_of k) types).
  destruct (exec_run d (HDEL jkey fs) eq_refl) as [Er1 Ed1]. destruct (exec d (HDEL jkey fs)) as [r1 d1]. cbn [fst snd run] in *.
  rewrite Hh in Er1, Ed1. cbn [fst snd] in Er1, Ed1. subst r1. set (h' := foldr delete h fs) in *.
  assert (encodes h' (delete k J)) as He' by (by apply encodes_delete).
  destruct (exec_run d1 (HLEN jkey) eq_refl) as [Er2 Ed2]. destruct (exec d1 (HLEN jkey)) as [r2 d2]. cbn [fst snd run] in *.
  rewrite Ed1, hash_put_hash in Er2. subst r2. rewrite Ed1 in Ed2.
  assert (members (contents d2) JL_LIST_KEY = Some ks) as Hks2 by (by rewrite Ed2, members_put_hash).
  assert (others (contents d) (contents d2)) as Ho2 by (rewrite Ed2; apply others_put_hash).
  destruct (decide (h' = ∅)) as [Eh|Eh].
  - assert (delete k J = ∅) as EJ by (by apply (encodes_empty h')). rewrite Eh, map_size_empty in *. cbn [Z.of_nat].
    destruct (exec_run d2 (SREM JL_LIST_KEY vkey) eq_refl) as [Er3 Ed3]. destruct (exec d2 (SREM JL_LIST_KEY vkey)) as [r3 d3].
    cbn [fst snd run] in *. rewrite Hks2 in Er3, Ed3. cbn [fst snd] in Er3, Ed3. subst r3. unfold count.
    do 2 eexists. split; [reflexivity|]. split; [rewrite <- Hin; by case_bool_decide|]. rewrite Ed3, EJ. split; [split|].
    + rewrite hash_put_list, Ed2, hash_put_hash. rewrite EJ in He'. by eexists.
    + rewrite members_put. eexists. split; [done|]. set_solver.
    + eapply others_trans; [done|]. apply others_put_list with ks; [done|set_solver].
  - assert (Z.of_nat (size h') <> 0) as Hne by (intros ?; apply Eh, map_size_empty_inv; lia).
    exists 2, d2. split; [by destruct (Z.of_nat (size h'))|].
    assert (delete k J <> ∅) as EJ by (by intros EJ; apply Eh, (encodes_empty h' (delete k J))).
    split; [split; [intros _ ->; by rewrite delete_empty in EJ|done]|]. split; [split|done].
    + rewrite Ed2, hash_put_hash. by eexists.
    + exists ks. split; [done|]. rewrite Hin. split; [done|]. intros _ ->. by rewrite delete_empty in EJ.
Qed.

Lemma update_ok f chunk w remove cid s J :
  of_version f -> place_ok (Chunk.chunkId chunk, cid) -> keeps (contents (db s)) J -> journal_ok J -> pending s = [] ->
  exists s', updateChunkInJournal net f chunk w remove cid s =
      Ok (if remove then bool_decide (J <> ∅) else bool_decide (is_Some (J !! (Chunk.chunkId chunk, cid))), s') /\
    pending s' = [] /\ others (contents (db s)) (contents (db s')) /\
    keeps (contents (db s')) (if remove then delete (Chunk.chunkId chunk, cid) J else spec_update (Chunk.chunkId chunk, cid) w J).
Proof using H0 Hnet Hok Hv Hlen.
  intros Hf Hk Hkeep HJ Hp. pose proof Hf as [Hn Hver]. unfold updateChunkInJournal. unfold bind at 1, lift at 1.
  rewrite (journal_key_ok f Hf). cbn [obind]. unfold bind at 1, lift at 1. rewrite Hver, (versioned_key_ok ns n Hok f v Hn Hv). cbn [obind].
  set (k := (Chunk.chunkId chunk, cid)) in *. destruct remove; unfold bind; rewrite eval_answered by done.
  - destruct (remove_script_ok k (db s) J Hkeep HJ Hk) as (z & d & E & Hz & Hkd & Hod).
    change (map _ ["size"; "md5"; "op"; "status"]) with (map (field_of k) types). rewrite E. unfold ret. cbn [fst snd positive].
    eexists. split; [do 2 f_equal|by split_and!]. apply eq_true_iff_eq. by rewrite Z.ltb_lt, Hz, bool_decide_eq_true.
  - destruct (update_script_ok k w (db s) J Hkeep HJ Hk) as (d & E & Hkd & Hod).
    change (journal_field _ "op" cid) with (field_of k "op"). change (journal_field _ "status" cid) with (field_of k "status").
    rewrite E. unfold ret. cbn [fst snd]. eexists. split; [do 2 f_equal|by split_and!]. 
    by destruct (decide (is_Some (J !! k))); [rewrite !bool_decide_eq_true_2|rewrite !bool_decide_eq_false_2].
Qed.

(** * Sequences of operations *)

Inductive jop :=
| JAdd (chunk : Chunk.t) (containerId : Z) (isWrite : bool)
| JUpdate (chunk : Chunk.t) (containerId : Z) (isWrite : bool)
| JRemove (chunk : Chunk.t) (containerId : Z).

Definition jperform (f : File.t) (o : jop) : M D bool :=
  match o with
  | JAdd chunk cid w => addChunkToJournal net f chunk cid w
  | JUpdate chunk cid w => updateChunkInJournal net f chunk w false cid
  | JRemove chunk cid => updateChunkInJournal net f chunk false true cid
  end.

Fixpoint jperform_all (f : File.t) (os : list jop) : M D (list bool) :=
  match os with
  | [] => ret []
  | o :: os => let! b := jperform f o in let! bs := jperform_all f os in ret (b :: bs)
  end.

(** The result and the journal afterwards. *)
Definition jspec (o : jop) J : bool * journal :=
  match o with
  | JAdd chunk cid w => (true, spec_add (Chunk.chunkId chunk) cid w (mk_jentry (Chunk.size chunk) (Chunk.md5 chunk) w true) J)
  | JUpdate chunk cid w => (bool_decide (is_Some (J !! (Chunk.chunkId chunk, cid))), spec_update (Chunk.chunkId chunk, cid) w J)
  | JRemove chunk cid => (bool_decide (J <> ∅), delete (Chunk.chunkId chunk, cid) J)
  end.

Fixpoint jspec_all (os : list jop) J : list bool * journal :=
  match os with
  | [] => ([], J)
  | o :: os => let '(b, J) := jspec o J in let '(bs, J) := jspec_all os J in (b :: bs, J)
  end.

Definition jplace (o : jop) : Z * Z :=
  match o with JAdd chunk cid _ | JUpdate chunk cid _ | JRemove chunk cid => (Chunk.chunkId chunk, cid) end.

(** The place is one of [ps], and what is added can be stored. *)
Definition jop_ok (ps : gset (Z * Z)) (o : jop) : Prop :=
  jplace o ∈ ps /\ place_ok (jplace o) /\
  match o with JAdd chunk _ w => jentry_ok (mk_jentry (Chunk.size chunk) (Chunk.md5 chunk) w true) | _ => True end.

Lemma journal_ok_insert J k e : journal_ok J -> place_ok k -> jentry_ok e -> journal_ok (<[k := e]> J).
Proof using. intros HJ Hk He. by apply map_Forall_insert_2. Qed.

Lemma jspec_keeps ps o J : jop_ok ps o -> journal_ok J -> dom J ⊆ ps -> journal_ok (snd (jspec o J)) /\ dom (snd (jspec o J)) ⊆ ps.
Proof using.
  intros (Hin & Hp & He) HJ Hd. destruct o as [ch cid w|ch cid w|ch cid]; cbn [jspec snd jplace] in *.
  - assert (dom (demote (Chunk.chunkId ch) J) ⊆ ps) as Hd'.
    { intros k [e Hk]%elem_of_dom. rewrite demote_lookup in Hk. apply fmap_Some in Hk as (e' & Hk & _). by apply Hd, elem_of_dom; eexists. }
    unfold spec_add. case_match; [split; [by apply demote_ok|done]|]. split; [by apply journal_ok_insert; [apply demote_ok|..]|].
    rewrite dom_insert. intros k [->%elem_of_singleton|Hk]%elem_of_union; [done|by apply Hd'].
  - unfold spec_update. destruct (J !! _) as [e|] eqn:Hk; [|done]. destruct (HJ _ _ Hk). split; [by apply journal_ok_insert|].
    rewrite dom_insert. intros k [->%elem_of_singleton|Hk']%elem_of_union; [done|by apply Hd].
  - split; [by apply map_Forall_delete|]. rewrite dom_delete. intros k [Hk _]%elem_of_difference. by apply Hd.
Qed.

Lemma jperform_ok ps f o s J :
  of_version f -> jop_ok ps o -> (size ps <= 32)%nat -> dom J ⊆ ps -> journal_ok J -> keeps (contents (db s)) J -> pending s = [] ->
  exists s', jperform f o s = Ok (fst (jspec o J), s') /\ pending s' = [] /\ others (contents (db s)) (contents (db s')) /\
    keeps (contents (db s')) (snd (jspec o J)).
Proof using H0 Hnet Hok Hv Hlen.
  intros Hf (_ & Hp & He) Hps Hd HJ Hk Hpd.
  assert (size J <= 32)%nat as Hsz by (rewrite <- size_dom; etransitivity; [by apply subseteq_size|done]).
  destruct o as [ch cid w|ch cid w|ch cid]; cbn [jperform jspec fst snd jplace] in *.
  - by apply add_ok.
  - by apply (update_ok f ch w false cid s J).
  - by apply (update_ok f ch false true cid s J).
Qed.

Lemma jperform_all_ok ps f os s J :
  of_version f -> Forall (jop_ok ps) os -> (size ps <= 32)%nat -> dom J ⊆ ps -> journal_ok J -> keeps (contents (db s)) J -> pending s = [] ->
  exists s', jperform_all f os s = Ok (fst (jspec_all os J), s') /\ pending s' = [] /\ others (contents (db s)) (contents (db s')) /\
    keeps (contents (db s')) (snd (jspec_all os J)) /\ journal_ok (snd (jspec_all os J)).
Proof using H0 Hnet Hok Hv Hlen.
  intros Hf Hos Hps. revert s J. induction Hos as [|o os Ho _ IH]; intros s J Hd HJ Hk Hp.
  { exists s. split_and!; try done. apply others_refl. }
  destruct (jperform_ok ps f o s J Hf Ho Hps Hd HJ Hk Hp) as (s1 & E1 & Hp1 & Ho1 & Hk1).
  destruct (jspec_keeps ps o J Ho HJ Hd) as [HJ1 Hd1]. cbn [jperform_all jspec_all]. unfold bind. rewrite E1.
  destruct (jspec o J) as [b J1]. cbn [fst snd] in *. destruct (IH s1 J1 Hd1 HJ1 Hk1 Hp1) as (s2 & -> & Hp2 & Ho2 & Hk2 & HJ2).
  destruct (jspec_all os J1) as [bs J2]. cbn [fst snd] in *. exists s2. split_and!; try done. by apply (others_trans _ (contents (db s1))).
Qed.

Lemma has_journal_ok f s J : of_version f -> keeps (contents (db s)) J -> pending s = [] -> exists s',
  fileHasJournal net f s = Ok (bool_decide (J <> ∅), s') /\ contents (db s') = contents (db s) /\ pending s' = [].
Proof using H0 Hnet Hok Hv.
  intros [Hn Hver] [_ (ks & Hks & Hin)] Hp. unfold fileHasJournal. unfold bind at 1, lift at 1.
  rewrite Hver, (versioned_key_ok ns n Hok f v Hn Hv). cbn [obind]. unfold bind.
  destruct (command_det net Hnet (SISMEMBER JL_LIST_KEY vkey) s eq_refl Hp) as (s' & -> & Hc & Hp'). cbn [run fst snd] in *. rewrite Hks.
  exists s'. split; [|done]. unfold ret. do 2 f_equal. apply bool_decide_ext. rewrite <- Hin. unfold count.
  case_bool_decide; split; done.
Qed.

Lemma get_journal_ok f s J : of_version f -> keeps (contents (db s)) J -> journal_ok J -> pending s = [] -> exists rs s',
  getFileJournal net f s = Ok (rs, s') /\ contents (db s') = contents (db s) /\ pending s' = [] /\
  rs ≡ₚ map (fun p => record_of (fst p) (snd p)) (map_to_list J).
Proof using H0 Hnet Hok Hlen.
  intros Hf [(h & Hh & He) _] HJ Hp. unfold getFileJournal. unfold bind at 1, lift at 1. rewrite (journal_key_ok f Hf). cbn [obind].
  unfold bind at 1. destruct (command_any net Hnet (HGETALL jkey) s Hp) as (r & s' & -> & Hs & Hp').
  cbn [serves] in Hs. rewrite Hh in Hs. destruct Hs as (Hc & l & Hl & ->).
  destruct (parse_complete h J l He HJ Hl) as (st & Est & Hst). unfold bind, lift. rewrite Est. cbn [obind]. unfold ret.
  by exists (p_records st), s'.
Qed.

(** C17: The journal of a file is a map from chunks and containers to operations: every
    sequence of additions, changes and removals returns what the map says (writes of
    a chunk become deletions when another operation on it is added), afterwards the
    file is listed iff the map is not empty, reading the journal returns each of its
    entries exactly once in some order, and nothing else on the server changes.  The
    conditions are those of the section: a connection that works, a name whose key
    fits, and a key of the journal that is shorter than its buffer; and the operations
    are on at most 32 pairs of a chunk and a container, which the server scans at once
    (the code reads one page of a scan only). *)
Theorem journal_refines ps f os s J :
  of_version f -> Forall (jop_ok ps) os -> (size ps <= 32)%nat -> dom J ⊆ ps -> journal_ok J -> keeps (contents (db s)) J -> pending s = [] ->
  exists rs s',
  (let! bs := jperform_all f os in let! b := fileHasJournal net f in let! rs := getFileJournal net f in ret (bs, b, rs)) s =
    Ok ((fst (jspec_all os J), bool_decide (snd (jspec_all os J) <> ∅), rs), s') /\
  rs ≡ₚ map (fun p => record_of (fst p) (snd p)) (map_to_list (snd (jspec_all os J))) /\ others (contents (db s)) (contents (db s')).
Proof using H0 Hnet Hok Hv Hlen.
  intros Hf Hos Hps Hd HJ Hk Hp. destruct (jperform_all_ok ps f os s J Hf Hos Hps Hd HJ Hk Hp) as (s1 & E1 & Hp1 & Ho1 & Hk1 & HJ1).
  destruct (has_journal_ok f s1 _ Hf Hk1 Hp1) as (s2 & E2 & Hc2 & Hp2). rewrite <- Hc2 in Hk1, Ho1.
  destruct (get_journal_ok f s2 _ Hf Hk1 HJ1 Hp2) as (rs & s3 & E3 & Hc3 & _ & Hrs). exists rs, s3. unfold bind. rewrite E1, E2, E3.
  split_and!; [done|done|]. by rewrite Hc3.
Qed.
End journal.

Module JournalSample.

Definition working (_ : nat) : link := Answered.

Definition file : File.t := File.setVersion (File.set_ids File.reset 1 7 (Some "f")) 2.

Definition chunk (i : Z) : Chunk.t := Chunk.set_size (Chunk.setChunkId Chunk.reset i) 100.

(** Chunk 0 is written to a container and then to another one; chunk 1 is written,
    and its record removed. *)
Definition ops : list jop :=
  [JAdd (chunk 0) 3 true; JUpdate (chunk 0) 3 true; JAdd (chunk 1) 4 true; JAdd (chunk 0) 5 true; JRemove (chunk 1) 4].

Definition places : gset (Z * Z) := {[(0, 3); (1, 4); (0, 5)]}.

Lemma ops_fit : Forall (jop_ok places) ops.
Proof.
  unfold ops. repeat constructor; cbn; try done; try (unfold places; set_solver); repeat constructor; done.
Qed.

Lemma ops_results : fst (jspec_all ops ∅) = [true; true; true; true; true].
Proof. vm_compute. reflexivity. Qed.

Lemma ops_left : bool_decide (snd (jspec_all ops ∅) <> ∅) = true.
Proof. vm_compute. reflexivity. Qed.

Lemma ops_records : map (fun p => record_of (fst p) (snd p)) (map_to_list (snd (jspec_all ops ∅))) =
  [record_of (0, 5) (mk_jentry 100 Chunk.zeroMD5 true true); record_of (0, 3) (mk_jentry 100 Chunk.zeroMD5 false false)].
Proof. vm_compute. reflexivity. Qed.

Lemma places_fit : (size places <= 32)%nat.
Proof. vm_compute. lia. Qed.

Lemma key_fits : (String.length (genFileJournalKey 1 "f" 2) < MAX_KEY_SIZE)%nat.
Proof. vm_compute. lia. Qed.

Lemma sample_name_ok : name_ok 1 "f".
Proof. split; [by repeat constructor|]. split; [cbn; unfold PATH_MAX; lia|lia]. Qed.

Lemma empty_keeps : keeps 1 "f" 2 ∅ ∅.
Proof.
  split; [exists ∅; split; [done|]|exists ∅; split; [done|set_solver]].
  intros f w. rewrite lookup_empty. split; [done|]. intros (k & e & t & Hk & _). by rewrite lookup_empty in Hk.
Qed.

Lemma journal_refines_witness : exists rs s',
  (let! bs := jperform_all working file ops in let! b := fileHasJournal working file in let! rs := getFileJournal working file in
   ret (bs, b, rs)) (mk_session (∅ : keyspace) 0 []) = Ok (([true; true; true; true; true], true, rs), s') /\
  rs ≡ₚ [record_of (0, 5) (mk_jentry 100 Chunk.zeroMD5 true true); record_of (0, 3) (mk_jentry 100 Chunk.zeroMD5 false false)].
Proof.
  destruct (journal_refines working (fun _ => eq_refl) 1 "f" 2 sample_name_ok ltac:(unfold in_int; lia) key_fits places file ops
    (mk_session (∅ : keyspace) 0 []) ∅ (conj (conj eq_refl eq_refl) eq_refl) ops_fit places_fit ltac:(set_solver) (map_Forall_empty _)
    empty_keeps eq_refl) as (rs & s' & E & Hrs & _).
  rewrite ops_results, ops_left in E. rewrite ops_records in Hrs. exists rs, s'. by split.
Defined.

End JournalSample.
