(* ===== verification/ImmutablePolicy.v ===== *)
(** Immutable policies ([src/ds/immutable_policy.hh], [src/ds/immutable_policy.cc]):
    periods of whole days in which a file must not be changed, removed or read.

    Times are seconds since the epoch.  [gmtime_r] is modelled for the fields that
    are read; the conversions from and to text, which are [strptime] and
    [strftime], are left out.  Products and sums of [int]s wrap around. *)

From S2P Require Import Prelude.

Definition MINUTE_IN_SECONDS : Z := 60.
Definition HOUR_IN_SECONDS : Z := 3600.
Definition DAY_IN_SECONDS : Z := 86400.

(** * Calendar time *)

Module Calendar.

(** [struct tm]: [tm_year] counts from 1900, [tm_yday] from 0. *)
Record tm := mk_tm { tm_sec : Z; tm_min : Z; tm_hour : Z; tm_yday : Z; tm_year : Z }.

Definition leap (year : Z) : bool :=
  (year mod 4 =? 0) && (negb (year mod 100 =? 0) || (year mod 400 =? 0)).

Definition year_days (year : Z) : Z := if leap year then 366 else 365.

(** The year and the day in it, [days] days after the start of [year]. *)
Fixpoint find_year (fuel : nat) (year days : Z) : Z * Z :=
  match fuel with
  | O => (year, days)
  | Datatypes.S fuel =>
      if days <? year_days year then (year, days) else find_year fuel (year + 1) (days - year_days year)
  end.

(** The calendar repeats after 400 years. *)
Definition cycle_days : Z := 146097.

(** [gmtime_r]; it fails when the year is not an [int]. *)
Definition gmtime_r (t : Z) : option tm :=
  let days := t / DAY_IN_SECONDS in
  let secs := t mod DAY_IN_SECONDS in
  let (year, yday) := find_year 400 1970 (days mod cycle_days) in
  let tm_year := year + 400 * (days / cycle_days) - 1900 in
  if (-2147483648 <=? tm_year) && (tm_year <? 2147483648)
  then Some (mk_tm (secs mod 60) (secs / 60 mod 60) (secs / 3600) yday tm_year)
  else None.

End Calendar.
Import Calendar.

Module ImmutablePolicy.

Inductive Type_ := IMMUTABLE | MODIFICATION_HOLD | DELETION_HOLD | ACCESS_HOLD | UNKNOWN_IMMUTABLE_POLICY.

#[global] Instance type_eq_dec : EqDecision Type_.
Proof. solve_decision. Defined.

Definition TypeString (t : Type_) : string :=
  match t with
  | IMMUTABLE => "immutable"
  | MODIFICATION_HOLD => "modification-hold"
  | DELETION_HOLD => "deletion-hold"
  | ACCESS_HOLD => "access-hold"
  | UNKNOWN_IMMUTABLE_POLICY => "unknown"
  end.

(** The types a policy may have, in their order. *)
Definition types : list Type_ := [IMMUTABLE; MODIFICATION_HOLD; DELETION_HOLD; ACCESS_HOLD].

Record t := mk {
  _type : Type_;
  _start : Z;                        (* time_t *)
  _duration : Z;                     (* short, days *)
  _autoRenew : bool
}.

Definition reset : t := mk UNKNOWN_IMMUTABLE_POLICY 0 0 false.

(** [operator==]. *)
Definition eqb (p q : t) : bool :=
  bool_decide (_type p = _type q) && (_start p =? _start q) && (_duration p =? _duration q)
  && Bool.eqb (_autoRenew p) (_autoRenew q).

Definition setType (p : t) (ty : Type_) : t := mk ty (_start p) (_duration p) (_autoRenew p).

(** [setType] with the name of the type. *)
Definition setTypeName (p : t) (name : string) : bool * t :=
  match list_find (fun ty => name = TypeString ty) types with
  | Some (_, ty) => (true, setType p ty)
  | None => (false, p)
  end.

Definition getTypeName (p : t) : string := TypeString (_type p).

Definition convertStartDateToUTC (d : tm) : Z :=
  i32 (tm_sec d + tm_min d * MINUTE_IN_SECONDS + tm_hour d * HOUR_IN_SECONDS + tm_yday d * DAY_IN_SECONDS
       + (tm_year d - 70) * 31536000 + Z.quot (tm_year d - 69) 4 * DAY_IN_SECONDS
       - Z.quot (tm_year d - 1) 100 * DAY_IN_SECONDS + Z.quot (tm_year d + 299) 400 * DAY_IN_SECONDS).

(** The start is moved to midnight and must not be the epoch. *)
Definition setStartDate (p : t) (startDate : Z) : bool * t :=
  match gmtime_r startDate with
  | None => (false, p)
  | Some d =>
      let newTime := convertStartDateToUTC (mk_tm 0 0 0 (tm_yday d) (tm_year d)) in
      if newTime =? 0 then (false, p) else (true, mk (_type p) newTime (_duration p) (_autoRenew p))
  end.

(** The parameter is an [unsigned short], the field a [short]. *)
Definition setDuration (p : t) (days : Z) : bool * t :=
  if days =? 0 then (false, p) else (true, mk (_type p) (_start p) (i16 days) (_autoRenew p)).

Definition getDuration (p : t) : Z := u16 (_duration p).

Definition getEndDate (p : t) : Z := _start p + i32 (DAY_IN_SECONDS * _duration p).

Definition setRenewable (p : t) (renewable : bool) : t := mk (_type p) (_start p) (_duration p) renewable.

(** The constructors with arguments; [None] is the exception. *)
Definition make (ty : Type_) (startDate duration : Z) (autoRenew : bool) : option t :=
  let (ok1, p) := setStartDate (setType reset ty) startDate in
  let (ok2, p) := if ok1 then setDuration p duration else (false, p) in
  if ok2 then Some (setRenewable p autoRenew) else None.

Definition isDefined (p : t) : bool :=
  negb (bool_decide (_type p = UNKNOWN_IMMUTABLE_POLICY)) && (0 <? _start p) && (0 <? _duration p).

(** [now] is what [time] returns. *)
Definition isExpired (now : Z) (p : t) : bool := isDefined p && negb (_autoRenew p) && (getEndDate p <? now).

Definition isStarted (now : Z) (p : t) : bool := isDefined p && (_start p <=? now).

Definition isExtension (p target : t) : bool :=
  isDefined p && bool_decide (_type p = _type target) && (getEndDate target <? getEndDate p).

End ImmutablePolicy.

(** * Dates *)

(** Days from 1970 to the start of a year, by the formula of POSIX. *)
Definition days_to (tm_year : Z) : Z :=
  (tm_year - 70) * 365 + (tm_year - 69) / 4 - (tm_year - 1) / 100 + (tm_year + 299) / 400.

Lemma days_to_step y : 70 <= y -> days_to (y + 1) = days_to y + year_days (y + 1900).
Proof.
  intros Hy. unfold days_to, year_days, leap.
  assert (forall a m, 0 < m -> (a + 1) / m = a / m + (if (a + 1) mod m =? 0 then 1 else 0)) as Hdiv.
  { intros a m Hm. pose proof (Z.div_mod a m ltac:(lia)). pose proof (Z.mod_pos_bound a m Hm).
    pose proof (Z.div_mod (a + 1) m ltac:(lia)). pose proof (Z.mod_pos_bound (a + 1) m Hm).
    destruct (Z.eqb_spec ((a + 1) mod m) 0); nia. }
  replace (y + 1 - 69) with (y - 69 + 1) by lia. replace (y + 1 - 1) with (y - 1 + 1) by lia.
  replace (y + 1 + 299) with (y + 299 + 1) by lia. rewrite !Hdiv by lia.
  replace (y - 69 + 1) with (y + 1900 + (-492) * 4) by lia.
  replace (y - 1 + 1) with (y + 1900 + (-19) * 100) by lia.
  replace (y + 299 + 1) with (y + 1900 + (-4) * 400) by lia. rewrite !Z.mod_add by lia.
  set (z := y + 1900). pose proof (Z.div_mod z 4 ltac:(lia)). pose proof (Z.div_mod z 100 ltac:(lia)).
  pose proof (Z.div_mod z 400 ltac:(lia)). pose proof (Z.mod_pos_bound z 4 ltac:(lia)).
  pose proof (Z.mod_pos_bound z 100 ltac:(lia)). pose proof (Z.mod_pos_bound z 400 ltac:(lia)).
  destruct (Z.eqb_spec (z mod 4) 0), (Z.eqb_spec (z mod 100) 0), (Z.eqb_spec (z mod 400) 0); cbn; lia.
Qed.

Lemma find_year_spec fuel y days :
  70 <= y -> 0 <= days -> days < 365 * Z.of_nat fuel ->
  exists y' yd, find_year fuel (y + 1900) days = (y' + 1900, yd) /\ y <= y' /\ y' < y + Z.of_nat fuel /\
    0 <= yd < 366 /\ days_to y' + yd = days_to y + days.
Proof.
  revert y days. induction fuel as [|fuel IH]; intros y days Hy Hd Hf; [lia|]. cbn [find_year].
  assert (365 <= year_days (y + 1900) <= 366) as Hyd by (unfold year_days; destruct (leap _); lia).
  destruct (Z.ltb_spec days (year_days (y + 1900))) as [Hlt|Hge].
  - exists y, days. split_and!; try done; lia.
  - replace (y + 1900 + 1) with (y + 1 + 1900) by lia.
    destruct (IH (y + 1) (days - year_days (y + 1900))) as (y' & yd & -> & ? & ? & ? & Heq); [lia..|].
    exists y', yd. rewrite days_to_step in Heq by lia. split_and!; try done; lia.
Qed.

Lemma gmtime_r_spec t : 0 <= t < 2147483648 ->
  exists d, gmtime_r t = Some d /\ 70 <= tm_year d < 470 /\ 0 <= tm_yday d < 366 /\
    days_to (tm_year d) + tm_yday d = t / DAY_IN_SECONDS.
Proof.
  intros Ht. unfold gmtime_r, DAY_IN_SECONDS, cycle_days.
  assert (0 <= t / 86400 < 24856) as Hd.
  { split; [apply Z.div_pos; lia|]. apply Z.div_lt_upper_bound; lia. }
  rewrite (Z.mod_small (t / 86400)), (Z.div_small (t / 86400)) by lia.
  destruct (find_year_spec 400 70 (t / 86400)) as (y & yd & Hf & Hy & Hy' & Hyd & Heq); [lia..|].
  change 1970 with (70 + 1900). rewrite Hf.
  replace (y + 1900 + 400 * 0 - 1900) with y by lia. change (Z.of_nat 400) with 400 in Hy'.
  destruct (Z.leb_spec (-2147483648) y), (Z.ltb_spec y 2147483648); try lia. cbn [andb].
  eexists. split; [done|]. cbn [tm_year tm_yday]. change (days_to 70) with 0 in Heq. lia.
Qed.

(** A start date becomes the midnight before it. *)
Lemma setStartDate_midnight p t : 0 <= t < 2147483648 ->
  ImmutablePolicy.setStartDate p t =
  (negb (t / DAY_IN_SECONDS =? 0),
   if t / DAY_IN_SECONDS =? 0 then p
   else ImmutablePolicy.mk (ImmutablePolicy._type p) (t - t mod DAY_IN_SECONDS) (ImmutablePolicy._duration p)
          (ImmutablePolicy._autoRenew p)).
Proof.
  intros Ht. unfold ImmutablePolicy.setStartDate.
  destruct (gmtime_r_spec t Ht) as (d & -> & Hy & Hyd & Heq). unfold ImmutablePolicy.convertStartDateToUTC.
  cbn [tm_sec tm_min tm_hour tm_yday tm_year]. unfold DAY_IN_SECONDS in *. rewrite !Z.quot_div_nonneg by lia.
  match goal with |- context [i32 ?e] => replace e with (86400 * (t / 86400)) by (rewrite <- Heq; unfold days_to; lia) end.
  pose proof (Z.div_mod t 86400 ltac:(lia)). pose proof (Z.mod_pos_bound t 86400 ltac:(lia)).
  rewrite i32_small by lia. destruct (Z.eqb_spec (t / 86400) 0) as [->|Hne]; [done|].
  destruct (Z.eqb_spec (86400 * (t / 86400)) 0); [lia|]. cbn [negb]. do 2 f_equal. lia.
Qed.
