(* ===== verification/PolicyStore.v ===== *)
(** The store of immutable policies and its manager
    ([src/proxy/immutable/immutable_policy_store_redis.cc] and
    [immutable_manager.cc]).  A policy is a hash with a start date, a duration in
    days and a flag; the scripts the server runs are part of the source. *)

From S2P Require Import Prelude DS File Redis MetaKeys ImmutablePolicy.
From stdpp Require Import pretty.

#[local] Open Scope Z_scope.
#[local] Open Scope outcome_scope.

Module PolicyStore.
Import ImmutablePolicy.

Definition policyFieldStartDate : string := "s".
Definition policyFieldDuration : string := "d".
Definition policyFieldAutoRenew : string := "r".

Definition policy_id (ty : Type_) : option string :=
  match ty with
  | IMMUTABLE => Some "i"
  | MODIFICATION_HOLD => Some "m"
  | DELETION_HOLD => Some "d"
  | ACCESS_HOLD => Some "r"
  | UNKNOWN_IMMUTABLE_POLICY => None
  end.

(** [None] for a length of 0. *)
Definition genFilePolicyKey (f : File.t) (ty : Type_) : option string :=
  (fun i => "/ip-" +:+ i +:+ "_" +:+ genFileKey (File.namespaceId f) (default "" (File.name f))) <$> policy_id ty.

Section store.
Context {D : Type} `{Redis D}.
Implicit Types d : D.

(** ** The scripts *)

(** A script returns a number; [None] is an error of the script. *)
Definition set_script d (key : string) (start duration : Z) (renew : string) (now : Z) : option Z * D :=
  let store := (Some 0, hmset d key [(policyFieldStartDate, show_number start);
                                     (policyFieldDuration, show_number duration); (policyFieldAutoRenew, renew)]) in
  match hget d key policyFieldStartDate, hget d key policyFieldDuration with
  | Some s, Some n =>
      match tonumber s, tonumber n with
      | Some s, Some n => if now <? s + n * 86400 then (Some 2, d) else store
      | _, _ => (None, d)
      end
  | _, _ => store
  end.

Definition extend_script d (key : string) (start duration : Z) : option Z * D :=
  match hget d key policyFieldStartDate, hget d key policyFieldDuration with
  | Some s, Some n =>
      match tonumber s, tonumber n with
      | Some s, Some n =>
          if s + n * 86400 <? start + duration * 86400 then
            (Some 0, hmset d key [(policyFieldStartDate, show_number start); (policyFieldDuration, show_number duration)])
          else (Some 2, d)
      | _, _ => (None, d)
      end
  | _, _ => (Some 3, d)
  end.

(** The start of the period that contains [now]; the loop ends only for periods of
    at least a day. *)
Fixpoint window (fuel : nat) (st n now : Z) : option Z :=
  if st + n * 86400 <=? now then
    match fuel with
    | O => None
    | Datatypes.S fuel => window fuel (st + n * 86400) n now
    end
  else Some st.

Definition window_fuel (st now : Z) : nat := Z.to_nat ((now - st) / 86400 + 1).

(** The fourth argument is the time, where the script looks for the new state. *)
Definition renew_script d (key : string) (now : Z) (enable : bool) : outcome (option Z * D) :=
  let state := if enable then "1" else "0" in
  match hget d key policyFieldStartDate, hget d key policyFieldDuration, hget d key policyFieldAutoRenew with
  | Some s, Some n, Some _ =>
      if now =? 1 then Ok (Some 0, hmset d key [(policyFieldAutoRenew, state)])
      else
        match tonumber s, tonumber n with
        | Some s, Some n =>
            let* st := access (window (window_fuel s now) s n now) in
            Ok (Some 0, hmset d key [(policyFieldStartDate, show_number st); (policyFieldDuration, show_number n);
                                     (policyFieldAutoRenew, state)])
        | _, _ => Ok (None, d)
        end
  | _, _, _ => Ok (Some 2, d)
  end.

(** ** Operations on one policy *)

(** Success is the number 0. *)
Definition verdict (r : option (option Z) * D) : bool * D := (bool_decide (fst r = Some (Some 0)), snd r).

Definition setPolicyOnFile (c : connection) d (now : Z) (f : File.t) (p : t) : bool * D :=
  if negb (isStarted now p) || isExpired now p then (false, d)
  else
    match genFilePolicyKey f (_type p) with
    | None => (false, d)
    | Some key =>
        verdict (call c d (set_script d key (i32 (_start p)) (getDuration p) (if _autoRenew p then "1" else "0") (i32 now)))
    end.

(** Without a key the command is still sent, with the empty key. *)
Definition extendPolicyOnFile (c : connection) d (now : Z) (f : File.t) (p : t) : bool * D :=
  if negb (isStarted now p) || isExpired now p then (false, d)
  else
    verdict (call c d (extend_script d (default "" (genFilePolicyKey f (_type p))) (i32 (_start p)) (getDuration p))).

Definition renewPolicyOnFile (c : connection) d (now : Z) (f : File.t) (ty : Type_) (enable : bool)
    : outcome (bool * D) :=
  let* r := renew_script d (default "" (genFilePolicyKey f ty)) (i32 now) enable in
  Ok (verdict (call c d r)).

(** Fields are set one after the other; a failure leaves the ones set so far. *)
Definition getPolicyOnFile (c : connection) d (f : File.t) (ty : Type_) (p : t) : bool * t :=
  match genFilePolicyKey f ty, c with
  | Some key, Connected =>
      match hget d key policyFieldStartDate with
      | None => (false, p)
      | Some s =>
          let p := snd (setStartDate p (strtoul s)) in
          match hget d key policyFieldDuration with
          | None => (false, p)
          | Some n =>
              let p := snd (setDuration p (u16 (strtoul n))) in
              match hget d key policyFieldAutoRenew with
              | None => (false, p)
              | Some r => (true, setType (setRenewable p (negb (String.prefix "0" r))) ty)
              end
          end
      end
  | _, _ => (false, p)
  end.

(** ** Operations on all policies of a file *)

Definition getAllPoliciesOnFile (c : Type_ -> connection) d (f : File.t) : list t :=
  omap (fun ty => let (ok, p) := getPolicyOnFile (c ty) d f ty reset in if ok then Some p else None) types.

Definition deletePolicyOnFile (c : connection) d (f : File.t) (ty : Type_) : bool * D :=
  match genFilePolicyKey f ty with
  | None => (false, d)
  | Some key => let (r, d) := call c d (tt, del d key) in (bool_decide (r = Some tt), d)
  end.

Definition deleteAllPolicies (c : Type_ -> connection) d (f : File.t) : bool * D :=
  foldl (fun '(ok, d) ty => let (ok', d) := deletePolicyOnFile (c ty) d f ty in (ok && ok', d)) (true, d) types.

(** One transaction; a policy that does not exist is an error that is accepted. *)
Definition move_policy (sf df : File.t) d (ty : Type_) : D :=
  match genFilePolicyKey sf ty, genFilePolicyKey df ty with
  | Some k, Some k' => default d (rename d k k')
  | _, _ => d
  end.

Definition moveAllPolicies (c : connection) d (sf df : File.t) : bool * D :=
  let (r, d) := call c d (tt, foldl (move_policy sf df) d types) in (bool_decide (r = Some tt), d).

(** ** The manager *)

Definition initFileNamespaceId (ns : Z) (f : File.t) : File.t :=
  if File.namespaceId f =? INVALID_NAMESPACE_ID then File.set_ids f ns (File.uuid f) (File.name f) else f.

Definition setPolicy (ns : Z) (c : connection) d (now : Z) (f : File.t) (p : t) : bool * D :=
  setPolicyOnFile c d now (initFileNamespaceId ns f) p.

(** The type is that of the policy to fill in, not the parameter. *)
Definition getPolicy (ns : Z) (c : connection) d (f : File.t) (ty : Type_) (p : t) : bool * t :=
  getPolicyOnFile c d (initFileNamespaceId ns f) (_type p) p.

Definition extendPolicy (ns : Z) (c : connection) d (now : Z) (f : File.t) (p : t) : bool * D :=
  extendPolicyOnFile c d now (initFileNamespaceId ns f) p.

Definition renewPolicy (ns : Z) (c : connection) d (now : Z) (f : File.t) (p : t) : outcome (bool * D) :=
  renewPolicyOnFile c d now (initFileNamespaceId ns f) (_type p) (_autoRenew p).

Definition deleteAllPolicy (ns : Z) (c : Type_ -> connection) d (f : File.t) : bool * D :=
  deleteAllPolicies c d (initFileNamespaceId ns f).

Definition moveAllPolicy (ns : Z) (c : connection) d (sf df : File.t) : bool * D :=
  moveAllPolicies c d (initFileNamespaceId ns sf) (initFileNamespaceId ns df).

Definition isPolicyValid (ns : Z) (c : connection) d (now : Z) (f : File.t) (ty : Type_) : bool :=
  let (ok, p) := getPolicyOnFile c d (initFileNamespaceId ns f) ty reset in ok && negb (isExpired now p).

Definition isImmutable ns c d now f := isPolicyValid ns c d now f IMMUTABLE.
Definition isOnDeleteHold ns c d now f := isPolicyValid ns c d now f DELETION_HOLD.
Definition isOnModificationHold ns c d now f := isPolicyValid ns c d now f MODIFICATION_HOLD.
Definition isOnAccessHold ns c d now f := isPolicyValid ns c d now f ACCESS_HOLD.

End store.
End PolicyStore.
