(* ===== verification/PolicyTheorems.v ===== *)
(** What the store of immutable policies guarantees: a policy that was set can be
    read back, and no sequence of calls and no loss of connection ends it early. *)

From S2P Require Import Prelude DS File Redis MetaKeys ImmutablePolicy PolicyStore.
From stdpp Require Import pretty.

Import ImmutablePolicy PolicyStore.
#[local] Open Scope Z_scope.
#[local] Open Scope outcome_scope.

(** * Keys *)

Lemma string_app_inj_l s t u : s +:+ t = s +:+ u -> t = u.
Proof. induction s as [|a s IH]; [done|]. cbn. intros [= E]. by apply IH. Qed.

Lemma genFilePolicyKey_inj f g ty ty' k :
  genFilePolicyKey f ty = Some k -> genFilePolicyKey g ty' = Some k ->
  ty = ty' /\ File.namespaceId f = File.namespaceId g /\ default "" (File.name f) = default "" (File.name g).
Proof.
  unfold genFilePolicyKey. intros (i & Hi & ->)%fmap_Some (j & Hj & E)%fmap_Some.
  apply string_app_inj_l in E.
  assert (ty = ty' /\ genFileKey (File.namespaceId f) (default "" (File.name f)) =
    genFileKey (File.namespaceId g) (default "" (File.name g))) as [-> E'].
  { destruct ty, ty'; simplify_eq/=; by split. }
  by apply genFileKey_inj in E' as [-> ->].
Qed.

(** * Stored policies *)

Section theorems.
Context {D : Type} `{RedisLaws D} (ns : Z).
Implicit Types d : D.

Definition flag (r : bool) : string := if r then "1" else "0".

(** The policy with start [s] of [n] days under a key. *)
Definition stored_policy d (k : string) (s n : Z) (r : bool) : Prop :=
  hget d k policyFieldStartDate = Some (show_number s) /\ hget d k policyFieldDuration = Some (show_number n) /\
  hget d k policyFieldAutoRenew = Some (flag r).

(** Periods of whole days from the past, with an end that fits an [int] number of
    seconds. *)
Definition period_ok (now s n : Z) : Prop :=
  0 < s <= now /\ s mod DAY_IN_SECONDS = 0 /\ 0 < n <= 24855 /\ now < 2147483648.

Lemma get_stored d f ty k s n r p now :
  genFilePolicyKey f ty = Some k -> stored_policy d k s n r -> period_ok now s n ->
  getPolicyOnFile Connected d f ty p = (true, mk ty s n r).
Proof.
  intros Hk (Hs & Hn & Hr) ((Hs0 & Hs1) & Hmid & Hd & Hnow). unfold getPolicyOnFile. rewrite Hk, Hs, Hn, Hr, !strtoul_show.
  rewrite setStartDate_midnight by lia. rewrite Hmid. unfold setDuration. rewrite u16_small by lia.
  pose proof (Z.div_mod s DAY_IN_SECONDS ltac:(done)) as Hdm. rewrite Hmid in Hdm.
  destruct (Z.eqb_spec (s / DAY_IN_SECONDS) 0) as [E|E]; [rewrite E in Hdm; lia|].
  destruct (Z.eqb_spec n 0); [lia|]. cbn. rewrite i16_small by lia. unfold setType, setRenewable. cbn.
  rewrite Z.sub_0_r. by destruct r.
Qed.

Lemma valid_stored d now f ty k s n r :
  genFilePolicyKey (initFileNamespaceId ns f) ty = Some k -> stored_policy d k s n r -> period_ok now s n ->
  isPolicyValid ns Connected d now f ty = r || (now <=? s + n * DAY_IN_SECONDS).
Proof.
  intros Hk Hst Hp. unfold isPolicyValid. rewrite (get_stored _ _ _ _ _ _ _ _ _ Hk Hst Hp). cbn [andb].
  destruct Hp as (Hs & _ & Hn & _). unfold isExpired, isDefined, getEndDate. cbn [_type _start _duration _autoRenew].
  assert (ty <> UNKNOWN_IMMUTABLE_POLICY) as Hty by (by intros ->).
  rewrite bool_decide_eq_false_2 by done. destruct (Z.ltb_spec 0 s), (Z.ltb_spec 0 n); try lia. cbn [negb andb].
  unfold DAY_IN_SECONDS. rewrite i32_small by lia. replace (86400 * n) with (n * 86400) by lia.
  destruct r; cbn; [done|]. by rewrite Z.leb_antisym.
Qed.

Lemma stored_hmset d k s n r :
  stored_policy (hmset d k [(policyFieldStartDate, show_number s); (policyFieldDuration, show_number n);
                            (policyFieldAutoRenew, flag r)]) k s n r.
Proof. unfold stored_policy. by rewrite !hget_hmset. Qed.

Lemma stored_other d d' k s n r :
  (forall f, hget d' k f = hget d k f) -> stored_policy d k s n r -> stored_policy d' k s n r.
Proof. intros He. unfold stored_policy. by rewrite !He. Qed.

(** * Periods *)

(** The loop over periods ends with the one that contains [now]. *)
Lemma window_spec fuel st n now :
  0 < n -> now - st < 86400 * Z.of_nat fuel \/ now < st -> st mod 86400 = 0 ->
  exists st', window fuel st n now = Some st' /\ st <= st' /\ st' <= Z.max st now /\ st' mod 86400 = 0 /\
    now < st' + n * 86400 /\ st + n * 86400 <= st' + n * 86400.
Proof using.
  intros Hn. revert st. induction fuel as [|fuel IH]; intros st Hf Hmid; cbn [window].
  - destruct (Z.leb_spec (st + n * 86400) now); [lia|]. exists st. split_and!; try done; lia.
  - destruct (Z.leb_spec (st + n * 86400) now); [|exists st; split_and!; try done; lia].
    destruct (IH (st + n * 86400)) as (st' & -> & ? & ? & ? & ? & ?).
    + lia.
    + rewrite <- (Z.mod_add st n 86400) in Hmid by lia. exact Hmid.
    + exists st'. split_and!; try done; lia.
Qed.

Lemma window_fuel_enough st now :
  now - st < 86400 * Z.of_nat (window_fuel st now) \/ now < st.
Proof using.
  unfold window_fuel. destruct (Z.ltb_spec now st); [by right|]. left.
  pose proof (Z.div_pos (now - st) 86400 ltac:(lia) ltac:(lia)). rewrite Z2Nat.id by lia.
  pose proof (Z.div_mod (now - st) 86400 ltac:(lia)). pose proof (Z.mod_pos_bound (now - st) 86400 ltac:(lia)). lia.
Qed.

(** * Calls *)

(** Policies the callers pass: whole days, at most 68 years. *)
Definition policy_ok (p : t) : Prop :=
  0 < _start p < 2147483648 /\ _start p mod DAY_IN_SECONDS = 0 /\ 0 < _duration p <= 24855.

Definition same_file (f g : File.t) : Prop :=
  let f := initFileNamespaceId ns f in let g := initFileNamespaceId ns g in
  File.namespaceId f = File.namespaceId g /\ default "" (File.name f) = default "" (File.name g).

(** The calls that are possible while [f] is kept: policies of any file are set,
    extended or renewed, those of other files removed or moved, and time goes on. *)
Inductive step (f : File.t) : D * Z -> D * Z -> Prop :=
| step_time d now now' : now <= now' < 2147483648 -> step f (d, now) (d, now')
| step_set c d now g p : policy_ok p -> step f (d, now) (snd (setPolicy ns c d now g p), now)
| step_extend c d now g p : policy_ok p -> step f (d, now) (snd (extendPolicy ns c d now g p), now)
| step_renew c d now g p r : renewPolicy ns c d now g p = Ok r -> step f (d, now) (snd r, now)
| step_delete c d now g : ~ same_file f g -> step f (d, now) (snd (deleteAllPolicy ns c d g), now)
| step_move c d now sf df : ~ same_file f sf -> ~ same_file f df ->
    step f (d, now) (snd (moveAllPolicy ns c d sf df), now).

(** The policy under [k] lasts until [E], or that time is over; a policy that was
    replaced at [E] itself may be kept alive by its flag. *)
Definition kept (k : string) (E : Z) (s : D * Z) : Prop :=
  exists st n r, stored_policy (fst s) k st n r /\ period_ok (snd s) st n /\
    (E <= st + n * DAY_IN_SECONDS \/ E < snd s \/ (r = true /\ E <= snd s)).

(** A script that changes only its own key, seen through a connection. *)
Lemma call_keeps {A} c d (r : A * D) k E now :
  kept k E (d, now) -> kept k E (snd r, now) -> kept k E (snd (call c d r), now).
Proof using. by destruct c. Qed.

Lemma kept_other d d' k E now :
  (forall x, hget d' k x = hget d k x) -> kept k E (d, now) -> kept k E (d', now).
Proof using.
  intros He (st & n & r & Hst & Hp & HE). exists st, n, r. split; [|done]. by eapply stored_other.
Qed.

Lemma set_keeps d key now p k E :
  isStarted now p = true -> isExpired now p = false -> policy_ok p -> kept k E (d, now) ->
  kept k E (snd (set_script d key (_start p) (_duration p) (flag (_autoRenew p)) now), now).
Proof using H0.
  intros Hs He (Hp0 & Hmid & Hd) Hk. unfold set_script. destruct (decide (key = k)) as [->|Hne].
  2:{ destruct (hget d key _) as [a|], (hget d key policyFieldDuration) as [b|]; repeat case_match;
      try done; eapply kept_other; try exact Hk; intros x; by apply hget_hmset_ne. }
  destruct Hk as (st & n & r & Hst & Hp & HE). cbn [fst snd] in *. pose proof Hst as (-> & -> & _). rewrite !tonumber_show.
  cbn [fst snd] in *. destruct (Z.ltb_spec now (st + n * 86400)) as [Hlt|Hge]; [by exists st, n, r|].
  cbn [snd]. exists (_start p), (_duration p), (_autoRenew p). split; [apply stored_hmset|]. cbn [fst snd].
  unfold isStarted in Hs. apply andb_true_iff in Hs as [Hdef Hs%Z.leb_le]. destruct Hp as (? & ? & ? & ?).
  split; [unfold period_ok; lia|]. unfold isExpired, getEndDate, DAY_IN_SECONDS in *. rewrite Hdef in He.
  rewrite i32_small in He by lia. destruct (_autoRenew p); cbn in He; [right; right; split; [done|lia]|].
  apply Z.ltb_ge in He. lia.
Qed.

Lemma extend_keeps d key now p k E :
  isStarted now p = true -> policy_ok p -> kept k E (d, now) ->
  kept k E (snd (extend_script d key (_start p) (_duration p)), now).
Proof using H0.
  intros Hs (Hp0 & Hmid & Hd) Hk. unfold extend_script. destruct (decide (key = k)) as [->|Hne].
  2:{ destruct (hget d key _) as [a|], (hget d key policyFieldDuration) as [b|]; repeat case_match;
      try done; eapply kept_other; try exact Hk; intros x; by apply hget_hmset_ne. }
  destruct Hk as (st & n & r & Hst & Hp & HE). cbn [fst snd] in *. pose proof Hst as (-> & -> & Hr). rewrite !tonumber_show.
  cbn [fst snd] in *. destruct (Z.ltb_spec (st + n * 86400) (_start p + _duration p * 86400)); [|by exists st, n, r].
  cbn [snd]. exists (_start p), (_duration p), r. cbn [fst snd]. split.
  { unfold stored_policy. rewrite !hget_hmset. cbn. by split_and!. }
  unfold isStarted in Hs. apply andb_true_iff in Hs as [Hdef Hs%Z.leb_le]. destruct Hp as (? & ? & ? & ?).
  split; [unfold period_ok; lia|]. unfold DAY_IN_SECONDS in *.
  destruct HE as [?|[?|?]]; [left; lia|right; by left|right; by right].
Qed.

Lemma renew_keeps d key now enable k E r :
  0 <= now < 2147483648 -> renew_script d key now enable = Ok r -> kept k E (d, now) -> kept k E (snd r, now).
Proof using H0.
  intros Hnow Hr Hk. unfold renew_script in Hr. destruct (decide (key = k)) as [->|Hne].
  2:{ destruct (hget d key policyFieldStartDate) as [a|], (hget d key policyFieldDuration) as [b|],
        (hget d key policyFieldAutoRenew) as [e|]; simplify_eq/=; try done.
      destruct (now =? 1); simplify_eq/=; [eapply kept_other; [|done]; intros x; by apply hget_hmset_ne|].
      destruct (tonumber a), (tonumber b); simplify_eq/=; try done.
      destruct (window _ _ _ _); simplify_eq/=. eapply kept_other; [|done]. intros x. by apply hget_hmset_ne. }
  destruct Hk as (st & n & r0 & Hst & Hp & HE). cbn [fst snd] in *. pose proof Hst as (Ha & Hb & Hc). rewrite Ha, Hb, Hc, !tonumber_show in Hr.
  cbn [fst snd] in *. destruct Hp as (Hs & Hmid & Hn & ?). unfold DAY_IN_SECONDS in *.
  assert (86400 <= st) by (pose proof (Z.div_mod st 86400 ltac:(lia)); nia).
  destruct (Z.eqb_spec now 1); [lia|].
  destruct (window_spec (window_fuel st now) st n now ltac:(lia) (window_fuel_enough st now) Hmid)
    as (st' & Hw & ? & ? & ? & ? & ?). rewrite Hw in Hr. cbn [access obind] in Hr. injection Hr as <-. cbn [snd].
  exists st', n, enable. split; [exact (stored_hmset d k st' n enable)|]. cbn [snd].
  split; [unfold period_ok, DAY_IN_SECONDS; lia|]. unfold DAY_IN_SECONDS. lia.
Qed.

(** Policies of other files. *)
Lemma key_other f g ty ty' k :
  genFilePolicyKey (initFileNamespaceId ns f) ty = Some k -> ~ same_file f g ->
  genFilePolicyKey (initFileNamespaceId ns g) ty' <> Some k.
Proof using. intros Hk Hne Hg. apply Hne. by destruct (genFilePolicyKey_inj _ _ _ _ _ Hk Hg). Qed.

Lemma deletes_other c d f k : (forall ty, genFilePolicyKey f ty <> Some k) ->
  forall x, hget (snd (deleteAllPolicies c d f)) k x = hget d k x.
Proof using H0.
  intros Hk x. unfold deleteAllPolicies. generalize true. generalize d. induction types as [|ty l IH]; intros d' ok; [done|].
  cbn [foldl]. destruct (deletePolicyOnFile (c ty) d' f ty) as [ok' d1] eqn:E. rewrite IH.
  unfold deletePolicyOnFile in E. specialize (Hk ty). destruct (genFilePolicyKey f ty) as [key|]; [|by injection E as _ <-].
  assert (hget (del d' key) k x = hget d' k x) by (apply hget_del_ne; congruence).
  by destruct (c ty); injection E as _ <-.
Qed.

Lemma moves_other d sf df k :
  (forall ty, genFilePolicyKey sf ty <> Some k) -> (forall ty, genFilePolicyKey df ty <> Some k) ->
  forall x, hget (foldl (move_policy sf df) d types) k x = hget d k x.
Proof using H0.
  intros Hs Hd x. generalize d. induction types as [|ty l IH]; intros d'; [done|]. cbn [foldl]. rewrite IH.
  unfold move_policy. specialize (Hs ty). specialize (Hd ty).
  destruct (genFilePolicyKey sf ty) as [k1|], (genFilePolicyKey df ty) as [k2|]; try done.
  destruct (rename d' k1 k2) as [d1|] eqn:E; [|done]. cbn. eapply rename_ne; [exact E|congruence..].
Qed.

Lemma step_keeps f ty k E s s' :
  genFilePolicyKey (initFileNamespaceId ns f) ty = Some k -> kept k E s -> step f s s' -> kept k E s'.
Proof using H0.
  intros Hkey Hk Hstep. assert (0 <= snd s < 2147483648) as Hnow.
  { destruct Hk as (? & ? & ? & _ & (? & _ & _ & ?) & _). lia. }
  destruct Hstep as [d now now' Ht|c d now g p Hp|c d now g p Hp|c d now g p r Hr|c d now g Hne|c d now sf df Hs Hd];
    cbn [snd] in Hnow.
  - destruct Hk as (st & n & r & ? & (? & ? & ? & ?) & HE). exists st, n, r. cbn [fst snd] in *. split; [done|].
    split; [unfold period_ok; lia|]. destruct HE as [?|[?|[? ?]]]; [by left|right; left; lia|right; right; split; [done|lia]].
  - unfold setPolicy, setPolicyOnFile. destruct (isStarted now p) eqn:Hs; [|done].
    destruct (isExpired now p) eqn:He; [done|]. cbn [negb orb].
    destruct (genFilePolicyKey (initFileNamespaceId ns g) _) as [key|]; [|done].
    cbn [verdict snd]. apply call_keeps; [done|]. pose proof Hp as (? & _ & ?). unfold getDuration.
    rewrite !i32_small, u16_small by lia. by apply set_keeps.
  - unfold extendPolicy, extendPolicyOnFile. destruct (isStarted now p) eqn:Hs; [|done].
    destruct (isExpired now p) eqn:He; [done|]. cbn [negb orb verdict snd]. apply call_keeps; [done|].
    pose proof Hp as (? & _ & ?). unfold getDuration. rewrite i32_small, u16_small by lia. by apply extend_keeps.
  - unfold renewPolicy, renewPolicyOnFile in Hr. rewrite i32_small in Hr by lia.
    destruct (renew_script _ _ _ _) as [| |r1] eqn:E1; cbn [obind] in Hr; [done..|]. injection Hr as <-. cbn [verdict snd].
    apply call_keeps; [done|]. by eapply renew_keeps.
  - eapply kept_other; [|exact Hk]. intros x. unfold deleteAllPolicy. apply deletes_other. intros ty'.
    by eapply key_other.
  - eapply kept_other; [|exact Hk]. intros x. unfold moveAllPolicy, moveAllPolicies.
    assert (forall x, hget (foldl (move_policy (initFileNamespaceId ns sf) (initFileNamespaceId ns df)) d types) k x =
      hget d k x) as He by (apply moves_other; intros ty'; by eapply key_other).
    destruct c; cbn [call snd]; [apply He|apply He|done].
Qed.

Lemma steps_keep f ty k E s s' :
  genFilePolicyKey (initFileNamespaceId ns f) ty = Some k -> rtc (step f) s s' -> kept k E s -> kept k E s'.
Proof using H0. intros Hkey. induction 1 as [|s1 s2 s3 Hstep _ IH]; [done|]. intros Hk. by eapply IH, step_keeps. Qed.

(** A policy that was set. *)
Lemma set_stores c d now f p d' :
  policy_ok p -> 0 <= now < 2147483648 -> setPolicy ns c d now f p = (true, d') ->
  isStarted now p = true /\ exists k, genFilePolicyKey (initFileNamespaceId ns f) (_type p) = Some k /\
    stored_policy d' k (_start p) (_duration p) (_autoRenew p) /\ period_ok now (_start p) (_duration p).
Proof using H0.
  intros (Hs & Hm & Hd) Hnow Hset. unfold setPolicy, setPolicyOnFile in Hset.
  destruct (isStarted now p) eqn:Hst; [|done]. destruct (isExpired now p); [done|]. cbn [negb orb] in Hset.
  destruct (genFilePolicyKey _ _) as [k|]; [|done]. split; [done|]. exists k. split; [done|].
  unfold isStarted in Hst. apply andb_true_iff in Hst as [_ Hst%Z.leb_le]. split; [|unfold period_ok; lia].
  unfold verdict in Hset. destruct c; cbn [call fst snd] in Hset; try (by injection Hset).
  unfold getDuration in Hset. rewrite !i32_small, u16_small in Hset by lia. unfold set_script in Hset.
  pose proof (stored_hmset d k (_start p) (_duration p) (_autoRenew p)) as Hok.
  destruct (hget d k policyFieldStartDate) as [a|]; [|by injection Hset as <-].
  destruct (hget d k policyFieldDuration) as [b|]; [|by injection Hset as <-].
  destruct (tonumber a), (tonumber b); try done. destruct (_ <? _); [done|]. by injection Hset as <-.
Qed.
End theorems.

(** C10: A policy that was set protects its file until it ends.  Whatever policies
    are then set, extended, renewed or switched off for this or other files, with
    or without failures of the connection, and whatever is removed or moved of
    other files: at every time up to the end date of the policy the file is still
    found protected. *)
Theorem policy_protects {D} `{RedisLaws D} ns c (d : D) now f p d1 d' now' :
  policy_ok p -> 0 <= now < 2147483648 -> setPolicy ns c d now f p = (true, d1) ->
  rtc (step ns f) (d1, now) (d', now') -> now' <= getEndDate p ->
  isPolicyValid ns Connected d' now' f (_type p) = true.
Proof.
  intros Hp Hnow Hset Hsteps Hend. destruct (set_stores ns c d now f p d1 Hp Hnow Hset) as (_ & k & Hk & Hst & Hper).
  destruct Hp as (_ & _ & Hd). unfold getEndDate in Hend. unfold DAY_IN_SECONDS in Hend. rewrite i32_small in Hend by lia.
  assert (kept k (_start p + _duration p * DAY_IN_SECONDS) (d', now')) as Hkept.
  { assert (kept k (_start p + _duration p * DAY_IN_SECONDS) (d1, now)) as H1.
    { exists (_start p), (_duration p), (_autoRenew p). split; [done|]. split; [done|by left]. }
    by eapply steps_keep. }
  destruct Hkept as (st & n & r & Hst' & Hper' & HE). cbn [fst snd] in *. unfold DAY_IN_SECONDS in HE.
  rewrite (valid_stored ns d' now' f (_type p) k st n r Hk Hst' Hper'). unfold DAY_IN_SECONDS.
  destruct HE as [HE|[HE|[-> HE]]]; [|lia|done]. apply orb_true_iff. right. apply Z.leb_le. lia.
Qed.

(** C36: A policy that was set is read back exactly.  Over a stored policy whose first
    period has not ended, setting another one fails and changes nothing, also when the
    new one ends later; once the first period has ended, setting a policy that is in
    force succeeds over a working connection, also when the stored one renews itself. *)
Theorem policy_set_get {D} `{RedisLaws D} ns c (d : D) now f p :
  policy_ok p -> 0 <= now < 2147483648 ->
  (forall d1 q, setPolicy ns c d now f p = (true, d1) ->
     getPolicyOnFile Connected d1 (initFileNamespaceId ns f) (_type p) q = (true, p)) /\
  (forall k s n r, genFilePolicyKey (initFileNamespaceId ns f) (_type p) = Some k -> stored_policy d k s n r ->
     (now < s + n * DAY_IN_SECONDS -> setPolicy ns c d now f p = (false, d)) /\
     (s + n * DAY_IN_SECONDS <= now -> isStarted now p = true -> isExpired now p = false ->
      exists d1, setPolicy ns Connected d now f p = (true, d1))).
Proof.
  intros Hp Hnow. split.
  - intros d1 q Hset. destruct (set_stores ns c d now f p d1 Hp Hnow Hset) as (_ & k & Hk & Hst & Hper).
    rewrite (get_stored _ _ _ _ _ _ _ q now Hk Hst Hper). by destruct p.
  - intros k s n r Hk (Hs & Hn & _). unfold setPolicy, setPolicyOnFile, DAY_IN_SECONDS, set_script.
    rewrite Hk, Hs, Hn, !tonumber_show, i32_small by lia. split.
    + intros Hlt. destruct (_ || _); [done|]. destruct (Z.ltb_spec now (s + n * 86400)); [|lia]. by destruct c.
    + intros Hle -> ->. destruct (Z.ltb_spec now (s + n * 86400)); [lia|]. eexists. reflexivity.
Qed.

(** * Samples and faults *)

Module PolicySample.

Definition file : File.t := File.set_ids File.reset 1 5 (Some "f").
Definition day (n : Z) : Z := n * 86400.

(** Ten days from day 19000 on. *)
Definition ten_days : t := mk IMMUTABLE (day 19000) 10 false.

Lemma ten_days_ok : policy_ok ten_days.
Proof. unfold policy_ok. split_and!; by vm_compute. Qed.

Definition with_policy : HashStore.t := snd (setPolicy 1 Connected ∅ (day 19001) file ten_days).

(** A policy of one day is refused on the tenth day, and the file stays protected. *)
Lemma policy_protects_witness :
  isPolicyValid 1 Connected (snd (setPolicy 1 Connected with_policy (day 19009) file (mk IMMUTABLE (day 19009) 1 false)))
    (day 19010) file IMMUTABLE = true.
Proof.
  apply (policy_protects 1 Connected ∅ (day 19001) file ten_days with_policy).
  - exact ten_days_ok.
  - unfold day. lia.
  - vm_compute. reflexivity.
  - eapply rtc_l; [apply (step_time 1 file with_policy (day 19001) (day 19009)); unfold day; lia|].
    eapply rtc_l; [apply (step_set 1 file Connected with_policy (day 19009) file (mk IMMUTABLE (day 19009) 1 false))|].
    { unfold policy_ok. split_and!; by vm_compute. }
    apply rtc_once. apply step_time. unfold day. lia.
  - vm_compute. discriminate.
Defined.

Lemma policy_set_get_witness :
  getPolicyOnFile Connected with_policy file IMMUTABLE reset = (true, ten_days) /\
  setPolicy 1 Connected with_policy (day 19009) file (mk IMMUTABLE (day 19008) 2 false) = (false, with_policy).
Proof.
  split.
  - apply (policy_set_get 1 Connected ∅ (day 19001) file ten_days ten_days_ok); [unfold day; lia|].
    vm_compute. reflexivity.
  - refine (proj1 (proj2 (policy_set_get 1 Connected with_policy (day 19009) file (mk IMMUTABLE (day 19008) 2 false) _ _)
      "/ip-i_1_f" (day 19000) 10 false _ _) _).
    + unfold policy_ok. split_and!; by vm_compute.
    + unfold day. lia.
    + vm_compute. reflexivity.
    + vm_compute. split_and!; reflexivity.
    + unfold day, DAY_IN_SECONDS. lia.
Defined.

(** Switching renewal on is meant to do nothing for a policy that has expired; the
    script compares the time with 1 instead of the new state, and the policy is
    valid again. *)
Theorem renew_revives_expired :
  isPolicyValid 1 Connected with_policy (day 19020) file IMMUTABLE = false /\
  match renewPolicy 1 Connected with_policy (day 19020) file (setRenewable ten_days true) with
  | Ok (ok, d) => ok = true /\ isPolicyValid 1 Connected d (day 19020) file IMMUTABLE = true
  | _ => False
  end.
Proof. vm_compute. split_and!; reflexivity. Qed.

(** A policy that renews itself is taken for expired when its first period is
    over, and is replaced by a shorter one. *)
Definition renewing : HashStore.t :=
  snd (setPolicy 1 Connected ∅ (day 19001) file (setRenewable ten_days true)).

Theorem renewing_policy_replaced :
  isPolicyValid 1 Connected renewing (day 19020) file IMMUTABLE = true /\
  let (ok, d) := setPolicy 1 Connected renewing (day 19020) file (mk IMMUTABLE (day 19020) 1 false) in
  ok = true /\ isPolicyValid 1 Connected d (day 19022) file IMMUTABLE = false.
Proof. vm_compute. split_and!; reflexivity. Qed.

(** A policy of 30000 days ends before it starts. *)
Theorem long_policy_overflows :
  getEndDate (mk IMMUTABLE (day 19000) 30000 false) < day 19000.
Proof. vm_compute. reflexivity. Qed.

(** Without a connection no file is protected. *)
Theorem unreachable_store_protects_nothing {D} `{Redis D} ns (d : D) now f ty :
  isPolicyValid ns Down d now f ty = false.
Proof. unfold isPolicyValid, getPolicyOnFile. by destruct (genFilePolicyKey _ _). Qed.

(** The manager looks for the type of the policy to fill in: with a fresh policy
    nothing is found. *)
Theorem get_policy_ignores_type {D} `{Redis D} ns c (d : D) f ty : getPolicy ns c d f ty reset = (false, reset).
Proof. done. Qed.

End PolicySample.
