(* ===== verification/Dedup.v ===== *)
(** Deduplication ([src/proxy/dedup]): what the proxy asks of a deduplication module
    ([DeduplicationModule] in [dedup.hh]), the locations of blocks
    ([block_location.hh]), and the module that finds no duplicates
    ([impl/dedup_none.cc]), which is the one the proxy uses when none is given.

    The bytes of a fingerprint are a string, as in [File].  A map from locations to
    values is the list of its entries in the order of the offsets. *)

From stdpp Require Import pretty.
From S2P Require Import Prelude DS File.

#[local] Open Scope Z_scope.

Definition ULONG_MAX : Z := 18446744073709551615.
Definition UINT_MAX : Z := 4294967295.

#[export] Instance location_eq_dec : EqDecision InObjectLocation.
Proof. solve_decision. Defined.

Module BlockLocation.

Record t := mk {
  namespaceId : Z;                   (* unsigned char *)
  name : string;
  version : Z;                       (* int *)
  range : InObjectLocation
}.

Definition no_range : InObjectLocation := mk_location ULONG_MAX UINT_MAX.
Definition range_invalid (l : InObjectLocation) : bool := (_offset l =? ULONG_MAX) && (_length l =? UINT_MAX).

Definition reset : t := mk 255 "" (-1) no_range.

Definition setObjectID (l : t) (ns : Z) (nm : string) (v : Z) : t := mk ns nm v (range l).
Definition setBlockRange (l : t) (r : InObjectLocation) : t := mk (namespaceId l) (name l) (version l) r.

Definition isInvalid (l : t) : bool :=
  (namespaceId l =? 255) && bool_decide (name l = "") && (version l =? -1) && range_invalid (range l).

(** The namespace, the name and the version of the object. *)
Definition getObjectID (l : t) : string :=
  pretty (namespaceId l) +:+ "_" +:+ name l +:+ "_" +:+ pretty (version l).

End BlockLocation.

(** A scan returns the id to commit or abort it with, and the blocks of the data with
    their fingerprints and whether they are duplicates. *)
Class Deduplication (X : Type) := {
  scan : X -> list Z -> BlockLocation.t -> string * list (InObjectLocation * (string * bool)) * X;
  commit : X -> string -> X;
  abort_scan : X -> string -> X;
  query : X -> Z -> list string -> list BlockLocation.t;
  update : X -> list string -> list BlockLocation.t -> list BlockLocation.t -> string * X
}.

Module DedupNone.

(** All data is one unique block. *)
Definition scan (d : list Z) (l : BlockLocation.t) : string * list (InObjectLocation * (string * bool)) :=
  ("0", [(BlockLocation.range l, ("", false))]).

Definition commit (x : unit) (commitId : string) : unit := x.
Definition abort (x : unit) (commitId : string) : unit := x.
Definition update (fps : list string) (old new : list BlockLocation.t) : string := "0".

(** No block is known. *)
Definition query (namespaceId : Z) (fps : list string) : list BlockLocation.t :=
  replicate (length fps) BlockLocation.reset.

#[export] Instance none : Deduplication unit := {
  scan x d l := (scan d l, x);
  Dedup.commit := commit;
  abort_scan := abort;
  Dedup.query _ := query;
  Dedup.update x fps old new := (update fps old new, x)
}.

End DedupNone.
