(* ===== verification/Staging.v ===== *)
(** The staging area of the proxy ([src/proxy/staging]): files are kept on a local
    file system before they are written to the containers.  [StagingArea] is what the
    proxy asks of it; [Staging] and [StagingFs] model [staging.cc] and
    [storage/staging_fs_storage.cc] on the file system of [FsContainer].

    The mutexes and [flock] are not modelled: an operation runs alone.  A call that
    never returns is [Undef], as is an access outside a buffer.  [fnmatch] is a
    parameter.  The lock buffers for grouped writes are never used by the source. *)

From stdpp Require Import pretty.
From Stdlib Require Import Ascii.
From S2P Require Import Prelude DS File MetaKeys FsContainer.

#[local] Open Scope Z_scope.
#[local] Open Scope outcome_scope.

(** What [stat] tells of a staged file. *)
Record staged_stat := mk_stat { st_mtime : Z; st_size : Z }.

(** The operations the proxy uses.  A read returns the verdict and the file with its
    data and length. *)
Class StagingArea (S : Type) := {
  openFileForWrite : S -> File.t -> bool * S;
  closeFileForWrite : S -> File.t -> bool * S;
  stageFile : S -> File.t -> bool -> bool -> outcome (bool * S);
  readStaged : S -> File.t -> outcome (bool * File.t);
  pinStaged : S -> File.t -> bool * S;
  unpinStaged : S -> File.t -> bool * S;
  deleteStaged : S -> File.t -> bool * S;
  getFileInfo : S -> File.t -> option staged_stat
}.

(** [fnmatch pattern name = 0], with [FNM_PATHNAME]. *)
Class Fnmatch := fnmatch : string -> string -> bool.

Module StagingFs.

Definition OLD_FILE_EXT : string := ".ncloudstaged".
Definition STAGED_EXT : string := "_staged_".
Definition READ_CACHE_EXT : string := "_readcache_".
Definition PIN_EXT : string := "_pin_".

Record t := mk { _url : string; fs : files; fileLocks : gset string }.

Definition set_fs (s : t) (m : files) : t := mk (_url s) m (fileLocks s).

(** ** Names *)

Definition parse_char (a : ascii) : ascii := if bool_decide (a = "/"%char) then newline else a.
Definition parseName (name : string) : string :=
  String.string_of_list_ascii (map parse_char (chars name)).

(** [snprintf] into a buffer of [PATH_MAX] bytes. *)
Definition staging_path (s : t) (ext : string) (f : File.t) : string :=
  string_take (PATH_MAX - 1)
    (c_str (_url s) +:+ "/" +:+ pretty (File.namespaceId f) +:+ ext +:+ c_str (parseName (default "" (File.name f)))).

Definition getStagedFilename (s : t) (f : File.t) : string := staging_path s STAGED_EXT f.
Definition getReadCacheFilename (s : t) (f : File.t) : string := staging_path s READ_CACHE_EXT f.
Definition getPinFilename (s : t) (f : File.t) : string := staging_path s PIN_EXT f.

Definition getOldFilePath (fpath ctime : string) : string := fpath +:+ "_" +:+ ctime +:+ OLD_FILE_EXT.

(** ** Opening and closing: the lock of the file *)

Definition openFile (s : t) (f : File.t) : bool * t :=
  (true, mk (_url s) (fs s) ({[getStagedFilename s f]} ∪ fileLocks s)).

Definition closeFile (s : t) (f : File.t) : bool * t :=
  let p := getStagedFilename s f in
  if bool_decide (p ∈ fileLocks s) then (true, mk (_url s) (fs s) (fileLocks s ∖ {[p]})) else (false, s).

(** ** Writing *)

(** The loop around [fwrite].  A result below 0 is never seen, so a call that writes
    nothing is repeated for ever. *)
Fixpoint write_all (fuel : nat) (o : os) (written size : nat) : option nat :=
  if (size <=? written)%nat then Some written
  else match fuel with
       | O => None
       | S fuel => write_all fuel o (written + Nat.min (size - written) (fwrite_ret o written (size - written))) size
       end.

(** The contents after [d] was written at [off]; a gap is filled with zeros. *)
Definition write_at (off : nat) (d content : list Z) : list Z :=
  take off (content ++ replicate (off - length content) 0) ++ d ++ drop (off + length d) content.

(** The file that is opened, with the files at that point; [None] when it cannot be
    opened.  [keep] is the configuration for versions. *)
Definition open_target (o : os) (overwriteFiles : bool) (m : files) (fpath : string) (f : File.t)
    (isReadFromAgents isTruncated : bool) : option (list Z) * files :=
  let fopen_w (m : files) := if can_write o fpath then (Some [], <[fpath := mk_file [] (now o)]> m) else (None, m) in
  match m !! fpath with
  | None => fopen_w m
  | Some file =>
      if negb isReadFromAgents && ((File.offset f =? 0) && isTruncated) then
        let ofpath := getOldFilePath fpath (pretty (now o)) in
        let (ok, m) := rename o m fpath ofpath in
        if negb ok then (None, m)
        else fopen_w (if overwriteFiles then unlink o m ofpath else m)
      else if can_write o fpath then (Some (f_data file), m) else (None, m)
  end.

Definition writeFile (o : os) (overwriteFiles : bool) (s : t) (f : File.t) (isReadFromAgents isTruncated : bool)
    : outcome (bool * t) :=
  let fpath := if isReadFromAgents then getReadCacheFilename s f else getStagedFilename s f in
  match open_target o overwriteFiles (fs s) fpath f isReadFromAgents isTruncated with
  | (None, m) => Ok (false, set_fs s m)
  | (Some content, m) =>
      let len := Z.to_nat (File.length f) in
      let* d := access (block_read (default [] (File.data f)) 0 len) in
      let* _ := access (write_all len o 0 len) in
      Ok (true, set_fs s (<[fpath := mk_file (write_at (Z.to_nat (File.offset f)) (closed o d) content) (now o)]> m))
  end.

(** ** Reading *)

Definition blockSize : Z := 4194304.

(** The loop around [fread]: [pos] is the position in the file, [read] the number of
    bytes that are counted.  The bytes of an incomplete item are stored but not
    counted. *)
Fixpoint read_blocks (fuel : nat) (o : os) (content : list Z) (len pos read : Z) (buf : list Z)
    : outcome (Z * list Z) :=
  match fuel with
  | O => Undef
  | S fuel =>
      let unit := if blockSize <=? len - read then blockSize else 1 in
      let req := (len - read) / unit * unit in
      let got := Z.min (Z.min req (Z.max 0 (Z.of_nat (length content) - pos)))
                   (Z.of_nat (fread_ret o (Z.to_nat pos) (Z.to_nat req))) in
      let* _ := access (if Z.to_nat (read + got) <=? length buf then Some tt else None)%nat in
      let buf := list_inserts (Z.to_nat read) (slice (Z.to_nat pos) (Z.to_nat got) content) buf in
      let ret := got / unit in
      if ret =? 0 then Ok (read, buf) else read_blocks fuel o content len (pos + got) (read + ret * unit) buf
  end.

(** The number of bytes read and the buffer. *)
Definition readFile (o : os) (s : t) (f : File.t) (buf : list Z) : outcome (Z * list Z) :=
  let fpath := getStagedFilename s f in
  match fs s !! fpath with
  | Some file =>
      if can_read o fpath then
        read_blocks (S (Z.to_nat (File.length f))) o (f_data file) (File.length f) (File.offset f) 0 buf
      else Ok (INVALID_FILE_LENGTH, buf)
  | None => Ok (INVALID_FILE_LENGTH, buf)
  end.

(** ** Pins *)

Definition pinFile (o : os) (s : t) (f : File.t) : bool * t :=
  let p := getPinFilename s f in
  if can_write o p then
    (true, match fs s !! p with Some _ => s | None => set_fs s (<[p := mk_file [] (now o)]> (fs s)) end)
  else (false, s).

(** [unlink] or [remove] of a path. *)
Definition remove (o : os) (m : files) (p : string) : bool * files :=
  if bool_decide (is_Some (m !! p)) && can_unlink o p then (true, delete p m) else (false, m).

Definition unpinFile (o : os) (s : t) (f : File.t) : bool * t :=
  let (ok, m) := remove o (fs s) (getPinFilename s f) in (ok, set_fs s m).

Definition isFilePinned (s : t) (f : File.t) : bool := bool_decide (is_Some (fs s !! getPinFilename s f)).

(** ** The cache of reads *)

Definition commitReadCacheFile (o : os) (s : t) (f : File.t) : bool * t :=
  if isFilePinned s f then (false, s)
  else let (ok, m) := rename o (fs s) (getReadCacheFilename s f) (getStagedFilename s f) in (ok, set_fs s m).

Definition discardReadCacheFile (o : os) (s : t) (f : File.t) : bool * t :=
  let (ok, m) := remove o (fs s) (getReadCacheFilename s f) in (ok, set_fs s m).

(** ** Deletion *)

Section deletion.
Context `{Fnmatch}.

(** The names in the directory. *)
Definition dir_prefix (s : t) : string := _url s +:+ "/".
Definition entries (s : t) : list string :=
  omap (fun p => if String.prefix (dir_prefix s) p then Some (string_drop (String.length (dir_prefix s)) p) else None)
    (map fst (map_to_list (fs s))).

(** The pattern for old versions. *)
Definition old_pattern (f : File.t) : string :=
  pretty (File.namespaceId f) +:+ "_" +:+ c_str (default "" (File.name f)) +:+ "_[0-9]*" +:+ OLD_FILE_EXT.

Definition entry_path (s : t) (entry : string) : string := string_take (PATH_MAX - 1) (dir_prefix s +:+ entry).

Definition delete_old (o : os) (s : t) (f : File.t) : files :=
  foldl (fun m e => if fnmatch (old_pattern f) e then snd (remove o m (entry_path s e)) else m) (fs s) (entries s).

(** A file that is not there counts as removed. *)
Definition remove_if_there (o : os) (m : files) (p : string) : bool * files :=
  match m !! p with Some _ => remove o m p | None => (true, m) end.

Definition deleteFile (o : os) (s : t) (f : File.t) : bool * t :=
  let m := delete_old o s f in
  let (ok, m) := remove_if_there o m (getReadCacheFilename s f) in
  if negb ok then (false, set_fs s m)
  else
    let m := snd (remove_if_there o m (getPinFilename s f)) in
    let (ok, m) := remove_if_there o m (getStagedFilename s f) in (ok, set_fs s m).

(** ** Cleaning of idle files

    [isStagedFile] hands on the result of [fnmatch], which is not 0 for the names that
    do not match. *)
Definition isStagedFile (entry : string) : bool := negb (fnmatch "[0-9]+_staged_" entry).

(** The file an entry belongs to. *)
Definition entry_file (entry : string) : option File.t :=
  match first_index "_"%char entry with
  | None => None
  | Some i =>
      let rest := string_drop (i + 1) entry in
      match first_index "_"%char rest with
      | None => None
      | Some j => Some (File.set_ids File.reset (u8 (atoi (string_take i entry))) 0 (Some (string_drop (j + 1) rest)))
      end
  end.

(** [atime] is the time of the last access of a path. *)
Definition clean_entry (o : os) (atime : string -> Z) (idleTime : Z) (st : Z * t) (entry : string) : Z * t :=
  let (num, s) := st in
  let p := entry_path s entry in
  if (0 <? idleTime) && (bool_decide (fs s !! p = None) || (now o <? atime p + idleTime)) then st
  else match entry_file entry with
       | None => st
       | Some f =>
           if isFilePinned s f then st else let (ok, s) := deleteFile o s f in (num + Z.b2z ok, s)
       end.

Definition cleanIdleFiles (o : os) (atime : string -> Z) (s : t) (idleTime : Z) : Z * t :=
  foldl (clean_entry o atime idleTime) (0, s) (rev (filter (fun e => isStagedFile e = true) (entries s))).
End deletion.

Definition getFileInfo (s : t) (f : File.t) : option staged_stat :=
  (fun x => mk_stat (f_mtime x) (Z.of_nat (length (f_data x)))) <$> fs s !! getStagedFilename s f.

End StagingFs.

Module Staging.
Section staging.
Context `{Fnmatch}.

(** The calls of the operating system, by the number of the call. *)
Record t := mk { _storage : StagingFs.t; calls : nat }.
Record world := mk_world { sys : nat -> os; malloc : nat -> option (list Z); overwriteFiles : bool }.
Context (w : world).

Definition with_storage {A} (s : t) (r : A * StagingFs.t) : A * t := (fst r, mk (snd r) (S (calls s))).
Definition here (s : t) : os := sys w (calls s).

(** A pinned file is not replaced by a copy from the containers. *)
Definition writeFile (s : t) (f : File.t) (readFromCloud isTruncated : bool) : outcome (bool * t) :=
  if StagingFs.isFilePinned (_storage s) f && readFromCloud then Ok (false, s)
  else let* r := StagingFs.writeFile (here s) (overwriteFiles w) (_storage s) f readFromCloud isTruncated in
       Ok (with_storage s r).

Definition commitReadCache (s : t) (f : File.t) : bool * t :=
  with_storage s (StagingFs.commitReadCacheFile (here s) (_storage s) f).

Definition abortReadCache (s : t) (f : File.t) : bool * t :=
  with_storage s (StagingFs.discardReadCacheFile (here s) (_storage s) f).

(** The length is unsigned, so the test at the end always succeeds. *)
Definition readFile (s : t) (f : File.t) : outcome (bool * File.t) :=
  let hasData := bool_decide (is_Some (File.data f)) in
  let d := if hasData then File.data f
           else malloc w (if File.length f =? 0 then 1%nat else Z.to_nat (File.length f)) in
  let f := File.set_range f (File.offset f) (File.length f) d in
  match d with
  | Some buf =>
      if File.length f =? 0 then Ok (true, f)
      else
        let* (len, buf) := StagingFs.readFile (here s) (_storage s) f buf in
        if negb hasData && (len =? INVALID_FILE_LENGTH) then Ok (false, File.set_range f (File.offset f) len None)
        else Ok (true, File.set_range f (File.offset f) len (Some buf))
  | None => Ok (true, f)
  end.

Definition pinFile (s : t) (f : File.t) : bool * t := with_storage s (StagingFs.pinFile (here s) (_storage s) f).
Definition unpinFile (s : t) (f : File.t) : bool * t := with_storage s (StagingFs.unpinFile (here s) (_storage s) f).
Definition deleteFile (s : t) (f : File.t) : bool * t := with_storage s (StagingFs.deleteFile (here s) (_storage s) f).

#[export] Instance area : StagingArea t := {
  openFileForWrite s f := with_storage s (StagingFs.openFile (_storage s) f);
  closeFileForWrite s f := with_storage s (StagingFs.closeFile (_storage s) f);
  stageFile := writeFile;
  readStaged := readFile;
  pinStaged := pinFile;
  unpinStaged := unpinFile;
  deleteStaged := deleteFile;
  getFileInfo s f := StagingFs.getFileInfo (_storage s) f
}.
End staging.
End Staging.
