(* ===== verification/Proxy.v ===== *)
(** The proxy ([src/proxy/proxy.hh], [src/proxy/proxy_file_ops.cc]): its state, and the
    part of the file operations that writes.

    The proxy is the composition of the chunk managers, the coordinator, the metadata
    store, the policies, the staging area and the deduplication module; every one of
    them keeps its own state.  The chunk managers look up agents in the map of the
    coordinator, which they share.  What the components find outside of the proxy may
    change from call to call: the [world] gives it for each call, and the state counts
    the calls.

    A file is passed and returned where the source passes a reference.  A data buffer
    that two files share is handed from one to the other; where the source moves a
    pointer before the start of the buffer, so that offsets in the file are offsets
    from the pointer, [base] is the distance.  Time measurement, logging, statistics
    and benchmarking are not modelled. *)

From S2P Require Import Prelude DS Wire Isal RSCode File ProxyCoordinator ChunkManager ChunkRepair ChunkModify.
From S2P Require Import Redis MetaKeys RedisServer MetaStore ImmutablePolicy PolicyStore Dedup Staging.

#[local] Open Scope Z_scope.
#[local] Open Scope outcome_scope.

(** Programs over a state, which may fail or be undefined. *)
Definition program (T A : Type) : Type := T -> outcome (A * T).

Definition pret {T A} (a : A) : program T A := fun s => Ok (a, s).
Definition pbind {T A B} (p : program T A) (k : A -> program T B) : program T B := fun s =>
  match p s with Undef => Undef | Fail => Fail | Ok (a, s) => k a s end.
Definition plift {T A} (o : outcome A) : program T A := fun s => obind o (fun a => Ok (a, s)).

Declare Scope program_scope.
Delimit Scope program_scope with program.
Notation "'let&' x ':=' c1 'in' c2" := (pbind c1 (fun x => c2))
  (at level 200, x pattern, c1 at level 100, c2 at level 200) : program_scope.

#[local] Open Scope program_scope.

Module Proxy.

(** ** State and configuration *)

Record config := mk_config {
  overwriteFiles : bool;
  defaultStorageClass : string;
  proxyNamespaceId : Z;              (* DEFAULT_NAMESPACE_ID *)
  numRetry : Z;
  stagingEnabled : bool;
  repair : ChunkRepair.config;
  fileRecoverInterval : Z
}.

Record t `{Isal} (D R S X : Type) := mk {
  _chunkManager : ChunkManager.t;
  _repairChunkManager : ChunkManager.t;
  _tcChunkManager : ChunkManager.t;
  _coordinator : ProxyCoordinator.t;
  _metastore : session D;
  _policies : R;
  _staging : S;
  _dedup : X;
  calls : nat
}.
Arguments mk {_ D R S X}.
Arguments _chunkManager {_ D R S X}.
Arguments _repairChunkManager {_ D R S X}.
Arguments _tcChunkManager {_ D R S X}.
Arguments _coordinator {_ D R S X}.
Arguments _metastore {_ D R S X}.
Arguments _policies {_ D R S X}.
Arguments _staging {_ D R S X}.
Arguments _dedup {_ D R S X}.
Arguments calls {_ D R S X}.

(** What call [n] finds: the clock, the agents as the chunk managers and as the
    coordinator see them, the connection to the policies, the memory for a buffer and
    what is in memory that is not initialised. *)
Record world `{Isal} := mk_world {
  clock : nat -> Z;
  chunk_world : nat -> ChunkManager.world;
  coord_world : nat -> ProxyCoordinator.world;
  policy_link : nat -> connection;
  meta_link : nat -> link;
  buffer : nat -> nat -> option (list Z);
  junk : nat -> nat -> Z
}.

(** [f.data = d], and the other fields of the range. *)
Definition set_data (f : File.t) (d : option (list Z)) : File.t := File.set_range f (File.offset f) (File.length f) d.

Section proxy.
Context `{Isal, Md5, UuidPrinter, UuidParser, UuidGenerator}.
Context {D R S X : Type} `{Server D, Redis R, StagingArea S, Deduplication X}.
Context (cfg : config) (w : world).
Notation t := (t D R S X).
Implicit Types s : t.

Notation P := (program t).

(** The number of this call. *)
Definition tick : P nat := fun s =>
  Ok (calls s, mk (_chunkManager s) (_repairChunkManager s) (_tcChunkManager s) (_coordinator s) (_metastore s)
                 (_policies s) (_staging s) (_dedup s) (Datatypes.S (calls s))).

Definition time : P Z := let& n := tick in pret (clock w n).

(** A chunk manager with the map of the coordinator. *)
Definition share (c : ProxyCoordinator.t) (m : ChunkManager.t) : ChunkManager.t :=
  ChunkManager.mk (ChunkManager._storageClasses m) (ChunkManager._codings m) (ProxyCoordinator._containerToAgentMap c)
    (ChunkManager._eventCount m) (ChunkManager._sent m).

Definition chunks {A} (op : ChunkManager.world -> ChunkManager.t -> outcome (A * ChunkManager.t)) : P A :=
  let& n := tick in fun s =>
  let* (a, m) := op (chunk_world w n) (share (_coordinator s) (_chunkManager s)) in
  Ok (a, mk m (_repairChunkManager s) (_tcChunkManager s) (_coordinator s) (_metastore s) (_policies s) (_staging s)
           (_dedup s) (calls s)).

Definition repair_chunks {A} (op : ChunkManager.world -> ChunkManager.t -> outcome (A * ChunkManager.t)) : P A :=
  let& n := tick in fun s =>
  let* (a, m) := op (chunk_world w n) (share (_coordinator s) (_repairChunkManager s)) in
  Ok (a, mk (_chunkManager s) m (_tcChunkManager s) (_coordinator s) (_metastore s) (_policies s) (_staging s)
           (_dedup s) (calls s)).

Definition check_chunks {A} (op : ChunkManager.world -> ChunkManager.t -> outcome (A * ChunkManager.t)) : P A :=
  let& n := tick in fun s =>
  let* (a, m) := op (chunk_world w n) (share (_coordinator s) (_tcChunkManager s)) in
  Ok (a, mk (_chunkManager s) (_repairChunkManager s) m (_coordinator s) (_metastore s) (_policies s) (_staging s)
           (_dedup s) (calls s)).

Definition coordinate {A} (op : ProxyCoordinator.world -> ProxyCoordinator.t -> outcome (A * ProxyCoordinator.t)) : P A :=
  let& n := tick in fun s =>
  let* (a, c) := op (coord_world w n) (_coordinator s) in
  Ok (a, mk (_chunkManager s) (_repairChunkManager s) (_tcChunkManager s) c (_metastore s) (_policies s) (_staging s)
           (_dedup s) (calls s)).

Definition meta {A} (op : M D A) : P A := fun s =>
  let* (a, ms) := op (_metastore s) in
  Ok (a, mk (_chunkManager s) (_repairChunkManager s) (_tcChunkManager s) (_coordinator s) ms (_policies s) (_staging s)
           (_dedup s) (calls s)).

Definition policies {A} (op : (ImmutablePolicy.Type_ -> connection) -> R -> A * R) : P A :=
  let& n := tick in fun s =>
  let (a, r) := op (fun _ => policy_link w n) (_policies s) in
  Ok (a, mk (_chunkManager s) (_repairChunkManager s) (_tcChunkManager s) (_coordinator s) (_metastore s) r (_staging s)
           (_dedup s) (calls s)).

Definition staging {A} (op : S -> outcome (A * S)) : P A := fun s =>
  let* (a, st) := op (_staging s) in
  Ok (a, mk (_chunkManager s) (_repairChunkManager s) (_tcChunkManager s) (_coordinator s) (_metastore s) (_policies s) st
           (_dedup s) (calls s)).

Definition dedup {A} (op : X -> A * X) : P A := fun s =>
  let (a, x) := op (_dedup s) in
  Ok (a, mk (_chunkManager s) (_repairChunkManager s) (_tcChunkManager s) (_coordinator s) (_metastore s) (_policies s)
           (_staging s) x (calls s)).

(** A local array that is not initialised. *)
Definition uninitialised (len : nat) : P (list Z) := let& n := tick in pret (map (junk w n) (seq 0 len)).
Definition flags (len : nat) : P (list bool) :=
  let& l := uninitialised len in pret (map (fun z => negb (z =? 0)) l).

(** [malloc]; [calloc] clears the block. *)
Definition allocate (len : nat) : P (option (list Z)) :=
  let& n := tick in pret (take len <$> buffer w n len).
Definition calloc (len : nat) : P (option (list Z)) :=
  let& b := allocate len in pret ((fun _ => replicate len 0) <$> b).

(** ** Policies and locks *)

(** [isImmutable(f) || ...], which stops at the first policy in force. *)
Fixpoint held (tys : list ImmutablePolicy.Type_) (f : File.t) : P bool :=
  match tys with
  | [] => pret false
  | ty :: tys =>
      let& now := time in
      let& b := policies (fun c r => (PolicyStore.isPolicyValid (proxyNamespaceId cfg) (c ty) r now f ty, r)) in
      if b then pret true else held tys f
  end.

Definition no_write : list ImmutablePolicy.Type_ :=
  [ImmutablePolicy.IMMUTABLE; ImmutablePolicy.MODIFICATION_HOLD; ImmutablePolicy.ACCESS_HOLD].
Definition no_delete : list ImmutablePolicy.Type_ :=
  [ImmutablePolicy.IMMUTABLE; ImmutablePolicy.DELETION_HOLD; ImmutablePolicy.ACCESS_HOLD].
Definition no_read : list ImmutablePolicy.Type_ := [ImmutablePolicy.ACCESS_HOLD].

(** One try after the other; the time slept in between is not modelled. *)
Fixpoint lock_tries (tries : nat) (f : File.t) : P bool :=
  match tries with
  | O => pret false
  | Datatypes.S tries =>
      let& locked := meta (MetaStore.lockFile (meta_link w) f) in
      if locked then pret true else lock_tries tries f
  end.

Definition lockFile (f : File.t) : P bool := lock_tries (Z.to_nat (numRetry cfg)) f.
Definition unlockFile (f : File.t) : P bool := meta (MetaStore.unlockFile (meta_link w) f).

Definition getMeta (f : File.t) (blocks : Z) : P (bool * File.t) := meta (MetaStore.getMeta (meta_link w) f blocks).
Definition putMeta (f : File.t) : P bool := meta (MetaStore.putMeta (meta_link w) (overwriteFiles cfg) f).

Definition lockFileAndGetMeta (f : File.t) : P (bool * File.t) :=
  let& locked := lockFile f in
  if negb locked then pret (false, f)
  else
    let& (ok, f) := getMeta f 3 in
    if ok then pret (true, f) else let& _ := unlockFile f in pret (false, f).

Definition pinStagedFile (f : File.t) : P bool :=
  if stagingEnabled cfg then staging (fun a => Ok (pinStaged a f)) else pret true.
Definition unpinStagedFile (f : File.t) : P bool :=
  if stagingEnabled cfg then staging (fun a => Ok (unpinStaged a f)) else pret false.

Definition with_namespace (f : File.t) : File.t :=
  if File.namespaceId f =? INVALID_NAMESPACE_ID
  then File.set_ids f (proxyNamespaceId cfg) (File.uuid f) (File.name f) else f.

Definition max_stripe (c : CodingMeta.t) : P Z :=
  chunks (fun cw m => ChunkManager.getMaxDataSizePerStripe cw m (CodingMeta.coding c) (CodingMeta.n c) (CodingMeta.k c)
                        (CodingMeta.maxChunkSize c) true).
Definition required_containers (c : CodingMeta.t) : P Z :=
  chunks (fun cw m => ChunkManager.coding_required_containers cw m (CodingMeta.coding c) (CodingMeta.n c) (CodingMeta.k c)).
Definition chunks_per_container (c : CodingMeta.t) : P Z :=
  chunks (fun cw m => ChunkManager.coding_chunks_per_container cw m (CodingMeta.coding c) (CodingMeta.n c) (CodingMeta.k c)).

(** [checkContainerLiveness] with a fresh array. *)
Definition liveness (ids : list Z) (updateStatusFirst checkAllFailures treatUnusedAsOffline : bool) : P (Z * list bool) :=
  let& status := flags (length ids) in
  coordinate (fun cw c => ProxyCoordinator.checkContainerLiveness cw c ids status updateStatusFirst checkAllFailures
                            treatUnusedAsOffline).

(** ** Preparing a write *)

(** The containers found replace the start of the array. *)
Definition find_containers (num size : Z) (c : CodingMeta.t) (spare : list Z) : P (list Z * Z) :=
  let& found := coordinate (fun cw co => ProxyCoordinator.findSpareContainers cw co [] [] num size c) in
  pret (list_inserts 0 found spare, Z.of_nat (length found)).

(** The size the containers must hold for the stripes in the range of [f]. *)
Definition write_size (f wf : File.t) (max extra : Z) : Z :=
  let isSmallFile := File.size wf <? max in
  let alignedStart := i32 (File.offset f / max) in
  let alignedEnd := i32 (u64 (File.offset f + File.length f + max - 1) / max) in
  let numStripes := if isSmallFile then 1 else i32 (alignedEnd - alignedStart) in
  u64 ((if isSmallFile then File.size wf else u64 (max * u64 numStripes)) + u64 (extra * u64 numStripes)).

(** Returns the verdict, both files, the array and the number of containers. *)
Definition prepareWrite (f wf : File.t) (spare : option (list Z)) (numSelected : Z) (needsFindSpareContainers : bool)
    : P (bool * File.t * File.t * option (list Z) * Z) :=
  let wf := snd (File.copyNameAndSize wf f) in
  let& (ok, cm) := chunks (fun _ m => Ok (ChunkManager.setCodingMeta m (File.storageClass f) (File.codingMeta f), m)) in
  if negb ok then pret (false, f, wf, spare, numSelected)
  else
    let f := File.set_policy f cm (File.storageClass f) in
    let wf := File.copyOperationDataRange (File.copyStoragePolicy wf f) f in
    let c := File.codingMeta wf in
    let& numContainers := if 0 <? File.size wf then required_containers c else pret 0 in
    if numContainers =? -1 then pret (false, f, set_data wf None, spare, numSelected)
    else
      let& arr := match spare with
                  | Some a => pret a
                  | None => uninitialised (Z.to_nat numContainers)
                  end in
      if negb needsFindSpareContainers then pret (true, f, wf, Some arr, numSelected)
      else
        let& max := max_stripe c in
        if max =? 0 then pret (false, f, wf, spare, numSelected)
        else
          let& extra := chunks (fun _ m => Ok (ChunkManager.getPerStripeExtraDataSize m (File.storageClass wf), m)) in
          let& (arr, numSelected) := find_containers numContainers (write_size f wf max extra) c arr in
          let& least := chunks (fun _ m => Ok (ChunkManager.getMinNumRequiredContainers m (File.storageClass wf), m)) in
          if (numSelected <? least) || (least =? -1)
          then pret (false, f, set_data wf None, match spare with None => None | Some _ => Some arr end, numSelected)
          else pret (true, f, wf, Some arr, numSelected).

(** ** Deduplication of a stripe *)

(** The data, the length so far, the blocks of the file. *)
Record dedup_state := mk_dedup {
  d_data : list Z;
  d_length : Z;                      (* physicalLength, unsigned int *)
  d_unique : list (InObjectLocation * (string * Z));
  d_duplicate : list (InObjectLocation * string)
}.

(** One block: a duplicate is left out, a unique one is moved to the front. *)
Definition dedup_block (stripeOffset : Z) (b : InObjectLocation * (string * bool)) (st : dedup_state) : outcome dedup_state :=
  let '(l, (fp, isDuplicate)) := b in
  if isDuplicate then Ok (mk_dedup (d_data st) (d_length st) (d_unique st) (emplace l fp (d_duplicate st)))
  else
    let inStripeOffset := Z.to_nat (u32 (_offset l - stripeOffset)) in
    let len := Z.to_nat (_length l) in
    let* moved := access (block_read (d_data st) inStripeOffset len) in
    let* _ := access (if Z.to_nat (d_length st) + len <=? length (d_data st) then Some tt else None)%nat in
    Ok (mk_dedup (list_inserts (Z.to_nat (d_length st)) moved (d_data st)) (u32 (d_length st + _length l))
          (emplace l (fp, i32 (d_length st)) (d_unique st)) (d_duplicate st)).

Fixpoint dedup_blocks (stripeOffset : Z) (bs : list (InObjectLocation * (string * bool))) (st : dedup_state)
    : outcome dedup_state :=
  match bs with
  | [] => Ok st
  | b :: bs => let* st := dedup_block stripeOffset b st in dedup_blocks stripeOffset bs st
  end.

(** Returns the verdict, the stripe, the blocks of the file [wf] and the commit id. *)
Definition dedupStripe (swf wf : File.t) : P (bool * File.t * File.t * string) :=
  let& name := plift (access (File.name swf)) in
  let location := BlockLocation.mk (File.namespaceId swf) name (File.version swf)
                    (mk_location (File.offset swf) (u32 (File.length swf))) in
  let& (commitId, blocks) := dedup (fun x => Dedup.scan x (default [] (File.data swf)) location) in
  match blocks with
  | [] => pret (false, swf, wf, commitId)
  | _ =>
      let& st := plift (dedup_blocks (File.offset swf) blocks
                          (mk_dedup (default [] (File.data swf)) 0 (File.uniqueBlocks wf) (File.duplicateBlocks wf))) in
      pret (true, File.set_range swf (File.offset swf) (d_length st) (Some (d_data st)),
            File.set_blocks wf (d_unique st) (d_duplicate st), commitId)
  end.

(** ** Writing the stripes *)

(** The bytes of an array of [int]s, and back. *)
Definition int_bytes (l : list Z) : list Z := concat (map (le 4) l).
Fixpoint bytes_int (n : nat) (l : list Z) : list Z :=
  match n with O => [] | Datatypes.S n => i32 (unle (take 4 l)) :: bytes_int n (drop 4 l) end.

(** What the loop over the stripes changes: the file, the array of containers and its
    size in use, the buffer for a stripe, and the commit ids. *)
Record stripes_state := mk_stripes {
  s_wf : File.t;
  s_spare : list Z;
  s_selected : Z;
  s_buf : option (list Z);
  s_commits : list string
}.

Section stripes.
(** The old file, the stripe size, the number of chunks per stripe and of stripes, the
    first stripe, and the offset in the file of the start of the data. *)
Context (f : File.t) (max per numStripes startIdx base : Z).

(** [CLEAN_UP_PREVIOUS_STRIPES]: the containers are moved by a number of bytes that is
    the number of containers, and only the first chunk is marked. *)
Definition clean_up (endIdx : Z) (isAppend : bool) (wf : File.t) : P File.t :=
  let num := Z.to_nat ((endIdx - startIdx) * per) in
  let from := Z.to_nat (startIdx * per) in
  let ids := default [] (File.containerIds wf) in
  let cs := default [] (File.chunks wf) in
  let& moved := plift (access (block_read (int_bytes ids) (4 * from) num)) in
  let ids := bytes_int (length ids) (list_inserts 0 moved (int_bytes ids)) in
  let& _ := plift (access (block_read cs from num)) in
  let move cs j := let cs := <[(j - from)%nat := cs !!! j]> cs in <[j := Chunk.set_freeData (cs !!! j) false]> cs in
  let cs := foldl move cs (seq from num) in
  let wf := File.set_chunk_info wf (i32 (per * (endIdx - startIdx))) (Some ids) (Some cs) (File.chunksCorrupted wf) in
  let ind := Some (take num (true :: replicate (num - 1) false)) in
  let& _ := chunks (fun cw m => if isAppend then ChunkManager.deleteFile cw m wf ind
                                else ChunkManager.revertFile cw m wf ind) in
  pret wf.

(** The containers of a stripe that is overwritten. *)
Definition reuse_containers (i : Z) (isAppend : bool) (st : stripes_state) : outcome (list Z * Z) :=
  if isAppend then Ok (s_spare st, s_selected st)
  else
    let* ids := access (block_read (default [] (File.containerIds f)) (Z.to_nat (i * per)) (Z.to_nat per)) in
    let* _ := access (if Z.to_nat per <=? length (s_spare st) then Some tt else None)%nat in
    Ok (list_inserts 0 ids (s_spare st), per).

(** The data of the stripe: the part of the buffer of the file from its offset on, or
    a copy in the buffer for a stripe, which then is also returned. *)
Definition stripe_data (wf swf : File.t) (buf : option (list Z)) : P (list Z * option (list Z)) :=
  let& modify := chunks (fun _ m => Ok (ChunkManager.willModifyDataBuffer m (File.storageClass f), m)) in
  let at_ := File.offset swf - base in
  let& _ := plift (access (if 0 <=? at_ then Some tt else None)) in
  let d := default [] (File.data wf) in
  if modify || negb (File.length swf =? max) then
    let c := File.codingMeta wf in
    let& buf := match buf with
                | Some b => pret (Some b)
                | None =>
                    let& size := chunks (fun cw m => ChunkManager.getDataStripeSize cw m (CodingMeta.coding c)
                                                       (CodingMeta.n c) (CodingMeta.k c) max) in
                    calloc (Z.to_nat size)
                end in
    let& b := plift (access buf) in
    let& part := plift (access (block_read d (Z.to_nat at_) (Z.to_nat (File.length swf)))) in
    let& _ := plift (access (if length part <=? length b then Some tt else None)%nat) in
    let b := list_inserts 0 part b in
    pret (b, Some b)
  else
    let& _ := plift (access (if Z.to_nat at_ <=? length d then Some tt else None)%nat) in
    pret (drop (Z.to_nat at_) d, None).

(** The containers and the chunks of stripe [i] in the arrays of the file. *)
Definition record_stripe (i : Z) (swf wf : File.t) : outcome File.t :=
  let at_ := Z.to_nat (i * per) in
  let n := Z.to_nat per in
  let emptyStripe := File.length swf =? 0 in
  let ids := default [] (File.containerIds wf) in
  let cs := default [] (File.chunks wf) in
  let* new_ids := if emptyStripe then Ok (replicate n UNUSED_CONTAINER_ID)
                  else access (block_read (default [] (File.containerIds swf)) 0 n) in
  let* new_cs := access (if emptyStripe then Some (replicate n Chunk.reset)
                         else block_read (default [] (File.chunks swf)) 0 n) in
  let* old_cs := access (block_read cs at_ n) in
  let* _ := access (block_read ids at_ n) in
  let set j old new := Chunk.setChunkId (if emptyStripe then Chunk.resetMD5 (Chunk.set_size old 0) else Chunk.copyMeta old new true)
                         (i32 (i * per + Z.of_nat j)) in
  Ok (File.set_chunk_info wf (File.numChunks wf) (Some (list_inserts at_ new_ids ids))
        (Some (list_inserts at_ (zip_with (fun j p => set j (fst p) (snd p)) (seq 0 n) (zip old_cs new_cs)) cs))
        (File.chunksCorrupted wf)).

(** The coding metadata of the file: the parameters of the first stripe, and the state
    of every stripe. *)
Definition record_coding (i : Z) (swf wf : File.t) : P File.t :=
  let sc := File.codingMeta swf in
  let c := File.codingMeta wf in
  let& c :=
    if i =? startIdx then
      let size := u32 (CodingMeta.codingStateSize sc * u32 numStripes) in
      let& fresh := uninitialised (Z.to_nat size) in
      pret (CodingMeta.mk (CodingMeta.coding c) (if 0 <? size then Some fresh else CodingMeta.codingState c)
              (CodingMeta.n sc) (CodingMeta.k sc) (CodingMeta.f c) size (CodingMeta.maxChunkSize c))
    else pret c in
  let& c :=
    if 0 <? CodingMeta.codingStateSize c then
      let size := Z.to_nat (CodingMeta.codingStateSize sc) in
      let& part := plift (access (block_read (default [] (CodingMeta.codingState sc)) 0 size)) in
      let state := default [] (CodingMeta.codingState c) in
      let& _ := plift (access (block_read state (Z.to_nat i * size) size)) in
      pret (CodingMeta.mk (CodingMeta.coding c) (Some (list_inserts (Z.to_nat i * size) part state)) (CodingMeta.n c)
              (CodingMeta.k c) (CodingMeta.f c) (CodingMeta.codingStateSize c) (CodingMeta.maxChunkSize c))
    else pret c in
  pret (File.set_policy wf c (File.storageClass wf)).

(** Stripe [i]: the verdict and the state. *)
Definition write_one_stripe (i : Z) (st : stripes_state) : P (bool * stripes_state) :=
  let isAppend := File.numStripes f <=? i in
  let start := u64 (i * max) in
  let left := u64 (File.size f - start) in
  let wf := File.set_range (s_wf st) start (if max <? left then max else left) (File.data (s_wf st)) in
  let& (spare, numSelected) := plift (reuse_containers i isAppend st) in
  let& (ok, wf, swf, arr, numSelected) :=
    prepareWrite wf (File.copyVersionControlInfo File.reset wf) (Some spare) numSelected isAppend in
  let spare := default [] arr in
  if negb ok then
    let& wf := if startIdx <? i then clean_up (i - 1) isAppend wf else pret wf in
    pret (false, mk_stripes wf spare numSelected (s_buf st) (s_commits st))
  else
    let& (d, own) := stripe_data wf swf (s_buf st) in
    let swf := set_data swf (Some d) in
    let& (ok, swf, wf, commitId) := dedupStripe swf wf in
    (* the blocks were moved in the buffer that the stripe points into *)
    let d := default [] (File.data swf) in
    let at_ := Z.to_nat (File.offset swf - base) in
    let wf := match own with
              | Some _ => wf
              | None => set_data wf (Some (take at_ (default [] (File.data wf)) ++ d))
              end in
    let buf := match own with Some _ => Some d | None => s_buf st end in
    if negb ok then pret (false, mk_stripes wf spare numSelected buf (s_commits st))
    else
      let commits := s_commits st ++ [commitId] in
      let emptyStripe := File.length swf =? 0 in
      let& (ok, swf) :=
        if emptyStripe then pret (true, swf)
        else
          let& (ok, swf, _) := chunks (fun cw m =>
            ChunkManager.writeFileStripe cw m swf (take (Z.to_nat numSelected) spare) false (negb isAppend)) in
          pret (ok, swf) in
      if negb ok then
        let& wf := if startIdx <? i then clean_up i isAppend wf else pret wf in
        pret (false, mk_stripes wf spare numSelected buf commits)
      else
        let& wf := plift (record_stripe i swf wf) in
        let& wf := record_coding i swf wf in
        pret (true, mk_stripes wf spare numSelected buf commits).

Fixpoint write_stripes (is_ : list Z) (st : stripes_state) : P (bool * stripes_state) :=
  match is_ with
  | [] => pret (true, st)
  | i :: is_ =>
      let& (ok, st) := write_one_stripe i st in
      if ok then write_stripes is_ st else pret (false, st)
  end.
End stripes.

(** Returns the verdict, the file written and the commit ids.  A stripe size of 0 is
    a division by 0. *)
Definition writeFileStripes (f wf : File.t) (spare : option (list Z)) (numSelected base : Z)
    : P (bool * File.t * list string) :=
  let c := File.codingMeta wf in
  let& numContainers := required_containers c in
  let& numChunksPerContainer := chunks_per_container c in
  if (numContainers <? 0) || (numChunksPerContainer <? 0) then pret (false, wf, [])
  else
    let& max := max_stripe c in
    if max =? INVALID_FILE_OFFSET then pret (false, wf, [])
    else
      let& _ := plift (access (if max =? 0 then None else Some tt)) in
      let numStripes := i32 (i32 (File.size f / max) + (if File.size f mod max =? 0 then 0 else 1)) in
      let per := i32 (numContainers * numChunksPerContainer) in
      let wf := File.set_chunk_info wf (i32 (per * numStripes)) (File.containerIds wf) (File.chunks wf)
                  (File.chunksCorrupted wf) in
      let (ok, wf) := File.initChunksAndContainerIds wf (-1) in
      if negb ok then pret (false, wf, [])
      else
        let startIdx := i32 (File.offset f / max) in
        let endIdx := i32 (u64 (File.offset f + File.length f + max - 1) / max) in
        let& (ok, st) := write_stripes f max per numStripes startIdx base (seqZ startIdx (endIdx - startIdx))
                           (mk_stripes wf (default [] spare) numSelected None []) in
        if ok then pret (true, File.set_numStripes (s_wf st) numStripes, s_commits st)
        else pret (false, s_wf st, s_commits st).

(** ** [writeFile] *)

Fixpoint for_commits (op : X -> string -> X) (ids : list string) : P unit :=
  match ids with
  | [] => pret tt
  | i :: ids => let& _ := dedup (fun x => (tt, op x i)) in for_commits op ids
  end.

(** The staging area first, when it is enabled: the verdict and the old file, which
    then carries the staged version. *)
Definition write_staging (wf old : File.t) : P (bool * File.t) :=
  if stagingEnabled cfg then
    let& _ := pinStagedFile wf in
    let& _ := staging (fun a => Ok (openFileForWrite a wf)) in
    let& written := staging (fun a => stageFile a wf false true) in
    let& _ := staging (fun a => Ok (closeFileForWrite a wf)) in
    if written then
      let old := File.setStagedInfo old (File.size wf) (File.codingMeta wf) (File.storageClass wf) (File.mtime wf) in
      let old := if File.version old =? -1 then File.setVersion old 0 else old in
      let& _ := meta (markFileAsPendingWriteToCloud (meta_link w) old) in pret (true, old)
    else let& _ := unpinStagedFile wf in pret (false, old)
  else pret (false, old).

(** Whether the data is in the containers, whether it is staged, the files and the
    commit ids. *)
Definition write_data (f wf old : File.t) (spare : option (list Z)) (numSelected : Z)
    : P (bool * bool * File.t * File.t * list string) :=
  if File.size wf =? 0 then
    pret (true, false,
          File.setVersion (File.set_numStripes wf 0) (if File.version old =? -1 then 0 else i32 (File.version old + 1)), old, [])
  else
    let& (staged, old) := write_staging wf old in
    if staged then pret (false, true, wf, old, [])
    else
      let wf := File.setVersion wf (i32 (File.version old + 1)) in
      let wf := File.set_policy wf (File.codingMeta wf)
                  (if bool_decide (File.storageClass f = "") then defaultStorageClass cfg else File.storageClass f) in
      let& (ok, wf, commits) := writeFileStripes f wf spare numSelected 0 in
      pret (ok, false, wf, old, commits).

(** The chunks of the old version are removed from the containers that are up. *)
Definition remove_old (old : File.t) : P unit :=
  let& (_, alive) := liveness (take (Z.to_nat (File.numChunks old)) (default [] (File.containerIds old))) true true false in
  let& _ := chunks (fun cw m => ChunkManager.deleteFile cw m old (Some alive)) in
  pret tt.

(** The end of [writeFile]: the checksum, the metadata, the commits and the old version. *)
Definition commit_write (f wf old : File.t) (commits : list string) (staged deleteOldFile : bool) : P (bool * File.t) :=
  let d := default [] (File.data wf) in
  let& bytes := plift (access (block_read d 0 (Z.to_nat (File.length f)))) in
  let wf := set_data (File.set_md5 wf (MD5 bytes)) None in
  let f := File.set_ids (File.set_md5 f (MD5 bytes)) (File.namespaceId f) (File.uuid wf) (File.name f) in
  let f := set_data f (Some d) in
  let& ok := putMeta (if staged then old else wf) in
  if negb ok then
    let& _ := unlockFile wf in
    let& _ := for_commits abort_scan commits in pret (false, f)
  else
    let& _ := for_commits Dedup.commit commits in
    let& _ := if deleteOldFile && negb staged then remove_old old else pret tt in
    let& _ := unlockFile wf in
    pret (true, f).

(** [writeFile] with the lock on the file: the last version is looked up, the data is
    written and then the metadata. *)
Definition write_version (f wf : File.t) (spare : option (list Z)) (numSelected : Z) : P (bool * File.t) :=
  let old := File.copyName File.reset f in
  let wf := File.setVersion wf 0 in
  let& now := time in
  let& (found, old) := getMeta old 3 in
  let wf := if found then File.setTimeStamps wf (File.ctime old) now now 0
            else if File.ctime f =? 0 then File.setTimeStamps wf now now now 0 else wf in
  if negb (File.size wf =? File.length wf) || negb (File.offset wf =? 0) then
    let& _ := unlockFile wf in pret (false, f)
  else
    let& (backend, staged, wf, old, commits) := write_data f wf old spare numSelected in
    if negb backend && negb staged then
      let& _ := unlockFile wf in
      let& _ := for_commits abort_scan commits in pret (false, set_data f (File.data wf))
    else commit_write f wf old commits staged (found && overwriteFiles cfg).

(** The namespace and the storage class that are not given. *)
Definition with_defaults (f : File.t) : File.t :=
  let f := with_namespace f in
  if bool_decide (File.storageClass f = "") then File.set_policy f (File.codingMeta f) (defaultStorageClass cfg) else f.

Definition writeFile (f : File.t) : P (bool * File.t) :=
  let f := with_defaults f in
  let& no := held no_write f in
  if no then pret (false, f)
  else
    let& (ok, f, wf, spare, numSelected) := prepareWrite f File.reset None 0 false in
    if negb ok then pret (false, f)
    else
      let wf := set_data wf (File.data f) in
      let& locked := lockFile wf in
      if negb locked then pret (false, f) else write_version f wf spare numSelected.

End proxy.
End Proxy.
