(* ===== verification/ProxyRead.v ===== *)
(** Reading files at the proxy ([src/proxy/proxy_file_ops.cc]): the blocks of a file are
    sorted into those of the file and those found in other files, the stripes of the
    other files are read, then those of the file itself, and the data is put together
    in one buffer. *)

From Stdlib Require String.
From S2P Require Import Prelude DS Wire Isal RSCode File ProxyCoordinator ChunkManager.
From S2P Require Import Redis MetaKeys RedisServer MetaStore ImmutablePolicy PolicyStore Dedup Staging Proxy.

#[local] Open Scope Z_scope.
#[local] Open Scope outcome_scope.
#[local] Open Scope program_scope.

Module ProxyRead.
Import Proxy.

(** [StripeLocation]: the id of an object and an offset, in the order of the map. *)
Record StripeLocation := mk_stripe { _objectName : string; _stripe_offset : Z }.

Definition stripe_ltb (a b : StripeLocation) : bool :=
  String.ltb (_objectName a) (_objectName b)
  || bool_decide (_objectName a = _objectName b) && (_stripe_offset a <? _stripe_offset b).

Definition stripe_eqb (a b : StripeLocation) : bool :=
  bool_decide (_objectName a = _objectName b) && (_stripe_offset a =? _stripe_offset b).

(** Insertion into a map: an entry that is there gets the value appended. *)
Fixpoint add_location {A} (k : StripeLocation) (a : list A) (m : list (StripeLocation * list A))
    : list (StripeLocation * list A) :=
  match m with
  | [] => [(k, a)]
  | (k', a') :: m' =>
      if stripe_eqb k k' then (k', a' ++ a) :: m'
      else if stripe_ltb k k' then (k, a) :: m else (k', a') :: add_location k a m'
  end.

(** The blocks that lie elsewhere: for every location the offset in its stripe and the
    place in the file; the stripes to read; the metadata of the other files. *)
Record external := mk_external {
  blockLocs : list (StripeLocation * list (Z * InObjectLocation));
  stripes : list (StripeLocation * list unit);
  files_ : gmap string File.t
}.

(** Adjacent blocks of the file are joined: offset, physical offset and length. *)
Fixpoint internal_blocks (bs : list (InObjectLocation * (string * Z))) (last : option (Z * Z * Z)) : list (Z * Z * Z) :=
  match bs, last with
  | [], None => []
  | [], Some b => [b]
  | (l, (_, phys)) :: bs, None => internal_blocks bs (Some (_offset l, phys, _length l))
  | (l, (_, phys)) :: bs, Some (o, p, n) =>
      if (o + n =? _offset l) && (p + n =? phys) then internal_blocks bs (Some (o, p, u32 (n + _length l)))
      else (o, p, n) :: internal_blocks bs (Some (_offset l, phys, _length l))
  end.

(** The entries of a map with an offset in [lo, hi]. *)
Definition in_range {A} (lo hi : Z) (m : list (InObjectLocation * A)) : list (InObjectLocation * A) :=
  filter (fun p => (lo <=? _offset (fst p)) && (_offset (fst p) <=? hi) = true) m.

Section read.
Context `{Isal, Md5, UuidPrinter, UuidParser, UuidGenerator}.
Context {D R S X : Type} `{Server D, Redis R, StagingArea S, Deduplication X}.
Context (cfg : config) (w : world).
Notation P := (program (Proxy.t D R S X)).

(** ** The metadata of one stripe *)

(** The stripe has its entries of the arrays of the file. *)
Definition copyFileStripeMeta (src : File.t) (stripeId : Z) : P (bool * File.t) :=
  let dst := snd (File.copyNameAndSize File.reset src) in
  let& _ := plift (access (if File.numStripes src =? 0 then None else Some tt)) in
  let per := Z.quot (File.numChunks src) (File.numStripes src) in
  let c := File.codingMeta src in
  let& max := max_stripe w c in
  let size := if u64 (i32 (stripeId + 1) * max) <? File.size src then max else u64 (File.size src - u64 (stripeId * max)) in
  let dst := File.setVersion (File.set_size dst size) (File.version src) in
  let part {A} (l : list A) := slice (Z.to_nat (stripeId * per)) (Z.to_nat per) l in
  let dst := File.set_chunk_info dst per (part <$> File.containerIds src) (part <$> File.chunks src)
               (part <$> File.chunksCorrupted src) in
  let stateSize := CodingMeta.codingStateSize c / u32 (File.numStripes src) in
  pret (true, File.set_policy dst
                (CodingMeta.mk (CodingMeta.coding c) (drop (Z.to_nat (stripeId * stateSize)) <$> CodingMeta.codingState c)
                   (CodingMeta.n c) (CodingMeta.k c) (CodingMeta.f c) stateSize (CodingMeta.maxChunkSize c))
                (File.storageClass dst)).

(** ** Blocks in other files *)

(** The metadata of the file with a block, from the files known so far or the store. *)
Definition external_file (b : BlockLocation.t) (ext : external) : P (option (File.t * external)) :=
  let id := BlockLocation.getObjectID b in
  match files_ ext !! id with
  | Some ef => pret (Some (ef, ext))
  | None =>
      let ef := File.setVersion File.reset (BlockLocation.version b) in
      let ef := snd (File.setName ef (BlockLocation.name b)) in
      let ef := File.set_ids ef (BlockLocation.namespaceId b) (File.uuid ef) (File.name ef) in
      let& (ok, ef) := getMeta w ef 1 in
      pret (if ok then Some (ef, mk_external (blockLocs ext) (stripes ext) (<[id := ef]> (files_ ext))) else None)
  end.

(** A duplicate block at [dloc] of the file, with its fingerprint, found at [b]. *)
Definition external_block (dloc : InObjectLocation) (fp : string) (b : BlockLocation.t) (ext : external)
    : P (bool * external) :=
  let& found := external_file b ext in
  match found with
  | None => pret (false, ext)
  | Some (ef, ext) =>
      let id := BlockLocation.getObjectID b in
      let& max := max_stripe w (File.codingMeta ef) in
      let& _ := plift (access (if max =? 0 then None else Some tt)) in
      let off := _offset (BlockLocation.range b) in
      let ext := mk_external (blockLocs ext) (add_location (mk_stripe id (u64 (off / max * max))) [] (stripes ext)) (files_ ext) in
      match list_find (fun u => _offset (fst u) = off) (File.uniqueBlocks ef) with
      | None => pret (false, ext)
      | Some (_, (_, (fp', phys))) =>
          if bool_decide (fp' = fp) then
            pret (true, mk_external (add_location (mk_stripe id off) [(phys, dloc)] (blockLocs ext)) (stripes ext) (files_ ext))
          else pret (false, ext)
      end
  end.

Fixpoint external_blocks (dups : list (InObjectLocation * string)) (bs : list BlockLocation.t) (ext : external)
    : P (bool * external) :=
  match dups, bs with
  | (dloc, fp) :: dups, b :: bs =>
      let& (ok, ext) := external_block dloc fp b ext in
      if ok then external_blocks dups bs ext else pret (false, ext)
  | _, _ => pret (true, ext)
  end.

(** The verdict, the blocks of the file, and those in other files. *)
Definition sortStripesAndBlocks (namespaceId : Z) (unique : list (InObjectLocation * (string * Z)))
    (dups : list (InObjectLocation * string)) : P (bool * list (Z * Z * Z) * external) :=
  let internal := internal_blocks unique None in
  let none := mk_external [] [] ∅ in
  let& locs := dedup (fun x => (Dedup.query x namespaceId (map snd dups), x)) in
  if (length locs =? length dups)%nat then
    let& (ok, ext) := external_blocks dups locs none in pret (ok, internal, ext)
  else pret (false, internal, none).

(** ** The stripes of other files *)

(** [memcpy] between two buffers. *)
Definition copy_bytes (dst : list Z) (at_ : Z) (src : list Z) (from len : Z) : outcome (list Z) :=
  let* _ := access (if (0 <=? at_) && (0 <=? from) then Some tt else None) in
  let* part := access (block_read src (Z.to_nat from) (Z.to_nat len)) in
  let* _ := access (block_read dst (Z.to_nat at_) (Z.to_nat len)) in
  Ok (list_inserts (Z.to_nat at_) part dst).

(** The blocks of one stripe of another file; [buf] starts at offset [f.offset]. *)
Fixpoint copy_blocks (f : File.t) (d : list Z) (bs : list (Z * InObjectLocation)) (buf : list Z) (bytes : Z)
    : outcome (list Z * Z) :=
  match bs with
  | [] => Ok (buf, bytes)
  | (phys, l) :: bs =>
      let len := u32 (Z.min (u64 (File.offset f + File.length f - _offset l)) (_length l)) in
      let* buf := copy_bytes buf (_offset l - File.offset f) d phys len in
      copy_blocks f d bs buf (u64 (bytes + len))
  end.

Definition blocks_between (lo : StripeLocation) (hi : Z) (m : list (StripeLocation * list (Z * InObjectLocation)))
    : list (Z * InObjectLocation) :=
  concat (map snd (filter (fun p => negb (stripe_ltb (fst p) lo)
                                    && negb (stripe_ltb (mk_stripe (_objectName lo) hi) (fst p)) = true) m)).

(** One stripe of another file: the verdict, the buffer and the number of bytes. *)
Definition read_external (f : File.t) (ext : external) (k : StripeLocation) (buf : list Z) (bytes : Z)
    : P (bool * list Z * Z) :=
  match files_ ext !! _objectName k with
  | None => pret (false, buf, bytes)
  | Some ef =>
      let c := File.codingMeta ef in
      let& max := max_stripe w c in
      let len := Z.min max (u64 (File.size ef - _stripe_offset k)) in
      let ef := File.set_range ef (_stripe_offset k) len (File.data ef) in
      let& required := required_containers w c in
      let& each := chunks_per_container w c in
      let per := i32 (required * each) in
      let& _ := plift (access (if max =? 0 then None else Some tt)) in
      let stripeId := i32 (_stripe_offset k / max) in
      let& ids := plift (access (block_read (default [] (File.containerIds ef)) (Z.to_nat (stripeId * per)) (Z.to_nat per))) in
      let& (_, alive) := liveness w ids true true false in
      let& (_, erf) := copyFileStripeMeta ef stripeId in
      let& (ok, erf) := chunks w (fun cw m => ChunkManager.readFileStripe cw m erf alive) in
      if negb ok then pret (false, buf, bytes)
      else
        let bs := blocks_between k (u64 (_stripe_offset k + len - 1)) (blockLocs ext) in
        let& (buf, bytes) := plift (copy_blocks f (default [] (File.data erf)) bs buf bytes) in
        pret (true, buf, bytes)
  end.

Fixpoint read_externals (f : File.t) (ext : external) (ks : list StripeLocation) (buf : list Z) (bytes : Z)
    : P (bool * list Z * Z) :=
  match ks with
  | [] => pret (true, buf, bytes)
  | k :: ks =>
      let& (ok, buf, bytes) := read_external f ext k buf bytes in
      if ok then read_externals f ext ks buf bytes else pret (false, buf, bytes)
  end.

(** ** The stripes of the file *)

(** The buffer; whether the file still points to it; the buffer for one stripe; the
    array for the state of the containers; and the number of bytes. *)
Record read_state := mk_read {
  r_buf : list Z; r_valid : bool; r_tmp : option (list Z); r_status : list bool; r_bytes : Z
}.

Section stripes.
Context (f rf : File.t) (max : Z) (preallocated : bool).

(** The buffer for a stripe, at first use or when it is too small; cleared. *)
Definition stripe_buffer (actual : Z) (tmp : option (list Z)) : P (option (list Z)) :=
  let have := Z.of_nat (length (default [] tmp)) in
  let& b := if bool_decide (tmp = None) || (have <? actual) || (have <? max)
            then calloc w (Z.to_nat (Z.max actual max)) else pret tmp in
  pret ((fun l => list_inserts 0 (replicate (Z.to_nat actual) 0) l) <$> b).

(** The stripe [srf] at [at_] of the buffer: the verdict and the state. *)
Definition read_into (srf : File.t) (useTemp : bool) (actual at_ : Z) (st : read_state) : P (bool * read_state) :=
  if useTemp then
    let& tmp := stripe_buffer actual (r_tmp st) in
    match tmp with
    | None => let& _ := unlockFile w rf in pret (false, st)
    | Some tmp =>
        let& (ok, srf) := chunks w (fun cw m => ChunkManager.readFileStripe cw m (set_data srf (Some tmp)) (r_status st)) in
        let d := default [] (File.data srf) in
        let& buf := plift (let* _ := access (if r_valid st then Some tt else None) in
                           copy_bytes (r_buf st) at_ d 0 (File.size srf)) in
        pret (ok, mk_read buf (r_valid st) (Some d) (r_status st) (u64 (r_bytes st + File.size srf)))
    end
  else
    let& _ := plift (access (if r_valid st && (0 <=? at_) && (at_ <=? Z.of_nat (length (r_buf st))) then Some tt else None)) in
    let& (ok, srf) := chunks w (fun cw m => ChunkManager.readFileStripe cw m
                                  (set_data srf (Some (drop (Z.to_nat at_) (r_buf st)))) (r_status st)) in
    pret (ok, mk_read (take (Z.to_nat at_) (r_buf st) ++ default [] (File.data srf)) (r_valid st) (r_tmp st) (r_status st)
                (u64 (r_bytes st + File.size srf))).

(** Stripe [i].  After a stripe without data the file no longer points to a buffer that
    the caller gave. *)
Definition read_one_stripe (i : Z) (st : read_state) : P (bool * read_state) :=
  let& (_, srf) := copyFileStripeMeta rf i in
  let srf := File.set_range srf 0 (File.size srf) (File.data srf) in
  let& first := plift (access (default [] (File.chunks srf) !! 0%nat)) in
  if Chunk.size first =? 0 then
    pret (true, mk_read (r_buf st) (r_valid st && negb preallocated) (r_tmp st) (r_status st) (r_bytes st))
  else
    let& (_, status) := coordinate w (fun cw c => ProxyCoordinator.checkContainerLiveness cw c
                          (take (Z.to_nat (File.numChunks srf)) (default [] (File.containerIds srf))) (r_status st)
                          true true false) in
    let c := File.codingMeta rf in
    let& actual := chunks w (fun cw m => ChunkManager.getDataStripeSize cw m (CodingMeta.coding c) (CodingMeta.n c)
                                           (CodingMeta.k c) (File.size srf)) in
    let unaligned := (i32 (i + 1) =? File.numStripes rf) && negb (File.size rf mod max =? 0) in
    read_into srf (unaligned || (max <? actual)) actual (u64 (i * max) - File.offset f)
      (mk_read (r_buf st) (r_valid st) (r_tmp st) status (r_bytes st)).

Fixpoint read_stripes (is_ : list Z) (st : read_state) : P (bool * read_state) :=
  match is_ with
  | [] => pret (true, st)
  | i :: is_ => let& (ok, st) := read_one_stripe i st in if ok then read_stripes is_ st else pret (false, st)
  end.
End stripes.

(** ** [readFile] *)

(** From the staging area, when it has the newest version. *)
Definition read_staging (f rf : File.t) : P (bool * File.t) :=
  let s := File.staged rf in
  let& info := staging (fun a => Ok (if stagingEnabled cfg then getFileInfo a f else None, a)) in
  match info with
  | Some info =>
      if (File.mtime rf <=? File.staged_mtime s) && (File.staged_mtime s <=? st_mtime info) then
        let f := if File.length f =? INVALID_FILE_LENGTH
                 then File.set_range f (File.offset f) (File.staged_size s) (File.data f) else f in
        let& (ok, f) := staging (fun a => let* r := readStaged a f in Ok (r, a)) in
        pret (ok, if ok then File.set_size f (File.length f) else f)
      else pret (false, f)
  | None => pret (false, f)
  end.

(** The stripes from the containers into the buffer [buf]; the buffer of the caller is
    changed also when the read fails. *)
Definition read_backend (f rf : File.t) (isPartial preallocated : bool) (max : Z) (ext : external) (buf : list Z)
    : P (bool * File.t) :=
  let& (ok, buf, bytes) := read_externals f ext (map fst (stripes ext)) buf 0 in
  let back buf := if preallocated then set_data f (Some buf) else f in
  if negb ok then pret (false, back buf)
  else
    let& status := flags w (Z.to_nat (Z.quot (File.numChunks rf) (File.numStripes rf))) in
    let startStripe := if isPartial then i32 (File.offset f / max) else 0 in
    let endStripe := if isPartial && (u64 (File.offset f + File.length f) <=? File.size rf)
                     then i32 (u64 (File.offset f + File.length f) / max) else File.numStripes rf in
    let& (ok, st) := read_stripes f rf max preallocated (seqZ startStripe (endStripe - startStripe))
                       (mk_read buf true None status bytes) in
    if negb ok then pret (false, back (r_buf st))
    else
      let& _ := plift (access (if r_valid st || (File.offset f =? 0) then Some tt else None)) in
      let f := File.set_size f (if isPartial then r_bytes st else File.size rf) in
      let f := set_data f (if r_valid st then Some (r_buf st) else None) in
      let f := File.setTimeStamps f (File.ctime rf) (File.mtime rf) (File.atime rf) 0 in
      let& _ := meta (updateTimestamps (meta_link w) rf) in
      pret (true, f).

(** A file with data in the containers: the range, its blocks and the buffer. *)
Definition read_containers (f rf : File.t) (isPartial : bool) : P (bool * File.t) :=
  let preallocated := bool_decide (is_Some (File.data f)) in
  let f := File.set_range f (if File.offset f =? INVALID_FILE_OFFSET then 0 else File.offset f)
             (if File.length f =? INVALID_FILE_LENGTH then File.size rf else File.length f) (File.data f) in
  let& max := max_stripe w (File.codingMeta rf) in
  let& _ := plift (access (if max =? 0 then None else Some tt)) in
  if isPartial && (negb (File.offset f mod max =? 0) || negb (File.length f mod max =? 0)) then pret (false, f)
  else
    let last := u64 (File.offset f + File.length f - 1) in
    let& _ := plift (access (if File.offset f <=? last + 1 then Some tt else None)) in
    let unique := in_range (File.offset f) last (File.uniqueBlocks rf) in
    let dups := in_range (File.offset f) last (File.duplicateBlocks rf) in
    match unique, dups with
    | [], [] => pret (false, f)
    | _, _ =>
        let& (ok, _, ext) := sortStripesAndBlocks (File.namespaceId f) unique dups in
        if negb ok then pret (false, f)
        else
          let& buf := if preallocated then pret (File.data f) else allocate w (Z.to_nat (File.length f)) in
          match buf with
          | None => pret (false, f)
          | Some buf => read_backend f rf isPartial preallocated max ext buf
          end
    end.

Definition readFile (f : File.t) (isPartial : bool) : P (bool * File.t) :=
  let f := with_namespace cfg f in
  let rf := File.copyVersionControlInfo (snd (File.copyNameAndSize File.reset f)) f in
  let& no := held cfg w no_read f in
  if no then pret (false, f)
  else
    let& (ok, rf) := getMeta w rf 3 in
    if negb ok then pret (false, f)
    else
      let& now := time w in
      let rf := File.setTimeStamps rf (File.ctime rf) (File.mtime rf) now (File.tctime rf) in
      let& (staged, f) := read_staging f rf in
      if staged then pret (true, f)
      else if (File.size rf =? 0) || (File.numStripes rf =? 0) then
        let& b := allocate w 1 in
        let& b := plift (access b) in
        pret (true, set_data f (Some (<[0%nat := 0]> b)))
      else read_containers f rf isPartial.

Definition readPartialFile (f : File.t) : P (bool * File.t) := readFile f true.

(** [readFile] by the identifier. *)
Definition by_uuid {A} (none : File.t -> A) (op : File.t -> P A) (fuuid : Z) (f : File.t) : P A :=
  let f := with_namespace cfg f in
  let& (ok, f) := meta (getFileName (meta_link w) fuuid f) in
  if ok then op f else pret (none f).

Definition readFileByUuid (fuuid : Z) (f : File.t) : P (bool * File.t) :=
  by_uuid (fun f => (false, f)) (fun f => readFile f false) fuuid f.

(** ** Sizes *)

(** Returns the size and the file, with all metadata when [copyMeta] asks for it. *)
Definition getFileSize (f : File.t) (copyMeta : bool) : P (Z * File.t) :=
  let rf := File.copyVersionControlInfo (snd (File.copyNameAndSize File.reset f)) f in
  let& (ok, rf) := getMeta w (with_namespace cfg rf) 0 in
  if negb ok then pret (INVALID_FILE_LENGTH, f)
  else
    let s := File.staged rf in
    pret (if (0 <? File.staged_size s) && (File.mtime rf <? File.staged_mtime s) then File.staged_size s else File.size rf,
          if copyMeta then snd (File.copyAllMeta f rf) else f).

Definition getExpectedAppendSize (f : File.t) : P Z := max_stripe w (File.codingMeta f).
Definition getExpectedAppendSizeOfClass (storageClass : string) : P Z :=
  chunks w (fun cw m => let* z := ChunkManager.class_stripe_size m storageClass in Ok (z, m)).

Definition getExpectedReadSize (f : File.t) : P (Z * File.t) :=
  let f := with_namespace cfg f in
  let rf := File.copyVersionControlInfo (snd (File.copyNameAndSize File.reset f)) f in
  let& (ok, rf) := getMeta w rf 0 in
  if negb ok then pret (INVALID_FILE_OFFSET, f)
  else
    let s := File.staged rf in
    if (0 <? File.staged_size s) && (File.mtime rf <=? File.staged_mtime s)
       && negb (CodingMeta.coding (File.staged_codingMeta s) =? UNKNOWN_CODE) then
      let& max := max_stripe w (File.staged_codingMeta s) in pret (Z.min max (File.staged_size s), f)
    else if (File.size rf =? 0) || (File.numStripes rf =? 0) then pret (0, f)
    else let& max := max_stripe w (File.codingMeta rf) in pret (max, f).

Definition getExpectedReadSizeByUuid (fuuid : Z) (f : File.t) : P (Z * File.t) :=
  by_uuid (fun f => (0, f)) getExpectedReadSize fuuid f.
End read.
End ProxyRead.
