(* ===== verification/ProxyOps.v ===== *)
(** The other file operations of the proxy ([src/proxy/proxy_file_ops.cc]): modifying,
    deleting, renaming, copying and repairing a file. *)

From S2P Require Import Prelude DS Wire Isal RSCode File ProxyCoordinator ChunkManager ChunkRepair ChunkModify.
From S2P Require Import Redis MetaKeys RedisServer MetaStore MetaJournal ImmutablePolicy PolicyStore Dedup Staging Proxy ProxyRead.

#[local] Open Scope Z_scope.
#[local] Open Scope outcome_scope.
#[local] Open Scope program_scope.

Module ProxyOps.
Import Proxy ProxyRead.

(** [std::map::insert] of a range: entries that are there stay. *)
Definition merge_blocks {A} (m l : list (InObjectLocation * A)) : list (InObjectLocation * A) :=
  foldl (fun m p => emplace (fst p) (snd p) m) m l.

(** The larger map takes in the smaller one. *)
Definition accumulate {A} (wf old : list (InObjectLocation * A)) : list (InObjectLocation * A) :=
  if (length wf <? length old)%nat then merge_blocks old wf else merge_blocks wf old.

(** [memcpy] of [n] entries at the same place of two arrays; [copyMeta] for chunks. *)
Definition copy_entries {A} (at_ n : nat) (src dst : list A) : outcome (list A) :=
  let* part := access (block_read src at_ n) in
  let* _ := access (block_read dst at_ n) in
  Ok (list_inserts at_ part dst).

Definition copy_chunks (at_ n : nat) (src dst : list Chunk.t) : outcome (list Chunk.t) :=
  let* part := access (block_read src at_ n) in
  let* own := access (block_read dst at_ n) in
  Ok (list_inserts at_ (zip_with (fun d s => Chunk.copyMeta d s true) own part) dst).

(** The stripes [from, from + n) of [old], each of [per] chunks and [state] bytes of
    coding state, become those of [wf]. *)
Definition keep_stripes (old wf : File.t) (per state from n : nat) : outcome File.t :=
  let* ids := copy_entries (per * from) (per * n) (default [] (File.containerIds old)) (default [] (File.containerIds wf)) in
  let* cs := copy_chunks (per * from) (per * n) (default [] (File.chunks old)) (default [] (File.chunks wf)) in
  let c := File.codingMeta wf in
  let* c := if (0 <? CodingMeta.codingStateSize c) && (0 <? CodingMeta.codingStateSize (File.codingMeta old)) then
              let* st := copy_entries (state * from) (state * n) (default [] (CodingMeta.codingState (File.codingMeta old)))
                           (default [] (CodingMeta.codingState c)) in
              Ok (CodingMeta.mk (CodingMeta.coding c) (Some st) (CodingMeta.n c) (CodingMeta.k c) (CodingMeta.f c)
                    (CodingMeta.codingStateSize c) (CodingMeta.maxChunkSize c))
            else Ok c in
  Ok (File.set_policy (File.set_chunk_info wf (File.numChunks wf) (Some ids) (Some cs) (File.chunksCorrupted wf)) c
        (File.storageClass wf)).

Section ops.
Context `{Isal, Md5, UuidPrinter, UuidParser, UuidGenerator}.
Context {D R S X : Type} `{Server D, Redis R, StagingArea S, Deduplication X}.
Context (cfg : config) (w : world).
Notation P := (program (Proxy.t D R S X)).

(** ** [modifyFile] *)

(** The change of a staged file: [None] when it goes on with the containers. *)
Definition modify_staged (f old : File.t) (isAppend : bool) : P (option (bool * File.t)) :=
  let s := File.staged old in
  if stagingEnabled cfg && ((0 <? File.staged_size s) && (File.mtime old <=? File.staged_mtime s)) then
    let wf := File.copyOperationDataRange (snd (File.copyNameAndSize File.reset f)) f in
    let wf := File.set_size wf (if isAppend then u64 (File.offset f + File.length f) else File.staged_size s) in
    let& written := staging (fun a => stageFile a (set_data wf (File.data f)) false false) in
    if written then
      let old := File.set_staged old (File.mk_staged (File.size wf) (File.staged_codingMeta s) (File.staged_storageClass s)
                                        (File.staged_mtime s)) in
      let& _ := putMeta cfg w old in
      let& _ := meta (markFileAsPendingWriteToCloud (meta_link w) old) in
      let& _ := unlockFile w old in
      pret (Some (true, File.set_size f (u64 (File.offset f + File.length f))))
    else if File.mtime old <? File.staged_mtime s then let& _ := unlockFile w old in pret (Some (false, f))
    else pret None
  else pret None.

(** The data around the range, when it does not start and end with a stripe: the
    verdict, the file with the data of whole stripes, and the buffer of [rf]. *)
Definition read_around (f old : File.t) (alignment : Z) : P (bool * File.t * option (list Z)) :=
  let c := File.codingMeta old in
  let& first := plift (access (default [] (File.chunks old) !! 0%nat)) in
  let& unit := chunks w (fun cw m => ChunkManager.getMaxDataSizePerStripe cw m (CodingMeta.coding c) (CodingMeta.n c)
                                       (CodingMeta.k c) (Chunk.size first) false) in
  let& _ := plift (access (if unit =? 0 then None else Some tt)) in
  let from := File.offset f / alignment * alignment in
  let len := u64 (u64 (File.offset f - from + File.length f + unit - 1) / unit * unit) in
  let& b := calloc w (Z.to_nat len) in
  match b with
  | None => pret (false, f, None)
  | Some b =>
      let rf := File.set_range (snd (File.copyNameAndSize File.reset old)) from len (Some b) in
      let& (ok, rf) := readFile cfg w rf (negb (from =? 0) || (u64 (from + len) <? File.size old)) in
      if negb ok then pret (false, f, File.data rf)
      else
        let d := default [] (File.data f) in
        let& all := plift (ProxyRead.copy_bytes (default [] (File.data rf)) (File.offset f - File.offset rf) d 0 (File.length f)) in
        let last := u64 (File.offset f + File.length f) in
        let len := if u64 (File.offset rf + File.size rf) <? last
                   then u64 (File.offset f - File.offset rf + File.length f) else File.size rf in
        pret (true, File.set_range f (File.offset rf) len (Some all), Some d)
  end.

(** Whether the change is an append, whether it is allowed, and the data to write. *)
Definition modify_range (f old : File.t) (isAppend : bool) (alignment : Z) : P (bool * bool * File.t * option (list Z)) :=
  let aligned := File.size old mod alignment =? 0 in
  let okay := negb (isAppend && (File.size old <? File.offset f)) in
  let append := isAppend && aligned && (File.size old <=? File.offset f) in
  if append then pret (true, okay, f, None)
  else if File.size old <? File.offset f then pret (false, false, f, None)
  else if (0 <? File.size old)
          && (negb (File.offset f mod alignment =? 0) || negb (File.length f mod alignment =? 0)) then
    let& (ok, f, rd) := read_around f old alignment in pret (false, okay && ok, f, rd)
  else pret (false, okay, f, None).

(** The stripes that were not written keep their metadata, and the blocks of both
    versions are kept. *)
Definition keep_old (f wf old : File.t) : P File.t :=
  let& max := max_stripe w (File.codingMeta wf) in
  let& _ := plift (access (if max =? 0 then None else Some tt)) in
  let startIdx := i32 (File.offset f / max) in
  let endIdx := i32 (u64 (File.offset f + File.length f + max - 1) / max) in
  let num := File.numStripes old in
  let per := if 0 <? num then Z.to_nat (Z.quot (File.numChunks old) num) else 0%nat in
  let state := if 0 <? num then Z.to_nat (CodingMeta.codingStateSize (File.codingMeta old) / num) else 0%nat in
  let& wf := if 0 <? startIdx then plift (keep_stripes old wf per state 0 (Z.to_nat startIdx)) else pret wf in
  let& wf := if endIdx <? num then plift (keep_stripes old wf per state (Z.to_nat endIdx) (Z.to_nat (num - endIdx)))
             else pret wf in
  pret (File.set_blocks wf (accumulate (File.uniqueBlocks wf) (File.uniqueBlocks old))
          (accumulate (File.duplicateBlocks wf) (File.duplicateBlocks old))).

(** [swap(f.data, rf.data)], when there is a buffer in [rf], with the range of the call. *)
Definition swap_back (f0 f : File.t) (rd : option (list Z)) : File.t :=
  match rd with
  | Some _ => File.set_range f (File.offset f0) (File.length f0) rd
  | None => f
  end.

(** Writing the stripes in the range of [f], with the lock on [old] held. *)
Definition modify_backend (f0 f old : File.t) (rd : option (list Z)) (append : bool) : P (bool * File.t) :=
  let fail f := let& _ := unlockFile w old in pret (false, swap_back f0 f rd) in
  let& numContainers := required_containers w (File.codingMeta old) in
  if numContainers <? 0 then fail f
  else
    let last := u64 (File.offset f + File.length f) in
    let old := File.set_size old (if append then u64 (File.size old + File.length f)
                                  else if File.size old <? last then last else File.size old) in
    let old := File.copyOperationDataRange old f in
    let& (ok, old, wf, spare, numSelected) := prepareWrite w old File.reset None 0 false in
    if negb ok then fail f
    else
      let wf := File.copyVersionControlInfo (set_data wf (File.data f)) old in
      let& (ok, wf, commits) := writeFileStripes w old wf spare numSelected (File.offset f) in
      let f := set_data f (File.data wf) in
      if negb ok then fail f
      else
        let& wf := keep_old f wf old in
        let& now := time w in
        let wf := File.setTimeStamps wf (File.ctime wf) now now 0 in
        let& ok := putMeta cfg w wf in
        if negb ok then
          let& _ := unlockFile w old in
          let& _ := for_commits abort_scan commits in pret (false, swap_back f0 f rd)
        else
          let& _ := for_commits Dedup.commit commits in
          let& _ := unlockFile w old in
          let f := swap_back f0 f rd in
          pret (true, File.set_size f (if append then File.size wf else u64 (File.offset f + File.length f))).

Definition modifyFile (f : File.t) (isAppend : bool) : P (bool * File.t) :=
  let f := with_namespace cfg f in
  let& no := held cfg w no_write f in
  if no then pret (false, f)
  else
    let old := File.copyName File.reset f in
    let expectedUUID := File.uuid old in
    let& (ok, old) := lockFileAndGetMeta cfg w old in
    if negb ok then pret (false, f)
    else
      let class := if stagingEnabled cfg then File.staged_storageClass (File.staged old) else File.storageClass old in
      let f := if bool_decide (File.storageClass f = "") then File.set_policy f (File.codingMeta f) class else f in
      if negb (bool_decide (class = File.storageClass f)) && (isAppend || negb (overwriteFiles cfg)) then
        let& _ := unlockFile w old in pret (false, f)
      else
        let& done := modify_staged f old isAppend in
        match done with
        | Some r => pret r
        | None =>
            let f0 := f in
            let& alignment := getExpectedAppendSize w old in
            let& _ := plift (access (if alignment =? 0 then None else Some tt)) in
            let& (append, okay, f, rd) := modify_range f old isAppend alignment in
            if negb okay || negb (File.uuid old =? expectedUUID) then
              let& _ := unlockFile w old in pret (false, swap_back f0 f rd)
            else modify_backend f0 f old rd append
        end.

Definition overwriteFile (f : File.t) : P (bool * File.t) := modifyFile f false.
Definition appendFile (f : File.t) : P (bool * File.t) := modifyFile f true.

(** ** [deleteFile] *)

(** The chunks of a file without metadata are removed, and the file from the queues. *)
Definition delete_chunks (df : File.t) : P bool :=
  let ids := take (Z.to_nat (File.numChunks df)) (default [] (File.containerIds df)) in
  let& (_, alive) := liveness w ids true true true in
  let& ok := chunks w (fun cw m => ChunkManager.deleteFile cw m df (Some alive)) in
  if ok then
    let& _ := meta (markFileAsRepaired (meta_link w) df) in
    let& _ := meta (markFileAsWrittenToCloud (meta_link w) df true) in
    pret true
  else pret false.

Definition deleteFile (f : File.t) : P bool :=
  let isVersioned := negb (overwriteFiles cfg) in
  let df := with_namespace cfg (File.copyVersionControlInfo (snd (File.copyNameAndSize File.reset f)) f) in
  let& no := held cfg w no_delete df in
  if no then pret false
  else
    let& (ok, df) := lockFileAndGetMeta cfg w df in
    if negb ok then pret false
    else
      let& now := time w in
      let& (ok, df) := meta (deleteMeta (meta_link w) (overwriteFiles cfg) df now) in
      if negb ok then let& _ := unlockFile w df in pret false
      else
        let& _ := if isVersioned then pret false else meta (markFileAsRepaired (meta_link w) df) in
        let& ok := if (0 <? File.size df) && (negb isVersioned || negb (File.version df =? -1))
                   then delete_chunks df else pret true in
        if negb ok then let& _ := unlockFile w df in pret false
        else
          let& _ := if stagingEnabled cfg && negb isVersioned then staging (fun a => Ok (deleteStaged a df)) else pret true in
          let& _ := unlockFile w df in
          let& _ := policies w (fun c r => PolicyStore.deleteAllPolicy (proxyNamespaceId cfg) c r df) in
          pret true.

Definition deleteFileByUuid (fuuid : Z) (f : File.t) : P bool := by_uuid cfg w (fun _ => false) deleteFile fuuid f.

(** ** [renameFile] *)

(** [_chunkManager->moveFile]: the arrays it allocates are not initialised. *)
Definition move_chunks (src dst : File.t) : P (bool * File.t) :=
  let num := Z.to_nat (File.numChunks src) in
  let& ids := uninitialised w num in
  let& ind := flags w num in
  let& (ok, dst, _) := chunks w (fun cw m => ChunkModify.moveFile cw m src dst ids ind) in
  pret (ok, dst).

(** The blocks of the file with their fingerprints, and their places in an object. *)
Definition own_blocks (f : File.t) : list (InObjectLocation * (string * Z)) :=
  filter (fun b => snd (snd b) <> -1) (File.uniqueBlocks f).

Definition locations (f : File.t) (name : string) (bs : list (InObjectLocation * (string * Z))) : list BlockLocation.t :=
  map (fun b => BlockLocation.mk (File.namespaceId f) name (File.version f) (fst b)) bs.

Definition move_blocks (fps : list string) (from to_ : list BlockLocation.t) : P unit :=
  let& id := dedup (fun x => Dedup.update x fps from to_) in
  dedup (fun x => (tt, Dedup.commit x id)).

(** With both files locked. *)
Definition rename_locked (sf df srf drf : File.t) (marked : bool) : P bool :=
  let srf := File.set_range srf 0 (File.size srf) (File.data srf) in
  let drf := File.setVersion drf (File.version srf) in
  let& (ok, drf) := move_chunks srf drf in
  if negb ok then let& _ := unlockFile w srf in let& _ := unlockFile w drf in pret false
  else
    let& sname := plift (access (File.name srf)) in
    let& dname := plift (access (File.name drf)) in
    let bs := own_blocks srf in
    let fps := map (fun b => fst (snd b)) bs in
    let from := locations srf sname bs in
    let to_ := locations drf dname bs in
    let& _ := move_blocks fps from to_ in
    let& (ok, srf, drf) := meta (renameMeta (meta_link w) srf drf) in
    if negb ok then
      let drf := File.set_range (File.set_size drf (File.size srf)) 0 (File.length srf) (File.data drf) in
      let& (_, srf) := move_chunks drf srf in
      let& _ := move_blocks fps to_ from in
      let& _ := unlockFile w srf in let& _ := unlockFile w drf in pret false
    else
      let& _ := if marked then meta (markFileAsNeedsRepair (meta_link w) df) else pret true in
      let& _ := unlockFile w srf in
      let& _ := unlockFile w drf in
      let& _ := policies w (fun c r => PolicyStore.moveAllPolicy (proxyNamespaceId cfg) (c ImmutablePolicy.IMMUTABLE) r srf drf) in
      pret true.

Definition renameFile (sf df : File.t) : P bool :=
  let sf := with_namespace cfg sf in
  let df := if File.namespaceId df =? INVALID_NAMESPACE_ID
            then File.set_ids df (File.namespaceId sf) (File.uuid df) (File.name df) else df in
  let& no := held cfg w no_write sf in
  if no then pret false
  else
    let srf := snd (File.copyNameAndSize File.reset sf) in
    let drf := snd (File.copyNameAndSize File.reset df) in
    let& marked := meta (markFileAsRepaired (meta_link w) sf) in
    let& (ok, srf) := lockFileAndGetMeta cfg w srf in
    if negb ok then pret false
    else
      let& (exists_, drf) := getMeta w drf 3 in
      let& ok := if exists_ then deleteFile drf else pret true in
      if negb ok then let& _ := unlockFile w srf in pret false
      else
        let& locked := lockFile cfg w drf in
        if negb locked then let& _ := unlockFile w srf in pret false
        else rename_locked sf df srf drf marked.

(** ** [copyFile] *)

Definition copy_chunks_of (src dst : File.t) : P (bool * File.t * option (Z * Z)) :=
  let num := Z.to_nat (File.numChunks src) in
  let& ids := uninitialised w num in
  let& ind := flags w num in
  chunks w (fun cw m => ChunkModify.copyFile cw m src dst ids ind).

(** The stripes of the old destination before and after the range that was copied. *)
Definition keep_destination (drf rf : File.t) (range : option (Z * Z)) : outcome File.t :=
  if 0 <? File.numStripes drf then
    let* (start, end_) := access range in
    let per := Z.quot (File.numChunks drf) (File.numStripes drf) in
    let before := Z.to_nat (start * per) in
    let after := Z.to_nat (end_ * per) in
    let rest := Z.to_nat (File.numStripes rf * per - end_ * per) in
    let* cs := copy_chunks 0 before (default [] (File.chunks rf)) (default [] (File.chunks drf)) in
    let* ids := copy_entries 0 before (default [] (File.containerIds rf)) (default [] (File.containerIds drf)) in
    let* cs := if (0 <? rest)%nat then copy_chunks after rest (default [] (File.chunks rf)) cs else Ok cs in
    let* ids := if end_ <? File.numStripes rf then copy_entries after rest (default [] (File.containerIds rf)) ids else Ok ids in
    Ok (File.set_size (File.set_chunk_info drf (File.numChunks drf) (Some ids) (Some cs) (File.chunksCorrupted drf))
          (if end_ <? File.numStripes rf then File.size rf else File.size drf))
  else Ok drf.

(** The metadata of the destination after the chunks were copied. *)
Definition copied_meta (srf drf rf : File.t) (destExists : bool) (range : option (Z * Z)) : P File.t :=
  let drf := File.copyStoragePolicy drf srf in
  let& drf := if destExists then plift (keep_destination drf rf range) else pret drf in
  let drf := File.set_numStripes drf (File.numStripes srf) in
  let& now := time w in
  let ctime := if destExists then File.ctime rf else now in
  let mtime := if destExists then now else ctime in
  let drf := File.setTimeStamps drf ctime mtime mtime (File.tctime drf) in
  pret (File.set_blocks (File.set_md5 drf (File.md5 srf)) (File.uniqueBlocks srf) (File.duplicateBlocks srf)).

(** With both files locked; returns the verdict and the destination of the caller. *)
Definition copy_locked (sf df srf drf : File.t) : P (bool * File.t) :=
  let off := if File.offset sf =? INVALID_FILE_OFFSET then 0 else File.offset sf in
  let len := if (File.length sf =? INVALID_FILE_LENGTH) || (File.size srf <=? u64 (File.length sf + File.offset sf))
             then u64 (File.size srf - off) else File.length sf in
  let srf := File.set_range srf off len (File.data srf) in
  let& (destExists, rf) := getMeta w (File.set_ids File.reset (File.namespaceId df) 0 (File.name df)) 3 in
  let drf := File.setVersion drf 0 in
  let& (ok, drf, range) := copy_chunks_of srf drf in
  if negb ok then let& _ := unlockFile w srf in let& _ := unlockFile w df in pret (false, df)
  else
    let& drf := copied_meta srf drf rf destExists range in
    let& ok := putMeta cfg w drf in
    let df' := if ok then
                 File.set_md5
                   (File.setTimeStamps (File.set_size (File.set_ids df (File.namespaceId df) (File.uuid drf) (File.name df))
                                          (File.size drf)) (File.ctime drf) (File.mtime drf) (File.atime drf) (File.tctime df))
                   (File.md5 drf)
               else df in
    let& _ := unlockFile w srf in
    let& _ := unlockFile w df in
    pret (ok, df').

Definition copyFile (sf df : File.t) : P (bool * File.t) :=
  let sf := with_namespace cfg sf in
  let df := if File.namespaceId df =? INVALID_NAMESPACE_ID
            then File.set_ids df (File.namespaceId sf) (File.uuid df) (File.name df) else df in
  let srf := snd (File.copyNameAndSize File.reset sf) in
  let drf := snd (File.copyNameAndSize File.reset df) in
  let& no := held cfg w no_read sf in
  if no then pret (false, df)
  else
    let& (ok, srf) := lockFileAndGetMeta cfg w srf in
    if negb ok then pret (false, df)
    else
      let& locked := meta (MetaStore.lockFile (meta_link w) df) in
      if negb locked then let& _ := unlockFile w srf in pret (false, df)
      else copy_locked sf df srf drf.

Definition copyFileByUuid (fuuid : Z) (sf df : File.t) : P (bool * File.t) :=
  by_uuid cfg w (fun _ => (false, df)) (fun sf => copyFile sf df) fuuid sf.

(** ** [repairFile] *)

(** The arrays of a stripe are those of the file: what a repair changed is written to
    the file. *)
Definition put_stripe (rf srf : File.t) (at_ : nat) : File.t :=
  let put {A} (l : option (list A)) (part : option (list A)) := list_inserts at_ (default [] part) <$> l in
  File.set_chunk_info rf (File.numChunks rf) (put (File.containerIds rf) (File.containerIds srf))
    (put (File.chunks rf) (File.chunks srf)) (put (File.chunksCorrupted rf) (File.chunksCorrupted srf)).

(** The chunks of a stripe in containers that are down: the verdict and the file. *)
Definition repair_stripe (isBg : bool) (i : Z) (rf : File.t) : P (bool * File.t) :=
  let& (_, srf) := copyFileStripeMeta w rf i in
  let per := Z.quot (File.numChunks rf) (File.numStripes rf) in
  let c := File.codingMeta rf in
  let& own := plift (access (default [] (File.chunks rf) !! Z.to_nat (i * per))) in
  let& first := plift (access (default [] (File.chunks rf) !! 0%nat)) in
  let& _ := plift (access (if CodingMeta.n c =? 0 then None else Some tt)) in
  let srf := File.set_range srf (u64 (i32 (Z.quot (i32 (i32 (i * Chunk.size first) * per)) (CodingMeta.n c) * CodingMeta.k c)))
               (u64 (i32 (Chunk.size own * CodingMeta.k c))) (File.data srf) in
  let ids := take (Z.to_nat (File.numChunks srf)) (default [] (File.containerIds srf)) in
  let& (numFailed, alive) := liveness w ids true true false in
  if numFailed =? 0 then pret (true, rf)
  else
    let perNode := Z.quot per (CodingMeta.n c) in
    let& _ := plift (access (if perNode =? 0 then None else Some tt)) in
    let numFailed := Z.quot numFailed perNode in
    let& spare := coordinate w (fun cw co => ProxyCoordinator.findSpareContainers cw co ids alive numFailed
                                  (u64 (i32 (Chunk.size own * CodingMeta.k c))) (File.codingMeta srf)) in
    if Z.of_nat (length spare) <? numFailed then pret (false, rf)
    else
      let num := Z.to_nat (File.numChunks srf) in
      let& cg := uninitialised w (num * (num + 1)) in
      let& (numGroups, cg) := coordinate w (fun _ co =>
        let* r := ProxyCoordinator.findChunkGroups co ids alive cg in Ok (r, co)) in
      let op cw m := ChunkRepair.repairFile cw (repair cfg) m srf alive spare cg numGroups in
      let& (ok, srf) := if isBg then repair_chunks w op else chunks w op in
      pret (ok, if ok then put_stripe rf srf (Z.to_nat (i * per)) else rf).

Fixpoint repair_stripes (isBg : bool) (is_ : list Z) (rf : File.t) : P (bool * File.t) :=
  match is_ with
  | [] => pret (true, rf)
  | i :: is_ =>
      let& (ok, rf) := repair_stripe isBg i rf in
      if ok then repair_stripes isBg is_ rf else pret (false, rf)
  end.

(** The list of chunks to take out of the journal is always empty. *)
Definition repairFile (f : File.t) (isBg : bool) : P bool :=
  let rf := File.copyVersionControlInfo (with_namespace cfg (snd (File.copyNameAndSize File.reset f))) f in
  let& (ok, rf) := lockFileAndGetMeta cfg w rf in
  if negb ok then pret false
  else if (File.size rf =? 0) || (File.numStripes rf =? 0) then let& _ := unlockFile w rf in pret true
  else
    let& (ok, rf) := repair_stripes isBg (seqZ 0 (File.numStripes rf)) rf in
    if negb ok then let& _ := unlockFile w rf in pret false
    else
      let rf := File.genUUID rf in
      let& ok := putMeta cfg w rf in
      if negb ok then let& _ := unlockFile w rf in pret false
      else
        let& _ := meta (fileHasJournal (meta_link w) f) in
        let& _ := unlockFile w rf in
        pret true.
End ops.
End ProxyOps.
