(* ===== verification/ProxyPolicies.v ===== *)
(** What the operations of the proxy do with a file that has a policy: they are refused
    before anything is changed or any request is sent. *)

From S2P Require Import Prelude DS Isal RSCode File ProxyCoordinator ChunkManager ChunkRepair.
From S2P Require Import Redis MetaKeys RedisServer MetaStore ImmutablePolicy PolicyStore Dedup Staging Proxy ProxyRead ProxyOps.

#[local] Open Scope Z_scope.
#[local] Open Scope outcome_scope.
#[local] Open Scope program_scope.

Import Proxy ProxyRead ProxyOps.

(** * Programs *)

Section programs.
Context {T : Type}.

Lemma pbind_run {A B} (p : program T A) (k : A -> program T B) s a s1 : p s = Ok (a, s1) -> pbind p k s = k a s1.
Proof. unfold pbind. by intros ->. Qed.

Lemma pbind_inv {A B} (p : program T A) (k : A -> program T B) s r :
  pbind p k s = Ok r -> exists a s1, p s = Ok (a, s1) /\ k a s1 = Ok r.
Proof. unfold pbind. destruct (p s) as [| |[a s1]]; [done..|]. eauto. Qed.

Lemma plift_inv {A} (o : outcome A) (s : T) a s' : plift o s = Ok (a, s') -> o = Ok a /\ s' = s.
Proof. unfold plift. destruct o; [done..|]. by intros [= -> ->]. Qed.

Lemma pret_inv {A} (x : A) (s : T) a s' : pret x s = Ok (a, s') -> a = x /\ s' = s.
Proof. unfold pret. by intros [= -> ->]. Qed.
End programs.

(** The policies of a file depend on its namespace and name. *)
Lemma policy_of_name {R} `{Redis R} ns c (r : R) now f g ty :
  File.namespaceId (PolicyStore.initFileNamespaceId ns f) = File.namespaceId (PolicyStore.initFileNamespaceId ns g) ->
  File.name f = File.name g -> PolicyStore.isPolicyValid ns c r now f ty = PolicyStore.isPolicyValid ns c r now g ty.
Proof.
  intros Hns Hn. unfold PolicyStore.isPolicyValid, PolicyStore.getPolicyOnFile, PolicyStore.genFilePolicyKey.
  rewrite Hns. assert (forall h, File.name (PolicyStore.initFileNamespaceId ns h) = File.name h) as Hname.
  { intros h. unfold PolicyStore.initFileNamespaceId. by destruct (_ =? _). }
  by rewrite !Hname, Hn.
Qed.

Section policies.
Context `{Isal, Md5, UuidPrinter, UuidParser, UuidGenerator}.
Context {D R S X : Type} `{Server D, Redis R, StagingArea S, Deduplication X}.
Context (cfg : config) (w : world).
Notation t := (Proxy.t D R S X).
Implicit Types s : t.

(** Nothing happened but calls that read. *)
Definition idle s s' : Prop :=
  exists n, s' = mk (_chunkManager s) (_repairChunkManager s) (_tcChunkManager s) (_coordinator s) (_metastore s)
                   (_policies s) (_staging s) (_dedup s) n.

Lemma idle_refl s : idle s s.
Proof. exists (calls s). by destruct s. Qed.

Lemma idle_trans s1 s2 s3 : idle s1 s2 -> idle s2 s3 -> idle s1 s3.
Proof. intros [n ->] [n' ->]. by exists n'. Qed.

(** The connection works and the policy is in force whenever it is asked for. *)
Definition in_force s (f : File.t) (ty : ImmutablePolicy.Type_) : Prop :=
  forall n, policy_link w n = Connected /\
    PolicyStore.isPolicyValid (proxyNamespaceId cfg) Connected (_policies s) (clock w n) f ty = true.

(** The state after one more call. *)
Definition ticked s : t :=
  mk (_chunkManager s) (_repairChunkManager s) (_tcChunkManager s) (_coordinator s) (_metastore s) (_policies s)
    (_staging s) (_dedup s) (Datatypes.S (calls s)).

Lemma time_run s : time w s = Ok (clock w (calls s), ticked s).
Proof. done. Qed.

Lemma policies_run {A} (op : (ImmutablePolicy.Type_ -> connection) -> R -> A * R) s :
  let r := op (fun _ => policy_link w (calls s)) (_policies s) in
  policies w op s = Ok (fst r, mk (_chunkManager s) (_repairChunkManager s) (_tcChunkManager s) (_coordinator s) (_metastore s)
                                 (snd r) (_staging s) (_dedup s) (Datatypes.S (calls s))).
Proof. unfold policies, pbind, tick. cbn. by destruct (op _ _). Qed.

Lemma held_in_force tys ty f g s :
  ty ∈ tys -> in_force s f ty -> File.namespaceId (PolicyStore.initFileNamespaceId (proxyNamespaceId cfg) g) =
    File.namespaceId (PolicyStore.initFileNamespaceId (proxyNamespaceId cfg) f) -> File.name g = File.name f ->
  exists s', held cfg w tys g s = Ok (true, s') /\ idle s s'.
Proof.
  intros Hin Hf Hns Hn. revert s Hf. induction Hin as [ty l|ty y l Hin IH]; intros s Hf; cbn [held].
  - rewrite (pbind_run _ _ _ _ _ (time_run s)), (pbind_run _ _ _ _ _ (policies_run _ _)). cbn [calls _policies ticked].
    destruct (Hf (Datatypes.S (calls s))) as [Hc _]. destruct (Hf (calls s)) as [_ Hv].
    rewrite Hc, (policy_of_name _ _ _ _ _ _ _ Hns Hn), Hv. eexists. split; [done|]. by eexists.
  - rewrite (pbind_run _ _ _ _ _ (time_run s)), (pbind_run _ _ _ _ _ (policies_run _ _)). cbn [fst snd].
    case_match; [eexists; split; [done|]; by eexists|].
    edestruct IH as (s' & -> & Hs'); [exact Hf|]. exists s'. split; [done|]. eapply idle_trans; [|exact Hs']. by eexists.
Qed.

Lemma with_namespace_same f :
  PolicyStore.initFileNamespaceId (proxyNamespaceId cfg) (with_namespace cfg f) = with_namespace cfg f.
Proof.
  unfold PolicyStore.initFileNamespaceId, with_namespace. destruct (Z.eqb_spec (File.namespaceId f) INVALID_NAMESPACE_ID) as [E|E].
  - destruct (_ =? _); [|done]. by destruct f.
  - by destruct (Z.eqb_spec (File.namespaceId f) INVALID_NAMESPACE_ID).
Qed.

(** The namespace and the name that count. *)
Lemma held_named tys ty f g s :
  ty ∈ tys -> in_force s f ty -> File.namespaceId g = File.namespaceId (with_namespace cfg f) -> File.name g = File.name f ->
  exists s', held cfg w tys g s = Ok (true, s') /\ idle s s'.
Proof.
  intros Hin Hf Hns Hn. eapply held_in_force; [exact Hin|exact Hf| |exact Hn].
  change (PolicyStore.initFileNamespaceId (proxyNamespaceId cfg) f) with (with_namespace cfg f).
  rewrite <- (with_namespace_same f). unfold PolicyStore.initFileNamespaceId. rewrite Hns.
  by destruct (_ =? _).
Qed.

Lemma name_with_namespace f : File.name (with_namespace cfg f) = File.name f.
Proof. unfold with_namespace. by destruct (_ =? _). Qed.
End policies.

(** C9: A policy in force protects its file from the proxy.  While the policies can be
    reached: writes, overwrites, appends and renames of a file that is immutable, on
    modification hold or on access hold, deletions of a file that is immutable, on
    deletion hold or on access hold, and reads of a file and copies from a file that is
    on access hold all fail, and nothing is changed: no request goes to an agent, and the
    metadata, the policies and the staged files stay as they are.  The destination of a
    rename or of a copy is not among the files that are protected; see
    [copy_replaces_immutable]. *)
Theorem proxy_refuses_protected `{Isal, Md5, UuidPrinter, UuidParser, UuidGenerator}
    {D R S X} `{Server D, Redis R, StagingArea S, Deduplication X} cfg w (s : Proxy.t D R S X) f ty :
  in_force cfg w s f ty ->
  (ty = ImmutablePolicy.IMMUTABLE \/ ty = ImmutablePolicy.MODIFICATION_HOLD \/ ty = ImmutablePolicy.ACCESS_HOLD ->
     (exists g s', writeFile cfg w f s = Ok ((false, g), s') /\ idle s s') /\
     (forall isAppend, exists g s', modifyFile cfg w f isAppend s = Ok ((false, g), s') /\ idle s s') /\
     (forall df, exists s', renameFile cfg w f df s = Ok (false, s') /\ idle s s')) /\
  (ty = ImmutablePolicy.IMMUTABLE \/ ty = ImmutablePolicy.DELETION_HOLD \/ ty = ImmutablePolicy.ACCESS_HOLD ->
     exists s', deleteFile cfg w f s = Ok (false, s') /\ idle s s') /\
  (ty = ImmutablePolicy.ACCESS_HOLD ->
     (forall isPartial, exists g s', readFile cfg w f isPartial s = Ok ((false, g), s') /\ idle s s') /\
     (forall df, exists g s', copyFile cfg w f df s = Ok ((false, g), s') /\ idle s s')).
Proof.
  intros Hf. assert ((ty = ImmutablePolicy.IMMUTABLE \/ ty = ImmutablePolicy.MODIFICATION_HOLD \/ ty = ImmutablePolicy.ACCESS_HOLD ->
    ty ∈ no_write) /\ (ty = ImmutablePolicy.IMMUTABLE \/ ty = ImmutablePolicy.DELETION_HOLD \/ ty = ImmutablePolicy.ACCESS_HOLD ->
    ty ∈ no_delete) /\ (ty = ImmutablePolicy.ACCESS_HOLD -> ty ∈ no_read)) as (Hnw & Hnd & Hnr)
    by (unfold no_write, no_delete, no_read; set_solver).
  split; [intros Hin%Hnw; split_and!; [|intros isAppend|intros df]|split; [intros Hin%Hnd|intros Hin%Hnr; split; [intros isPartial|intros df]]].
  - unfold writeFile. set (g := with_defaults cfg f).
    destruct (held_named cfg w no_write ty f g s Hin Hf) as (s' & E & Hs').
    { unfold g, with_defaults. by case_bool_decide. }
    { unfold g, with_defaults. case_bool_decide; apply (name_with_namespace cfg). }
    rewrite (pbind_run _ _ _ _ _ E). eauto.
  - unfold modifyFile. destruct (held_named cfg w no_write ty f (with_namespace cfg f) s Hin Hf eq_refl (name_with_namespace cfg f)) as (s' & E & Hs').
    rewrite (pbind_run _ _ _ _ _ E). eauto.
  - unfold renameFile. destruct (held_named cfg w no_write ty f (with_namespace cfg f) s Hin Hf eq_refl (name_with_namespace cfg f)) as (s' & E & Hs').
    rewrite (pbind_run _ _ _ _ _ E). eauto.
  - unfold deleteFile. set (g := with_namespace cfg _).
    destruct (held_named cfg w no_delete ty f g s Hin Hf) as (s' & E & Hs').
    { unfold g, with_namespace. cbn. by destruct (_ =? _). }
    { unfold g. by rewrite name_with_namespace. }
    rewrite (pbind_run _ _ _ _ _ E). eauto.
  - unfold readFile. destruct (held_named cfg w no_read ty f (with_namespace cfg f) s Hin Hf eq_refl (name_with_namespace cfg f)) as (s' & E & Hs').
    rewrite (pbind_run _ _ _ _ _ E). eauto.
  - unfold copyFile. destruct (held_named cfg w no_read ty f (with_namespace cfg f) s Hin Hf eq_refl (name_with_namespace cfg f)) as (s' & E & Hs').
    rewrite (pbind_run _ _ _ _ _ E). eauto.
Qed.
