(* ===== verification/ProxyFrame.v ===== *)
(** What calls of the proxy leave alone, and the calls that are sure to succeed: the
    sizes of a code, memory, the policies, and the checks of containers while their
    state is recent.  Shared by the theorems on writing and reading files. *)

From S2P Require Import Prelude DS Isal RSCode File ProxyCoordinator CoordinatorTheorems ChunkManager AccessTheorems StripeTheorems WriteTheorems.
From S2P Require Import Redis RedisServer MetaStore PolicyStore Dedup Staging Proxy ProxyPolicies.

#[local] Open Scope Z_scope.
#[local] Open Scope outcome_scope.
#[local] Open Scope program_scope.

Import Proxy.

Section frame.
Context `{Isal, Md5, UuidPrinter, UuidParser, UuidGenerator}.
Context {D R S X : Type} `{Server D, Redis R, StagingArea S, Deduplication X}.
Context (cfg : config) (w : world).
Notation t := (Proxy.t D R S X).
Implicit Types s : t.

(** From [s] to [s'] the requests [reqs] were sent; the codes, the addresses of the
    containers, and the state of every other component stay. *)
Record kept (reqs : list ChunkEvent.t) s s' : Prop := {
  kept_classes : ChunkManager._storageClasses (_chunkManager s') = ChunkManager._storageClasses (_chunkManager s);
  kept_codings : ChunkManager._codings (_chunkManager s') = ChunkManager._codings (_chunkManager s);
  kept_sent : ChunkManager._sent (_chunkManager s') = ChunkManager._sent (_chunkManager s) ++ reqs;
  kept_map : ProxyCoordinator._containerToAgentMap (_coordinator s') = ProxyCoordinator._containerToAgentMap (_coordinator s);
  kept_meta : _metastore s' = _metastore s;
  kept_policies : _policies s' = _policies s;
  kept_staging : _staging s' = _staging s;
  kept_dedup : _dedup s' = _dedup s
}.

(** The coordinator does not change, and no request is sent. *)
Definition still s s' : Prop := kept [] s s' /\ _coordinator s' = _coordinator s.

Lemma kept_trans r1 r2 s1 s2 s3 : kept r1 s1 s2 -> kept r2 s2 s3 -> kept (r1 ++ r2) s1 s3.
Proof. intros [] []. constructor; try congruence. rewrite app_assoc. congruence. Qed.

Lemma still_refl s : still s s.
Proof. split; [|done]. by constructor; rewrite ?app_nil_r. Qed.

Lemma still_trans s1 s2 s3 : still s1 s2 -> still s2 s3 -> still s1 s3.
Proof. intros [K1 Q1] [K2 Q2]. split; [exact (kept_trans [] [] _ _ _ K1 K2)|congruence]. Qed.

Lemma still_kept_l r s1 s2 s3 : still s1 s2 -> kept r s2 s3 -> kept r s1 s3.
Proof. intros [K1 _]. apply (kept_trans [] r _ _ _ K1). Qed.

Lemma still_kept_r r s1 s2 s3 : kept r s1 s2 -> still s2 s3 -> kept r s1 s3.
Proof. intros K1 [K2 _]. rewrite <- (app_nil_r r). exact (kept_trans _ _ _ _ _ K1 K2). Qed.

Lemma still_ticked s : still s (ticked s).
Proof. split; [|done]. by constructor; rewrite ?app_nil_r. Qed.

(** The program returns [a] and changes nothing. *)
Definition runs s {A} (p : program t A) (a : A) : Prop := exists s', p s = Ok (a, s') /\ still s s'.

Lemma runs_ret s {A} (a : A) : runs s (pret a) a.
Proof. exists s. split; [done|apply still_refl]. Qed.

Lemma runs_lift s {A} (o : outcome A) a : o = Ok a -> runs s (plift o) a.
Proof. intros ->. apply (runs_ret s a). Qed.

Lemma runs_bind s {A B} (p : program t A) (k : A -> program t B) a b :
  runs s p a -> (forall s', still s s' -> runs s' (k a) b) -> runs s (pbind p k) b.
Proof.
  intros (s1 & E & K1) Hk. destruct (Hk s1 K1) as (s2 & Q2 & K2). exists s2. rewrite (pbind_run _ _ _ _ _ E).
  split; [done|by eapply still_trans].
Qed.

(** A step of a longer program. *)
Lemma runs_then s {A B} (p : program t A) (k : A -> program t B) a :
  runs s p a -> exists s', still s s' /\ pbind p k s = k a s'.
Proof. intros (s1 & E & K1). exists s1. split; [done|]. by apply pbind_run. Qed.

Lemma runs_time s : runs s (time w) (clock w (calls s)).
Proof. eexists. split; [apply time_run|apply still_ticked]. Qed.

Lemma runs_uninitialised s len : runs s (uninitialised w len) (map (junk w (calls s)) (seq 0 len)).
Proof. eexists. split; [done|apply still_ticked]. Qed.

Lemma runs_flags s len : exists l, runs s (flags w len) l /\ length l = len.
Proof.
  eexists. split; [|].
  - eapply runs_bind; [apply runs_uninitialised|]. intros s' _. apply runs_ret.
  - by rewrite !length_map, length_seq.
Qed.

(** Memory is there. *)
Definition memory : Prop := forall n len, exists b, Proxy.buffer w n len = Some b /\ (len <= length b)%nat.

Lemma runs_allocate s len : memory -> exists b, runs s (allocate w len) (Some b) /\ length b = len.
Proof.
  intros Hm. destruct (Hm (calls s) len) as (b & Hb & Hl). exists (take len b). split.
  - eexists. split; [|apply still_ticked]. unfold allocate, pbind, tick. cbn. by rewrite Hb.
  - rewrite length_take. lia.
Qed.

Lemma runs_calloc s len : memory -> runs s (calloc w len) (Some (replicate len 0)).
Proof.
  intros Hm. destruct (runs_allocate s len Hm) as (b & Hb & _). eapply runs_bind; [exact Hb|]. intros s' _. apply runs_ret.
Qed.

(** The policies are only read. *)
Lemma held_runs tys f s b s' : held cfg w tys f s = Ok (b, s') -> still s s'.
Proof.
  revert s. induction tys as [|ty tys IH]; intros s; cbn [held].
  - intros [_ ->]%pret_inv. apply still_refl.
  - rewrite (pbind_run _ _ _ _ _ (time_run w s)), (pbind_run _ _ _ _ _ (policies_run w _ _)). cbn [fst snd].
    assert (still s (ticked (ticked s))) as Hs by (eapply still_trans; apply still_ticked).
    case_match; [by intros [_ ->]%pret_inv|]. intros E%IH. by eapply still_trans.
Qed.

(** No policy of these types is in force. *)
Definition none_held s (tys : list ImmutablePolicy.ImmutablePolicy.Type_) (f : File.t) : Prop :=
  forall ty n n', ty ∈ tys ->
    PolicyStore.isPolicyValid (proxyNamespaceId cfg) (policy_link w n) (_policies s) (clock w n') f ty = false.

Lemma held_none tys f s : none_held s tys f -> runs s (held cfg w tys f) false.
Proof.
  revert s. induction tys as [|ty tys IH]; intros s Hn; cbn [held]; [apply runs_ret|].
  eapply runs_bind; [apply runs_time|]. intros s1 K1. eapply runs_bind.
  - eexists. split; [apply policies_run|apply still_ticked].
  - intros s2 K2. cbn [fst]. rewrite (kept_policies _ _ _ (proj1 K1)), Hn by (apply elem_of_cons; by left). apply IH.
    intros ty' n n' Hty. rewrite (kept_policies _ _ _ (proj1 K2)). cbn. rewrite (kept_policies _ _ _ (proj1 K1)).
    apply Hn, elem_of_cons. by right.
Qed.

(** ** The sizes of a code *)

(** The chunk manager has the code [rs] for the parameters [c]. *)
Record coded s (c : CodingMeta.t) (rs : RSCode.t) : Prop := {
  cd_ok : rs_ok rs;
  cd_scheme : CodingMeta.coding c = RS;
  cd_n : CodingMeta.n c = Z.of_nat (RSCode.n rs);
  cd_k : CodingMeta.k c = Z.of_nat (RSCode.k rs);
  cd_entry : ChunkManager._codings (_chunkManager s) !! coding_key (CodingMeta.n c) (CodingMeta.k c) = Some (Some rs);
  cd_chunk : 0 < CodingMeta.maxChunkSize c;
  cd_stripe : CodingMeta.maxChunkSize c * CodingMeta.k c < 2147483648
}.

Lemma coded_kept r s s' c rs : kept r s s' -> coded s c rs -> coded s' c rs.
Proof. intros [] []. constructor; try done. congruence. Qed.

(** The same parameters. *)
Lemma coded_same s c c' rs : CodingMeta.coding c' = CodingMeta.coding c -> CodingMeta.n c' = CodingMeta.n c ->
  CodingMeta.k c' = CodingMeta.k c -> CodingMeta.maxChunkSize c' = CodingMeta.maxChunkSize c -> coded s c rs -> coded s c' rs.
Proof. intros E1 E2 E3 E4 []. constructor; rewrite ?E1, ?E2, ?E3, ?E4; done. Qed.

Lemma coded_instance s c rs cw m : coded s c rs -> ChunkManager._codings m = ChunkManager._codings (_chunkManager s) ->
  ChunkManager.getCodingInstance cw m (CodingMeta.coding c) (CodingMeta.n c) (CodingMeta.k c) = Ok (Some rs, m).
Proof.
  intros Hc Hm. unfold ChunkManager.getCodingInstance. rewrite (cd_scheme _ _ _ Hc). cbn.
  change ("RS" +:+ "_" +:+ _) with (coding_key (CodingMeta.n c) (CodingMeta.k c)). by rewrite Hm, (cd_entry _ _ _ Hc).
Qed.

Lemma chunks_runs s {A} (op : ChunkManager.world -> ChunkManager.t -> outcome (A * ChunkManager.t)) a :
  (forall cw m, ChunkManager._codings m = ChunkManager._codings (_chunkManager s) ->
     ChunkManager._storageClasses m = ChunkManager._storageClasses (_chunkManager s) -> op cw m = Ok (a, m)) ->
  runs s (chunks w op) a.
Proof.
  intros Hop. eexists. split.
  - unfold chunks, pbind, tick. cbn [_coordinator _chunkManager]. rewrite Hop by done. reflexivity.
  - split; [|done]. by constructor; rewrite ?app_nil_r.
Qed.

(** A call of the chunk manager that sends requests. *)
Lemma chunks_inv s {A} (op : ChunkManager.world -> ChunkManager.t -> outcome (A * ChunkManager.t)) a s' :
  chunks w op s = Ok (a, s') -> exists m',
    op (chunk_world w (calls s)) (share (_coordinator s) (_chunkManager s)) = Ok (a, m') /\
    _coordinator s' = _coordinator s /\
    forall new, ChunkManager._storageClasses m' = ChunkManager._storageClasses (_chunkManager s) ->
      ChunkManager._codings m' = ChunkManager._codings (_chunkManager s) ->
      ChunkManager._sent m' = ChunkManager._sent (_chunkManager s) ++ new -> kept new s s'.
Proof.
  unfold chunks, pbind, tick. cbn [_coordinator _chunkManager]. destruct (op _ _) as [| |[a' m']]; [done..|]. cbn [obind].
  intros [= -> <-]. exists m'. split; [done|]. split; [done|]. intros new E1 E2 E3. by constructor.
Qed.

(** What the manager knows. *)
Lemma runs_read s {A} (g : ChunkManager.t -> A) :
  runs s (chunks w (fun _ m => Ok (g m, m))) (g (share (_coordinator s) (_chunkManager s))).
Proof. eexists. split; [done|]. split; [by constructor; rewrite ?app_nil_r|done]. Qed.

Lemma runs_max_stripe s c rs : coded s c rs -> runs s (max_stripe w c) (CodingMeta.maxChunkSize c * CodingMeta.k c).
Proof.
  intros Hc. apply chunks_runs. intros cw m Hm _. unfold ChunkManager.getMaxDataSizePerStripe.
  rewrite (coded_instance s c rs) by done. cbn [obind]. rewrite Z.mul_1_r.
  destruct (cd_ok _ _ _ Hc) as [Hk _]. rewrite max_stripe_size_spec by lia. cbn [obind].
  pose proof (cd_k _ _ _ Hc). pose proof (cd_chunk _ _ _ Hc). pose proof (cd_stripe _ _ _ Hc).
  rewrite i32_small, u32_small by nia. congruence.
Qed.

Lemma runs_required s c rs : coded s c rs -> runs s (required_containers w c) (Z.of_nat (RSCode.n rs)).
Proof.
  intros Hc. apply chunks_runs. intros cw m Hm _. unfold ChunkManager.coding_required_containers.
  rewrite (coded_instance s c rs) by done. cbn [obind]. by rewrite required_all by apply (cd_ok _ _ _ Hc).
Qed.

Lemma runs_per_container s c rs : coded s c rs -> runs s (chunks_per_container w c) 1.
Proof.
  intros Hc. apply chunks_runs. intros cw m Hm _. unfold ChunkManager.coding_chunks_per_container.
  by rewrite (coded_instance s c rs).
Qed.

(** The chunks of a stripe with [size] bytes. *)
Definition chunk_size (rs : RSCode.t) (size : Z) : nat := Z.to_nat ((size + Z.of_nat (RSCode.k rs) - 1) / Z.of_nat (RSCode.k rs)).

Lemma chunk_size_spec rs size : (0 < RSCode.k rs)%nat -> 0 <= size -> size + Z.of_nat (RSCode.k rs) - 1 < 4294967296 ->
  RSCode.getChunkSize rs (u32 size) = Z.of_nat (chunk_size rs size).
Proof.
  intros Hk Hs Hb. unfold RSCode.getChunkSize, chunk_size. rewrite (u32_small size), u32_small by lia.
  rewrite Z2Nat.id; [done|]. apply Z.div_pos; lia.
Qed.

Lemma chunk_size_bounds rs size : (0 < RSCode.k rs)%nat -> 0 < size ->
  (0 < chunk_size rs size)%nat /\ size <= Z.of_nat (RSCode.k rs * chunk_size rs size) < size + Z.of_nat (RSCode.k rs).
Proof.
  intros Hk Hs. unfold chunk_size. set (K := Z.of_nat (RSCode.k rs)).
  pose proof (Z.div_mod (size + K - 1) K ltac:(lia)) as Hd. pose proof (Z.mod_pos_bound (size + K - 1) K ltac:(lia)) as Hm.
  set (q := (size + K - 1) / K) in *. assert (0 < q) by nia. rewrite Nat2Z.inj_mul, Z2Nat.id by lia. fold K. split; nia.
Qed.

Lemma chunk_size_mul rs mc : (0 < RSCode.k rs)%nat -> 0 <= mc -> chunk_size rs (mc * Z.of_nat (RSCode.k rs)) = Z.to_nat mc.
Proof.
  intros Hk Hm. unfold chunk_size. f_equal. symmetry.
  apply (Z.div_unique _ _ _ (Z.of_nat (RSCode.k rs) - 1)); [left|]; lia.
Qed.

Lemma runs_stripe_size s c rs size : coded s c rs -> 0 <= size <= CodingMeta.maxChunkSize c * CodingMeta.k c ->
  runs s (chunks w (fun cw m => ChunkManager.getDataStripeSize cw m (CodingMeta.coding c) (CodingMeta.n c) (CodingMeta.k c) size))
    (Z.of_nat (RSCode.k rs * chunk_size rs size)).
Proof.
  intros Hc Hs. destruct (cd_ok _ _ _ Hc) as [Hk _]. pose proof (cd_k _ _ _ Hc) as Ek.
  pose proof (cd_chunk _ _ _ Hc). pose proof (cd_stripe _ _ _ Hc).
  assert (chunk_size rs size <= Z.to_nat (CodingMeta.maxChunkSize c))%nat as Hle.
  { rewrite <- (chunk_size_mul rs) by lia. unfold chunk_size. apply Z2Nat.inj_le; try (apply Z.div_pos; lia).
    apply Z.div_le_mono; [lia|]. rewrite <- Ek. lia. }
  apply chunks_runs. intros cw m Hm _. unfold ChunkManager.getDataStripeSize. rewrite (coded_instance s c rs) by done.
  cbn [obind]. rewrite chunk_size_spec by (done || nia). unfold RSCode.getNumDataChunks. rewrite i32_small, u64_small by nia.
  by rewrite <- Nat2Z.inj_mul, Nat.mul_comm.
Qed.

(** ** The coordinator *)

(** The state of the agents is recent: it is not asked for again. *)
Definition recent s : Prop :=
  forall n, ProxyCoordinator.now (coord_world w n)
    <= ProxyCoordinator._lastCheckedTime (_coordinator s) + ProxyCoordinator.livenessCacheTime (coord_world w n).

Lemma recent_refresh s n : recent s -> ProxyCoordinator.refresh (coord_world w n) (_coordinator s) = Ok (_coordinator s).
Proof. intros Hr. unfold ProxyCoordinator.refresh. by rewrite (proj2 (Z.ltb_ge _ _) (Hr n)). Qed.

(** The check of the containers [ids], none of them unused. *)
Lemma runs_liveness s ids status : recent s -> length status = length ids -> Forall (fun c => c <> UNUSED_CONTAINER_ID) ids ->
  exists num status', runs s (coordinate w (fun cw c => ProxyCoordinator.checkContainerLiveness cw c ids status true true false))
                        (num, status') /\
    length status' = length ids /\ forall i, (i < length ids)%nat -> status' !!! i = online (_coordinator s) (ids !!! i).
Proof.
  intros Hr Hl Hu. destruct (liveness_all (coord_world w (calls s)) (_coordinator s) (_coordinator s) ids status true false Hl)
    as (status' & E & Hlen & _ & _ & Hst); [by apply recent_refresh|]. eexists _, status'. split.
  - eexists. split; [unfold coordinate, pbind, tick; cbn [_coordinator]; rewrite E; reflexivity|].
    split; [by constructor; rewrite ?app_nil_r|done].
  - split; [done|]. intros i Hi. rewrite Hst by done. rewrite (proj2 (Z.eqb_neq _ _)); [done|].
    rewrite Forall_forall in Hu. by apply Hu, list_elem_of_lookup_total_2.
Qed.

(** Looking for containers keeps the addresses. *)
Lemma findSpare_map cw co ids status num size m spare co' :
  ProxyCoordinator.findSpareContainers cw co ids status num size m = Ok (spare, co') ->
  ProxyCoordinator._containerToAgentMap co' = ProxyCoordinator._containerToAgentMap co.
Proof.
  unfold ProxyCoordinator.findSpareContainers. destruct (num <=? 0); [by intros [= _ <-]|].
  destruct (ProxyCoordinator.refresh cw co) as [| |co1] eqn:Er; [done..|]. cbn [obind].
  destruct (ProxyCoordinator.screen_agents _ _ _ _ _ _) as [| |[[sel skip] ag]]; [done..|]. cbn [obind].
  intros [= _ <-]. cbn. exact (up_map _ _ (refresh_updated _ _ _ Er)).
Qed.

Lemma find_containers_inv num size c arr s arr' sel s' :
  find_containers w num size c arr s = Ok ((arr', sel), s') -> kept [] s s' /\ length arr' = length arr /\ 0 <= sel.
Proof.
  unfold find_containers. intros (found & s1 & E & Hk)%pbind_inv. apply pret_inv in Hk as [[= -> ->] ->].
  rewrite length_inserts. split; [|split; [done|lia]]. unfold coordinate, pbind, tick in E. cbn [_coordinator] in E.
  destruct (ProxyCoordinator.findSpareContainers _ _ _ _ _ _ _) as [| |[sp co]] eqn:Ef; [done..|]. cbn [obind] in E.
  injection E as _ <-. apply findSpare_map in Ef. by constructor; rewrite ?app_nil_r.
Qed.
End frame.

(** A step of a program in a hypothesis or in the goal. *)
Tactic Notation "run" uconstr(H) "in" hyp(E) "as" ident(s) ident(K) :=
  match type of E with
  | pbind ?p ?k ?s0 = _ =>
      let Q := fresh "Q" in
      edestruct (runs_then s0 p k _ H) as (s & K & Q); rewrite Q in E; clear Q; cbv beta iota in E
  end.
Tactic Notation "run" uconstr(H) "as" ident(s) ident(K) :=
  match goal with
  | |- context [pbind ?p ?k ?s0] =>
      let Q := fresh "Q" in
      edestruct (runs_then s0 p k _ H) as (s & K & Q); rewrite Q; clear Q; cbv beta iota
  end.
