(* ===== verification/ProxyStripes.v ===== *)
(** Writing the stripes of a file at the proxy: what is sent to the agents, and what the
    arrays of the file list afterwards. *)

From S2P Require Import MetaTheorems.
From S2P Require Import Prelude DS Isal RSCode RSDecode RSTheorems File ProxyCoordinator CoordinatorTheorems ChunkManager AccessTheorems StripeTheorems WriteTheorems.
From S2P Require Import Redis MetaKeys RedisServer MetaStore PolicyStore Dedup Staging Proxy ProxyPolicies ProxyFrame.

#[local] Open Scope Z_scope.
#[local] Open Scope outcome_scope.
#[local] Open Scope program_scope.

(** * The requests of one stripe *)

(** The container and the chunk of a request for one chunk. *)
Definition request_container (p : ChunkEvent.t) : Z := default [] (ChunkEvent.containerIds p) !!! 0%nat.
Definition request_chunk (p : ChunkEvent.t) : Chunk.t := ChunkEvent.chunks p !!! 0%nat.

(** The agent has confirmed the request to store a chunk, with the right checksum when
    it is checked. *)
Definition acknowledged `{Isal} (cw : ChunkManager.world) (agents : gmap Z string) (p : ChunkEvent.t) : bool :=
  match agents !! request_container p with
  | Some addr =>
      match ChunkManager.net cw (ChunkEvent.id p) addr p with
      | Some r => bool_decide (ChunkEvent.opcode r = PUT_CHUNK_REP_SUCCESS)
                  && (negb (ChunkManager.verifyChunkChecksum cw)
                      || bool_decide (Chunk.md5 (request_chunk p) = Chunk.md5 (request_chunk r)))
      | None => false
      end
  | None => false
  end.

(** A request that stores [b] as chunk [id] of version [v] of a file. *)
Definition puts_chunk (ns uuid v id : Z) (b : list Z) (p : ChunkEvent.t) : Prop :=
  ChunkEvent.opcode p = PUT_CHUNK_REQ /\ Chunk.namespaceId (request_chunk p) = ns /\ Chunk.fuuid (request_chunk p) = uuid /\
  Chunk.chunkId (request_chunk p) = id /\ Chunk.fileVersion (request_chunk p) = v /\ Chunk.bytes (request_chunk p) = b.

(** An entry of the array of containers: no container, or one that has confirmed the
    chunk. *)
Definition listed_put `{Isal} cw agents (puts : list ChunkEvent.t) (ns uuid v cid : Z) (b : list Z) (id : Z) : Prop :=
  id = INVALID_CONTAINER_ID \/
  exists p, p ∈ puts /\ acknowledged cw agents p = true /\ puts_chunk ns uuid v cid b p /\ request_container p = id.

(** The encoder changes the chunks and the size of the coding state. *)
Lemma encode_keeps `{Isal} cw m f align f1 m1 :
  ChunkManager.encodeFile cw m f align = Ok (true, f1, m1) ->
  File.length f1 = File.length f /\ CodingMeta.codingStateSize (File.codingMeta f1) = 0 /\
  CodingMeta.n (File.codingMeta f1) = CodingMeta.n (File.codingMeta f) /\
  CodingMeta.k (File.codingMeta f1) = CodingMeta.k (File.codingMeta f).
Proof.
  unfold ChunkManager.encodeFile. destruct (ChunkManager.file_instance cw m f) as [| |[[rs|] m2]]; cbn [obind]; [done..| |done].
  destruct (ChunkManager.align_data cw rs f align) as [| |[d|]]; cbn [obind]; [done..| |done].
  destruct (RSCode.encode _ _ _ _) as [| |stripe]; [done..|].
  destruct (ChunkManager.getMaxDataSizePerStripe _ _ _ _ _ _ _) as [| |[max m3]]; cbn [obind]; [done..|].
  destruct (max =? 0); cbn [access obind]; [done|]. intros [= <- <-]. done.
Qed.

Section stripe.
Context `{IsalLaws, Md5} (cw : ChunkManager.world) (rs : RSCode.t) (m : ChunkManager.t) (f : File.t) (spare : list Z)
  (d : list Z) (cs : nat).
Context (Hcw : can_write cw rs m m f spare false d cs) (Hfit : ids_fit rs f) (Hecho : echoes cw).
Notation n := (RSCode.n rs).
Notation agents := (ChunkManager._containerToAgentMap m).

(** The request for chunk [x], and what its reply means for the entry of the array. *)
Lemma put_request_chunk f1 x :
  File.chunks f1 = Some (map (encoded_chunk rs f d cs) (seq 0 n)) -> (x < n)%nat ->
  let p := put_requests m f1 spare !!! x in
  puts_chunk (File.namespaceId f) (File.uuid f) (File.version f) (Z.of_nat x + first_id rs f) (chunk_bytes rs d cs x) p /\
  Chunk.md5 (request_chunk p) = Chunk.md5 (summed f1 !!! x).
Proof using Hcw Hfit.
  intros Hch Hx p. destruct (cw_data _ _ _ _ _ _ _ _ _ Hcw) as (Hcs & _).
  assert (summed f1 !!! x = snd (Chunk.computeMD5 (encoded_chunk rs f d cs x))) as Hs.
  { unfold summed, ChunkManager.file_chunks. rewrite Hch. cbn [default id]. rewrite map_map. apply list_lookup_total_correct.
    by rewrite list_lookup_fmap, lookup_seq_lt. }
  assert (p = ChunkManager.put_request m spare x (summed f1 !!! x)) as ->.
  { apply list_lookup_total_correct. unfold put_requests. rewrite list_lookup_imap, (lookup_total_lt (summed f1)); [done|].
    unfold summed, ChunkManager.file_chunks. rewrite Hch. cbn. by rewrite !length_map, length_seq. }
  split; [|done]. rewrite Hs. unfold Chunk.computeMD5.
  destruct (Z.leb_spec (Chunk.size (encoded_chunk rs f d cs x)) 0) as [Hle|Hle]; [cbn in Hle; lia|].
  pose proof (first_id_spec cw rs m m f spare false d cs Hcw Hfit) as Hid. destruct Hfit as [Ho Hf].
  pose proof (full_stripe_pos cw rs m m f spare false d cs Hcw) as Hp. pose proof (Z.div_pos _ _ Ho Hp).
  unfold puts_chunk, request_chunk. cbn. split_and!; try done.
  - rewrite i32_small; [done|]. rewrite Hid. nia.
  - unfold Chunk.bytes. cbn. apply take_ge. unfold chunk_bytes. rewrite length_map, length_seq. lia.
Qed.

Lemma listed_final f1 x :
  File.chunks f1 = Some (map (encoded_chunk rs f d cs) (seq 0 n)) -> (x < n)%nat ->
  listed_put cw agents (take (length spare) (put_requests m f1 spare)) (File.namespaceId f) (File.uuid f) (File.version f)
    (Z.of_nat x + first_id rs f) (chunk_bytes rs d cs x)
    (final_id cw spare (put_requests m f1 spare) (summed f1) (sent_manager rs m f1 spare) x).
Proof using Hcw Hfit Hecho.
  intros Hch Hx. destruct (put_request_chunk f1 x Hch Hx) as [Hp Hm].
  unfold final_id. destruct (WriteTheorems.reply _ _ _ _ x) as [r|] eqn:Hr; [|by left]. destruct (acked _ _ _ _ _ x) eqn:Ha; [|by left].
  right. unfold WriteTheorems.reply in Hr. destruct (Nat.ltb_spec x (length spare)) as [Hs|]; [|done].
  set (p := put_requests m f1 spare !!! x) in *. exists p.
  unfold ChunkManager.send in Hr. cbn [sent_manager ChunkManager.issue ChunkManager._containerToAgentMap] in Hr.
  change (default [] (ChunkEvent.containerIds p) !!! 0%nat) with (request_container p) in Hr.
  destruct (agents !! request_container p) as [addr|] eqn:Eaddr; [|done].
  split_and!; try done.
  - assert (x < length (put_requests m f1 spare))%nat as Hl.
    { unfold put_requests, summed, ChunkManager.file_chunks. rewrite length_imap, Hch. cbn. by rewrite !length_map, length_seq. }
    apply list_elem_of_lookup. exists x. rewrite lookup_take_lt by done. by apply lookup_total_lt.
  - unfold acknowledged. rewrite Eaddr, Hr. unfold acked, stored, WriteTheorems.reply in Ha. rewrite (proj2 (Nat.ltb_lt _ _) Hs) in Ha.
    unfold ChunkManager.send in Ha. cbn [sent_manager ChunkManager.issue ChunkManager._containerToAgentMap] in Ha.
    fold p in Ha. change (default [] (ChunkEvent.containerIds p) !!! 0%nat) with (request_container p) in Ha.
    rewrite Eaddr, Hr in Ha. csimpl in Ha. rewrite Hm.
    apply andb_true_iff in Ha as [Ho Hc]. apply andb_true_iff. split; [|done].
    apply bool_decide_eq_true in Ho. apply bool_decide_eq_true. congruence.
  - unfold request_container. by rewrite (Hecho _ _ _ _ Hr) by apply Hp.
Qed.

Lemma stripe_written f' bg m' :
  ChunkManager.writeFileStripe cw m f spare false false = Ok (true, f', bg, m') ->
  exists puts, ChunkManager._storageClasses m' = ChunkManager._storageClasses m /\
    ChunkManager._codings m' = ChunkManager._codings m /\ ChunkManager._sent m' = ChunkManager._sent m ++ puts /\
    File.length f' = File.length f /\
    length (ChunkManager.file_ids f') = n /\ length (ChunkManager.file_chunks f') = n /\
    CodingMeta.codingStateSize (File.codingMeta f') = 0 /\ CodingMeta.n (File.codingMeta f') = CodingMeta.n (File.codingMeta f) /\
    CodingMeta.k (File.codingMeta f') = CodingMeta.k (File.codingMeta f) /\
    forall x, (x < n)%nat ->
      let c := ChunkManager.file_chunks f' !!! x in
      Chunk.size c = Z.of_nat cs /\ Chunk.md5 c = MD5 (chunk_bytes rs d cs x) /\
      listed_put cw agents puts (File.namespaceId f) (File.uuid f) (File.version f)
        (Z.of_nat x + first_id rs f) (chunk_bytes rs d cs x) (ChunkManager.file_ids f' !!! x).
Proof using H0 Hcw Hfit Hecho.
  intros Hw. destruct (writeFileStripe_spec cw rs m m f spare false d cs false Hcw)
    as (f1 & bg1 & m2 & m1 & Henc & Hch & Hnum & _ & Ha1 & Heq & Ha2). rewrite Hw in Heq. injection Heq as Hok -> -> ->.
  cbn [negb andb] in Hok, Ha2. rewrite <- Hok in Ha2.
  destruct Ha1 as (Hc1 & Hd1 & _ & Hs1 & _), Ha2 as (Hc2 & Hd2 & _ & Hs2 & _). destruct (encode_keeps _ _ _ _ _ _ Henc) as (El & Es & En & Ek).
  exists (take (length spare) (put_requests m f1 spare)). cbn in Hc1, Hd1, Hs1.
  split_and!; try done; try congruence.
  - by rewrite Hs2, Hs1, !app_nil_r.
  - unfold ChunkManager.file_ids. cbn. by rewrite length_map, length_seq.
  - unfold ChunkManager.file_chunks. cbn. by rewrite length_map, length_seq.
  - intros x Hx. destruct (written_chunk cw rs m m f spare false d cs Hcw f1 x Hch Hx) as (Hsz & Hm & _). split_and!; [done..|].
    assert (ChunkManager.file_ids (written_file cw rs m f1 spare) !!! x =
      final_id cw spare (put_requests m f1 spare) (summed f1) (sent_manager rs m f1 spare) x) as ->.
    { cbn. apply list_lookup_total_correct. by rewrite list_lookup_fmap, lookup_seq_lt. }
    by apply listed_final.
Qed.
End stripe.

(** * Preparing a stripe *)

Section write.
Context `{IsalLaws, Md5, UuidPrinter, UuidParser, UuidGenerator}.
Context {D R S : Type} `{Server D, Redis R, StagingArea S}.
#[local] Existing Instance DedupNone.none.
Context (w : Proxy.world) (cw : ChunkManager.world) (Hworld : forall n, Proxy.chunk_world w n = cw).
Context (rs : RSCode.t) (sc : string) (cls : StorageClass.t).
Notation t := (Proxy.t D R S unit).
Implicit Types s : t.
Notation cm := (StorageClass._codingMeta cls).
Notation n := (RSCode.n rs).
Notation k := (RSCode.k rs).
Notation max := (CodingMeta.maxChunkSize cm * CodingMeta.k cm).
Import Proxy.

(** The storage class is known, with its code. *)
Record ready s : Prop := {
  rd_class : ChunkManager._storageClasses (_chunkManager s) !! sc = Some cls;
  rd_code : StorageClass._codingInstance cls = rs;
  rd_coded : coded s cm rs
}.

Lemma ready_kept r s s' : kept r s s' -> ready s -> ready s'.
Proof. intros Hk []. constructor; [rewrite (kept_classes _ _ _ Hk)|..]; try done. by eapply coded_kept. Qed.

(** The parameters of the storage class. *)
Definition params (c : CodingMeta.t) : CodingMeta.t :=
  CodingMeta.mk (CodingMeta.coding cm) (CodingMeta.codingState c) (CodingMeta.n cm) (CodingMeta.k cm) (CodingMeta.f cm)
    (CodingMeta.codingStateSize c) (CodingMeta.maxChunkSize cm).

Lemma params_coded s c : coded s cm rs -> coded s (params c) rs.
Proof. by apply coded_same. Qed.

Lemma runs_setCodingMeta s c : ready s ->
  runs s (chunks w (fun _ m => Ok (ChunkManager.setCodingMeta m sc c, m))) (true, params c).
Proof.
  intros Hr. apply chunks_runs. intros _ m _ Hm. unfold ChunkManager.setCodingMeta. by rewrite Hm, (rd_class _ Hr).
Qed.

(** The files after the preparation. *)
Definition prepared_file (f : File.t) : File.t := File.set_policy f (params (File.codingMeta f)) sc.
Definition prepared_stripe (f wf : File.t) : File.t :=
  File.copyOperationDataRange (File.copyStoragePolicy (snd (File.copyNameAndSize wf f)) (prepared_file f)) (prepared_file f).

Lemma prepareWrite_stripe f wf arr sel s f' wf' arr' sel' s' :
  ready s -> File.storageClass f = sc -> 0 < File.size f -> length arr = n ->
  prepareWrite w f wf (Some arr) sel true s = Ok ((true, f', wf', arr', sel'), s') ->
  kept [] s s' /\ f' = prepared_file f /\ wf' = prepared_stripe f wf /\ 0 <= sel' /\ length (default [] arr') = n.
Proof.
  intros Hr Hsc Hsz Ha E. unfold prepareWrite in E. rewrite Hsc in E.
  run (runs_setCodingMeta s (File.codingMeta f) Hr) in E as s1 K1. cbn [negb] in E.
  fold (prepared_file f) in E. cbv zeta in E. fold (prepared_stripe f wf) in E.
  set (f1 := prepared_file f) in *. set (wf1 := prepared_stripe f wf) in *.
  pose proof (ready_kept _ _ _ (proj1 K1) Hr) as Hr1.
  assert (coded s1 (File.codingMeta wf1) rs) as Hc1 by apply params_coded, Hr1.
  change (File.size wf1) with (File.size f) in E. rewrite (proj2 (Z.ltb_lt _ _) Hsz) in E.
  run (runs_required w s1 _ rs Hc1) in E as s2 K2. destruct (Z.eqb_spec (Z.of_nat n) (-1)); [lia|].
  run (runs_ret s2 arr) in E as s3 K3. cbn [negb] in E.
  assert (still s s3) as K13 by (eapply still_trans; [exact K1|by eapply still_trans]).
  pose proof (ready_kept _ _ _ (proj1 K13) Hr) as Hr3.
  assert (coded s3 (File.codingMeta wf1) rs) as Hc3 by apply params_coded, Hr3.
  run (runs_max_stripe w s3 _ rs Hc3) in E as s4 K4. destruct (_ =? 0); [by apply pret_inv in E as [[=] _]|].
  run (runs_read w s4 _) in E as s5 K5. apply pbind_inv in E as ([arr1 sel1] & s6 & Ef & E).
  apply find_containers_inv in Ef as (K6 & Hl & Hsel). run (runs_read w s6 _) in E as s7 K7.
  destruct (_ || _); apply pret_inv in E as [[= -> -> -> ->] ->]; [].
  split_and!; try done; [|cbn; congruence].
  eapply still_kept_l; [exact K13|]. eapply still_kept_l; [exact K4|]. eapply still_kept_l; [exact K5|].
  by eapply still_kept_r.
Qed.

(** Without deduplication the stripe is one block. *)
Definition whole_block (f : File.t) : InObjectLocation := mk_location (File.offset f) (File.length f).

Lemma dedupStripe_none swf wf nm d s :
  File.name swf = Some nm -> File.data swf = Some d -> 0 <= File.length swf < 4294967296 ->
  (Z.to_nat (File.length swf) <= length d)%nat ->
  runs s (dedupStripe swf wf)
    (true, set_data swf (Some d),
     File.set_blocks wf (emplace (whole_block swf) ("", 0) (File.uniqueBlocks wf)) (File.duplicateBlocks wf), "0").
Proof.
  intros Hn Hd Hl Hle. unfold dedupStripe. rewrite Hn, Hd. cbn [access default id].
  eapply runs_bind; [by apply runs_lift|]. intros s1 _. eapply runs_bind.
  { exists s1. split; [|apply still_refl]. unfold dedup. cbn. by destruct s1 as [? ? ? ? ? ? ? []]. }
  intros s2 _. cbn [DedupNone.scan BlockLocation.range]. rewrite u32_small by done. fold (whole_block swf).
  eapply (runs_bind _ _ _ (mk_dedup d (File.length swf) (emplace (whole_block swf) ("", 0) (File.uniqueBlocks wf))
    (File.duplicateBlocks wf))); [|intros s3 _; apply runs_ret].
  apply runs_lift. cbn [dedup_blocks dedup_block d_data d_length d_unique d_duplicate whole_block _offset _length].
  rewrite Z.sub_diag. change (Z.to_nat (u32 0)) with 0%nat. rewrite block_read_in by done. cbn [access obind].
  rewrite (proj2 (Nat.leb_le _ _)) by done. cbn [access obind]. rewrite Z.add_0_l, u32_small by done. do 2 f_equal.
  rewrite list_inserts_splice by (rewrite length_slice; done). rewrite length_slice by done. cbn. apply take_drop.
Qed.

(** The data of a stripe: a part of the buffer, or a copy filled up with zeros. *)
Definition stripe_bytes (d : list Z) (off len : Z) : list Z :=
  if len =? max then drop (Z.to_nat off) d
  else slice (Z.to_nat off) (Z.to_nat len) d ++ replicate (Z.to_nat (max - len)) 0.

Lemma stripe_data_runs f wf swf d s :
  memory w -> ready s -> File.storageClass f = sc -> coded s (File.codingMeta wf) rs ->
  CodingMeta.maxChunkSize (File.codingMeta wf) * CodingMeta.k (File.codingMeta wf) = max ->
  File.data wf = Some d -> 0 <= File.offset swf -> 0 <= File.length swf <= max ->
  (Z.to_nat (File.offset swf) + Z.to_nat (File.length swf) <= length d)%nat ->
  let b := stripe_bytes d (File.offset swf) (File.length swf) in
  runs s (stripe_data w f max 0 wf swf None) (b, if File.length swf =? max then None else Some b).
Proof.
  intros Hm Hr Hsc Hc Hmax Hd Ho Hl Hle b. unfold stripe_data. rewrite Hsc, Hd, Z.sub_0_r. cbn [default id].
  eapply runs_bind; [apply runs_read|]. intros s1 K1.
  assert (ChunkManager.willModifyDataBuffer (share (_coordinator s) (_chunkManager s)) sc = false) as ->.
  { unfold ChunkManager.willModifyDataBuffer, ChunkManager.class_instance. cbn. by rewrite (rd_class _ Hr). }
  rewrite (proj2 (Z.leb_le _ _) Ho). cbn [access orb]. eapply runs_bind; [by apply runs_lift|]. intros s2 K2.
  unfold b, stripe_bytes. destruct (Z.eqb_spec (File.length swf) max) as [El|El]; cbn [negb].
  { rewrite (proj2 (Nat.leb_le _ _)) by lia. cbn [access]. eapply runs_bind; [by apply runs_lift|]. intros s3 _. apply runs_ret. }
  assert (coded s2 (File.codingMeta wf) rs) as Hc2.
  { eapply coded_kept; [|exact Hc]. exact (proj1 (still_trans _ _ _ K1 K2)). }
  destruct (cd_ok _ _ _ Hc2) as [Hk _]. pose proof (cd_k _ _ _ (rd_coded _ Hr)) as Ek. pose proof (cd_chunk _ _ _ (rd_coded _ Hr)).
  assert (0 < max) by nia.
  assert (Z.to_nat (Z.of_nat (k * chunk_size rs max)) = Z.to_nat max) as Esz.
  { rewrite Ek, chunk_size_mul by lia. nia. }
  set (off := Z.to_nat (File.offset swf)) in *. set (len := Z.to_nat (File.length swf)) in *.
  eapply (runs_bind _ _ _ (Some (replicate (Z.to_nat max) 0))).
  { eapply runs_bind; [apply (runs_stripe_size w s2 _ rs); [done|lia]|]. intros s3 _. rewrite Esz. by apply runs_calloc. }
  intros s3 _. cbn [access]. eapply runs_bind; [by apply runs_lift|]. intros s4 _. rewrite block_read_in by done. cbn [access].
  eapply runs_bind; [by apply runs_lift|]. intros s5 _. rewrite length_slice, length_replicate by done.
  rewrite (proj2 (Nat.leb_le _ _)) by lia. cbn [access]. eapply runs_bind; [by apply runs_lift|]. intros s6 _.
  rewrite list_inserts_splice by (rewrite length_slice, length_replicate by done; lia). rewrite length_slice by done.
  rewrite drop_replicate. cbn [take app Nat.add]. replace (Z.to_nat max - len)%nat with (Z.to_nat (max - File.length swf)) by lia.
  apply runs_ret.
Qed.

Lemma stripe_bytes_ok d off len s :
  ready s -> Forall byte d -> 0 <= off -> 0 < len <= max -> (Z.to_nat off + Z.to_nat len <= length d)%nat ->
  data_ok rs (stripe_bytes d off len) (chunk_size rs len) /\
  take (Z.to_nat len) (stripe_bytes d off len) = slice (Z.to_nat off) (Z.to_nat len) d.
Proof.
  intros Hr Hb Ho Hl Hle. destruct (cd_ok _ _ _ (rd_coded _ Hr)) as [Hk _]. pose proof (cd_k _ _ _ (rd_coded _ Hr)) as Ek.
  pose proof (cd_chunk _ _ _ (rd_coded _ Hr)). pose proof (cd_stripe _ _ _ (rd_coded _ Hr)).
  destruct (chunk_size_bounds rs len) as [Hcs Hcb]; [lia..|].
  assert (Z.of_nat (k * chunk_size rs len) <= max) as Hmax.
  { assert (chunk_size rs len <= Z.to_nat (CodingMeta.maxChunkSize cm))%nat; [|rewrite Ek; nia].
    rewrite <- (chunk_size_mul rs) by lia. unfold chunk_size. apply Z2Nat.inj_le; try (apply Z.div_pos; lia).
    apply Z.div_le_mono; [lia|]. rewrite <- Ek. lia. }
  assert (Z.of_nat (k * chunk_size rs len) <= Z.of_nat (length (stripe_bytes d off len)) /\ Forall byte (stripe_bytes d off len)) as [Hlen Hall].
  { unfold stripe_bytes. destruct (Z.eqb_spec len max).
    - rewrite length_drop. split; [lia|by apply Forall_drop].
    - rewrite length_app, length_slice, length_replicate by done. split; [lia|]. apply Forall_app. split.
      + unfold slice. by apply Forall_take, Forall_drop.
      + apply Forall_replicate. unfold byte. lia. }
  split.
  - split_and!; [done|nia|lia|lia|]. intros p Hp. rewrite Forall_forall in Hall. apply Hall, list_elem_of_lookup_total_2. lia.
  - unfold stripe_bytes. destruct (Z.eqb_spec len max); [done|]. rewrite take_app_le by (rewrite length_slice; lia).
    apply take_ge. rewrite length_slice; lia.
Qed.

(** ** The arrays of the file *)

Lemma record_stripe_ok (i : nat) swf wf ids cs :
  File.length swf <> 0 -> length (ChunkManager.file_ids swf) = n -> length (ChunkManager.file_chunks swf) = n ->
  File.containerIds wf = Some ids -> File.chunks wf = Some cs -> (i * n + n <= length ids)%nat -> length cs = length ids ->
  Z.of_nat (i * n + n) < 2147483648 ->
  exists ids' cs', record_stripe (Z.of_nat n) (Z.of_nat i) swf wf =
      Ok (File.set_chunk_info wf (File.numChunks wf) (Some ids') (Some cs') (File.chunksCorrupted wf)) /\
    length ids' = length ids /\ length cs' = length ids /\
    (forall y, (y < i * n)%nat -> ids' !! y = ids !! y /\ cs' !! y = cs !! y) /\
    (forall y id, ids' !! y = Some id -> ids !! y = Some id \/ exists x, (x < n)%nat /\ id = ChunkManager.file_ids swf !!! x) /\
    (forall x, (x < n)%nat -> ids' !! (i * n + x)%nat = Some (ChunkManager.file_ids swf !!! x) /\
       exists c, cs' !! (i * n + x)%nat = Some c /\ Chunk.chunkId c = Z.of_nat (i * n + x) /\
         Chunk.size c = Chunk.size (ChunkManager.file_chunks swf !!! x) /\ Chunk.md5 c = Chunk.md5 (ChunkManager.file_chunks swf !!! x)).
Proof.
  intros Hl Hi Hc Eids Ecs Hle Hlen Hb. unfold record_stripe. rewrite (proj2 (Z.eqb_neq _ _) Hl), Eids, Ecs. cbn [default id].
  fold (ChunkManager.file_ids swf) (ChunkManager.file_chunks swf). rewrite <- Nat2Z.inj_mul, !Nat2Z.id.
  rewrite !block_read_in by lia. cbn [access obind].
  assert (slice 0 n (ChunkManager.file_ids swf) = ChunkManager.file_ids swf) as -> by (rewrite <- Hi; apply slice_all).
  assert (slice 0 n (ChunkManager.file_chunks swf) = ChunkManager.file_chunks swf) as -> by (rewrite <- Hc; apply slice_all).
  set (g := zip_with _ (seq 0 n) _).
  assert (length g = n) as Hg.
  { unfold g. rewrite length_zip_with, length_seq, length_zip_with, length_slice by lia. lia. }
  eexists _, _. split; [reflexivity|]. rewrite !length_inserts. split_and!; try done.
  - intros y Hy. by rewrite !list_lookup_inserts_lt.
  - intros y id Hy. destruct (decide (i * n <= y < i * n + n)%nat) as [Hin|Hout].
    + right. rewrite list_lookup_inserts in Hy by lia. exists (y - i * n)%nat. split; [lia|].
      by rewrite (list_lookup_total_correct _ _ _ Hy).
    + left. destruct (decide (y < i * n)%nat); [by rewrite list_lookup_inserts_lt in Hy|by rewrite list_lookup_inserts_ge in Hy by lia].
  - intros x Hx. rewrite !list_lookup_inserts by lia. replace (i * n + x - i * n)%nat with x by lia. split; [by apply lookup_total_lt; lia|].
    unfold g. rewrite lookup_zip_with, lookup_seq_lt by done. cbn.
    rewrite lookup_zip_with, (lookup_total_lt (slice _ _ _)) by (rewrite length_slice; lia).
    cbn. rewrite (lookup_total_lt (ChunkManager.file_chunks swf)) by lia. cbn. eexists. split; [done|].
    cbn. split; [|done]. rewrite i32_small; lia.
Qed.

Lemma record_coding_ok (i N : Z) swf wf s :
  CodingMeta.codingStateSize (File.codingMeta swf) = 0 -> CodingMeta.n (File.codingMeta swf) = CodingMeta.n (File.codingMeta wf) ->
  CodingMeta.k (File.codingMeta swf) = CodingMeta.k (File.codingMeta wf) -> CodingMeta.codingStateSize (File.codingMeta wf) = 0 ->
  runs s (record_coding w N 0 i swf wf) wf.
Proof.
  intros Es En Ek Ew. unfold record_coding.
  assert (CodingMeta.mk (CodingMeta.coding (File.codingMeta wf)) (CodingMeta.codingState (File.codingMeta wf))
    (CodingMeta.n (File.codingMeta wf)) (CodingMeta.k (File.codingMeta wf)) (CodingMeta.f (File.codingMeta wf)) 0
    (CodingMeta.maxChunkSize (File.codingMeta wf)) = File.codingMeta wf) as Ec.
  { rewrite <- Ew. by destruct (File.codingMeta wf). }
  eapply (runs_bind _ _ _ (File.codingMeta wf)).
  - destruct (i =? 0); [|apply runs_ret]. rewrite Es, Z.mul_0_l. cbn [Z.ltb Z.compare u32]. eapply runs_bind; [apply runs_uninitialised|].
    intros s1 _. rewrite En, Ek. change (u32 0) with 0. cbn [Z.ltb Z.compare]. rewrite Ec. apply runs_ret.
  - intros s1 _. rewrite Ew. cbn [Z.ltb Z.compare]. eapply runs_bind; [apply runs_ret|]. intros s2 _.
    assert (File.set_policy wf (File.codingMeta wf) (File.storageClass wf) = wf) as -> by (by destruct wf). apply runs_ret.
Qed.

(** ** The loop over the stripes *)

(** The agents are asked in the foreground, and memory is there. *)
Record serving : Prop := {
  sv_foreground : ChunkManager.ackRedundancyInBackground cw = false;
  sv_malloc : forall z, is_Some (ChunkManager.malloc cw z);
  sv_mem : forall i, is_Some (ChunkManager.mem cw i);
  sv_batch : (0 < ChunkManager.default_n cw)%nat;
  sv_echoes : echoes cw;
  sv_memory : memory w
}.

(** The file without its chunks, its range and its blocks. *)
Definition stripped (f : File.t) : File.t :=
  File.set_blocks (File.set_chunk_info (File.set_range f 0 0 None) 0 None None None) [] [].

Section loop.
(** The old file, the file that is written, its data and the number of stripes. *)
Context (f wf0 : File.t) (nm : string) (d : list Z) (N : nat) (agents : gmap Z string).
Notation total := (Z.of_nat (length d)).

(** A new file of the storage class with [N] stripes. *)
Record new_file : Prop := {
  nf_class : File.storageClass f = sc;
  nf_stripes : File.numStripes f = 0;
  nf_size : File.size f = total;
  nf_bytes : Forall byte d;
  nf_total : total < 9223372036854775808;
  nf_count : (Z.of_nat N - 1) * max < total <= Z.of_nat N * max;
  nf_chunks : Z.of_nat (N * n) < 2147483648;
  nf_name : File.name wf0 = Some nm;
  nf_uuid : File.uuid wf0 = name_uuid nm;
  nf_wclass : File.storageClass wf0 = sc;
  nf_wsize : File.size wf0 = total;
  nf_params : params (File.codingMeta wf0) = File.codingMeta wf0;
  nf_state : CodingMeta.codingStateSize (File.codingMeta wf0) = 0
}.

Definition stripe_len (j : nat) : Z := Z.min max (total - Z.of_nat j * max).
Definition stripe_part (j : nat) : list Z := slice (Z.to_nat (Z.of_nat j * max)) (Z.to_nat (stripe_len j)) d.
Definition stripe_block (j : nat) : InObjectLocation * (string * Z) := (mk_location (Z.of_nat j * max) (stripe_len j), ("", 0)).

(** Stripe [j] is stored: its chunks carry the checksums of the encoded data, and the
    containers that are listed have confirmed them. *)
Definition stripe_done (puts : list ChunkEvent.t) (ids : list Z) (cs : list Chunk.t) (j : nat) : Prop :=
  exists b, data_ok rs b (chunk_size rs (stripe_len j)) /\ take (Z.to_nat (stripe_len j)) b = stripe_part j /\
  forall x, (x < n)%nat ->
    (exists c, cs !! (j * n + x)%nat = Some c /\ Chunk.chunkId c = Z.of_nat (j * n + x) /\
       Chunk.size c = Z.of_nat (chunk_size rs (stripe_len j)) /\
       Chunk.md5 c = MD5 (chunk_bytes rs b (chunk_size rs (stripe_len j)) x)) /\
    exists id, ids !! (j * n + x)%nat = Some id /\
      listed_put cw agents puts (File.namespaceId wf0) (File.uuid wf0) (File.version wf0) (Z.of_nat (j * n + x))
        (chunk_bytes rs b (chunk_size rs (stripe_len j)) x) id.

(** The first [i] stripes are written, by the requests [puts]. *)
Record progress (i : nat) (puts : list ChunkEvent.t) (wf : File.t) : Prop := {
  pg_same : stripped wf = stripped wf0;
  pg_data : File.data wf = Some d;
  pg_num : File.numChunks wf = Z.of_nat (N * n);
  pg_blocks : File.uniqueBlocks wf = map stripe_block (seq 0 i) /\ File.duplicateBlocks wf = [];
  pg_bad : exists bad, File.chunksCorrupted wf = Some bad /\ length bad = (N * n)%nat;
  pg_arrays : exists ids cs, File.containerIds wf = Some ids /\ File.chunks wf = Some cs /\ length ids = (N * n)%nat /\
    length cs = (N * n)%nat /\ (forall id, id ∈ ids -> id = 0 \/ id = INVALID_CONTAINER_ID \/ is_Some (agents !! id)) /\
    forall j, (j < i)%nat -> stripe_done puts ids cs j
}.

Lemma listed_put_mono puts new ns u v cid b id :
  listed_put cw agents puts ns u v cid b id -> listed_put cw agents (puts ++ new) ns u v cid b id.
Proof. intros [->|(p & Hp & ?)]; [by left|]. right. exists p. split; [apply elem_of_app; by left|done]. Qed.

Lemma stripe_done_mono puts new ids cs ids' cs' j :
  (forall y, (y < j * n + n)%nat -> ids' !! y = ids !! y /\ cs' !! y = cs !! y) ->
  stripe_done puts ids cs j -> stripe_done (puts ++ new) ids' cs' j.
Proof.
  intros Hsame (b & Hd & Ht & Hx). exists b. split; [done|]. split; [done|]. intros x Hlt.
  destruct (Hsame (j * n + x)%nat ltac:(lia)) as [-> ->]. destruct (Hx x Hlt) as [Hc (id & Hid & Hl)]. split; [done|].
  exists id. split; [done|by apply listed_put_mono].
Qed.

Context (Hnew : new_file) (Hsv : serving).

(** The stripe that is passed to the chunk manager. *)
Lemma stripe_can_write s i b spare :
  ready s -> (i < N)%nat -> (length spare <= n)%nat ->
  data_ok rs b (chunk_size rs (stripe_len i)) -> ProxyCoordinator._containerToAgentMap (_coordinator s) = agents ->
  forall swf, File.storageClass swf = sc -> params (File.codingMeta swf) = File.codingMeta swf ->
  File.offset swf = Z.of_nat i * max -> File.length swf = stripe_len i -> File.data swf = Some b ->
  let m := share (_coordinator s) (_chunkManager s) in
  can_write cw rs m m swf spare false b (chunk_size rs (stripe_len i)) /\ ids_fit rs swf /\ first_id rs swf = Z.of_nat (i * n).
Proof using Hnew Hsv.
  intros Hr Hi Hsp Hb Hag swf Esc Ep Eo El Ed m. pose proof (rd_coded _ Hr) as Hc.
  destruct (cd_ok _ _ _ Hc) as [Hk _]. pose proof (cd_k _ _ _ Hc) as Ek. pose proof (cd_n _ _ _ Hc) as En.
  pose proof (cd_chunk _ _ _ Hc). pose proof (cd_stripe _ _ _ Hc) as Hmx.
  pose proof (nf_count Hnew). pose proof (nf_chunks Hnew).
  assert (full_stripe rs swf = max) as Efull.
  { unfold full_stripe. rewrite <- Ep. cbn. rewrite i32_small, u32_small by nia. congruence. }
  assert (can_write cw rs m m swf spare false b (chunk_size rs (stripe_len i))) as Hcan.
  { constructor; try apply Hsv; try done.
    - apply Hc.
    - rewrite Esc. unfold ChunkManager.class_instance, m. cbn. rewrite (rd_class _ Hr). cbn. by rewrite (rd_code _ Hr).
    - unfold ChunkManager.file_instance. rewrite <- Ep. by apply (coded_instance s cm rs).
    - by rewrite <- Ep.
    - by rewrite <- Ep.
    - intros x _. apply Hsv.
    - unfold ChunkManager.align_data. cbn [andb]. by rewrite Ed.
    - rewrite El. apply chunk_size_spec; [lia|unfold stripe_len; nia|]. unfold stripe_len. nia.
    - rewrite Efull. nia. }
  assert (ids_fit rs swf) as Hfit.
  { unfold ids_fit. rewrite Eo, Efull, Z.div_mul by nia. nia. }
  split; [done|]. split; [done|]. rewrite (first_id_spec _ _ _ _ _ _ _ _ _ Hcan Hfit), Eo, Efull, Z.div_mul by nia. lia.
Qed.

Lemma stripped_range g o l x : stripped (File.set_range g o l x) = stripped g.
Proof. done. Qed.

Lemma stripe_len_pos i : (i < N)%nat -> 0 < max -> 0 < stripe_len i <= max /\ Z.of_nat i * max + stripe_len i <= total.
Proof using Hnew.
  intros Hi Hm. pose proof (nf_count Hnew). unfold stripe_len. split; nia.
Qed.

Lemma same_fields g : stripped g = stripped wf0 ->
  File.name g = Some nm /\ File.namespaceId g = File.namespaceId wf0 /\ File.uuid g = File.uuid wf0 /\
  File.size g = total /\ File.version g = File.version wf0 /\ File.codingMeta g = File.codingMeta wf0 /\ File.storageClass g = sc.
Proof using Hnew.
  intros E. rewrite <- (nf_name Hnew), <- (nf_wclass Hnew), <- (nf_wsize Hnew).
  split_and!; [apply (f_equal File.name) in E|apply (f_equal File.namespaceId) in E|apply (f_equal File.uuid) in E
    |apply (f_equal File.size) in E|apply (f_equal File.version) in E|apply (f_equal File.codingMeta) in E
    |apply (f_equal File.storageClass) in E]; exact E.
Qed.

Lemma prepared_same g : stripped g = stripped wf0 -> prepared_file g = g.
Proof using Hnew.
  intros (_ & _ & _ & _ & _ & Ec & Es)%same_fields. unfold prepared_file. rewrite Ec, (nf_params Hnew), <- Ec, <- Es. by destruct g.
Qed.

(** The stripe that is prepared from the file. *)
Definition stripe_of (g : File.t) : File.t := prepared_stripe g (File.copyVersionControlInfo File.reset g).

Lemma stripe_of_fields g : stripped g = stripped wf0 ->
  File.name (stripe_of g) = Some nm /\ File.namespaceId (stripe_of g) = File.namespaceId wf0 /\
  File.uuid (stripe_of g) = File.uuid wf0 /\ File.version (stripe_of g) = File.version wf0 /\
  File.storageClass (stripe_of g) = sc /\ params (File.codingMeta (stripe_of g)) = File.codingMeta (stripe_of g).
Proof using Hnew.
  intros (En & Ens & Eu & _ & Ev & _)%same_fields. cbn. rewrite (nf_uuid Hnew). split_and!; try done. by rewrite En.
Qed.

(** The metadata after stripe [i]. *)
Lemma progress_next i puts new wf ids cs swf :
  (i < N)%nat -> progress i puts wf -> File.containerIds wf = Some ids -> File.chunks wf = Some cs ->
  forall b, data_ok rs b (chunk_size rs (stripe_len i)) -> take (Z.to_nat (stripe_len i)) b = stripe_part i ->
  (forall x, (x < n)%nat ->
    let c := ChunkManager.file_chunks swf !!! x in
    Chunk.size c = Z.of_nat (chunk_size rs (stripe_len i)) /\ Chunk.md5 c = MD5 (chunk_bytes rs b (chunk_size rs (stripe_len i)) x) /\
    listed_put cw agents new (File.namespaceId wf0) (File.uuid wf0) (File.version wf0) (Z.of_nat (i * n + x))
      (chunk_bytes rs b (chunk_size rs (stripe_len i)) x) (ChunkManager.file_ids swf !!! x)) ->
  length (ChunkManager.file_ids swf) = n -> length (ChunkManager.file_chunks swf) = n -> File.length swf <> 0 ->
  forall wf1, stripped wf1 = stripped wf -> File.data wf1 = Some d -> File.numChunks wf1 = File.numChunks wf ->
    File.chunksCorrupted wf1 = File.chunksCorrupted wf -> File.containerIds wf1 = Some ids -> File.chunks wf1 = Some cs ->
    File.uniqueBlocks wf1 = map stripe_block (seq 0 (Datatypes.S i)) -> File.duplicateBlocks wf1 = [] ->
  exists wf', record_stripe (Z.of_nat n) (Z.of_nat i) swf wf1 = Ok wf' /\ progress (Datatypes.S i) (puts ++ new) wf' /\
    File.codingMeta wf' = File.codingMeta wf0.
Proof using Hnew.
  intros Hi Hpg Eids Ecs b Hb Ht Hx Hli Hlc Hl wf1 Es Ed En Ebad Eids1 Ecs1 Eu Edup.
  destruct (pg_arrays _ _ _ Hpg) as (ids0 & cs0 & Q1 & Q2 & Hlids & Hlcs & Hval & Hdone).
  rewrite Eids in Q1. injection Q1 as <-. rewrite Ecs in Q2. injection Q2 as <-.
  pose proof (nf_chunks Hnew).
  destruct (record_stripe_ok i swf wf1 ids cs Hl Hli Hlc Eids1 Ecs1) as (ids' & cs' & -> & Hl1 & Hl2 & Hlow & Hfrom & Hat); [nia|congruence|nia|].
  eexists. split; [done|]. split; [|destruct (same_fields wf1) as (_ & _ & _ & _ & _ & Ec & _); [rewrite Es; apply Hpg|exact Ec]].
  constructor; cbn.
  - transitivity (stripped wf1); [done|]. rewrite Es. apply Hpg.
  - done.
  - rewrite En. apply Hpg.
  - done.
  - rewrite Ebad. apply Hpg.
  - exists ids', cs'. split_and!; try done; try congruence.
    + intros id (y & Hy)%list_elem_of_lookup. apply Hfrom in Hy as [Hy|(x & Hxn & ->)].
      * apply Hval, list_elem_of_lookup. by exists y.
      * destruct (Hx x Hxn) as (_ & _ & [->|(p & _ & Hack & _ & <-)]); [by right; left|]. right; right.
        unfold acknowledged in Hack. destruct (agents !! _); [by eexists|done].
    + intros j Hj. destruct (decide (j = i)) as [->|Hne].
      * exists b. split; [done|]. split; [done|]. intros x Hxn. destruct (Hat x Hxn) as (Hid & c & Hc & Hcid & Hsz & Hm).
        destruct (Hx x Hxn) as (Hs1 & Hm1 & Hp). split; [exists c; split_and!; congruence|]. eexists. split; [exact Hid|].
        destruct Hp as [->|(p & Hp & Hrest)]; [by left|]. right. exists p. split; [apply elem_of_app; by right|done].
      * apply (stripe_done_mono _ _ ids cs); [|apply Hdone; lia]. intros y Hy. apply Hlow. nia.
Qed.

Lemma blocks_next i g : 0 < max -> File.offset g = Z.of_nat i * max -> File.length g = stripe_len i ->
  emplace (whole_block g) ("", 0) (map stripe_block (seq 0 i)) = map stripe_block (seq 0 (Datatypes.S i)).
Proof using.
  intros Hm Eo El. unfold whole_block. rewrite Eo, El, MetaTheorems.emplace_last.
  - by rewrite seq_S, map_app.
  - apply Forall_forall. intros [l a] Hin%list_elem_of_fmap. destruct Hin as (j & [= -> ->] & [_ Hj]%elem_of_seq). cbn. nia.
Qed.

(** The file after the deduplication: the block is added, and the buffer is what it was. *)
Definition with_block (g : File.t) (i : nat) : File.t :=
  File.set_blocks g (map stripe_block (seq 0 (Datatypes.S i))) (File.duplicateBlocks g).

Lemma put_back g off : File.data g = Some d -> 0 <= off -> (Z.to_nat off <= length d)%nat ->
  set_data g (Some (take (Z.to_nat off) (default [] (File.data g)) ++ drop (Z.to_nat off) d)) = g.
Proof using.
  intros Ed Ho Hle. rewrite Ed. cbn. rewrite take_drop. unfold set_data. rewrite <- Ed. by destruct g.
Qed.

(** The data of stripe [i], which deduplication leaves as it is. *)
Definition stripe_input (i : nat) : list Z := stripe_bytes d (Z.of_nat i * max) (stripe_len i).

Lemma stripe_input_runs i s g :
  (i < N)%nat -> ready s -> stripped g = stripped wf0 -> File.data g = Some d -> File.offset g = Z.of_nat i * max ->
  File.length g = stripe_len i -> File.uniqueBlocks g = map stripe_block (seq 0 i) ->
  runs s (stripe_data w f max 0 g (stripe_of g) None) (stripe_input i, if stripe_len i =? max then None else Some (stripe_input i)) /\
  forall s', runs s' (dedupStripe (set_data (stripe_of g) (Some (stripe_input i))) g)
               (true, set_data (stripe_of g) (Some (stripe_input i)), with_block g i, "0").
Proof using Hnew Hsv.
  intros Hi Hr Es Ed Eo El Eu. pose proof (rd_coded _ Hr) as Hc.
  destruct (cd_ok _ _ _ Hc) as [Hk _]. pose proof (cd_k _ _ _ Hc) as Ek.
  pose proof (cd_chunk _ _ _ Hc). pose proof (cd_stripe _ _ _ Hc) as Hmx. assert (0 < max) as Hmax by nia.
  destruct (stripe_len_pos i Hi Hmax) as [Hlen Hoff].
  destruct (same_fields g Es) as (_ & _ & _ & _ & _ & Ecm & _). destruct (stripe_of_fields g Es) as (Fn & _).
  assert (File.offset (stripe_of g) = Z.of_nat i * max /\ File.length (stripe_of g) = stripe_len i) as [Fo Fl] by done.
  split.
  - unfold stripe_input. rewrite <- Fo, <- Fl. apply stripe_data_runs; rewrite ?Fo, ?Fl, ?Ecm; try done; try nia.
    + apply Hsv.
    + apply Hnew.
    + rewrite <- (nf_params Hnew). by apply params_coded.
    + by rewrite <- (nf_params Hnew).
  - intros s'. destruct (stripe_bytes_ok d (Z.of_nat i * max) (stripe_len i) s Hr (nf_bytes Hnew)) as [Hb _]; [nia..|].
    destruct Hb as (_ & _ & _ & Hb & _). destruct (chunk_size_bounds rs (stripe_len i)) as [_ Hcb]; [lia..|].
    unfold with_block. rewrite <- (blocks_next i (set_data (stripe_of g) (Some (stripe_input i))) Hmax) by done. rewrite <- Eu.
    refine (dedupStripe_none (set_data (stripe_of g) (Some (stripe_input i))) g nm (stripe_input i) s' _ _ _ _);
      [done|done|cbn; lia|]. unfold stripe_input. cbn. lia.
Qed.

(** The stripe is written and recorded. *)
Lemma stripe_output i s g spare puts swf bg s' :
  (i < N)%nat -> ready s -> ProxyCoordinator._containerToAgentMap (_coordinator s) = agents -> progress i puts g ->
  File.offset g = Z.of_nat i * max -> File.length g = stripe_len i -> (length spare <= n)%nat ->
  chunks w (fun cw m => ChunkManager.writeFileStripe cw m (set_data (stripe_of g) (Some (stripe_input i))) spare false false) s
    = Ok ((true, swf, bg), s') ->
  exists new wf', kept new s s' /\ record_stripe (Z.of_nat n) (Z.of_nat i) swf (with_block g i) = Ok wf' /\
    progress (Datatypes.S i) (puts ++ new) wf' /\ forall s2, runs s2 (record_coding w (Z.of_nat N) 0 (Z.of_nat i) swf wf') wf'.
Proof using Hnew Hsv Hworld H0.
  intros Hi Hr Hag Hpg Eo El Hsp E. apply chunks_inv in E as (m' & E & _ & Hkept). rewrite Hworld in E.
  pose proof (rd_coded _ Hr) as Hc. destruct (cd_ok _ _ _ Hc) as [Hk _]. pose proof (cd_k _ _ _ Hc) as Ek.
  pose proof (cd_chunk _ _ _ Hc). assert (0 < max) as Hmax by nia. destruct (stripe_len_pos i Hi Hmax) as [Hlen Hoff].
  destruct (stripe_bytes_ok d (Z.of_nat i * max) (stripe_len i) s Hr (nf_bytes Hnew)) as [Hb Ht]; [nia..|].
  fold (stripe_input i) (stripe_part i) in Hb, Ht. destruct (stripe_of_fields g (pg_same _ _ _ Hpg)) as (_ & Fns & Fu & Fv & Fsc & Fp).
  destruct (stripe_can_write s i (stripe_input i) spare Hr Hi Hsp Hb Hag (set_data (stripe_of g) (Some (stripe_input i))))
    as (Hcan & Hfit & Hfid); [done..|].
  destruct (stripe_written cw rs _ _ spare (stripe_input i) _ Hcan Hfit (sv_echoes Hsv) swf bg m' E)
    as (new & E1 & E2 & E3 & Fl & Hli & Hlc & Hst & En & Ekk & Hx).
  rewrite Hfid in Hx. cbn [set_data File.set_range File.namespaceId File.uuid File.version File.length File.codingMeta] in Hx, Fl, En, Ekk.
  change (File.length (stripe_of g)) with (File.length g) in Fl. rewrite El in Fl.
  destruct (pg_arrays _ _ _ Hpg) as (ids & cs & Eids & Ecs & _).
  destruct (progress_next i puts new g ids cs swf Hi Hpg Eids Ecs (stripe_input i) Hb Ht) with (wf1 := with_block g i)
    as (wf' & Hrec & Hnext & Ecm); try done.
  - intros x Hxn. specialize (Hx x Hxn). cbn zeta in Hx. rewrite Fns, Fu, Fv in Hx. cbn [ChunkManager._containerToAgentMap share] in Hx.
    rewrite Hag in Hx. destruct Hx as (Hs1 & Hm1 & Hp). split_and!; [done..|]. by rewrite Nat.add_comm, Nat2Z.inj_add.
  - rewrite Fl. lia.
  - apply Hpg.
  - apply Hpg.
  - exists new, wf'. split; [by apply Hkept|]. split; [done|]. split; [done|]. intros s2.
    apply record_coding_ok; rewrite ?Ecm; [done| | |apply Hnew].
    + rewrite En, <- Fp, <- (nf_params Hnew). done.
    + rewrite Ekk, <- Fp, <- (nf_params Hnew). done.
Qed.

Lemma progress_range i puts g o l : progress i puts g -> progress i puts (File.set_range g o l (Some d)).
Proof. intros []. by constructor. Qed.

Lemma write_one_stripe_ok i st s st' s' puts :
  (i < N)%nat -> progress i puts (s_wf st) -> length (s_spare st) = n -> s_buf st = None -> ready s ->
  ProxyCoordinator._containerToAgentMap (_coordinator s) = agents ->
  write_one_stripe w f max (Z.of_nat n) (Z.of_nat N) 0 0 (Z.of_nat i) st s = Ok ((true, st'), s') ->
  exists new, kept new s s' /\ progress (Datatypes.S i) (puts ++ new) (s_wf st') /\ length (s_spare st') = n /\
    ((Datatypes.S i < N)%nat -> s_buf st' = None).
Proof using Hnew Hsv Hworld H0.
  intros Hi Hpg Hsp Hbuf Hr Hag E. pose proof (rd_coded _ Hr) as Hc.
  destruct (cd_ok _ _ _ Hc) as [Hk _]. pose proof (cd_k _ _ _ Hc) as Ek.
  pose proof (cd_chunk _ _ _ Hc). pose proof (cd_stripe _ _ _ Hc) as Hmx. assert (0 < max) as Hmax by nia.
  destruct (stripe_len_pos i Hi Hmax) as [Hlen Hoff]. pose proof (nf_total Hnew).
  unfold write_one_stripe in E. rewrite (nf_stripes Hnew), (nf_size Hnew) in E. cbv zeta in E.
  rewrite (proj2 (Z.leb_le 0 (Z.of_nat i))) in E by lia. rewrite (u64_small (Z.of_nat i * max)), u64_small in E by nia.
  assert ((if max <? total - Z.of_nat i * max then max else total - Z.of_nat i * max) = stripe_len i) as El.
  { unfold stripe_len. destruct (Z.ltb_spec max (total - Z.of_nat i * max)); lia. }
  rewrite El, (pg_data _ _ _ Hpg) in E.
  apply (progress_range _ _ _ (Z.of_nat i * max) (stripe_len i)) in Hpg. set (g := File.set_range (s_wf st) _ _ _) in *.
  cbn [reuse_containers negb] in E. rewrite Hbuf in E.
  run (runs_lift s (Ok (s_spare st, s_selected st)) _ eq_refl) in E as s1 K1.
  apply pbind_inv in E as ([[[[ok wf2] swf0] arr] sel] & s2 & Ep & E).
  destruct ok; cbn [negb] in E; [|by apply pbind_inv in E as (? & ? & _ & [[=] _]%pret_inv)].
  pose proof (pg_same _ _ _ Hpg) as Es. destruct (same_fields g Es) as (_ & _ & _ & Esz & _ & _ & Esc).
  apply prepareWrite_stripe in Ep as (K2 & -> & -> & Hsel & Harr); [|by eapply ready_kept; [apply K1|]|done|nia|done].
  rewrite (prepared_same g Es) in E. fold (stripe_of g) in E.
  assert (kept [] s s2) as K12 by (by eapply still_kept_l). pose proof (ready_kept _ _ _ K12 Hr) as Hr2.
  destruct (stripe_input_runs i s2 g Hi Hr2 Es (pg_data _ _ _ Hpg) eq_refl eq_refl (proj1 (pg_blocks _ _ _ Hpg))) as [Hdata Hdedup].
  run Hdata in E as s3 K3. run (Hdedup s3) in E as s4 K4. cbn [negb] in E.
  assert (kept [] s s4) as K14 by (by do 2 (eapply still_kept_r; [|eassumption])). pose proof (ready_kept _ _ _ K14 Hr) as Hr4.
  assert (match (if stripe_len i =? max then None else Some (stripe_input i)) with
          | Some _ => with_block g i
          | None => set_data (with_block g i) (Some (take (Z.to_nat (File.offset (set_data (stripe_of g) (Some (stripe_input i))) - 0))
              (default [] (File.data (with_block g i))) ++ default [] (File.data (set_data (stripe_of g) (Some (stripe_input i))))))
          end = with_block g i) as Ewf.
  { unfold stripe_input, stripe_bytes. destruct (Z.eqb_spec (stripe_len i) max); [|done]. cbn [File.data set_data File.set_range default id].
    rewrite Z.sub_0_r. apply (put_back (with_block g i)); cbn; [done|nia|lia]. }
  rewrite Ewf in E. cbn [File.length set_data File.set_range] in E. change (File.length (stripe_of g)) with (stripe_len i) in E.
  rewrite (proj2 (Z.eqb_neq (stripe_len i) 0)) in E by lia.
  apply pbind_inv in E as ([ok swf] & s5 & Ew & E). apply pbind_inv in Ew as ([[ok' swf'] bg] & s6 & Ew & Hret).
  apply pret_inv in Hret as [[= -> ->] ->].
  destruct ok'; cbn [negb] in E; [|by apply pbind_inv in E as (? & ? & _ & [[=] _]%pret_inv)].
  destruct (stripe_output i s4 g (take (Z.to_nat sel) (default [] arr)) puts swf' bg s6 Hi Hr4) as (new & wf' & K6 & Hrec & Hpg' & Hcod); try done.
  { rewrite <- Hag. apply K14. } { rewrite length_take. lia. }
  rewrite Hrec in E. run (runs_lift s6 (Ok wf') _ eq_refl) in E as s7 K7. run (Hcod s7) in E as s8 K8. apply pret_inv in E as [[= ->] ->].
  exists new. cbn [s_wf s_spare s_buf]. split_and!; try done.
  - apply (kept_trans [] new _ _ _ K14). by do 2 (eapply still_kept_r; [|eassumption]).
  - intros Hlt. pose proof (nf_count Hnew). destruct (Z.eqb_spec (stripe_len i) max) as [|Hne]; [done|].
    exfalso. apply Hne. unfold stripe_len. nia.
Qed.

Lemma write_stripes_ok m i st s st' s' puts :
  (i + m = N)%nat -> progress i puts (s_wf st) -> length (s_spare st) = n -> ((i < N)%nat -> s_buf st = None) -> ready s ->
  ProxyCoordinator._containerToAgentMap (_coordinator s) = agents ->
  write_stripes w f max (Z.of_nat n) (Z.of_nat N) 0 0 (map Z.of_nat (seq i m)) st s = Ok ((true, st'), s') ->
  exists new, kept new s s' /\ progress N (puts ++ new) (s_wf st').
Proof using Hnew Hsv Hworld H0.
  revert i st s puts. induction m as [|m IH]; intros i st s puts Him Hpg Hsp Hbuf Hr Hag E; cbn [seq map write_stripes] in E.
  - apply pret_inv in E as [[= ->] ->]. exists []. rewrite app_nil_r. replace N with i by lia. split; [|done]. apply still_refl.
  - apply pbind_inv in E as ([ok st1] & s1 & E1 & E). destruct ok; [|by apply pret_inv in E as [[=] _]].
    apply (write_one_stripe_ok i st s st1 s1 puts) in E1 as (new & K1 & Hpg1 & Hsp1 & Hbuf1); try done; [|lia|apply Hbuf; lia].
    destruct (IH (Datatypes.S i) st1 s1 (puts ++ new)) as (new' & K2 & Hpg2); try done; [lia|by eapply ready_kept| |].
    { rewrite <- Hag. apply K1. }
    exists (new ++ new'). rewrite app_assoc. split; [by eapply kept_trans|done].
Qed.

(** The number of stripes. *)
Lemma stripe_count : 0 < max < 2147483648 -> (0 < n)%nat ->
  i32 (i32 (total / max) + (if total mod max =? 0 then 0 else 1)) = Z.of_nat N /\
  i32 (u64 (0 + total + max - 1) / max) = Z.of_nat N.
Proof using Hnew.
  intros Hm Hn. pose proof (nf_count Hnew) as Hc. pose proof (nf_chunks Hnew) as Hb. pose proof (nf_total Hnew) as Ht.
  assert (Z.of_nat N < 2147483648) as HN by nia. split.
  - pose proof (Z.div_mod total max ltac:(lia)) as Hd. pose proof (Z.mod_pos_bound total max ltac:(lia)) as Hr.
    set (q := total / max) in *. set (r := total mod max) in *. clearbody q r.
    destruct (Z.eqb_spec r 0) as [Er|Er].
    + assert (q = Z.of_nat N) by nia. subst q. rewrite Z.add_0_r, (i32_small (Z.of_nat N)), i32_small; lia.
    + assert (q = Z.of_nat N - 1) by nia. subst q. rewrite (i32_small (Z.of_nat N - 1)), i32_small; lia.
  - rewrite u64_small by lia. rewrite <- (Z.div_unique (0 + total + max - 1) max (Z.of_nat N) (total + max - 1 - Z.of_nat N * max)) by lia.
    rewrite i32_small; lia.
Qed.

Lemma init_arrays g m a b e : 0 < m ->
  File.initChunksAndContainerIds (File.set_chunk_info g m a b e) (-1) =
  (true, File.set_chunk_info g m (Some (replicate (Z.to_nat m) 0)) (Some (replicate (Z.to_nat m) Chunk.reset))
           (Some (replicate (Z.to_nat m) false))).
Proof.
  intros Hm. unfold File.initChunksAndContainerIds. rewrite Z.eqb_refl. cbn [File.numChunks File.set_chunk_info].
  rewrite (proj2 (Z.ltb_ge m 0)), (proj2 (Z.ltb_lt 0 m)) by lia. done.
Qed.

Lemma seqZ_seq m : seqZ 0 (Z.of_nat m) = map Z.of_nat (seq 0 m).
Proof. unfold seqZ. rewrite Nat2Z.id. apply list_fmap_ext. intros ???. lia. Qed.

(** Nothing written yet. *)
Lemma progress_0 wf : stripped wf = stripped wf0 -> File.data wf = Some d -> File.uniqueBlocks wf = [] -> File.duplicateBlocks wf = [] ->
  progress 0 [] (File.set_chunk_info wf (Z.of_nat (N * n)) (Some (replicate (N * n) 0)) (Some (replicate (N * n) Chunk.reset))
    (Some (replicate (N * n) false))).
Proof.
  intros Es Ed Eu Edup. constructor; try done.
  - eexists. split; [done|]. apply length_replicate.
  - exists (replicate (N * n) 0), (replicate (N * n) Chunk.reset). rewrite !length_replicate. repeat (split; [done|]). split.
    + intros id Hid. apply elem_of_replicate in Hid as [-> _]. by left.
    + lia.
Qed.

Lemma writeFileStripes_ok wf arr sel s wf' commits s' :
  ready s -> ProxyCoordinator._containerToAgentMap (_coordinator s) = agents ->
  stripped wf = stripped wf0 -> File.data wf = Some d -> File.uniqueBlocks wf = [] -> File.duplicateBlocks wf = [] ->
  File.offset f = 0 -> File.length f = total -> length arr = n -> 0 < total ->
  writeFileStripes w f wf (Some arr) sel 0 s = Ok ((true, wf', commits), s') ->
  exists puts g, kept puts s s' /\ progress N puts g /\ wf' = File.set_numStripes g (Z.of_nat N).
Proof using Hnew Hsv Hworld H0.
  intros Hr Hag Es Ed Eu Edup Eo El Harr Htot E. pose proof (rd_coded _ Hr) as Hc.
  destruct (cd_ok _ _ _ Hc) as [Hk _]. pose proof (cd_k _ _ _ Hc) as Ek.
  pose proof (cd_chunk _ _ _ Hc). pose proof (cd_stripe _ _ _ Hc) as Hmx. assert (0 < max) as Hmax by nia.
  destruct (stripe_count ltac:(lia) ltac:(lia)) as [EN Eend]. pose proof (nf_chunks Hnew) as Hb. pose proof (nf_count Hnew) as Hcnt.
  destruct (same_fields wf Es) as (_ & _ & _ & _ & _ & Ecm & _).
  assert (coded s (File.codingMeta wf) rs) as Hcw by (rewrite Ecm, <- (nf_params Hnew); by apply params_coded).
  unfold writeFileStripes in E. run (runs_required w s _ rs Hcw) in E as s1 K1.
  run (runs_per_container w s1 _ rs (coded_kept _ _ _ _ _ (proj1 K1) Hcw)) in E as s2 K2.
  destruct (Z.ltb_spec (Z.of_nat n) 0); [lia|]. cbn [Z.ltb Z.compare orb] in E.
  assert (still s s2) as K12 by (by eapply still_trans).
  run (runs_max_stripe w s2 _ rs (coded_kept _ _ _ _ _ (proj1 K12) Hcw)) in E as s3 K3.
  assert (CodingMeta.maxChunkSize (File.codingMeta wf) * CodingMeta.k (File.codingMeta wf) = max) as Emax
    by (by rewrite Ecm, <- (nf_params Hnew)). rewrite Emax in E.
  change INVALID_FILE_OFFSET with 18446744073709551615 in E. rewrite (proj2 (Z.eqb_neq max 18446744073709551615)) in E by lia.
  rewrite (proj2 (Z.eqb_neq max 0)) in E by lia. cbv iota in E. run (runs_lift s3 (Ok tt) _ eq_refl) in E as s4 K4.
  cbv zeta in E. rewrite (nf_size Hnew), Eo, El, EN, Eend in E. rewrite Z.mul_1_r, (i32_small (Z.of_nat n)) in E by nia.
  rewrite <- Nat2Z.inj_mul, (Nat.mul_comm n N), i32_small in E by lia.
  change (Z.quot 0 max) with 0 in E. rewrite Z.div_0_l in E by lia. change (i32 0) with 0 in E. rewrite Z.sub_0_r in E.
  rewrite init_arrays in E by nia. cbn [negb] in E. rewrite Nat2Z.id in E.
  set (wf2 := File.set_chunk_info wf _ _ _ _) in E. rewrite seqZ_seq in E.
  apply pbind_inv in E as ([ok st1] & s5 & E5 & E).
  destruct ok; apply pret_inv in E as [E ->]; [|by inversion E]. inversion E as [[E1 E2]]. clear E E2.
  assert (still s s4) as K by (eapply still_trans; [done|by eapply still_trans]).
  apply (write_stripes_ok N 0 _ _ _ _ []) in E5 as (new & K5 & Hpg); try done.
  - exists new, (s_wf st1). rewrite app_nil_l in Hpg. split; [|done]. by eapply still_kept_l.
  - by apply progress_0.
  - apply (ready_kept _ _ _ (proj1 K) Hr).
  - rewrite <- Hag. apply K.
Qed.
End loop.
End write.
