(* ===== verification/ProxyWrites.v ===== *)
(** Writing a file at the proxy: what a successful write leaves in the metadata store
    and at the agents, for a new version of a file that is stored in stripes. *)

From S2P Require Import Prelude DS Wire Isal RSCode RSDecode RSTheorems File ProxyCoordinator ChunkManager AccessTheorems StripeTheorems WriteTheorems.
From S2P Require Import Redis MetaKeys RedisServer MetaStore MetaTheorems MetaVersions MetaLocks PolicyStore Dedup Staging.
From S2P Require Import Proxy ProxyPolicies ProxyFrame ProxyStripes.

#[local] Open Scope Z_scope.
#[local] Open Scope outcome_scope.
#[local] Open Scope program_scope.

Import Proxy.

(** * Calls of the metadata store *)

Section meta.
Context `{Isal, Md5, UuidPrinterLaws} `{!UuidParser} `{Hparse : !UuidParserLaws} `{!UuidGenerator}.
Context {D R S X : Type} `{Hlaws : ServerLaws D, Redis R, StagingArea S, Deduplication X}.
Context (cfg : config) (w : world) (Hnet : answered (meta_link w)).
Notation t := (Proxy.t D R S X).
Implicit Types s : t.

Definition with_meta (ms : session D) s : t :=
  mk (_chunkManager s) (_repairChunkManager s) (_tcChunkManager s) (_coordinator s) ms (_policies s) (_staging s) (_dedup s) (calls s).

(** Everything but the metadata is kept. *)
Definition moved (reqs : list ChunkEvent.t) s s' : Prop := kept reqs s (with_meta (_metastore s) s').

Lemma kept_moved r s s' : kept r s s' -> moved r s s'.
Proof using. intros []. by constructor. Qed.

Lemma moved_trans r1 r2 s1 s2 s3 : moved r1 s1 s2 -> moved r2 s2 s3 -> moved (r1 ++ r2) s1 s3.
Proof using. intros [] []. constructor; cbn in *; try congruence. rewrite app_assoc. congruence. Qed.

Lemma moved_with ms s : moved [] s (with_meta ms s).
Proof using. by constructor; rewrite ?app_nil_r. Qed.

Lemma moved_coded r s s' c rs : moved r s s' -> coded s c rs -> coded s' c rs.
Proof using. intros [] []. constructor; try done. cbn in *. congruence. Qed.

Lemma meta_inv {A} (op : M D A) s a s' : meta op s = Ok (a, s') -> exists ms, op (_metastore s) = Ok (a, ms) /\ s' = with_meta ms s.
Proof using. unfold meta. destruct (op (_metastore s)) as [| |[a' ms]]; [done..|]. cbn. intros [= -> <-]. by exists ms. Qed.

Lemma meta_run {A} (op : M D A) s a ms : op (_metastore s) = Ok (a, ms) -> meta op s = Ok (a, with_meta ms s).
Proof using. intros E. unfold meta. by rewrite E. Qed.

(** ** The history of a file as the proxy sees it *)

Context (ns : Z) (nm : string) (Hname : name_ok ns nm).
Notation keys s := (contents (db (_metastore s))).

(** The store has the history [hist], and [ks] is the set of locks. *)
Record history s (hist : list entry) (ks : gset string) : Prop := {
  hy_idle : pending (_metastore s) = [];
  hy_hist : represents ns nm (keys s) hist;
  hy_locks : lock_set (db (_metastore s)) = Some ks
}.

(** Keys of other files. *)
Definition others s s' : Prop := forall k, ~ own_key ns nm k -> ~ side_key k -> k <> FILE_LOCK_KEY -> keys s' !! k = keys s !! k.

Lemma unconcerned_trans s1 s2 s3 : others s1 s2 -> others s2 s3 -> others s1 s3.
Proof using. intros Q1 Q2 k Q3 Q4 Q5. by rewrite (Q2 k), (Q1 k). Qed.

Lemma kept_others r s s' : kept r s s' -> others s s'.
Proof using. intros K k _ _ _. by rewrite (kept_meta _ _ _ K). Qed.

Lemma history_kept r s s' hist ks : kept r s s' -> history s hist ks -> history s' hist ks.
Proof using. intros K []. by constructor; rewrite (kept_meta _ _ _ K). Qed.

Lemma not_lock_key k : own_key ns nm k -> k <> FILE_LOCK_KEY.
Proof using. intros Hk ->. by apply (proj1 (lock_key_apart ns nm)). Qed.

(** A call that changes only the history and the locks. *)
Definition leaves s s' hist ks : Prop :=
  moved [] s s' /\ _coordinator s' = _coordinator s /\ others s s' /\ history s' hist ks.

Lemma leaves_with s ms hist ks :
  others s (with_meta ms s) -> history (with_meta ms s) hist ks -> leaves s (with_meta ms s) hist ks.
Proof using. intros Ho Hh. split_and!; try done. apply moved_with. Qed.

Lemma leaves_trans s1 s2 s3 hist ks hist' ks' : leaves s1 s2 hist ks -> leaves s2 s3 hist' ks' -> leaves s1 s3 hist' ks'.
Proof using.
  intros (K1 & Q1 & Ho1 & _) (K2 & Q2 & Ho2 & Hh). split_and!; [exact (moved_trans [] [] _ _ _ K1 K2)|congruence| |done].
  by eapply unconcerned_trans.
Qed.

Lemma leaves_still s s' hist ks : still s s' -> history s hist ks -> leaves s s' hist ks.
Proof using.
  intros [K Q] Hh. split_and!; [by apply kept_moved|done|by eapply kept_others|by eapply history_kept].
Qed.

(** The lock, after as many tries as it takes. *)
Lemma lockFile_inv f s hist ks s' :
  named ns nm f -> history s hist ks -> Proxy.lockFile cfg w f s = Ok (true, s') ->
  leaves s s' hist ({[genFileKey ns nm]} ∪ ks) /\ genFileKey ns nm ∉ ks.
Proof using Hnet Hname Hlaws.
  intros Hf. unfold Proxy.lockFile. generalize (Z.to_nat (numRetry cfg)) as tries. intros tries. revert s.
  induction tries as [|tries IH]; intros s [Hp Hh Hl] E; cbn [lock_tries] in E; [by apply pret_inv in E as [[=] _]|].
  destruct (lock_taken (meta_link w) f ns nm (_metastore s) Hname Hf Hnet Hp) as (ok & ms & Em & Hp' & Hk & Hres).
  rewrite (pbind_run _ _ _ _ _ (meta_run _ _ _ _ Em)) in E.
  assert (represents ns nm (contents (db ms)) hist) as Hh'.
  { eapply represents_ext; [|exact Hh]. intros k Ho. by apply Hk, not_lock_key. }
  destruct ok.
  - apply pret_inv in E as [_ ->]. destruct Hres as (ks' & Eks & Hni & Hks). rewrite Hl in Eks. injection Eks as <-.
    split; [|done]. apply leaves_with; [|by constructor]. intros k _ _ Hne. by apply Hk.
  - destruct (IH (with_meta ms s)) as ((K & Ec & Ho & Hy) & Hni); [by constructor; cbn; rewrite ?Hres|done|].
    split; [|done]. eapply (leaves_trans _ (with_meta ms s) _ hist ks); [|by split_and!].
    apply leaves_with; [|by constructor; cbn; rewrite ?Hres]. intros k _ _ Hne. by apply Hk.
Qed.

Lemma unlockFile_run f s hist ks :
  named ns nm f -> history s hist ({[genFileKey ns nm]} ∪ ks) -> genFileKey ns nm ∉ ks ->
  exists s', Proxy.unlockFile w f s = Ok (true, s') /\ leaves s s' hist ks.
Proof using Hnet Hname Hlaws.
  intros Hf [Hp Hh Hl] Hni.
  destruct (lock_released (meta_link w) f ns nm (_metastore s) ks Hname Hf Hnet Hp Hl Hni) as (ms & Em & Hp' & Hk & Hl').
  eexists. split; [by apply meta_run|]. apply leaves_with.
  - intros k _ _ Hne. by apply Hk.
  - constructor; try done. eapply represents_ext; [|exact Hh]. intros k Ho. by apply Hk, not_lock_key.
Qed.

Lemma getMeta_run f0 s hist ks :
  named ns nm f0 -> in_int (File.version f0) -> File.uniqueBlocks f0 = [] -> File.duplicateBlocks f0 = [] -> history s hist ks ->
  exists s', Proxy.getMeta w f0 3 s =
      Ok (match asked (File.version f0) hist with
          | Some e => (true, MetaTheorems.view f0 (e_file e) (e_ids e) (e_cs e) (e_bad e))
          | None => (false, f0)
          end, s') /\ leaves s s' hist ks.
Proof using Hnet Hname Hlaws Hparse.
  intros Hf Hv Hu Hd [Hp Hh Hl].
  destruct (getMeta_history (meta_link w) Hnet ns nm Hname f0 hist (_metastore s) Hf Hv Hu Hd Hh Hp) as (ms & Em & Hc & Hp').
  eexists. split; [by apply meta_run|]. apply leaves_with.
  - intros k _ _ _. cbn. by rewrite Hc.
  - constructor; cbn; unfold lock_set in *; by rewrite ?Hc.
Qed.

(** The next version is added to the history. *)
Lemma putMeta_run e s hist ks :
  overwriteFiles cfg = false -> entry_ok ns nm e -> version e = current hist + 1 -> history s hist ks ->
  exists s', Proxy.putMeta cfg w (e_file e) s = Ok (true, s') /\ leaves s s' (e :: hist) ks.
Proof using Hnet Hname Hlaws.
  intros How He Hv [Hp Hh Hl].
  destruct (putMeta_history (meta_link w) Hnet ns nm Hname e hist (_metastore s) He Hh Hp) as (ms & Em & Hp' & Hh' & Ht); [right; lia|].
  assert (spec_put e hist = Some (e :: hist)) as Es.
  { destruct hist as [|e0 old]; [done|]. cbn in *. by rewrite (proj2 (Z.ltb_lt _ _)) by lia. }
  rewrite Es in Em, Hh'. rewrite bool_decide_eq_true_2 in Em by (by eexists).
  eexists. split; [unfold Proxy.putMeta; rewrite How; by apply meta_run|]. apply leaves_with.
  - intros k Q1 Q2 _. by apply Ht.
  - constructor; try done. cbn. unfold lock_set, members in *.
    destruct (lock_key_apart ns nm) as [Q1 Q2]. by rewrite (Ht _ Q1 Q2).
Qed.
End meta.

(** * Writing a new version *)

Section write.
Context `{IsalLaws, Md5, UuidPrinterLaws} `{!UuidParser} `{Hparse : !UuidParserLaws} `{!UuidGenerator}.
Context {D R S : Type} `{Hlaws : ServerLaws D, Redis R, StagingArea S}.
#[local] Existing Instance DedupNone.none.
Context (cfg : config) (w : world) (cw : ChunkManager.world) (Hworld : forall n, chunk_world w n = cw).
Context (rs : RSCode.t) (sc : string) (cls : StorageClass.t).
Notation t := (Proxy.t D R S unit).
Implicit Types s : t.
Notation cm := (StorageClass._codingMeta cls).
Notation n := (RSCode.n rs).
Notation max := (CodingMeta.maxChunkSize cm * CodingMeta.k cm).

Lemma ready_moved r s s' : moved r s s' -> ready rs sc cls s -> ready rs sc cls s'.
Proof using. intros K []. constructor; [|done|by eapply moved_coded]. by rewrite <- rd_class, <- (kept_classes _ _ _ K). Qed.

(** The start of a write: no containers are chosen yet. *)
Lemma prepareWrite_first f s : ready rs sc cls s -> File.storageClass f = sc -> 0 < File.size f ->
  exists arr, length arr = n /\
    runs s (prepareWrite w f File.reset None 0 false) (true, prepared_file sc cls f, prepared_stripe sc cls f File.reset, Some arr, 0).
Proof using.
  intros Hr Hsc Hsz. unfold runs, prepareWrite. rewrite Hsc.
  run (runs_setCodingMeta w rs sc cls s (File.codingMeta f) Hr) as s1 K1. cbn [negb].
  fold (prepared_file sc cls f). fold (prepared_stripe sc cls f File.reset).
  set (wf1 := prepared_stripe sc cls f File.reset).
  assert (coded s1 (File.codingMeta wf1) rs) as Hc1 by (eapply params_coded, rd_coded, (ready_kept _ _ _ _ _ _ (proj1 K1) Hr)).
  change (File.size wf1) with (File.size f). rewrite (proj2 (Z.ltb_lt _ _) Hsz). run (runs_required w s1 _ rs Hc1) as s2 K2.
  destruct (Z.eqb_spec (Z.of_nat n) (-1)); [lia|]. run (runs_uninitialised w s2 _) as s3 K3. rewrite Nat2Z.id. cbn [negb].
  eexists. split; [|eexists; split; [reflexivity|]; eapply still_trans; [exact K1|by eapply still_trans]].
  by rewrite length_map, length_seq.
Qed.

(** What the metadata store needs to know of a new version. *)
Record fresh (ns : Z) (nm : string) (wf0 : File.t) : Prop := {
  fr_name : name_ok ns nm;
  fr_ns : File.namespaceId wf0 = ns;
  fr_version : 0 <= File.version wf0 < 2147483648;
  fr_times : in_long (File.ctime wf0) /\ in_long (File.atime wf0) /\ in_long (File.mtime wf0) /\ in_long (File.tctime wf0);
  fr_coding : meta_ok (File.codingMeta wf0);
  fr_class : free_of NUL sc;
  fr_staged : File.staged wf0 = File.staged File.reset
}.

(** Checksums are 16 bytes long. *)
Definition md5_ok : Prop := forall b, in_bytes (MD5 b) /\ length (MD5 b) = MD5_DIGEST_LENGTH.

Section stored.
Context (f wf0 : File.t) (ns : Z) (nm : string) (d : list Z) (N : nat) (agents : gmap Z string).
Context (Hnew : new_file rs sc cls f wf0 nm d N) (Hfresh : fresh ns nm wf0) (Hmd5 : md5_ok).
Context (Hids : forall id, is_Some (agents !! id) -> in_int id) (Hmax : 0 < max < 2147483648) (Hn : (0 < n)%nat).
Notation total := (Z.of_nat (length d)).
Notation progress := (progress cw rs cls wf0 d N agents).

(** The record of the new version. *)
Definition final (g : File.t) : File.t := set_data (File.set_md5 (File.set_numStripes g (Z.of_nat N)) (MD5 d)) None.

Lemma stripe_blocks_sorted i len : StronglySorted Z.lt (map (fun b => _offset (fst b)) (map (stripe_block cls d) (seq i len))).
Proof using Hmax Hn.
  rewrite map_map. revert i. induction len as [|len IH]; intros i; cbn; constructor; [apply IH|].
  apply Forall_forall. intros z (j & -> & Hj%elem_of_seq)%list_elem_of_fmap. cbn. nia.
Qed.

Lemma final_blocks puts g : progress N puts g -> blocks_ok (final g).
Proof using Hnew Hmax Hn.
  intros Hp. destruct (pg_blocks _ _ _ _ _ _ _ _ _ _ Hp) as [Eu Ed]. unfold blocks_ok. cbn. rewrite Eu, Ed.
  pose proof (nf_total _ _ _ _ _ _ _ _ Hnew) as Ht. pose proof (nf_count _ _ _ _ _ _ _ _ Hnew) as Hc.
  split; [exists O; split_and!; [by left| |constructor]|split_and!].
  - apply Forall_fmap, Forall_forall. done.
  - apply Forall_fmap, Forall_forall. intros j [_ Hj]%elem_of_seq. cbn. unfold location_ok, in_ulong, in_int, stripe_len. cbn. nia.
  - constructor.
  - apply stripe_blocks_sorted.
  - constructor.
  - rewrite length_map, length_seq. pose proof (nf_chunks _ _ _ _ _ _ _ _ Hnew). nia.
  - done.
Qed.

Lemma stripe_len_bounds j : (j < N)%nat -> 0 < stripe_len cls d j <= max.
Proof using Hnew Hmax Hn. intros Hj. pose proof (nf_count _ _ _ _ _ _ _ _ Hnew) as Hc. unfold stripe_len. nia. Qed.

(** Every chunk belongs to a stripe. *)
Lemma final_chunk puts g ids cs i c :
  progress N puts g -> File.containerIds g = Some ids -> File.chunks g = Some cs -> cs !! i = Some c -> chunk_ok i c.
Proof using Hnew Hmd5 Hmax Hn.
  intros Hp Ei Ec Hi. destruct (pg_arrays _ _ _ _ _ _ _ _ _ _ Hp) as (ids' & cs' & Ei' & Ec' & _ & Hl & _ & Hs).
  rewrite Ei in Ei'. rewrite Ec in Ec'. injection Ei' as <-. injection Ec' as <-. apply lookup_lt_Some in Hi as Hlt. rewrite Hl in Hlt.
  pose proof (Nat.div_mod_eq i n) as Hd. pose proof (Nat.mod_upper_bound i n ltac:(lia)) as Hx.
  assert (i / n < N)%nat as Hj by (apply Nat.Div0.div_lt_upper_bound; lia).
  destruct (Hs _ Hj) as (b & (_ & Hcs & _) & _ & Hc). destruct (Hc _ Hx) as ((c' & Hc' & Hid & Hsz & Hm) & _).
  replace (i / n * n + i mod n)%nat with i in * by lia. rewrite Hi in Hc'. injection Hc' as <-.
  split_and!; [done| |rewrite Hm; apply Hmd5..]. rewrite Hsz. unfold in_int. lia.
Qed.

Lemma final_ok puts g ids cs bad : (0 < length d)%nat ->
  progress N puts g -> File.containerIds g = Some ids -> File.chunks g = Some cs -> File.chunksCorrupted g = Some bad ->
  entry_ok ns nm (mk_entry (final g) ids cs bad).
Proof using Hnew Hfresh Hmd5 Hids Hmax Hn.
  intros Hpos Hp Ei Ec Eb. pose proof (pg_same _ _ _ _ _ _ _ _ _ _ Hp) as Hs.
  pose proof (nf_state _ _ _ _ _ _ _ _ Hnew). pose proof (nf_total _ _ _ _ _ _ _ _ Hnew).
  pose proof (nf_chunks _ _ _ _ _ _ _ _ Hnew). destruct Hfresh as [(Q1 & Q2 & Q3) Q4 Q5 Q6 Q7 Q8 Q9].
  assert (forall A (h : File.t -> A), h (stripped g) = h (stripped wf0)) as Hf by (intros; by rewrite Hs).
  destruct (pg_arrays _ _ _ _ _ _ _ _ _ _ Hp) as (ids' & cs' & Ei' & Ec' & Hli & Hlc & Hin & _).
  destruct (pg_bad _ _ _ _ _ _ _ _ _ _ Hp) as (bad' & Eb' & Hlb). rewrite Ei in Ei'. rewrite Ec in Ec'. rewrite Eb in Eb'.
  injection Ei' as <-. injection Ec' as <-. injection Eb' as <-.
  split; [|split].
  2: exact (eq_trans (Hf _ File.namespaceId) Q4).
  2:{ unfold version. cbn. pose proof (Hf _ File.version) as Ev. cbn in Ev. lia. }
  cbn [e_file e_ids e_cs e_bad]. constructor; try done.
  - exact (eq_trans (Hf _ File.name) (nf_name _ _ _ _ _ _ _ _ Hnew)).
  - pose proof (Hf _ File.namespaceId) as Ev. cbn in *. lia.
  - pose proof (Hf _ File.size) as Ev. pose proof (nf_wsize _ _ _ _ _ _ _ _ Hnew). unfold in_ulong. cbn in *. lia.
  - pose proof (Hf _ File.version) as Ev. unfold in_int. cbn in *. lia.
  - pose proof (Hf _ File.ctime) as E1. pose proof (Hf _ File.atime) as E2. pose proof (Hf _ File.mtime) as E3.
    pose proof (Hf _ File.tctime) as E4. cbn in *. rewrite E1, E2, E3, E4. exact Q6.
  - apply Hmd5.
  - unfold in_int. cbn. nia.
  - pose proof (Hf _ File.codingMeta) as Ev. cbn in *. by rewrite Ev.
  - pose proof (Hf _ File.codingMeta) as Ev. left. cbn in *. by rewrite Ev.
  - pose proof (Hf _ File.storageClass) as Ev. pose proof (Hf _ File.staged) as E2. cbn in Ev, E2 |- *. rewrite Ev, E2, Q9.
    rewrite (nf_wclass _ _ _ _ _ _ _ _ Hnew). by split; [|constructor].
  - pose proof (Hf _ File.staged) as E2. cbn in E2 |- *. rewrite E2, Q9. clear.
    unfold in_ulong, in_long, meta_ok, in_int. split_and!; vm_compute; congruence.
  - pose proof (Hf _ File.size) as Ev. pose proof (nf_wsize _ _ _ _ _ _ _ _ Hnew). intros E0. cbn in *. lia.
  - split_and!; cbn; try congruence.
    + rewrite Hlc. apply (pg_num _ _ _ _ _ _ _ _ _ _ Hp).
    + apply Forall_forall. intros id Hid. destruct (Hin id Hid) as [->|[->|Ha]]; [done|done|by apply Hids].
    + intros i c Hi. by eapply final_chunk.
    + rewrite Hlc. unfold in_int. lia.
    + done.
  - by eapply final_blocks.
Qed.
End stored.

(** ** From the data to the metadata *)

Section upload.
Context (ns : Z) (nm : string) (d : list Z) (N : nat) (agents : gmap Z string).
Notation total := (Z.of_nat (length d)).
Context (Hversioned : overwriteFiles cfg = false) (Hstaging : stagingEnabled cfg = false).
Context (Hsv : serving w cw) (Hnet : answered (meta_link w)) (Hmd5 : md5_ok) (Hname : name_ok ns nm).
Context (Hids : forall id, is_Some (agents !! id) -> in_int id).

Lemma write_data_inv f wf old arr sel s backend staged wf' old' commits s' :
  let wf0 := File.set_policy (File.setVersion wf (i32 (File.version old + 1))) (File.codingMeta wf) sc in
  new_file rs sc cls f wf0 nm d N -> (sc = "" -> defaultStorageClass cfg = "") -> ready rs sc cls s ->
  ProxyCoordinator._containerToAgentMap (_coordinator s) = agents ->
  File.data wf = Some d -> File.uniqueBlocks wf = [] -> File.duplicateBlocks wf = [] -> File.offset f = 0 ->
  File.length f = total -> length arr = n -> (0 < length d)%nat ->
  write_data cfg w f wf old (Some arr) sel s = Ok ((backend, staged, wf', old', commits), s') -> negb backend && negb staged = false ->
  staged = false /\ old' = old /\ exists puts g, kept puts s s' /\ progress cw rs cls wf0 d N agents N puts g /\
    wf' = File.set_numStripes g (Z.of_nat N).
Proof using Hworld Hstaging Hsv H0.
  intros wf0 Hnew Hdef Hr Hag Ed Eu Edup Eo El Ha Hpos E Hok. unfold write_data, write_staging in E. rewrite Hstaging in E.
  pose proof (nf_wsize _ _ _ _ _ _ _ _ Hnew) as Esz. cbn in Esz. rewrite (proj2 (Z.eqb_neq _ 0)) in E by lia.
  run (runs_ret s (false, old)) in E as s1 K1. cbv zeta in E. rewrite (nf_class _ _ _ _ _ _ _ _ Hnew) in E.
  assert ((if bool_decide (sc = "") then defaultStorageClass cfg else sc) = sc) as Ec.
  { case_bool_decide as Q; [|done]. by rewrite Hdef. }
  cbn [File.codingMeta File.setVersion] in E. rewrite Ec in E. fold wf0 in E.
  apply pbind_inv in E as ([[ok wf1] commits1] & s2 & E2 & E). apply pret_inv in E as [E ->]. injection E as -> -> -> -> ->.
  rewrite andb_true_r in Hok. apply negb_false_iff in Hok as ->. split; [done|]. split; [done|].
  apply (writeFileStripes_ok w cw Hworld rs sc cls f wf0 nm d N agents Hnew Hsv)
    in E2 as (puts & g & K2 & Hp & Ew); try done.
  - exists puts, g. split_and!; try done. by eapply still_kept_l.
  - apply (ready_kept _ _ _ _ _ _ (proj1 K1) Hr).
  - by rewrite (proj2 K1).
  - lia.
Qed.

Lemma for_commits_run ids s (op : unit -> string -> unit) : runs s (for_commits op ids) tt.
Proof using.
  revert s. induction ids as [|i ids IH]; intros s; cbn [for_commits]; [apply runs_ret|]. eapply (runs_bind _ _ _ tt).
  - exists s. split; [|apply still_refl]. unfold dedup. destruct s as [? ? ? ? ? ? ? [] ?]. cbn. by destruct (op () i).
  - intros s' _. apply IH.
Qed.

Lemma commit_write_inv f wf0 g old ids cs bad puts commits s f' s' hist ks :
  new_file rs sc cls f wf0 nm d N -> fresh ns nm wf0 -> File.version wf0 = current hist + 1 ->
  0 < max < 2147483648 -> (0 < n)%nat -> (0 < length d)%nat -> File.length f = total ->
  progress cw rs cls wf0 d N agents N puts g ->
  File.containerIds g = Some ids -> File.chunks g = Some cs -> File.chunksCorrupted g = Some bad ->
  history ns nm s hist ({[genFileKey ns nm]} ∪ ks) -> genFileKey ns nm ∉ ks ->
  commit_write cfg w f (File.set_numStripes g (Z.of_nat N)) old commits false false s = Ok ((true, f'), s') ->
  leaves ns nm s s' (mk_entry (final d N g) ids cs bad :: hist) ks.
Proof using Hversioned Hnet Hmd5 Hname Hids Hlaws.
  intros Hnew Hfr Hv Hmax Hn Hpos El Hp Ei Ec Eb Hh Hni E.
  assert (entry_ok ns nm (mk_entry (final d N g) ids cs bad)) as He by (by eapply final_ok).
  unfold commit_write in E. cbn [File.data File.set_numStripes] in E. rewrite (pg_data _ _ _ _ _ _ _ _ _ _ Hp) in E. cbn [default id] in E.
  rewrite El, Nat2Z.id, block_read_in, slice_all in E by lia. cbn [access] in E.
  run (runs_lift s (Ok d) d eq_refl) in E as s1 K1. cbv zeta in E. fold (final d N g) in E.
  pose proof (leaves_still ns nm _ _ _ _ K1 Hh) as L1.
  destruct (putMeta_run cfg w Hnet ns nm Hname (mk_entry (final d N g) ids cs bad) s1 hist ({[genFileKey ns nm]} ∪ ks)) as (s2 & E2 & L2); try done.
  { unfold version. cbn. rewrite <- Hv. pose proof (f_equal File.version (pg_same _ _ _ _ _ _ _ _ _ _ Hp)) as Q. exact Q. }
  { apply L1. }
  cbn [e_file] in E2. rewrite (pbind_run _ _ _ _ _ E2) in E. cbn [negb andb] in E.
  run (for_commits_run commits s2 _) in E as s3 K3. run (runs_ret s3 tt) in E as s4 K4.
  assert (still s2 s4) as K by (by eapply still_trans). pose proof (leaves_still ns nm _ _ _ _ K (proj2 (proj2 (proj2 L2)))) as L4.
  destruct (unlockFile_run w Hnet ns nm Hname (final d N g) s4 _ ks (entry_named ns nm _ He) (proj2 (proj2 (proj2 L4))) Hni) as (s5 & E5 & L5).
  rewrite (pbind_run _ _ _ _ _ E5) in E. apply pret_inv in E as [_ ->].
  eapply leaves_trans; [exact L1|]. eapply leaves_trans; [exact L2|]. by eapply leaves_trans.
Qed.

(** ** [writeFile] *)

(** The file as the caller hands it over: a version of [d] that fits into [N] stripes. *)
Record upload (f : File.t) : Prop := {
  ul_named : named ns nm (with_namespace cfg f);
  ul_class : (if bool_decide (File.storageClass f = "") then defaultStorageClass cfg else File.storageClass f) = sc;
  ul_data : File.data f = Some d;
  ul_bytes : Forall byte d;
  ul_size : File.size f = total /\ File.length f = total /\ File.offset f = 0 /\ File.numStripes f = 0;
  ul_total : 0 < total < 9223372036854775808;
  ul_count : (Z.of_nat N - 1) * max < total <= Z.of_nat N * max;
  ul_chunks : Z.of_nat (N * n) < 2147483648;
  ul_times : in_long (File.ctime f) /\ in_long (File.atime f) /\ in_long (File.mtime f) /\ in_long (File.tctime f)
}.

Notation norm := (with_defaults cfg).

Lemma norm_fields f : upload f ->
  named ns nm (norm f) /\ File.storageClass (norm f) = sc /\ File.data (norm f) = Some d /\ File.size (norm f) = total /\
  File.length (norm f) = total /\ File.offset (norm f) = 0 /\ File.numStripes (norm f) = 0 /\
  in_long (File.ctime (norm f)) /\ in_long (File.atime (norm f)) /\ in_long (File.mtime (norm f)) /\ in_long (File.tctime (norm f)).
Proof using.
  intros [Hn Hc Hd _ (Q1 & Q2 & Q3 & Q4) _ _ _ Ht]. unfold with_defaults, with_namespace, named in *.
  destruct (File.namespaceId f =? INVALID_NAMESPACE_ID); cbn in *; destruct (bool_decide_reflect (File.storageClass f = ""));
    cbn; split_and!; try done; try apply Hn; try apply Ht.
Qed.

(** The new version before its stripes are written. *)
Notation base f := (set_data (prepared_stripe sc cls (norm f) File.reset) (File.data (prepared_file sc cls (norm f)))).
Definition stamped (f : File.t) (ct mt at_ tt : Z) : File.t := File.setTimeStamps (File.setVersion (base f) 0) ct mt at_ tt.
Definition initial (f : File.t) (v ct mt at_ tt : Z) : File.t :=
  File.set_policy (File.setVersion (stamped f ct mt at_ tt) v) (File.codingMeta (stamped f ct mt at_ tt)) sc.

Lemma initial_new f v ct mt at_ tt : upload f -> new_file rs sc cls (prepared_file sc cls (norm f)) (initial f v ct mt at_ tt) nm d N.
Proof using.
  intros Hu. destruct (norm_fields f Hu) as ([Hn _] & Hsc & Hd & Hs & Hl & Ho & Hns & _). destruct Hu. constructor; try done.
  - lia.
  - cbn. by rewrite Hn.
Qed.

Lemma initial_ns f v ct mt at_ tt : upload f -> File.namespaceId (initial f v ct mt at_ tt) = ns.
Proof using. intros Hu. destruct (norm_fields f Hu) as ([_ Hns] & _). by rewrite <- Hns. Qed.

Lemma initial_fresh s f v ct mt at_ tt : upload f -> ready rs sc cls s -> 0 <= v < 2147483648 -> in_int (CodingMeta.f cm) -> free_of NUL sc ->
  in_long ct -> in_long mt -> in_long at_ -> in_long tt -> fresh ns nm (initial f v ct mt at_ tt).
Proof using Hname.
  intros Hu Hr Hv Hf Hsc Q1 Q2 Q3 Q4. destruct (norm_fields f Hu) as ([_ Hns] & _). constructor; try done.
  destruct (rd_coded _ _ _ _ Hr) as [(Hk & _ & _ & Hn) Es En Ek _ Hc Hm].
  apply Nat2Z.inj_le in Hn. change (Z.of_nat (CODING_MAX_N * CODING_MAX_N)) with 16384 in Hn. unfold meta_ok, in_int in *. cbn. rewrite Es, En, Ek. rewrite Ek in Hm.
  change RS with 0. split_and!; nia.
Qed.

Lemma base_named f : upload f -> named ns nm (base f).
Proof using. intros Hu. destruct (norm_fields f Hu) as ([Hn Hns] & _). by split. Qed.

Lemma stamped_fields f ct mt at_ tt : upload f ->
  File.size (stamped f ct mt at_ tt) = total /\ File.length (stamped f ct mt at_ tt) = total /\
  File.offset (stamped f ct mt at_ tt) = 0 /\ File.data (stamped f ct mt at_ tt) = Some d.
Proof using. intros Hu. by destruct (norm_fields f Hu) as (_ & _ & Hd & Hs & Hl & Ho & _). Qed.

(** The time stamps of the new version. *)
Lemma stamps f (found : bool) (old : File.t) now :
  upload f -> in_long now -> in_long (File.ctime old) ->
  exists ct mt at_ tt, in_long ct /\ in_long mt /\ in_long at_ /\ in_long tt /\
    (if found then File.setTimeStamps (File.setVersion (base f) 0) (File.ctime old) now now 0
     else if File.ctime (prepared_file sc cls (norm f)) =? 0 then File.setTimeStamps (File.setVersion (base f) 0) now now now 0
     else File.setVersion (base f) 0) = stamped f ct mt at_ tt.
Proof using.
  intros Hu Hnow Hold. destruct (norm_fields f Hu) as (_ & _ & _ & _ & _ & _ & _ & Q1 & Q2 & Q3 & Q4).
  assert (in_long 0) by done. destruct found; [by exists (File.ctime old), now, now, 0|].
  destruct (_ =? 0); [by exists now, now, now, 0|].
  by exists (File.ctime (norm f)), (File.mtime (norm f)), (File.atime (norm f)), (File.tctime (norm f)).
Qed.

(** The file whose last version is looked up. *)
Notation before f := (File.copyName File.reset (prepared_file sc cls (norm f))).

Lemma before_fields f : upload f ->
  named ns nm (before f) /\ File.version (before f) = -1 /\ File.uniqueBlocks (before f) = [] /\ File.duplicateBlocks (before f) = [] /\
  in_long (File.ctime (before f)).
Proof using. intros Hu. destruct (norm_fields f Hu) as ([Hn Hns] & _). by split_and!. Qed.

(** The last version that the store knows. *)
Lemma last_version f0 hist :
  Forall (entry_ok ns nm) hist -> File.version f0 = -1 -> in_long (File.ctime f0) ->
  exists found old, match asked (File.version f0) hist with
                    | Some e => (true, MetaTheorems.view f0 (e_file e) (e_ids e) (e_cs e) (e_bad e))
                    | None => (false, f0)
                    end = (found, old) /\ File.version old = current hist /\ in_long (File.ctime old).
Proof using.
  intros Hes Hv Hc. unfold asked. rewrite Hv, Z.eqb_refl. destruct hist as [|e hist]; cbn [head].
  - by exists false, f0.
  - eexists _, _. split; [reflexivity|]. split; [done|]. apply Forall_cons in Hes as [[He _] _]. apply (ok_times _ _ _ _ _ He).
Qed.

(** The lock is taken. *)
Lemma writeFile_locked f s f' s' hist ks :
  upload f -> ready rs sc cls s -> history ns nm s hist ks -> writeFile cfg w f s = Ok ((true, f'), s') ->
  exists s1 arr, leaves ns nm s s1 hist ({[genFileKey ns nm]} ∪ ks) /\ genFileKey ns nm ∉ ks /\ length arr = n /\
    write_version cfg w (prepared_file sc cls (norm f)) (base f) (Some arr) 0 s1 = Ok ((true, f'), s').
Proof using Hnet Hname Hlaws.
  intros Hu Hr Hh E. destruct (norm_fields f Hu) as (_ & Hcl & _ & Hsz & _).
  pose proof (ul_total _ Hu) as Htot. unfold writeFile in E.
  apply pbind_inv in E as (no & s1 & K1%held_runs & E). destruct no; [by apply pret_inv in E as [[=] _]|].
  destruct (prepareWrite_first (norm f) s1) as (arr & Harr & Hpw); [apply (ready_kept _ _ _ _ _ _ (proj1 K1) Hr)|done|lia|].
  run Hpw in E as s2 K2. cbn [negb] in E.
  apply pbind_inv in E as (locked & s3 & Elock & E). destruct locked; cbn [negb] in E; [|by apply pret_inv in E as [[=] _]].
  assert (still s s2) as K12 by (by eapply still_trans). pose proof (leaves_still ns nm _ _ _ _ K12 Hh) as L2.
  apply (lockFile_inv cfg w Hnet ns nm Hname (base f) _ hist ks) in Elock as [L3 Hni]; [|by apply base_named|apply L2].
  exists s3, arr. split_and!; try done. by eapply leaves_trans.
Qed.

(** The last version is known. *)
Lemma write_version_begin f arr s f' s' hist ks :
  upload f -> (forall k, in_long (clock w k)) -> history ns nm s hist ks ->
  write_version cfg w (prepared_file sc cls (norm f)) (base f) (Some arr) 0 s = Ok ((true, f'), s') ->
  exists s1 found old ct mt at_ tt, leaves ns nm s s1 hist ks /\
    File.version old = current hist /\ in_long ct /\ in_long mt /\ in_long at_ /\ in_long tt /\
    let f1 := prepared_file sc cls (norm f) in
    (let& (backend, staged, wf, old, commits) := write_data cfg w f1 (stamped f ct mt at_ tt) old (Some arr) 0 in
     if negb backend && negb staged then
       let& _ := unlockFile w wf in
       let& _ := for_commits abort_scan commits in pret (false, set_data f1 (File.data wf))
     else commit_write cfg w f1 wf old commits staged (found && overwriteFiles cfg)) s1 = Ok ((true, f'), s').
Proof using Hnet Hname Hlaws Hparse.
  intros Hu Hclock Hh E. unfold write_version in E. run (runs_time w s) in E as s4 K4.
  pose proof (leaves_still ns nm _ _ _ _ K4 Hh) as L4.
  destruct (before_fields f Hu) as (B1 & B2 & B3 & B4 & B5).
  destruct (getMeta_run w Hnet ns nm Hname (before f) s4 hist ks) as (s5 & Eg & L5);
    [done|by rewrite B2|done|done|apply L4|].
  rewrite (pbind_run _ _ _ _ _ Eg) in E. clear Eg.
  destruct (last_version (before f) hist) as (found & old1 & Elast & Hv1 & Hc1); [apply Hh|done|done|].
  rewrite Elast in E. cbv beta iota in E.
  destruct (stamps f found old1 (clock w (calls s)) Hu (Hclock _) Hc1) as (ct & mt & at_ & tt & T1 & T2 & T3 & T4 & Est).
  rewrite Est in E. clear Est.
  destruct (stamped_fields f ct mt at_ tt Hu) as (F1 & F2 & F3 & _). rewrite F1, F2, F3, !Z.eqb_refl in E.
  assert (negb true || negb true = false) as Q by reflexivity. rewrite Q in E. cbv iota in E.
  exists s5, found, old1, ct, mt, at_, tt. split; [by eapply leaves_trans|].
  exact (conj Hv1 (conj T1 (conj T2 (conj T3 (conj T4 E))))).
Qed.

Lemma current_bound m hist : represents ns nm m hist -> -1 <= current hist.
Proof using. intros [Hes _]. destruct Hes as [|e hist [_ [_ He]] _]; cbn; lia. Qed.

Lemma writeFile_stores f s f' s' hist ks :
  upload f -> ready rs sc cls s -> ProxyCoordinator._containerToAgentMap (_coordinator s) = agents ->
  (forall k, in_long (clock w k)) -> in_int (CodingMeta.f cm) -> free_of NUL sc ->
  history ns nm s hist ks -> current hist + 1 < 2147483648 -> writeFile cfg w f s = Ok ((true, f'), s') ->
  exists puts ct mt at_ tt g ids cs bad,
    moved puts s s' /\ others ns nm s s' /\
    progress cw rs cls (initial f (current hist + 1) ct mt at_ tt) d N agents N puts g /\
    File.containerIds g = Some ids /\ File.chunks g = Some cs /\ File.chunksCorrupted g = Some bad /\
    history ns nm s' (mk_entry (final d N g) ids cs bad :: hist) ks.
Proof using Hworld Hversioned Hstaging Hsv Hnet Hmd5 Hname Hids Hlaws H0 Hparse.
  intros Hu Hr Hag Hclock Hf Hsc Hh Hcur E. destruct (norm_fields f Hu) as (_ & _ & Hd & _ & Hl & Ho & _).
  pose proof (ul_total _ Hu) as Htot. pose proof (current_bound _ _ (hy_hist _ _ _ _ _ Hh)) as Hc0.
  apply (writeFile_locked f s f' s' hist ks) in E as (s0 & arr & L0 & Hni & Harr & E); try done.
  apply (write_version_begin f arr s0 f' s' hist ({[genFileKey ns nm]} ∪ ks)) in E
    as (s1 & found & old & ct & mt & at_ & tt & L1 & Hv & T1 & T2 & T3 & T4 & E); try done; [|apply L0].
  apply (leaves_trans _ _ _ _ _ _ _ _ _ L0) in L1.
  cbv zeta in E. apply pbind_inv in E as ([[[[backend staged] wf1] old2] commits] & s2 & Ew & E).
  destruct (negb backend && negb staged) eqn:Hok.
  { apply pbind_inv in E as (? & ? & _ & E). apply pbind_inv in E as (? & ? & _ & E). by apply pret_inv in E as [[=] _]. }
  assert (ready rs sc cls s1) as Hr1 by (by eapply ready_moved; [apply L1|]).
  pose proof (initial_new f (i32 (File.version old + 1)) ct mt at_ tt Hu) as Hnew. rewrite Hversioned, andb_false_r in E.
  assert (sc = "" -> defaultStorageClass cfg = "") as Hdef.
  { intros Esc. pose proof (ul_class _ Hu) as Hcl. rewrite Esc in Hcl. case_bool_decide; congruence. }
  assert (ProxyCoordinator._containerToAgentMap (_coordinator s1) = agents) as Hag1 by (by rewrite <- Hag, (proj1 (proj2 L1))).
  assert (Hw := write_data_inv _ _ _ _ _ _ _ _ _ _ _ _ Hnew Hdef Hr1 Hag1 (proj2 (proj2 (proj2 (stamped_fields f ct mt at_ tt Hu)))) eq_refl eq_refl Ho Hl Harr ltac:(lia) Ew Hok).
  destruct Hw as (-> & -> & puts & g & K2 & Hp & ->).
  rewrite Hv, i32_small in Hp, Hnew by lia.
  fold (initial f (current hist + 1) ct mt at_ tt) in Hp.
  destruct (pg_arrays _ _ _ _ _ _ _ _ _ _ Hp) as (ids & cs & Ei & Ec & _). destruct (pg_bad _ _ _ _ _ _ _ _ _ _ Hp) as (bad & Eb & _).
  pose proof (rd_coded _ _ _ _ Hr) as Hcd. destruct (cd_ok _ _ _ Hcd) as [Hk _]. pose proof (cd_k _ _ _ Hcd) as Ek.
  pose proof (cd_chunk _ _ _ Hcd). pose proof (cd_stripe _ _ _ Hcd). assert (0 < max) by nia.
  eapply (commit_write_inv _ (initial f (current hist + 1) ct mt at_ tt) g _ ids cs bad puts _ _ _ _ hist ks) in E as (K3 & _ & Ho3 & Hh3); try done.
  - exists puts, ct, mt, at_, tt, g, ids, cs, bad. split_and!; try done.
    + rewrite <- (app_nil_r puts). change puts with ([] ++ puts). eapply moved_trans; [|exact K3].
      eapply moved_trans; [apply L1|]. by apply kept_moved.
    + eapply unconcerned_trans; [apply L1|]. eapply unconcerned_trans; [by eapply kept_others|done].
  - apply (initial_fresh s); done || lia.
  - lia.
  - lia.
  - by eapply history_kept; [|apply L1].
Qed.
End upload.
End write.
