(* ===== verification/ProxyReads.v ===== *)
(** Reading a file at the proxy: when enough of the containers that the metadata lists
    for every stripe answer, the file is read, whatever the other containers do. *)

From S2P Require Import Prelude DS Wire Isal RSCode RSDecode RSTheorems File ProxyCoordinator CoordinatorTheorems ChunkManager AccessTheorems StripeTheorems.
From S2P Require Import WriteTheorems Redis MetaKeys RedisServer MetaStore MetaTheorems MetaVersions MetaLocks PolicyStore Dedup Staging.
From S2P Require Import Proxy ProxyRead ProxyPolicies ProxyFrame ProxyStripes ProxyWrites.

#[local] Open Scope Z_scope.
#[local] Open Scope outcome_scope.
#[local] Open Scope program_scope.

Import Proxy ProxyRead.

(** * Chunks at the agents *)

Section agents.
Context `{Isal, Md5} (cw : ChunkManager.world) (agents : gmap Z string) (up : Z -> bool).

(** A request for chunk [cid] of version [v] of a file from container [id]. *)
Definition asks (ns uuid v cid id : Z) (g : ChunkEvent.t) : Prop :=
  ChunkEvent.opcode g = GET_CHUNK_REQ /\ request_container g = id /\ Chunk.namespaceId (request_chunk g) = ns /\
  Chunk.fuuid (request_chunk g) = uuid /\ Chunk.chunkId (request_chunk g) = cid /\ Chunk.fileVersion (request_chunk g) = v.

(** The reply has the chunk that was asked for; with checksums its bytes may be wrong,
    as long as the checksum shows it. *)
Definition credible (cid : Z) (b : list Z) (r : ChunkEvent.t) : Prop :=
  ChunkEvent.chunks r <> [] /\ let c := request_chunk r in
  Chunk.chunkId c = cid /\ Chunk.wf c /\ is_Some (Chunk.data c) /\
  (if ChunkManager.verifyChunkChecksum cw then MD5 (Chunk.bytes c) = MD5 b -> Chunk.bytes c = b else Chunk.bytes c = b).

(** The container returns [b], and always does so when it is up. *)
Definition answers (ns uuid v cid : Z) (b : list Z) (id : Z) : Prop :=
  forall g addr, asks ns uuid v cid id g -> agents !! id = Some addr ->
    (forall r, ChunkManager.net cw (ChunkEvent.id g) addr g = Some r -> ChunkEvent.opcode r = GET_CHUNK_REP_SUCCESS -> credible cid b r) /\
    (up id = true -> exists r, ChunkManager.net cw (ChunkEvent.id g) addr g = Some r /\
       ChunkEvent.opcode r = GET_CHUNK_REP_SUCCESS /\ credible cid b r /\ Chunk.bytes (request_chunk r) = b).

(** The agents keep what the request [p] stored. *)
Definition keeps (p : ChunkEvent.t) : Prop :=
  let c := request_chunk p in
  answers (Chunk.namespaceId c) (Chunk.fuuid c) (Chunk.fileVersion c) (Chunk.chunkId c) (Chunk.bytes c) (request_container p).

Lemma answers_none ns u v cid b id : agents !! id = None -> answers ns u v cid b id.
Proof using. intros E g addr _ Ha. by rewrite E in Ha. Qed.

Lemma answers_kept ns u v cid b p : puts_chunk ns u v cid b p -> keeps p -> answers ns u v cid b (request_container p).
Proof using. intros (_ & <- & <- & <- & <- & <-). done. Qed.

(** A reply with the right bytes passes the check. *)
Lemma credible_checked cid b r c :
  ChunkEvent.opcode r = GET_CHUNK_REP_SUCCESS -> credible cid b r -> Chunk.bytes (request_chunk r) = b ->
  Chunk.size c = Z.of_nat (length b) -> Chunk.md5 c = MD5 b ->
  is_Some (ChunkManager.check_reply cw GET_CHUNK_REQ GET_CHUNK_REP_SUCCESS c (Some r)).
Proof using.
  intros Ho (_ & _ & [Hs Hw] & [x Hx] & _) Hb Hsz Hm. unfold ChunkManager.check_reply. rewrite bool_decide_eq_true_2 by done.
  fold (request_chunk r). set (rc := request_chunk r) in *.
  assert (Chunk.size rc = Z.of_nat (length b)) as Es.
  { rewrite <- Hb. unfold Chunk.bytes. rewrite Hx. cbn. rewrite length_take, (Hw _ Hx), Nat.min_id, Z2Nat.id; done. }
  destruct (ChunkManager.verifyChunkChecksum cw); cbn [negb orb].
  - unfold Chunk.verifyMD5. rewrite bool_decide_eq_true_2 by (cbn; rewrite Hm, <- Hb; done).
    rewrite (proj2 (Z.eqb_eq _ _)) by (cbn; congruence). by eexists.
  - rewrite (proj2 (Z.eqb_eq _ _)) by congruence. by eexists.
Qed.
End agents.

(** * One stripe *)

Section read.
Context `{IsalLaws, Md5, UuidPrinterLaws} `{!UuidParser} `{Hparse : !UuidParserLaws} `{!UuidGenerator}.
Context {D R S : Type} `{Hlaws : ServerLaws D, Redis R, StagingArea S}.
#[local] Existing Instance DedupNone.none.
Context (cfg : config) (w : world) (cw : ChunkManager.world) (Hworld : forall n, chunk_world w n = cw).
Context (rs : RSCode.t) (agents : gmap Z string) (up : Z -> bool).
Notation t := (Proxy.t D R S unit).
Implicit Types s : t.
Notation n := (RSCode.n rs).
Notation k := (RSCode.k rs).

(** Every choice of [k] rows can be inverted. *)
Definition decodable : Prop :=
  forall used, ascending used -> Forall (fun x => (x < n)%nat) used -> length used = k -> invertible (rs := rs) used = true.

(** Requests were sent to the agents, and nothing else has changed. *)
Definition fetched s s' : Prop := (exists reqs, kept reqs s s') /\ _coordinator s' = _coordinator s.

Lemma fetched_trans s1 s2 s3 : fetched s1 s2 -> fetched s2 s3 -> fetched s1 s3.
Proof using. intros [[r1 K1] Q1] [[r2 K2] Q2]. split; [eexists; by eapply kept_trans|congruence]. Qed.

Lemma still_fetched s1 s2 : still s1 s2 -> fetched s1 s2.
Proof using. intros [K Q]. split; [by eexists|done]. Qed.

(** The file of one stripe: chunk [x] is chunk [first + x] of the file, and it is where
    the array says. *)
Record stripe_meta (ns u v : Z) (first : nat) (b : list Z) (cs : nat) (f : File.t) : Prop := {
  sm_num : File.numChunks f = Z.of_nat n;
  sm_ids : length (ChunkManager.file_ids f) = n;
  sm_chunks : length (ChunkManager.file_chunks f) = n;
  sm_first : (exists i, first = (i * n)%nat) /\ Z.of_nat (first + n) < 2147483648;
  sm_each : forall x, (x < n)%nat ->
    let c := ChunkManager.file_chunks f !!! x in
    Chunk.namespaceId c = ns /\ Chunk.fuuid c = u /\ Chunk.fileVersion c = v /\ Chunk.chunkId c = Z.of_nat (first + x) /\
    Chunk.size c = Z.of_nat cs /\ Chunk.md5 c = MD5 (chunk_bytes rs b cs x) /\
    answers cw agents up ns u v (Z.of_nat (first + x)) (chunk_bytes rs b cs x) (ChunkManager.file_ids f !!! x)
}.

Section stripe.
Context (ns u v : Z) (first : nat) (b : list Z) (cs : nat) (f : File.t) (m : ChunkManager.t).
Context (Hm : stripe_meta ns u v first b cs f) (Hag : ChunkManager._containerToAgentMap m = agents).
Notation ids := (ChunkManager.file_ids f).
Notation chunks_of := (ChunkManager.file_chunks f).

Lemma meta_stripe_file : stripe_file (rs := rs) (data := b) (cs := cs) f.
Proof using Hm.
  destruct Hm as [Q1 Q2 Q3 [[i Q4] Q5] Q6]. split_and!; try done. intros x Hx c. destruct (Q6 x Hx) as (_ & _ & _ & E4 & E5 & E6 & _).
  split_and!; try done; fold c in E4; rewrite E4; [lia..|].
  rewrite Q4, Nat2Z.inj_add, Nat2Z.inj_mul, Z.add_comm, Z_mod_plus_full. apply Z.mod_small. lia.
Qed.

(** A request of the read and what it is sent to. *)
Lemma meta_request j x : (x < n)%nat ->
  let g := AccessTheorems.request ids chunks_of GET_CHUNK_REQ m j x in
  asks ns u v (Z.of_nat (first + x)) (ids !!! x) g /\
  ChunkManager.send cw m g = match agents !! (ids !!! x) with Some addr => ChunkManager.net cw (ChunkEvent.id g) addr g | None => None end.
Proof using Hm Hag.
  intros Hx g. destruct (sm_each _ _ _ _ _ _ _ Hm x Hx) as (E1 & E2 & E3 & E4 & _). split; [by split_and!|].
  unfold ChunkManager.send. by rewrite Hag.
Qed.

Lemma meta_honest : honest cw (rs := rs) (data := b) (cs := cs) m f.
Proof using Hm Hag.
  intros j x r Hx Hs Ho. destruct (meta_request j x Hx) as [Hasks Hsend]. rewrite Hsend in Hs.
  destruct (sm_each _ _ _ _ _ _ _ Hm x Hx) as (_ & _ & _ & E4 & _ & _ & Ha).
  destruct (agents !! (ids !!! x)) as [addr|] eqn:Ea; [|done].
  destruct (proj1 (Ha _ _ Hasks Ea) r Hs Ho) as [Hne Hcr]. split; [done|]. unfold honest_chunk. by rewrite E4.
Qed.

Lemma meta_goods status : (forall id, up id = true -> is_Some (agents !! id)) ->
  (forall x, (x < n)%nat -> up (ids !!! x) = true -> status !! x = Some true) ->
  (length (filter (fun x => up (ids !!! x) = true) (seq 0 n)) <= length (read_goods cw (rs := rs) m f status))%nat.
Proof using Hm Hag.
  intros Hup Hst. unfold read_goods. etrans; [|apply (goods_count _ _ _ _ _ m (fun x => up (ids !!! x)))].
  - unfold alive_ids. rewrite list_filter_filter. apply Nat.eq_le_incl. f_equal.
    apply filter_iff_in. intros x [_ Hx]%elem_of_seq. split; [|by intros [? _]]. intros Hu. split; [done|].
    intros [Hno _]%list_elem_of_filter. apply Hno, Hst; [lia|done].
  - intros x j [_ [_ Hx]%elem_of_seq]%list_elem_of_filter Hu. destruct (meta_request j x Hx) as [Hasks Hsend]. rewrite Hsend.
    destruct (sm_each _ _ _ _ _ _ _ Hm x Hx) as (_ & _ & _ & _ & E5 & E6 & Ha). destruct (Hup _ Hu) as [addr Ea]. rewrite Ea.
    destruct (proj2 (Ha _ _ Hasks Ea) Hu) as (r & -> & Ho & Hc & Hb). eapply credible_checked; try done.
    rewrite E5. unfold chunk_bytes. by rewrite length_map, length_seq.
Qed.
End stripe.

Lemma read_stripe_runs ns u v first b cs f buf status s :
  coded s (File.codingMeta f) rs -> data_ok rs b cs -> stripe_meta ns u v first b cs f ->
  ProxyCoordinator._containerToAgentMap (_coordinator s) = agents -> (forall id, up id = true -> is_Some (agents !! id)) ->
  length (ChunkManager.local cw) = (n * n)%nat -> decodable -> File.data f = Some buf -> (k * cs <= length buf)%nat ->
  (forall x, (x < n)%nat -> up (ChunkManager.file_ids f !!! x) = true -> status !! x = Some true) ->
  (k <= length (filter (fun x => up (ChunkManager.file_ids f !!! x) = true) (seq 0 n)))%nat ->
  exists s', chunks w (fun cw m => ChunkManager.readFileStripe cw m f status) s =
      Ok ((true, File.set_range f (File.offset f) (Z.of_nat (k * cs)) (Some (take (k * cs) b ++ drop (k * cs) buf))), s') /\
    fetched s s'.
Proof using Hworld H0.
  intros Hc Hd Hm Hag Hup Hloc Hdec Hbuf Hlen Hst Hk. set (m := share (_coordinator s) (_chunkManager s)).
  assert (ChunkManager.read_buffer cw rs f = Some buf) as Erb by (unfold ChunkManager.read_buffer; by rewrite Hbuf).
  destruct (readFileStripe_full cw (cd_ok _ _ _ Hc) Hd m m f status) as (f' & m' & E & Hf & reqs & Haf); try done.
  - by eapply coded_instance.
  - by eapply meta_stripe_file.
  - by eapply meta_honest.
  - by exists buf.
  - pose proof (meta_goods _ _ _ _ _ _ f m Hm Hag status Hup Hst) as Hg. set (gs := read_goods cw m f status) in *.
    rewrite (proj2 (Nat.leb_le _ _)) in E, Hf by lia. cbn [andb] in E, Hf.
    assert (invertible (rs := rs) (map fst (take k gs)) = true) as Hi.
    { assert (map fst (take k gs) `sublist_of` alive_ids rs (ChunkManager.failed_chunks f status)) as Hsub.
      { etrans; [apply (sublist_map_take fst k gs)|apply goods_sublist]. }
      destruct (failed_chunks_ok f status (sm_num _ _ _ _ _ _ _ Hm)) as [Q1 Q2].
      destruct (alive_ok (rs := rs) (failed := ChunkManager.failed_chunks f status)) as [Q3 Q4].
      apply Hdec; [by eapply ascending_sublist| |rewrite length_map, length_take; lia].
      apply Forall_forall. intros x Hx. rewrite Forall_forall in Q4. apply Q4. by eapply elem_of_sublist. }
    rewrite Hi in E, Hf. destruct (Hf eq_refl) as (d & Ed & ->). rewrite Erb in Ed. injection Ed as <-.
    destruct Haf as (A1 & A2 & A3 & A4 & _).
    eexists. split; [unfold chunks, pbind, tick; cbn [_coordinator _chunkManager]; rewrite Hworld; fold m; rewrite E; reflexivity|].
    split; [|done]. exists reqs. by constructor.
Qed.

(** * The stripes of a file *)

Section file.
Context (cls : StorageClass.t) (d : list Z) (N : nat) (ns u v : Z).
Notation cm := (StorageClass._codingMeta cls).
Notation max := (CodingMeta.maxChunkSize cm * CodingMeta.k cm).
Notation total := (Z.of_nat (length d)).
Notation stripe_len := (stripe_len cls d).
Notation stripe_part := (stripe_part cls d).

(** The metadata of the file: the data is in [N] stripes, their chunks are where the
    array says, and of every stripe enough are in containers that are up. *)
Record readable (rf : File.t) (ids : list Z) (cs : list Chunk.t) : Prop := {
  ra_coding : CodingMeta.coding (File.codingMeta rf) = CodingMeta.coding cm /\ CodingMeta.n (File.codingMeta rf) = CodingMeta.n cm /\
    CodingMeta.k (File.codingMeta rf) = CodingMeta.k cm /\ CodingMeta.maxChunkSize (File.codingMeta rf) = CodingMeta.maxChunkSize cm;
  ra_sizes : File.size rf = total /\ File.numStripes rf = Z.of_nat N /\ File.numChunks rf = Z.of_nat (N * n);
  ra_arrays : File.containerIds rf = Some ids /\ File.chunks rf = Some cs /\ length ids = (N * n)%nat /\ length cs = (N * n)%nat;
  ra_used : Forall (fun id => id <> UNUSED_CONTAINER_ID) ids;
  ra_each : forall j, (j < N)%nat -> exists b, data_ok rs b (chunk_size rs (stripe_len j)) /\
    take (Z.to_nat (stripe_len j)) b = stripe_part j /\
    forall x, (x < n)%nat -> let c := cs !!! (j * n + x)%nat in let bytes := chunk_bytes rs b (chunk_size rs (stripe_len j)) x in
      Chunk.namespaceId c = ns /\ Chunk.fuuid c = u /\ Chunk.fileVersion c = v /\ Chunk.chunkId c = Z.of_nat (j * n + x) /\
      Chunk.size c = Z.of_nat (chunk_size rs (stripe_len j)) /\ Chunk.md5 c = MD5 bytes /\
      answers cw agents up ns u v (Z.of_nat (j * n + x)) bytes (ids !!! (j * n + x)%nat);
  ra_enough : forall j, (j < N)%nat -> (k <= length (filter (fun x => up (ids !!! (j * n + x)%nat) = true) (seq 0 n)))%nat
}.

Context (Htotal : 0 < total < 9223372036854775808) (Hcount : (Z.of_nat N - 1) * max < total <= Z.of_nat N * max).
Context (Hchunks : Z.of_nat (N * n) < 2147483648).

Lemma readable_coded s rf ids cs : readable rf ids cs -> coded s cm rs -> coded s (File.codingMeta rf) rs.
Proof. intros [] . destruct ra_coding0 as (Q1 & Q2 & Q3 & Q4). by apply coded_same. Qed.

Lemma stripe_size_eq j : 0 < max < 2147483648 -> (j < N)%nat -> (0 < n)%nat ->
  (if u64 (i32 (Z.of_nat j + 1) * max) <? total then max else u64 (total - u64 (Z.of_nat j * max))) = stripe_len j.
Proof.
  intros Hm Hj Hn. assert (Z.of_nat N <= Z.of_nat (N * n)) by nia. unfold ProxyStripes.stripe_len.
  rewrite (i32_small (Z.of_nat j + 1)), (u64_small (Z.of_nat j * max)), (u64_small (total - _)) by nia.
  rewrite u64_small by nia. destruct (Z.ltb_spec ((Z.of_nat j + 1) * max) total); lia.
Qed.

(** The file of stripe [j]. *)
Lemma stripe_file_of rf ids cs j s :
  readable rf ids cs -> coded s cm rs -> (j < N)%nat ->
  exists srf, runs s (copyFileStripeMeta w rf (Z.of_nat j)) (true, srf) /\ File.size srf = stripe_len j /\
    coded s (File.codingMeta srf) rs /\ File.data srf = None /\ File.numChunks srf = Z.of_nat n /\
    File.containerIds srf = Some (slice (j * n) n ids) /\ File.chunks srf = Some (slice (j * n) n cs).
Proof.
  intros Hra Hc Hj. pose proof (readable_coded s rf ids cs Hra Hc) as Hcr. destruct (cd_ok _ _ _ Hc) as [Hk _].
  pose proof (cd_k _ _ _ Hc). pose proof (cd_chunk _ _ _ Hc). pose proof (cd_stripe _ _ _ Hc).
  destruct Hra as [(Q1 & Q2 & Q3 & Q4) (S1 & S2 & S3) (A1 & A2 & _) _ _ _].
  assert (Z.quot (Z.of_nat (N * n)) (Z.of_nat N) = Z.of_nat n) as Eper.
  { rewrite Nat2Z.inj_mul, Z.mul_comm. apply Z.quot_mul. lia. }
  unfold runs, copyFileStripeMeta. rewrite S1, S2, S3, Eper, A1, A2. rewrite (proj2 (Z.eqb_neq (Z.of_nat N) 0)) by lia.
  run (runs_lift s (Ok tt) _ eq_refl) as s1 K1.
  run (runs_max_stripe w s1 _ rs (coded_kept _ _ _ _ _ (proj1 K1) Hcr)) as s2 K2. rewrite Q3, Q4, stripe_size_eq by (done || nia).
  eexists. split; [exists s2; split; [reflexivity|by eapply still_trans]|]. split; [done|]. split; [|split_and!; try done].
  - eapply coded_same; [..|exact Hcr]; done.
  - cbn. by rewrite <- Nat2Z.inj_mul, !Nat2Z.id.
  - cbn. by rewrite <- Nat2Z.inj_mul, !Nat2Z.id.
Qed.

Lemma stripe_meta_of rf ids cs j srf :
  readable rf ids cs -> (j < N)%nat -> (0 < n)%nat -> File.numChunks srf = Z.of_nat n ->
  File.containerIds srf = Some (slice (j * n) n ids) -> File.chunks srf = Some (slice (j * n) n cs) ->
  exists b, data_ok rs b (chunk_size rs (stripe_len j)) /\ take (Z.to_nat (stripe_len j)) b = stripe_part j /\
    forall o l x, stripe_meta ns u v (j * n) b (chunk_size rs (stripe_len j)) (File.set_range srf o l x).
Proof.
  intros Hra Hj Hn En Ei Ec. destruct (ra_each _ _ _ Hra j Hj) as (b & Hd & Ht & Hx). exists b. split; [done|]. split; [done|].
  destruct (ra_arrays _ _ _ Hra) as (_ & _ & Li & Lc). assert (j * n + n <= N * n)%nat as Hb by nia.
  assert (forall o l x, ChunkManager.file_ids (File.set_range srf o l x) = slice (j * n) n ids) as Q1.
  { intros o l x. unfold ChunkManager.file_ids. cbn. by rewrite Ei. }
  assert (forall o l x, ChunkManager.file_chunks (File.set_range srf o l x) = slice (j * n) n cs) as Q2.
  { intros o l x. unfold ChunkManager.file_chunks. cbn. by rewrite Ec. }
  intros o l x. constructor; [done|rewrite Q1; apply length_slice; lia|rewrite Q2; apply length_slice; lia|split; [by exists j|nia]|].
  intros y Hy. rewrite Q1, Q2. rewrite !(list_lookup_total_alt (slice _ _ _)), !lookup_slice, <- !list_lookup_total_alt by done. by apply Hx.
Qed.

(** The buffer for a stripe that is not read in place. *)
Lemma stripe_buffer_runs actual tmp s : memory w -> 0 <= actual ->
  exists l, runs s (stripe_buffer w max actual tmp) (Some l) /\ (Z.to_nat actual <= length l)%nat.
Proof.
  intros Hm Ha. unfold stripe_buffer. set (c := _ || _).
  destruct c eqn:Ec.
  - eexists. split; [eapply runs_bind; [by apply runs_calloc|]; intros s' _; apply runs_ret|].
    rewrite length_inserts, length_replicate. lia.
  - unfold c in Ec. apply orb_false_iff in Ec as [[Et Hl]%orb_false_iff _]. apply bool_decide_eq_false in Et.
    apply Z.ltb_ge in Hl. destruct tmp as [l|]; [|done]. cbn in Hl.
    eexists. split; [eapply runs_bind; [apply runs_ret|]; intros s' _; apply runs_ret|]. rewrite length_inserts. lia.
Qed.

(** The data of a stripe in its place. *)
Definition placed (j : nat) (buf : list Z) : list Z :=
  take (Z.to_nat (Z.of_nat j * max)) buf ++ stripe_part j ++ drop (Z.to_nat (Z.of_nat j * max) + Z.to_nat (stripe_len j)) buf.

Context (Hup : forall id, up id = true -> is_Some (agents !! id)) (Hloc : length (ChunkManager.local cw) = (n * n)%nat).
Context (Hdec : decodable) (Hmem : memory w) (Hmax : 0 < max < 2147483648).

Lemma part_length j : (j < N)%nat -> length (stripe_part j) = Z.to_nat (stripe_len j) /\ 0 < stripe_len j <= max /\
  Z.of_nat j * max + stripe_len j <= total.
Proof.
  intros Hj. assert (0 < stripe_len j <= max /\ Z.of_nat j * max + stripe_len j <= total) as [Q1 Q2] by (unfold ProxyStripes.stripe_len; nia).
  split; [|done]. unfold ProxyStripes.stripe_part. apply length_slice. lia.
Qed.

(** The size of a decoded stripe. *)
Lemma decoded_size j : (j < N)%nat -> CodingMeta.k cm = Z.of_nat k -> (0 < k)%nat ->
  (Z.to_nat (stripe_len j) <= k * chunk_size rs (stripe_len j))%nat /\ Z.of_nat (k * chunk_size rs (stripe_len j)) <= max /\
  (stripe_len j = max -> Z.of_nat (k * chunk_size rs (stripe_len j)) = max).
Proof.
  intros Hj Ek Hk. destruct (part_length j Hj) as (_ & Hl & _). destruct (chunk_size_bounds rs (stripe_len j)) as [_ Hb]; [lia..|].
  assert (chunk_size rs max = Z.to_nat (CodingMeta.maxChunkSize cm)) as Em by (rewrite Ek; apply chunk_size_mul; lia).
  assert (chunk_size rs (stripe_len j) <= chunk_size rs max)%nat as Hle.
  { unfold chunk_size. apply Z2Nat.inj_le; try (apply Z.div_pos; lia). apply Z.div_le_mono; lia. }
  split; [lia|]. split; [rewrite Em in Hle; rewrite Ek; nia|]. intros ->. rewrite Em, Ek. nia.
Qed.

Lemma copy_placed j b cs l buf :
  (j < N)%nat -> (Z.to_nat (stripe_len j) <= k * cs <= length b)%nat -> take (Z.to_nat (stripe_len j)) b = stripe_part j ->
  (length d <= length buf)%nat ->
  copy_bytes buf (Z.of_nat j * max) (take (k * cs) b ++ drop (k * cs) l) 0 (stripe_len j) = Ok (placed j buf).
Proof.
  intros Hj Hl Ht Hlen. destruct (part_length j Hj) as (Hpl & Hsl & Hend). unfold copy_bytes.
  rewrite (proj2 (Z.leb_le 0 (Z.of_nat j * max))) by nia. change (0 <=? 0) with true. cbn [andb access obind].
  change (Z.to_nat 0) with 0%nat.
  rewrite block_read_in by (rewrite length_app, length_take; lia). cbn [access obind]. rewrite block_read_in by lia. cbn [access obind].
  assert (slice 0 (Z.to_nat (stripe_len j)) (take (k * cs) b ++ drop (k * cs) l) = stripe_part j) as ->.
  { unfold slice. rewrite drop_0, take_app_le by (rewrite length_take; lia). rewrite take_take, Nat.min_l by lia. done. }
  rewrite list_inserts_splice by lia. by rewrite Hpl.
Qed.

(** Stripe [j] into the buffer, in place or through a buffer of its own. *)
Lemma read_into_ok rf srf j b useTemp st s :
  let cs := chunk_size rs (stripe_len j) in
  (j < N)%nat -> coded s cm rs -> coded s (File.codingMeta srf) rs -> data_ok rs b cs -> take (Z.to_nat (stripe_len j)) b = stripe_part j ->
  (forall o l x, stripe_meta ns u v (j * n) b cs (File.set_range srf o l x)) -> File.size srf = stripe_len j ->
  ProxyCoordinator._containerToAgentMap (_coordinator s) = agents ->
  r_valid st = true -> (length d <= length (r_buf st))%nat -> (useTemp = false -> stripe_len j = max) ->
  (forall x, (x < n)%nat -> up (ChunkManager.file_ids srf !!! x) = true -> r_status st !! x = Some true) ->
  (k <= length (filter (fun x => up (ChunkManager.file_ids srf !!! x) = true) (seq 0 n)))%nat ->
  exists st' s', read_into w rf max srf useTemp (Z.of_nat (k * cs)) (Z.of_nat j * max) st s = Ok ((true, st'), s') /\ fetched s s' /\
    r_buf st' = placed j (r_buf st) /\ r_valid st' = true /\ r_status st' = r_status st.
Proof.
  intros cs Hj Hcm Hc Hd Ht Hm Esz Hag Hv Hlen Halign Hst Hk. destruct (cd_ok _ _ _ Hcm) as [Hk0 _]. pose proof (cd_k _ _ _ Hcm) as Ek.
  destruct (part_length j Hj) as (Hpl & Hsl & Hend). destruct (decoded_size j Hj Ek ltac:(lia)) as (Hds & Hdm & Hda). fold cs in Hds, Hdm, Hda.
  pose proof Hd as (_ & _ & _ & Hlb & _). unfold read_into. destruct useTemp.
  - destruct (stripe_buffer_runs (Z.of_nat (k * cs)) (r_tmp st) s Hmem ltac:(lia)) as (l & Hrun & Hll). run Hrun as s1 K1.
    rewrite Nat2Z.id in Hll.
    destruct (read_stripe_runs ns u v (j * n) b cs (set_data srf (Some l)) l (r_status st) s1) as (s2 & E2 & F2); try done.
    { by eapply coded_kept; [apply K1|]. }
    { apply Hm. }
    { by rewrite (proj2 K1). }
    rewrite (pbind_run _ _ _ _ _ E2). cbn [File.data File.size File.set_range set_data default id]. cbv beta iota zeta.
    rewrite Esz, Hv, (copy_placed j) by (done || lia). cbn [access obind].
    run (runs_lift s2 (Ok (placed j (r_buf st))) _ eq_refl) as s3 K3.
    eexists _, s3. split; [reflexivity|]. split; [|done]. apply (fetched_trans s s1); [by apply still_fetched|].
    apply (fetched_trans s1 s2); [done|by apply still_fetched].
  - specialize (Halign eq_refl). rewrite Hv, (proj2 (Z.leb_le 0 _)), (proj2 (Z.leb_le _ _)) by nia. cbn [andb access].
    run (runs_lift s (Ok tt) _ eq_refl) as s1 K1. set (rest := drop (Z.to_nat (Z.of_nat j * max)) (r_buf st)).
    destruct (read_stripe_runs ns u v (j * n) b cs (set_data srf (Some rest)) rest (r_status st) s1) as (s2 & E2 & F2); try done.
    { by eapply coded_kept; [apply K1|]. }
    { apply Hm. }
    { by rewrite (proj2 K1). }
    { unfold rest. rewrite length_drop. lia. }
    rewrite (pbind_run _ _ _ _ _ E2). cbn [File.data File.set_range default id]. cbv beta iota.
    eexists _, s2. split; [reflexivity|]. split; [by eapply fetched_trans; [apply still_fetched|]|]. cbn [r_buf r_valid r_status].
    split; [|done]. unfold placed. f_equal. rewrite <- Ht, Halign. f_equal; [f_equal; lia|].
    unfold rest. rewrite drop_drop. f_equal. lia.
Qed.

(** What a read needs from the coordinator. *)
Record reachable s : Prop := {
  rc_map : ProxyCoordinator._containerToAgentMap (_coordinator s) = agents;
  rc_recent : recent w s;
  rc_online : forall id, up id = true -> online (_coordinator s) id = true
}.

Lemma reachable_fetched s s' : fetched s s' -> reachable s -> reachable s'.
Proof. intros [_ Q] []. constructor; unfold recent in *; by rewrite Q. Qed.

Lemma unaligned_end j : (j < N)%nat -> (0 < n)%nat ->
  (i32 (Z.of_nat j + 1) =? Z.of_nat N) && negb (total mod max =? 0) = false -> stripe_len j = max.
Proof.
  intros Hj Hn E. assert (Z.of_nat N <= Z.of_nat (N * n)) by nia. rewrite i32_small in E by lia. unfold ProxyStripes.stripe_len.
  apply andb_false_iff in E as [E%Z.eqb_neq|E]; [nia|]. apply negb_false_iff, Z.eqb_eq in E.
  pose proof (Z.div_mod total max ltac:(lia)) as Hdm. rewrite E, Z.add_0_r in Hdm.
  set (q := total / max) in *. clearbody q. assert (Z.of_nat j + 1 <= q) as Hq by (clear - Hdm Hcount Hmax Hj; nia). clear - Hdm Hmax Hq. nia.
Qed.

Lemma read_one_stripe_ok f rf ids cs pre j st s :
  readable rf ids cs -> coded s cm rs -> reachable s -> (j < N)%nat -> File.offset f = 0 ->
  r_valid st = true -> (length d <= length (r_buf st))%nat -> length (r_status st) = n ->
  exists st' s', read_one_stripe w f rf max pre (Z.of_nat j) st s = Ok ((true, st'), s') /\ fetched s s' /\
    r_buf st' = placed j (r_buf st) /\ r_valid st' = true /\ length (r_status st') = n.
Proof.
  intros Hra Hc [Hag Hrec Hon] Hj Eo Hv Hlen Hls. destruct (cd_ok _ _ _ Hc) as [Hk _]. pose proof (cd_k _ _ _ Hc) as Ek.
  destruct (stripe_file_of rf ids cs j s Hra Hc Hj) as (srf & Hrun & Esz & Hcs & Ed & En & Ei & Ech).
  destruct (stripe_meta_of rf ids cs j srf Hra Hj ltac:(lia) En Ei Ech) as (b & Hd & Ht & Hm).
  unfold read_one_stripe. run Hrun as s1 K1. cbv zeta. set (srf1 := File.set_range srf 0 (File.size srf) (File.data srf)).
  assert (ChunkManager.file_ids srf1 = slice (j * n) n ids) as Eids by (unfold ChunkManager.file_ids; cbn; by rewrite Ei).
  destruct (ra_arrays _ _ _ Hra) as (_ & _ & Li & Lc). assert (j * n + n <= N * n)%nat as Hb by nia.
  assert (default [] (File.chunks srf1) !! 0%nat = Some (ChunkManager.file_chunks srf1 !!! 0%nat)) as E0.
  { apply lookup_total_lt. cbn. rewrite Ech. cbn. rewrite length_slice; lia. }
  destruct (sm_each _ _ _ _ _ _ _ (Hm 0 (File.size srf) (File.data srf)) 0%nat ltac:(lia)) as (_ & _ & _ & _ & Ez & _).
  fold srf1 in Ez. rewrite E0. cbn [access].
  run (runs_lift s1 (Ok _) _ eq_refl) as s2 K2. rewrite Ez. destruct Hd as (Hpos & Hd). rewrite (proj2 (Z.eqb_neq _ 0)) by lia.
  assert (still s s2) as K12 by (by eapply still_trans).
  assert (take (Z.to_nat (File.numChunks srf1)) (default [] (File.containerIds srf1)) = slice (j * n) n ids) as ->.
  { cbn. rewrite En, Ei, Nat2Z.id. cbn. apply take_ge. rewrite length_slice; lia. }
  destruct (runs_liveness w s2 (slice (j * n) n ids) (r_status st)) as (num & status & Hlv & Hlst & Hst).
  { unfold recent. by rewrite (proj2 K12). }
  { rewrite length_slice; lia. }
  { unfold slice. apply Forall_take, Forall_drop, (ra_used _ _ _ Hra). }
  run Hlv as s3 K3. assert (still s s3) as K13 by (by eapply still_trans).
  change (File.size srf1) with (File.size srf). rewrite Esz.
  destruct (part_length j Hj) as (_ & Hsl & _). destruct (ra_coding _ _ _ Hra) as (_ & _ & Q3 & Q4).
  run (runs_stripe_size w s3 (File.codingMeta rf) rs (stripe_len j) ltac:(by eapply coded_kept; [apply K13|by eapply readable_coded]) ltac:(rewrite Q3, Q4; lia)) as s4 K4.
  destruct (ra_sizes _ _ _ Hra) as (S1 & S2 & _). rewrite S1, S2, Eo, Z.sub_0_r, u64_small by nia.
  destruct (decoded_size j Hj Ek ltac:(lia)) as (_ & Hdm & _). rewrite (proj2 (Z.ltb_ge max _)), orb_false_r by lia.
  assert (still s s4) as K14 by (by eapply still_trans).
  destruct (read_into_ok rf srf1 j b ((i32 (Z.of_nat j + 1) =? Z.of_nat N) && negb (total mod max =? 0))
    (mk_read (r_buf st) (r_valid st) (r_tmp st) status (r_bytes st)) s4) as (st' & s5 & E5 & F5 & R1 & R2 & R3); try done.
  - by eapply coded_kept; [apply K14|].
  - by eapply coded_kept; [apply K14|].
  - rewrite (proj2 K14). exact Hag.
  - intros E. by apply unaligned_end; [|lia|].
  - intros x Hx Hux. rewrite Eids in Hux. cbn [r_status]. rewrite length_slice in Hlst, Hst by lia.
    rewrite (lookup_total_lt status) by lia. rewrite Hst by done. f_equal. rewrite (proj2 K12). by apply Hon.
  - rewrite Eids. etrans; [exact (ra_enough _ _ _ Hra j Hj)|]. apply Nat.eq_le_incl. f_equal. apply filter_iff_in.
    intros x [_ Hx]%elem_of_seq. rewrite (list_lookup_total_alt (slice _ _ _)), lookup_slice, <- list_lookup_total_alt by lia. done.
  - exists st', s5. split; [exact E5|]. split; [by eapply fetched_trans; [apply still_fetched|]|]. split_and!; try done.
    rewrite R3. cbn. rewrite Hlst, length_slice; lia.
Qed.

(** The first [i] stripes are in the buffer that was [buf0]. *)
Definition filled_to (i : nat) (buf0 buf : list Z) : Prop :=
  length buf = length buf0 /\ drop (length d) buf = drop (length d) buf0 /\
  let len := Z.to_nat (Z.min (Z.of_nat i * max) total) in take len buf = take len d.

Lemma filled_next j buf0 buf : (j < N)%nat -> (length d <= length buf0)%nat ->
  filled_to j buf0 buf -> filled_to (Datatypes.S j) buf0 (placed j buf).
Proof.
  intros Hj Hl (Q1 & Q2 & Q3). destruct (part_length j Hj) as (Hpl & Hsl & Hend).
  set (a := Z.to_nat (Z.of_nat j * max)). set (len := Z.to_nat (stripe_len j)) in *.
  assert (Z.to_nat (Z.min (Z.of_nat j * max) total) = a) as Ea by (unfold a; f_equal; lia).
  assert (Z.to_nat (Z.min (Z.of_nat (Datatypes.S j) * max) total) = (a + len)%nat) as En.
  { unfold a, len, ProxyStripes.stripe_len in *. rewrite Nat2Z.inj_succ. nia. }
  assert (a + len <= length d)%nat as Hb by (unfold a, len; lia). rewrite Ea in Q3.
  assert (length (take a buf ++ stripe_part j) = (a + len)%nat) as Hlt by (rewrite length_app, length_take, Hpl; lia).
  unfold filled_to, placed. fold a len. cbv zeta. rewrite En, app_assoc. split_and!.
  - rewrite length_app, Hlt, length_drop. lia.
  - rewrite drop_app_ge, Hlt, drop_drop by lia. rewrite <- Q2. f_equal. lia.
  - rewrite take_app_length' by done. rewrite Q3. unfold ProxyStripes.stripe_part. fold a len. unfold slice. by rewrite take_take_drop.
Qed.

Lemma read_stripes_ok f rf ids cs pre buf0 m i st s :
  (i + m = N)%nat -> readable rf ids cs -> coded s cm rs -> reachable s -> File.offset f = 0 -> (length d <= length buf0)%nat ->
  filled_to i buf0 (r_buf st) -> r_valid st = true -> length (r_status st) = n ->
  exists st' s', read_stripes w f rf max pre (map Z.of_nat (seq i m)) st s = Ok ((true, st'), s') /\ fetched s s' /\
    filled_to N buf0 (r_buf st') /\ r_valid st' = true.
Proof.
  revert i st s. induction m as [|m IH]; intros i st s Him Hra Hc Hre Eo Hl Hf Hv Hst; cbn [seq map read_stripes].
  - exists st, s. replace N with i by lia. split; [done|]. split; [apply still_fetched, still_refl|done].
  - destruct (read_one_stripe_ok f rf ids cs pre i st s) as (st1 & s1 & E1 & F1 & R1 & R2 & R3); try done; [lia|by rewrite (proj1 Hf)|].
    rewrite (pbind_run _ _ _ _ _ E1).
    destruct (IH (Datatypes.S i) st1 s1) as (st2 & s2 & E2 & F2 & Hr2); try done; [lia| | | |].
    + destruct F1 as [[reqs K] _]. by eapply coded_kept.
    + by eapply reachable_fetched.
    + rewrite R1. apply filled_next; [lia|done|done].
    + exists st2, s2. split; [exact E2|]. split; [by eapply fetched_trans|done].
Qed.

Lemma filled_all buf0 buf : (length d <= length buf0)%nat -> filled_to N buf0 buf -> buf = d ++ drop (length d) buf0.
Proof.
  intros Hl (Q1 & Q2 & Q3). cbv zeta in Q3. rewrite Z.min_r, Nat2Z.id in Q3 by lia.
  rewrite <- (take_drop (length d) buf), Q2, Q3. f_equal. by apply take_ge.
Qed.

(** ** [readFile] *)

Context (nm : string) (Hname : name_ok ns nm) (Hnet : answered (meta_link w)) (Hstaging : stagingEnabled cfg = false).

Lemma updateTimestamps_run rf s : named ns nm rf -> pending (_metastore s) = [] ->
  exists ok ms, meta (updateTimestamps (meta_link w) rf) s = Ok (ok, with_meta ms s) /\ pending ms = [].
Proof.
  intros Hf Hp. unfold updateTimestamps.
  destruct (command_det (meta_link w) Hnet (HMSET (genFileKey ns nm) [("atime", raw_long (File.atime rf));
    ("mtime", raw_long (File.mtime rf)); ("tctime", raw_long (File.tctime rf))]) (_metastore s) eq_refl Hp) as (ms & E & _ & Hp').
  eexists _, ms. split; [|done]. apply meta_run. unfold bind, lift. rewrite (file_key_ok ns nm Hname rf Hf). cbn [obind]. rewrite E. reflexivity.
Qed.

(** A read that is done: the data, the size, and the state. *)
Definition read_result (s : t) (buf : list Z) (g : File.t) (s' : t) : Prop :=
  File.data g = Some (d ++ drop (length d) buf) /\ File.size g = total /\
  (exists reqs, moved reqs s s') /\ _coordinator s' = _coordinator s /\ pending (_metastore s') = [].

Lemma read_backend_ok f rf ids cs pre buf s :
  readable rf ids cs -> coded s cm rs -> reachable s -> named ns nm rf -> pending (_metastore s) = [] ->
  File.offset f = 0 -> (length d <= length buf)%nat ->
  exists g s', read_backend w f rf false pre max (mk_external [] [] ∅) buf s = Ok ((true, g), s') /\ read_result s buf g s'.
Proof.
  intros Hra Hc Hre Hnd Hp Eo Hl. destruct (cd_ok _ _ _ Hc) as [Hk _]. destruct (ra_sizes _ _ _ Hra) as (S1 & S2 & S3).
  unfold read_backend. cbn [stripes map read_externals]. run (runs_ret s (true, buf, 0)) as s1 K1. cbn [negb].
  rewrite S1, S2, S3. assert (Z.quot (Z.of_nat (N * n)) (Z.of_nat N) = Z.of_nat n) as ->.
  { rewrite Nat2Z.inj_mul, Z.mul_comm. apply Z.quot_mul. lia. }
  rewrite Nat2Z.id. destruct (runs_flags w s1 n) as (status & Hrun & Hls). run Hrun as s2 K2. cbn [andb].
  assert (still s s2) as K12 by (by eapply still_trans). rewrite Z.sub_0_r, seqZ_seq.
  destruct (read_stripes_ok f rf ids cs pre buf N 0 (mk_read buf true None status 0) s2) as (st & s3 & E3 & F3 & Hf & Hv); try done.
  - by eapply coded_kept; [apply K12|].
  - by eapply reachable_fetched; [apply still_fetched|].
  - split_and!; try done. cbv zeta. by rewrite Z.min_l by lia.
  - rewrite (pbind_run _ _ _ _ _ E3). cbn [negb]. rewrite Hv. cbn [orb access]. run (runs_lift s3 (Ok tt) _ eq_refl) as s4 K4.
    assert (fetched s s4) as [[reqs K] Ec].
    { eapply fetched_trans; [by apply still_fetched|]. eapply fetched_trans; [exact F3|by apply still_fetched]. }
    destruct (updateTimestamps_run rf s4 Hnd) as (ok & ms & Eu & Hpm); [by rewrite (kept_meta _ _ _ K)|].
    rewrite (pbind_run _ _ _ _ _ Eu). eexists _, (with_meta ms s4). split; [reflexivity|]. unfold read_result.
    rewrite (filled_all buf _ Hl Hf). split_and!; try done. exists (reqs ++ []). eapply moved_trans; [by apply kept_moved|apply moved_with].
Qed.

(** The caller asks for the whole file, with or without a buffer of its own. *)
Record download s (r : File.t) : Prop := {
  dl_named : named ns nm (with_namespace cfg r);
  dl_version : in_int (File.version r);
  dl_range : (File.offset r = INVALID_FILE_OFFSET \/ File.offset r = 0) /\ (File.length r = INVALID_FILE_LENGTH \/ File.length r = total);
  dl_buffer : forall b, File.data r = Some b -> (length d <= length b)%nat;
  dl_allowed : none_held cfg w s no_read (with_namespace cfg r)
}.

(** The file that is looked up. *)
Definition looked_up (r : File.t) : File.t :=
  File.copyVersionControlInfo (snd (File.copyNameAndSize File.reset (with_namespace cfg r))) (with_namespace cfg r).

Lemma looked_up_fields r : named ns nm (with_namespace cfg r) ->
  named ns nm (looked_up r) /\ File.version (looked_up r) = File.version r /\ File.uniqueBlocks (looked_up r) = [] /\
  File.duplicateBlocks (looked_up r) = [].
Proof. intros [Hn Hns]. split; [by split|]. split_and!; try done. unfold looked_up, with_namespace. by destruct (_ =? _). Qed.

Lemma dl_lookup s r : download s r -> named ns nm (looked_up r).
Proof. intros Hd. apply looked_up_fields, Hd. Qed.

Lemma with_namespace_range r : File.offset (with_namespace cfg r) = File.offset r /\ File.length (with_namespace cfg r) = File.length r /\
  File.data (with_namespace cfg r) = File.data r.
Proof. unfold with_namespace. by destruct (_ =? _). Qed.

Lemma readable_stamped rf ids cs ct mt at_ tt : readable rf ids cs -> readable (File.setTimeStamps rf ct mt at_ tt) ids cs.
Proof. intros []. by constructor. Qed.

(** Without deduplication no block is elsewhere. *)
Lemma sort_runs nsid unique s :
  exists internal, runs s (sortStripesAndBlocks w nsid unique []) (true, internal, mk_external [] [] ∅).
Proof.
  eexists. unfold sortStripesAndBlocks. eapply (runs_bind _ _ _ []).
  - exists s. split; [|apply still_refl]. unfold dedup. cbn. by destruct s.
  - intros s1 _. cbn [length Nat.eqb]. eapply runs_bind; [apply runs_ret|]. intros s2 _. apply runs_ret.
Qed.

Lemma read_staging_off f rf s : runs s (read_staging cfg f rf) (false, f).
Proof.
  unfold read_staging. eapply (runs_bind _ _ _ None); [|intros; apply runs_ret]. exists s. split; [|apply still_refl].
  unfold staging. rewrite Hstaging. cbn. by destruct s.
Qed.

Lemma in_range_first rf : File.uniqueBlocks rf = map (stripe_block cls d) (seq 0 N) -> (0 < N)%nat ->
  exists b l, in_range 0 (u64 (0 + total - 1)) (File.uniqueBlocks rf) = b :: l.
Proof.
  intros -> HN. destruct N as [|m]; [lia|]. cbn [seq map in_range]. unfold in_range. rewrite filter_cons_True; [by eexists _, _|].
  cbn. rewrite u64_small by lia. apply andb_true_iff. split; apply Z.leb_le; lia.
Qed.

Lemma read_containers_ok f rf ids cs s :
  readable rf ids cs -> coded s cm rs -> reachable s -> named ns nm rf -> pending (_metastore s) = [] ->
  File.uniqueBlocks rf = map (stripe_block cls d) (seq 0 N) -> File.duplicateBlocks rf = [] ->
  (File.offset f = INVALID_FILE_OFFSET \/ File.offset f = 0) -> (File.length f = INVALID_FILE_LENGTH \/ File.length f = total) ->
  (forall b, File.data f = Some b -> (length d <= length b)%nat) ->
  exists buf g s', read_containers w f rf false s = Ok ((true, g), s') /\ read_result s buf g s' /\
    if File.data f is Some b then buf = b else length buf = length d.
Proof.
  intros Hra Hc Hre Hnd Hp Eu Edup Ho Hl Hb. destruct (ra_sizes _ _ _ Hra) as (S1 & _ & _). destruct (ra_coding _ _ _ Hra) as (_ & _ & Q3 & Q4).
  unfold read_containers. rewrite S1.
  assert ((if File.offset f =? INVALID_FILE_OFFSET then 0 else File.offset f) = 0) as -> by (destruct Ho as [->| ->]; done).
  assert ((if File.length f =? INVALID_FILE_LENGTH then total else File.length f) = total) as ->.
  { destruct Hl as [->| ->]; [done|]. by destruct (_ =? _). }
  set (f1 := File.set_range f 0 total (File.data f)). cbn [andb].
  pose proof (readable_coded s rf ids cs Hra Hc) as Hcr. run (runs_max_stripe w s _ rs Hcr) as s1 K1. rewrite Q3, Q4.
  rewrite (proj2 (Z.eqb_neq max 0)) by lia. run (runs_lift s1 (Ok tt) _ eq_refl) as s2 K2.
  change (File.offset f1) with 0. change (File.length f1) with total. change (File.data f1) with (File.data f).
  rewrite (proj2 (Z.leb_le 0 _)) by (rewrite u64_small; lia). run (runs_lift s2 (Ok tt) _ eq_refl) as s3 K3.
  assert (0 < N)%nat as HN by nia. destruct (in_range_first rf Eu HN) as (b0 & l0 & ->). rewrite Edup. change (in_range 0 _ []) with (@nil (InObjectLocation * string)).
  destruct (sort_runs (File.namespaceId f1) (b0 :: l0) s3) as (internal & Hs). run Hs as s4 K4. cbn [negb].
  assert (still s s4) as K by (eapply still_trans; [exact K1|]; eapply still_trans; [exact K2|]; by eapply still_trans).
  assert (exists buf s5, still s s5 /\ (length d <= length buf)%nat /\ (if File.data f is Some b then buf = b else length buf = length d) /\
    forall k, pbind (if bool_decide (is_Some (File.data f)) then pret (File.data f) else allocate w (Z.to_nat total)) k s4 = k (Some buf) s5)
    as (buf & s5 & K5 & Hbl & Hbuf & ->).
  { destruct (File.data f) as [b|] eqn:Ed.
    - exists b, s4. split_and!; try done. by apply Hb.
    - destruct (runs_allocate w s4 (Z.to_nat total) Hmem) as (b & (s5 & E5 & K5) & Hbl). exists b, s5. rewrite Nat2Z.id in *.
      split; [by eapply still_trans|]. split; [lia|]. split; [done|]. intros k0. by apply pbind_run. }
  destruct (read_backend_ok f1 rf ids cs (bool_decide (is_Some (File.data f))) buf s5) as (g & s6 & E6 & R1 & R2 & [reqs R3] & R4 & R5); try done.
  - by eapply coded_kept; [apply K5|].
  - by eapply reachable_fetched; [apply still_fetched|].
  - by rewrite (kept_meta _ _ _ (proj1 K5)).
  - exists buf, g, s6. split; [exact E6|]. split; [|done]. split_and!; try done.
    + exists ([] ++ reqs). eapply moved_trans; [apply kept_moved, (proj1 K5)|done].
    + by rewrite R4, (proj2 K5).
Qed.

Lemma view_stamped f0 e ct mt at_ tt : named ns nm f0 ->
  let rf := File.setTimeStamps (MetaTheorems.view f0 (e_file e) (e_ids e) (e_cs e) (e_bad e)) ct mt at_ tt in
  named ns nm rf /\ File.uniqueBlocks rf = File.uniqueBlocks (e_file e) /\ File.duplicateBlocks rf = File.duplicateBlocks (e_file e).
Proof. intros [Hn Hns] rf. by split_and!. Qed.

Lemma readFile_ok r s hist ks e :
  history ns nm s hist ks -> asked (File.version r) hist = Some e -> download s r -> coded s cm rs -> reachable s ->
  readable (MetaTheorems.view (looked_up r) (e_file e) (e_ids e) (e_cs e) (e_bad e)) (e_ids e)
    (default [] (File.chunks (MetaTheorems.view (looked_up r) (e_file e) (e_ids e) (e_cs e) (e_bad e)))) ->
  File.uniqueBlocks (e_file e) = map (stripe_block cls d) (seq 0 N) -> File.duplicateBlocks (e_file e) = [] ->
  exists buf g s', readFile cfg w r false s = Ok ((true, g), s') /\ read_result s buf g s' /\
    if File.data r is Some b then buf = b else length buf = length d.
Proof.
  intros Hh Ha [D1 D2 [D3 D4] D5 D6] Hc Hre Hra Eu Edup. destruct (looked_up_fields r D1) as (L1 & L2 & L3 & L4).
  destruct (with_namespace_range r) as (R1 & R2 & R3).
  unfold readFile. cbv zeta. fold (looked_up r). run (held_none cfg w _ _ s D6) as s1 K1.
  destruct (getMeta_run w Hnet ns nm Hname (looked_up r) s1 hist ks) as (s2 & Eg & Lv); try done; [by rewrite L2|by eapply history_kept; [apply K1|]|].
  rewrite L2, Ha in Eg. rewrite (pbind_run _ _ _ _ _ Eg). cbn [negb].
  set (rf := MetaTheorems.view (looked_up r) _ _ _ _) in *. run (runs_time w s2) as s3 K3.
  set (rf1 := File.setTimeStamps rf _ _ _ _). run (read_staging_off (with_namespace cfg r) rf1 s3) as s4 K4.
  assert (readable rf1 (e_ids e) (default [] (File.chunks rf))) as Hra1 by (by apply readable_stamped).
  destruct (ra_sizes _ _ _ Hra1) as (S1 & S2 & _). rewrite S1, S2, (proj2 (Z.eqb_neq total 0)), (proj2 (Z.eqb_neq (Z.of_nat N) 0)) by nia. cbn [orb].
  assert (still s2 s4) as K24 by (by eapply still_trans).
  assert (moved [] s s4) as Mv.
  { apply (moved_trans [] [] _ s1); [apply kept_moved, K1|]. apply (moved_trans [] [] _ s2); [apply Lv|apply kept_moved, K24]. }
  assert (_coordinator s4 = _coordinator s) as Ec by (by rewrite (proj2 K24), (proj1 (proj2 Lv)), (proj2 K1)).
  destruct (view_stamped (looked_up r) e (File.ctime rf) (File.mtime rf) (clock w (calls s2)) (File.tctime rf) L1) as (V1 & V2 & V3).
  fold rf in V1, V2, V3. fold rf1 in V1, V2, V3. rewrite Eu in V2. rewrite Edup in V3. rewrite <- R3 in D5 |- *. rewrite <- R1 in D3. rewrite <- R2 in D4.
  destruct (read_containers_ok (with_namespace cfg r) rf1 (e_ids e) (default [] (File.chunks rf)) s4 Hra1)
    as (buf & g & s5 & E5 & (Q1 & Q2 & [reqs Q3] & Q4 & Q5) & Hbuf).
  - by eapply moved_coded.
  - destruct Hre. constructor; unfold recent in *; by rewrite Ec.
  - exact V1.
  - destruct Lv as (_ & _ & _ & Hy). rewrite (kept_meta _ _ _ (proj1 K24)). apply Hy.
  - exact V2.
  - exact V3.
  - exact D3.
  - exact D4.
  - exact D5.
  - exists buf, g, s5. split; [exact E5|]. split; [|exact Hbuf]. split; [exact Q1|]. split; [exact Q2|]. split; [|split; [by rewrite Q4|done]].
    exists ([] ++ reqs). by eapply moved_trans.
Qed.
End file.
End read.
