(* ===== verification/ProxyRoundTrip.v ===== *)
(** Writing and reading a file through the whole proxy: the data, the metadata and the
    agents together. *)

From S2P Require Import Prelude DS Wire Isal RSCode RSDecode RSTheorems File ProxyCoordinator CoordinatorTheorems ChunkManager AccessTheorems StripeTheorems.
From S2P Require Import WriteTheorems Redis MetaKeys RedisServer MetaStore MetaTheorems MetaVersions MetaLocks PolicyStore Dedup Staging.
From S2P Require Import Proxy ProxyRead ProxyPolicies ProxyFrame ProxyStripes ProxyWrites ProxyReads.

#[local] Open Scope Z_scope.
#[local] Open Scope outcome_scope.
#[local] Open Scope program_scope.

Import Proxy ProxyRead.

(** The fields of a record that is read back. *)
Lemma view_fields f0 f ids cs bad : cs <> [] ->
  let rf := MetaTheorems.view f0 f ids cs bad in
  File.size rf = File.size f /\ File.numStripes rf = File.numStripes f /\ File.numChunks rf = Z.of_nat (length cs) /\
  File.containerIds rf = Some ids /\ File.chunks rf = Some (imap (fun i c => Chunk.mk (File.namespaceId f0) (File.uuid f) (Z.of_nat i) None
    (Chunk.size c) true (File.version f) "" (Chunk.md5 c)) cs) /\
  CodingMeta.coding (File.codingMeta rf) = CodingMeta.coding (File.codingMeta f) /\
  CodingMeta.n (File.codingMeta rf) = CodingMeta.n (File.codingMeta f) /\ CodingMeta.k (File.codingMeta rf) = CodingMeta.k (File.codingMeta f) /\
  CodingMeta.maxChunkSize (File.codingMeta rf) = CodingMeta.maxChunkSize (File.codingMeta f).
Proof. intros Hcs. by destruct cs. Qed.

Section trip.
Context `{IsalLaws, Md5, UuidPrinterLaws} `{!UuidParser} `{Hparse : !UuidParserLaws} `{!UuidGenerator}.
Context (rs : RSCode.t) (cls : StorageClass.t) (d : list Z) (N : nat) (agents : gmap Z string).
Notation cm := (StorageClass._codingMeta cls).
Notation n := (RSCode.n rs).
Notation k := (RSCode.k rs).
Notation total := (Z.of_nat (length d)).

Lemma final_fields (g wf0 : File.t) : stripped g = stripped wf0 ->
  let f := final d N g in
  File.size f = File.size wf0 /\ File.numStripes f = Z.of_nat N /\ File.uuid f = File.uuid wf0 /\ File.version f = File.version wf0 /\
  File.codingMeta f = File.codingMeta wf0 /\ File.uniqueBlocks f = File.uniqueBlocks g /\ File.duplicateBlocks f = File.duplicateBlocks g.
Proof using.
  intros Hs. pose proof (f_equal File.size Hs) as Q1. pose proof (f_equal File.uuid Hs) as Q2. pose proof (f_equal File.version Hs) as Q3.
  pose proof (f_equal File.codingMeta Hs) as Q4. cbn in *. by split_and!.
Qed.

(** What was written can be read, as long as the agents keep it. *)
Lemma written_readable cw cw' up puts wf0 g ids cs bad f0 :
  progress cw rs cls wf0 d N agents N puts g -> File.containerIds g = Some ids -> File.chunks g = Some cs ->
  params cls (File.codingMeta wf0) = File.codingMeta wf0 -> File.size wf0 = total -> (0 < N * n)%nat ->
  (forall p, p ∈ puts -> acknowledged cw agents p = true -> keeps cw' agents up p) ->
  agents !! INVALID_CONTAINER_ID = None -> agents !! UNUSED_CONTAINER_ID = None -> File.namespaceId f0 = File.namespaceId wf0 ->
  (forall j, (j < N)%nat -> (k <= length (filter (fun x => up (ids !!! (j * n + x)%nat) = true) (seq 0 n)))%nat) ->
  let rf := MetaTheorems.view f0 (final d N g) ids cs bad in
  readable cw' rs agents up cls d N (File.namespaceId wf0) (File.uuid wf0) (File.version wf0) rf ids (default [] (File.chunks rf)).
Proof using.
  intros Hp Ei Ec Hpar Hsz Hpos Hkeep Hinv Hun Hns Hen rf.
  destruct (pg_arrays _ _ _ _ _ _ _ _ _ _ Hp) as (ids' & cs' & Ei' & Ec' & Li & Lc & _ & Hdone).
  rewrite Ei in Ei'. rewrite Ec in Ec'. injection Ei' as <-. injection Ec' as <-.
  destruct (final_fields g wf0 (pg_same _ _ _ _ _ _ _ _ _ _ Hp)) as (F1 & F2 & F3 & F4 & F5 & _).
  assert (cs <> []) as Hne by (intros ->; cbn in Lc; lia).
  destruct (view_fields f0 (final d N g) ids cs bad Hne) as (V1 & V2 & V3 & V4 & V5 & V6 & V7 & V8 & V9). fold rf in V1, V2, V3, V4, V5, V6, V7, V8, V9.
  rewrite F3, F4, Hns in V5. rewrite F5, <- Hpar in V6, V7, V8, V9.
  assert (forall y, (y < N * n)%nat -> exists j x, (j < N)%nat /\ (x < n)%nat /\ y = (j * n + x)%nat) as Hsplit.
  { intros y Hy. exists (y / n)%nat, (y mod n)%nat. pose proof (Nat.div_mod_eq y n). pose proof (Nat.mod_upper_bound y n ltac:(nia)).
    split; [apply Nat.Div0.div_lt_upper_bound; lia|]. split; [done|lia]. }
  constructor.
  - by split_and!.
  - split_and!; [congruence|congruence|rewrite V3; lia].
  - rewrite V5. cbn [default id]. rewrite length_imap. by split_and!.
  - apply Forall_lookup. intros y id Hy Hid. apply lookup_lt_Some in Hy as Hlt. rewrite Li in Hlt.
    destruct (Hsplit y Hlt) as (j & x & Hj & Hx & ->). destruct (Hdone j Hj) as (b & _ & _ & Hb). destruct (Hb x Hx) as (_ & id' & Hid' & Hl).
    rewrite Hy in Hid'. injection Hid' as <-. subst id. destruct Hl as [E|(p & _ & Ha & _ & E)]; [done|].
    unfold acknowledged in Ha. by rewrite E, Hun in Ha.
  - intros j Hj. destruct (Hdone j Hj) as (b & Hd & Ht & Hb). exists b. split; [done|]. split; [done|]. intros x Hx c bytes.
    destruct (Hb x Hx) as ((c' & Hc & Hid & Hcs & Hm) & cid & Hids & Hl).
    assert (c = Chunk.mk (File.namespaceId wf0) (File.uuid wf0) (Z.of_nat (j * n + x)) None (Chunk.size c') true (File.version wf0) "" (Chunk.md5 c')) as ->.
    { unfold c. rewrite V5. cbn [default id]. apply list_lookup_total_correct. by rewrite list_lookup_imap, Hc. }
    cbn. split_and!; try done. rewrite (list_lookup_total_correct _ _ _ Hids).
    destruct Hl as [->|(p & Hin & Ha & Hpc & <-)]; [by apply answers_none|]. eapply answers_kept; [exact Hpc|]. by apply Hkeep.
  - exact Hen.
Qed.
End trip.

Lemma asked_newest v e hist : version e = v -> asked v (e :: hist) = Some e.
Proof.
  intros Hv. unfold asked. destruct (v =? -1); [done|]. unfold find_version. cbn [list_find]. by rewrite decide_True.
Qed.

(** * The round trip *)

Section setup.
Context `{Isal, Md5, UuidPrinter} {D R S : Type} `{Server D}.
Context (cfg : config) (w : world) (cw : ChunkManager.world) (rs : RSCode.t) (agents : gmap Z string).
Implicit Types s : Proxy.t D R S unit.

(** The proxy writes: versions are kept, nothing is staged, the agents answer, the
    connection to the metadata store works, and identifiers fit their types. *)
Record write_setup (sc : string) (cls : StorageClass.t) (ns : Z) (nm : string) : Prop := {
  ws_versioned : overwriteFiles cfg = false;
  ws_staging : stagingEnabled cfg = false;
  ws_world : forall i, chunk_world w i = cw;
  ws_serving : serving w cw;
  ws_net : answered (meta_link w);
  ws_clock : forall i, in_long (clock w i);
  ws_md5 : md5_ok;
  ws_name : name_ok ns nm;
  ws_ids : forall id, is_Some (agents !! id) -> in_int id;
  ws_no_agent : agents !! INVALID_CONTAINER_ID = None /\ agents !! UNUSED_CONTAINER_ID = None;
  ws_class : in_int (CodingMeta.f (StorageClass._codingMeta cls)) /\ free_of NUL sc
}.

(** The proxy reads: there is memory, the coordinator has a recent view of the agents,
    and the containers in [up] are online. *)
Record read_setup (up : Z -> bool) s : Prop := {
  rr_world : forall i, chunk_world w i = cw;
  rr_net : answered (meta_link w);
  rr_memory : memory w;
  rr_local : length (ChunkManager.local cw) = (RSCode.n rs * RSCode.n rs)%nat;
  rr_decodable : decodable rs;
  rr_up : forall id, up id = true -> is_Some (agents !! id);
  rr_recent : recent w s;
  rr_online : forall id, up id = true -> online (_coordinator s) id = true
}.
End setup.

(** For every stripe, the metadata that is read lists enough containers in [up]. *)
Definition enough_up `{Isal, UuidPrinter, UuidParser, UuidGenerator} {D R S : Type} `{Server D} (cfg : config) (w : world)
    (rs : RSCode.t) (N : nat) (up : Z -> bool) (r : File.t) (s : Proxy.t D R S unit) : Prop :=
  forall g s', Proxy.getMeta w (looked_up cfg r) 3 s = Ok ((true, g), s') -> forall j, (j < N)%nat ->
    (RSCode.k rs <= length (filter (fun x => up (ChunkManager.file_ids g !!! (j * RSCode.n rs + x)%nat) = true) (seq 0 (RSCode.n rs))))%nat.

#[local] Existing Instance DedupNone.none.

(** A file that was written is read back, from the containers that are up. *)
Lemma written_is_read `{IsalLaws, Md5, UuidPrinterLaws} `{!UuidParser} `{!UuidParserLaws} `{!UuidGenerator}
    {D R S} `{ServerLaws D, Redis R, StagingArea S} cfg w cw w' cw' rs sc cls ns nm d N agents up
    (s s1 : Proxy.t D R S unit) f f' r hist ks :
  write_setup cfg w cw agents sc cls ns nm -> upload cfg rs sc cls ns nm d N f -> ready rs sc cls s ->
  ProxyCoordinator._containerToAgentMap (_coordinator s) = agents -> history ns nm s hist ks -> current hist + 1 < 2147483648 ->
  writeFile cfg w f s = Ok ((true, f'), s1) ->
  (forall p, p ∈ drop (length (ChunkManager._sent (_chunkManager s))) (ChunkManager._sent (_chunkManager s1)) ->
     acknowledged cw agents p = true -> keeps cw' agents up p) ->
  read_setup w' cw' rs agents up s1 -> download cfg w' d ns nm s1 r -> enough_up cfg w' rs N up r s1 ->
  (File.version r = -1 \/ File.version r = current hist + 1) ->
  (exists e, version e = current hist + 1 /\ history ns nm s1 (e :: hist) ks) /\ others ns nm s s1 /\
  exists g s2, readFile cfg w' r false s1 = Ok ((true, g), s2) /\
    File.data g = Some (d ++ drop (length d) (default [] (File.data r))) /\ File.size g = Z.of_nat (length d).
Proof.
  intros [Q1 Q2 Q3 Q4 Q5 Q6 Q7 Q8 Q9 [Q10 Q11] [Q12 Q13]] Hu Hr Hag Hh Hcur Hw Hkeep [R1 R2 R3 R4 R5 R6 R7 R8] Hdl Hen Hver.
  pose proof (rd_coded _ _ _ _ Hr) as Hc. destruct (cd_ok _ _ _ Hc) as [Hk _]. pose proof (cd_k _ _ _ Hc) as Ek.
  pose proof (cd_chunk _ _ _ Hc) as Hmc. pose proof (cd_stripe _ _ _ Hc) as Hms.
  destruct (writeFile_stores cfg w cw Q3 rs sc cls ns nm d N agents Q1 Q2 Q4 Q5 Q7 Q8 Q9 f s f' s1 hist ks Hu Hr Hag Q6 Q12 Q13 Hh Hcur Hw)
    as (puts & ct & mt & at_ & tt & g & ids & cs & bad & Hmv & Hot & Hpg & Ei & Ec & Eb & Hh1).
  set (wf0 := initial cfg sc cls f (current hist + 1) ct mt at_ tt) in Hpg.
  pose proof (initial_new cfg rs sc cls ns nm d N f (current hist + 1) ct mt at_ tt Hu) as Hnew. fold wf0 in Hnew.
  assert (drop (length (ChunkManager._sent (_chunkManager s))) (ChunkManager._sent (_chunkManager s1)) = puts) as Eputs.
  { pose proof (kept_sent _ _ _ Hmv) as Es. cbn in Es. rewrite Es. apply drop_app_length. }
  rewrite Eputs in Hkeep. pose proof (pg_same _ _ _ _ _ _ _ _ _ _ Hpg) as Hsame. destruct (final_fields d N g wf0 Hsame) as (_ & _ & _ & F4 & _ & F6 & F7).
  destruct (pg_blocks _ _ _ _ _ _ _ _ _ _ Hpg) as [B1 B2].
  split; [by exists (mk_entry (final d N g) ids cs bad)|]. split; [done|].
  destruct (looked_up_fields cfg ns nm r (dl_named _ _ _ _ _ _ _ Hdl)) as ([_ L0] & L1 & L2 & L3).
  assert (asked (File.version r) (mk_entry (final d N g) ids cs bad :: hist) = Some (mk_entry (final d N g) ids cs bad)) as Hask.
  { destruct Hver as [-> | ->]; [done|]. by apply asked_newest. }
  pose proof (initial_ns cfg rs sc cls ns nm d N f (current hist + 1) ct mt at_ tt Hu) as Hns. fold wf0 in Hns.
  destruct (pg_arrays _ _ _ _ _ _ _ _ _ _ Hpg) as (ids' & cs' & Ei' & Ec' & Li & Lc & _). rewrite Ec in Ec'. injection Ec' as <-.
  assert (0 < N * RSCode.n rs)%nat as Hpos by (pose proof (ul_count _ _ _ _ _ _ _ _ _ Hu); pose proof (ul_total _ _ _ _ _ _ _ _ _ Hu); nia).
  assert (cs <> []) as Hne by (intros ->; cbn in Lc; lia).
  assert (forall j, (j < N)%nat -> (RSCode.k rs <= length (filter (fun x => up (ids !!! (j * RSCode.n rs + x)%nat) = true) (seq 0 (RSCode.n rs))))%nat) as Hids.
  { destruct (getMeta_run w' R2 ns nm Q8 (looked_up cfg r) s1 _ ks (dl_lookup _ _ _ _ _ _ _ Hdl) ltac:(rewrite L1; apply Hdl) L2 L3 Hh1) as (s' & Eg & _).
    rewrite L1, Hask in Eg. cbn [e_file e_ids e_cs e_bad] in Eg. specialize (Hen _ _ Eg).
    destruct (view_fields (looked_up cfg r) (final d N g) ids cs bad Hne) as (_ & _ & _ & V4 & _).
    unfold ChunkManager.file_ids in Hen. by rewrite V4 in Hen. }
  pose proof (written_readable rs cls d N agents cw cw' up puts wf0 g ids cs bad (looked_up cfg r) Hpg Ei Ec (nf_params _ _ _ _ _ _ _ _ Hnew)
    (nf_wsize _ _ _ _ _ _ _ _ Hnew) Hpos Hkeep Q10 Q11 ltac:(by rewrite L0, Hns) Hids) as Hra. cbv zeta in Hra. rewrite Hns in Hra.
  assert (reachable w' agents up s1) as Hre.
  { constructor; [|done|done]. pose proof (kept_map _ _ _ Hmv) as Em. cbn in Em. by rewrite Em. }
  destruct (readFile_ok cfg w' cw' R1 rs agents up cls d N ns _ _ (ul_total _ _ _ _ _ _ _ _ _ Hu) (ul_count _ _ _ _ _ _ _ _ _ Hu)
    (ul_chunks _ _ _ _ _ _ _ _ _ Hu) R6 R4 R5 R3 ltac:(nia) nm Q8 R2 Q2 r s1 _ ks _ Hh1 Hask Hdl (moved_coded _ _ _ _ _ Hmv Hc) Hre Hra
    (eq_trans F6 B1) (eq_trans F7 B2)) as (buf & g' & s2 & Er & (D1 & D2 & _) & Hbuf).
  exists g', s2. split; [exact Er|]. split; [|exact D2]. rewrite D1. do 2 f_equal.
  destruct (File.data r) as [b|]; [by subst|]. cbn. rewrite drop_nil. apply drop_ge. lia.
Qed.

(** C1: A file that was written is read back.  After a successful write of a new version of
    a file of any size, the history of the file has the new version on top of all the
    earlier ones, the metadata of other files and the set of locks are as before, and a
    read that asks for the newest version, or for this one by its number, returns the
    bytes that were written.  For this it is enough that for every stripe the code's
    number of data chunks can be fetched from containers that are up, that no agent
    passes off other bytes as a stored chunk without the checksum showing it, and that
    the coding library can invert the rows it selects; all other containers may be
    down, slow to answer or have lost their chunks. *)
Theorem write_read_file `{IsalLaws, Md5, UuidPrinterLaws} `{!UuidParser} `{!UuidParserLaws} `{!UuidGenerator}
    {D R S} `{ServerLaws D, Redis R, StagingArea S} cfg w cw w' cw' rs sc cls ns nm d N agents up
    (s s1 : Proxy.t D R S unit) f f' r hist ks :
  write_setup cfg w cw agents sc cls ns nm -> upload cfg rs sc cls ns nm d N f -> ready rs sc cls s ->
  ProxyCoordinator._containerToAgentMap (_coordinator s) = agents -> history ns nm s hist ks -> current hist + 1 < 2147483648 ->
  writeFile cfg w f s = Ok ((true, f'), s1) ->
  (forall p, p ∈ drop (length (ChunkManager._sent (_chunkManager s))) (ChunkManager._sent (_chunkManager s1)) ->
     acknowledged cw agents p = true -> keeps cw' agents up p) ->
  read_setup w' cw' rs agents up s1 -> download cfg w' d ns nm s1 r -> enough_up cfg w' rs N up r s1 ->
  (File.version r = -1 \/ File.version r = current hist + 1) ->
  (exists e, version e = current hist + 1 /\ history ns nm s1 (e :: hist) ks) /\ others ns nm s s1 /\
  exists g s2, readFile cfg w' r false s1 = Ok ((true, g), s2) /\
    File.data g = Some (d ++ drop (length d) (default [] (File.data r))) /\ File.size g = Z.of_nat (length d).
Proof. apply written_is_read. Qed.
