(* ===== verification/ZmqHandler.v ===== *)
(** The worker of the proxy's client interface ([src/proxy/interfaces/zmq.cc]): one
    request is read, handed to the proxy and answered.

    A request may name a local file that has the data or is to get it.  The worker maps
    that file into memory: reading the mapping reads the file, and what the proxy stores
    in a shared mapping is in the file.  [faults] says which system calls fail during a
    request.  The tasks of the background handler and the load of the machine, which are
    reported as they are, are arguments. *)

From S2P Require Import Prelude DS FileInfo Wire Isal RSCode File Coordinator ProxyCoordinator ChunkManager.
From S2P Require Import Redis MetaKeys RedisServer MetaStore MetaList ImmutablePolicy PolicyStore Dedup Staging ZmqMessages.
From S2P Require Import Proxy ProxyRead ProxyOps.

#[local] Open Scope Z_scope.
#[local] Open Scope outcome_scope.
#[local] Open Scope program_scope.

Module ZmqHandler.
Import Proxy ProxyRead ProxyOps.

Notation files := (gmap string (list Z)).

Record faults := mk_faults {
  stat_fails : bool; open_fails : bool; map_fails : bool; truncate_fails : bool; sync_fails : bool;
  second_truncate_fails : bool;
  unset_size : Z                     (* st_size after a stat that failed *)
}.

(** What is reported as it is. *)
Record reports := mk_reports {
  stripe_n : Z; stripe_k : Z;        (* the default storage class *)
  ongoingRepairs : Z;
  tasks : list (string * Z);
  load : SysInfo.t
}.

(** [ftruncate]. *)
Definition resize (n : nat) (l : list Z) : list Z := take n l ++ replicate (n - length l) 0.

Section handler.
Context `{Isal, Md5, UuidPrinter, UuidParser, UuidGenerator}.
Context {D R S X : Type} `{Server D, Redis R, StagingArea S, Deduplication X}.
Context (cfg : config) (w : world) (malloc : Z -> bool) (rp : reports) (fl : faults).

(** The proxy and the local files. *)
Notation state := (Proxy.t D R S X * files)%type.
Notation P := (program state).

Definition at_proxy {A} (p : program (Proxy.t D R S X) A) : P A := fun s =>
  let* (a, t) := p (fst s) in Ok (a, (t, snd s)).

Definition local_file (path : string) : P (option (list Z)) := fun s => Ok (snd s !! path, s).
Definition set_local (path : string) (d : list Z) : P unit := fun s => Ok (tt, (fst s, <[path := d]> (snd s))).

(** The file of the request: a new one with the name and the namespace. *)
Definition request_file (req : Request.t) : File.t :=
  let r := Request.file req in File.set_ids File.reset (Request.namespaceId r) 0 (Some (Request.name r)).

(** The verdict of the proxy, whether the local file was fine, and the file. *)
Definition verdict : Type := bool * bool * File.t.

(** ** Writing *)

(** [myfile.ctime] is zero as in a new file. *)
Definition write_file_of (req : Request.t) : File.t :=
  let r := Request.file req in
  let f := File.set_size (request_file req) (Request.size r) in
  let f := File.set_range f 0 (File.size f) None in
  File.set_policy f (File.codingMeta f) (Request.storageClass r).

Definition write_cached (path : string) (f : File.t) : P verdict :=
  let& d := local_file path in
  match (if stat_fails fl then None else d) with
  | None => pret (false, false, f)
  | Some d =>
      if Z.of_nat (length d) <? u64 (File.offset f + File.length f) then pret (false, false, f)
      else if 0 <? File.size f then
        if open_fails fl || map_fails fl then pret (false, false, f)
        else
          let& (ok, _) := at_proxy (writeFile cfg w (set_data f (Some (take (Z.to_nat (File.size f)) d)))) in
          pret (ok, true, f)
      else let& (ok, f) := at_proxy (writeFile cfg w f) in pret (ok, true, f)
  end.

Definition on_write (req : Request.t) : P verdict :=
  let r := Request.file req in
  let f := write_file_of req in
  if Request.isCached r then write_cached (Request.cachePath r) f
  else let& (ok, f) := at_proxy (writeFile cfg w (set_data f (Request.data r))) in pret (ok, true, f).

(** ** Reading *)

(** A mapping of no bytes fails. *)
Definition read_cached (path : string) (f : File.t) : P verdict :=
  let& (sz, f) := at_proxy (getFileSize cfg w f false) in
  let f := File.set_size f sz in
  if (sz =? INVALID_FILE_LENGTH) || open_fails fl then pret (false, false, f)
  else
    let& d := local_file path in
    let d := default [] d in
    if truncate_fails fl then let& _ := set_local path d in pret (false, false, f)
    else
      let d := resize (Z.to_nat sz) d in
      let& _ := set_local path d in
      if map_fails fl || (sz =? 0) then pret (false, false, f)
      else
        let& (ok, f) := at_proxy (readFile cfg w (set_data f (Some d)) false) in
        let& _ := set_local path (default d (File.data f)) in
        pret (ok, negb (ok && sync_fails fl), f).

Definition on_read (req : Request.t) : P verdict :=
  let r := Request.file req in
  let f := request_file req in
  let f := File.set_range f 0 (File.length f) None in
  if Request.isCached r then read_cached (Request.cachePath r) f
  else let& (ok, f) := at_proxy (readFile cfg w f false) in pret (ok, true, f).

(** ** Ranges *)

Definition range_file_of (req : Request.t) : File.t :=
  let r := Request.file req in
  File.set_range (File.set_size (request_file req) (Request.size r)) (Request.offset r) (Request.size r) None.

(** An append takes the range out of the local file.  Any other request with a local
    file, an overwrite too, reads the range into it. *)
Definition append_cached (path : string) (f : File.t) : P verdict :=
  let& d := local_file path in
  let have := match (if stat_fails fl then None else d) with Some d => Z.of_nat (length d) | None => unset_size fl end in
  if have <? u64 (File.offset f + File.length f) then pret (false, false, f)
  else match (if open_fails fl then None else d) with
       | None => pret (false, false, f)
       | Some d =>
           if map_fails fl then pret (false, false, f)
           else
             let& part := plift (access (block_read d (Z.to_nat (File.offset f)) (Z.to_nat (File.size f)))) in
             let& (ok, f) := at_proxy (appendFile cfg w (set_data f (Some part))) in
             pret (ok, true, f)
       end.

Definition range_cached (path : string) (f : File.t) : P verdict :=
  if open_fails fl then pret (false, false, f)
  else
    let& d := local_file path in
    let d := default [] d in
    let at_ := Z.to_nat (File.offset f) in
    if truncate_fails fl then let& _ := set_local path d in pret (false, false, f)
    else
      let d := resize (Z.to_nat (u64 (File.offset f + File.size f))) d in
      let& _ := set_local path d in
      if map_fails fl then pret (false, false, f)
      else
        let& (ok, f) := at_proxy (readPartialFile cfg w (set_data f (Some (drop at_ d)))) in
        let d := take at_ d ++ default (drop at_ d) (File.data f) in
        let d := if second_truncate_fails fl then d else resize (Z.to_nat (u64 (File.offset f + File.size f))) d in
        let& _ := set_local path d in
        pret (ok, true, f).

(** A range of no bytes with a local file is left alone, and reported as a failure. *)
Definition on_range (req : Request.t) : P verdict :=
  let r := Request.file req in
  let op := Request.opcode req in
  let f := range_file_of req in
  let isAppend := op =? op_num APPEND_FILE_REQ in
  let isCopy := op =? op_num COPY_FILE_REQ in
  if Request.isCached r && negb isCopy then
    if 0 <? Request.size r then
      if isAppend then append_cached (Request.cachePath r) f else range_cached (Request.cachePath r) f
    else pret (false, true, f)
  else if isAppend then
    let& (ok, f) := at_proxy (appendFile cfg w (set_data f (Request.data r))) in pret (ok, true, f)
  else if op =? op_num OVERWRITE_FILE_REQ then
    let& (ok, f) := at_proxy (overwriteFile cfg w (set_data f (Request.data r))) in pret (ok, true, f)
  else if isCopy then
    let dst := File.set_ids File.reset (File.namespaceId File.reset) 0 (Some (Request.cachePath r)) in
    let& (ok, dst) := at_proxy (copyFile cfg w f dst) in pret (ok, true, File.set_size f (File.size dst))
  else let& (ok, f) := at_proxy (readPartialFile cfg w f) in pret (ok, true, f).

Definition on_rename (req : Request.t) : P bool :=
  let r := Request.file req in
  at_proxy (renameFile cfg w (request_file req) (File.set_ids File.reset (File.namespaceId File.reset) 0 (Some (Request.cachePath r)))).

(** ** Reports *)

Definition num_files : P Z := at_proxy (meta (MetaList.getNumFiles (meta_link w))).

Definition on_capacity : P Request.stats_part :=
  let& (usage, capacity) := at_proxy (coordinate w (fun cw c =>
      let* (u, cap, c) := ProxyCoordinator.getStorageUsage cw c (stripe_n rp) (stripe_k rp) in Ok ((u, cap), c))) in
  let& n := num_files in
  pret (Request.mk_stats usage capacity (u64 (n + ongoingRepairs rp)) getMaxNumKeysSupported 0).

Definition on_list (req : Request.t) : P (list FileInfo.t) :=
  let r := Request.file req in
  let ns := if Request.namespaceId r =? INVALID_NAMESPACE_ID then proxyNamespaceId cfg else Request.namespaceId r in
  at_proxy (meta (MetaList.getFileList (meta_link w) (proxyNamespaceId cfg) ns true true false (Request.name r))).

(** ** The dispatcher *)

(** The reply to a request on a file: its verdict, and what is said of the file, with
    the data [d] unless a local file has it. *)
Definition replies (success failure : ClientOpcode) (ok : bool) : Request.t :=
  Request.set_opcode Request.init (op_num (if ok then success else failure)).

Definition with_file (req : Request.t) (rep : Request.t) (off : Z) (f : File.t) (d : option (list Z)) : Request.t :=
  let r := Request.file req in
  let e := Request.file rep in
  Request.set_file rep (Request.mk_file (Request.name e) (Request.namespaceId e) off (File.size f) (Request.isCached r)
                          (Request.cachePath r) (if Request.isCached r then None else d) (Request.storageClass e)).

Definition range_opcodes (op : Z) : ClientOpcode * ClientOpcode :=
  if op =? op_num APPEND_FILE_REQ then (APPEND_FILE_REP_SUCCESS, APPEND_FILE_REP_FAIL)
  else if op =? op_num OVERWRITE_FILE_REQ then (OVERWRITE_FILE_REP_SUCCESS, OVERWRITE_FILE_REP_FAIL)
  else if op =? op_num COPY_FILE_REQ then (COPY_FILE_REP_SUCCESS, COPY_FILE_REP_FAIL)
  else (READ_FILE_RANGE_REP_SUCCESS, READ_FILE_RANGE_REP_FAIL).

Definition sized (rep : Request.t) (z : Z) : Request.t :=
  let e := Request.file rep in
  Request.set_file rep (Request.mk_file (Request.name e) (Request.namespaceId e) (Request.offset e) z (Request.isCached e)
                          (Request.cachePath e) (Request.data e) (Request.storageClass e)).

(** One request; a request that is not known is answered with no operation. *)
Definition handle (req : Request.t) : P Request.t :=
  let op := Request.opcode req in
  if op =? op_num WRITE_FILE_REQ then
    let& (ok, okay, _) := on_write req in pret (replies WRITE_FILE_REP_SUCCESS WRITE_FILE_REP_FAIL (ok && okay))
  else if op =? op_num READ_FILE_REQ then
    let& (ok, okay, f) := on_read req in
    let rep := replies READ_FILE_REP_SUCCESS READ_FILE_REP_FAIL (ok && okay) in
    pret (with_file req rep (Request.offset (Request.file rep)) f (File.data f))
  else if op =? op_num DEL_FILE_REQ then
    let& ok := at_proxy (deleteFile cfg w (request_file req)) in pret (replies DEL_FILE_REP_SUCCESS DEL_FILE_REP_FAIL ok)
  else if is_op op [APPEND_FILE_REQ; READ_FILE_RANGE_REQ; OVERWRITE_FILE_REQ; COPY_FILE_REQ] then
    let& (ok, okay, f) := on_range req in
    let (yes, no) := range_opcodes op in
    pret (with_file req (replies yes no (ok && okay)) (File.offset f) f (if op =? op_num READ_FILE_RANGE_REQ then File.data f else None))
  else if op =? op_num RENAME_FILE_REQ then
    let& ok := on_rename req in pret (replies RENAME_FILE_REP_SUCCESS RENAME_FILE_REP_FAIL ok)
  else if op =? op_num GET_CAPACITY_REQ then
    let& st := on_capacity in pret (Request.set_stats (replies GET_CAPACITY_REP_SUCCESS GET_CAPACITY_REP_FAIL true) st)
  else if op =? op_num GET_FILE_LIST_REQ then
    let& l := on_list req in
    pret (Request.set_lists (replies GET_FILE_LIST_REP_SUCCESS GET_FILE_LIST_REP_FAIL true) (Request.mk_list l [] []))
  else if op =? op_num GET_APPEND_SIZE_REQ then
    let& z := at_proxy (getExpectedAppendSizeOfClass w (Request.storageClass (Request.file req))) in
    pret (sized (replies GET_APPEND_SIZE_REP_SUCCESS GET_APPEND_SIZE_REP_FAIL true) z)
  else if op =? op_num GET_READ_SIZE_REQ then
    let& (z, _) := at_proxy (getExpectedReadSize cfg w (request_file req)) in
    pret (sized (replies GET_READ_SIZE_REP_SUCCESS GET_READ_SIZE_REP_FAIL (0 <? z)) z)
  else if op =? op_num GET_AGENT_STATUS_REQ then
    let& l := at_proxy (coordinate w (fun cw c => ProxyCoordinator.getAgentStatus cw c)) in
    pret (Request.set_lists (replies GET_AGENT_STATUS_REP_SUCCESS GET_AGENT_STATUS_REP_FAIL true) (Request.mk_list [] l []))
  else if op =? op_num GET_BG_TASK_PRG_REQ then
    pret (Request.set_lists (replies GET_BG_TASK_PRG_REP_SUCCESS GET_BG_TASK_PRG_REP_FAIL true) (Request.mk_list [] [] (tasks rp)))
  else if op =? op_num GET_REPAIR_STATS_REQ then
    let& n := num_files in
    let& r := at_proxy (meta (getNumFilesToRepair (meta_link w))) in
    pret (Request.set_stats (replies GET_REPAIR_STATS_REP_SUCCESS GET_REPAIR_STATS_REP_FAIL true) (Request.mk_stats 0 0 n 0 r))
  else if op =? op_num GET_PROXY_STATUS_REQ then
    pret (Request.set_status (replies GET_PROXY_STATUS_REP_SUCCESS GET_PROXY_STATUS_REP_FAIL true) (load rp))
  else pret Request.init.

(** One turn of the worker: the frames of a request to those of the reply.  A request
    that is not understood is dropped without a reply. *)
Definition serve (fs : list frame) : P (list frame) :=
  let& req := plift (let* (req, _, _) := ProxyZmq.getRequest malloc (defaultStorageClass cfg) fs true in Ok req) in
  let& rep := handle req in
  plift (ProxyZmq.sendReply rep).

End handler.
End ZmqHandler.
