(* ===== verification/ClientTrips.v ===== *)
(** A client, the protocol, the proxy and the agents together: what a client writes with
    one call is what a later call of any client reads. *)

From S2P Require Import Prelude DS FileInfo Wire IO Isal RSCode RSDecode RSTheorems File Coordinator ProxyCoordinator CoordinatorTheorems ChunkManager AccessTheorems StripeTheorems.
From S2P Require Import WriteTheorems Redis MetaKeys RedisServer MetaStore MetaList MetaTheorems MetaVersions MetaLocks PolicyStore Dedup Staging.
From S2P Require Import ZmqMessages ZmqClient ZmqTheorems Proxy ProxyRead ProxyPolicies ProxyFrame ProxyStripes ProxyWrites ProxyReads ProxyRoundTrip ZmqHandler.

#[local] Open Scope Z_scope.
#[local] Open Scope outcome_scope.

Import Proxy ProxyRead ZmqHandler.

Section exchange.
Context `{Isal, Md5, UuidPrinter, UuidParser, UuidGenerator}.
Context {D R S X : Type} `{Server D, Redis R, StagingArea S, Deduplication X}.
Context (cfg : config) (malloc malloc' : Z -> bool) (rp : reports) (fl : faults).
Context (junk : nat -> Z) (junk_item : ZmqClient.file_list_item_t) (junk_agent : ZmqClient.agent_info_t).

Notation state := (Proxy.t D R S X * gmap string (list Z))%type.

(** A client sends a request and gets the reply of the worker at the other end; a worker
    that throws or drops the request sends none. *)
Definition exchange (w : world) (r : ZmqClient.request_t) (s : state) : outcome (ZmqClient.answer * state) :=
  let* fs := ZmqClient.request_frames (ZmqClient.opcode r) (ZmqClient.namespace_id r) (ZmqClient.file r) in
  match serve cfg w malloc rp fl fs s with
  | Undef => Undef
  | Fail => Ok (ZmqClient.NoReply, s)
  | Ok (gs, s) =>
      let* a := ZmqClient.send_request malloc' junk junk_item junk_agent (fun _ => Some gs) r in Ok (a, s)
  end.

Context (w : world) (ret : Z) (c : call) (ns : Z) (r r' : ZmqClient.request_t) (code : Z).
Context (Hok : call_ok c) (Hns : 0 <= ns < 256) (Hr : 0 <= ZmqClient.namespace_id r < 256) (Hret : ret <> -1).
Context (Hm : forall n, payload c = Some n -> malloc (u64 (n + 1)) = true) (Hm' : forall n, malloc' n = true).
Context (Ep : prepare ret c ns r = Ok (code, r')).
Notation req := (asked_for (defaultStorageClass cfg) c ns r).

(** The worker handles the call that was made. *)
Lemma serve_call s : exists fs,
  ZmqClient.request_frames (ZmqClient.opcode r') (ZmqClient.namespace_id r') (ZmqClient.file r') = Ok fs /\
  serve cfg w malloc rp fl fs s = pbind (handle cfg w rp fl req) (fun rep => plift (ProxyZmq.sendReply rep)) s.
Proof using Hok Hns Hr Hret Hm Ep.
  pose proof (request_back malloc (defaultStorageClass cfg) ret c ns r Hok Hns Hr Hret Hm) as Hreq. rewrite Ep in Hreq.
  destruct Hreq as (fs & Efs & Hget). exists fs. split; [exact Efs|].
  specialize (Hget [] true). rewrite app_nil_r in Hget. unfold serve, pbind, plift. rewrite Hget. reflexivity.
Qed.

Lemma exchange_ok s rep s' o : handle cfg w rp fl req s = Ok (rep, s') -> Request.opcode rep = op_num o ->
  reply_ok junk_agent o r' rep ->
  let r2 := told junk_item junk_agent o r' rep in
  exchange w r' s = Ok (ZmqClient.Replied (if accepted c o then ZmqClient.size (ZmqClient.file r2) else ZmqClient.ULONG_MAX) r2, s').
Proof using Hok Hns Hr Hret Hm Hm' Ep.
  intros Hh Eo Hrep r2. destruct (serve_call s) as (fs & Efs & Hs). unfold exchange. rewrite Efs. cbn [obind]. rewrite Hs.
  destruct (reply_back malloc' junk junk_item junk_agent Hm' o r' rep [] true Eo Hrep) as (gs & Egs & Hread).
  unfold pbind, plift. rewrite Hh. cbn [obind]. rewrite Egs. cbn [obind]. unfold ZmqClient.send_request. rewrite Efs. cbn [obind].
  rewrite app_nil_r in Hread. rewrite Hread. fold r2. pose proof (op_num_range o).
  rewrite (proj2 (Z.ltb_ge _ _)) by lia. cbn [obind].
  assert (ZmqClient.opcode r2 = ZmqClient.opcode r') as -> by (unfold r2, told; by destruct o).
  rewrite (prepared_opcode _ _ _ _ _ _ Ep Hret). by destruct (accepted c o).
Qed.

Lemma exchange_reply s v r2 s' : exchange w r' s = Ok (ZmqClient.Replied v r2, s') ->
  exists rep, handle cfg w rp fl req s = Ok (rep, s').
Proof using Hok Hns Hr Hret Hm Ep.
  destruct (serve_call s) as (fs & Efs & Hs). unfold exchange. rewrite Efs. cbn [obind]. rewrite Hs. unfold pbind, plift.
  destruct (handle cfg w rp fl req s) as [| |[rep t]]; cbn [obind]; [done|done|]. destruct (ProxyZmq.sendReply rep) as [| |gs]; cbn [obind]; [done|done|].
  destruct (ZmqClient.send_request _ _ _ _ _ _) as [| |a]; cbn [obind]; [done|done|]. intros E. injection E as _ <-. by exists rep.
Qed.
End exchange.

(** * Writing and reading through the interface *)

#[local] Existing Instance DedupNone.none.

Section calls.
Context `{IsalLaws, Md5, UuidPrinterLaws} `{!UuidParser} `{!UuidParserLaws} `{!UuidGenerator}.
Context {D R S : Type} `{ServerLaws D, Redis R, StagingArea S}.
Context (cfg : config) (rp : reports) (fl : faults).
Context (nm class : string) (ns : Z) (d : list Z).

Notation dflt := (defaultStorageClass cfg).
Notation total := (Z.of_nat (length d)).
Definition to_write : call := Write nm total d class.

Definition class_of : string := if bool_decide (ZmqClient.c_str class = "") then dflt else ZmqClient.c_str class.

(** The file that the worker hands to the proxy for the two calls. *)
Definition requested : File.t := File.set_ids File.reset ns 0 (Some (ZmqClient.c_str nm)).
Definition write_request : File.t :=
  File.set_policy (File.set_range (File.set_size requested total) 0 total (Some d)) (File.codingMeta File.reset) class_of.
Definition read_request : File.t := File.set_range requested 0 INVALID_FILE_LENGTH None.

Lemma handle_write w r (s : Proxy.t D R S unit * gmap string (list Z)) :
  handle cfg w rp fl (asked_for dflt to_write ns r) s =
  let* (v, t) := writeFile cfg w write_request (fst s) in
  Ok (replies WRITE_FILE_REP_SUCCESS WRITE_FILE_REP_FAIL (fst v), (t, snd s)).
Proof using.
  destruct (writeFile cfg w write_request (fst s)) as [| |[[ok f] t]] eqn:E; cbn [obind fst];
    unfold handle, on_write; cbn -[writeFile op_num Z.eqb]; rewrite Z.eqb_refl; unfold at_proxy, pbind; cbn -[writeFile replies];
    rewrite Nat2Z.id, firstn_all; change (negb (bool_decide ("" = ""))) with false; cbv beta iota;
    change (writeFile _ _ _ _) with (writeFile cfg w write_request (fst s)); rewrite E; cbn [obind]; [done|done|]. unfold pret. by destruct ok.
Qed.

Lemma handle_read w r (s : Proxy.t D R S unit * gmap string (list Z)) ok f t :
  readFile cfg w read_request false (fst s) = Ok ((ok, f), t) ->
  handle cfg w rp fl (asked_for dflt (Read nm) ns r) s =
  Ok (Request.set_file (replies READ_FILE_REP_SUCCESS READ_FILE_REP_FAIL ok)
        (Request.mk_file "" INVALID_NAMESPACE_ID INVALID_FILE_OFFSET (File.size f) false "" (File.data f) ""), (t, snd s)).
Proof using.
  intros E. unfold handle, on_read. cbn -[readFile op_num Z.eqb]. rewrite Z.eqb_refl. change (op_num READ_FILE_REQ =? op_num WRITE_FILE_REQ) with false.
  unfold at_proxy, pbind. cbn -[readFile]. change (negb (bool_decide ("" = ""))) with false. cbv beta iota. change (readFile _ _ _ _ _) with (readFile cfg w read_request false (fst s)). rewrite E. cbn [obind pret]. unfold pret.
  rewrite andb_true_r. by destruct ok.
Qed.
End calls.

(** The request of a call, set up in the memory of [r]. *)
Definition set_up (c : call) (ns : Z) (r : ZmqClient.request_t) : ZmqClient.request_t :=
  match prepare 0 c ns r with Ok (_, r') => r' | _ => r end.

(** The proxy's namespace for a request. *)
Definition namespace_of (cfg : config) (ns : Z) : Z := if ns =? INVALID_NAMESPACE_ID then proxyNamespaceId cfg else ns.

(** What a caller may write, and the memory it takes at the two ends: data that fits
    into [N] stripes under a name and a class that the interface can take. *)
Record writable `{Isal} (rs : RSCode.t) (cls : StorageClass.t) (N : nat) (malloc : Z -> bool) (nm class : string) (ns : Z) (d : list Z) : Prop := {
  wr_name : text_ok nm;
  wr_class : text_ok class;
  wr_ns : 0 <= ns < 256;
  wr_bytes : Forall byte d;
  wr_total : 0 < Z.of_nat (length d) < 9223372036854775808;
  wr_count : let max := CodingMeta.maxChunkSize (StorageClass._codingMeta cls) * CodingMeta.k (StorageClass._codingMeta cls) in
    (Z.of_nat N - 1) * max < Z.of_nat (length d) <= Z.of_nat N * max;
  wr_chunks : Z.of_nat (N * RSCode.n rs) < 2147483648;
  wr_malloc : malloc (u64 (Z.of_nat (length d) + 1)) = true
}.

Lemma requested_named cfg nm ns f : File.name f = Some (ZmqClient.c_str nm) -> File.namespaceId f = ns ->
  named (namespace_of cfg ns) (ZmqClient.c_str nm) (with_namespace cfg f).
Proof. intros Hn <-. unfold namespace_of, with_namespace. destruct (_ =? _); by split. Qed.

Lemma written_upload `{Isal} cfg rs cls N malloc nm class ns d : writable rs cls N malloc nm class ns d ->
  upload cfg rs (class_of cfg class) cls (namespace_of cfg ns) (ZmqClient.c_str nm) d N (write_request cfg nm class ns d).
Proof.
  intros []. constructor; try done.
  - by apply requested_named.
  - cbn. unfold class_of. case_bool_decide as E; [|done]. destruct (bool_decide_reflect (ZmqClient.c_str class = "")); congruence.
Qed.

Section ends.
Context `{IsalLaws, Md5, UuidPrinterLaws} `{!UuidParser} `{!UuidParserLaws} `{!UuidGenerator}.
Context {D R S : Type} `{ServerLaws D, Redis R, StagingArea S}.
Context (cfg : config) (w : world) (malloc malloc' : Z -> bool) (rp : reports) (fl : faults).
Context (junk : nat -> Z) (junk_item : ZmqClient.file_list_item_t) (junk_agent : ZmqClient.agent_info_t) (Hm' : forall n, malloc' n = true).
Context (nm : string) (ns : Z) (r : ZmqClient.request_t) (Hns : 0 <= ns < 256) (Hr : 0 <= ZmqClient.namespace_id r < 256).
Implicit Types s : Proxy.t D R S unit * gmap string (list Z).
Notation through := (exchange cfg malloc malloc' rp fl junk junk_item junk_agent w).

(** A write that the client takes for done is one that the proxy has done. *)
Lemma answered_write rs cls N class d s v r1 s1 : writable rs cls N malloc nm class ns d ->
  through (set_up (to_write nm class d) ns r) s = Ok (ZmqClient.Replied v r1, s1) -> v <> ZmqClient.ULONG_MAX ->
  exists f, writeFile cfg w (write_request cfg nm class ns d) (fst s) = Ok ((true, f), fst s1).
Proof using Hns Hr Hm'.
  intros Hw Ew Hv.
  assert (call_ok (to_write nm class d)) as Hcw by (destruct Hw; cbn; split_and!; [done|done|split; lia]).
  assert (forall n, payload (to_write nm class d) = Some n -> malloc (u64 (n + 1)) = true) as Hmw by (intros n [= <-]; apply Hw).
  assert (exists code, prepare 0 (to_write nm class d) ns r = Ok (code, set_up (to_write nm class d) ns r)) as [code Ep] by (by eexists).
  destruct (exchange_reply cfg malloc malloc' rp fl junk junk_item junk_agent w 0 _ ns r _ code Hcw Hns Hr ltac:(done) Hmw Ep _ _ _ _ Ew) as [rep Eh].
  pose proof Eh as Eh'. rewrite handle_write in Eh'. destruct (writeFile _ _ _ _) as [| |[[ok f'] t]] eqn:Ewr; cbn [obind fst] in Eh'; [done|done|].
  apply ok_inj in Eh'. injection Eh' as -> ->. destruct ok; [by exists f'|]. destruct Hv.
  pose proof (exchange_ok cfg malloc malloc' rp fl junk junk_item junk_agent w 0 _ ns r _ code Hcw Hns Hr ltac:(done) Hmw Hm' Ep
    _ _ _ WRITE_FILE_REP_FAIL Eh eq_refl I) as Ex. cbv zeta in Ex. rewrite Ew in Ex. apply ok_inj in Ex. by injection Ex.
Qed.

(** What the proxy has read is what the client gets. *)
Lemma answered_read s g t d : text_ok nm -> Z.of_nat (length d) < 9223372036854775808 ->
  readFile cfg w (read_request nm ns) false (fst s) = Ok ((true, g), t) -> File.data g = Some d -> File.size g = Z.of_nat (length d) ->
  exists r2, through (set_up (Read nm) ns r) s = Ok (ZmqClient.Replied (Z.of_nat (length d)) r2, (t, snd s)) /\
    ZmqClient.data (ZmqClient.file r2) = Some d.
Proof using Hns Hr Hm'.
  intros Hnm Hlen Er Ed Ez. pose proof (handle_read cfg rp fl nm ns w r s true g t Er) as Eh. rewrite Ed, Ez in Eh.
  assert (exists code, prepare 0 (Read nm) ns r = Ok (code, set_up (Read nm) ns r)) as [code Ep] by (by eexists).
  eexists. split.
  - apply (exchange_ok cfg malloc malloc' rp fl junk junk_item junk_agent w 0 (Read nm) ns r _ code Hnm Hns Hr ltac:(done) ltac:(done) Hm' Ep
      _ _ _ READ_FILE_REP_SUCCESS Eh eq_refl).
    split; [by vm_compute; split|]. split; [cbn; unfold number_ok; lia|]. intros _. cbn. split; [done|]. discriminate.
  - cbn. by rewrite Nat2Z.id, firstn_all, drop_nil, app_nil_r.
Qed.
End ends.

(** C2: A client that writes a file is answered, and a client that reads it gets the bytes.
    The call travels through the client library, the protocol, the worker of the proxy,
    the chunk manager, the metadata store and the agents: when a client's write of a new
    version returns anything but [ULONG_MAX], the file's history in the metadata store
    has the version on top of the earlier ones, and a later read of the name by any
    client returns the number of bytes that were written, with these bytes in the
    request.  The conditions on the agents, the containers and the coding library are
    those of the round trip through the proxy: the proxy keeps old versions, stages no
    files and writes redundancy in the foreground, no other operation runs in between,
    and the connection to the metadata store works. *)
Theorem client_write_read `{IsalLaws, Md5, UuidPrinterLaws} `{!UuidParser} `{!UuidParserLaws} `{!UuidGenerator}
    {D R S} `{ServerLaws D, Redis R, StagingArea S} cfg w cw w' cw' rs cls malloc malloc' rp fl rp' fl' junk junk_item junk_agent
    nm class ns d N agents up (s s1 : Proxy.t D R S unit * gmap string (list Z)) r r' hist ks v r1 :
  let pns := namespace_of cfg ns in
  let fn := ZmqClient.c_str nm in
  let sc := class_of cfg class in
  let through rp fl := exchange cfg malloc malloc' rp fl junk junk_item junk_agent in
  write_setup cfg w cw agents sc cls pns fn -> ready rs sc cls (fst s) ->
  ProxyCoordinator._containerToAgentMap (_coordinator (fst s)) = agents -> history pns fn (fst s) hist ks -> current hist + 1 < 2147483648 ->
  writable rs cls N malloc nm class ns d -> (forall n, malloc' n = true) ->
  0 <= ZmqClient.namespace_id r < 256 -> 0 <= ZmqClient.namespace_id r' < 256 ->
  through rp fl w (set_up (to_write nm class d) ns r) s = Ok (ZmqClient.Replied v r1, s1) -> v <> ZmqClient.ULONG_MAX ->
  (forall p, p ∈ drop (length (ChunkManager._sent (_chunkManager (fst s)))) (ChunkManager._sent (_chunkManager (fst s1))) ->
     acknowledged cw agents p = true -> keeps cw' agents up p) ->
  read_setup w' cw' rs agents up (fst s1) -> none_held cfg w' (fst s1) no_read (with_namespace cfg (read_request nm ns)) ->
  enough_up cfg w' rs N up (read_request nm ns) (fst s1) ->
  (exists e, version e = current hist + 1 /\ history pns fn (fst s1) (e :: hist) ks) /\ others pns fn (fst s) (fst s1) /\
  exists r2 s2, through rp' fl' w' (set_up (Read nm) ns r') s1 = Ok (ZmqClient.Replied (Z.of_nat (length d)) r2, s2) /\
    ZmqClient.data (ZmqClient.file r2) = Some d.
Proof.
  intros pns fn sc through Hws Hrd Hag Hh Hcur Hw Hm' Hr Hr' Ew Hv Hkeep Hrs Hheld Hen.
  pose proof (wr_ns _ _ _ _ _ _ _ _ Hw) as Hns.
  destruct (answered_write cfg w malloc malloc' rp fl junk junk_item junk_agent Hm' nm ns r Hns Hr rs cls N class d s v r1 s1 Hw Ew Hv) as [f' Ewr].
  destruct (written_is_read cfg w cw w' cw' rs sc cls pns fn d N agents up (fst s) (fst s1) (write_request cfg nm class ns d) f' (read_request nm ns) hist ks
    Hws (written_upload _ _ _ _ _ _ _ _ _ Hw) Hrd Hag Hh Hcur Ewr Hkeep Hrs) as (He & Ho & g & t & Er & Ed & Ez); [|done|by left|].
  { constructor; try done; [by apply requested_named|by split; [right|left]]. }
  split; [exact He|]. split; [exact Ho|]. cbn in Ed. rewrite drop_nil, app_nil_r in Ed. pose proof (wr_total _ _ _ _ _ _ _ _ Hw).
  destruct (answered_read cfg w' malloc malloc' rp' fl' junk junk_item junk_agent Hm' nm ns r' Hns Hr' s1 g t d (wr_name _ _ _ _ _ _ _ _ Hw) ltac:(lia) Er Ed Ez)
    as (r2 & Ex & Hd). by exists r2, (t, snd s1).
Qed.
