(* ===== verification/ProxyRuns.v ===== *)
(** Runs of the proxy: two agents with two containers each, a (4, 2) code, a file of two
    stripes.  They show that the hypotheses of the theorems can be met and record what
    the operations do in some corner cases. *)

From stdpp Require Import pretty.
From S2P Require Import Prelude DS Wire Isal Gf256 RSCode RSTheorems File FsContainer ProxyCoordinator RegistrationTheorems ChunkManager ChunkRepair ChunkSample.
From S2P Require Import Redis MetaKeys RedisServer MetaStore MetaSample ImmutablePolicy PolicyStore PolicyTheorems Dedup Staging.
From S2P Require Import Proxy ProxyRead ProxyOps ProxyPolicies.

#[local] Open Scope Z_scope.
#[local] Open Scope outcome_scope.
#[local] Open Scope program_scope.

Module ProxyRuns.
Import Proxy ProxyRead ProxyOps.

#[local] Existing Instances Gf256.isal.
(** A sum of 16 bytes. *)
#[local] Instance sum_md5 : Md5 := fun l => map (fun z => z mod 256) (take MD5_DIGEST_LENGTH (l ++ replicate MD5_DIGEST_LENGTH 0)).
#[local] Existing Instances decimal_uuid MetaSample.parser MetaSample.generator.
#[local] Instance matcher : Fnmatch := fun _ _ => false.

Definition disk : os :=
  mk_os 50 (fun _ => true) (fun _ => true) (fun _ _ => true) (fun _ => true) (fun _ n => n) (fun _ n => n) (fun n => n) (fun _ => 0)
    false (fun _ => true) (fun _ => 50).
#[local] Instance no_staging : StagingArea Staging.t := Staging.area (Staging.mk_world (fun _ => disk) (fun _ => None) false).
#[local] Existing Instance DedupNone.none.

Definition coordinator : ProxyCoordinator.t :=
  ProxySample.register
    (ProxySample.register RegistrationTheorems.init
       (ProxySample.event "a" [(10, 0, 100); (11, 0, 100)]))
    (ProxySample.event "b" [(12, 0, 100); (13, 0, 100)]).

Definition state : Type := Proxy.t keyspace HashStore.t Staging.t unit.

Definition start (policies : HashStore.t) : state :=
  mk ChunkSample.manager ChunkSample.manager ChunkSample.manager coordinator (MetaSample.start ∅) policies
    (Staging.mk (StagingFs.mk "/staging" ∅ ∅) 0) tt 0.

(** Agents that hold the chunks of the requests [stored] and accept new ones; [down]
    names the containers that do not answer. *)
Definition is_put (r p : ChunkEvent.t) : bool :=
  let c := ChunkEvent.chunks r !!! 0%nat in
  let d := ChunkEvent.chunks p !!! 0%nat in
  bool_decide (ChunkEvent.opcode p = PUT_CHUNK_REQ) && (ChunkSample.container p =? ChunkSample.container r)
  && (Chunk.chunkId d =? Chunk.chunkId c) && (Chunk.fileVersion d =? Chunk.fileVersion c).

Definition agents (stored : list ChunkEvent.t) (down : list Z) (_ : Z) (_ : string) (r : ChunkEvent.t) : option ChunkEvent.t :=
  if bool_decide (ChunkSample.container r ∈ down) then None
  else
    match ChunkEvent.opcode r with
    | GET_CHUNK_REQ =>
        match list_find (fun p => is_put r p = true) stored with
        | Some (_, p) =>
            let c := ChunkEvent.chunks r !!! 0%nat in
            let d := ChunkEvent.chunks p !!! 0%nat in
            Some (ChunkEvent.set_chunks (ChunkEvent.set_opcode r GET_CHUNK_REP_SUCCESS) 1
                    [Chunk.set_buffer c (Chunk.data d) (Chunk.size d) true])
        | None => Some (ChunkEvent.set_opcode r GET_CHUNK_REP_FAIL)
        end
    | PUT_CHUNK_REQ => Some (ChunkEvent.set_opcode r PUT_CHUNK_REP_SUCCESS)
    | CPY_CHUNK_REQ => Some (ChunkEvent.set_opcode r CPY_CHUNK_REP_SUCCESS)
    | DEL_CHUNK_REQ => Some (ChunkEvent.set_opcode r DEL_CHUNK_REP_SUCCESS)
    | _ => None
    end.

Definition chunk_world (stored : list ChunkEvent.t) (down : list Z) : ChunkManager.world :=
  ChunkManager.mk_world (sample_options false) true false false 3 (fun _ => Some []) (fun z => Some (replicate z 0))
    (replicate 16 0) (agents stored down).

Definition world (stored : list ChunkEvent.t) (down : list Z) : Proxy.world :=
  mk_world _ (fun _ => PolicySample.day 19005) (fun _ => chunk_world stored down)
    (fun _ => ProxySample.world STATIC) (fun _ => Connected) MetaSample.working
    (fun _ n => Some (replicate n 7)) (fun _ _ => 9).

Definition cfg (overwrite : bool) : config := mk_config overwrite "c" 1 3 false (ChunkRepair.mk_config true false) 0.

Definition bytes : list Z := [7; 13; 200; 255; 0; 91; 1; 2; 3].
Definition new_file (name : string) (d : list Z) : File.t :=
  let n := Z.of_nat (length d) in
  File.set_range (File.set_size (File.set_ids File.reset INVALID_NAMESPACE_ID 0 (Some name)) n) 0 n (Some d).
Definition wanted (name : string) : File.t := File.set_ids File.reset INVALID_NAMESPACE_ID 0 (Some name).

(** The result of an operation, and the state to go on with. *)
Definition result {A} (p : program state A) (s : state) : option A := match p s with Ok (a, _) => Some a | _ => None end.
Definition next {A} (p : program state A) (s : state) : state := match p s with Ok (_, s) => s | _ => s end.

Definition sent (s : state) : list ChunkEvent.t := ChunkManager._sent (_chunkManager s).
Definition idle_world : Proxy.world := world [] [].
Definition writing (overwrite : bool) (name : string) (d : list Z) : program state (bool * File.t) :=
  writeFile (cfg overwrite) idle_world (new_file name d).
Definition reading (name : string) (down : list Z) (s : state) : option (bool * option (list Z)) :=
  (fun r => (fst r, File.data (snd r))) <$> result (readFile (cfg false) (world (sent s) down) (wanted name) false) s.

(** The file is written, and read while two containers are down. *)
Lemma write_then_read :
  let s := next (writing false "f" bytes) (start ∅) in
  fst <$> result (writing false "f" bytes) (start ∅) = Some true /\
  reading "f" [] s = Some (true, Some bytes) /\ reading "f" [10; 13] s = Some (true, Some bytes) /\
  fst <$> reading "f" [10; 11; 13] s = Some false.
Proof. vm_compute. split_and!; reflexivity. Qed.

Lemma proxy_refuses_protected_witness :
  let s := start PolicySample.with_policy in
  (exists g s', writeFile (cfg false) idle_world (new_file "f" bytes) s = Ok ((false, g), s') /\ idle s s') /\
  exists s', deleteFile (cfg false) idle_world (new_file "f" bytes) s = Ok (false, s') /\ idle s s'.
Proof.
  intros s.
  destruct (proxy_refuses_protected (cfg false) idle_world s (new_file "f" bytes) ImmutablePolicy.IMMUTABLE) as (Hw & Hd & _).
  - intros n. split; [reflexivity|]. vm_compute. reflexivity.
  - split; [|apply Hd; left; reflexivity]. apply Hw. left. reflexivity.
Defined.

(** A copy checks only the policies of its source: the file "f" is immutable, and its
    three bytes are replaced. *)
Definition guarded : state :=
  let s := next (writing false "g" bytes) (next (writing false "f" [1; 2; 3]) (start ∅)) in
  mk (_chunkManager s) (_repairChunkManager s) (_tcChunkManager s) (_coordinator s) (_metastore s)
    PolicySample.with_policy (_staging s) (_dedup s) (calls s).

Definition size_of (name : string) (s : state) : option (bool * Z) :=
  (fun r => (fst r, File.size (snd r)))
    <$> result (Proxy.getMeta idle_world (File.set_ids File.reset 1 0 (Some name)) 3) s.

Theorem copy_replaces_immutable :
  fst <$> result (writing false "f" bytes) guarded = Some false /\
  size_of "f" guarded = Some (true, 3) /\
  let copy := copyFile (cfg false) idle_world (wanted "g") (wanted "f") in
  fst <$> result copy guarded = Some true /\ size_of "f" (next copy guarded) = Some (true, 9).
Proof. vm_compute. split_and!; reflexivity. Qed.

(** With versions kept, deleting a file without naming a version is meant to add a
    mark; the version found by the lookup under the lock is deleted instead, and its
    chunks are removed. *)
Theorem versioned_delete_removes :
  let s := next (writing false "f" bytes) (start ∅) in
  let s' := next (deleteFile (cfg false) idle_world (wanted "f")) s in
  result (deleteFile (cfg false) idle_world (wanted "f")) s = Some true /\
  map ChunkEvent.opcode (drop 8 (sent s')) = replicate 8 DEL_CHUNK_REQ /\ size_of "f" s' = Some (false, 0).
Proof. vm_compute. split_and!; reflexivity. Qed.

(** Agents that refuse the chunks of the second stripe. *)
Definition half_world : Proxy.world :=
  let cw := chunk_world [] [] in
  let refuse e a r := if 4 <=? Chunk.chunkId (ChunkEvent.chunks r !!! 0%nat)
                      then Some (ChunkEvent.set_opcode r PUT_CHUNK_REP_FAIL) else agents [] [] e a r in
  mk_world _ (clock idle_world)
    (fun _ => ChunkManager.mk_world (ChunkManager.default_options cw) true false false 3 (ChunkManager.mem cw)
                (ChunkManager.malloc cw) (ChunkManager.local cw) refuse)
    (Proxy.coord_world idle_world) (policy_link idle_world) (meta_link idle_world) (Proxy.buffer idle_world) (junk idle_world).

(** When the second stripe cannot be written, the first one is meant to be removed: one
    of its four chunks is. *)
Theorem failed_write_leaves_chunks :
  let write := writeFile (cfg false) half_world (new_file "f" bytes) in
  fst <$> result write (start ∅) = Some false /\
  map (fun r => (ChunkEvent.opcode r, Chunk.chunkId (ChunkEvent.chunks r !!! 0%nat))) (drop 8 (sent (next write (start ∅))))
    = [(DEL_CHUNK_REQ, 0)].
Proof. vm_compute. split_and!; reflexivity. Qed.
End ProxyRuns.
