(* ===== verification/ProxyTrips.v ===== *)
(** A file that is written and read with two of four containers down, as an instance of
    the theorem on the round trip. *)

From stdpp Require Import pretty.
From S2P Require Import Prelude DS Wire Isal Gf256 RSCode RSDecode RSTheorems File ProxyCoordinator CoordinatorTheorems RegistrationTheorems ChunkManager.
From S2P Require Import AccessTheorems StripeTheorems WriteTheorems ChunkSample Redis MetaKeys RedisServer MetaStore MetaTheorems MetaVersions MetaLocks MetaSample.
From S2P Require Import PolicyStore Dedup Staging Proxy ProxyRead ProxyPolicies ProxyFrame ProxyStripes ProxyWrites ProxyReads ProxyRoundTrip ProxyRuns.

#[local] Open Scope Z_scope.
#[local] Open Scope outcome_scope.

Module ProxyTrips.
Import Proxy ProxyRead ProxyRuns.

#[local] Existing Instances Gf256.isal Gf256.isal_laws ProxyRuns.sum_md5 decimal_uuid decimal_uuid_laws MetaSample.parser MetaSample.parser_laws
  MetaSample.generator ProxyRuns.no_staging DedupNone.none.

Definition class : StorageClass.t := ChunkSample.class.
Definition rs : RSCode.t := ChunkSample.rs.
Definition addresses : gmap Z string := ProxyCoordinator._containerToAgentMap coordinator.
Definition written : state := next (writing false "f" bytes) (start ∅).

(** Containers 10 and 13 are down. *)
Definition up (id : Z) : bool := bool_decide (id = 11 \/ id = 12).
Definition read_world : Proxy.world := world (ProxyRuns.sent written) [10; 13].

Lemma result_next {A} (p : program state (bool * A)) s :
  fst <$> result p s = Some true -> exists a, p s = Ok ((true, a), next p s).
Proof. unfold result, next. destruct (p s) as [| |[[[] a] s']]; try done. intros _. by exists a. Qed.

(** A stored chunk is what a later request for it gets. *)
Definition found_as (stored : list ChunkEvent.t) (p : ChunkEvent.t) : bool :=
  match list_find (fun q => is_put p q = true) stored with
  | Some (_, q) => bool_decide (Chunk.data (request_chunk q) = Chunk.data (request_chunk p))
                   && (Chunk.size (request_chunk q) =? Chunk.size (request_chunk p))
  | None => false
  end && match Chunk.data (request_chunk p) with Some b => Z.of_nat (length b) =? Chunk.size (request_chunk p) | None => false end.

Lemma agents_keep stored down p : found_as stored p = true -> (forall id, up id = true -> id ∉ down) ->
  keeps (ProxyRuns.chunk_world stored down) addresses up p.
Proof.
  intros Hf Hup g addr (Ho & Hc & Hns & Hu & Hid & Hv) Ha. cbn [ChunkManager.net ProxyRuns.chunk_world]. unfold agents.
  change (ChunkSample.container g) with (request_container g). rewrite Hc, Ho.
  assert (forall q, is_put g q = is_put p q) as Eput.
  { intros q. unfold is_put. change (ChunkSample.container g) with (request_container g).
    change (ChunkEvent.chunks g !!! 0%nat) with (request_chunk g). by rewrite Hc, Hid, Hv. }
  assert (list_find (fun q => is_put g q = true) stored = list_find (fun q => is_put p q = true) stored) as ->.
  { apply list_find_ext. intros q. by rewrite Eput. }
  unfold found_as in Hf. apply andb_true_iff in Hf as [Hf Hwf]. destruct (list_find _ stored) as [[i q]|]; [|done].
  apply andb_true_iff in Hf as [Ed%bool_decide_eq_true Es%Z.eqb_eq]. destruct (Chunk.data (request_chunk p)) as [b|] eqn:Eb; [|done].
  apply Z.eqb_eq in Hwf. change (ChunkEvent.chunks q !!! 0%nat) with (request_chunk q). rewrite Ed, Es.
  set (r := ChunkEvent.set_chunks _ _ _).
  assert (Chunk.bytes (request_chunk r) = Chunk.bytes (request_chunk p)) as Ebs.
  { unfold Chunk.bytes. by rewrite Eb. }
  assert (credible (ProxyRuns.chunk_world stored down) (Chunk.chunkId (request_chunk p)) (Chunk.bytes (request_chunk p)) r) as Hcr.
  { split; [done|]. split; [exact Hid|]. split; [|split; [by eexists|intros _; exact Ebs]]. split; [cbn; lia|].
    intros b' [= <-]. cbn. lia. }
  split.
  - intros r' Hr' _. destruct (bool_decide _); [done|]. by injection Hr' as <-.
  - intros Hu'. rewrite bool_decide_eq_false_2 by (by apply Hup). exists r. by split_and!.
Qed.

Lemma code_decodable : decodable rs.
Proof.
  intros used Ha Hl Hlen. change (RSCode.n rs) with 4%nat in Hl. change (RSCode.k rs) with 2%nat in Hlen.
  destruct used as [|a [|b [|]]]; try done. apply Forall_cons in Hl as [Qa [Qb _]%Forall_cons].
  apply StronglySorted_inv in Ha as [_ [Qab _]%Forall_cons].
  assert (forallb (fun a => forallb (fun b => (b <=? a)%nat || invertible (rs := rs) [a; b]) (seq 0 4)) (seq 0 4) = true) as Hall by (vm_compute; reflexivity).
  rewrite forallb_forall in Hall. specialize (Hall a). rewrite forallb_forall in Hall. specialize (Hall ltac:(apply in_seq; lia) b ltac:(apply in_seq; lia)).
  apply orb_true_iff in Hall as [Hall|Hall]; [|done]. apply Nat.leb_le in Hall. lia.
Qed.

Lemma start_ready : ready rs "c" class (start ∅).
Proof.
  constructor; [reflexivity|reflexivity|]. constructor; try reflexivity. apply ChunkSample.code_ok.
Qed.

Lemma start_history : history 1 "f" (start ∅) [] ∅.
Proof. constructor; [reflexivity|apply represents_empty|reflexivity]. Qed.

Lemma sample_upload : upload (cfg false) rs "c" class 1 "f" bytes 2 (new_file "f" bytes).
Proof.
  constructor; [by split|reflexivity|reflexivity| |by split_and!|done|vm_compute; split; done|done|vm_compute; split_and!; done].
  repeat constructor; done.
Qed.

Lemma sample_write_setup : write_setup (cfg false) idle_world (ProxyRuns.chunk_world [] []) addresses "c" class 1 "f".
Proof.
  assert (map_Forall (fun id _ => in_int id) addresses) as Hids.
  { apply (bool_decide_unpack _). vm_compute. exact I. }
  constructor; [reflexivity|reflexivity|reflexivity| |done|done| |apply MetaSample.sample_name| |by split|split; [done|by repeat constructor]].
  - constructor; [reflexivity|by eexists|by eexists|cbn; lia| |].
    + intros e addr r rep. cbn. unfold agents. destruct (bool_decide _); [done|]. intros E Ho. rewrite Ho in E. by injection E as <-.
    + intros i len. eexists. split; [reflexivity|]. by rewrite length_replicate.
  - intros b. split.
    + apply Forall_fmap, Forall_forall. intros z _. apply Z.mod_pos_bound. lia.
    + unfold MD5, sum_md5. rewrite length_map, length_take, length_app, length_replicate. lia.
  - intros id [addr Ha]. by apply (Hids id addr).
Qed.

Lemma sample_read_setup : read_setup read_world (ProxyRuns.chunk_world (ProxyRuns.sent written) [10; 13]) rs addresses up written.
Proof.
  assert (forall id, up id = true -> id = 11 \/ id = 12) as Hup by (by intros id ?%bool_decide_eq_true).
  constructor; [reflexivity|done| |reflexivity|apply code_decodable| | |].
  - intros i len. eexists. split; [reflexivity|]. by rewrite length_replicate.
  - intros id [-> | ->]%Hup; by eexists.
  - intros i. vm_compute. done.
  - intros id [-> | ->]%Hup; vm_compute; reflexivity.
Qed.

Lemma sample_download : download (cfg false) read_world bytes 1 "f" written (wanted "f").
Proof.
  constructor; [by split|done|by split; left|done|]. intros ty i j Hty. apply list_elem_of_singleton in Hty as ->. vm_compute. reflexivity.
Qed.

Lemma sample_enough : enough_up (cfg false) read_world rs 2 up (wanted "f") written.
Proof.
  intros g s' E.
  assert (match Proxy.getMeta read_world (looked_up (cfg false) (wanted "f")) 3 written with
          | Ok (_, g, _) => forallb (fun j => 2 <=? length (filter (fun x => up (ChunkManager.file_ids g !!! (j * 4 + x)%nat) = true) (seq 0 4)))%nat (seq 0 2)
          | _ => true
          end = true) as Hall by (vm_compute; reflexivity).
  rewrite E in Hall.
  rewrite forallb_forall in Hall. intros j Hj. apply Nat.leb_le, Hall, in_seq. lia.
Qed.

Lemma up_not_down id : up id = true -> id ∉ [10; 13].
Proof. unfold up. intros [-> | ->]%bool_decide_eq_true; set_solver. Qed.

Lemma sample_found : forallb (found_as (ProxyRuns.sent written))
  (drop (length (ChunkManager._sent (_chunkManager (start ∅)))) (ChunkManager._sent (_chunkManager written))) = true.
Proof. vm_compute. reflexivity. Qed.

Lemma write_read_file_witness :
  exists g s2, readFile (cfg false) read_world (wanted "f") false written = Ok ((true, g), s2) /\ File.data g = Some bytes.
Proof.
  destruct (result_next (writing false "f" bytes) (start ∅)) as [f' Hw]; [vm_compute; reflexivity|].
  destruct (write_read_file (cfg false) idle_world (ProxyRuns.chunk_world [] []) read_world (ProxyRuns.chunk_world (ProxyRuns.sent written) [10; 13])
    rs "c" class 1 "f" bytes 2 addresses up (start ∅) written (new_file "f" bytes) f' (wanted "f") [] ∅) as (_ & _ & g & s2 & E & Hd & _).
  - exact sample_write_setup.
  - exact sample_upload.
  - exact start_ready.
  - reflexivity.
  - exact start_history.
  - done.
  - exact Hw.
  - intros p Hp _. apply agents_keep.
    + pose proof sample_found as Hall. rewrite forallb_forall in Hall. exact (Hall p (proj1 (list_elem_of_In _ _) Hp)).
    + exact up_not_down.
  - exact sample_read_setup.
  - exact sample_download.
  - exact sample_enough.
  - by left.
  - exists g, s2. split; [exact E|]. rewrite Hd. reflexivity.
Defined.
End ProxyTrips.
