(* ===== verification/ClientSample.v ===== *)
(** A client writes a file and another one reads it with two of four containers down, as
    an instance of the theorem on clients. *)

From stdpp Require Import pretty.
From S2P Require Import Prelude DS FileInfo Wire Isal Gf256 RSCode RSDecode RSTheorems File Coordinator ProxyCoordinator CoordinatorTheorems RegistrationTheorems ChunkManager.
From S2P Require Import AccessTheorems StripeTheorems WriteTheorems ChunkSample Redis MetaKeys RedisServer MetaStore MetaTheorems MetaVersions MetaLocks MetaSample.
From S2P Require Import PolicyStore Dedup Staging ZmqMessages ZmqClient ZmqTheorems Proxy ProxyRead ProxyPolicies ProxyFrame ProxyStripes ProxyWrites ProxyReads ProxyRoundTrip.
From S2P Require Import ZmqHandler ClientTrips ProxyRuns ProxyTrips.

#[local] Open Scope Z_scope.
#[local] Open Scope outcome_scope.

Module ClientSample.
Import Proxy ProxyRead ProxyRuns ProxyTrips ZmqHandler ZmqSample.

#[local] Existing Instances Gf256.isal Gf256.isal_laws ProxyRuns.sum_md5 decimal_uuid decimal_uuid_laws MetaSample.parser MetaSample.parser_laws
  MetaSample.generator ProxyRuns.no_staging DedupNone.none.

Definition place : Type := ProxyRuns.state * gmap string (list Z).
Definition no_reports : reports := mk_reports 4 2 0 [] SysInfo.init.
Definition no_faults : faults := mk_faults false false false false false false 0.

Definition through (w : Proxy.world) (r : ZmqClient.request_t) (s : place) : outcome (ZmqClient.answer * place) :=
  exchange (cfg false) all_memory all_memory no_reports no_faults (fun _ => 0) no_item no_agent w r s.

Definition before : place := (start ∅, ∅).
Definition ask_write : ZmqClient.request_t := set_up (to_write "f" "c" bytes) 1 blank.
Definition ask_read : ZmqClient.request_t := set_up (Read "f") 1 blank.
Definition after : place := match through idle_world ask_write before with Ok (_, s) => s | _ => before end.
Definition later : Proxy.world := world (ProxyRuns.sent (fst after)) [10; 13].

Lemma sample_writable : writable rs class 2 all_memory "f" "c" 1 bytes.
Proof. constructor; by repeat constructor. Qed.

Lemma after_found : forallb (found_as (ProxyRuns.sent (fst after)))
  (drop (length (ChunkManager._sent (_chunkManager (fst before)))) (ChunkManager._sent (_chunkManager (fst after)))) = true.
Proof. vm_compute. reflexivity. Qed.

Lemma after_read_setup : read_setup later (ProxyRuns.chunk_world (ProxyRuns.sent (fst after)) [10; 13]) rs addresses up (fst after).
Proof.
  assert (forall id, up id = true -> id = 11 \/ id = 12) as Hup by (by intros id ?%bool_decide_eq_true).
  constructor; [reflexivity|done| |reflexivity|apply code_decodable| | |].
  - intros i len. eexists. split; [reflexivity|]. by rewrite length_replicate.
  - intros id [-> | ->]%Hup; by eexists.
  - intros i. vm_compute. done.
  - intros id [-> | ->]%Hup; vm_compute; reflexivity.
Qed.

Lemma after_allowed : none_held (cfg false) later (fst after) no_read (with_namespace (cfg false) (read_request "f" 1)).
Proof. intros ty i j Hty. apply list_elem_of_singleton in Hty as ->. vm_compute. reflexivity. Qed.

Lemma after_enough : enough_up (cfg false) later rs 2 up (read_request "f" 1) (fst after).
Proof.
  intros g s' E.
  assert (match Proxy.getMeta later (looked_up (cfg false) (read_request "f" 1)) 3 (fst after) with
          | Ok (_, g, _) => forallb (fun j => 2 <=? length (filter (fun x => up (ChunkManager.file_ids g !!! (j * 4 + x)%nat) = true) (seq 0 4)))%nat (seq 0 2)
          | _ => true
          end = true) as Hall by (vm_compute; reflexivity).
  rewrite E in Hall.
  rewrite forallb_forall in Hall. intros j Hj. apply Nat.leb_le, Hall, in_seq. lia.
Qed.

(** The reply to the write. *)
Lemma write_answered : exists v r, through idle_world ask_write before = Ok (ZmqClient.Replied v r, after) /\ v <> ZmqClient.ULONG_MAX.
Proof.
  unfold after.
  assert (match through idle_world ask_write before with Ok (ZmqClient.Replied v _, _) => negb (v =? ZmqClient.ULONG_MAX) | _ => false end = true) as E
    by (vm_compute; reflexivity).
  destruct (through _ _ _) as [| |[[|v r] s]]; try discriminate E. exists v, r. split; [reflexivity|].
  intros ->. discriminate E.
Qed.

Lemma client_write_read_witness :
  exists r s, through later ask_read after = Ok (ZmqClient.Replied 9 r, s) /\ ZmqClient.data (ZmqClient.file r) = Some bytes.
Proof.
  destruct write_answered as (v & r1 & Ew & Hv).
  destruct (client_write_read (cfg false) idle_world (ProxyRuns.chunk_world [] []) later (ProxyRuns.chunk_world (ProxyRuns.sent (fst after)) [10; 13])
    rs class all_memory all_memory no_reports no_faults no_reports no_faults (fun _ => 0) no_item no_agent "f" "c" 1 bytes 2 addresses up
    before after blank blank [] ∅ v r1) as (_ & _ & r2 & s2 & E & Hd).
  - exact sample_write_setup.
  - exact start_ready.
  - reflexivity.
  - exact start_history.
  - done.
  - exact sample_writable.
  - intros n; reflexivity.
  - vm_compute; split; congruence.
  - vm_compute; split; congruence.
  - exact Ew.
  - exact Hv.
  - intros p Hp _. apply agents_keep.
    + pose proof after_found as Hall. rewrite forallb_forall in Hall. exact (Hall p (proj1 (list_elem_of_In _ _) Hp)).
    + exact up_not_down.
  - exact after_read_setup.
  - exact after_allowed.
  - exact after_enough.
  - exists r2, s2. split; [exact E|exact Hd].
Defined.
End ClientSample.
