(* ===== verification/RingBuffer.v ===== *)
(** The ring buffer between threads ([src/ds/ring_buffer.hh]): a bounded queue in
    an array, with a mutex and two condition variables.

    The code between two waits runs under the mutex and is one step.  A call that
    waits goes on when its thread is woken up, without a second look at the
    buffer; [pthread_cond_wait] may return at any time.  The refinement of a queue
    holds for runs in which every thread that wakes up finds room or data, and a
    counterexample shows that other runs lose data. *)

From S2P Require Import Prelude.

Module RingBuffer.
Section buffer.
Context {T : Type} `{Inhabited T}.

Record t := mk {
  buffer : list (Z * T);             (* length and data *)
  readIndex : nat;
  writeIndex : nat;
  count : Z;                         (* int *)
  max : nat;
  run : bool;
  blockOnEmpty : bool
}.

(** The constructor; [fresh] is what the new array holds. *)
Definition init (size : nat) (block : bool) (fresh : list (Z * T)) : t :=
  let size := if (size <? 2)%nat then 2%nat else size in
  mk (take size (fresh ++ replicate size inhabitant)) 0 0 0 size true block.

Definition nextVal (s : t) (x : nat) : nat := if (max s <=? x + 1)%nat then 0%nat else (x + 1)%nat.

(** [Insert] once there is room, or after the wait. *)
Definition store (s : t) (data : T) (len : Z) : t :=
  mk (<[writeIndex s := (len, data)]> (buffer s)) (readIndex s) (nextVal s (writeIndex s)) (count s + 1) (max s)
     (run s) (blockOnEmpty s).

(** [Extract] once there is data, or after the wait. *)
Definition fetch (s : t) : T * t :=
  ((buffer s !!! readIndex s).2,
   mk (buffer s) (nextVal s (readIndex s)) (writeIndex s) (count s - 1) (max s) (run s) (blockOnEmpty s)).

Definition stopWhenEmptied (s : t) : t :=
  mk (buffer s) (readIndex s) (writeIndex s) (count s) (max s) false (blockOnEmpty s).

Definition highWaterMark (s : t) : bool := Z.of_nat (max s) <=? count s + 1.

(** The calls up to their first wait: the result, or [None] when they wait. *)
Definition Insert (s : t) (data : T) (len : Z) : option t :=
  if count s =? Z.of_nat (max s) then None else Some (store s data len).

Definition Extract (s : t) : option (option T * t) :=
  if count s =? 0 then (if blockOnEmpty s then None else Some (None, s))
  else let (x, s) := fetch s in Some (Some x, s).

(** ** Threads *)

(** The buffer, the calls of [Insert] that wait and the number of calls of
    [Extract] that wait. *)
Record machine := mk_machine { ring : t; inserting : list (T * Z); extracting : nat }.

Inductive event := Inserted (x : T) | Extracted (x : T) | Nothing.

(** [patient]: a thread that wakes up finds what it waited for. *)
Inductive step (patient : bool) : machine -> event -> machine -> Prop :=
| step_insert s ins ext x len s' : Insert s x len = Some s' ->
    step patient (mk_machine s ins ext) (Inserted x) (mk_machine s' ins ext)
| step_insert_waits s ins ext x len : Insert s x len = None ->
    step patient (mk_machine s ins ext) Nothing (mk_machine s (ins ++ [(x, len)]) ext)
| step_insert_wakes s l1 l2 ext x len : (patient = true -> count s <> Z.of_nat (max s)) ->
    step patient (mk_machine s (l1 ++ (x, len) :: l2) ext) (Inserted x) (mk_machine (store s x len) (l1 ++ l2) ext)
| step_extract s ins ext x s' : Extract s = Some (Some x, s') ->
    step patient (mk_machine s ins ext) (Extracted x) (mk_machine s' ins ext)
| step_extract_empty s ins ext s' : Extract s = Some (None, s') ->
    step patient (mk_machine s ins ext) Nothing (mk_machine s' ins ext)
| step_extract_waits s ins ext : Extract s = None ->
    step patient (mk_machine s ins ext) Nothing (mk_machine s ins (Datatypes.S ext))
| step_extract_wakes s ins ext x s' : (patient = true -> count s <> 0) -> fetch s = (x, s') ->
    step patient (mk_machine s ins (Datatypes.S ext)) (Extracted x) (mk_machine s' ins ext)
| step_stop s ins ext : step patient (mk_machine s ins ext) Nothing (mk_machine (stopWhenEmptied s) ins ext).

Inductive steps (patient : bool) : machine -> list event -> machine -> Prop :=
| steps_refl m : steps patient m [] m
| steps_snoc m tr m' e m'' : steps patient m tr m' -> step patient m' e m'' -> steps patient m (tr ++ [e]) m''.

(** ** The queue it implements *)

Definition contents (s : t) : list T :=
  map (fun i => (buffer s !!! ((readIndex s + i) mod max s)%nat).2) (seq 0 (Z.to_nat (count s))).

Definition inserted (tr : list event) : list T := omap (fun e => match e with Inserted x => Some x | _ => None end) tr.
Definition extracted (tr : list event) : list T := omap (fun e => match e with Extracted x => Some x | _ => None end) tr.

(** ** Well-formed buffers *)

Definition wf (s : t) : Prop :=
  (2 <= max s)%nat /\ length (buffer s) = max s /\ (readIndex s < max s)%nat /\
  0 <= count s <= Z.of_nat (max s) /\ writeIndex s = ((readIndex s + Z.to_nat (count s)) mod max s)%nat.

Lemma init_wf size block fresh : wf (init size block fresh).
Proof.
  unfold init. set (n := if (size <? 2)%nat then 2%nat else size).
  assert (2 <= n)%nat as Hn by (unfold n; destruct (Nat.ltb_spec size 2); lia). unfold wf. cbn.
  rewrite length_take, length_app, length_replicate. split_and!; try lia. by rewrite Nat.Div0.mod_0_l.
Qed.

Lemma nextVal_mod s x : (2 <= max s)%nat -> (x < max s)%nat -> nextVal s x = ((x + 1) mod max s)%nat.
Proof.
  intros Hm Hx. unfold nextVal. destruct (Nat.leb_spec (max s) (x + 1)).
  - replace (x + 1)%nat with (max s) by lia. by rewrite Nat.Div0.mod_same.
  - by rewrite Nat.mod_small.
Qed.

Lemma mod_twice m a b : (b <= a)%nat -> (a < 2 * m)%nat -> (a mod m = b mod m)%nat -> (a = b + m \/ a = b)%nat.
Proof.
  intros Hab Ha E. destruct (decide (a < m)%nat).
  - rewrite !Nat.mod_small in E by lia. lia.
  - replace a with (a - m + 1 * m)%nat in E at 1 by lia. rewrite Nat.Div0.mod_add in E.
    rewrite (Nat.mod_small (a - m)) in E by lia. destruct (decide (b < m)%nat).
    + rewrite Nat.mod_small in E by lia. lia.
    + replace b with (b - m + 1 * m)%nat in E by lia. rewrite Nat.Div0.mod_add, Nat.mod_small in E by lia. lia.
Qed.

Lemma contents_store s x len : wf s -> count s <> Z.of_nat (max s) ->
  wf (store s x len) /\ contents (store s x len) = contents s ++ [x].
Proof.
  intros (Hm & Hl & Hr & Hc & Hw) Hroom. pose proof (Nat.mod_upper_bound (readIndex s + Z.to_nat (count s)) (max s)).
  split.
  - unfold wf, store. cbn. rewrite length_insert, nextVal_mod by lia. split_and!; try lia.
    rewrite Hw, Nat.Div0.add_mod_idemp_l. f_equal. lia.
  - unfold contents, store. cbn. replace (Z.to_nat (count s + 1)) with (Z.to_nat (count s) + 1)%nat by lia.
    rewrite seq_app, map_app. f_equal.
    + apply map_ext_in. intros i [_ Hi]%in_seq. f_equal. apply list_lookup_total_insert_ne. rewrite Hw. intros E.
      assert (readIndex s + Z.to_nat (count s) = readIndex s + i + max s \/
        readIndex s + Z.to_nat (count s) = readIndex s + i)%nat; [|lia].
      apply (mod_twice (max s)); [lia..|exact E].
    + cbn. rewrite <- Hw. by rewrite list_lookup_total_insert_eq by lia.
Qed.

Lemma contents_fetch s x s' : wf s -> count s <> 0 -> fetch s = (x, s') -> wf s' /\ contents s = x :: contents s'.
Proof.
  intros (Hm & Hl & Hr & Hc & Hw) Hne [= <- <-]. split.
  - unfold wf. cbn. rewrite nextVal_mod by lia. pose proof (Nat.mod_upper_bound (readIndex s + 1) (max s)).
    split_and!; try lia. rewrite Hw, Nat.Div0.add_mod_idemp_l. f_equal. lia.
  - unfold contents. cbn. replace (Z.to_nat (count s)) with (Datatypes.S (Z.to_nat (count s - 1))) by lia. cbn [seq map].
    f_equal; [by rewrite Nat.add_0_r, Nat.mod_small|]. rewrite <- seq_shift, map_map. apply map_ext. intros i.
    rewrite nextVal_mod, Nat.Div0.add_mod_idemp_l by lia. do 3 f_equal. lia.
Qed.

Lemma inserted_snoc tr e : inserted (tr ++ [e]) = inserted tr ++ match e with Inserted x => [x] | _ => [] end.
Proof. unfold inserted. rewrite omap_app. by destruct e. Qed.

Lemma extracted_snoc tr e : extracted (tr ++ [e]) = extracted tr ++ match e with Extracted x => [x] | _ => [] end.
Proof. unfold extracted. rewrite omap_app. by destruct e. Qed.

(** One step of the machine is a step of the queue. *)
Lemma step_queue m e m' : wf (ring m) -> step true m e m' -> wf (ring m') /\
  match e with
  | Inserted x => contents (ring m') = contents (ring m) ++ [x]
  | Extracted x => contents (ring m) = x :: contents (ring m')
  | Nothing => contents (ring m') = contents (ring m)
  end.
Proof.
  intros Hwf Hstep. destruct Hstep as [s ins ext x len s' Hi| |s l1 l2 ext x len Hc|s ins ext x s' He|s ins ext s' He| |
    s ins ext x s' Hc Hf|s ins ext]; cbn [ring] in *; try done.
  - unfold Insert in Hi. destruct (Z.eqb_spec (count s) (Z.of_nat (max s))); [done|]. injection Hi as <-. by apply contents_store.
  - apply contents_store; auto.
  - unfold Extract in He. destruct (Z.eqb_spec (count s) 0); [by destruct (blockOnEmpty s)|].
    destruct (fetch s) as [y s1] eqn:Hf. injection He as -> ->. by apply contents_fetch.
  - unfold Extract in He. destruct (Z.eqb_spec (count s) 0); [|by destruct (fetch s)].
    destruct (blockOnEmpty s); [done|]. by injection He as <-.
  - apply contents_fetch; auto.
Qed.

(** Capacity and mode do not change. *)
Lemma steps_static patient m0 tr m : steps patient m0 tr m ->
  max (ring m) = max (ring m0) /\ blockOnEmpty (ring m) = blockOnEmpty (ring m0).
Proof.
  induction 1 as [|m0 tr m e m' _ [<- <-] Hstep]; [done|].
  destruct Hstep as [s ins ext x len s' Hi| | |s ins ext x s' He|s ins ext s' He| |s ins ext x s' _ Hf|]; cbn [ring]; try done.
  - unfold Insert in Hi. destruct (_ =? _); [done|]. by injection Hi as <-.
  - unfold Extract in He. destruct (_ =? _); [by destruct (blockOnEmpty s)|]. cbn in He. by injection He as _ <-.
  - unfold Extract in He. destruct (_ =? _); [|done]. destruct (blockOnEmpty s) eqn:E; [done|]. injection He as <-. by rewrite E.
  - by injection Hf as _ <-.
Qed.

Lemma steps_queue m0 tr m : wf (ring m0) -> contents (ring m0) = [] -> steps true m0 tr m ->
  wf (ring m) /\ inserted tr = extracted tr ++ contents (ring m).
Proof.
  intros Hwf He. induction 1 as [m|m0 tr m e m' Hs IH Hstep]; [by rewrite He|].
  destruct (IH Hwf He) as [Hw Heq]. destruct (step_queue m e m' Hw Hstep) as [Hw' Hq]. split; [done|].
  rewrite inserted_snoc, extracted_snoc, Heq. destruct e; rewrite ?app_nil_r.
  - by rewrite Hq, app_assoc.
  - by rewrite Hq, <- app_assoc.
  - by rewrite Hq.
Qed.
End buffer.
End RingBuffer.

Import RingBuffer.

(** C37: The ring buffer refines a bounded first-in-first-out queue.  In every run of
    any number of threads that insert and extract, wait and wake up to find what
    they waited for, the elements extracted are the first ones inserted, in order;
    the rest is in the buffer, which never holds more than its capacity; a call
    waits only when the buffer is full or empty. *)
Theorem ring_buffer_queue {T} `{Inhabited T} size block (fresh : list (Z * T)) tr m :
  steps true (mk_machine (init size block fresh) [] 0) tr m ->
  inserted tr = extracted tr ++ contents (ring m) /\ (length (contents (ring m)) <= Nat.max 2 size)%nat /\
  (forall x len, Insert (ring m) x len = None <-> length (contents (ring m)) = Nat.max 2 size) /\
  (Extract (ring m) = None <-> contents (ring m) = [] /\ block = true).
Proof.
  intros Hs. destruct (steps_queue (mk_machine (init size block fresh) [] 0) tr m (init_wf size block fresh) eq_refl Hs) as [(Hm & Hl & Hr & Hc & Hw) Heq].
  destruct (steps_static _ _ _ _ Hs) as [Hmax Hblock]. unfold init in Hmax, Hblock. cbn [ring max blockOnEmpty] in Hmax, Hblock.
  assert (max (ring m) = Nat.max 2 size) as Hcap.
  { rewrite Hmax. destruct (Nat.ltb_spec size 2); lia. }
  assert (length (contents (ring m)) = Z.to_nat (count (ring m))) as Hlen
    by (unfold contents; by rewrite length_map, length_seq).
  split; [done|]. rewrite Hlen, <- Hcap. split; [lia|]. split.
  - intros x len. unfold Insert. destruct (Z.eqb_spec (count (ring m)) (Z.of_nat (max (ring m)))); split; intros; try done; lia.
  - unfold Extract. rewrite Hblock. destruct (Z.eqb_spec (count (ring m)) 0) as [E|E].
    + destruct (contents (ring m)); [|rewrite E in Hlen; done]. destruct block; by split; [|intros [_ ?]].
    + destruct (fetch (ring m)). split; [done|]. intros [He _]. rewrite He in Hlen. cbn in Hlen. lia.
Qed.

Module RingSample.

Definition two : machine := mk_machine (init (T := Z) 1 true []) [] 0.

(** The third call of [Insert] waits, one element is extracted, and it goes on. *)
Definition full : t := store (store (ring two) 1 0) 2 0.

Lemma patient_run : steps true two [Inserted 1; Inserted 2; Nothing; Extracted 1; Inserted 3]
  (mk_machine (store (snd (fetch full)) 3 0) [] 0).
Proof.
  apply (steps_snoc true _ [Inserted 1; Inserted 2; Nothing; Extracted 1] (mk_machine (snd (fetch full)) ([] ++ [(3, 0)]) 0)).
  2:{ by apply (step_insert_wakes true _ [] []). }
  apply (steps_snoc true _ [Inserted 1; Inserted 2; Nothing] (mk_machine full ([] ++ [(3, 0)]) 0)).
  2:{ by apply step_extract. }
  apply (steps_snoc true _ [Inserted 1; Inserted 2] (mk_machine full [] 0)).
  2:{ by apply step_insert_waits. }
  apply (steps_snoc true _ [Inserted 1] (mk_machine (store (ring two) 1 0) [] 0)).
  2:{ by apply (step_insert _ _ _ _ 2 0). }
  apply (steps_snoc true _ [] two); [constructor|]. by apply (step_insert _ _ _ _ 1 0).
Qed.

Lemma ring_buffer_queue_witness :
  contents (store (snd (fetch full)) 3 0) = [2; 3] /\
  inserted [Inserted 1; Inserted 2; Nothing; Extracted 1; Inserted 3] = [1] ++ [2; 3].
Proof.
  destruct (ring_buffer_queue 1 true [] _ _ patient_run) as [Hq _]. split; [vm_compute; reflexivity|].
  etrans; [exact Hq|]. vm_compute. reflexivity.
Defined.

(** A thread that wakes up although the buffer is full overwrites the oldest
    element, and what is extracted next was inserted last. *)
Theorem spurious_wakeup_overwrites : exists m,
  steps false two [Inserted 1; Inserted 2; Nothing; Inserted 3; Extracted 3] m /\
  ~ exists rest, [1; 2; 3] = [3] ++ rest.
Proof.
  eexists. split; [|by intros [rest [= ]]].
  apply (steps_snoc false _ [Inserted 1; Inserted 2; Nothing; Inserted 3] (mk_machine (store full 3 0) ([] ++ []) 0)).
  2:{ by apply step_extract. }
  apply (steps_snoc false _ [Inserted 1; Inserted 2; Nothing] (mk_machine full ([] ++ [(3, 0)]) 0)).
  2:{ by apply (step_insert_wakes false _ [] []). }
  apply (steps_snoc false _ [Inserted 1; Inserted 2] (mk_machine full [] 0)).
  2:{ by apply step_insert_waits. }
  apply (steps_snoc false _ [Inserted 1] (mk_machine (store (ring two) 1 0) [] 0)).
  2:{ by apply (step_insert _ _ _ _ 2 0). }
  apply (steps_snoc false _ [] two); [constructor|]. by apply (step_insert _ _ _ _ 1 0).
Qed.
End RingSample.
